(* ===== verification/_CoqProject ===== *)
-Q . S2P
Prelude.v
JsNumber.v
Text.v
Json.v
Http.v
Columns.v
Money.v
Ledger.v
LedgerStore.v
LedgerProofs.v
LedgerTheorems.v
Pricing.v
PricingProofs.v
HireSettlement.v
PaymentIntent.v
IntentStore.v
Payments.v
IntentProofs.v
PaymentsProofs.v
PaymentsTheorems.v
PaymentsRace.v
BookingState.v
BookingStore.v
BookingProofs.v
Bookings.v
BookingTheorems.v
BookingHistory.v
BookingOutcomes.v
System.v
AuditLog.v
AuditTheorems.v
IdentityStore.v
Identity.v
IdentityProofs.v
IdentityRows.v
SecondFactor.v
IdentityTheorems.v
IdentityOutcomes.v
AdmissionTheorems.v
LocalTime.v
Quotes.v
QuoteTheorems.v
Calendar.v
CoreText.v
Answers.v
AnswersProofs.v
UnitEconomics.v
CatalogueStore.v
ListingStore.v
ListingRows.v
Cipher.v
Profiles.v
Listings.v
Digest.v
ListingProofs.v
ListingTheorems.v
ListingOutcomes.v
Search.v
Geocoder.v
Media.v
Flags.v
RateLimit.v
Worker.v
Logging.v
SearchQuery.v
SearchTheorems.v
LocationTheorems.v
ProfileTheorems.v
MediaTheorems.v
FlagTheorems.v
RateLimitTheorems.v
WorkerTheorems.v
Examples.v
IdentityExamples.v
QuoteExamples.v
ListingExamples.v
SearchExamples.v
ProfileExamples.v
MediaExamples.v
EdgeExamples.v
