(* ===== verification/Prelude.v ===== *)
(** * Rental marketplace: a verification development

    The program is a marketplace where owners hire out tools.  Its server
    ([apps/api/src]) quotes a price, takes a request for dates, lets the owner accept
    or decline, charges the renter, secures the handover, and keeps double-entry
    books.  This development models that core, the packages it computes with
    ([packages/core/src], [packages/contracts/src]) and the constraints of its
    Postgres tables ([packages/database/prisma/migrations]).

    ** The parts, and where they are modelled

    - Numbers and text: [JsNumber] (binary64, over the Standard Library's
      [SpecFloat], axiom-free), [Text] (trim, digits, the decimal grammar), [Json]
      ([JSON.parse] and [JSON.stringify]; its parser takes the length of the text,
      which is enough, as the round trip shows).
    - Money: [Money], for [packages/core/src/money.ts].
    - The books: [Ledger] for [payments/ledger.ts]; [LedgerStore] for the tables of
      the migration, [prisma-ledger-store.ts] and [ledger.service.ts].
    - Prices: [Pricing] for [pricing/renter-fee.ts], [daily-price.ts],
      [rental-quote.ts] and [damage-excess.ts].
    - Settlement: [HireSettlement] for [payments/hire-settlement.ts].
    - Payment attempts: [PaymentIntent] for [payment-intent.ts] and
      [payment-provider.ts] (the provider is the class [PaymentProvider]);
      [IntentStore] for the table and [prisma-payment-intent-store.ts]; [Payments]
      for [payments.service.ts] and [reconciliation.service.ts].
    - Bookings: [BookingState] for [booking-state-machine.ts] and [payability.ts];
      [BookingStore] for the tables, [prisma-booking-store.ts] and
      [prisma-availability-store.ts]; [Bookings] for [bookings.service.ts],
      [request-expiry.service.ts], [availability.service.ts] and
      [packages/core/src/paging.ts].  What bookings ask of other modules is the class
      [BookingPorts].
    - Quotes and calendars: [LocalTime] for [packages/core/src/time.ts] (luxon is the
      class [Luxon]), [local-period.ts] and [rental-period.ts]; [Quotes] for the table
      of quotes, [prisma-quote-store.ts], [quotes.service.ts], the month calendar of
      [availability.service.ts] and [booking-data.service.ts]; [Calendar], the
      Gregorian calendar and British clocks as an instance of [Luxon].
    - The whole: [System], the two adapters of [main.ts] that answer booking's
      payment ports with the payments service, as an instance of [BookingPorts].
    - Audit: [Columns] for the ids and addresses the code checks and the columns
      that take them; [AuditLog] for [audit/audit-log.ts], [prisma-audit-log.ts] and
      [audit.service.ts].
    - Identity: [IdentityStore] for the tables and their adapters
      ([identity/prisma-identity-store.ts], [prisma-admin-approval-store.ts],
      [prisma-authentication-events.ts]); [Identity] for the services over them
      ([identity.service.ts], [account-admin.service.ts], [role-approval.service.ts],
      [account-erasure.ts], [account-data.service.ts]).  What other modules erase and
      the digest the audit stores are the class [IdentityPorts].
    - Admission: [SecondFactor] for the chain of second factors, its provers, the
      session verifier and [auth.guard.ts].
    - The catalogue: [CoreText] for [packages/core/src/scaled.ts], [postcode.ts] and
      [phone.ts]; [Answers] for what the contracts compute about listings
      ([packages/contracts/src/attribute-values.ts], [transport.ts],
      [publication.ts], and the lifecycle in [listings.ts]); [UnitEconomics] for
      [pricing/cost-model.ts], [unit-economics.ts] and [margin-rule.ts];
      [CatalogueStore] for the tables and [catalogue/prisma-category-store.ts];
      [ListingStore] for [prisma-listing-store.ts] (the cipher of addresses is the
      class [FieldEncryptor]); [Listings] for [catalogue.service.ts] and
      [listings.service.ts].  What they ask of accounts, bookings, search, pictures
      and the publication flag is the class [ListingPorts].
    - Profiles: [Cipher] for [encryption/field-encryption.ts], an instance of
      [FieldEncryptor] over Node's [crypto] as a class; [Profiles] for
      [profiles/prisma-profile-store.ts] and [profiles.service.ts]; [Digest] for
      [audit/state-digest.ts] and what the modules put in it.
    - Search and location: [Search] for [search-location/]: distance buckets, the
      offsets that displace points ([fuzz.ts]), placing postcodes quietly, the
      search statement of [prisma-listing-search.ts] over the tables of listings and
      bookings, and, as [main.ts] wires them, an instance of [ListingPorts].  The
      geocoder, the random source, sines and their kin, PostGIS and text search are
      classes.  [Geocoder], for [postcodes-io-geocoder.ts], is an instance of the
      geocoder over [Http]: percent-encoding, and [fetch] as a class.
    - Pictures: [Media] for [catalogue/prepare-image.ts] (the image library is a
      class), the table of pictures ([prisma-listing-media-store.ts]), the store of
      objects in memory and in R2 ([memory-object-store.ts], [r2-object-store.ts]),
      [listing-media.service.ts] and [listing-image-signer.ts].
    - Search links: [SearchQuery], for the query and its schema in
      [packages/contracts/src/search.ts]; [Number(s)] is in it; how a server splits a
      query is the class [QueryParser].
    - Flags: [Flags], for [packages/contracts/src/feature-flags.ts], the table of
      overrides, [prisma-flag-store.ts] and [feature-flags.service.ts] with the cache
      each process keeps.
    - Rate limits: [RateLimit], for [rate-limiting/policy.ts],
      [redis-rate-limiter.ts] (three commands of Redis are the class
      [CountingClient]) and [rate-limit.guard.ts].
    - The worker: [Worker], for the envelopes, the processor and the handlers of
      [apps/worker/src], and for what they reach over HTTP in the API:
      [internal-trigger.guard.ts], [request-expiry.controller.ts] and
      [reconciliation.controller.ts].
    - The log: [Logging], for [packages/observability/src/redaction.ts], [logger.ts] and
      [error-tracking.ts], over values by reference; the fuel of [redact] is an object
      more than there are, which is enough, as [redact_returns] shows.
    - [Examples], [IdentityExamples], [QuoteExamples], [ListingExamples],
      [SearchExamples], [ProfileExamples], [MediaExamples], [EdgeExamples]:
      concrete runs, at which every theorem with hypotheses is applied, and the races
      the stores and services lose.

    ** How state and concurrency are modelled

    An operation is a function from a state to a state and a [result]; a write made
    before a throw stays, except inside a [transaction], or a [transaction_over] where
    others commit in the middle of it.  Each [await] of a service is
    the step [await], at which a [rival] (any list of other requests) may commit; each
    read-then-write of an adapter takes a [rival] of its own, whatever other
    connections commit in between; Postgres's choice of deadlock victims is the
    oracle [victim].  The theorems quantify over all of these, given only that rivals
    are themselves runs of the program (or keep its invariant).  Theorems that say
    undisturbed, or that nothing else happens meanwhile, have the idle rival ([calm]);
    the races that break them otherwise are among the examples.  The network between
    the worker and the API delivers, loses a request or loses its answer
    ([InternalRoutes.Delivery]).  Generated ids come from an injective source
    ([UuidSource]); the clock is a field of the state.

    ** What the theorems show

    - [LedgerTheorems]: the trial balance, exactly-once posting, refusal of a reused
      key, reversal exactly once, append-only tables, one account per identity, and
      that the database's balance is the pure one.
    - [PricingProofs]: the quote is the cheapest combination; fee, floor and total;
      the headline agrees with the one-day quote; the excess stays in its band.
    - [HireSettlement]: settlement conserves money, and its entries are postable.
    - [PaymentsTheorems], [PaymentsRace]: money marked taken is in the books, once;
      one success per booking; a second press calls nobody; holds post nothing; the
      stores' operations linearise; the sweep refreshes what is overdue, the longest
      unchanged first, and counts what became of it.
    - [BookingTheorems], [BookingHistory], [BookingOutcomes]: no two bookings of a
      listing hold overlapping dates under any interleaving; terms never change; every
      state is explained by its history; the functional behaviour of accepting,
      paying, expiring, asking twice and listing.
    - [System]: a reserved booking is paid for, in full, in the books.
    - [QuoteTheorems]: every stored quote is a lawful hire of whole days, whatever the
      clocks do; asking for a price and blocking dates, on every branch; erasing
      quotes removes what the data export lists.
    - [IdentityTheorems] (over [IdentityProofs], every handler as a list of
      statements, and [IdentityRows], what statements do to rows): under any
      interleaving roles change only with two accounts, accounts stay distinct, the
      deleted stay out, deliveries act once, the audit trail only grows.
    - [IdentityOutcomes]: suspending, reinstating, approving and deleting, on every
      branch; undisturbed, somebody can always administer.
    - [AdmissionTheorems]: whom the guard lets through; the second factors fail
      closed, the bypass is the last to be asked; provisioning converges.
    - [ListingTheorems] (over [ListingRows], what statements do to rows and the
      invariant of the tables, and [ListingProofs], every handler as a list of
      statements): under any interleaving the catalogue stays lawful, what a moderator
      hid stays hidden, only the owner changes a listing, and versions are only added;
      and exactly when a listing can be booked.
    - [ListingOutcomes]: publishing, drafting, editing, moderating and erasing,
      undisturbed, on every branch.
    - [SearchTheorems]: the pages of a search partition one ranking of exactly what
      answers it; the public's answers are the same wherever a listing really is, as
      long as what is published of it is.
    - [LocationTheorems]: under any interleaving every stored point is the true one
      displaced by its own offset; search and location keep the promises of their
      port; what a search shows is what a quote is made from.
    - [ProfileTheorems]: under any interleaving the tables stay well formed and only
      the owner's rows move; what is saved is read back; erasing leaves nothing;
      strangers see a name, an area and a month.  [Cipher]: an address opens on its
      own row only.  [Digest]: digests are equal exactly when contents are.
    - [MediaTheorems]: under any interleaving no row of a picture is left without its
      bytes; an order is what was asked; exactly which uploads are accepted; erasing
      finishes, whatever the store of objects does.  [Geocoder]: exactly what it
      answers, and what it throws.
    - [AnswersProofs], [CoreText], [UnitEconomics]: answers accepted are accepted again
      as the form shows them; one spelling per postcode and phone number; a booking's
      economics account for every penny, and the break-even found is the first.
    - [SearchQuery]: a search that was understood, written as a link, is read as the
      same search.
    - [FlagTheorems]: a switch is in effect once it answers, here, unless a read that was
      in flight comes back with the old value, and everywhere ten seconds after the last
      of those; asking for a flag never fails.
    - [RateLimitTheorems]: under any interleaving of statements one window lets its
      limit through, and beyond it only whom a failing store could not count; nobody is
      locked out for good; what the guard answers.
    - [WorkerTheorems]: a job of the expiry sweep does what the sweep does, across the
      queue's processor, HTTP, the guard and the controller, whatever the network loses.
    - [Logging]: what differs only under sensitive names, in passwords of addresses that
      have a user name or in tokens after their scheme is logged alike; redacting returns,
      whatever the references.
    - [AuditTheorems]: a page of activity is the newest of it and keeps others'
      addresses out; the export says when it was cut.

    ** Bounds

    Integers are [Z]; the code's own checks (safe integers, [INTEGER] columns) are
    part of the definitions.  Nothing is cut off by fuel: the loops of the code are
    structural here, over lists or over [DEADLOCK_ATTEMPTS] = 2, save the parser of JSON
    and [redact], whose fuel is shown to be enough.  The pricing theorems
    assume hires of at most [MAX_DAYS] = 400 days (the contract allows 88) and rates up
    to the contract's [MAX_RENTAL_RATE_MINOR_UNITS]; the excess theorem assumes
    values up to [MAX_CHARGE] = 2^52 pence.

    ** Not modelled

    - Letter case of ids in columns that the code fills with ids it read (they are
      compared as text), and the ledger's foreign keys to users and bookings.
    - zod schemas and controllers, save those of searches and of the two internal
      triggers: what they check appears as hypotheses.
    - The projection of bookings to wire formats; text written for people ([Intl]).
    - Of identity: the assembly of a person's data export, and the translation of
      Clerk's webhooks into [IdentityEvent]s.
    - Of the worker: BullMQ's queue and its schedules, and starting, probing and
      stopping the process.
    - Which lines the services log, save the worker's jobs; metrics, configuration,
      shutting down.
    - The web application, React components over the API, and the scripts that deploy. *)

From Stdlib Require Export ZArith Lia.
From stdpp Require Export base decidable option list strings gmap sorting.

#[global] Set Default Goal Selector "!".

(** ** Errors

    Every class of error the modelled code throws.  The [string] is the fixed
    part of the message; interpolated values are left out.  Code that branches
    with [instanceof] branches on the constructor. *)
Inductive error : Type :=
  | MoneyError (why : string)
  | ScaledError (why : string)
  | TimeError (why : string)
  | PostcodeError (why : string)
  | PhoneError (why : string)
  | LedgerError (why : string)
  | PaymentIntentError (why : string)
  | InvalidBookingTransitionError (from_ to_ : string)
  | BookingStateChangedError (bookingId state : string)
  | OverlappingBookingError (id : string)
  | DuplicateQuoteBookingError (quoteId : string)
  | RequestRefusedError (refusal : string)
  | QuoteRefusedError (refusal : string)
  | BlockRefusedError (refusal : string)
  | UnknownCategoryError (slug : string)
  | CategoryChangedError (slug : string) (expected actual : Z)
  | CategorySlugTakenError (slug : string)
  | CategoryMarginError (why : string)
  | TransportRequirementNotOfferedError
  | AttributeValuesInvalidError (issues : list (option string * string))
  | PublicationSuspendedError
  | ListingTransitionRefusedError (refusal : string)
  | ModerationReasonRequiredError
  | ListingNotPublishableError (blockers : list (string * string))
  | PublishedListingIncompleteError (blockers : list (string * string))
  | DecryptionError (why : string)
  | ConfigurationError (message : string)
  | ProfileConflictError
  | SyntaxError (message : string)
  | TypeError (message : string)
  | GeocoderUnavailableError (why : string)
  | ObjectStoreUnavailableError (why : string)
  | ImageRejectedError (reason : string)
  | ListingMediaRefusedError (reason : string)
  | HttpException (status : Z)
  | UserConflictError
  | AccountDeletedError
  | ApprovalRefusedError (why : string)
  | ApprovalConflictError (why : string)
  | SessionVerificationError (why : string)
  | UnauthorizedException
  | ForbiddenException
  | DatabaseError (constraint : string)
  | ForeignError (why : string).

#[global] Instance error_eq_dec : EqDecision error.
Proof. solve_decision. Defined.

(** ** Computations that may throw *)
Inductive result (A : Type) : Type :=
  | Ok (a : A)
  | Err (e : error).
Arguments Ok {A} a.
Arguments Err {A} e.

#[global] Instance result_eq_dec `{EqDecision A} : EqDecision (result A).
Proof. solve_decision. Defined.

#[global] Instance result_ret : MRet result := fun _ a => Ok a.
#[global] Instance result_bind : MBind result := fun _ _ f r =>
  match r with Ok a => f a | Err e => Err e end.
#[global] Instance result_fmap : FMap result := fun _ _ f r =>
  match r with Ok a => Ok (f a) | Err e => Err e end.

Definition is_ok {A} (r : result A) : bool :=
  match r with Ok _ => true | Err _ => false end.

(** [throw_if b e] is [if (b) throw e]. *)
Definition throw_if (b : bool) (e : error) : result () :=
  if b then Err e else Ok tt.

(** ** Stateful computations that may throw

    A write made before a [throw] is not undone by it, so the state is returned
    on both outcomes. *)
Definition M (S A : Type) : Type := S -> S * result A.

#[global] Instance M_ret {S} : MRet (M S) := fun _ a s => (s, Ok a).
#[global] Instance M_bind {S} : MBind (M S) := fun _ _ f m s =>
  match m s with
  | (s', Ok a) => f a s'
  | (s', Err e) => (s', Err e)
  end.
#[global] Instance M_fmap {S} : FMap (M S) := fun _ _ f m s =>
  match m s with
  | (s', Ok a) => (s', Ok (f a))
  | (s', Err e) => (s', Err e)
  end.

Definition throw {S A} (e : error) : M S A := fun s => (s, Err e).
Definition lift {S A} (r : result A) : M S A := fun s => (s, r).
Definition gets {S A} (f : S -> A) : M S A := fun s => (s, Ok (f s)).
Definition modify {S} (f : S -> S) : M S () := fun s => (f s, Ok tt).

(** [catch m h] is [try { m } catch (e) { h }]. *)
Definition catch {S A} (m : M S A) (h : error -> M S A) : M S A := fun s =>
  match m s with
  | (s', Ok a) => (s', Ok a)
  | (s', Err e) => h e s'
  end.

(** A database transaction, with nobody else at work inside it: what it wrote is dropped
    when it throws. *)
Definition transaction {S A} (m : M S A) : M S A := fun s =>
  match m s with
  | (s', Ok a) => (s', Ok a)
  | (_, Err e) => (s, Err e)
  end.

(** One in the middle of which others commit: when it throws, what it wrote is dropped and
    what they committed is not. *)
Definition transaction_over {S A B} (rival : S -> S) (first : M S A) (rest : A -> M S B) : M S B := fun s =>
  match first s with
  | (_, Err e) => (s, Err e)
  | (s1, Ok a) =>
      match rest a (rival s1) with
      | (s2, Ok b) => (s2, Ok b)
      | (_, Err e) => (rival s, Err e)
      end
  end.

Lemma bind_ok {S A B} (m : M S A) (f : A -> M S B) (s s' : S) (b : B) :
  mbind f m s = (s', Ok b) -> exists s1 a, m s = (s1, Ok a) /\ f a s1 = (s', Ok b).
Proof.
  unfold mbind, M_bind. destruct (m s) as [s1 [a|e]] eqn:Hm; [|done]. intros H. by exists s1, a.
Qed.

Lemma bind_run {S A B} (m : M S A) (f : A -> M S B) (s s1 : S) (a : A) :
  m s = (s1, Ok a) -> mbind f m s = f a s1.
Proof. unfold mbind, M_bind. by intros ->. Qed.

Lemma bind_at {S A B} (m : M S A) (f : A -> M S B) (s : S) :
  mbind f m s = match m s with (s', Ok a) => f a s' | (s', Err e) => (s', Err e) end.
Proof. done. Qed.

Lemma mret_at {S A} (a : A) (s : S) : mret (M := M S) a s = (s, Ok a).
Proof. done. Qed.

(** [keeps f m]: [m] leaves [f] of the state as it was, thrown or returned. *)
Definition keeps {S X A} (f : S -> X) (m : M S A) : Prop := forall s, f (fst (m s)) = f s.

Lemma keeps_bind {S X A B} (f : S -> X) (m : M S A) (k : A -> M S B) :
  keeps f m -> (forall a, keeps f (k a)) -> keeps f (mbind k m).
Proof.
  intros Hm Hk s. unfold mbind, M_bind. specialize (Hm s).
  destruct (m s) as [s1 [a|e]]; cbn in *; [|done]. by rewrite Hk.
Qed.

(** [guards I m Q]: [m] keeps the invariant [I], thrown or returned, and what it
    returns satisfies [Q]. *)
Definition guards {S A} (I : S -> Prop) (m : M S A) (Q : A -> Prop) : Prop :=
  forall s, I s -> I (fst (m s)) /\ forall a, snd (m s) = Ok a -> Q a.

Section Guards.
Context {S : Type} (I : S -> Prop).

Lemma guards_bind {A B} (m : M S A) (k : A -> M S B) (Q : A -> Prop) (R : B -> Prop) :
  guards I m Q -> (forall a, Q a -> guards I (k a) R) -> guards I (mbind k m) R.
Proof.
  intros Hm Hk s Hs. rewrite bind_at. specialize (Hm s Hs). destruct (m s) as [s1 [a|e]]; cbn in *; [|by destruct Hm].
  destruct Hm as [H1 H2]. by apply Hk; [apply H2|].
Qed.

Lemma guards_weaken {A} (m : M S A) (Q R : A -> Prop) : guards I m Q -> (forall a, Q a -> R a) -> guards I m R.
Proof. intros Hm H s Hs. destruct (Hm s Hs) as [H1 H2]. auto. Qed.

Lemma guards_ret {A} (a : A) (Q : A -> Prop) : Q a -> guards I (mret a) Q.
Proof. intros H s Hs. by split; [|intros ? [= <-]]. Qed.
Lemma guards_throw {A} (e : error) (Q : A -> Prop) : guards I (throw e) Q.
Proof. by intros s Hs. Qed.
Lemma guards_lift {A} (x : result A) : guards I (lift x) (fun a => x = Ok a).
Proof. by intros s Hs. Qed.
Lemma guards_gets {A} (f : S -> A) (Q : A -> Prop) : (forall s, I s -> Q (f s)) -> guards I (gets f) Q.
Proof. intros H s Hs. split; [done|]. intros ? [= <-]. auto. Qed.
Lemma guards_modify (f : S -> S) : (forall s, I s -> I (f s)) -> guards I (modify f) (fun _ => True).
Proof. by intros H s Hs; split; [apply H|]. Qed.
Lemma guards_transaction {A} (m : M S A) (Q : A -> Prop) : guards I m Q -> guards I (transaction m) Q.
Proof. intros Hm s Hs. unfold transaction. specialize (Hm s Hs). by destruct (m s) as [s1 [a|e]]. Qed.
Lemma guards_transaction_over {A B} (rival : S -> S) (m : M S A) (f : A -> M S B) (P : A -> Prop) (Q : B -> Prop) :
  (forall s, I s -> I (rival s)) -> guards I m P -> (forall a, P a -> guards I (f a) Q) -> guards I (transaction_over rival m f) Q.
Proof.
  intros Hr Hm Hf s Hs. unfold transaction_over. specialize (Hm s Hs). destruct (m s) as [s1 [a|e]]; [|by split].
  destruct Hm as [H1 Ha]. cbn [fst snd] in *. specialize (Hf a (Ha a eq_refl) _ (Hr _ H1)). destruct (f a (rival s1)) as [s2 [b|e]]; [done|]. split; [by apply Hr|]. intros ? [=].
Qed.
Lemma guards_catch {A} (m : M S A) (h : error -> M S A) (Q : A -> Prop) :
  guards I m Q -> (forall e, guards I (h e) Q) -> guards I (catch m h) Q.
Proof.
  intros Hm Hh s Hs. unfold catch. specialize (Hm s Hs). destruct (m s) as [s1 [a|e]]; [done|]. destruct Hm as [H1 _]. by apply Hh.
Qed.
(** What only reads. *)
Lemma guards_read {A} (f : S -> result A) : guards I (fun s => (s, f s)) (fun _ => True).
Proof. by intros s Hs. Qed.
End Guards.

Create HintDb guards.
#[export] Hint Resolve guards_ret guards_throw guards_modify guards_transaction guards_read : guards.

(** ** Tactics *)
Ltac step_match :=
  match goal with
  | H : context [ match ?x with _ => _ end ] |- _ =>
      lazymatch x with context [ match _ with _ => _ end ] => fail | _ => idtac end;
      destruct x eqn:?; try discriminate H
  | |- context [ match ?x with _ => _ end ] =>
      lazymatch x with context [ match _ with _ => _ end ] => fail | _ => idtac end;
      destruct x eqn:?
  end.

Ltac unfold_result :=
  unfold mbind, result_bind, mret, result_ret, fmap, result_fmap, throw_if in *;
  cbn beta iota in *.

Ltac unfold_M :=
  unfold mbind, M_bind, mret, M_ret, fmap, M_fmap, throw, lift, gets, modify,
    catch, transaction in *;
  cbn beta iota in *.

(** Runs a computation up to its next call. *)
Ltac run_binds := repeat (first [rewrite bind_at | rewrite mret_at]; cbn [lift gets modify throw]).

(** ** Lists and computations that may throw *)

(** [values.map(f)] where [f] may throw. *)
Fixpoint try_map {A B} (f : A -> result B) (l : list A) : result (list B) :=
  match l with
  | [] => Ok []
  | x :: l' => y ← f x; ys ← try_map f l'; Ok (y :: ys)
  end.

(** A loop body over a list, stopping at the first throw. *)
Fixpoint loop {A B} (body : B -> A -> result B) (l : list A) (acc : B) : result B :=
  match l with
  | [] => Ok acc
  | x :: l' => acc' ← body acc x; loop body l' acc'
  end.

Lemma try_map_ok {A B} (f : A -> result B) (g : A -> B) (l : list A) :
  Forall (fun x => f x = Ok (g x)) l -> try_map f l = Ok (g <$> l).
Proof. induction 1 as [|x l Hx _ IH]; cbn; [done|]. unfold_result. by rewrite Hx, IH. Qed.

Lemma try_map_length {A B} (f : A -> result B) (l : list A) (bs : list B) :
  try_map f l = Ok bs -> length bs = length l.
Proof.
  revert bs. induction l as [|x l IH]; intros bs; cbn [try_map]; unfold_result; [by intros [= <-]|].
  destruct (f x); [|done]. destruct (try_map f l) eqn:Hl; [|done]. intros [= <-]. cbn. f_equal. by apply IH.
Qed.

Lemma filter_none {A} (p : A -> bool) (l : list A) :
  (forall x, x ∈ l -> p x = false) -> List.filter p l = [].
Proof.
  induction l as [|x l IH]; intros H; [done|]. cbn. rewrite H by left.
  apply IH. intros y Hy. apply H. by right.
Qed.

Lemma existsb_false {A} (f : A -> bool) (l : list A) (x : A) : existsb f l = false -> x ∈ l -> f x = false.
Proof.
  intros H Hx. destruct (f x) eqn:Hf; [|done]. rewrite <- H. symmetry.
  apply existsb_exists. exists x. split; [by apply list_elem_of_In|done].
Qed.

Lemma existsb_none {A} (f : A -> bool) (l : list A) :
  Forall (fun x => f x = false) l -> existsb f l = false.
Proof. induction 1 as [|x l Hx _ IH]; cbn; [done|]. by rewrite Hx, IH. Qed.

Lemma elem_of_bfilter {A} (p : A -> bool) (l : list A) (x : A) :
  x ∈ List.filter p l <-> x ∈ l /\ p x = true.
Proof. by rewrite !list_elem_of_In, List.filter_In. Qed.

Lemma bfilter_sublist {A} (p : A -> bool) (l : list A) : List.filter p l `sublist_of` l.
Proof. induction l as [|x l IH]; cbn; [done|]. destruct (p x); by constructor. Qed.

(** ** Rows looked up by a column *)
Section find_by.
Context {A K : Type} `{!EqDecision K} (f : A -> K).

Definition find_by (k : K) (l : list A) : option A :=
  List.find (fun x => bool_decide (f x = k)) l.

Lemma find_by_Some (k : K) (l : list A) (x : A) :
  find_by k l = Some x -> x ∈ l /\ f x = k.
Proof.
  intros H. apply List.find_some in H as [Hin Hk].
  split; [by apply list_elem_of_In|by apply bool_decide_eq_true in Hk].
Qed.

Lemma find_by_None (k : K) (l : list A) : find_by k l = None <-> k ∉ f <$> l.
Proof.
  unfold find_by. induction l as [|x l IH]; cbn; [by split; [inversion 2|]|].
  rewrite not_elem_of_cons. case_bool_decide as Hx; [|rewrite IH].
  - split; [done|]. by intros [? _].
  - split; [by split; [intros ->|]|by intros [_ ?]].
Qed.

Lemma find_by_app (k : K) (l l' : list A) :
  find_by k (l ++ l') = match find_by k l with Some x => Some x | None => find_by k l' end.
Proof. unfold find_by. induction l as [|x l IH]; cbn; [done|]. by destruct (bool_decide _). Qed.

Lemma find_by_unique (l : list A) (x : A) :
  NoDup (f <$> l) -> x ∈ l -> find_by (f x) l = Some x.
Proof.
  unfold find_by. induction l as [|y l IH]; cbn; [by intros _ ?%not_elem_of_nil|].
  rewrite NoDup_cons, elem_of_cons. intros [Hy Hl] [->|Hx].
  - by rewrite bool_decide_eq_true_2.
  - rewrite bool_decide_eq_false_2; [by apply IH|].
    intros Hf. apply Hy. rewrite Hf. by apply list_elem_of_fmap_2.
Qed.

Lemma find_by_mono (k : K) (l l' : list A) (x : A) :
  l `prefix_of` l' -> find_by k l = Some x -> find_by k l' = Some x.
Proof. intros [l'' ->] H. by rewrite find_by_app, H. Qed.

Lemma filter_by_unique (l : list A) (x : A) :
  NoDup (f <$> l) -> x ∈ l -> List.filter (fun y => bool_decide (f y = f x)) l = [x].
Proof.
  induction l as [|y l IH]; cbn; [by intros _ ?%not_elem_of_nil|].
  rewrite NoDup_cons, elem_of_cons. intros [Hy Hl] [->|Hx].
  - rewrite bool_decide_eq_true_2 by done. f_equal. apply filter_none. intros z Hz.
    apply bool_decide_eq_false_2. intros He. apply Hy. rewrite <- He. by apply list_elem_of_fmap_2.
  - rewrite bool_decide_eq_false_2; [by apply IH|].
    intros He. apply Hy. rewrite He. by apply list_elem_of_fmap_2.
Qed.

(** The rows whose key is among those of the rows that satisfy [p]. *)
Lemma filter_chosen (p : A -> bool) (l : list A) :
  NoDup (f <$> l) ->
  f <$> List.filter (fun y => bool_decide (f y ∈ f <$> List.filter p l)) l = f <$> List.filter p l.
Proof.
  intros Hl. f_equal. apply List.filter_ext_in. intros y Hy%list_elem_of_In.
  destruct (p y) eqn:Hp.
  - apply bool_decide_eq_true_2, list_elem_of_fmap_2. by apply elem_of_bfilter.
  - apply bool_decide_eq_false_2. intros (z & He & [Hz Hpz]%elem_of_bfilter)%list_elem_of_fmap.
    pose proof (find_by_unique l y Hl Hy) as H1. pose proof (find_by_unique l z Hl Hz) as H2.
    congruence.
Qed.

Lemma NoDup_bfilter (p : A -> bool) (l : list A) : NoDup (f <$> l) -> NoDup (f <$> List.filter p l).
Proof.
  intros Hl. eapply sublist_NoDup; [exact Hl|]. apply fmap_sublist. clear Hl.
  induction l as [|x l IH]; cbn; [constructor|]. destruct (p x); by constructor.
Qed.

(** At most one row has a given key. *)
Lemma filter_single (p : A -> bool) (k : K) (l : list A) :
  NoDup (f <$> l) -> (forall x, p x = true -> f x = k) -> f <$> List.filter p l <> [] ->
  f <$> List.filter p l = [k].
Proof.
  intros Hl Hp Hne. destruct (List.filter p l) as [|x [|y r]] eqn:He; [done| |].
  - cbn. f_equal. apply Hp. apply (elem_of_bfilter p l x). rewrite He. left.
  - exfalso. assert (sublist (List.filter p l) l) as Hs.
    { clear. induction l as [|z l IH]; cbn; [constructor|]. destruct (p z); by constructor. }
    assert (NoDup (f <$> List.filter p l)) as Hnd by (eapply sublist_NoDup; [exact Hl|by apply fmap_sublist]).
    rewrite He in Hnd. cbn in Hnd. apply NoDup_cons in Hnd as [Hx _]. apply Hx.
    rewrite (Hp x), (Hp y); [left| |].
    + apply (elem_of_bfilter p l y). rewrite He. right. left.
    + apply (elem_of_bfilter p l x). rewrite He. left.
Qed.
End find_by.

Lemma NoDup_snoc {A} (l : list A) (x : A) : NoDup l -> x ∉ l -> NoDup (l ++ [x]).
Proof.
  intros Hl Hx. apply NoDup_app. split_and!; [done| |apply NoDup_singleton].
  intros y Hy ->%list_elem_of_singleton. done.
Qed.

(** ** Text around a separator *)
Lemma app_sep_inj_l {A} (l1 l2 r1 r2 : list A) (c : A) :
  c ∉ l1 -> c ∉ l2 -> l1 ++ c :: r1 = l2 ++ c :: r2 -> l1 = l2 /\ r1 = r2.
Proof.
  revert l2. induction l1 as [|x l1 IH]; intros [|y l2]; cbn; intros H1 H2 H.
  - by injection H.
  - injection H as -> _. exfalso. apply H2. left.
  - injection H as -> _. exfalso. apply H1. left.
  - injection H as -> H. rewrite not_elem_of_cons in H1, H2.
    destruct (IH l2) as [-> ->]; tauto.
Qed.

Lemma app_sep_inj_r {A} (l1 l2 r1 r2 : list A) (c : A) :
  c ∉ r1 -> c ∉ r2 -> l1 ++ c :: r1 = l2 ++ c :: r2 -> l1 = l2 /\ r1 = r2.
Proof.
  intros H1 H2 H. apply (f_equal reverse) in H.
  rewrite !reverse_app, !reverse_cons, <- !app_assoc in H. cbn in H.
  apply app_sep_inj_l in H as [Hr Hl].
  - split; by apply (inj reverse).
  - by rewrite elem_of_reverse.
  - by rewrite elem_of_reverse.
Qed.
