(* ===== verification/JsNumber.v ===== *)
(** * JavaScript numbers

    A JavaScript [number] is an IEEE 754 binary64 value.  Integers inside the
    safe range are modelled as [Z] everywhere else in the development; this file
    is for the few places where the code really computes with fractions
    ([packages/core/src/money.ts]: [multiply], [percentageOf], [allocate], and
    [basisPointsToPercent]).  The operations are the Standard Library's axiom-free
    [SpecFloat] ones at precision 53, so every definition evaluates, and the
    lemmas bound the rounded result by any safe integer that bounds the exact one. *)

From S2P Require Import Prelude.
From Stdlib Require Import SpecFloat.

#[local] Open Scope Z_scope.

Module Js.

Abbreviation number := spec_float.

Definition prec : Z := 53.
Definition emax : Z := 1024.

(** ** Operations of the language *)
Definition of_Z (z : Z) : number := binary_normalize prec emax z 0 false.
Definition mul (x y : number) : number := SFmul prec emax x y.
Definition div (x y : number) : number := SFdiv prec emax x y.
Definition add (x y : number) : number := SFadd prec emax x y.
Definition sub (x y : number) : number := SFsub prec emax x y.
Definition ltb (x y : number) : bool := SFltb x y.
Definition leb (x y : number) : bool := SFleb x y.

(** [Number.isFinite] *)
Definition is_finite (x : number) : bool :=
  match x with S754_zero _ | S754_finite _ _ _ => true | _ => false end.

(** [Number.MAX_SAFE_INTEGER] and [Number.isSafeInteger] on an integer. *)
Definition MAX_SAFE_INTEGER : Z := 2 ^ 53 - 1.
Definition is_safe (z : Z) : bool := Z.abs z <=? MAX_SAFE_INTEGER.

(** A signed mantissa [m] at exponent [e], rounded to an integer. *)
Definition floor_at (m e : Z) : Z :=
  if 0 <=? e then m * 2 ^ e else m / 2 ^ (- e).
Definition round_at (m e : Z) : Z :=
  if 0 <=? e then m * 2 ^ e else (2 * m + 2 ^ (- e)) / (2 * 2 ^ (- e)).

Definition signed (s : bool) (m : positive) : Z := if s then Z.neg m else Z.pos m.

(** [Math.floor], [Math.ceil], [Math.trunc], [Math.round] (ties towards
    +Infinity); [None] when the argument is NaN or infinite. *)
Definition floor (x : number) : option Z :=
  match x with
  | S754_zero _ => Some 0
  | S754_finite s m e => Some (floor_at (signed s m) e)
  | _ => None
  end.
Definition ceil (x : number) : option Z :=
  match x with
  | S754_zero _ => Some 0
  | S754_finite s m e => Some (- floor_at (- signed s m) e)
  | _ => None
  end.
Definition trunc (x : number) : option Z :=
  match x with
  | S754_zero _ => Some 0
  | S754_finite s m e =>
      Some (if s then - floor_at (Z.pos m) e else floor_at (Z.pos m) e)
  | _ => None
  end.
Definition round (x : number) : option Z :=
  match x with
  | S754_zero _ => Some 0
  | S754_finite s m e => Some (round_at (signed s m) e)
  | _ => None
  end.

(** [Math.sign] and [Math.abs] *)
Definition sign (x : number) : Z :=
  match x with
  | S754_finite s _ _ | S754_infinity s => if s then -1 else 1
  | _ => 0
  end.
Definition abs (x : number) : number := SFabs x.

(** [x % y], which is exact and has the sign of [x]. *)
Definition rem (x y : number) : number :=
  match x, y with
  | S754_nan, _ | _, S754_nan | S754_infinity _, _ | _, S754_zero _ => S754_nan
  | S754_zero _, _ | S754_finite _ _ _, S754_infinity _ => x
  | S754_finite s m e, S754_finite _ n f =>
      let k := Z.min e f in
      let r := (Z.pos m * 2 ^ (e - k)) mod (Z.pos n * 2 ^ (f - k)) in
      binary_normalize prec emax (if s then - r else r) k s
  end.

(** A decimal literal [z / 10^k], and [Math.PI]. *)
Definition decimal (z : Z) (k : nat) : number := div (of_Z z) (of_Z (10 ^ Z.of_nat k)).
Definition PI : number := S754_finite false 7074237752028440 (-51).

(** ** Bounds on the magnitude of a finite number

    [mag_le x n] and [mag_ge x n]: the magnitude of [x] is at most, at least [n].
    Both also say that the exponent is not positive, which every number below
    2^53 that the code produces satisfies. *)
Definition mag_le (x : number) (n : Z) : Prop :=
  match x with
  | S754_zero _ => 0 <= n
  | S754_finite _ m e => e <= 0 /\ Z.pos m <= n * 2 ^ (- e)
  | _ => False
  end.
Definition mag_ge (x : number) (n : Z) : Prop :=
  match x with
  | S754_zero _ => n <= 0
  | S754_finite _ m e => e <= 0 /\ n * 2 ^ (- e) <= Z.pos m
  | _ => False
  end.

Definition sign_bit (x : number) : bool :=
  match x with
  | S754_zero s | S754_infinity s | S754_finite s _ _ => s
  | S754_nan => false
  end.

(** ** The rounding core *)
Definition loc_up (m : Z) (l : location) : Z :=
  match l with loc_Exact => m | loc_Inexact _ => m + 1 end.

Lemma digits2_bounds (p : positive) :
  2 ^ (Z.pos (digits2_pos p) - 1) <= Z.pos p < 2 ^ Z.pos (digits2_pos p).
Proof.
  induction p as [p IH|p IH|]; cbn [digits2_pos]; [| |done];
    rewrite Pos2Z.inj_succ;
    replace (Z.succ (Z.pos (digits2_pos p)) - 1)
      with (Z.succ (Z.pos (digits2_pos p) - 1)) by lia;
    rewrite !Z.pow_succ_r by lia; lia.
Qed.

Lemma Zdigits2_le (m d : Z) : 0 <= m < 2 ^ d -> 0 <= d -> Zdigits2 m <= d.
Proof.
  intros Hm Hd. destruct m as [|p|p]; cbn; [lia| |lia].
  destruct (digits2_bounds p) as [Hlo _].
  destruct (Z.le_gt_cases (Z.pos (digits2_pos p)) d) as [|Hgt]; [done|].
  assert (2 ^ d <= 2 ^ (Z.pos (digits2_pos p) - 1)) by (apply Z.pow_le_mono_r; lia).
  lia.
Qed.

(** One step of the right shift halves the mantissa and keeps the location
    inexact once a one has been shifted out. *)
Lemma shr_1_spec (r : shr_record) :
  0 <= shr_m r ->
  shr_m (shr_1 r) = shr_m r / 2 /\
  (loc_of_shr_record (shr_1 r) = loc_Exact <->
   loc_of_shr_record r = loc_Exact /\ shr_m r = 2 * (shr_m r / 2)).
Proof.
  destruct r as [m rr ss]; cbn. intros Hm.
  destruct m as [|p|p]; [| |lia].
  - split; [done|]. by destruct rr, ss; cbn; intuition congruence.
  - destruct p as [p|p|]; cbn -[Z.div Z.mul].
    + assert (Z.pos p~1 / 2 = Z.pos p) as ->
        by (symmetry; apply Z.div_unique with 1; lia).
      split; [done|]. destruct rr, ss; split; try done; intros [_ H]; lia.
    + assert (Z.pos p~0 / 2 = Z.pos p) as ->
        by (symmetry; apply Z.div_unique with 0; lia).
      assert (Z.pos p~0 = 2 * Z.pos p) by lia.
      split; [done|]. by destruct rr, ss; cbn -[Z.mul]; intuition congruence.
    + split; [done|]. destruct rr, ss; split; try done; intros [_ H]; lia.
Qed.

Definition shifted (k : Z) (r r' : shr_record) : Prop :=
  shr_m r' = shr_m r / 2 ^ k /\
  (loc_of_shr_record r' = loc_Exact <->
   loc_of_shr_record r = loc_Exact /\ shr_m r = shr_m r' * 2 ^ k).

Lemma shifted_trans (j k : Z) (a b c : shr_record) :
  0 <= j -> 0 <= k -> shifted j a b -> shifted k b c -> shifted (j + k) a c.
Proof.
  intros Hj Hk [Hab Eab] [Hbc Ebc]. split.
  - rewrite Hbc, Hab, Z.div_div by lia. by rewrite Z.pow_add_r.
  - rewrite Ebc, Eab, Z.pow_add_r by lia.
    assert (0 < 2 ^ j) by (apply Z.pow_pos_nonneg; lia).
    assert (0 < 2 ^ k) by (apply Z.pow_pos_nonneg; lia).
    split.
    + intros [[Ha ->] ->]. split; [done|lia].
    + intros [Ha Hm]. split; [split; [done|]|].
      * rewrite Hab, Hm. replace (shr_m c * (2 ^ j * 2 ^ k)) with (shr_m c * 2 ^ k * 2 ^ j) by lia.
        by rewrite Z.div_mul by lia.
      * rewrite Hab, Hm. replace (shr_m c * (2 ^ j * 2 ^ k)) with (shr_m c * 2 ^ k * 2 ^ j) by lia.
        by rewrite Z.div_mul by lia.
Qed.

Lemma shifted_shr_1 (r : shr_record) : 0 <= shr_m r -> shifted 1 r (shr_1 r).
Proof.
  intros Hr. destruct (shr_1_spec r Hr) as [Hm He]. split; [done|].
  rewrite He, Hm. change (2 ^ 1) with 2. by rewrite (Z.mul_comm 2).
Qed.

Lemma shifted_0 (r : shr_record) : shifted 0 r r.
Proof.
  split; [by rewrite Z.pow_0_r, Z.div_1_r|]. rewrite Z.pow_0_r, Z.mul_1_r. tauto.
Qed.

Lemma shifted_nonneg (k : Z) (r r' : shr_record) :
  0 <= shr_m r -> 0 <= k -> shifted k r r' -> 0 <= shr_m r'.
Proof. intros Hr Hk [-> _]. apply Z.div_pos; lia. Qed.

Lemma iter_shr_shifted (p : positive) (r : shr_record) :
  0 <= shr_m r -> shifted (Z.pos p) r (iter_pos shr_1 p r).
Proof.
  revert r. induction p as [p IH|p IH|]; intros r Hr; cbn [iter_pos].
  - pose proof (shifted_shr_1 r Hr) as H1.
    pose proof (shifted_nonneg 1 _ _ Hr ltac:(lia) H1) as N1.
    pose proof (IH _ N1) as H2.
    pose proof (shifted_nonneg (Z.pos p) _ _ N1 ltac:(lia) H2) as N2.
    replace (Z.pos p~1) with (1 + (Z.pos p + Z.pos p)) by lia.
    eapply shifted_trans; [lia|lia|done|].
    eapply shifted_trans; [lia|lia|done|by apply IH].
  - pose proof (IH _ Hr) as H2.
    pose proof (shifted_nonneg (Z.pos p) _ _ Hr ltac:(lia) H2) as N2.
    replace (Z.pos p~0) with (Z.pos p + Z.pos p) by lia.
    eapply shifted_trans; [lia|lia|done|by apply IH].
  - by apply shifted_shr_1.
Qed.

(** [shr_fexp] shifts by some [k >= 0], chosen so that the result fits. *)
Lemma shr_fexp_shifted (m e : Z) (l : location) :
  0 <= m -> Zdigits2 m + e <= 53 -> e <= 0 ->
  exists k r, 0 <= k /\ shr_fexp prec emax m e l = (r, e + k) /\ e + k <= 0 /\
    shifted k (shr_record_of_loc m l) r.
Proof.
  intros Hm Hd He. unfold shr_fexp, shr.
  set (r0 := shr_record_of_loc m l).
  assert (shr_m r0 = m) as Hr0 by (unfold r0; destruct l as [|[]]; done).
  assert (fexp prec emax (Zdigits2 m + e) <= 0) as Hf.
  { unfold fexp, emin, prec, emax in *. lia. }
  destruct (fexp prec emax (Zdigits2 m + e) - e) as [|p|p] eqn:Hk.
  - exists 0, r0. rewrite Z.add_0_r. split_and!; [lia|done|lia|apply shifted_0].
  - exists (Z.pos p), (iter_pos shr_1 p r0). split_and!; [lia|done|lia|apply iter_shr_shifted; lia].
  - exists 0, r0. rewrite Z.add_0_r. split_and!; [lia|done|lia|apply shifted_0].
Qed.

Lemma loc_of_shr_record_of_loc (m : Z) (l : location) :
  loc_of_shr_record (shr_record_of_loc m l) = l.
Proof. by destruct l as [|[]]. Qed.

Lemma shr_m_of_loc (m : Z) (l : location) : shr_m (shr_record_of_loc m l) = m.
Proof. by destruct l as [|[]]. Qed.

Lemma round_nearest_even_range (m : Z) (l : location) :
  m <= round_nearest_even m l <= loc_up m l.
Proof. destruct l as [|[]]; cbn; try destruct (Z.even m); lia. Qed.

(** A shift followed by the rounding of its location stays below any integer
    that bounds the exact value, and above any integer below it. *)
Lemma shifted_round_le (k m b : Z) (l : location) (r : shr_record) :
  0 <= k -> shifted k (shr_record_of_loc m l) r ->
  loc_up m l <= b * 2 ^ k ->
  round_nearest_even (shr_m r) (loc_of_shr_record r) <= b.
Proof.
  intros Hk [Hm Hx] Hb. rewrite shr_m_of_loc, loc_of_shr_record_of_loc in *.
  pose proof (round_nearest_even_range (shr_m r) (loc_of_shr_record r)) as [_ Hle].
  assert (0 < 2 ^ k) as Hp by (apply Z.pow_pos_nonneg; lia).
  assert (m <= loc_up m l) as Hml by (destruct l; cbn; lia).
  destruct (loc_of_shr_record r) as [|c] eqn:Hl; cbn in Hle |- *.
  - destruct (proj1 Hx eq_refl) as [_ Hmr]. nia.
  - assert (shr_m r * 2 ^ k < loc_up m l) as Hlt.
    { pose proof (Z.mul_div_le m (2 ^ k) Hp) as Hdiv. rewrite <- Hm in Hdiv.
      destruct l as [|c']; cbn [loc_up] in *; [|lia].
      destruct (Z.eq_dec m (shr_m r * 2 ^ k)) as [Heq|Hne]; [|lia].
      discriminate (proj2 Hx (conj eq_refl Heq)). }
    nia.
Qed.

Lemma shifted_round_ge (k m b : Z) (l : location) (r : shr_record) :
  0 <= k -> shifted k (shr_record_of_loc m l) r ->
  b * 2 ^ k <= m ->
  b <= round_nearest_even (shr_m r) (loc_of_shr_record r).
Proof.
  intros Hk [Hm _] Hb. rewrite shr_m_of_loc in Hm.
  pose proof (round_nearest_even_range (shr_m r) (loc_of_shr_record r)) as [Hge _].
  assert (0 < 2 ^ k) as Hp by (apply Z.pow_pos_nonneg; lia).
  enough (b <= m / 2 ^ k) by lia. by apply Z.div_le_lower_bound; lia.
Qed.

(** A magnitude [m * 2 ^ e] with its sign. *)
Definition of_mag (s : bool) (m e : Z) : number :=
  match m with
  | Z.pos p => S754_finite s p e
  | _ => S754_zero s
  end.

(** [brackets m e l m' e']: every integer above the value at [(m, e, l)] is above
    the one at [(m', e')], and every integer below it is below. *)
Definition brackets (m e : Z) (l : location) (m' e' : Z) : Prop :=
  forall n, 0 <= n ->
    (loc_up m l <= n * 2 ^ (- e) -> m' <= n * 2 ^ (- e')) /\
    (n * 2 ^ (- e) <= m -> n * 2 ^ (- e') <= m').

Lemma shifted_brackets (k m e : Z) (l : location) (r : shr_record) :
  0 <= k -> e + k <= 0 -> shifted k (shr_record_of_loc m l) r ->
  brackets m e l (round_nearest_even (shr_m r) (loc_of_shr_record r)) (e + k).
Proof.
  intros Hk He Hsh n Hn.
  assert (n * 2 ^ (- e) = n * 2 ^ (- (e + k)) * 2 ^ k) as ->.
  { rewrite <- Z.mul_assoc, <- Z.pow_add_r by lia. f_equal. f_equal. lia. }
  split; intros H.
  - by apply (shifted_round_le k m _ l r).
  - by apply (shifted_round_ge k m _ l r).
Qed.

Lemma safe_digits (a d b : Z) :
  0 <= a -> d <= 0 -> b <= MAX_SAFE_INTEGER -> a <= b * 2 ^ (- d) ->
  Zdigits2 a + d <= 53.
Proof.
  intros Ha Hd Hb Had. unfold MAX_SAFE_INTEGER in Hb.
  enough (Zdigits2 a <= 53 - d) by lia.
  apply Zdigits2_le; [|lia]. split; [done|].
  replace (53 - d) with (53 + - d) by lia. rewrite Z.pow_add_r by lia.
  assert (0 < 2 ^ (- d)) by (apply Z.pow_pos_nonneg; lia). nia.
Qed.

Lemma loc_up_ge (m : Z) (l : location) : m <= loc_up m l.
Proof. destruct l; cbn; lia. Qed.

Lemma round_shifted_nonneg (k m : Z) (l : location) (r : shr_record) :
  0 <= m -> 0 <= k -> shifted k (shr_record_of_loc m l) r ->
  0 <= round_nearest_even (shr_m r) (loc_of_shr_record r).
Proof.
  intros Hm Hk Hsh.
  pose proof (round_nearest_even_range (shr_m r) (loc_of_shr_record r)) as [Hge _].
  enough (0 <= shr_m r) by lia.
  apply (shifted_nonneg k (shr_record_of_loc m l)); rewrite ?shr_m_of_loc; done.
Qed.

(** The rounding core, on a value bounded by a safe integer. *)
Lemma binary_round_aux_spec (s : bool) (m e : Z) (l : location) (b : Z) :
  0 <= m -> e <= 0 -> 0 <= b <= MAX_SAFE_INTEGER -> loc_up m l <= b * 2 ^ (- e) ->
  exists m' e', binary_round_aux prec emax s m e l = of_mag s m' e' /\
    0 <= m' /\ e' <= 0 /\ brackets m e l m' e'.
Proof.
  intros Hm He Hb Hup. pose proof (loc_up_ge m l).
  destruct (shr_fexp_shifted m e l) as (k & r & Hk & Hr & Hek & Hsh);
    [done|by apply (safe_digits _ _ b); lia|done|].
  pose proof (shifted_brackets k m e l r Hk Hek Hsh) as Hbr.
  pose proof (round_shifted_nonneg k m l r Hm Hk Hsh) as Hm1.
  unfold binary_round_aux. rewrite Hr.
  set (m1 := round_nearest_even _ _) in *.
  destruct (Hbr b) as [Hle _]; [lia|]. specialize (Hle Hup).
  destruct (shr_fexp_shifted m1 (e + k) loc_Exact) as (k' & r' & Hk' & Hr' & Hek' & Hsh');
    [done|by apply (safe_digits _ _ b); lia|done|].
  rewrite Hr'.
  pose proof (shifted_nonneg k' (shr_record_of_loc m1 loc_Exact) r' Hm1 Hk' Hsh') as Hr'0.
  exists (shr_m r'), (e + k + k'). split_and!; [|done|done|].
  - cbn -[Z.leb Z.sub]. destruct (shr_m r') as [|p|p]; [done| |lia].
    by rewrite (proj2 (Z.leb_le _ _)) by (unfold emax, prec; lia).
  - intros n Hn.
    destruct Hsh' as [Hsh' _]. cbn [shr_record_of_loc shr_m] in Hsh'.
    destruct (Hbr n Hn) as [Hb1 Hb2].
    assert (n * 2 ^ (- (e + k)) = n * 2 ^ (- (e + k + k')) * 2 ^ k') as Hsplit.
    { rewrite <- Z.mul_assoc, <- Z.pow_add_r by lia. f_equal. f_equal. lia. }
    assert (0 < 2 ^ k') as Hp by (apply Z.pow_pos_nonneg; lia).
    rewrite Hsplit in *. split; intros H0.
    + specialize (Hb1 H0). pose proof (Z.mul_div_le m1 (2 ^ k') Hp).
      rewrite Hsh'. nia.
    + specialize (Hb2 H0). rewrite Hsh'. apply Z.div_le_lower_bound; lia.
Qed.

Lemma of_mag_le (s : bool) (m e n : Z) :
  0 <= m -> e <= 0 -> m <= n * 2 ^ (- e) -> 0 <= n -> mag_le (of_mag s m e) n.
Proof. intros Hm He H Hn. destruct m; cbn; [done|done|lia]. Qed.

Lemma of_mag_ge (s : bool) (m e n : Z) :
  0 <= m -> e <= 0 -> n * 2 ^ (- e) <= m -> mag_ge (of_mag s m e) n.
Proof.
  intros Hm He H. assert (0 < 2 ^ (- e)) by (apply Z.pow_pos_nonneg; lia).
  destruct m; cbn; [nia|done|lia].
Qed.

Lemma sign_bit_of_mag (s : bool) (m e : Z) : sign_bit (of_mag s m e) = s.
Proof. by destruct m. Qed.

(** ** The operations the code uses *)

(** [exactly x z]: [x] is the non-negative integer [z]. *)
Definition exactly (x : number) (z : Z) : Prop :=
  mag_le x z /\ mag_ge x z /\ sign_bit x = false.

Lemma pow_opp_pos (e : Z) : e <= 0 -> 0 < 2 ^ (- e).
Proof. intros. apply Z.pow_pos_nonneg; lia. Qed.

Lemma mag_le_mono (x : number) (a b : Z) : mag_le x a -> a <= b -> mag_le x b.
Proof.
  destruct x as [s|s| |s m e]; cbn; try lia; try done.
  intros [He Hm] Hab. split; [done|]. pose proof (pow_opp_pos e He). nia.
Qed.

Lemma mag_ge_mono (x : number) (a b : Z) : mag_ge x a -> b <= a -> mag_ge x b.
Proof.
  destruct x as [s|s| |s m e]; cbn; try lia; try done.
  intros [He Hm] Hab. split; [done|]. pose proof (pow_opp_pos e He). nia.
Qed.

Lemma iter_xO (p k : positive) : Z.pos (Pos.iter xO p k) = Z.pos p * 2 ^ Z.pos k.
Proof.
  induction k as [|k IH] using Pos.peano_ind.
  - cbn [Pos.iter]. rewrite Z.pow_1_r. lia.
  - rewrite Pos.iter_succ, Pos2Z.inj_xO, IH, Pos2Z.inj_succ, Z.pow_succ_r by lia. lia.
Qed.

Lemma shl_align_spec (p : positive) (e e' : Z) :
  exists q e1, shl_align p e e' = (q, e1) /\ e1 = Z.min e e' /\ Z.pos q = Z.pos p * 2 ^ (e - e1).
Proof.
  unfold shl_align. destruct (e' - e) as [|k|k] eqn:Hk.
  - exists p, e. split_and!; [done|lia|]. by rewrite Z.sub_diag, Z.mul_1_r.
  - exists p, e. split_and!; [done|lia|]. by rewrite Z.sub_diag, Z.mul_1_r.
  - exists (Pos.iter xO p k), e'. split_and!; [done|lia|].
    replace (e - e') with (Z.pos k) by lia. apply iter_xO.
Qed.

(** An integer at a non-positive exponent is normalised to itself. *)
Lemma exactly_normalize (m e n : Z) :
  e <= 0 -> 0 <= n <= MAX_SAFE_INTEGER -> m = n * 2 ^ (- e) ->
  exactly (binary_normalize prec emax m e false) n.
Proof.
  intros He Hn Hm. pose proof (pow_opp_pos e He).
  destruct m as [|p|p]; [|unfold binary_normalize, binary_round|lia].
  { assert (n = 0) as -> by nia. by repeat split. }
  destruct (shl_align_spec p e (fexp prec emax (Z.pos (digits2_pos p) + e)))
    as (q & e1 & -> & He1 & Hq).
  destruct (binary_round_aux_spec false (Z.pos q) e1 loc_Exact n)
    as (m' & e' & Hx & Hm' & He' & Hbr); [lia|lia|lia| |].
  all: assert (Z.pos q = n * 2 ^ (- e1)) as Hqn
    by (rewrite Hq, Hm, <- Z.mul_assoc, <- Z.pow_add_r by lia; f_equal; f_equal; lia).
  { cbn [loc_up]. lia. }
  rewrite Hx. destruct (Hbr n ltac:(lia)) as [H1 H2].
  split_and!; [apply of_mag_le|apply of_mag_ge|apply sign_bit_of_mag]; try lia.
  apply H1. cbn [loc_up]. lia.
Qed.

Lemma exactly_of_Z (z : Z) : 0 <= z <= MAX_SAFE_INTEGER -> exactly (of_Z z) z.
Proof. intros Hz. apply exactly_normalize; [done|done|lia]. Qed.

(** Safe integers add exactly. *)
Lemma add_exactly (x y : number) (a b : Z) :
  exactly x a -> exactly y b -> 0 <= a -> 0 <= b -> a + b <= MAX_SAFE_INTEGER ->
  exactly (add x y) (a + b).
Proof.
  intros (Hx & Hx' & Sx) (Hy & Hy' & Sy) Ha Hb Hs.
  destruct x as [sx|sx| |sx mx ex], y as [sy|sy| |sy my ey]; try done; cbn in Sx, Sy; subst.
  - cbn in *. assert (a + b = 0) as -> by lia. by repeat split.
  - cbn in Hx, Hx'. assert (a = 0) as -> by lia. by repeat split; cbn in *; lia.
  - cbn in Hy, Hy'. assert (b = 0) as -> by lia. rewrite Z.add_0_r. by repeat split; cbn in *; lia.
  - destruct Hx as [Hex Hmx], Hx' as [_ Hmx'], Hy as [Hey Hmy], Hy' as [_ Hmy'].
    unfold add. cbn [SFadd cond_Zopp].
    destruct (shl_align_spec mx ex (Z.min ex ey)) as (qx & e1 & -> & He1 & Hqx).
    destruct (shl_align_spec my ey (Z.min ex ey)) as (qy & e2 & -> & He2 & Hqy). cbn [fst].
    assert (e1 = Z.min ex ey) as -> by lia. assert (e2 = Z.min ex ey) as -> by lia.
    apply exactly_normalize; [lia|lia|]. rewrite Hqx, Hqy.
    replace (Z.pos mx) with (a * 2 ^ (- ex)) by lia.
    replace (Z.pos my) with (b * 2 ^ (- ey)) by lia.
    rewrite <- !Z.mul_assoc, <- !Z.pow_add_r, Z.mul_add_distr_r by lia.
    f_equal; f_equal; f_equal; lia.
Qed.

Lemma mul_le (x y : number) (a b : Z) :
  mag_le x a -> mag_le y b -> 0 <= a -> 0 <= b -> a * b <= MAX_SAFE_INTEGER ->
  mag_le (mul x y) (a * b) /\ sign_bit (mul x y) = xorb (sign_bit x) (sign_bit y).
Proof.
  intros Hx Hy Ha Hb Hs.
  destruct x as [sx|sx| |sx mx ex], y as [sy|sy| |sy my ey]; try done;
    try (cbn in *; split; [nia|done]).
  destruct Hx as [Hex Hmx], Hy as [Hey Hmy].
  destruct (binary_round_aux_spec (xorb sx sy) (Z.pos (mx * my)) (ex + ey) loc_Exact (a * b))
    as (m' & e' & Heq & Hm' & He' & Hbr); [lia|lia|nia| |].
  - cbn [loc_up]. rewrite Pos2Z.inj_mul.
    replace (- (ex + ey)) with (- ex + - ey) by lia. rewrite Z.pow_add_r by lia.
    pose proof (pow_opp_pos ex Hex). pose proof (pow_opp_pos ey Hey). nia.
  - unfold mul. cbn [SFmul sign_bit]. rewrite Heq.
    split; [|apply sign_bit_of_mag].
    apply of_mag_le; [done|done| |nia].
    apply Hbr; [nia|]. cbn [loc_up]. rewrite Pos2Z.inj_mul.
    replace (- (ex + ey)) with (- ex + - ey) by lia. rewrite Z.pow_add_r by lia.
    pose proof (pow_opp_pos ex Hex). pose proof (pow_opp_pos ey Hey). nia.
Qed.

Lemma mul_exactly (x y : number) (a b : Z) :
  exactly x a -> exactly y b -> 0 <= a -> 0 <= b -> a * b <= MAX_SAFE_INTEGER ->
  exactly (mul x y) (a * b).
Proof.
  intros (Hx & Hx' & Sx) (Hy & Hy' & Sy) Ha Hb Hs.
  destruct (mul_le x y a b) as [Hle Hsign]; [done..|].
  split_and!; [done| |by rewrite Hsign, Sx, Sy].
  destruct x as [sx|sx| |sx mx ex], y as [sy|sy| |sy my ey]; try done;
    try (cbn in *; nia).
  destruct Hx as [Hex Hmx], Hx' as [_ Hmx'], Hy as [Hey Hmy], Hy' as [_ Hmy'].
  assert (- (ex + ey) = - ex + - ey) as Hexp by lia.
  pose proof (pow_opp_pos ex Hex). pose proof (pow_opp_pos ey Hey).
  destruct (binary_round_aux_spec (xorb sx sy) (Z.pos (mx * my)) (ex + ey) loc_Exact (a * b))
    as (m' & e' & Heq & Hm' & He' & Hbr); [lia|lia|nia| |].
  - cbn [loc_up]. rewrite Pos2Z.inj_mul, Hexp, Z.pow_add_r by lia. nia.
  - unfold mul. cbn [SFmul]. rewrite Heq. apply of_mag_ge; [done|done|].
    apply Hbr; [nia|]. rewrite Pos2Z.inj_mul, Hexp, Z.pow_add_r by lia. nia.
Qed.

Lemma sign_exactly (x : number) (n : Z) : exactly x n -> sign x * n = n.
Proof.
  intros (Hle & Hge & Hs). destruct x as [s|s| |s m e]; cbn in *; try done; subst; cbn; lia.
Qed.

Lemma new_location_up (q r d : Z) :
  0 <= r < d -> loc_up q (new_location d r) = if r =? 0 then q else q + 1.
Proof.
  intros Hr. unfold new_location, new_location_even, new_location_odd.
  destruct (Z.even d), (r =? 0); done.
Qed.

(** The exponent [SFdiv] computes with is not positive when the quotient is safe. *)
Lemma div_exponent (dx ex dy ey mx my n b : Z) :
  2 ^ (dx - 1) <= mx -> my < 2 ^ dy -> 0 < dx -> 0 < dy -> ex <= 0 -> ey <= 0 ->
  mx <= n * b * 2 ^ (- ex) -> b * 2 ^ (- ey) <= my -> 0 < b -> 0 <= n < 2 ^ 53 ->
  dx + ex - (dy + ey) <= 53.
Proof.
  intros Hmx Hmy Hdx Hdy Hex Hey Hx Hy Hb Hn.
  pose proof (pow_opp_pos ex Hex). pose proof (pow_opp_pos ey Hey).
  assert (2 ^ (dx - 1 + - ey) < 2 ^ (53 + - ex + dy)) as Hlt.
  { rewrite !Z.pow_add_r by lia.
    assert (0 < 2 ^ dy) by (apply Z.pow_pos_nonneg; lia).
    assert (0 < 2 ^ (dx - 1)) by (apply Z.pow_pos_nonneg; lia).
    assert (2 ^ (dx - 1) * (b * 2 ^ (- ey)) < (n * b * 2 ^ (- ex)) * 2 ^ dy) as H3.
    { apply Z.le_lt_trans with (mx * (b * 2 ^ (- ey))).
      { apply Z.mul_le_mono_nonneg_r; nia. }
      apply Z.lt_le_trans with (mx * 2 ^ dy); [nia|].
      apply Z.mul_le_mono_nonneg_r; lia. }
    assert (2 ^ (dx - 1) * 2 ^ (- ey) < n * 2 ^ (- ex) * 2 ^ dy) as H4.
    { apply (Z.mul_lt_mono_pos_r b); [done|]. lia. }
    apply Z.lt_le_trans with (n * 2 ^ (- ex) * 2 ^ dy); [done|].
    apply Z.mul_le_mono_nonneg_r; [lia|]. apply Z.mul_le_mono_nonneg_r; lia. }
  apply Z.pow_lt_mono_r_iff in Hlt; lia.
Qed.

Lemma div_spec (x y : number) (b n : Z) :
  mag_le x (n * b) -> mag_ge y b -> 0 < b -> 0 <= n <= MAX_SAFE_INTEGER ->
  mag_le (div x y) n /\ sign_bit (div x y) = xorb (sign_bit x) (sign_bit y) /\
  forall b' lo, mag_le y b' -> 0 <= lo -> mag_ge x (lo * b') -> mag_ge (div x y) lo.
Proof.
  intros Hx Hy Hb Hn.
  destruct x as [sx|sx| |sx mx ex], y as [sy|sy| |sy my ey]; try done;
    try (cbn in *; split_and!; [lia|done|intros b' lo [Hey Hmy]; pose proof (pow_opp_pos ey Hey); nia]);
    try (cbn in Hy; lia).
  destruct Hx as [Hex Hmx], Hy as [Hey Hmy].
  unfold div. cbn [SFdiv sign_bit]. unfold SFdiv_core_binary. cbn [Zdigits2].
  pose proof (digits2_bounds mx) as [Hdx _]. pose proof (digits2_bounds my) as [_ Hdy].
  set (dx := Z.pos (digits2_pos mx)) in *. set (dy := Z.pos (digits2_pos my)) in *.
  pose proof (div_exponent dx ex dy ey (Z.pos mx) (Z.pos my) n b) as Hexp.
  unfold MAX_SAFE_INTEGER in Hn.
  specialize (Hexp ltac:(lia) ltac:(lia) ltac:(lia) ltac:(lia) Hex Hey Hmx Hmy Hb ltac:(lia)).
  set (e' := Z.min (fexp prec emax (dx + ex - (dy + ey))) (ex - ey)).
  assert (e' <= 0 /\ 0 <= ex - ey - e') as [He' Hs].
  { unfold e', fexp, emin, prec, emax. lia. }
  assert ((match ex - ey - e' with
           | 0 => Z.pos mx | Z.pos _ => Z.shiftl (Z.pos mx) (ex - ey - e')
           | Z.neg _ => 0 end) = Z.pos mx * 2 ^ (ex - ey - e')) as ->.
  { destruct (ex - ey - e') eqn:Hse; [by rewrite Z.mul_1_r| |lia].
    by rewrite Z.shiftl_mul_pow2 by lia. }
  pose proof (Z_div_mod (Z.pos mx * 2 ^ (ex - ey - e')) (Z.pos my) ltac:(lia)) as Hdm.
  destruct (Z.div_eucl _ _) as [q r]. destruct Hdm as [Hqr Hr].
  assert (Z.pos mx * 2 ^ (ex - ey - e') <= n * 2 ^ (- e') * Z.pos my) as Hval.
  { pose proof (pow_opp_pos e' He').
    transitivity (n * b * 2 ^ (- ex) * 2 ^ (ex - ey - e')).
    { apply Z.mul_le_mono_nonneg_r; [apply Z.pow_nonneg; lia|done]. }
    rewrite <- Z.mul_assoc, <- Z.pow_add_r by lia.
    replace (- ex + (ex - ey - e')) with (- ey + - e') by lia.
    rewrite Z.pow_add_r by lia. nia. }
  assert (loc_up q (new_location (Z.pos my) r) <= n * 2 ^ (- e')) as Hup.
  { rewrite new_location_up by done. destruct (Z.eqb_spec r 0); nia. }
  assert (0 <= q) as Hq.
  { assert (0 < 2 ^ (ex - ey - e')) by (apply Z.pow_pos_nonneg; lia). nia. }
  destruct (binary_round_aux_spec (xorb sx sy) q e' (new_location (Z.pos my) r) n)
    as (m' & e'' & Heq & Hm' & He'' & Hbr);
    [done|done|unfold MAX_SAFE_INTEGER; lia|done|].
  rewrite Heq. split_and!; [|apply sign_bit_of_mag|].
  { apply of_mag_le; [done|done| |lia]. by apply Hbr; [lia|]. }
  intros b' lo [_ Hb'] Hlo [_ Hxlo]. apply of_mag_ge; [done|done|]. apply Hbr; [done|].
  assert (lo * 2 ^ (- e') * Z.pos my <= q * Z.pos my + r); [|nia].
  replace (q * Z.pos my + r) with (Z.pos mx * 2 ^ (ex - ey - e')) by lia.
  pose proof (pow_opp_pos e' He').
  transitivity (lo * b' * 2 ^ (- ex) * 2 ^ (ex - ey - e')).
  - rewrite <- !Z.mul_assoc, <- Z.pow_add_r by lia.
    replace (- ex + (ex - ey - e')) with (- ey + - e') by lia.
    rewrite Z.pow_add_r by lia. nia.
  - apply Z.mul_le_mono_nonneg_r; [apply Z.pow_nonneg; lia|done].
Qed.

Lemma div_le (x y : number) (b n : Z) :
  mag_le x (n * b) -> mag_ge y b -> 0 < b -> 0 <= n <= MAX_SAFE_INTEGER ->
  mag_le (div x y) n /\ sign_bit (div x y) = xorb (sign_bit x) (sign_bit y).
Proof. intros Hx Hy Hb Hn. by destruct (div_spec x y b n Hx Hy Hb Hn) as (? & ? & _). Qed.

(** The quotient of two integers lies between any two integers that enclose it. *)
Lemma div_exactly_range (x y : number) (a b lo hi : Z) :
  exactly x a -> exactly y b -> 0 < b -> 0 <= lo -> hi <= MAX_SAFE_INTEGER ->
  lo * b <= a <= hi * b ->
  mag_le (div x y) hi /\ mag_ge (div x y) lo /\ sign_bit (div x y) = false.
Proof.
  intros (Hx & Hx' & Sx) (Hy & Hy' & Sy) Hb Hlo Hhi [Ha Ha'].
  destruct (div_spec x y b hi) as (Hle & Hs & Hge); [by apply (mag_le_mono x a)|done|done|nia|].
  rewrite Sx, Sy in Hs. split_and!; [done| |done].
  apply (Hge b lo Hy Hlo). by apply (mag_ge_mono x a).
Qed.

(** ** Rounding to an integer *)
Lemma trunc_range (x : number) (lo hi : Z) :
  mag_le x hi -> mag_ge x lo -> sign_bit x = false ->
  exists z, trunc x = Some z /\ lo <= z <= hi.
Proof.
  destruct x as [s|s| |s m e]; cbn -[floor_at]; try done.
  - intros Hhi Hlo _. by exists 0.
  - intros [He Hhi] [_ Hlo] ->. eexists; split; [done|]. unfold floor_at.
    pose proof (pow_opp_pos e He). destruct (Z.leb_spec 0 e).
    + assert (e = 0) as -> by lia. cbn in *. lia.
    + split; [apply Z.div_le_lower_bound; lia|].
      assert (Z.pos m / 2 ^ (- e) < hi + 1); [|lia]. apply Z.div_lt_upper_bound; nia.
Qed.

Lemma round_abs_bound (x : number) (n : Z) :
  mag_le x n -> exists z, round (abs x) = Some z /\ 0 <= z <= n.
Proof.
  destruct x as [s|s| |s m e]; cbn -[round_at]; try done.
  - intros Hn. by exists 0.
  - intros [He Hm]. eexists; split; [done|]. unfold round_at, signed.
    pose proof (pow_opp_pos e He).
    destruct (Z.leb_spec 0 e).
    + assert (e = 0) as -> by lia. cbn in *. lia.
    + split; [apply Z.div_pos; lia|].
      assert ((2 * Z.pos m + 2 ^ (- e)) / (2 * 2 ^ (- e)) < n + 1); [|lia].
      apply Z.div_lt_upper_bound; nia.
Qed.

Lemma round_abs_exactly (x : number) (n : Z) :
  exactly x n -> round (abs x) = Some n.
Proof.
  intros (Hle & Hge & _). destruct x as [s|s| |s m e]; cbn -[round_at] in *; try done.
  - f_equal. lia.
  - destruct Hle as [He Hle], Hge as [_ Hge]. f_equal. unfold round_at, signed.
    pose proof (pow_opp_pos e He).
    destruct (Z.leb_spec 0 e).
    + assert (e = 0) as -> by lia. cbn in *. lia.
    + symmetry. apply Z.div_unique with (2 ^ (- e)); lia.
Qed.

(** *** Order of safe integers *)
Lemma digits2_shift (p k : positive) : digits2_pos (Pos.iter xO p k) = (digits2_pos p + k)%positive.
Proof.
  induction k as [|k IH] using Pos.peano_ind; [cbn [Pos.iter digits2_pos]; lia|].
  rewrite Pos.iter_succ. cbn [digits2_pos]. rewrite IH. lia.
Qed.

Lemma round_full (s : bool) (m : positive) (e : Z) :
  Z.pos (digits2_pos m) = prec -> emin prec emax <= e -> e <= emax - prec ->
  binary_round_aux prec emax s (Z.pos m) e loc_Exact = S754_finite s m e.
Proof.
  intros Hd He1 He2. assert (shr_fexp prec emax (Z.pos m) e loc_Exact = ({| shr_m := Z.pos m; shr_r := false; shr_s := false |}, e)) as E.
  { unfold shr_fexp, fexp. cbn [Zdigits2 shr_record_of_loc]. rewrite Hd. replace (Z.max (prec + e - prec) (emin prec emax) - e) with 0 by lia. done. }
  unfold binary_round_aux. rewrite E. cbn [shr_m loc_of_shr_record round_nearest_even]. rewrite E. cbn [shr_m].
  by rewrite (proj2 (Z.leb_le _ _)).
Qed.

Lemma of_Z_full (p : positive) : Z.pos (digits2_pos p) <= prec -> exists q,
  of_Z (Z.pos p) = S754_finite false q (Z.pos (digits2_pos p) - prec) /\ Z.pos q = Z.pos p * 2 ^ (prec - Z.pos (digits2_pos p)).
Proof.
  intros Hd. unfold of_Z, binary_normalize, binary_round, shl_align, fexp. set (d := Z.pos (digits2_pos p)) in *.
  replace (Z.max (d + 0 - prec) (emin prec emax) - 0) with (d - prec) by (unfold emin, emax, prec in *; lia).
  replace (Z.max (d + 0 - prec) (emin prec emax)) with (d - prec) by (unfold emin, emax, prec in *; lia).
  destruct (d - prec) as [|k|k] eqn:E; [|lia|].
  - exists p. replace (prec - d) with 0 by lia. split; [|lia]. apply round_full; unfold emin, emax, prec in *; lia.
  - exists (Pos.iter xO p k). replace (prec - d) with (Z.pos k) by lia. split; [|apply iter_xO].
    apply round_full; [rewrite digits2_shift; unfold d, prec in *; lia|unfold emin, emax, prec in *; lia..].
Qed.

Lemma safe_full (p : positive) : Z.pos p <= MAX_SAFE_INTEGER -> Z.pos (digits2_pos p) <= prec.
Proof. intros Hp. apply (Zdigits2_le (Z.pos p) prec); [|unfold prec; lia]. unfold MAX_SAFE_INTEGER, prec in *. lia. Qed.

Lemma leb_exact (a b : Z) : 0 <= a <= MAX_SAFE_INTEGER -> 0 <= b <= MAX_SAFE_INTEGER ->
  leb (of_Z a) (of_Z b) = (a <=? b).
Proof.
  intros Ha Hb. destruct a as [|p|p]; [| |lia].
  { destruct b as [|q|q]; [done| |lia]. destruct (of_Z_full q (safe_full q (proj2 Hb))) as (m & -> & _). done. }
  destruct (of_Z_full p (safe_full p (proj2 Ha))) as (m & -> & Hm). destruct b as [|q|q]; [done| |lia].
  destruct (of_Z_full q (safe_full q (proj2 Hb))) as (n & -> & Hn).
  pose proof (safe_full p (proj2 Ha)). pose proof (safe_full q (proj2 Hb)).
  pose proof (digits2_bounds p) as [Hp1 Hp2]. pose proof (digits2_bounds q) as [Hq1 Hq2].
  set (dp := Z.pos (digits2_pos p)) in *. set (dq := Z.pos (digits2_pos q)) in *.
  unfold leb, SFleb. cbn [SFcompare]. destruct (Z.compare_spec (dp - prec) (dq - prec)) as [E|E|E].
  - assert (dp = dq) as Ed by lia. rewrite Ed in *. change (Pos.compare_cont Eq m n) with (Pos.compare m n).
    pose proof (Z.pow_pos_nonneg 2 (prec - dq) ltac:(lia) ltac:(lia)).
    destruct (Pos.compare_spec m n) as [<-|Hmn|Hmn]; symmetry; [apply Z.leb_le|apply Z.leb_le|apply Z.leb_gt]; nia.
  - symmetry. apply Z.leb_le. assert (2 ^ dp <= 2 ^ (dq - 1)) by (apply Z.pow_le_mono_r; lia). lia.
  - symmetry. apply Z.leb_gt. assert (2 ^ dq <= 2 ^ (dp - 1)) by (apply Z.pow_le_mono_r; lia). lia.
Qed.

End Js.

Abbreviation number := spec_float.
