(* ===== verification/Text.v ===== *)
(** * Text: the string operations the code relies on

    Strings are sequences of code units below 256, so [ascii] characters, which
    covers every character the modelled grammars accept and the two kinds of
    white space a pasted value carries (ASCII and the no-break space).  Holds
    [trim], decimal digits ([String(n)] and [Number(digits)] on non-negative
    integers), [padStart]/[padEnd], and the decimal grammar
    [/^(-?)(\d+)(?:\.(\d+))?$/] that [money.ts] and [scaled.ts] share. *)

From S2P Require Import Prelude.
From Stdlib Require Import Ascii.
From Stdlib Require String.

#[local] Open Scope Z_scope.

Abbreviation text := (list ascii).
Definition chars (s : string) : text := String.list_ascii_of_string s.
Definition str (l : text) : string := String.string_of_list_ascii l.

Lemma chars_str (l : text) : chars (str l) = l.
Proof. apply String.list_ascii_of_string_of_list_ascii. Qed.

Lemma str_chars (s : string) : str (chars s) = s.
Proof. apply String.string_of_list_ascii_of_string. Qed.

(** ** Characters *)
Definition code (c : ascii) : Z := Z.of_N (N_of_ascii c).
Definition is_digit (c : ascii) : bool := (48 <=? code c) && (code c <=? 57).
Definition digit_value (c : ascii) : Z := code c - 48.
Definition digit_char (d : Z) : ascii := ascii_of_N (Z.to_N (48 + d)).

(** JavaScript white space and line terminators below code unit 256. *)
Definition is_space (c : ascii) : bool :=
  ((9 <=? code c) && (code c <=? 13)) || (code c =? 32) || (code c =? 160).

Fixpoint drop_while (p : ascii -> bool) (l : text) : text :=
  match l with
  | c :: l' => if p c then drop_while p l' else l
  | [] => []
  end.

(** [String.prototype.trim] *)
Definition trim_chars (l : text) : text :=
  reverse (drop_while is_space (reverse (drop_while is_space l))).
Definition trim (s : string) : string := str (trim_chars (chars s)).

Fixpoint span_digits (l : text) : text * text :=
  match l with
  | c :: l' => if is_digit c
               then let '(d, r) := span_digits l' in (c :: d, r)
               else ([], l)
  | [] => ([], [])
  end.

(** [Number(digits)] on a string of decimal digits. *)
Definition number_of (l : text) : Z :=
  fold_left (fun acc c => acc * 10 + digit_value c) l 0.

(** [String(n)] on a non-negative integer, least significant digit first. *)
Fixpoint rev_digits (fuel : nat) (n : Z) : text :=
  match fuel with
  | O => []
  | S fuel' => if n <? 10 then [digit_char n]
               else digit_char (n mod 10) :: rev_digits fuel' (n / 10)
  end.
Definition digits_of (n : Z) : text := reverse (rev_digits (S (Z.to_nat (Z.log2 n))) n).

(** [padStart(width, '0')] and [padEnd(width, '0')] *)
Definition zero_char : ascii := digit_char 0.
Definition pad_start (width : nat) (l : text) : text :=
  replicate (width - length l) zero_char ++ l.
Definition pad_end (width : nat) (l : text) : text :=
  l ++ replicate (width - length l) zero_char.

(** ** The decimal grammar

    [/^(-?)(\d+)(?:\.(\d+))?$/]: the sign, the whole part and the fraction
    (empty when the group did not take part in the match). *)
Definition minus_char : ascii := "-".
Definition dot_char : ascii := ".".

Definition match_unsigned (l : text) : option (text * text) :=
  let '(whole, rest) := span_digits l in
  match whole, rest with
  | [], _ => None
  | _, [] => Some (whole, [])
  | _, c :: rest' =>
      if ascii_dec c dot_char
      then match span_digits rest' with
           | ([], _) => None
           | (fraction, []) => Some (whole, fraction)
           | (_, _ :: _) => None
           end
      else None
  end.

Definition match_decimal (l : text) : option (bool * text * text) :=
  match l with
  | c :: l' => if ascii_dec c minus_char
               then (fun wf => (true, wf.1, wf.2)) <$> match_unsigned l'
               else (fun wf => (false, wf.1, wf.2)) <$> match_unsigned l
  | [] => None
  end.

(** ** Digits *)
Lemma code_digit_char (d : Z) : 0 <= d <= 9 -> code (digit_char d) = 48 + d.
Proof.
  intros Hd. unfold code, digit_char. rewrite N_ascii_embedding; lia.
Qed.

Lemma is_digit_digit_char (d : Z) : 0 <= d <= 9 -> is_digit (digit_char d) = true.
Proof. intros Hd. unfold is_digit. rewrite code_digit_char by done. lia. Qed.

Lemma digit_value_digit_char (d : Z) : 0 <= d <= 9 -> digit_value (digit_char d) = d.
Proof. intros Hd. unfold digit_value. rewrite code_digit_char by done. lia. Qed.

Lemma is_digit_value (c : ascii) : is_digit c = true -> 0 <= digit_value c <= 9.
Proof. unfold is_digit, digit_value. lia. Qed.

Lemma is_digit_not_space (c : ascii) : is_digit c = true -> is_space c = false.
Proof. unfold is_digit, is_space. lia. Qed.

Definition all_digits (l : text) : Prop := Forall (fun c => is_digit c = true) l.

Lemma number_of_app (l k : text) :
  number_of (l ++ k) = number_of l * 10 ^ Z.of_nat (length k) + number_of k.
Proof.
  unfold number_of. rewrite fold_left_app.
  generalize (fold_left (fun acc c => acc * 10 + digit_value c) l 0). intros a.
  induction k as [|c k IH] using rev_ind; [cbn; lia|].
  rewrite !fold_left_app, length_app. cbn. rewrite IH.
  rewrite Nat2Z.inj_add, Z.pow_add_r by lia. change (10 ^ Z.of_nat 1) with 10. lia.
Qed.

Lemma number_of_snoc (l : text) (c : ascii) :
  number_of (l ++ [c]) = number_of l * 10 + digit_value c.
Proof. rewrite number_of_app. unfold number_of at 2. cbn. lia. Qed.

Lemma number_of_nonneg (l : text) : all_digits l -> 0 <= number_of l.
Proof.
  induction l as [|c l IH] using rev_ind; [done|].
  unfold all_digits. rewrite Forall_app, Forall_singleton. intros [Hl Hc].
  rewrite number_of_snoc. pose proof (is_digit_value c Hc). specialize (IH Hl). lia.
Qed.

Lemma number_of_zeros (n : nat) : number_of (replicate n zero_char) = 0.
Proof.
  induction n as [|n IH]; [done|].
  rewrite replicate_S_end, number_of_snoc, IH. by vm_compute.
Qed.

Lemma all_digits_zeros (n : nat) : all_digits (replicate n zero_char).
Proof. apply Forall_replicate. by vm_compute. Qed.

Lemma rev_digits_spec (fuel : nat) (n : Z) :
  0 <= n < 2 ^ Z.of_nat fuel ->
  all_digits (rev_digits fuel n) /\ number_of (reverse (rev_digits fuel n)) = n.
Proof.
  revert n. induction fuel as [|fuel IH]; intros n Hn.
  { cbn in Hn. split; [constructor|]. cbn. lia. }
  cbn [rev_digits]. destruct (Z.ltb_spec n 10).
  - split; [constructor; [by apply is_digit_digit_char; lia|constructor]|].
    change (reverse [digit_char n]) with ([] ++ [digit_char n]).
    rewrite number_of_snoc, digit_value_digit_char by lia. cbn. lia.
  - rewrite Nat2Z.inj_succ, Z.pow_succ_r in Hn by lia.
    pose proof (Z.div_mod n 10 ltac:(lia)). pose proof (Z.mod_pos_bound n 10 ltac:(lia)).
    destruct (IH (n / 10)) as [Hd Hv]; [split; [apply Z.div_pos; lia|]|].
    { apply Z.div_lt_upper_bound; lia. }
    split; [constructor; [by apply is_digit_digit_char; lia|done]|].
    rewrite reverse_cons, number_of_snoc, Hv, digit_value_digit_char by lia. lia.
Qed.

Lemma digits_of_spec (n : Z) :
  0 <= n -> all_digits (digits_of n) /\ number_of (digits_of n) = n.
Proof.
  intros Hn. unfold digits_of.
  destruct (rev_digits_spec (S (Z.to_nat (Z.log2 n))) n) as [Hd Hv].
  - split; [done|]. destruct (Z.eq_dec n 0) as [->|]; [done|].
    rewrite Nat2Z.inj_succ, Z2Nat.id by apply Z.log2_nonneg.
    apply Z.log2_spec. lia.
  - split; [by apply Forall_reverse|done].
Qed.

Lemma digits_of_nonempty (n : Z) : digits_of n <> [].
Proof.
  unfold digits_of. cbn [rev_digits]. destruct (n <? 10); [done|].
  rewrite reverse_cons. by destruct (reverse _).
Qed.

Lemma digits_of_small (n : Z) (k : nat) :
  0 <= n < 10 ^ Z.of_nat k -> (0 < k)%nat -> (length (digits_of n) <= k)%nat.
Proof.
  unfold digits_of. rewrite length_reverse.
  generalize (S (Z.to_nat (Z.log2 n))) as fuel. intros fuel. revert n k.
  induction fuel as [|fuel IH]; intros n k Hn Hk; [cbn; lia|].
  cbn [rev_digits]. destruct (Z.ltb_spec n 10); cbn [length]; [lia|].
  destruct k as [|[|k]]; [lia|cbn in Hn; lia|].
  enough ((length (rev_digits fuel (n / 10)) <= S k)%nat) by lia.
  apply IH; [|lia]. split; [apply Z.div_pos; lia|].
  apply Z.div_lt_upper_bound; [lia|].
  rewrite Nat2Z.inj_succ, Z.pow_succ_r in Hn by lia. lia.
Qed.

Lemma pad_start_spec (w : nat) (l : text) :
  all_digits l ->
  all_digits (pad_start w l) /\ number_of (pad_start w l) = number_of l /\
  length (pad_start w l) = Nat.max w (length l).
Proof.
  intros Hl. unfold pad_start. split_and!.
  - apply Forall_app. split; [apply all_digits_zeros|done].
  - rewrite number_of_app, number_of_zeros. lia.
  - rewrite length_app, length_replicate. lia.
Qed.

Lemma pad_end_full (l : text) (w : nat) : length l = w -> pad_end w l = l.
Proof. intros <-. unfold pad_end. by rewrite Nat.sub_diag, app_nil_r. Qed.

(** ** The grammar on text the printers produce *)
Lemma span_digits_app (l r : text) :
  all_digits l -> (match r with c :: _ => is_digit c = false | [] => True end) ->
  span_digits (l ++ r) = (l, r).
Proof.
  induction l as [|c l IH]; cbn; intros Hl Hr.
  - destruct r as [|c r]; [done|]. cbn. by rewrite Hr.
  - inversion Hl as [|? ? Hc Hl']; subst. by rewrite Hc, (IH Hl' Hr).
Qed.

Lemma match_unsigned_whole (w : text) :
  all_digits w -> w <> [] -> match_unsigned w = Some (w, []).
Proof.
  intros Hw Hne. unfold match_unsigned.
  rewrite <- (app_nil_r w) at 1. rewrite span_digits_app by done. by destruct w.
Qed.

Lemma match_unsigned_fraction (w f : text) :
  all_digits w -> all_digits f -> w <> [] -> f <> [] ->
  match_unsigned (w ++ dot_char :: f) = Some (w, f).
Proof.
  intros Hw Hf Hwn Hfn. unfold match_unsigned.
  rewrite span_digits_app by done. destruct w as [|c w]; [done|].
  destruct (ascii_dec dot_char dot_char); [|done].
  rewrite <- (app_nil_r f) at 1. rewrite span_digits_app by done. by destruct f.
Qed.

Lemma match_decimal_signed (s : bool) (l w f : text) :
  match_unsigned l = Some (w, f) ->
  match_decimal ((if s then [minus_char] else []) ++ l) = Some (s, w, f).
Proof.
  intros Hm. destruct s; cbn.
  - by rewrite Hm.
  - destruct l as [|c l]; [done|]. unfold match_decimal.
    destruct (ascii_dec c minus_char) as [->|]; [|by rewrite Hm].
    by vm_compute in Hm.
Qed.

Lemma match_decimal_digits (l : text) (s : bool) (w f : text) :
  match_decimal l = Some (s, w, f) -> all_digits w /\ all_digits f.
Proof.
  assert (forall l d r, span_digits l = (d, r) -> all_digits d) as Hspan.
  { clear. induction l as [|c l IH]; cbn; intros d r H.
    - injection H as <- <-. constructor.
    - destruct (is_digit c) eqn:Hc; [|injection H as <- <-; constructor].
      destruct (span_digits l) as [d' r']. injection H as <- <-.
      constructor; [done|by eapply IH]. }
  assert (forall l w f, match_unsigned l = Some (w, f) -> all_digits w /\ all_digits f) as Hu.
  { clear - Hspan. intros l w f. unfold match_unsigned.
    destruct (span_digits l) as [w' r] eqn:Hw.
    repeat step_match; intros [= <- <-]; split; eauto; try constructor. }
  unfold match_decimal. intros H. destruct l as [|c l]; [done|].
  destruct (ascii_dec c minus_char); cbn in H.
  - destruct (match_unsigned l) as [[w' f']|] eqn:Hm; [|done].
    injection H as <- <- <-. eauto.
  - destruct (match_unsigned (c :: l)) as [[w' f']|] eqn:Hm; [|done].
    injection H as <- <- <-. eauto.
Qed.

(** Text that starts and ends with a visible character is its own trimming. *)
Lemma trim_id (l : text) :
  (match l with c :: _ => is_space c = false | [] => True end) ->
  (match reverse l with c :: _ => is_space c = false | [] => True end) ->
  trim_chars l = l.
Proof.
  intros H1 H2. unfold trim_chars.
  assert (drop_while is_space l = l) as -> by (destruct l; cbn; [done|by rewrite H1]).
  assert (drop_while is_space (reverse l) = reverse l) as ->
    by (destruct (reverse l); cbn; [done|by rewrite H2]).
  by rewrite reverse_involutive.
Qed.

Lemma drop_while_nil (p : ascii -> bool) (l : text) : drop_while p l = [] -> forall c, c ∈ l -> p c = true.
Proof.
  induction l as [|d l IH]; cbn; intros H c Hc; [by apply elem_of_nil in Hc|].
  destruct (p d) eqn:Hd; [|done]. apply elem_of_cons in Hc as [->|Hc]; [done|by apply IH].
Qed.

Lemma drop_while_suffix (p : ascii -> bool) (l : text) :
  exists l1, l = l1 ++ drop_while p l /\ forall c, c ∈ l1 -> p c = true.
Proof.
  induction l as [|d l (l1 & IH & Hp)]; cbn; [exists []; split; [done|by intros c Hc%elem_of_nil]|].
  destruct (p d) eqn:Hd; [|exists []; split; [done|by intros c Hc%elem_of_nil]].
  exists (d :: l1). cbn. rewrite <- IH. split; [done|]. intros c [->|Hc]%elem_of_cons; [done|by apply Hp].
Qed.

(** Text that trims to nothing is white space. *)
Lemma trim_nil (l : text) (c : ascii) : trim_chars l = [] -> c ∈ l -> is_space c = true.
Proof.
  unfold trim_chars. intros H Hc. apply (f_equal reverse) in H. rewrite reverse_involutive in H. cbn in H.
  destruct (drop_while_suffix is_space l) as (l1 & E & Hp). rewrite E in Hc.
  apply elem_of_app in Hc as [Hc|Hc]; [by apply Hp|].
  apply (drop_while_nil _ _ H). by apply elem_of_reverse.
Qed.

Lemma drop_while_head (p : ascii -> bool) (l : text) :
  match drop_while p l with c :: _ => p c = false | [] => True end.
Proof. induction l as [|c l IH]; cbn; [done|]. by destruct (p c) eqn:H. Qed.

Lemma trim_trim (l : text) : trim_chars (trim_chars l) = trim_chars l.
Proof.
  apply trim_id.
  - unfold trim_chars. pose proof (drop_while_head is_space l) as H. set (m := drop_while is_space l) in *.
    destruct (drop_while_suffix is_space (reverse m)) as (l1 & E & _). apply (f_equal reverse) in E.
    rewrite reverse_involutive, reverse_app in E. rewrite E in H. by destruct (reverse (drop_while _ _)).
  - unfold trim_chars. rewrite reverse_involutive. apply drop_while_head.
Qed.

Lemma trim_snoc_digits (l d : text) :
  (match l with c :: _ => is_space c = false | [] => True end) ->
  all_digits d -> d <> [] -> trim_chars (l ++ d) = l ++ d.
Proof.
  intros Hl Hd Hne. apply trim_id.
  - destruct l as [|c l]; [|done]. destruct d as [|c d]; [done|].
    inversion Hd; subst. by apply is_digit_not_space.
  - rewrite reverse_app. destruct (reverse d) as [|c r] eqn:Hr.
    + by destruct Hne; rewrite <- (reverse_involutive d), Hr.
    + cbn. apply is_digit_not_space.
      apply Forall_reverse in Hd. rewrite Hr in Hd. by inversion Hd.
Qed.

(** ** Generated identifiers

    Row ids come from the database ([gen_random_uuid]).  What the code relies on
    is that ids differ and hold neither separator of the fingerprint. *)
Class UuidSource : Type := {
  uuid : nat -> string;
  uuid_inj : Inj (=) (=) uuid;
  uuid_plain : forall n, Forall (fun c => c <> "|"%char /\ c <> ","%char) (chars (uuid n)) }.
#[global] Existing Instance uuid_inj.

(** The ids given out before the [n]th. *)
Definition issued `{UuidSource} (n : nat) (i : string) : Prop := exists k, (k < n)%nat /\ i = uuid k.

Lemma issued_mono `{UuidSource} (n m : nat) (i : string) : (n <= m)%nat -> issued n i -> issued m i.
Proof. intros Hle (k & Hk & ->). exists k. split; [lia|done]. Qed.

Lemma issued_fresh `{UuidSource} (n : nat) : ~ issued n (uuid n).
Proof. intros (k & Hk & H'). apply (inj uuid) in H'. lia. Qed.

(** A concrete source: decimal numerals. *)
Definition decimal_uuid (n : nat) : string := str (digits_of (Z.of_nat n)).

#[global, program] Instance decimal_uuids : UuidSource := {| uuid := decimal_uuid |}.
Next Obligation.
  intros i j H. unfold decimal_uuid in H.
  apply (f_equal chars) in H. rewrite !chars_str in H.
  destruct (digits_of_spec (Z.of_nat i)) as [_ Hi]; [lia|].
  destruct (digits_of_spec (Z.of_nat j)) as [_ Hj]; [lia|].
  apply (f_equal number_of) in H. lia.
Qed.
Next Obligation.
  intros n. unfold decimal_uuid. rewrite chars_str.
  destruct (digits_of_spec (Z.of_nat n)) as [Hd _]; [lia|].
  eapply Forall_impl; [exact Hd|]. intros c Hc. split; intros ->; by vm_compute in Hc.
Qed.

(** ** Strings as text *)
Lemma chars_append (a b : string) : chars (a +:+ b) = chars a ++ chars b.
Proof.
  induction a as [|c a IH]; [done|].
  change (c :: chars (a +:+ b) = c :: (chars a ++ chars b)). by rewrite IH.
Qed.

Lemma chars_inj (a b : string) : chars a = chars b -> a = b.
Proof. intros H. by rewrite <- (str_chars a), H, str_chars. Qed.

(** [String(z)] for an integer. *)
Definition print_Z (z : Z) : text :=
  (if z <? 0 then [minus_char] else []) ++ digits_of (Z.abs z).

Lemma digits_of_inj (a b : Z) : 0 <= a -> 0 <= b -> digits_of a = digits_of b -> a = b.
Proof.
  intros Ha Hb H. destruct (digits_of_spec a Ha) as [_ Ea], (digits_of_spec b Hb) as [_ Eb].
  by rewrite <- Ea, <- Eb, H.
Qed.

Lemma all_digits_plain (l : text) (c : ascii) :
  all_digits l -> is_digit c = false -> c ∉ l.
Proof.
  intros Hl Hc Hin. unfold all_digits in Hl. rewrite Forall_forall in Hl.
  specialize (Hl c Hin). congruence.
Qed.

Lemma print_Z_plain (z : Z) (c : ascii) :
  is_digit c = false -> c <> minus_char -> c ∉ print_Z z.
Proof.
  intros Hc Hm. destruct (digits_of_spec (Z.abs z)) as [Hd _]; [lia|].
  unfold print_Z. rewrite not_elem_of_app. split; [|by apply all_digits_plain].
  destruct (z <? 0); [by rewrite list_elem_of_singleton|by apply not_elem_of_nil].
Qed.

Lemma print_Z_inj (a b : Z) : print_Z a = print_Z b -> a = b.
Proof.
  destruct (digits_of_spec (Z.abs a)) as [Ha _]; [lia|].
  destruct (digits_of_spec (Z.abs b)) as [Hb _]; [lia|].
  assert (is_digit minus_char = false) as Hm by by vm_compute.
  unfold print_Z. destruct (Z.ltb_spec a 0), (Z.ltb_spec b 0); cbn [app]; intros H'.
  - injection H' as H'. apply digits_of_inj in H'; lia.
  - exfalso. apply (all_digits_plain _ _ Hb Hm). rewrite <- H'. left.
  - exfalso. apply (all_digits_plain _ _ Ha Hm). rewrite H'. left.
  - apply digits_of_inj in H'; lia.
Qed.
