(* ===== verification/Json.v ===== *)
(** * JSON: what [JSON.parse] and [JSON.stringify] do

    Values, their text, and reading text back.  An object lists its own properties
    in the order of [Object.keys].  The strings of the model are code units below 256
    ([Text]); text with an escape beyond them is refused.  Holds the round trip: what
    [stringify] writes, [parse] reads. *)

From Stdlib Require Import Ascii SpecFloat.
From Stdlib Require String.
From S2P Require Import Prelude JsNumber Text.

#[local] Open Scope char_scope.
#[local] Open Scope list_scope.
#[local] Open Scope Z_scope.

Import Js (number).

#[global] Instance number_eq_dec : EqDecision number.
Proof. solve_decision. Defined.

Inductive json : Type :=
  | j_null
  | j_bool (b : bool)
  | j_number (n : number)
  | j_string (s : string)
  | j_array (l : list json)
  | j_object (entries : list (string * json)).

Module Json.

(** ** Numbers *)

(** The number nearest to [m * 10^e]. *)
Definition of_decimal (s : bool) (m e : Z) : number :=
  match m with
  | Z.pos p =>
      if 0 <=? e then binary_normalize Js.prec Js.emax (Js.signed s p * 10 ^ e) 0 s
      else match 10 ^ (- e) with
           | Z.pos q => SFdiv Js.prec Js.emax (S754_finite s p 0) (S754_finite false q 0)
           | _ => S754_nan
           end
  | _ => S754_zero s
  end.

(** [m * 2^e] as a fraction, and [num / den] in units of [10^p], rounded. *)
Definition fraction_of (m : positive) (e : Z) : Z * Z :=
  if 0 <=? e then (Z.pos m * 2 ^ e, 1) else (Z.pos m, 2 ^ (- e)).
Definition in_units (num den p : Z) : Z :=
  let n := if 0 <=? p then num else num * 10 ^ (- p) in
  let d := if 0 <=? p then den * 10 ^ p else den in
  (2 * n + d) / (2 * d).

(** The place of the first digit: [10^(place - 1) <= num / den < 10^place]. *)
Fixpoint small_place (fuel : nat) (num den : Z) : Z :=
  match fuel with
  | O => 0
  | S fuel' => if den <=? num * 10 then 0 else small_place fuel' (num * 10) den - 1
  end.
Definition place (num den : Z) : Z :=
  if den <=? num then Z.of_nat (length (digits_of (num / den))) else small_place 400 num den.

(** The fewest digits that read back as this number: [Number::toString] of the language. *)
Fixpoint shortest (fuel : nat) (n : Z) (m : positive) (e : Z) : Z * Z :=
  let '(num, den) := fraction_of m e in
  let p := place num den - n in
  let s := in_units num den p in
  match fuel with
  | O => (s, p)
  | S fuel' => if bool_decide (of_decimal false s p = S754_finite false m e) then (s, p) else shortest fuel' (n + 1) m e
  end.

(** [s * 10^p], as the language writes it. *)
Definition decimal_text (s p : Z) : text :=
  let ds := digits_of s in
  let k := Z.of_nat (length ds) in
  let n := k + p in
  let exponent := (if 0 <=? n - 1 then "+" else "-") :: digits_of (Z.abs (n - 1)) in
  if (k <=? n) && (n <=? 21) then ds ++ replicate (Z.to_nat (n - k)) "0"
  else if (0 <? n) && (n <=? 21) then take (Z.to_nat n) ds ++ "." :: drop (Z.to_nat n) ds
  else if (-6 <? n) && (n <=? 0) then "0" :: "." :: replicate (Z.to_nat (- n)) "0" ++ ds
  else match ds with
       | [] => []
       | [d] => d :: "e" :: exponent
       | d :: ds' => d :: "." :: ds' ++ "e" :: exponent
       end.

(** A whole number that [number] holds exactly. *)
Definition whole (m : positive) (e : Z) : option Z :=
  let '(num, den) := fraction_of m e in
  if (num mod den =? 0) && (num / den <=? 2 ^ 53) then Some (num / den) else None.

Definition number_text (x : number) : text :=
  match x with
  | S754_zero _ => ["0"]
  | S754_finite s m e =>
      let body := match whole m e with
                  | Some z => digits_of z
                  | None => let '(d, p) := shortest 17 1 m e in decimal_text d p
                  end in
      if s then "-" :: body else body
  | _ => chars "null"
  end.

(** ** [JSON.stringify] *)
Definition quote : ascii := "034".
Definition backslash : ascii := "092".
Definition hex_char (d : Z) : ascii := if d <? 10 then digit_char d else ascii_of_N (Z.to_N (87 + d)).

Definition escaped (c : ascii) : text :=
  if bool_decide (c = quote) then [backslash; quote]
  else if bool_decide (c = backslash) then [backslash; backslash]
  else if code c =? 8 then [backslash; "b"]
  else if code c =? 9 then [backslash; "t"]
  else if code c =? 10 then [backslash; "n"]
  else if code c =? 12 then [backslash; "f"]
  else if code c =? 13 then [backslash; "r"]
  else if code c <? 32 then [backslash; "u"; "0"; "0"; hex_char (code c / 16); hex_char (code c mod 16)]
  else [c].
Definition string_text (s : string) : text := quote :: concat (escaped <$> chars s) ++ [quote].

(** Items with commas between them. *)
Fixpoint listed (items : list text) : text :=
  match items with
  | [] => []
  | [x] => x
  | x :: items' => x ++ "," :: listed items'
  end.

Fixpoint text_of (v : json) : text :=
  match v with
  | j_null => chars "null"
  | j_bool b => chars (if b then "true" else "false")
  | j_number n => number_text n
  | j_string s => string_text s
  | j_array l => "[" :: listed (text_of <$> l) ++ ["]"]
  | j_object entries => "{" :: listed ((fun e => string_text e.1 ++ ":" :: text_of e.2) <$> entries) ++ ["}"]
  end.
Definition stringify (v : json) : string := str (text_of v).

(** ** [JSON.parse] *)
Definition is_white (c : ascii) : bool := (code c =? 32) || (code c =? 9) || (code c =? 10) || (code c =? 13).
Definition skip (l : text) : text := drop_while is_white l.

Definition hex_value (c : ascii) : option Z :=
  let k := code c in
  if (48 <=? k) && (k <=? 57) then Some (k - 48)
  else if (97 <=? k) && (k <=? 102) then Some (k - 87)
  else if (65 <=? k) && (k <=? 70) then Some (k - 55)
  else None.

(** The single-letter escapes. *)
Definition escape_of (c : ascii) : option ascii :=
  if bool_decide (c = quote) || bool_decide (c = backslash) || bool_decide (c = "/") then Some c
  else if bool_decide (c = "b") then Some "008"
  else if bool_decide (c = "f") then Some "012"
  else if bool_decide (c = "n") then Some "010"
  else if bool_decide (c = "r") then Some "013"
  else if bool_decide (c = "t") then Some "009"
  else None.

(** The rest of a string, after its opening quote. *)
Fixpoint string_body (l : text) : option (text * text) :=
  match l with
  | [] => None
  | c :: l1 =>
      if bool_decide (c = quote) then Some ([], l1)
      else if bool_decide (c = backslash) then
        match l1 with
        | [] => None
        | x :: l2 =>
            if bool_decide (x = "u") then
              match l2 with
              | a :: b :: c' :: d :: l3 =>
                  va ← hex_value a; vb ← hex_value b; vc ← hex_value c'; vd ← hex_value d;
                  let k := ((va * 16 + vb) * 16 + vc) * 16 + vd in
                  if k <? 256 then r ← string_body l3; Some (ascii_of_N (Z.to_N k) :: r.1, r.2) else None
              | _ => None
              end
            else
              ch ← escape_of x; r ← string_body l2; Some (ch :: r.1, r.2)
        end
      else if code c <? 32 then None
      else r ← string_body l1; Some (c :: r.1, r.2)
  end.

(** The parts of a number: the digits, then the fraction and the exponent if any. *)
Definition fraction_part (l : text) : option (text * text) :=
  match l with
  | c :: l' =>
      if bool_decide (c = ".") then match span_digits l' with ([], _) => None | (f, r) => Some (f, r) end
      else Some ([], l)
  | [] => Some ([], l)
  end.
Definition exponent_digits (l : text) : option (Z * text) :=
  match span_digits l with ([], _) => None | (d, r) => Some (number_of d, r) end.
Definition exponent_part (l : text) : option (Z * text) :=
  match l with
  | c :: l' =>
      if bool_decide (c = "e") || bool_decide (c = "E") then
        match l' with
        | x :: l'' =>
            if bool_decide (x = "-") then e ← exponent_digits l''; Some (- e.1, e.2)
            else if bool_decide (x = "+") then exponent_digits l''
            else exponent_digits l'
        | [] => None
        end
      else Some (0, l)
  | [] => Some (0, l)
  end.
Definition leading_zero (d : text) : bool :=
  match d with c :: _ :: _ => bool_decide (c = "0") | _ => false end.
Definition unsigned (s : bool) (l : text) : option (number * text) :=
  let '(d, r) := span_digits l in
  if bool_decide (d = []) || leading_zero d then None
  else
    f ← fraction_part r;
    e ← exponent_part f.2;
    Some (of_decimal s (number_of (d ++ f.1)) (e.1 - Z.of_nat (length f.1)), e.2).
Definition read_number (l : text) : option (number * text) :=
  match l with
  | c :: l' => if bool_decide (c = "-") then unsigned true l' else unsigned false l
  | [] => None
  end.

(** *** Objects: the last value of a key, and indices before other keys *)
Fixpoint set_entry (k : string) (v : json) (l : list (string * json)) : list (string * json) :=
  match l with
  | [] => [(k, v)]
  | e :: l' => if bool_decide (e.1 = k) then (k, v) :: l' else e :: set_entry k v l'
  end.
Definition is_index (k : string) : bool :=
  let l := chars k in
  negb (bool_decide (l = []) || leading_zero l) && forallb is_digit l && (number_of l <? 2 ^ 32 - 1).
Definition by_index (a b : string * json) : Prop := number_of (chars a.1) <= number_of (chars b.1).
#[global] Instance by_index_dec : RelDecision by_index.
Proof. intros a b. unfold by_index. apply _. Defined.
Definition in_key_order (l : list (string * json)) : list (string * json) :=
  merge_sort by_index (List.filter (fun e => is_index e.1) l) ++ List.filter (fun e => negb (is_index e.1)) l.
Definition object_of (pairs : list (string * json)) : json :=
  j_object (in_key_order (fold_left (fun l e => set_entry e.1 e.2 l) pairs [])).

Fixpoint strip_prefix (p l : text) : option text :=
  match p, l with
  | [], _ => Some l
  | a :: p', b :: l' => if ascii_dec a b then strip_prefix p' l' else None
  | _ :: _, [] => None
  end.
Definition literal (word : string) (v : json) (l : text) : option (json * text) :=
  r ← strip_prefix (chars word) l; Some (v, r).

(** What follows the character [c], if that is what comes next. *)
Definition after (c : ascii) (l : text) : option text :=
  match skip l with
  | x :: r => if bool_decide (x = c) then Some r else None
  | [] => None
  end.

(** A value, the items of an array after one of them, the members of an object after
    one of them; the fuel bounds how many there are. *)
Fixpoint value (fuel : nat) (l : text) : option (json * text) :=
  match fuel with
  | O => None
  | S n =>
      match skip l with
      | [] => None
      | (c :: r) as l' =>
          if bool_decide (c = "[") then
            match after "]" r with
            | Some r' => Some (j_array [], r')
            | None => x ← items n r; Some (j_array x.1, x.2)
            end
          else if bool_decide (c = "{") then
            match after "}" r with
            | Some r' => Some (j_object [], r')
            | None => x ← members n r; Some (object_of x.1, x.2)
            end
          else if bool_decide (c = quote) then x ← string_body r; Some (j_string (str x.1), x.2)
          else if bool_decide (c = "n") then literal "null" j_null l'
          else if bool_decide (c = "t") then literal "true" (j_bool true) l'
          else if bool_decide (c = "f") then literal "false" (j_bool false) l'
          else x ← read_number l'; Some (j_number x.1, x.2)
      end
  end
with items (fuel : nat) (l : text) : option (list json * text) :=
  match fuel with
  | O => None
  | S n =>
      x ← value n l;
      match after "," x.2 with
      | Some r => y ← items n r; Some (x.1 :: y.1, y.2)
      | None => r ← after "]" x.2; Some ([x.1], r)
      end
  end
with members (fuel : nat) (l : text) : option (list (string * json) * text) :=
  match fuel with
  | O => None
  | S n =>
      r ← after quote l;
      k ← string_body r;
      r1 ← after ":" k.2;
      x ← value n r1;
      match after "," x.2 with
      | Some r2 => y ← members n r2; Some ((str k.1, x.1) :: y.1, y.2)
      | None => r2 ← after "}" x.2; Some ([(str k.1, x.1)], r2)
      end
  end.

Definition parse (s : string) : result json :=
  match value (Datatypes.S (length (chars s))) (chars s) with
  | Some (v, r) => if bool_decide (skip r = []) then Ok v else Err (SyntaxError "JSON")
  | None => Err (SyntaxError "JSON")
  end.

(** ** What is written is read *)

(** Values as the language holds them, whose numbers are safe integers. *)
Inductive plain : json -> Prop :=
  | plain_null : plain j_null
  | plain_bool (b : bool) : plain (j_bool b)
  | plain_number (z : Z) : Js.is_safe z = true -> plain (j_number (Js.of_Z z))
  | plain_string (s : string) : plain (j_string s)
  | plain_array (l : list json) : Forall plain l -> plain (j_array l)
  | plain_object (entries : list (string * json)) :
      Forall (fun e => plain e.2) entries -> object_of entries = j_object entries -> plain (j_object entries).

Fixpoint size (v : json) : nat :=
  match v with
  | j_array l => S (sum_list_with (fun x => S (size x)) l)
  | j_object entries => S (sum_list_with (fun e => S (size e.2)) entries)
  | _ => 1
  end.

(** *** Strings *)
Lemma string_body_escaped (c : ascii) (l : text) :
  string_body (escaped c ++ l) = (r ← string_body l; Some (c :: r.1, r.2)).
Proof. by destruct c as [[] [] [] [] [] [] [] []]. Qed.

Lemma string_body_text (s rest : text) : string_body (concat (escaped <$> s) ++ quote :: rest) = Some (s, rest).
Proof.
  induction s as [|c s IH]; [done|]. cbn [fmap list_fmap concat]. rewrite <- app_assoc, string_body_escaped, IH. done.
Qed.

(** *** Numbers *)
Definition ends (rest : text) : Prop :=
  match rest with [] => True | c :: _ => c = "," \/ c = "]" \/ c = "}" end.

Lemma span_digits_end (d rest : text) : all_digits d -> ends rest -> span_digits (d ++ rest) = (d, rest).
Proof.
  intros Hd Hr. induction Hd as [|c d Hc _ IH]; cbn.
  - destruct rest as [|c rest]; [done|]. destruct Hr as [-> |[-> | ->]]; done.
  - by rewrite Hc, IH.
Qed.

Lemma rev_digits_head (fuel : nat) (n : Z) :
  0 < n < 2 ^ Z.of_nat fuel -> exists c l, reverse (rev_digits fuel n) = c :: l /\ c <> "0".
Proof.
  revert n. induction fuel as [|fuel IH]; intros n Hn; [cbn in Hn; lia|]. cbn [rev_digits]. destruct (Z.ltb_spec n 10).
  - exists (digit_char n), []. split; [done|]. intros E. apply (f_equal code) in E. rewrite code_digit_char in E by lia.
    change (code "0") with 48 in E. lia.
  - rewrite Nat2Z.inj_succ, Z.pow_succ_r in Hn by lia. pose proof (Z.div_mod n 10 ltac:(lia)).
    pose proof (Z.mod_pos_bound n 10 ltac:(lia)).
    destruct (IH (n / 10)) as (c & l & Hl & Hc); [split; [apply Z.div_str_pos; lia|apply Z.div_lt_upper_bound; lia]|].
    exists c, (l ++ [digit_char (n mod 10)]). by rewrite reverse_cons, Hl.
Qed.

Lemma digits_of_leading (z : Z) : 0 <= z -> leading_zero (digits_of z) = false.
Proof.
  intros Hz. destruct (Z.eq_dec z 0) as [->|]; [done|]. unfold digits_of.
  destruct (rev_digits_head (S (Z.to_nat (Z.log2 z))) z) as (c & l & -> & Hc).
  - split; [lia|]. rewrite Nat2Z.inj_succ, Z2Nat.id by apply Z.log2_nonneg. apply Z.log2_spec. lia.
  - cbn. destruct l; [done|]. by apply bool_decide_eq_false_2.
Qed.

Lemma unsigned_digits (s : bool) (z : Z) (rest : text) :
  0 <= z -> ends rest -> unsigned s (digits_of z ++ rest) = Some (of_decimal s z 0, rest).
Proof.
  intros Hz Hr. destruct (digits_of_spec z Hz) as [Hd Hv]. unfold unsigned. rewrite span_digits_end by done.
  rewrite bool_decide_eq_false_2 by apply digits_of_nonempty. rewrite digits_of_leading by done.
  assert (fraction_part rest = Some ([], rest)) as ->.
  { destruct rest as [|c rest]; [done|]. by destruct Hr as [-> |[-> | ->]]. }
  assert (exponent_part rest = Some (0, rest)) as H.
  { destruct rest as [|c rest]; [done|]. by destruct Hr as [-> |[-> | ->]]. }
  cbn [orb mbind option_bind fst snd]. rewrite H. cbn [mbind option_bind fst snd length]. by rewrite app_nil_r, Hv.
Qed.

(** A whole number that is held exactly is written in its digits. *)
Lemma whole_exactly (s : bool) (m : positive) (e z : Z) :
  Js.mag_le (S754_finite s m e) z -> Js.mag_ge (S754_finite s m e) z -> 0 <= z <= Js.MAX_SAFE_INTEGER -> whole m e = Some z.
Proof.
  intros [He H1] [_ H2] Hz. assert (Z.pos m = z * 2 ^ (- e)) as Hm by lia. unfold whole, fraction_of.
  pose proof (Js.pow_opp_pos e He) as Hp. unfold Js.MAX_SAFE_INTEGER in Hz.
  destruct (Z.leb_spec 0 e).
  - assert (e = 0) as -> by lia. rewrite Hm, Z.mod_1_r, Z.div_1_r. cbn. rewrite !Z.mul_1_r.
    by destruct (Z.leb_spec z (2 ^ 53)); [|lia].
  - rewrite Hm, Z.mod_mul, Z.div_mul by lia. cbn. by destruct (Z.leb_spec z (2 ^ 53)); [|lia].
Qed.

Lemma round_aux_opp (m e : Z) (l : location) :
  binary_round_aux Js.prec Js.emax true m e l = SFopp (binary_round_aux Js.prec Js.emax false m e l).
Proof.
  unfold binary_round_aux. destruct (shr_fexp _ _ _ _ _) as [mrs e']. destruct (shr_fexp _ _ _ _ _) as [mrs' e''].
  destruct (shr_m mrs'); [done| |done]. by destruct (_ <=? _).
Qed.

Lemma of_Z_opp (p : positive) : Js.of_Z (Z.neg p) = SFopp (Js.of_Z (Z.pos p)).
Proof. unfold Js.of_Z, binary_normalize, binary_round. destruct (shl_align _ _ _). apply round_aux_opp. Qed.

Lemma number_text_nonneg (z : Z) : 0 <= z <= Js.MAX_SAFE_INTEGER ->
  number_text (Js.of_Z z) = digits_of z /\ (0 < z -> number_text (SFopp (Js.of_Z z)) = "-" :: digits_of z).
Proof.
  intros Hz. destruct (Js.exactly_of_Z z Hz) as (H1 & H2 & H3).
  destruct (Js.of_Z z) as [s|s| |s m e]; try done; cbn in H3; subst s.
  - cbn in H1, H2. assert (z = 0) as -> by lia. by split; [|lia].
  - unfold number_text, SFopp. rewrite (whole_exactly _ _ _ _ H1 H2 Hz). done.
Qed.

Lemma read_number_text (z : Z) (rest : text) :
  Js.is_safe z = true -> ends rest -> read_number (number_text (Js.of_Z z) ++ rest) = Some (Js.of_Z z, rest).
Proof.
  unfold Js.is_safe. intros Hz%Z.leb_le Hr. destruct (Z.le_gt_cases 0 z) as [Hp|Hn].
  - destruct (number_text_nonneg z) as [-> _]; [lia|]. unfold read_number.
    destruct (digits_of_spec z Hp) as [Hd _]. pose proof (unsigned_digits false z rest Hp Hr) as Hu.
    destruct (digits_of z) as [|c d] eqn:E; [by apply digits_of_nonempty in E|]. cbn [app] in *.
    apply Forall_cons in Hd as [Hc _]. rewrite bool_decide_eq_false_2 by (intros ->; discriminate). rewrite Hu.
    by destruct z as [|p|p]; [| |lia]; unfold of_decimal, Js.signed; cbn [Z.leb]; rewrite ?Z.mul_1_r.
  - destruct z as [|p|p]; [lia..|]. destruct (number_text_nonneg (Z.pos p)) as [_ H]; [lia|].
    rewrite of_Z_opp, H by lia. cbn [app read_number]. rewrite bool_decide_eq_true_2 by done.
    rewrite unsigned_digits by (lia || done). unfold of_decimal. cbn [Z.leb Z.compare]. rewrite Z.mul_1_r, <- of_Z_opp. done.
Qed.

(** *** Values *)
Lemma after_here (c : ascii) (l : text) : is_white c = false -> after c (c :: l) = Some l.
Proof. intros Hc. unfold after, skip. cbn. rewrite Hc. by rewrite bool_decide_eq_true_2. Qed.

Lemma after_not (c x : ascii) (l : text) : is_white x = false -> x <> c -> after c (x :: l) = None.
Proof. intros Hx Hc. unfold after, skip. cbn. rewrite Hx. by rewrite bool_decide_eq_false_2. Qed.

(** The characters a number may begin with. *)
Definition number_head (c : ascii) : Prop := c = "-" \/ is_digit c = true.

Lemma number_text_head (z : Z) : Js.is_safe z = true -> exists c r, number_text (Js.of_Z z) = c :: r /\ number_head c.
Proof.
  unfold Js.is_safe. intros Hz%Z.leb_le. destruct (Z.le_gt_cases 0 z) as [Hp|Hn].
  - destruct (number_text_nonneg z) as [-> _]; [lia|]. destruct (digits_of_spec z Hp) as [Hd _].
    destruct (digits_of z) as [|c r] eqn:E; [by apply digits_of_nonempty in E|].
    apply Forall_cons in Hd as [Hc _]. exists c, r. split; [done|by right].
  - destruct z as [|p|p]; [lia..|]. destruct (number_text_nonneg (Z.pos p)) as [_ H]; [lia|]. rewrite of_Z_opp, H by lia.
    eexists _, _. split; [done|by left].
Qed.

Ltac digit_cases c H := destruct c as [[] [] [] [] [] [] [] []]; try discriminate H.

Lemma number_head_other (c : ascii) : number_head c ->
  is_white c = false /\ c <> "[" /\ c <> "{" /\ c <> quote /\ c <> "n" /\ c <> "t" /\ c <> "f" /\ c <> "]" /\ c <> "}".
Proof. intros [-> |H]; [by split_and!|]. digit_cases c H; by split_and!. Qed.

Lemma text_head (v : json) : plain v ->
  exists c r, text_of v = c :: r /\ is_white c = false /\ c <> "]" /\ c <> "}".
Proof.
  intros Hv. inversion Hv as [|b|z Hz|s|l Hl|l Hl Ho]; subst; cbn [text_of].
  - by eexists _, _.
  - by destruct b; eexists _, _.
  - destruct (number_text_head z Hz) as (c & r & -> & Hc). exists c, r.
    destruct (number_head_other c Hc) as (? & _ & _ & _ & _ & _ & _ & ? & ?). by split_and!.
  - by eexists _, _.
  - by eexists _, _.
  - by eexists _, _.
Qed.

Lemma value_number (n : nat) (z : Z) (rest : text) :
  Js.is_safe z = true -> ends rest -> value (S n) (number_text (Js.of_Z z) ++ rest) = Some (j_number (Js.of_Z z), rest).
Proof.
  intros Hz Hr. destruct (number_text_head z Hz) as (c & r & E & Hc).
  destruct (number_head_other c Hc) as (Hw & H1 & H2 & H3 & H4 & H5 & H6 & _ & _).
  pose proof (read_number_text z rest Hz Hr) as H. rewrite E in *. cbn [app] in *.
  unfold value. unfold skip. cbn [drop_while]. rewrite Hw. rewrite !bool_decide_eq_false_2 by done. by rewrite H.
Qed.

Section Fuel.
Variable n : nat.
Hypothesis value_ok : forall m v rest, (m < n)%nat -> (size v <= m)%nat -> plain v -> ends rest ->
  value m (text_of v ++ rest) = Some (v, rest).

Lemma items_text (l : list json) (k : nat) (rest : text) :
  (k < n)%nat -> l <> [] -> (sum_list_with (fun x => S (size x)) l <= k)%nat -> Forall plain l ->
  items k (listed (text_of <$> l) ++ "]" :: rest) = Some (l, rest).
Proof.
  revert k. induction l as [|x l IH]; intros k Hk Hne Hs Hl; [done|]. cbn [sum_list_with] in Hs.
  apply Forall_cons in Hl as [Hx Hl]. destruct k as [|k]; [lia|]. cbn [items fmap list_fmap].
  destruct l as [|y l].
  - cbn [listed fmap list_fmap]. rewrite value_ok; [|lia|lia|done|by right; left]. cbn [mbind option_bind fst snd].
    rewrite after_not, after_here by done. done.
  - change (listed (text_of x :: (text_of <$> y :: l))) with (text_of x ++ "," :: listed (text_of <$> y :: l)).
    rewrite <- app_assoc. rewrite value_ok; [|lia|lia|done|by left]. cbn [mbind option_bind fst snd app].
    rewrite after_here by done. rewrite IH; [done|lia|done|lia|done].
Qed.

Definition member_text (e : string * json) : text := string_text e.1 ++ ":" :: text_of e.2.

Lemma members_text (l : list (string * json)) (k : nat) (rest : text) :
  (k < n)%nat -> l <> [] -> (sum_list_with (fun e => S (size e.2)) l <= k)%nat -> Forall (fun e => plain e.2) l ->
  members k (listed (member_text <$> l) ++ "}" :: rest) = Some (l, rest).
Proof.
  revert k. induction l as [|[key x] l IH]; intros k Hk Hne Hs Hl; [done|]. cbn [sum_list_with snd] in Hs.
  apply Forall_cons in Hl as [Hx Hl]. cbn [snd] in Hx. destruct k as [|k]; [lia|]. cbn [members fmap list_fmap].
  assert (forall tail, ends tail ->
    (r ← after quote (member_text (key, x) ++ tail); k0 ← string_body r; r1 ← after ":" k0.2; y ← value k r1; Some (str k0.1, y)) =
    Some (key, (x, tail))) as Hfirst.
  { intros tail Ht. unfold member_text, string_text. cbn [fst snd app]. rewrite after_here by done.
    cbn [mbind option_bind]. rewrite <- !app_assoc. cbn [app]. rewrite string_body_text. cbn [mbind option_bind fst snd].
    rewrite after_here by done. cbn [mbind option_bind]. rewrite value_ok by (lia || done). cbn. by rewrite str_chars. }
  assert (forall tail, ends tail -> members (S k) (member_text (key, x) ++ tail) =
    match after "," tail with
    | Some r2 => y ← members k r2; Some ((key, x) :: y.1, y.2)
    | None => r2 ← after "}" tail; Some ([(key, x)], r2)
    end) as Hstep.
  { intros tail Ht. specialize (Hfirst tail Ht). cbn [members].
    destruct (after quote _) as [r|]; [|done]. cbn [mbind option_bind] in *.
    destruct (string_body r) as [[kt r1]|]; [|done]. cbn [mbind option_bind fst snd] in *.
    destruct (after ":" r1) as [r2|]; [|done]. cbn [mbind option_bind] in *.
    destruct (value k r2) as [[v r3]|]; [|done]. cbn [mbind option_bind fst snd] in *. by injection Hfirst as -> -> ->. }
  destruct l as [|y l].
  - cbn [listed fmap list_fmap]. change (members (S k) (member_text (key, x) ++ "}" :: rest) = Some ([(key, x)], rest)).
    rewrite Hstep by (by right; right). rewrite after_not, after_here by done. done.
  - change (members (S k) ((member_text (key, x) ++ "," :: listed (member_text <$> y :: l)) ++ "}" :: rest) =
      Some ((key, x) :: y :: l, rest)).
    rewrite <- app_assoc. cbn [app]. rewrite Hstep by (by left). rewrite after_here by done.
    rewrite IH; [done|lia|done|lia|done].
Qed.
End Fuel.

Lemma value_text (n : nat) (v : json) (rest : text) :
  (size v <= n)%nat -> plain v -> ends rest -> value n (text_of v ++ rest) = Some (v, rest).
Proof.
  revert v rest. induction n as [n IH] using lt_wf_ind. intros v rest Hs Hv Hr.
  destruct n as [|n]; [destruct v; cbn in Hs; lia|].
  assert (forall m v rest, (m < S n)%nat -> (size v <= m)%nat -> plain v -> ends rest ->
    value m (text_of v ++ rest) = Some (v, rest)) as Hok by (intros; by apply IH).
  destruct Hv as [|b|z Hz|s|l Hl|l Hl Ho]; cbn [text_of] in *.
  - done.
  - by destruct b.
  - by apply value_number.
  - unfold string_text. cbn [app]. rewrite <- app_assoc. cbn [app value]. unfold skip. cbn [drop_while].
    change (is_white quote) with false. cbn iota. rewrite !bool_decide_eq_false_2, bool_decide_eq_true_2 by done.
    rewrite string_body_text. cbn [mbind option_bind fst snd]. by rewrite str_chars.
  - destruct l as [|x l]; [done|]. rewrite <- app_comm_cons, <- app_assoc. cbn [app].
    assert (after "]" (listed (text_of <$> x :: l) ++ "]" :: rest) = None) as Ha.
    { apply Forall_cons in Hl as [Hx _]. destruct (text_head x Hx) as (c & r & E & Hc & H1 & _).
      cbn [fmap list_fmap]. rewrite E. destruct l; cbn [listed fmap list_fmap app]; by apply after_not. }
    cbn [value]. unfold skip. cbn [drop_while]. change (is_white "[") with false. cbn iota. rewrite bool_decide_eq_true_2 by done.
    rewrite Ha. cbn [size] in Hs. rewrite (items_text (S n) Hok) by (lia || done). done.
  - destruct l as [|x l]; [done|]. rewrite <- app_comm_cons, <- app_assoc. cbn [app].
    change ((fun e => string_text e.1 ++ ":" :: text_of e.2) <$> x :: l) with (member_text <$> x :: l).
    assert (after "}" (listed (member_text <$> x :: l) ++ "}" :: rest) = None) as Ha.
    { destruct l; cbn [listed fmap list_fmap]; unfold member_text at 1, string_text; cbn [app]; by apply after_not. }
    cbn [value]. unfold skip. cbn [drop_while]. change (is_white "{") with false. cbn iota.
    rewrite bool_decide_eq_false_2, bool_decide_eq_true_2 by done.
    rewrite Ha. cbn [size] in Hs. rewrite (members_text (S n) Hok) by (lia || done). cbn [mbind option_bind fst snd]. by rewrite Ho.
Qed.

(** *** Enough fuel *)
Lemma listed_length (l : list text) : (length (listed l) + 1 >= sum_list_with (fun x => S (length x)) l)%nat.
Proof.
  induction l as [|x l IH]; [cbn; lia|]. destruct l as [|y l]; [cbn; lia|].
  change (listed (x :: y :: l)) with (x ++ "," :: listed (y :: l)). rewrite length_app. cbn [length sum_list_with] in *. lia.
Qed.

Lemma size_text (v : json) : plain v -> (size v <= length (text_of v))%nat.
Proof.
  remember (size v) as k eqn:Ek. revert v Ek. induction k as [k IH] using lt_wf_ind. intros v -> Hv.
  assert (forall x, (size x < size v)%nat -> plain x -> (size x <= length (text_of x))%nat) as Hsub by (intros; by eapply IH).
  destruct Hv as [|[]|z Hz|s|l Hl|l Hl _]; cbn [size text_of] in *; try (cbn; lia).
  - destruct (number_text_head z Hz) as (c & r & -> & _). cbn. lia.
  - cbn [length]. rewrite length_app. cbn [length].
    enough (sum_list_with (fun x => S (size x)) l <= sum_list_with (fun x => S (length x)) (text_of <$> l))%nat.
    { pose proof (listed_length (text_of <$> l)). lia. }
    clear IH. induction Hl as [|x l Hx _ IHl]; cbn [sum_list_with fmap list_fmap]; [lia|].
    pose proof (Hsub x ltac:(cbn; lia) Hx). specialize (IHl ltac:(intros y Hy; apply Hsub; cbn; lia)). lia.
  - cbn [length]. rewrite length_app. cbn [length].
    enough (sum_list_with (fun e => S (size e.2)) l <= sum_list_with (fun x => S (length x)) (member_text <$> l))%nat.
    { pose proof (listed_length (member_text <$> l)). unfold member_text in *. lia. }
    clear IH. induction Hl as [|x l Hx _ IHl]; cbn [sum_list_with fmap list_fmap]; [lia|].
    pose proof (Hsub x.2 ltac:(cbn; lia) Hx). specialize (IHl ltac:(intros y Hy; apply Hsub; cbn; lia)).
    unfold member_text at 1. rewrite length_app. cbn [length]. lia.
Qed.

(** What [stringify] writes, [parse] reads. *)
Theorem parse_stringify (v : json) : plain v -> parse (stringify v) = Ok v.
Proof.
  intros Hv. unfold parse, stringify. rewrite chars_str. pose proof (size_text v Hv) as Hs.
  pose proof (value_text (S (length (text_of v))) v [] ltac:(lia) Hv Logic.I) as H. rewrite app_nil_r in H. by rewrite H.
Qed.

(** Two values are written alike only if they are the same. *)
Lemma stringify_inj (v w : json) : plain v -> plain w -> stringify v = stringify w -> v = w.
Proof. intros Hv Hw E. pose proof (parse_stringify v Hv) as H. rewrite E, (parse_stringify w Hw) in H. by injection H. Qed.
End Json.
