(* ===== verification/Http.v ===== *)
(** * Calling over HTTP, and what the language has for it

    [encodeURIComponent], and [fetch] as a class: an answer, or a rejection, which may
    be a timeout.  Used by the geocoder and the object store. *)

From Stdlib Require Import Ascii.
From Stdlib Require String.
From S2P Require Import Prelude JsNumber Text.

#[local] Open Scope char_scope.
#[local] Open Scope list_scope.
#[local] Open Scope Z_scope.

(** ** [encodeURIComponent], on code units below 256 *)
Module Uri.
Definition unreserved (c : ascii) : bool :=
  let k := code c in
  (65 <=? k) && (k <=? 90) || (97 <=? k) && (k <=? 122) || is_digit c ||
  bool_decide (c ∈ ["-"; "_"; "."; "!"; "~"; "*"; "'"; "("; ")"]).

(** The bytes of a code unit in UTF-8. *)
Definition utf8_bytes (c : ascii) : list Z :=
  let k := code c in if k <? 128 then [k] else [192 + k / 64; 128 + k mod 64].
Definition hex_digit (n : Z) : ascii := ascii_of_N (Z.to_N (if n <? 10 then 48 + n else 55 + n)).
Definition percent (b : Z) : text := ["%"; hex_digit (b / 16); hex_digit (b mod 16)].
Definition encoded_char (c : ascii) : text :=
  if unreserved c then [c] else List.flat_map percent (utf8_bytes c).
Definition encode (l : text) : text := List.flat_map encoded_char l.
Definition encodeURIComponent (s : string) : string := str (encode (chars s)).

(** *** Reading it back, as a server does *)
Definition hex_value (c : ascii) : option Z :=
  let k := code c in
  if (48 <=? k) && (k <=? 57) then Some (k - 48)
  else if (65 <=? k) && (k <=? 70) then Some (k - 55)
  else if (97 <=? k) && (k <=? 102) then Some (k - 87)
  else None.
Definition byte_of (a b : ascii) : option Z := x ← hex_value a; y ← hex_value b; Some (x * 16 + y).
Definition unit_of (k : Z) : ascii := ascii_of_N (Z.to_N k).

Fixpoint decode (l : text) : option text :=
  match l with
  | [] => Some []
  | c :: l' =>
      if negb (bool_decide (c = "%")) then (fun r => c :: r) <$> decode l'
      else match l' with
           | a :: b :: l2 =>
               match byte_of a b with
               | Some k =>
                   if k <? 128 then (fun r => unit_of k :: r) <$> decode l2
                   else if (194 <=? k) && (k <? 196) then
                     match l2 with
                     | p :: a2 :: b2 :: l3 =>
                         if bool_decide (p = "%") then
                           match byte_of a2 b2 with
                           | Some k2 =>
                               if (128 <=? k2) && (k2 <? 192)
                               then (fun r => unit_of ((k - 192) * 64 + (k2 - 128)) :: r) <$> decode l3
                               else None
                           | None => None
                           end
                         else None
                     | _ => None
                     end
                   else None
               | None => None
               end
           | _ => None
           end
  end.

Lemma decode_char (c : ascii) (l : text) : decode (encoded_char c ++ l) = (fun r => c :: r) <$> decode l.
Proof. destruct c as [[] [] [] [] [] [] [] []]; reflexivity. Qed.

Lemma decode_encode (l : text) : decode (encode l) = Some l.
Proof.
  induction l as [|c l IH]; [done|]. change (encode (c :: l)) with (encoded_char c ++ encode l). by rewrite decode_char, IH.
Qed.

(** What may stand in a query without ending a parameter. *)
Definition query_char (c : ascii) : bool := unreserved c || bool_decide (c = "%").

Lemma encode_query (l : text) : forallb query_char (encode l) = true.
Proof.
  induction l as [|c l IH]; [done|]. change (encode (c :: l)) with (encoded_char c ++ encode l).
  rewrite forallb_app, IH, andb_true_r. destruct c as [[] [] [] [] [] [] [] []]; reflexivity.
Qed.
End Uri.

(** ** [fetch] *)
Record FetchResponse : Type := mkResponse { response_status : Z; response_text : result string }.
Record FetchRequest : Type := mkRequest {
  req_method : string; req_url : string; req_headers : list (string * string); req_body : text; req_timeoutMs : Z }.

Class Fetch (S : Type) : Type := { fetch : FetchRequest -> M S FetchResponse }.

(** [error instanceof Error && error.name === 'TimeoutError'], as [AbortSignal.timeout]
    rejects. *)
Definition isTimeout (e : error) : bool := bool_decide (e = ForeignError "TimeoutError").
(** [response.ok] *)
Definition response_ok (r : FetchResponse) : bool := (200 <=? response_status r) && (response_status r <=? 299).
