(* ===== verification/Columns.v ===== *)
(** * Columns and queries

    What identity and audit rely on Postgres for: [uuid], [inet] and [citext]
    columns and [ORDER BY ... DESC]; and the checks the code makes before it hands
    a value to one ([isAccountId] of [packages/contracts/src/identity.ts],
    [apps/api/src/identity/ip-address.ts]). *)

From Stdlib Require Import Ascii.
From S2P Require Import Prelude Text.

#[local] Open Scope string_scope.
#[local] Open Scope list_scope.
#[local] Open Scope Z_scope.

(** ** Text *)
Definition is_hex (c : ascii) : bool :=
  is_digit c || ((97 <=? code c) && (code c <=? 102)) || ((65 <=? code c) && (code c <=? 70)).

Definition lower_char (c : ascii) : ascii :=
  if (65 <=? code c) && (code c <=? 90) then ascii_of_N (Z.to_N (code c + 32)) else c.
Definition lower (s : string) : string := str (lower_char <$> chars s).

(** [/^[0-9a-f]{8}-[0-9a-f]{4}-[0-9a-f]{4}-[0-9a-f]{4}-[0-9a-f]{12}$/i] *)
Fixpoint hex_groups (ns : list nat) (l : text) : bool :=
  match ns with
  | [] => false
  | [n] => (length l =? n)%nat && forallb is_hex l
  | n :: ns' =>
      (n <=? length l)%nat && forallb is_hex (take n l) &&
      match drop n l with
      | c :: l' => bool_decide (c = "-"%char) && hex_groups ns' l'
      | [] => false
      end
  end.
Definition isAccountId (value : string) : bool := hex_groups [8; 4; 4; 4; 12]%nat (chars value).

(** ** Columns

    [uuid_in] reads text into a [uuid] column: [None] where Postgres raises, the
    canonical spelling elsewhere.  [inet_in] says what an [inet] column takes, and
    [isIP] is [node:net]'s. *)
Class PgTypes {Ids : UuidSource} : Type := {
  uuid_in : string -> option string;
  uuid_in_out : forall k, uuid_in (uuid k) = Some (uuid k);
  uuid_in_canonical : forall s u, uuid_in s = Some u -> uuid_in u = Some u;
  uuid_in_account : forall s, isAccountId s = true -> uuid_in s = Some (lower s);
  inet_in : string -> bool;
  isIP : string -> bool;
  isIP_inet : forall s, isIP s = true -> inet_in s = true }.

Section Columns.
Context {Ids : UuidSource} {Pg : PgTypes}.

(** [validIpOrNull], of a value that is a string or is not. *)
Definition validIpOrNull (value : option string) : option string :=
  match value with
  | None => None
  | Some v => let trimmed := trim v in if isIP trimmed then Some trimmed else None
  end.

Lemma validIpOrNull_inet (v : option string) (ip : string) :
  validIpOrNull v = Some ip -> inet_in ip = true.
Proof.
  unfold validIpOrNull. destruct v as [v|]; [|done]. destruct (isIP _) eqn:H; [|done].
  intros [= <-]. by apply isIP_inet.
Qed.

(** A value on its way into a [uuid] column. *)
Definition as_uuid {S} (s : string) : M S string :=
  match uuid_in s with Some u => mret u | None => throw (DatabaseError "22P02") end.
Definition as_uuid_opt {S} (s : option string) : M S (option string) :=
  match s with None => mret None | Some s => u ← as_uuid s; mret (Some u) end.
End Columns.

(** ** [ORDER BY k DESC]

    Rows with equal keys come in whatever order Postgres likes. *)
Class DescOrder : Type := {
  order_desc : forall {A : Type}, (A -> Z) -> list A -> list A;
  order_desc_Permutation : forall A (k : A -> Z) l, order_desc k l ≡ₚ l;
  order_desc_sorted : forall A (k : A -> Z) l, StronglySorted (fun x y => k y <= k x) (order_desc k l) }.

Section merge.
Context {A : Type} (k : A -> Z).
Definition desc (x y : A) : Prop := k y <= k x.
#[global] Instance desc_dec : RelDecision desc.
Proof. intros x y. unfold desc. apply _. Defined.
#[global] Instance desc_total : Total desc.
Proof. intros x y. unfold desc. lia. Qed.
#[global] Instance desc_trans : Transitive desc.
Proof. intros x y z. unfold desc. lia. Qed.
End merge.

#[global, program] Instance merge_order : DescOrder :=
  {| order_desc := fun A k => merge_sort (desc k) |}.
Next Obligation. intros. apply merge_sort_Permutation. Qed.
Next Obligation. intros A k l. apply (StronglySorted_merge_sort (desc k)). Qed.
