(* ===== verification/Money.v ===== *)
(** * Money ([packages/core/src/money.ts])

    Amounts are integers in the minor unit with a currency code.  JavaScript
    adds and subtracts safe integers exactly, and every constructor goes through
    [money], which refuses a result outside the safe range, so an amount is a
    [Z].  [multiply], [percentageOf] and [allocate] compute with binary64 numbers
    ([JsNumber]) exactly as the code does.  [format] (Intl) is not modelled. *)

From S2P Require Import Prelude JsNumber Text.
From Stdlib Require Import SpecFloat.

#[local] Open Scope Z_scope.

Module Money.
Import Js.

(** ** Data *)
Abbreviation CurrencyCode := string.
Definition SUPPORTED_CURRENCIES : list CurrencyCode := ["GBP"%string].

(** Minor units per major unit; [None] for a code the table does not hold. *)
Definition MINOR_UNITS_PER_MAJOR (currency : CurrencyCode) : option Z :=
  if decide (currency = "GBP"%string) then Some 100 else None.

Record Money : Type := mkMoney { amount : Z; currency : CurrencyCode }.

#[global] Instance Money_eq_dec : EqDecision Money.
Proof. solve_decision. Defined.

Inductive RoundingMode : Type := half_up | floor_mode | ceil_mode.

(** ** Construction *)
Definition applyRounding (value : number) (mode : RoundingMode) : option Z :=
  match mode with
  | half_up => r ← round (abs value); Some (sign value * r)
  | floor_mode => floor value
  | ceil_mode => ceil value
  end.

Definition money (a : Z) (c : CurrencyCode) : result Money :=
  if is_safe a then Ok (mkMoney a c)
  else Err (MoneyError "exceeds safe integer range").

(** [money] on a computed number: NaN and the infinities are not integers. *)
Definition money_of (a : option Z) (c : CurrencyCode) : result Money :=
  match a with
  | Some z => money z c
  | None => Err (MoneyError "Money must be an integer number of minor units")
  end.

Definition zero (c : CurrencyCode) : Money := mkMoney 0 c.

(** [String(scale).length - 1] *)
Definition decimals_of (scale : Z) : nat := length (digits_of scale) - 1.

Definition fromMajor (value : string) (c : CurrencyCode) : result Money :=
  match match_decimal (trim_chars (chars value)) with
  | None => Err (MoneyError "Cannot parse as a decimal amount")
  | Some (sign, whole, fraction) =>
      match MINOR_UNITS_PER_MAJOR c with
      | None => Err (MoneyError "no minor unit for this currency")
      | Some scale =>
          let decimals := decimals_of scale in
          if (decimals <? length fraction)%nat
          then Err (MoneyError "has too many decimal places")
          else
            let padded := pad_end decimals fraction in
            let minor := number_of whole * scale + number_of padded in
            money (if sign then - minor else minor) c
      end
  end.

(** ** Arithmetic *)
Definition assertSameCurrency (a b : Money) : result () :=
  throw_if (negb (bool_decide (currency a = currency b))) (MoneyError "Currency mismatch").

Definition add (a b : Money) : result Money :=
  _ ← assertSameCurrency a b; money (amount a + amount b) (currency a).

Definition subtract (a b : Money) : result Money :=
  _ ← assertSameCurrency a b; money (amount a - amount b) (currency a).

(** [values.reduce(add, zero(currency))] *)
Definition sum_from (acc : result Money) (values : list Money) : result Money :=
  fold_left (fun acc v => a ← acc; add a v) values acc.
Definition sum (values : list Money) (c : CurrencyCode) : result Money :=
  sum_from (Ok (zero c)) values.

Definition negate (m : Money) : result Money := money (- amount m) (currency m).
Definition absolute (m : Money) : result Money := money (Z.abs (amount m)) (currency m).

Definition multiply (m : Money) (factor : number) (mode : RoundingMode) : result Money :=
  if negb (is_finite factor) then Err (MoneyError "Multiplier must be finite")
  else money_of (applyRounding (mul (of_Z (amount m)) factor) mode) (currency m).

Definition percentageOf (m : Money) (percent : number) (mode : RoundingMode) : result Money :=
  multiply m (div percent (of_Z 100)) mode.

(** ** Allocation *)
Definition zsum (l : list Z) : Z := foldr Z.add 0 l.

(** The order leftover units are handed out in: a stable sort of the indices by
    descending ratio. *)
Fixpoint insert_by_ratio (x : number * nat) (l : list (number * nat)) :=
  match l with
  | [] => [x]
  | y :: l' => if ltb (fst y) (fst x) then x :: y :: l' else y :: insert_by_ratio x l'
  end.
Definition order_of (ratios : list number) : list nat :=
  snd <$> fold_left (fun acc x => insert_by_ratio x acc) (zip ratios (seq 0 (length ratios))) [].

(** [shares[target] += step], [k] times, taking targets round the order. *)
Fixpoint distribute (k i : nat) (order : list nat) (step : Z) (shares : list Z) : list Z :=
  match k with
  | O => shares
  | S k' =>
      let shares' := match order !! (i mod length order)%nat with
                     | Some t => alter (fun s => s + step) t shares
                     | None => shares
                     end in
      distribute k' (S i) order step shares'
  end.

Definition is_infinite (x : number) : bool :=
  match x with S754_infinity _ => true | _ => false end.

(** [None] when the code does not terminate: an infinite share makes the
    remainder infinite and the distribution loop never ends. *)
Definition allocate (m : Money) (ratios : list number) : option (result (list Money)) :=
  if decide (ratios = []) then
    Some (Err (MoneyError "allocate() requires at least one ratio"))
  else if existsb (fun r => ltb r (of_Z 0) || negb (is_finite r)) ratios then
    Some (Err (MoneyError "allocate() ratios must be finite and non-negative"))
  else
    let total := fold_left Js.add ratios (of_Z 0) in
    if leb total (of_Z 0) then
      Some (Err (MoneyError "allocate() ratios must sum to more than zero"))
    else
      let raw := (fun r => div (mul (of_Z (amount m)) r) total) <$> ratios in
      match mapM trunc raw with
      | None =>
          if forallb (fun x => is_finite x || is_infinite x) raw then None
          else Some (Err (MoneyError "Money must be an integer number of minor units"))
      | Some shares =>
          let remainder := amount m - zsum shares in
          let shares' := distribute (Z.to_nat (Z.abs remainder)) 0 (order_of ratios)
                           (Z.sgn remainder) shares in
          Some (mapM (fun s => money s (currency m)) shares')
      end.

(** ** Comparison *)
Definition compare (a b : Money) : result comparison :=
  _ ← assertSameCurrency a b;
  Ok (if amount a <? amount b then Lt else if amount a >? amount b then Gt else Eq).
Definition equals (a b : Money) : bool :=
  bool_decide (currency a = currency b) && (amount a =? amount b).
Definition greaterThan (a b : Money) : result bool :=
  c ← compare a b; Ok (match c with Gt => true | _ => false end).
Definition lessThan (a b : Money) : result bool :=
  c ← compare a b; Ok (match c with Lt => true | _ => false end).
Definition isZero (m : Money) : bool := amount m =? 0.
Definition isNegative (m : Money) : bool := amount m <? 0.
Definition isPositive (m : Money) : bool := amount m >? 0.
Definition maxOf (a b : Money) : result Money :=
  g ← greaterThan a b; Ok (if g : bool then a else b).
Definition minOf (a b : Money) : result Money :=
  l ← lessThan a b; Ok (if l : bool then a else b).

(** ** Presentation *)
Definition toMajorString (m : Money) : option string :=
  scale ← MINOR_UNITS_PER_MAJOR (currency m);
  let decimals := decimals_of scale in
  let a := Z.abs (amount m) in
  Some (str ((if amount m <? 0 then [minus_char] else []) ++
             digits_of (a / scale) ++ dot_char :: pad_start decimals (digits_of (a mod scale)))).

(** ** Theorems *)

(** A well-formed amount is inside the safe range. *)
Definition wf (m : Money) : Prop := is_safe (amount m) = true.

Lemma money_ok (a : Z) (c : CurrencyCode) (m : Money) :
  money a c = Ok m <-> is_safe a = true /\ m = mkMoney a c.
Proof. unfold money. destruct (is_safe a); intuition congruence. Qed.

Lemma money_safe (a : Z) (c : CurrencyCode) :
  is_safe a = true -> money a c = Ok (mkMoney a c).
Proof. unfold money. by intros ->. Qed.

Lemma is_safe_iff (z : Z) : is_safe z = true <-> Z.abs z <= MAX_SAFE_INTEGER.
Proof. unfold is_safe. lia. Qed.

Lemma add_ok (a b m : Money) :
  add a b = Ok m <->
  currency a = currency b /\ is_safe (amount a + amount b) = true /\
  m = mkMoney (amount a + amount b) (currency a).
Proof.
  unfold add, assertSameCurrency. unfold_result. case_bool_decide; cbn [negb].
  - rewrite money_ok. tauto.
  - intuition congruence.
Qed.

Lemma subtract_ok (a b m : Money) :
  subtract a b = Ok m <->
  currency a = currency b /\ is_safe (amount a - amount b) = true /\
  m = mkMoney (amount a - amount b) (currency a).
Proof.
  unfold subtract, assertSameCurrency. unfold_result. case_bool_decide; cbn [negb].
  - rewrite money_ok. tauto.
  - intuition congruence.
Qed.

(** The integer total of a list of amounts. *)
Definition total_of (values : list Money) : Z := zsum (amount <$> values).

Lemma total_of_cons (v : Money) (l : list Money) :
  total_of (v :: l) = amount v + total_of l.
Proof. done. Qed.

Lemma total_of_app (l k : list Money) : total_of (l ++ k) = total_of l + total_of k.
Proof. induction l as [|v l IH]; cbn [app]; rewrite ?total_of_cons, ?IH; [done|lia]. Qed.

Lemma total_of_perm (l k : list Money) : l ≡ₚ k -> total_of l = total_of k.
Proof. induction 1; rewrite ?total_of_cons in *; lia. Qed.

Lemma total_of_nonneg (l : list Money) :
  Forall (fun v => 0 <= amount v) l -> 0 <= total_of l.
Proof. induction 1; rewrite ?total_of_cons; [done|lia]. Qed.

#[local] Arguments sum_from : simpl never.
#[local] Arguments total_of : simpl never.

Lemma sum_from_err (e : error) (values : list Money) : sum_from (Err e) values = Err e.
Proof. unfold sum_from. induction values as [|v l IH]; [done|]. cbn. apply IH. Qed.

Lemma sum_from_cons (acc v : Money) (l : list Money) :
  sum_from (Ok acc) (v :: l) = sum_from (add acc v) l.
Proof. reflexivity. Qed.

Lemma sum_from_ok (acc : Money) (values : list Money) (m : Money) :
  sum_from (Ok acc) values = Ok m ->
  m = mkMoney (amount acc + total_of values) (currency acc) /\
  Forall (fun v => currency v = currency acc) values.
Proof.
  revert acc. induction values as [|v l IH]; intros acc H.
  - injection H as <-. cbn. rewrite Z.add_0_r. by destruct acc.
  - rewrite sum_from_cons in H.
    destruct (add acc v) as [a|e] eqn:Ha; [|by rewrite sum_from_err in H].
    apply add_ok in Ha as (Hc & _ & ->). destruct (IH _ H) as [-> Hl]; cbn in *.
    rewrite total_of_cons. split; [f_equal; lia|]. by constructor.
Qed.

Lemma sum_ok (values : list Money) (c : CurrencyCode) (m : Money) :
  sum values c = Ok m -> m = mkMoney (total_of values) c.
Proof. intros H. apply sum_from_ok in H as [-> _]. done. Qed.

Lemma sum_from_total (acc : Money) (values : list Money) :
  Forall (fun v => currency v = currency acc /\ 0 <= amount v) values ->
  0 <= amount acc -> amount acc + total_of values <= MAX_SAFE_INTEGER ->
  sum_from (Ok acc) values = Ok (mkMoney (amount acc + total_of values) (currency acc)).
Proof.
  revert acc. induction values as [|v l IH]; intros acc Hl Ha Hs.
  - cbn. rewrite Z.add_0_r. by destruct acc.
  - inversion Hl as [|? ? [Hc Hv] Hl']; subst. rewrite total_of_cons in *.
    assert (0 <= total_of l) as Hpos.
    { apply total_of_nonneg. eapply Forall_impl; [done|]. cbn. tauto. }
    rewrite sum_from_cons.
    assert (add acc v = Ok (mkMoney (amount acc + amount v) (currency acc))) as ->.
    { apply add_ok. rewrite is_safe_iff. split_and!; [done|lia|done]. }
    rewrite IH; cbn; [|done|lia|lia].
    f_equal. f_equal. lia.
Qed.

(** [sum] succeeds on non-negative amounts of one currency whose total is safe. *)
Lemma sum_total (values : list Money) (c : CurrencyCode) :
  Forall (fun v => currency v = c /\ 0 <= amount v) values ->
  total_of values <= MAX_SAFE_INTEGER ->
  sum values c = Ok (mkMoney (total_of values) c).
Proof. intros Hl Hs. apply (sum_from_total (zero c) values Hl); cbn; lia. Qed.

(** ** Percentages stay inside what they are taken of *)
Lemma mag_le_finite (x : number) (n : Z) : mag_le x n -> is_finite x = true.
Proof. by destruct x. Qed.

Lemma sign_of_bit (x : number) : sign_bit x = false -> 0 <= sign x <= 1.
Proof. destruct x as [s|s| |s m e]; cbn; intros; subst; cbn; lia. Qed.

(** A whole-number factor is exact. *)
Lemma multiply_exactly (m : Money) (k : Z) :
  0 <= amount m -> 0 <= k <= MAX_SAFE_INTEGER -> wf m -> amount m * k <= MAX_SAFE_INTEGER ->
  multiply m (of_Z k) half_up = Ok (mkMoney (amount m * k) (currency m)).
Proof.
  intros Ha Hk Hwf Hs. apply is_safe_iff in Hwf. rewrite Z.abs_eq in Hwf by done.
  pose proof (exactly_of_Z k Hk) as Hek.
  pose proof (mul_exactly _ _ _ _ (exactly_of_Z (amount m) ltac:(lia)) Hek) as Hmul.
  specialize (Hmul Ha ltac:(lia) Hs).
  unfold multiply. rewrite (mag_le_finite _ _ (proj1 Hek)). cbn [negb applyRounding].
  rewrite (round_abs_exactly _ _ Hmul). cbn [mbind option_bind money_of].
  rewrite (sign_exactly _ _ Hmul). apply money_safe, is_safe_iff. nia.
Qed.

(** A factor of magnitude at most one, applied to a non-negative amount. *)
Lemma multiply_bounded (m : Money) (factor : number) :
  0 <= amount m -> wf m -> mag_le factor 1 -> sign_bit factor = false ->
  exists c, multiply m factor half_up = Ok (mkMoney c (currency m)) /\ 0 <= c <= amount m.
Proof.
  intros Ha Hwf Hf Hs. apply is_safe_iff in Hwf. rewrite Z.abs_eq in Hwf by done.
  destruct (exactly_of_Z (amount m)) as (Hle & _ & Hsa); [done|].
  destruct (mul_le _ _ _ _ Hle Hf) as [Hmul Hsm]; [done|lia|lia|].
  rewrite Z.mul_1_r, Hsa, Hs in *.
  destruct (round_abs_bound _ _ Hmul) as (z & Hz & Hzb).
  pose proof (sign_of_bit _ Hsm) as Hsign.
  unfold multiply. rewrite (mag_le_finite _ _ Hf). cbn [negb applyRounding].
  rewrite Hz. cbn [mbind option_bind money_of].
  exists (sign (mul (of_Z (amount m)) factor) * z). rewrite money_safe; [split; [done|nia]|].
  apply is_safe_iff. nia.
Qed.

(** A rate in hundredths of a percent, through the two divisions the code makes. *)
Lemma rate_factor_bounded (bp : Z) :
  0 <= bp <= 10000 ->
  mag_le (div (div (of_Z bp) (of_Z 100)) (of_Z 100)) 1 /\
  sign_bit (div (div (of_Z bp) (of_Z 100)) (of_Z 100)) = false.
Proof.
  intros Hbp.
  destruct (exactly_of_Z bp) as (Hle & _ & Hs); [unfold MAX_SAFE_INTEGER; lia|].
  destruct (exactly_of_Z 100) as (_ & Hge & Hs100); [unfold MAX_SAFE_INTEGER; lia|].
  destruct (div_le (of_Z bp) (of_Z 100) 100 100) as [H1 S1];
    [apply (mag_le_mono _ bp); [done|lia]|done|lia|unfold MAX_SAFE_INTEGER; lia|].
  destruct (div_le (div (of_Z bp) (of_Z 100)) (of_Z 100) 100 1) as [H2 S2];
    [done|done|lia|unfold MAX_SAFE_INTEGER; lia|].
  split; [done|]. by rewrite S2, S1, Hs, Hs100.
Qed.

Lemma percentageOf_bounded (m : Money) (bp : Z) :
  0 <= bp <= 10000 -> 0 <= amount m -> wf m ->
  exists c, percentageOf m (div (of_Z bp) (of_Z 100)) half_up = Ok (mkMoney c (currency m)) /\
            0 <= c <= amount m.
Proof.
  intros Hbp Ha Hwf. destruct (rate_factor_bounded bp Hbp). by apply multiply_bounded.
Qed.

(** ** Allocation neither loses nor invents a unit *)
Lemma zsum_alter (l : list Z) (i : nat) (d : Z) :
  (i < length l)%nat -> zsum (alter (fun s => s + d) i l) = zsum l + d.
Proof.
  revert i. induction l as [|x l IH]; intros i Hi; cbn in Hi; [lia|].
  destruct i as [|i]; cbn; [lia|]. unfold zsum in IH. rewrite IH by lia. lia.
Qed.

Lemma distribute_sum (k i : nat) (order : list nat) (d : Z) (shares : list Z) :
  order <> [] -> Forall (fun t => (t < length shares)%nat) order ->
  zsum (distribute k i order d shares) = zsum shares + Z.of_nat k * d /\
  length (distribute k i order d shares) = length shares.
Proof.
  intros Hne. revert i shares. induction k as [|k IH]; intros i shares Ho; cbn [distribute]; [split; [lia|done]|].
  assert (length order <> 0%nat) by (by destruct order).
  destruct (lookup_lt_is_Some_2 order (i mod length order)) as [t Ht];
    [by apply Nat.mod_upper_bound|].
  rewrite Ht. rewrite Forall_forall in Ho.
  assert (t < length shares)%nat as Hlt by (apply Ho; by eapply list_elem_of_lookup_2).
  destruct (IH (S i) (alter (fun s => s + d) t shares)) as [H1 H2].
  - apply Forall_forall. intros x Hx. rewrite length_alter. by apply Ho.
  - rewrite H1, H2, zsum_alter, length_alter by done. split; [lia|done].
Qed.

Lemma insert_by_ratio_perm (x : number * nat) (l : list (number * nat)) :
  insert_by_ratio x l ≡ₚ x :: l.
Proof.
  induction l as [|y l IH]; cbn; [done|].
  destruct (ltb _ _); [done|]. rewrite IH. apply Permutation_swap.
Qed.

Lemma order_of_perm (ratios : list number) : order_of ratios ≡ₚ seq 0 (length ratios).
Proof.
  unfold order_of.
  assert (forall l acc, fold_left (fun a x => insert_by_ratio x a) l acc ≡ₚ l ++ acc) as H.
  { induction l as [|x l IH]; intros acc; cbn; [done|].
    rewrite IH, insert_by_ratio_perm. symmetry. apply Permutation_middle. }
  rewrite H, app_nil_r, snd_zip; [done|]. rewrite length_seq. lia.
Qed.

Lemma raw_share (a r total : Z) :
  0 <= a -> 0 <= r <= total -> 0 < total <= MAX_SAFE_INTEGER -> a <= MAX_SAFE_INTEGER ->
  a * r <= MAX_SAFE_INTEGER ->
  forall t, exactly t total ->
  exists z, trunc (div (mul (of_Z a) (of_Z r)) t) = Some z /\ 0 <= z <= a /\
    Z.abs (total * z - a * r) < total.
Proof.
  intros Ha Hr Ht Has Har t Hex.
  pose proof (mul_exactly _ _ _ _ (exactly_of_Z a ltac:(lia)) (exactly_of_Z r ltac:(lia)) Ha ltac:(lia) Har)
    as Hmul.
  pose proof (Z.div_mod (a * r) total ltac:(lia)) as Hdm.
  pose proof (Z.mod_pos_bound (a * r) total ltac:(lia)) as Hm.
  set (lo := a * r / total) in *.
  set (hi := if (a * r) mod total =? 0 then lo else lo + 1).
  assert (0 <= lo) as Hlo by (apply Z.div_pos; lia).
  assert (hi <= a) as Hhi.
  { unfold hi. destruct (Z.eqb_spec ((a * r) mod total) 0); nia. }
  destruct (div_exactly_range _ _ _ _ lo hi Hmul Hex) as (H1 & H2 & H3); [lia|lia|lia| |].
  { unfold hi. destruct (Z.eqb_spec ((a * r) mod total) 0); nia. }
  destruct (trunc_range _ lo hi H1 H2 H3) as (z & Hz & Hb). exists z. split_and!; [done|lia|lia|].
  unfold hi in Hb. destruct (Z.eqb_spec ((a * r) mod total) 0); nia.
Qed.

Lemma sum_exactly (rs : list Z) (x : number) (s : Z) :
  Forall (fun r => 0 <= r) rs -> exactly x s -> 0 <= s -> s + zsum rs <= MAX_SAFE_INTEGER ->
  exactly (fold_left Js.add (of_Z <$> rs) x) (s + zsum rs).
Proof.
  intros Hrs. revert x s. induction Hrs as [|r rs Hr Hrs IH]; intros x s Hx Hs Hle; cbn.
  - by rewrite Z.add_0_r.
  - unfold zsum in *. cbn in Hle. fold (zsum rs) in *.
    assert (0 <= zsum rs) by (clear -Hrs; induction Hrs; cbn; unfold zsum in *; lia).
    rewrite Z.add_assoc. apply IH; [|lia|lia].
    apply add_exactly; [done|apply exactly_of_Z; lia|lia..].
Qed.

(** A part of the round reaches each of its targets once. *)
Lemma distribute_lookup (k i : nat) (order : list nat) (d : Z) (shares : list Z) (t : nat) :
  (i + k <= length order)%nat -> NoDup order ->
  distribute k i order d shares !! t =
    (fun s => if decide (t ∈ take k (drop i order)) then s + d else s) <$> shares !! t.
Proof.
  intros Hk Hnd. revert i shares Hk. induction k as [|k IH]; intros i shares Hk; cbn [distribute take].
  - destruct (shares !! t); cbn; [|done]. by rewrite decide_False by apply not_elem_of_nil.
  - destruct (lookup_lt_is_Some_2 order i ltac:(lia)) as [x Hx].
    rewrite Nat.mod_small, Hx by lia. rewrite IH by lia.
    rewrite (drop_S order x i Hx). cbn [take].
    assert (x ∉ take k (drop (S i) order)) as Hnx.
    { assert (NoDup (drop i order)) as Hd by (eapply sublist_NoDup; [exact Hnd|apply sublist_drop]).
      clear Hnd. rename Hd into Hnd. rewrite (drop_S order x i Hx) in Hnd.
      apply NoDup_cons in Hnd as [Hn _]. intros Hin. apply Hn.
      rewrite <- (take_drop k (drop (S i) order)), elem_of_app. by left. }
    destruct (decide (t = x)) as [->|Hne].
    + rewrite list_lookup_alter_eq. destruct (shares !! x); cbn; [|done].
      rewrite decide_False by done. by rewrite decide_True by left.
    + rewrite list_lookup_alter_ne by done. destruct (shares !! t); cbn; [|done].
      f_equal. destruct (decide (t ∈ take k _)); [by rewrite decide_True by by right|].
      rewrite decide_False; [done|]. by intros [?|?]%elem_of_cons.
Qed.

Lemma raw_shares (a : Z) (rs : list Z) (total : Z) (t : number) :
  0 <= a <= MAX_SAFE_INTEGER -> 0 < total <= MAX_SAFE_INTEGER -> exactly t total ->
  Forall (fun r => 0 <= r <= total /\ a * r <= MAX_SAFE_INTEGER) rs ->
  exists zs, mapM trunc ((fun r => div (mul (of_Z a) r) t) <$> (of_Z <$> rs)) = Some zs /\
    Forall2 (fun r z => 0 <= z <= a /\ Z.abs (total * z - a * r) < total) rs zs.
Proof.
  intros Ha Ht Hex. induction 1 as [|r rs [Hr Har] _ (zs & Hzs & Hf)]; cbn; [by exists []|].
  destruct (raw_share a r total) with (t := t) as (z & Hz & Hb & Hd); [lia..|done|].
  exists (z :: zs). rewrite Hz. cbn. rewrite Hzs. split; [done|]. by constructor.
Qed.

Lemma raw_shares_sum (a total : Z) (rs zs : list Z) :
  Forall2 (fun r z => 0 <= z <= a /\ Z.abs (total * z - a * r) < total) rs zs ->
  Z.abs (total * zsum zs - a * zsum rs) <= Z.of_nat (length rs) * (total - 1).
Proof. induction 1 as [|r z rs zs [_ Hd] _ IH]; cbn in *; unfold zsum in *; lia. Qed.

Lemma weights_bounded (a : Z) (rs : list Z) :
  Forall (fun r => 0 <= r /\ a * r <= MAX_SAFE_INTEGER) rs ->
  Forall (fun r => 0 <= r <= zsum rs /\ a * r <= MAX_SAFE_INTEGER) rs.
Proof.
  intros H. assert (0 <= zsum rs /\ Forall (fun r => r <= zsum rs) rs) as [_ Hle].
  { induction H as [|r rs [Hr _] _ [IH1 IH2]]; [done|]. cbn. unfold zsum in *. split; [lia|].
    constructor; [lia|]. eapply Forall_impl; [exact IH2|]. cbn. lia. }
  rewrite Forall_forall in *. intros r Hr. destruct (H r Hr). specialize (Hle r Hr). lia.
Qed.

Lemma weights_accepted (rs : list Z) :
  Forall (fun r => 0 <= r <= MAX_SAFE_INTEGER) rs ->
  existsb (fun r => ltb r (of_Z 0) || negb (is_finite r)) (of_Z <$> rs) = false.
Proof.
  intros H. apply existsb_none. rewrite Forall_fmap. eapply Forall_impl; [exact H|].
  intros r Hr. cbn. destruct (exactly_of_Z r Hr) as (H1 & _ & Hs).
  destruct (of_Z r) as [s|s| |s m e]; try done; cbn in *; subst; done.
Qed.

Lemma total_positive (t : number) (n : Z) : exactly t n -> 0 < n -> leb t (of_Z 0) = false.
Proof.
  intros (Hle & Hge & Hs) Hn. destruct t as [s|s| |s m e]; try done; cbn in *; subst; [lia|done].
Qed.

Lemma mapM_money_ok (c : CurrencyCode) (l : list Z) :
  Forall (fun s => is_safe s = true) l ->
  mapM (fun s => money s c) l = Ok ((fun s => mkMoney s c) <$> l).
Proof. induction 1 as [|s l Hs _ IH]; cbn; unfold_result; [done|]. by rewrite (money_safe _ _ Hs), IH. Qed.

(** Splitting an amount by whole-number weights terminates and succeeds, loses and invents
    nothing, and gives each weight its exact share to within two units, though the shares
    are computed in binary64. *)
Theorem allocate_fairly (a : Z) (c : CurrencyCode) (rs : list Z) :
  0 <= a < MAX_SAFE_INTEGER -> Forall (fun r => 0 <= r /\ a * r <= MAX_SAFE_INTEGER) rs ->
  0 < zsum rs <= MAX_SAFE_INTEGER ->
  exists shares, allocate (mkMoney a c) (of_Z <$> rs) = Some (Ok shares) /\
    total_of shares = a /\
    Forall2 (fun r s => currency s = c /\
                        Z.abs (zsum rs * amount s - a * r) < 2 * zsum rs) rs shares.
Proof.
  intros Ha Hrs Ht.
  assert (Forall (fun r => 0 <= r) rs) as Hpos by (eapply Forall_impl; [exact Hrs|tauto]).
  assert (Forall (fun r => 0 <= r <= zsum rs /\ a * r <= MAX_SAFE_INTEGER) rs) as Hrs' by by apply weights_bounded.
  pose proof (sum_exactly rs (of_Z 0) 0 Hpos (exactly_of_Z 0 ltac:(lia)) ltac:(lia) ltac:(lia)) as Htot.
  rewrite Z.add_0_l in Htot. set (t := fold_left _ _ _) in Htot.
  destruct (raw_shares a rs (zsum rs) t) as (zs & Hzs & Hf); [lia..|done|done|].
  pose proof (raw_shares_sum _ _ _ _ Hf) as Hsum. pose proof (Forall2_length _ _ _ Hf) as Hlen.
  set (order := order_of (of_Z <$> rs)).
  assert (order ≡ₚ seq 0 (length rs)) as Hperm.
  { unfold order. by rewrite order_of_perm, length_fmap. }
  assert (NoDup order) as Hnd by (rewrite Hperm; apply NoDup_seq).
  assert (length order = length rs) as Hol by (by rewrite Hperm, length_seq).
  set (rem := a - zsum zs). set (k := Z.to_nat (Z.abs rem)).
  assert (k <= length rs)%nat as Hk by (unfold k, rem; nia).
  set (shares := distribute k 0 order (Z.sgn rem) zs).
  destruct (distribute_sum k 0 order (Z.sgn rem) zs) as [Hs Hl].
  { intros Ho. rewrite Ho in Hol. destruct rs; [cbn in Ht; lia|done]. }
  { rewrite Hperm. apply Forall_forall. intros x [_ Hx]%elem_of_seq. lia. }
  assert (Forall2 (fun r s => -1 <= s <= a + 1 /\ Z.abs (zsum rs * s - a * r) < 2 * zsum rs) rs shares) as Hsh.
  { apply Forall2_same_length_lookup. split; [unfold shares; lia|]. intros j r s Hr Hsj.
    unfold shares in Hsj. rewrite distribute_lookup in Hsj by (done || lia).
    destruct (zs !! j) as [z|] eqn:Hz; [|done]. injection Hsj as <-.
    pose proof (Forall2_lookup_lr _ _ _ _ _ _ Hf Hr Hz) as [Hb Hd]. destruct (decide _); nia. }
  exists ((fun s => mkMoney s c) <$> shares). split_and!.
  - unfold allocate. rewrite decide_False by (destruct rs; [cbn in Ht; lia|done]).
    rewrite weights_accepted by (eapply Forall_impl; [exact Hrs'|cbn; lia]). fold t.
    rewrite (total_positive t (zsum rs)) by (done || lia). cbn [amount currency].
    rewrite Hzs. fold rem k order shares. f_equal. apply mapM_money_ok.
    eapply Forall2_Forall_r; [exact Hsh|]. apply Forall_forall. intros r _ s [? _]. apply is_safe_iff. lia.
  - unfold total_of. rewrite <- list_fmap_compose, list_fmap_id by done.
    unfold shares. rewrite Hs. unfold k. rewrite Z2Nat.id by lia. unfold rem. lia.
  - apply Forall2_fmap_r. eapply Forall2_impl; [exact Hsh|]. cbn. intros r s [_ ?]. done.
Qed.

(** ** Printing and reading back *)
Lemma decimals_of_100 : decimals_of 100 = 2%nat.
Proof. by vm_compute. Qed.

(** Every safe amount prints as a decimal string that reads back as the same amount. *)
Theorem fromMajor_toMajorString (m : Money) :
  wf m -> currency m ∈ SUPPORTED_CURRENCIES ->
  exists s, toMajorString m = Some s /\ fromMajor s (currency m) = Ok m.
Proof.
  destruct m as [a c]. unfold wf; cbn [amount currency]. intros Hwf ->%list_elem_of_singleton.
  unfold toMajorString, MINOR_UNITS_PER_MAJOR. cbn [currency amount].
  rewrite decide_True by done. cbn [mbind option_bind].
  rewrite decimals_of_100. eexists. split; [done|].
  pose proof (Z.mod_pos_bound (Z.abs a) 100 ltac:(lia)) as Hmod.
  destruct (digits_of_spec (Z.abs a / 100)) as [Hw Hwv]; [apply Z.div_pos; lia|].
  destruct (digits_of_spec (Z.abs a mod 100)) as [Hf Hfv]; [lia|].
  destruct (pad_start_spec 2 _ Hf) as (Hpd & Hpv & Hpl).
  assert (length (digits_of (Z.abs a mod 100)) <= 2)%nat as Hlen
    by (apply digits_of_small; cbn; lia).
  rewrite Nat.max_l in Hpl by done.
  set (w := digits_of (Z.abs a / 100)) in *.
  set (f := pad_start 2 (digits_of (Z.abs a mod 100))) in *.
  assert (w <> []) as Hwne by apply digits_of_nonempty.
  assert (f <> []) as Hfne by (by destruct f).
  unfold fromMajor. rewrite chars_str.
  replace ((if a <? 0 then [minus_char] else []) ++ w ++ dot_char :: f)
    with (((if a <? 0 then [minus_char] else []) ++ w ++ [dot_char]) ++ f)
    by (by rewrite <- !app_assoc).
  rewrite trim_snoc_digits; [|destruct (a <? 0); [done|]|done|done].
  2: { destruct w as [|x w']; [done|]. cbn. apply is_digit_not_space. by inversion Hw. }
  rewrite <- !app_assoc. cbn [app].
  rewrite (match_decimal_signed (a <? 0) _ w f) by by apply match_unsigned_fraction.
  unfold MINOR_UNITS_PER_MAJOR. rewrite decide_True by done.
  rewrite decimals_of_100, Hpl, Nat.ltb_irrefl.
  rewrite pad_end_full by done. rewrite Hwv, Hpv, Hfv.
  assert ((if a <? 0 then - (Z.abs a / 100 * 100 + Z.abs a mod 100)
           else Z.abs a / 100 * 100 + Z.abs a mod 100) = a) as ->.
  { pose proof (Z.div_mod (Z.abs a) 100 ltac:(lia)). destruct (Z.ltb_spec a 0); lia. }
  by apply money_safe.
Qed.

End Money.
