(* ===== verification/Ledger.v ===== *)
(** * The ledger's rules ([apps/api/src/payments/ledger.ts])

    [Module Ledger]: the pure double-entry rules, what makes a draft postable, its
    reversal, accounts and their balances. *)

From S2P Require Import Prelude JsNumber Text Money.
From Stdlib Require Import Ascii.

#[local] Open Scope string_scope.
#[local] Open Scope list_scope.
#[local] Open Scope Z_scope.

Import Money (CurrencyCode, amount, currency, Money, mkMoney).

(** An instant, in milliseconds since the epoch. *)
Abbreviation instant := Z.

Module Ledger.

(** ** Vocabulary *)
Inductive LedgerDirection : Type := debit | credit.
Inductive LedgerAccountKind : Type := provider_clearing | owner_payable | platform_revenue.
Inductive Holder : Type := platform | user.
Inductive LedgerTransactionKind : Type := hire_charge_captured | owner_payout.

#[global] Instance LedgerDirection_eq_dec : EqDecision LedgerDirection.
Proof. solve_decision. Defined.
#[global] Instance LedgerAccountKind_eq_dec : EqDecision LedgerAccountKind.
Proof. solve_decision. Defined.
#[global] Instance LedgerTransactionKind_eq_dec : EqDecision LedgerTransactionKind.
Proof. solve_decision. Defined.

Definition NORMAL_SIDE (k : LedgerAccountKind) : LedgerDirection :=
  match k with
  | provider_clearing => debit
  | owner_payable => credit
  | platform_revenue => credit
  end.

Definition ACCOUNT_HOLDER (k : LedgerAccountKind) : Holder :=
  match k with
  | provider_clearing => platform
  | owner_payable => user
  | platform_revenue => platform
  end.

Definition direction_name (d : LedgerDirection) : string :=
  match d with debit => "debit" | credit => "credit" end.
Definition kind_name (k : LedgerAccountKind) : string :=
  match k with
  | provider_clearing => "provider_clearing"
  | owner_payable => "owner_payable"
  | platform_revenue => "platform_revenue"
  end.

Record LedgerEntryDraft : Type := mkEntry {
  accountId : string;
  direction : LedgerDirection;
  entry_amount : Money }.

Record LedgerTransactionDraft : Type := mkDraft {
  idempotencyKey : string;
  draft_kind : LedgerTransactionKind;
  draft_currency : CurrencyCode;
  bookingId : option string;
  occurredAt : instant;
  entries : list LedgerEntryDraft;
  reversesTransactionId : option string }.

Record PostedLedgerTransaction : Type := mkPosted {
  posted_id : string;
  recordedAt : instant;
  posted : LedgerTransactionDraft }.

#[global] Instance LedgerEntryDraft_eq_dec : EqDecision LedgerEntryDraft.
Proof. solve_decision. Defined.
#[global] Instance LedgerTransactionDraft_eq_dec : EqDecision LedgerTransactionDraft.
Proof. solve_decision. Defined.
#[global] Instance PostedLedgerTransaction_eq_dec : EqDecision PostedLedgerTransaction.
Proof. solve_decision. Defined.

Record LedgerTotals : Type := mkTotals { debits : Money; credits : Money }.

(** ** The rules *)
Definition on_side (d : LedgerDirection) (es : list LedgerEntryDraft) : list Money :=
  entry_amount <$> filter (fun e => direction e = d) es.

Definition totalsOf (draft : LedgerTransactionDraft) : result LedgerTotals :=
  d ← Money.sum (on_side debit (entries draft)) (draft_currency draft);
  c ← Money.sum (on_side credit (entries draft)) (draft_currency draft);
  Ok (mkTotals d c).

Definition assertEntry (draft : LedgerTransactionDraft) (e : LedgerEntryDraft) : result () :=
  _ ← throw_if (negb (bool_decide (currency (entry_amount e) = draft_currency draft)))
        (LedgerError "entry currency does not match transaction currency");
  throw_if (amount (entry_amount e) <=? 0)
    (LedgerError "a ledger entry amount must be positive").

Fixpoint each {A} (f : A -> result ()) (l : list A) : result () :=
  match l with
  | [] => Ok tt
  | x :: l' => _ ← f x; each f l'
  end.

Definition assertPostable (draft : LedgerTransactionDraft) : result () :=
  _ ← throw_if (length (entries draft) <? 2)%nat
        (LedgerError "a ledger transaction needs at least two entries");
  _ ← throw_if (bool_decide (trim (idempotencyKey draft) = ""))
        (LedgerError "a ledger transaction needs an idempotency key");
  _ ← each (assertEntry draft) (entries draft);
  t ← totalsOf draft;
  throw_if (negb (amount (debits t) =? amount (credits t)))
    (LedgerError "a ledger transaction must balance").

Definition oppositeOf (d : LedgerDirection) : LedgerDirection :=
  match d with debit => credit | credit => debit end.

Definition reversalOf (p : PostedLedgerTransaction) (key : string) (at_ : instant)
  : LedgerTransactionDraft :=
  {| idempotencyKey := key;
     draft_kind := draft_kind (posted p);
     draft_currency := draft_currency (posted p);
     bookingId := bookingId (posted p);
     occurredAt := at_;
     reversesTransactionId := Some (posted_id p);
     entries := (fun e => mkEntry (accountId e) (oppositeOf (direction e)) (entry_amount e))
                  <$> entries (posted p) |}.

Definition normalSideOf (k : LedgerAccountKind) : LedgerDirection := NORMAL_SIDE k.
Definition holderOf (k : LedgerAccountKind) : Holder := ACCOUNT_HOLDER k.

Record LedgerAccountSpec : Type := mkSpec {
  spec_kind : LedgerAccountKind;
  spec_currency : CurrencyCode;
  spec_ownerId : option string }.

Definition accountIdentityOf (spec : LedgerAccountSpec) : result string :=
  match holderOf (spec_kind spec), spec_ownerId spec with
  | user, None => Err (LedgerError "is held by one person and needs an owner")
  | user, Some o =>
      if bool_decide (trim o = "")
      then Err (LedgerError "is held by one person and needs an owner")
      else Ok (kind_name (spec_kind spec) +:+ ":" +:+ o +:+ ":" +:+ spec_currency spec)
  | platform, Some _ =>
      Err (LedgerError "is the platform's own and cannot be attributed to a person")
  | platform, None => Ok (kind_name (spec_kind spec) +:+ ":" +:+ spec_currency spec)
  end.

Definition balanceOf (k : LedgerAccountKind) (c : CurrencyCode)
    (es : list LedgerEntryDraft) : result Money :=
  increases ← Money.sum (on_side (normalSideOf k) es) c;
  decreases ← Money.sum (on_side (oppositeOf (normalSideOf k)) es) c;
  Money.subtract increases decreases.

Record Share : Type := mkShare { share_accountId : string; share_amount : Money }.

Definition apportion (from_ : Share) (to_ : list Share) (c : CurrencyCode)
  : result (list LedgerEntryDraft) :=
  shares ← Money.sum (share_amount <$> to_) c;
  if negb (amount shares =? amount (share_amount from_))
  then Err (LedgerError "apportioned shares do not sum to the amount moved")
  else Ok (mkEntry (share_accountId from_) debit (share_amount from_)
             :: ((fun s => mkEntry (share_accountId s) credit (share_amount s)) <$> to_)).

Definition noBalance (c : CurrencyCode) : Money := Money.zero c.
Definition minorUnits (a : Z) (c : CurrencyCode) : result Money := Money.money a c.

(** ** What the rules decide *)

(** A legal financial record, stated without reference to how it is checked. *)
Record postable (d : LedgerTransactionDraft) : Prop := {
  postable_two : (2 <= length (entries d))%nat;
  postable_key : trim (idempotencyKey d) <> "";
  postable_entries : Forall (fun e => currency (entry_amount e) = draft_currency d /\
                                      0 < amount (entry_amount e)) (entries d);
  postable_balance : Money.total_of (on_side debit (entries d)) =
                     Money.total_of (on_side credit (entries d)) }.

Lemma each_ok {A} (f : A -> result ()) (l : list A) :
  each f l = Ok tt <-> Forall (fun x => f x = Ok tt) l.
Proof.
  induction l as [|x l IH]; cbn; unfold_result; [by split|].
  destruct (f x) as [[]|e] eqn:Hx.
  - rewrite Forall_cons, IH. tauto.
  - rewrite Forall_cons. intuition congruence.
Qed.

Lemma assertEntry_ok (d : LedgerTransactionDraft) (e : LedgerEntryDraft) :
  assertEntry d e = Ok tt <->
  currency (entry_amount e) = draft_currency d /\ 0 < amount (entry_amount e).
Proof.
  unfold assertEntry. unfold_result. case_bool_decide; cbn.
  - destruct (Z.leb_spec (amount (entry_amount e)) 0); intuition (congruence || lia).
  - intuition congruence.
Qed.

Lemma on_side_Forall (P : Money -> Prop) (s : LedgerDirection) (es : list LedgerEntryDraft) :
  Forall (fun e => P (entry_amount e)) es -> Forall P (on_side s es).
Proof.
  intros H. unfold on_side. rewrite Forall_fmap. rewrite Forall_forall in *.
  intros e [_ He]%list_elem_of_filter. by apply H.
Qed.

(** The two sides of a draft that fits the safe range. *)
Definition fits (d : LedgerTransactionDraft) : Prop :=
  Money.total_of (on_side debit (entries d)) <= Js.MAX_SAFE_INTEGER /\
  Money.total_of (on_side credit (entries d)) <= Js.MAX_SAFE_INTEGER.

Lemma assertPostable_sound (d : LedgerTransactionDraft) :
  assertPostable d = Ok tt -> postable d.
Proof.
  unfold assertPostable. unfold_result. intros H.
  destruct (Nat.ltb_spec (length (entries d)) 2) as [|H2]; [done|].
  case_bool_decide as Hk; [done|].
  destruct (each _ _) as [[]|] eqn:He; [|done].
  destruct (totalsOf d) as [t|] eqn:Ht; [|done].
  destruct (Z.eqb_spec (amount (debits t)) (amount (credits t))) as [Hb|]; [|done].
  apply each_ok in He.
  unfold totalsOf in Ht. unfold_result.
  destruct (Money.sum (on_side debit _) _) as [sd|] eqn:Hd; [|done].
  destruct (Money.sum (on_side credit _) _) as [sc|] eqn:Hc; [|done].
  injection Ht as <-. apply Money.sum_ok in Hd as ->, Hc as ->.
  constructor; [done|done| |done].
  eapply Forall_impl; [exact He|]. intros e. by rewrite assertEntry_ok.
Qed.

Lemma assertPostable_complete (d : LedgerTransactionDraft) :
  postable d -> fits d -> assertPostable d = Ok tt.
Proof.
  intros [H2 Hk He Hb] [Hfd Hfc]. unfold assertPostable. unfold_result.
  destruct (Nat.ltb_spec (length (entries d)) 2); [lia|].
  rewrite bool_decide_eq_false_2 by done.
  assert (each (assertEntry d) (entries d) = Ok tt) as ->.
  { apply each_ok. eapply Forall_impl; [exact He|]. intros e. by rewrite assertEntry_ok. }
  assert (forall s, Forall (fun v => currency v = draft_currency d /\ 0 <= amount v)
                      (on_side s (entries d))) as Hs.
  { intros s. apply (on_side_Forall (fun v => currency v = draft_currency d /\ 0 <= amount v)).
    eapply Forall_impl; [exact He|]. cbn. intuition lia. }
  unfold totalsOf. unfold_result.
  rewrite !Money.sum_total by (done || lia). cbn.
  by rewrite Hb, Z.eqb_refl.
Qed.

(** ** Balances *)

(** The signed effect of entries on one account, debits positive. *)
Definition debit_value (e : LedgerEntryDraft) : Z :=
  match direction e with debit => amount (entry_amount e) | credit => - amount (entry_amount e) end.
Definition net (a : string) (es : list LedgerEntryDraft) : Z :=
  Money.zsum (debit_value <$> filter (fun e => accountId e = a) es).

Lemma net_cons (a : string) (e : LedgerEntryDraft) (es : list LedgerEntryDraft) :
  net a (e :: es) = (if decide (accountId e = a) then debit_value e else 0) + net a es.
Proof.
  unfold net. destruct (decide (accountId e = a)).
  - by rewrite filter_cons_True by done.
  - by rewrite filter_cons_False by done.
Qed.

Lemma net_app (a : string) (es fs : list LedgerEntryDraft) :
  net a (es ++ fs) = net a es + net a fs.
Proof. induction es as [|e es IH]; cbn [app]; rewrite ?net_cons, ?IH; [done|lia]. Qed.

(** Debits less credits over every account. *)
Definition imbalance (es : list LedgerEntryDraft) : Z := Money.zsum (debit_value <$> es).

Lemma imbalance_sides (es : list LedgerEntryDraft) :
  imbalance es = Money.total_of (on_side debit es) - Money.total_of (on_side credit es).
Proof.
  unfold imbalance, on_side.
  induction es as [|e es IH]; [done|].
  cbn [fmap list_fmap]. unfold Money.zsum in *. cbn [foldr]. rewrite IH.
  destruct e as [a [] m]; cbn [direction] in *;
    rewrite ?(filter_cons_True (fun e => direction e = debit)),
            ?(filter_cons_False (fun e => direction e = debit)),
            ?(filter_cons_True (fun e => direction e = credit)),
            ?(filter_cons_False (fun e => direction e = credit)) by done;
    cbn [fmap list_fmap]; rewrite ?Money.total_of_cons; cbn; lia.
Qed.

Lemma reversal_net (p : PostedLedgerTransaction) (key : string) (t : instant) (a : string) :
  net a (entries (reversalOf p key t)) = - net a (entries (posted p)).
Proof.
  cbn [reversalOf entries].
  induction (entries (posted p)) as [|e es IH]; [done|].
  cbn [fmap list_fmap]. rewrite !net_cons, IH. cbn [accountId].
  destruct (decide _); [|lia]. unfold debit_value. destruct e as [? [] ?]; cbn; lia.
Qed.

Lemma oppositeOf_involutive (d : LedgerDirection) : oppositeOf (oppositeOf d) = d.
Proof. by destruct d. Qed.

Lemma reversal_on_side (p : PostedLedgerTransaction) (key : string) (t : instant)
    (s : LedgerDirection) :
  on_side s (entries (reversalOf p key t)) = on_side (oppositeOf s) (entries (posted p)).
Proof.
  unfold on_side. cbn [reversalOf entries]. induction (entries (posted p)) as [|e es IH]; [done|].
  cbn [fmap list_fmap].
  destruct (decide (direction e = oppositeOf s)) as [He|He].
  - rewrite filter_cons_True, filter_cons_True; [|done|].
    + cbn [fmap list_fmap]. by rewrite IH.
    + cbn. by rewrite He, oppositeOf_involutive.
  - rewrite filter_cons_False, filter_cons_False; [done|done|].
    cbn. intros H. apply He. by rewrite <- H, oppositeOf_involutive.
Qed.

Lemma reversal_postable (p : PostedLedgerTransaction) (key : string) (t : instant) :
  trim key <> "" -> (2 <= length (entries (posted p)))%nat ->
  Forall (fun e => currency (entry_amount e) = draft_currency (posted p) /\
                   0 < amount (entry_amount e)) (entries (posted p)) ->
  Money.total_of (on_side debit (entries (posted p))) =
    Money.total_of (on_side credit (entries (posted p))) ->
  postable (reversalOf p key t).
Proof.
  intros Hk H2 He Hb. constructor.
  - cbn. by rewrite length_fmap.
  - done.
  - cbn. by rewrite Forall_fmap.
  - by rewrite !reversal_on_side.
Qed.

End Ledger.
