(* ===== verification/LedgerStore.v ===== *)
(** * The ledger's tables and its services

    [Module LedgerDb]: [ledger_accounts], [ledger_transactions] and
    [ledger_entries] as the migration [20260820150000_ledger_and_double_entry]
    constrains them, and [PrismaLedgerStore] over them.  [Module LedgerService]:
    [ledger.service.ts].  Rows are only ever appended: the migration's triggers
    refuse UPDATE and DELETE, and no definition here does either. *)

From S2P Require Import Prelude JsNumber Text Money Ledger.
From Stdlib Require Import Ascii.

#[local] Open Scope string_scope.
#[local] Open Scope list_scope.
#[local] Open Scope Z_scope.

Import Money (CurrencyCode, amount, currency, Money, mkMoney).
Import Ledger.

Module LedgerDb.

(** ** Rows *)
Record LedgerAccountRecord : Type := mkAccount {
  acc_id : string;
  acc_kind : LedgerAccountKind;
  acc_ownerId : option string;
  acc_currency : CurrencyCode;
  acc_identity : string }.

#[global] Instance LedgerAccountRecord_eq_dec : EqDecision LedgerAccountRecord.
Proof. solve_decision. Defined.

(** [seq] counts the ids the database has generated; [clock] is
    [CURRENT_TIMESTAMP]. *)
Record Db : Type := mkDb {
  accounts : list LedgerAccountRecord;
  transactions : list PostedLedgerTransaction;
  seq : nat;
  clock : instant }.

Definition empty_db (t : instant) : Db := mkDb [] [] 0 t.

Section WithIds.
Context {Ids : UuidSource}.

Definition by_identity (identity : string) (db : Db) : option LedgerAccountRecord :=
  find_by acc_identity identity (accounts db).
Definition by_account_id (id : string) (db : Db) : option LedgerAccountRecord :=
  find_by acc_id id (accounts db).
Definition by_id (id : string) (db : Db) : option PostedLedgerTransaction :=
  find_by posted_id id (transactions db).
Definition by_key (key : string) (db : Db) : option PostedLedgerTransaction :=
  find_by (fun t => idempotencyKey (posted t)) key (transactions db).
Definition by_reversed (id : string) (db : Db) : option PostedLedgerTransaction :=
  find_by (fun t => reversesTransactionId (posted t)) (Some id) (transactions db).

(** ** The constraints of the migration *)

(** [btrim] removes spaces only. *)
Definition btrim_empty (s : string) : bool :=
  forallb (fun c => code c =? 32) (chars s).

(** [INTEGER] columns. *)
Definition fits_int4 (z : Z) : bool := (- 2 ^ 31 <=? z) && (z <? 2 ^ 31).

Definition account_exists (db : Db) (id : string) (c : CurrencyCode) : bool :=
  existsb (fun a => bool_decide (acc_id a = id /\ acc_currency a = c)) (accounts db).

Definition side_total (d : LedgerDirection) (es : list LedgerEntryDraft) : Z :=
  Money.total_of (on_side d es).

Definition insert_account (identity : string) (spec : LedgerAccountSpec)
  : M Db LedgerAccountRecord := fun db =>
  if bool_decide (is_Some (by_identity identity db)) then
    (db, Err (DatabaseError "ledger_accounts_identity_key"))
  else if btrim_empty identity then
    (db, Err (DatabaseError "account_identity_is_present"))
  else
    let row := mkAccount (uuid (seq db)) (spec_kind spec) (spec_ownerId spec)
                 (spec_currency spec) identity in
    (mkDb (accounts db ++ [row]) (transactions db) (S (seq db)) (clock db), Ok row).

(** The entries of a row carry their transaction's currency. *)
Definition stored_entries (d : LedgerTransactionDraft) : list LedgerEntryDraft :=
  (fun e => mkEntry (accountId e) (direction e)
              (mkMoney (amount (entry_amount e)) (draft_currency d))) <$> entries d.

(** What the database refuses in one transaction and its entries, first match. *)
Definition refusal (d : LedgerTransactionDraft) (db : Db) : option string :=
  if bool_decide (is_Some (by_key (idempotencyKey d) db)) then
    Some "ledger_transactions_idempotencyKey_key"
  else if btrim_empty (idempotencyKey d) then Some "idempotency_key_is_present"
  else if (match reversesTransactionId d with
           | Some r => negb (bool_decide (is_Some (by_id r db))) | None => false end) then
    Some "ledger_transactions_reversesId_fkey"
  else if (match reversesTransactionId d with
           | Some r => bool_decide (is_Some (by_reversed r db)) | None => false end) then
    Some "ledger_transactions_reversesId_key"
  else if existsb (fun e => amount (entry_amount e) <=? 0) (entries d) then
    Some "entry_amount_is_positive"
  else if existsb (fun e => negb (fits_int4 (amount (entry_amount e)))) (entries d) then
    Some "integer out of range"
  else if existsb (fun e => negb (account_exists db (accountId e) (draft_currency d))) (entries d) then
    Some "ledger_entries_accountId_currency_fkey"
  else if (length (entries d) <? 2)%nat then Some "ledger_transaction_balances"
  else if negb (side_total debit (entries d) =? side_total credit (entries d)) then
    Some "ledger_transaction_balances"
  else None.

Definition insert_transaction (d : LedgerTransactionDraft) : M Db PostedLedgerTransaction :=
  fun db =>
  match refusal d db with
  | Some c => (db, Err (DatabaseError c))
  | None =>
      let row := mkPosted (uuid (seq db)) (clock db)
                   {| idempotencyKey := idempotencyKey d; draft_kind := draft_kind d;
                      draft_currency := draft_currency d; bookingId := bookingId d;
                      occurredAt := occurredAt d; entries := stored_entries d;
                      reversesTransactionId := reversesTransactionId d |} in
      (mkDb (accounts db) (transactions db ++ [row]) (S (seq db)) (clock db), Ok row)
  end.

(** ** [PrismaLedgerStore]

    [rival] is whatever other connections commit between the adapter's read and
    its write. *)
Section Race.
Variable rival : Db -> Db.

Definition accountFor (spec : LedgerAccountSpec) : M Db LedgerAccountRecord :=
  identity ← lift (accountIdentityOf spec);
  catch
    (found ← gets (by_identity identity);
     match found with
     | Some row => mret row
     | None => _ ← modify rival; insert_account identity spec
     end)
    (fun cause =>
       raced ← gets (by_identity identity);
       match raced with Some row => mret row | None => throw cause end).

Definition findById (id : string) : M Db (option PostedLedgerTransaction) := gets (by_id id).
Definition findByIdempotencyKey (key : string) : M Db (option PostedLedgerTransaction) :=
  gets (by_key key).

Definition post (d : LedgerTransactionDraft) : M Db PostedLedgerTransaction :=
  existing ← findByIdempotencyKey (idempotencyKey d);
  match existing with
  | Some p => mret p
  | None =>
      _ ← modify rival;
      catch (insert_transaction d)
        (fun _ =>
           raced ← findByIdempotencyKey (idempotencyKey d);
           match raced with
           | Some p => mret p
           | None =>
               match reversesTransactionId d with
               | Some r =>
                   already ← gets (by_reversed r);
                   match already with
                   | Some _ => throw (LedgerError "has already been reversed")
                   | None => throw (LedgerError "the database refused this posting")
                   end
               | None => throw (LedgerError "the database refused this posting")
               end
           end)
  end.
End Race.

Definition entries_of (account : string) (db : Db) : list LedgerEntryDraft :=
  filter (fun e => accountId e = account) (transactions db ≫= fun t => entries (posted t)).

Definition balanceOf (account : string) : M Db Money := fun db =>
  match by_account_id account db with
  | None => (db, Err (LedgerError "no such ledger account"))
  | Some a =>
      let normal := normalSideOf (acc_kind a) in
      (db, Money.money (side_total normal (entries_of account db)
                        - side_total (oppositeOf normal) (entries_of account db))
             (acc_currency a))
  end.

End WithIds.
End LedgerDb.

Module LedgerService.
Import LedgerDb.

Section WithIds.
Context {Ids : UuidSource}.

(** [`${accountId}|${direction}|${amount}|${currency}`] *)
Definition render_entry (e : LedgerEntryDraft) : string :=
  accountId e +:+ "|" +:+ direction_name (direction e) +:+ "|" +:+
  str (print_Z (amount (entry_amount e))) +:+ "|" +:+ currency (entry_amount e).

Fixpoint join (sep : string) (l : list string) : string :=
  match l with
  | [] => ""
  | [x] => x
  | x :: l' => x +:+ sep +:+ join sep l'
  end.

Definition fingerprintOf (es : list LedgerEntryDraft) : string :=
  join "," (merge_sort String.le (render_entry <$> es)).

Definition assertSameTransaction (d : LedgerTransactionDraft) (p : PostedLedgerTransaction)
  : result () :=
  throw_if
    (negb (bool_decide (draft_kind d = draft_kind (posted p)))
     || negb (bool_decide (draft_currency d = draft_currency (posted p)))
     || negb (bool_decide (bookingId d = bookingId (posted p)))
     || negb (bool_decide (reversesTransactionId d = reversesTransactionId (posted p)))
     || negb (bool_decide (fingerprintOf (entries d) = fingerprintOf (entries (posted p)))))
    (LedgerError "idempotency key has already been used for a different transaction").

Section Race.
Variable rival : Db -> Db.

Definition accountFor (spec : LedgerAccountSpec) : M Db LedgerAccountRecord :=
  _ ← lift (accountIdentityOf spec);
  LedgerDb.accountFor rival spec.

Definition post (d : LedgerTransactionDraft) : M Db PostedLedgerTransaction :=
  _ ← lift (assertPostable d);
  p ← LedgerDb.post rival d;
  _ ← lift (assertSameTransaction d p);
  mret p.

Definition reverse (transactionId key : string) (at_ : instant) : M Db PostedLedgerTransaction :=
  original ← findById transactionId;
  match original with
  | None => throw (LedgerError "cannot reverse: no such ledger transaction")
  | Some o => post (reversalOf o key at_)
  end.

Definition balance (spec : LedgerAccountSpec) : M Db Money :=
  account ← accountFor spec;
  balanceOf (acc_id account).
End Race.
End WithIds.
End LedgerService.
