(* ===== verification/LedgerProofs.v ===== *)
(** * The invariant of the ledger's tables

    What every row satisfies, and that the adapter and the service keep it under any
    well-behaved concurrent writer. *)

From S2P Require Import Prelude JsNumber Text Money Ledger LedgerStore.
From Stdlib Require Import Ascii.

#[local] Open Scope string_scope.
#[local] Open Scope list_scope.
#[local] Open Scope Z_scope.

Import Money (CurrencyCode, amount, currency, Money, mkMoney).
Import Ledger LedgerDb.

Section Ledger.
Context {Ids : UuidSource}.

(** ** The invariant *)
Definition key_of (t : PostedLedgerTransaction) : string := idempotencyKey (posted t).
Definition reverses_of (t : PostedLedgerTransaction) : option string :=
  reversesTransactionId (posted t).
Definition issued (db : Db) (id : string) : Prop := exists i, (i < seq db)%nat /\ id = uuid i.

(** One stored transaction: a legal record, posted to accounts of its currency. *)
Definition wf_transaction (db : Db) (t : PostedLedgerTransaction) : Prop :=
  (2 <= length (entries (posted t)))%nat /\
  Forall (fun e => currency (entry_amount e) = draft_currency (posted t) /\
                   0 < amount (entry_amount e) /\
                   account_exists db (accountId e) (draft_currency (posted t)) = true)
    (entries (posted t)) /\
  side_total debit (entries (posted t)) = side_total credit (entries (posted t)).

Record wf (db : Db) : Prop := {
  wf_identities : NoDup (acc_identity <$> accounts db);
  wf_account_ids : NoDup (acc_id <$> accounts db);
  wf_account_issued : Forall (fun a => issued db (acc_id a)) (accounts db);
  wf_account_spec : Forall (fun a =>
    accountIdentityOf (mkSpec (acc_kind a) (acc_currency a) (acc_ownerId a))
      = Ok (acc_identity a)) (accounts db);
  wf_keys : NoDup (key_of <$> transactions db);
  wf_ids : NoDup (posted_id <$> transactions db);
  wf_issued : Forall (fun t => issued db (posted_id t)) (transactions db);
  wf_reversed : NoDup (omap reverses_of (transactions db));
  wf_transactions : Forall (wf_transaction db) (transactions db) }.

(** Rows are only appended. *)
Definition extends (db db' : Db) : Prop :=
  accounts db `prefix_of` accounts db' /\ transactions db `prefix_of` transactions db'.

#[export] Instance extends_preorder : PreOrder extends.
Proof.
  split; [by intros db|]. intros a b c [H1 H2] [H3 H4]. split; by etrans.
Qed.

(** A concurrent writer that keeps the invariant and only appends. *)
Definition good_rival (rival : Db -> Db) : Prop :=
  forall db, wf db -> wf (rival db) /\ extends db (rival db).

Lemma good_rival_id : good_rival id.
Proof. intros db Hdb. split; [done|reflexivity]. Qed.

Lemma wf_empty (t : instant) : wf (empty_db t).
Proof. split; cbn; try apply NoDup_nil_2; constructor. Qed.

(** ** Single inserts *)
Lemma not_issued (db : Db) : ~ issued db (uuid (seq db)).
Proof. intros (i & Hi & He). apply (inj uuid) in He. lia. Qed.

Lemma issued_weaken (db db' : Db) (id : string) :
  (seq db <= seq db')%nat -> issued db id -> issued db' id.
Proof. intros Hs (i & Hi & ->). exists i. split; [lia|done]. Qed.

Lemma account_exists_mono (db db' : Db) (id : string) (c : CurrencyCode) :
  accounts db `prefix_of` accounts db' ->
  account_exists db id c = true -> account_exists db' id c = true.
Proof.
  intros [l Hl]. unfold account_exists. rewrite Hl, existsb_app. by intros ->.
Qed.

Lemma wf_transaction_mono (db db' : Db) (t : PostedLedgerTransaction) :
  accounts db `prefix_of` accounts db' -> wf_transaction db t -> wf_transaction db' t.
Proof.
  intros Hp (H2 & He & Hb). split_and!; [done| |done].
  eapply Forall_impl; [exact He|]. cbn. intros e (Hc & Ha & Hx).
  split_and!; [done..|]. by eapply account_exists_mono.
Qed.

Lemma insert_account_wf (identity : string) (spec : LedgerAccountSpec) (db db' : Db)
    (r : result LedgerAccountRecord) :
  wf db -> accountIdentityOf spec = Ok identity ->
  insert_account identity spec db = (db', r) ->
  wf db' /\ extends db db' /\
  (is_Some (by_identity identity db) \/ btrim_empty identity = true \/
   exists a, r = Ok a /\ by_identity identity db' = Some a).
Proof.
  intros Hwf Hid. unfold insert_account.
  case_bool_decide as Hex; [intros [= <- <-]; split_and!; [done|reflexivity|by left]|].
  destruct (btrim_empty identity) eqn:Hb;
    [intros [= <- <-]; split_and!; [done|reflexivity|right; by left]|].
  assert (by_identity identity db = None) as Hnone.
  { destruct (by_identity identity db); [by destruct Hex|done]. }
  pose proof (proj1 (find_by_None _ _ _) Hnone) as Hnew.
  destruct Hwf. intros [= <- <-].
  set (row := mkAccount _ _ _ _ _).
  assert (accounts db `prefix_of` accounts db ++ [row]) as Hpre by by apply prefix_app_r.
  split_and!.
  - split; cbn [accounts transactions].
    + rewrite fmap_app. by apply NoDup_snoc.
    + rewrite fmap_app. apply NoDup_snoc; [done|]. intros Hin.
      apply list_elem_of_fmap in Hin as (a & Ha & Hin).
      rewrite Forall_forall in wf_account_issued0.
      apply (not_issued db). cbn in Ha. rewrite Ha. by apply wf_account_issued0.
    + apply Forall_app. split; [|apply Forall_singleton; exists (seq db); cbn; split; [lia|done]].
      eapply Forall_impl; [exact wf_account_issued0|].
      intros a Ha. eapply issued_weaken; [|exact Ha]. cbn. lia.
    + apply Forall_app. split; [done|]. apply Forall_singleton. by destruct spec.
    + done.
    + done.
    + eapply Forall_impl; [exact wf_issued0|].
      intros a Ha. eapply issued_weaken; [|exact Ha]. cbn. lia.
    + done.
    + eapply Forall_impl; [exact wf_transactions0|].
      intros t Ht. by eapply wf_transaction_mono.
  - by split.
  - right. right. exists row. split; [done|].
    unfold by_identity in *. cbn [accounts].
    rewrite find_by_app, Hnone. unfold find_by. cbn. by rewrite bool_decide_eq_true_2.
Qed.

(** What the database has checked when it accepts a transaction. *)
Lemma refusal_None (d : LedgerTransactionDraft) (db : Db) :
  refusal d db = None ->
  by_key (idempotencyKey d) db = None /\
  (forall r, reversesTransactionId d = Some r -> is_Some (by_id r db) /\ by_reversed r db = None) /\
  Forall (fun e => 0 < amount (entry_amount e) /\ fits_int4 (amount (entry_amount e)) = true /\
                   account_exists db (accountId e) (draft_currency d) = true) (entries d) /\
  (2 <= length (entries d))%nat /\
  side_total debit (entries d) = side_total credit (entries d).
Proof.
  unfold refusal. intros H.
  case_bool_decide as Hk; [done|]. destruct (btrim_empty _); [done|].
  destruct (match reversesTransactionId d with Some r => negb _ | None => false end) eqn:Hfk; [done|].
  destruct (match reversesTransactionId d with Some r => bool_decide _ | None => false end) eqn:Hru; [done|].
  destruct (existsb _ (entries d)) eqn:Hpos; [done|].
  destruct (existsb (fun e => negb (fits_int4 _)) (entries d)) eqn:Hint; [done|].
  destruct (existsb (fun e => negb (account_exists _ _ _)) (entries d)) eqn:Hacc; [done|].
  destruct (Nat.ltb_spec (length (entries d)) 2) as [|H2]; [done|].
  destruct (Z.eqb_spec (side_total debit (entries d)) (side_total credit (entries d))) as [Hbal|];
    [|done].
  assert (forall f, existsb f (entries d) = false -> Forall (fun e => f e = false) (entries d)) as Hall.
  { clear. intros f. induction (entries d) as [|e es IH]; cbn; [by constructor|].
    destruct (f e) eqn:Hf; [done|]. intros. constructor; auto. }
  split_and!; [by destruct (by_key _ _); [destruct Hk|]| | |done|done].
  - intros r Hr. rewrite Hr in Hfk, Hru. apply negb_false_iff, bool_decide_eq_true in Hfk.
    apply bool_decide_eq_false in Hru. split; [done|]. by destruct (by_reversed r db); [destruct Hru|].
  - apply Hall in Hpos, Hint, Hacc. rewrite Forall_forall in *. intros e He.
    specialize (Hpos e He). specialize (Hint e He). specialize (Hacc e He). cbn in *.
    apply negb_false_iff in Hint, Hacc. split_and!; [lia|done|done].
Qed.

Lemma stored_entries_side (s : LedgerDirection) (d : LedgerTransactionDraft) :
  side_total s (stored_entries d) = side_total s (entries d).
Proof.
  unfold side_total, stored_entries, on_side.
  induction (entries d) as [|e es IH]; [done|]. cbn [fmap list_fmap].
  destruct (decide (direction e = s)) as [He|He].
  - rewrite !(filter_cons_True (fun e => direction e = s)) by done.
    cbn [fmap list_fmap]. rewrite !Money.total_of_cons, IH. done.
  - by rewrite !(filter_cons_False (fun e => direction e = s)) by done.
Qed.

Lemma stored_entries_same (d : LedgerTransactionDraft) :
  Forall (fun e => currency (entry_amount e) = draft_currency d) (entries d) ->
  stored_entries d = entries d.
Proof.
  unfold stored_entries. induction 1 as [|e es He _ IH]; [done|].
  cbn [fmap list_fmap]. rewrite IH. f_equal. destruct e as [a s [m c]]. cbn in *. by subst.
Qed.

Lemma reversed_in (r : string) (db : Db) :
  by_reversed r db = None -> r ∉ omap reverses_of (transactions db).
Proof.
  intros H. apply find_by_None in H. intros Hin. apply H.
  apply list_elem_of_omap in Hin as (t & Ht & Hr).
  apply list_elem_of_fmap. exists t. split; [|done]. by rewrite <- Hr.
Qed.

Lemma insert_transaction_wf (d : LedgerTransactionDraft) (db db' : Db)
    (r : result PostedLedgerTransaction) :
  wf db -> insert_transaction d db = (db', r) ->
  wf db' /\ extends db db' /\
  match r with
  | Ok p => by_key (idempotencyKey d) db = None /\ by_key (idempotencyKey d) db' = Some p /\
            transactions db' = transactions db ++ [p] /\
            posted p = {| idempotencyKey := idempotencyKey d; draft_kind := draft_kind d;
                          draft_currency := draft_currency d; bookingId := bookingId d;
                          occurredAt := occurredAt d; entries := stored_entries d;
                          reversesTransactionId := reversesTransactionId d |}
  | Err _ => db' = db
  end.
Proof.
  intros Hwf. unfold insert_transaction.
  destruct (refusal d db) as [c|] eqn:Href;
    [intros [= <- <-]; split_and!; [done|reflexivity|done]|].
  apply refusal_None in Href as (Hk & Hrev & He & H2 & Hbal).
  pose proof (proj1 (find_by_None _ _ _) Hk) as Hnew.
  destruct Hwf. intros [= <- <-].
  set (row := mkPosted _ _ _).
  split_and!.
  - split; cbn [accounts transactions].
    + done.
    + done.
    + eapply Forall_impl; [exact wf_account_issued0|].
      intros a Ha. eapply issued_weaken; [|exact Ha]. cbn. lia.
    + done.
    + rewrite fmap_app. by apply NoDup_snoc.
    + rewrite fmap_app. apply NoDup_snoc; [done|]. intros Hin.
      apply list_elem_of_fmap in Hin as (t & Ht & Hin).
      rewrite Forall_forall in wf_issued0.
      apply (not_issued db). cbn in Ht. rewrite Ht. by apply wf_issued0.
    + apply Forall_app. split; [|apply Forall_singleton; exists (seq db); cbn; split; [lia|done]].
      eapply Forall_impl; [exact wf_issued0|].
      intros a Ha. eapply issued_weaken; [|exact Ha]. cbn. lia.
    + rewrite omap_app.
      assert (omap reverses_of [row] =
              match reversesTransactionId d with Some r => [r] | None => [] end) as ->
        by (cbn; by destruct (reversesTransactionId d)).
      destruct (reversesTransactionId d) as [r|]; [|by rewrite app_nil_r].
      apply NoDup_snoc; [done|]. apply reversed_in. by apply Hrev.
    + apply Forall_app. split.
      { eapply Forall_impl; [exact wf_transactions0|]. intros t. by apply wf_transaction_mono. }
      apply Forall_singleton. split_and!.
      * cbn. unfold stored_entries. by rewrite length_fmap.
      * cbn. unfold stored_entries. rewrite Forall_fmap.
        eapply Forall_impl; [exact He|]. cbn. intros e (Hp & _ & Ha). done.
      * cbn [row posted entries]. by rewrite !stored_entries_side.
  - split; [done|]. by apply prefix_app_r.
  - done.
  - unfold by_key. cbn [transactions]. unfold by_key in Hk. rewrite find_by_app, Hk.
    unfold find_by. cbn. by rewrite bool_decide_eq_true_2.
  - done.
  - done.
Qed.

(** ** The adapter under a concurrent writer *)
Lemma by_key_mono (db db' : Db) (k : string) (p : PostedLedgerTransaction) :
  extends db db' -> by_key k db = Some p -> by_key k db' = Some p.
Proof. intros [_ H]. by apply find_by_mono. Qed.

Lemma post_store_spec (rival : Db -> Db) (d : LedgerTransactionDraft) (db db' : Db)
    (r : result PostedLedgerTransaction) :
  good_rival rival -> wf db -> LedgerDb.post rival d db = (db', r) ->
  wf db' /\ extends db db' /\
  match r with Ok p => by_key (idempotencyKey d) db' = Some p | Err _ => True end.
Proof.
  intros Hgood Hwf. unfold LedgerDb.post, findByIdempotencyKey. unfold_M.
  destruct (by_key (idempotencyKey d) db) as [p|] eqn:Hk.
  - intros [= <- <-]. split_and!; [done|reflexivity|done].
  - destruct (Hgood db Hwf) as [Hwf1 Hext1].
    destruct (insert_transaction d (rival db)) as [db2 r2] eqn:Hins.
    destruct (insert_transaction_wf _ _ _ _ Hwf1 Hins) as (Hwf2 & Hext2 & Hr2).
    assert (extends db db2) as Hext by by etrans.
    destruct r2 as [p|e].
    + intros [= <- <-]. split_and!; [done|done|by apply Hr2].
    + destruct (by_key (idempotencyKey d) db2) as [p|] eqn:Hk2.
      { intros [= <- <-]. split_and!; done. }
      destruct (reversesTransactionId d) as [x|];
        [destruct (by_reversed x db2)|]; intros [= <- <-]; split_and!; done.
Qed.

Lemma post_spec (rival : Db -> Db) (d : LedgerTransactionDraft) (db db' : Db)
    (r : result PostedLedgerTransaction) :
  good_rival rival -> wf db -> LedgerService.post rival d db = (db', r) ->
  wf db' /\ extends db db' /\
  match r with
  | Ok p => assertPostable d = Ok tt /\ LedgerService.assertSameTransaction d p = Ok tt /\
            by_key (idempotencyKey d) db' = Some p
  | Err _ => True
  end.
Proof.
  intros Hgood Hwf. unfold LedgerService.post. unfold_M.
  destruct (assertPostable d) as [[]|e] eqn:Hpost;
    [|intros [= <- <-]; split_and!; [done|reflexivity|done]].
  destruct (LedgerDb.post rival d db) as [db1 r1] eqn:Hp.
  destruct (post_store_spec _ _ _ _ _ Hgood Hwf Hp) as (Hwf1 & Hext & Hr).
  destruct r1 as [p|e]; [|intros [= <- <-]; done].
  destruct (LedgerService.assertSameTransaction d p) as [[]|e] eqn:Hsame;
    intros [= <- <-]; split_and!; done.
Qed.

Lemma accountFor_spec (rival : Db -> Db) (spec : LedgerAccountSpec) (db db' : Db)
    (r : result LedgerAccountRecord) :
  good_rival rival -> wf db -> LedgerService.accountFor rival spec db = (db', r) ->
  wf db' /\ extends db db' /\
  match r with
  | Ok a => exists identity, accountIdentityOf spec = Ok identity /\
                             by_identity identity db' = Some a
  | Err _ => True
  end.
Proof.
  intros Hgood Hwf. unfold LedgerService.accountFor, LedgerDb.accountFor. unfold_M.
  destruct (accountIdentityOf spec) as [identity|e] eqn:Hid;
    [|intros [= <- <-]; split_and!; [done|reflexivity|done]].
  destruct (by_identity identity db) as [a|] eqn:Ha.
  { intros [= <- <-]. split_and!; [done|reflexivity|by exists identity]. }
  destruct (Hgood db Hwf) as [Hwf1 Hext1].
  destruct (insert_account identity spec (rival db)) as [db2 r2] eqn:Hins.
  destruct (insert_account_wf _ _ _ _ _ Hwf1 Hid Hins) as (Hwf2 & Hext2 & Hr2).
  assert (extends db db2) as Hext by by etrans.
  assert (forall a, by_identity identity db2 = Some a ->
            exists identity0, Ok identity = Ok identity0 /\ by_identity identity0 db2 = Some a)
    as Hfound by by eauto.
  destruct r2 as [a|e].
  - intros [= <- <-]. split_and!; [done|done|]. apply Hfound.
    revert Hins. unfold insert_account.
    case_bool_decide as Hex; [done|]. destruct (btrim_empty identity); [done|].
    destruct Hr2 as [?|[?|(a' & [= ->] & ?)]]; [done|done|done].
  - destruct (by_identity identity db2) as [a|] eqn:Hi; intros [= <- <-]; split_and!; eauto.
Qed.

(** ** The fingerprint is the multiset of entries *)
Definition plain (s : string) : Prop :=
  Forall (fun c => c <> "|"%char /\ c <> ","%char) (chars s).

Lemma plain_bar (s : string) : plain s -> "|"%char ∉ chars s.
Proof. unfold plain. rewrite Forall_forall. intros H Hin. by destruct (H _ Hin). Qed.

Lemma plain_comma (s : string) : plain s -> ","%char ∉ chars s.
Proof. unfold plain. rewrite Forall_forall. intros H Hin. by destruct (H _ Hin). Qed.

Lemma plain_direction (d : LedgerDirection) : plain (direction_name d).
Proof. destruct d; unfold plain; repeat constructor; discriminate. Qed.

Lemma chars_bar (s t : string) : chars (s +:+ "|" +:+ t) = chars s ++ "|"%char :: chars t.
Proof. by rewrite !chars_append. Qed.

Lemma render_chars (e : LedgerEntryDraft) :
  chars (LedgerService.render_entry e) =
  chars (accountId e) ++ "|"%char :: chars (direction_name (direction e)) ++ "|"%char ::
  print_Z (amount (entry_amount e)) ++ "|"%char :: chars (currency (entry_amount e)).
Proof.
  unfold LedgerService.render_entry.
  rewrite !chars_append. cbn [chars]. by rewrite chars_str.
Qed.

Definition plain_entry (e : LedgerEntryDraft) : Prop :=
  plain (accountId e) /\ plain (currency (entry_amount e)).

Lemma render_inj (e f : LedgerEntryDraft) :
  plain_entry e -> plain_entry f ->
  LedgerService.render_entry e = LedgerService.render_entry f -> e = f.
Proof.
  intros [He _] [Hf _] H. apply (f_equal chars) in H. rewrite !render_chars in H.
  apply app_sep_inj_l in H as [Ha H]; [|by apply plain_bar..].
  apply app_sep_inj_l in H as [Hd H]; [|apply plain_bar, plain_direction..].
  apply app_sep_inj_l in H as [Hm Hc]; [|by apply print_Z_plain..].
  apply chars_inj in Ha, Hd, Hc. apply print_Z_inj in Hm.
  destruct e as [a d [m c]], f as [a' d' [m' c']]. cbn in *. subst.
  by destruct d, d'.
Qed.

Lemma render_comma (e : LedgerEntryDraft) :
  plain_entry e -> ","%char ∉ chars (LedgerService.render_entry e).
Proof.
  intros [Ha Hc]. rewrite render_chars, !not_elem_of_app, !not_elem_of_cons, !not_elem_of_app,
    !not_elem_of_cons, !not_elem_of_app, !not_elem_of_cons.
  split_and!; try done; try by apply plain_comma.
  - apply plain_comma, plain_direction.
  - by apply print_Z_plain.
Qed.

Definition joinable (s : string) : Prop := s <> "" /\ ","%char ∉ chars s.

Lemma join_cons (x y : string) (l : list string) :
  LedgerService.join "," (x :: y :: l) = x +:+ "," +:+ LedgerService.join "," (y :: l).
Proof. done. Qed.

Lemma join_comma (x y : string) (l : list string) :
  chars (LedgerService.join "," (x :: y :: l)) =
  chars x ++ ","%char :: chars (LedgerService.join "," (y :: l)).
Proof. rewrite join_cons. by rewrite !chars_append. Qed.

Lemma join_inj (l k : list string) :
  Forall joinable l -> Forall joinable k ->
  LedgerService.join "," l = LedgerService.join "," k -> l = k.
Proof.
  revert k. induction l as [|x l IH]; intros k Hl Hk H.
  - destruct k as [|y [|z k]]; [done| |].
    + inversion Hk as [|? ? [Hy _] _]; subst. by cbn in H; subst.
    + apply (f_equal chars) in H. rewrite join_comma in H. by destruct (chars y).
  - inversion Hl as [|? ? [Hx Hxc] Hl']; subst.
    destruct k as [|y k].
    { destruct l; [by cbn in H; subst|].
      apply (f_equal chars) in H. rewrite join_comma in H. by destruct (chars x). }
    inversion Hk as [|? ? [Hy Hyc] Hk']; subst.
    destruct l as [|x' l], k as [|y' k].
    + by cbn in H; subst.
    + exfalso. apply Hxc. apply (f_equal chars) in H. rewrite join_comma in H.
      change (LedgerService.join "," [x]) with x in H. rewrite H. set_solver.
    + exfalso. apply Hyc. apply (f_equal chars) in H. rewrite join_comma in H.
      change (LedgerService.join "," [y]) with y in H. rewrite <- H. set_solver.
    + apply (f_equal chars) in H. rewrite !join_comma in H.
      apply app_sep_inj_l in H as [Hxy H]; [|done..].
      apply chars_inj in Hxy as ->. apply chars_inj in H. f_equal. by apply IH.
Qed.

Lemma fingerprint_perm (es fs : list LedgerEntryDraft) :
  es ≡ₚ fs -> LedgerService.fingerprintOf es = LedgerService.fingerprintOf fs.
Proof.
  intros H. unfold LedgerService.fingerprintOf. f_equal.
  apply (Sorted_unique String.le); [apply Sorted_merge_sort; apply _..|].
  by rewrite !merge_sort_Permutation, H.
Qed.

Lemma fmap_perm_inj (es fs : list LedgerEntryDraft) :
  Forall plain_entry es -> Forall plain_entry fs ->
  LedgerService.render_entry <$> es ≡ₚ LedgerService.render_entry <$> fs -> es ≡ₚ fs.
Proof.
  intros He Hf H. apply Permutation_map_inv in H as (gs & Hg & Hp).
  enough (es = gs) as -> by by symmetry.
  assert (Forall plain_entry gs) as Hgs by by rewrite <- Hp.
  clear -He Hgs Hg. revert gs Hgs Hg.
  induction es as [|e es IH]; intros [|g gs] Hgs Hg; try done.
  apply Forall_cons in He as [He1 He2], Hgs as [Hg1 Hg2].
  assert (LedgerService.render_entry e = LedgerService.render_entry g
          /\ LedgerService.render_entry <$> es = LedgerService.render_entry <$> gs)
    as [Heg Hrest] by (by injection Hg).
  rewrite (render_inj e g) by done. by rewrite (IH He2 gs).
Qed.

Lemma fingerprint_inj (es fs : list LedgerEntryDraft) :
  Forall plain_entry es -> Forall plain_entry fs ->
  LedgerService.fingerprintOf es = LedgerService.fingerprintOf fs -> es ≡ₚ fs.
Proof.
  intros He Hf H. apply fmap_perm_inj; [done..|].
  assert (forall gs, Forall plain_entry gs ->
            Forall joinable (merge_sort String.le (LedgerService.render_entry <$> gs))) as Hj.
  { intros gs Hgs. rewrite merge_sort_Permutation, Forall_fmap.
    eapply Forall_impl; [exact Hgs|]. intros e Hp. split; [|by apply render_comma].
    cbn. intros Hs. apply (f_equal chars) in Hs. rewrite render_chars in Hs.
    by destruct (chars (accountId e)). }
  apply join_inj in H; [|by apply Hj..].
  by rewrite <- (merge_sort_Permutation String.le (LedgerService.render_entry <$> es)), H,
    merge_sort_Permutation.
Qed.

End Ledger.
