(* ===== verification/LedgerTheorems.v ===== *)
(** * What the ledger promises

    Schedules of service calls, each racing an arbitrary list of other committed
    calls, and the theorems that hold after every schedule: the trial balance,
    exactly-once posting, refusal of a reused key, reversal, and the agreement
    of the database's balance with the pure one. *)

From S2P Require Import Prelude JsNumber Text Money Ledger LedgerStore LedgerProofs.
From Stdlib Require Import Ascii.

#[local] Open Scope string_scope.
#[local] Open Scope list_scope.
#[local] Open Scope Z_scope.

Import Money (CurrencyCode, amount, currency, Money, mkMoney, SUPPORTED_CURRENCIES).
Import Ledger LedgerDb.

Section Ledger.
Context {Ids : UuidSource}.

(** ** Schedules *)
Inductive command : Type :=
  | CAccountFor (spec : LedgerAccountSpec)
  | CPost (d : LedgerTransactionDraft)
  | CReverse (transactionId key : string) (at_ : instant)
  | CClock (t : instant).

Definition command_op (rival : Db -> Db) (c : command) (db : Db) : Db :=
  match c with
  | CAccountFor spec => fst (LedgerService.accountFor rival spec db)
  | CPost d => fst (LedgerService.post rival d db)
  | CReverse i k t => fst (LedgerService.reverse rival i k t db)
  | CClock t => mkDb (accounts db) (transactions db) (seq db) t
  end.

(** The calls a racing connection committed, in the order they committed. *)
Definition run (cs : list command) (db : Db) : Db :=
  fold_left (fun db c => command_op id c db) cs db.

(** One call, and what its rivals commit between its read and its write. *)
Definition schedule : Type := list (command * list command).
Definition run_schedule (s : schedule) (db : Db) : Db :=
  fold_left (fun db c => command_op (run c.2) c.1 db) s db.

Definition all_entries (db : Db) : list LedgerEntryDraft :=
  transactions db ≫= fun t => entries (posted t).

Lemma reverse_spec (rival : Db -> Db) (i k : string) (t : instant) (db db' : Db)
    (r : result PostedLedgerTransaction) :
  good_rival rival -> wf db -> LedgerService.reverse rival i k t db = (db', r) ->
  wf db' /\ extends db db' /\
  match r with
  | Ok p => exists o, by_id i db = Some o /\
      LedgerService.assertSameTransaction (reversalOf o k t) p = Ok tt /\
      by_key k db' = Some p
  | Err _ => True
  end.
Proof.
  intros Hgood Hwf. unfold LedgerService.reverse, findById. unfold_M.
  destruct (by_id i db) as [o|]; [|intros [= <- <-]; split_and!; [done|reflexivity|done]].
  intros H. destruct (post_spec _ _ _ _ _ Hgood Hwf H) as (Hwf' & Hext & Hr).
  split_and!; [done..|]. destruct r as [p|]; [|done]. exists o. tauto.
Qed.

Lemma command_wf (rival : Db -> Db) (c : command) (db : Db) :
  good_rival rival -> wf db ->
  wf (command_op rival c db) /\ extends db (command_op rival c db).
Proof.
  intros Hgood Hwf. destruct c as [spec|d|i k t|t]; cbn [command_op].
  - destruct (LedgerService.accountFor rival spec db) as [db' r] eqn:H.
    destruct (accountFor_spec _ _ _ _ _ Hgood Hwf H) as (? & ? & _). done.
  - destruct (LedgerService.post rival d db) as [db' r] eqn:H.
    destruct (post_spec _ _ _ _ _ Hgood Hwf H) as (? & ? & _). done.
  - destruct (LedgerService.reverse rival i k t db) as [db' r] eqn:H.
    destruct (reverse_spec _ _ _ _ _ _ _ Hgood Hwf H) as (? & ? & _). done.
  - split; [|by split]. destruct Hwf. by split.
Qed.

Lemma run_good (cs : list command) : good_rival (run cs).
Proof.
  unfold run. induction cs as [|c cs IH]; intros db Hwf; [split; [done|reflexivity]|].
  cbn [fold_left].
  destruct (command_wf _ c db good_rival_id Hwf) as [Hwf1 Hext1].
  destruct (IH _ Hwf1) as [Hwf2 Hext2]. split; [done|by etrans].
Qed.

Lemma run_schedule_good (s : schedule) : good_rival (run_schedule s).
Proof.
  unfold run_schedule. induction s as [|[c rs] s IH]; intros db Hwf; [split; [done|reflexivity]|].
  cbn [fold_left].
  destruct (command_wf _ c db (run_good rs) Hwf) as [Hwf1 Hext1].
  destruct (IH _ Hwf1) as [Hwf2 Hext2]. split; [done|by etrans].
Qed.

(** ** The trial balance *)
Lemma imbalance_app (es fs : list LedgerEntryDraft) :
  imbalance (es ++ fs) = imbalance es + imbalance fs.
Proof.
  unfold imbalance. rewrite fmap_app. unfold Money.zsum.
  induction (debit_value <$> es) as [|z l IH]; cbn [app foldr]; lia.
Qed.

Lemma wf_imbalance (db : Db) : wf db -> imbalance (all_entries db) = 0.
Proof.
  intros [_ _ _ _ _ _ _ _ H]. unfold all_entries.
  induction H as [|x ts (_ & _ & Hb) _ IH]; [done|].
  cbn [mbind list_bind]. rewrite imbalance_app, IH, imbalance_sides.
  unfold side_total in Hb. lia.
Qed.

(** C4. After any schedule of racing ledger calls, the books balance: all entries together
    sum to zero, and every posted transaction has at least two entries, balances by itself,
    and posts positive amounts to accounts that exist in its currency. *)
Theorem trial_balance (s : schedule) (t : instant) :
  let db := run_schedule s (empty_db t) in
  imbalance (all_entries db) = 0 /\
  Forall (fun p => (2 <= length (entries (posted p)))%nat /\
                   imbalance (entries (posted p)) = 0 /\
                   Forall (fun e => 0 < amount (entry_amount e) /\
                                    account_exists db (accountId e) (draft_currency (posted p)) = true)
                     (entries (posted p)))
    (transactions db).
Proof.
  cbn. destruct (run_schedule_good s _ (wf_empty t)) as [Hwf _].
  split; [by apply wf_imbalance|].
  eapply Forall_impl; [apply (wf_transactions _ Hwf)|]. intros p (H2 & He & Hb).
  split_and!; [done|rewrite imbalance_sides; unfold side_total in Hb; lia|].
  eapply Forall_impl; [exact He|]. cbn. tauto.
Qed.

(** No schedule of racing ledger calls changes or removes an account or a transaction: what
    was written stays a prefix of what is there. *)
Theorem ledger_append_only (s1 s2 : schedule) (t : instant) :
  let db := run_schedule s1 (empty_db t) in
  extends db (run_schedule s2 db).
Proof.
  cbn. destruct (run_schedule_good s1 _ (wf_empty t)) as [Hwf _].
  by destruct (run_schedule_good s2 _ Hwf).
Qed.

(** ** Posting *)
Lemma filter_unique {K} `{!EqDecision K} {A} (f : A -> K) (l : list A) (x : A) :
  NoDup (f <$> l) -> x ∈ l -> filter (fun y => f y = f x) l = [x].
Proof.
  induction l as [|y l IH]; [by intros _ ?%not_elem_of_nil|].
  cbn [fmap list_fmap]. rewrite NoDup_cons, elem_of_cons. intros [Hy Hl] [->|Hx].
  - rewrite filter_cons_True by done. f_equal.
    assert (forall l', f y ∉ f <$> l' -> filter (fun z => f z = f y) l' = []) as Hnil.
    { clear. induction l' as [|z l' IH]; [done|]. cbn [fmap list_fmap].
      rewrite not_elem_of_cons. intros [Hz Hl]. rewrite filter_cons_False by congruence. auto. }
    by apply Hnil.
  - rewrite filter_cons_False; [by apply IH|].
    intros Hf. apply Hy. rewrite Hf. by apply list_elem_of_fmap_2.
Qed.

Definition with_key (k : string) (db : Db) : list PostedLedgerTransaction :=
  filter (fun p => key_of p = k) (transactions db).

Lemma with_key_unique (db : Db) (k : string) (p : PostedLedgerTransaction) :
  wf db -> by_key k db = Some p -> with_key k db = [p].
Proof.
  intros Hwf Hk. apply find_by_Some in Hk as [Hin <-].
  apply (filter_unique key_of); [apply wf_keys, Hwf|done].
Qed.

Lemma post_again (rival : Db -> Db) (d : LedgerTransactionDraft) (db : Db)
    (p : PostedLedgerTransaction) :
  by_key (idempotencyKey d) db = Some p -> assertPostable d = Ok tt ->
  LedgerService.assertSameTransaction d p = Ok tt ->
  LedgerService.post rival d db = (db, Ok p).
Proof.
  intros Hk Hp Hs. unfold LedgerService.post, LedgerDb.post, findByIdempotencyKey. unfold_M.
  by rewrite Hp, Hk, Hs.
Qed.

(** C22. A posting that once returned is returned again by every later identical call,
    whoever races it, without writing anything, and it is the only transaction under its
    key. *)
Theorem post_exactly_once (rival rival' : Db -> Db) (d : LedgerTransactionDraft)
    (db db1 db2 : Db) (p : PostedLedgerTransaction) :
  good_rival rival -> wf db -> LedgerService.post rival d db = (db1, Ok p) ->
  wf db2 -> extends db1 db2 ->
  LedgerService.post rival' d db2 = (db2, Ok p) /\
  with_key (idempotencyKey d) db2 = [p].
Proof.
  intros Hgood Hwf Hpost Hwf2 Hext.
  destruct (post_spec _ _ _ _ _ Hgood Hwf Hpost) as (_ & _ & Hd & Hs & Hk).
  assert (by_key (idempotencyKey d) db2 = Some p) as Hk2 by by eapply by_key_mono.
  split; [by apply post_again|by apply with_key_unique].
Qed.

Lemma assertSameTransaction_ok (d : LedgerTransactionDraft) (p : PostedLedgerTransaction) :
  LedgerService.assertSameTransaction d p = Ok tt <->
  draft_kind d = draft_kind (posted p) /\ draft_currency d = draft_currency (posted p) /\
  bookingId d = bookingId (posted p) /\
  reversesTransactionId d = reversesTransactionId (posted p) /\
  LedgerService.fingerprintOf (entries d) = LedgerService.fingerprintOf (entries (posted p)).
Proof.
  unfold LedgerService.assertSameTransaction, throw_if.
  repeat case_bool_decide; cbn; intuition congruence.
Qed.

(** What makes two postings the same one. *)
Definition same_posting (d : LedgerTransactionDraft) (p : PostedLedgerTransaction) : Prop :=
  draft_kind d = draft_kind (posted p) /\ draft_currency d = draft_currency (posted p) /\
  bookingId d = bookingId (posted p) /\
  reversesTransactionId d = reversesTransactionId (posted p) /\
  entries d ≡ₚ entries (posted p).

Lemma assertSame_iff (d : LedgerTransactionDraft) (p : PostedLedgerTransaction) :
  Forall plain_entry (entries d) -> Forall plain_entry (entries (posted p)) ->
  LedgerService.assertSameTransaction d p = Ok tt <-> same_posting d p.
Proof.
  intros Hd Hp. rewrite assertSameTransaction_ok. unfold same_posting.
  assert (LedgerService.fingerprintOf (entries d) = LedgerService.fingerprintOf (entries (posted p))
          <-> entries d ≡ₚ entries (posted p)) as Hf.
  { split; [by apply fingerprint_inj|apply fingerprint_perm]. }
  tauto.
Qed.

Lemma plain_supported (c : CurrencyCode) : c ∈ SUPPORTED_CURRENCIES -> plain c.
Proof.
  unfold plain, SUPPORTED_CURRENCIES. intros Hc.
  repeat (apply elem_of_cons in Hc as [->|Hc]; [repeat constructor; discriminate|]).
  by apply not_elem_of_nil in Hc.
Qed.

Lemma account_plain (db : Db) (a : string) (c : CurrencyCode) :
  wf db -> account_exists db a c = true -> plain a.
Proof.
  intros Hwf Ha. apply existsb_exists in Ha as (row & Hin & Hr).
  apply bool_decide_eq_true in Hr as [<- _]. apply list_elem_of_In in Hin.
  pose proof (wf_account_issued _ Hwf) as Hi. rewrite Forall_forall in Hi.
  destruct (Hi row Hin) as (i & _ & ->). apply uuid_plain.
Qed.

Lemma stored_plain (db : Db) (p : PostedLedgerTransaction) :
  wf db -> p ∈ transactions db -> draft_currency (posted p) ∈ SUPPORTED_CURRENCIES ->
  Forall plain_entry (entries (posted p)).
Proof.
  intros Hwf Hin Hc. pose proof (wf_transactions _ Hwf) as Ht. rewrite Forall_forall in Ht.
  destruct (Ht p Hin) as (_ & He & _). eapply Forall_impl; [exact He|].
  cbn. intros e (Hcur & _ & Hacc). split; [by eapply account_plain|].
  rewrite Hcur. by apply plain_supported.
Qed.

(** A key that is already used writes nothing: the posting is returned exactly when the
    draft passes the rules and is the same posting (kind, currency, booking, reversal and
    entries up to order), and otherwise the reuse is refused. The text fingerprint tells
    entries apart. *)
Theorem key_reuse (rival : Db -> Db) (d : LedgerTransactionDraft) (db : Db)
    (p : PostedLedgerTransaction) :
  wf db -> by_key (idempotencyKey d) db = Some p ->
  draft_currency (posted p) ∈ SUPPORTED_CURRENCIES -> Forall plain_entry (entries d) ->
  fst (LedgerService.post rival d db) = db /\
  (snd (LedgerService.post rival d db) = Ok p <->
     assertPostable d = Ok tt /\ same_posting d p) /\
  (assertPostable d = Ok tt -> ~ same_posting d p ->
     snd (LedgerService.post rival d db) =
       Err (LedgerError "idempotency key has already been used for a different transaction")).
Proof.
  intros Hwf Hk Hc Hd.
  assert (p ∈ transactions db) as Hin by by apply find_by_Some in Hk as [? _].
  pose proof (stored_plain _ _ Hwf Hin Hc) as Hp.
  pose proof (assertSame_iff d p Hd Hp) as Hiff.
  unfold LedgerService.post, LedgerDb.post, findByIdempotencyKey. unfold_M.
  destruct (assertPostable d) as [[]|e]; cbn.
  - rewrite Hk. destruct (LedgerService.assertSameTransaction d p) as [[]|e] eqn:Hs; cbn.
    + split_and!; [done|tauto|tauto].
    + split_and!; [done|intuition congruence|].
      unfold LedgerService.assertSameTransaction, throw_if in Hs.
      intros _ _. revert Hs. match goal with |- context[if ?b then _ else _] => destruct b end;
        [by intros [= <-]|done].
  - split_and!; [done|intuition congruence|intuition congruence].
Qed.

(** What the database accepts in one insert, beyond the rules themselves. *)
Definition storable (d : LedgerTransactionDraft) (db : Db) : Prop :=
  by_key (idempotencyKey d) db = None /\ btrim_empty (idempotencyKey d) = false /\
  (forall r, reversesTransactionId d = Some r -> is_Some (by_id r db) /\ by_reversed r db = None) /\
  Forall (fun e => fits_int4 (amount (entry_amount e)) = true /\
                   account_exists db (accountId e) (draft_currency d) = true) (entries d).

Lemma refusal_complete (d : LedgerTransactionDraft) (db : Db) :
  postable d -> storable d db -> refusal d db = None.
Proof.
  intros [H2 _ He Hb] (Hk & Ht & Hr & Hs). unfold refusal.
  rewrite Hk, bool_decide_eq_false_2 by (by intros []). rewrite Ht.
  replace (match reversesTransactionId d with Some r => negb _ | None => false end) with false;
    [|destruct (reversesTransactionId d) as [r|]; [|done];
      destruct (Hr r eq_refl) as [? _]; by rewrite bool_decide_eq_true_2].
  replace (match reversesTransactionId d with Some r => bool_decide _ | None => false end) with false;
    [|destruct (reversesTransactionId d) as [r|]; [|done];
      destruct (Hr r eq_refl) as [_ ->]; by rewrite bool_decide_eq_false_2 by (by intros [])].
  rewrite !existsb_none.
  - destruct (Nat.ltb_spec (length (entries d)) 2); [lia|].
    unfold side_total. by rewrite Hb, Z.eqb_refl.
  - eapply Forall_impl; [exact Hs|]. cbn. by intros e [_ ->].
  - eapply Forall_impl; [exact Hs|]. cbn. by intros e [-> _].
  - eapply Forall_impl; [exact He|]. cbn. intros e [_ ?]. lia.
Qed.

(** A draft that passes the rules and that the database can store is appended exactly as
    drafted, and returned. *)
Theorem post_records (d : LedgerTransactionDraft) (db : Db) :
  assertPostable d = Ok tt -> storable d db ->
  LedgerService.post id d db =
    (let p := mkPosted (uuid (seq db)) (clock db) d in
     (mkDb (accounts db) (transactions db ++ [p]) (S (seq db)) (clock db), Ok p)).
Proof.
  intros Hp Hs. pose proof (assertPostable_sound d Hp) as Hd.
  pose proof (refusal_complete d db Hd Hs) as Href.
  assert (stored_entries d = entries d) as Hse.
  { apply stored_entries_same. eapply Forall_impl; [apply (postable_entries _ Hd)|].
    cbn. by intros e [-> _]. }
  destruct Hs as (Hk & _).
  unfold LedgerService.post, LedgerDb.post, findByIdempotencyKey, insert_transaction.
  unfold_M. rewrite Hp, Hk. cbn. rewrite Href, Hse.
  assert (LedgerService.assertSameTransaction d (mkPosted (uuid (seq db)) (clock db) d) = Ok tt)
    as Hsame by by apply assertSameTransaction_ok.
  destruct d as [k dk c b o es r]. cbn in *. by rewrite Hsame.
Qed.

(** ** Reversing *)
Lemma reversal_plain (p : PostedLedgerTransaction) (k : string) (t : instant) :
  Forall plain_entry (entries (posted p)) -> Forall plain_entry (entries (reversalOf p k t)).
Proof.
  intros H. cbn [reversalOf entries]. rewrite Forall_fmap.
  eapply Forall_impl; [exact H|]. by intros e.
Qed.

Lemma net_perm (a : string) (es fs : list LedgerEntryDraft) :
  es ≡ₚ fs -> net a es = net a fs.
Proof. induction 1; rewrite ?net_cons; lia. Qed.

Lemma reversal_unique (db : Db) (p q : PostedLedgerTransaction) (i : string) :
  wf db -> p ∈ transactions db -> q ∈ transactions db ->
  reverses_of p = Some i -> reverses_of q = Some i -> p = q.
Proof.
  intros Hwf. pose proof (wf_reversed _ Hwf) as Hnd. revert Hnd. generalize (transactions db).
  intros l. induction l as [|x l IH]; [by intros _ ?%not_elem_of_nil|].
  intros Hnd Hp Hq Hpi Hqi.
  assert (forall y, y ∈ l -> reverses_of y = Some i -> reverses_of x = Some i -> False) as Hx.
  { intros y Hy Hyi Hxi. cbn in Hnd. rewrite Hxi in Hnd.
    apply NoDup_cons in Hnd as [Hn _]. apply Hn, list_elem_of_omap. eauto. }
  assert (NoDup (omap reverses_of l)) as Hl.
  { cbn in Hnd. destruct (reverses_of x); [by apply NoDup_cons in Hnd as [_ ?]|done]. }
  apply elem_of_cons in Hp as [->|Hp], Hq as [->|Hq]; [done| | |by apply IH].
  - exfalso. by eapply Hx.
  - exfalso. by eapply Hx.
Qed.

(** A reversal that returns names an original whose movements it undoes on every account,
    and no other transaction reverses that original. *)
Theorem reverse_undoes (rival : Db -> Db) (i k : string) (t : instant) (db db' : Db)
    (p : PostedLedgerTransaction) :
  good_rival rival -> wf db -> LedgerService.reverse rival i k t db = (db', Ok p) ->
  Forall (fun q => draft_currency (posted q) ∈ SUPPORTED_CURRENCIES) (transactions db') ->
  exists o, by_id i db = Some o /\ reverses_of p = Some (posted_id o) /\
    (forall a, net a (entries (posted o)) + net a (entries (posted p)) = 0) /\
    (forall q, q ∈ transactions db' -> reverses_of q = Some (posted_id o) -> q = p).
Proof.
  intros Hgood Hwf Hr Hcur.
  destruct (reverse_spec _ _ _ _ _ _ _ Hgood Hwf Hr) as (Hwf' & [_ Hext] & o & Ho & Hs & Hk).
  assert (o ∈ transactions db) as Hoin by by apply find_by_Some in Ho as [? _].
  assert (p ∈ transactions db') as Hpin by by apply find_by_Some in Hk as [? _].
  assert (o ∈ transactions db') as Hoin'.
  { destruct Hext as [l ->]. apply elem_of_app. by left. }
  rewrite Forall_forall in Hcur.
  apply assertSame_iff in Hs as (_ & _ & _ & Hrev & Hperm);
    [|by apply reversal_plain, (stored_plain db'); auto|by apply (stored_plain db'); auto].
  cbn in Hrev. exists o. split_and!; [done|done| |].
  - intros a. rewrite <- (net_perm a _ _ Hperm), reversal_net. lia.
  - intros q Hq Hqr. by apply (reversal_unique db' q p (posted_id o)).
Qed.

Lemma by_id_self (db : Db) (o : PostedLedgerTransaction) (i : string) :
  by_id i db = Some o -> posted_id o = i.
Proof. by intros [_ ?]%find_by_Some. Qed.

Lemma reversed_is_refused (i k : string) (t : instant) (db : Db)
    (o p : PostedLedgerTransaction) :
  by_id i db = Some o -> by_reversed i db = Some p -> by_key k db = None ->
  assertPostable (reversalOf o k t) = Ok tt ->
  LedgerService.reverse id i k t db = (db, Err (LedgerError "has already been reversed")).
Proof.
  intros Ho Hp Hk Hpost.
  pose proof (by_id_self _ _ _ Ho) as Hoi.
  assert (exists c, refusal (reversalOf o k t) db = Some c) as [c Hc].
  { unfold refusal. cbn [reversalOf idempotencyKey reversesTransactionId]. rewrite Hk, Hoi.
    cbn. destruct (btrim_empty k); [eauto|].
    rewrite Ho, Hp. cbn. eauto. }
  unfold LedgerService.reverse, findById, LedgerService.post, LedgerDb.post,
    findByIdempotencyKey, insert_transaction. unfold_M. rewrite Ho, Hpost.
  cbn [idempotencyKey reversalOf]. rewrite Hk. unfold id at 1 2. cbn [id].
  rewrite Hc, Hk. cbn [reversesTransactionId reversalOf]. by rewrite Hoi, Hp.
Qed.

Lemma trim_blank (s : string) : trim s <> "" -> btrim_empty s = false.
Proof.
  unfold btrim_empty, trim, trim_chars. intros Hne. apply not_true_is_false. intros Hall. apply Hne.
  assert (drop_while is_space (chars s) = []) as ->; [|done].
  clear Hne. induction (chars s) as [|c l IH]; [done|]. cbn in *.
  apply andb_true_iff in Hall as [Hc Hall]. apply Z.eqb_eq in Hc. unfold is_space.
  rewrite Hc. cbn. by apply IH.
Qed.

(** What the accounts and the columns ask of a reversal, they asked of the original. *)
Lemma reversal_storable (i k : string) (t : instant) (db : Db) (o : PostedLedgerTransaction) :
  wf db -> by_id i db = Some o -> by_reversed i db = None -> by_key k db = None -> trim k <> "" ->
  Forall (fun e => fits_int4 (amount (entry_amount e)) = true) (entries (posted o)) ->
  storable (reversalOf o k t) db.
Proof.
  intros Hwf Ho Hr Hk Ht Hint. pose proof (by_id_self _ _ _ Ho) as Hoi.
  apply find_by_Some in Ho as [Hin _]. pose proof (wf_transactions _ Hwf) as Htx.
  rewrite Forall_forall in Htx. destruct (Htx o Hin) as (_ & He & _).
  split_and!; [done|by apply trim_blank| |].
  - intros r [= <-]. rewrite Hoi in *. split; [|done].
    exists o. rewrite <- Hoi. apply find_by_unique; [apply (wf_ids _ Hwf)|done].
  - cbn [reversalOf entries draft_currency]. rewrite Forall_fmap.
    eapply Forall_impl; [exact (proj2 (Forall_and _ _) (conj Hint He))|]. by intros e (? & _ & _ & ?).
Qed.

(** A stored transaction that is not yet reversed can be reversed under a fresh key: exactly
    its reversal is appended, and every later reversal of it under another key is refused
    and writes nothing. *)
Theorem reverse_once (i k : string) (t : instant) (db : Db) (o : PostedLedgerTransaction) :
  wf db -> by_id i db = Some o -> by_reversed i db = None -> by_key k db = None -> trim k <> "" ->
  fits (posted o) ->
  Forall (fun e => fits_int4 (amount (entry_amount e)) = true) (entries (posted o)) ->
  exists p db', LedgerService.reverse id i k t db = (db', Ok p) /\
    posted p = reversalOf o k t /\ transactions db' = transactions db ++ [p] /\
    forall k' t', by_key k' db' = None -> trim k' <> "" ->
      LedgerService.reverse id i k' t' db' = (db', Err (LedgerError "has already been reversed")).
Proof.
  intros Hwf Ho Hr Hk Ht [Hfd Hfc] Hint. pose proof (by_id_self _ _ _ Ho) as Hoi.
  assert (forall k' t', trim k' <> "" -> assertPostable (reversalOf o k' t') = Ok tt) as Hpost.
  { intros k' t' Hk'. apply assertPostable_complete.
    - apply find_by_Some in Ho as [Hin _]. pose proof (wf_transactions _ Hwf) as Htx.
      rewrite Forall_forall in Htx. destruct (Htx o Hin) as (H2 & He & Hb).
      apply reversal_postable; [done..| |done]. eapply Forall_impl; [exact He|]. by intros e (? & ? & _).
    - split; by rewrite reversal_on_side. }
  pose proof (reversal_storable i k t db o Hwf Ho Hr Hk Ht Hint) as Hs.
  pose proof (post_records _ db (Hpost k t Ht) Hs) as Hp. cbv zeta in Hp.
  eexists _, _. split; [unfold LedgerService.reverse, findById; unfold_M; rewrite Ho; exact Hp|].
  split_and!; [done|done|]. intros k' t' Hk' Ht'.
  eapply reversed_is_refused; [| |done|by apply Hpost].
  - unfold by_id in *. cbn [transactions]. by rewrite find_by_app, Ho.
  - unfold by_reversed in *. cbn [transactions].
    rewrite find_by_app, Hr. cbn. rewrite Hoi. by rewrite bool_decide_eq_true_2.
Qed.

(** ** Balances *)
(** The database's balance of an account, two aggregates in SQL, is the one the pure ledger
    rules compute from its entries. *)
Theorem balance_refines (account : string) (row : LedgerAccountRecord) (db : Db) (m : Money) :
  by_account_id account db = Some row ->
  Ledger.balanceOf (acc_kind row) (acc_currency row) (entries_of account db) = Ok m ->
  LedgerDb.balanceOf account db = (db, Ok m).
Proof.
  intros Ha. unfold LedgerDb.balanceOf, Ledger.balanceOf. rewrite Ha. unfold_result.
  destruct (Money.sum (on_side (normalSideOf _) _) _) as [inc|] eqn:Hi; [|done].
  destruct (Money.sum (on_side (oppositeOf _) _) _) as [dec|] eqn:Hd; [|done].
  apply Money.sum_ok in Hi as ->, Hd as ->. intros Hs.
  unfold Money.subtract in Hs. cbn in Hs. unfold_result.
  destruct (Money.assertSameCurrency _ _) as [[]|]; [|done].
  unfold side_total. by rewrite Hs.
Qed.

Lemma kind_name_inj (a b : LedgerAccountKind) : kind_name a = kind_name b -> a = b.
Proof. by destruct a, b. Qed.

(** One account per kind, owner and currency: the identity is injective. *)
Lemma identity_inj (s1 s2 : LedgerAccountSpec) (i : string) :
  ":"%char ∉ chars (spec_currency s1) -> ":"%char ∉ chars (spec_currency s2) ->
  accountIdentityOf s1 = Ok i -> accountIdentityOf s2 = Ok i -> s1 = s2.
Proof.
  intros H1 H2. destruct s1 as [k1 c1 o1], s2 as [k2 c2 o2]. unfold accountIdentityOf. cbn in *.
  assert (forall k, ":"%char ∉ chars (kind_name k)) as Hk.
  { intros []; cbn; rewrite !not_elem_of_cons; split_and!; try done; apply not_elem_of_nil. }
  assert (forall k k' c c', chars (kind_name k) ++ ":"%char :: c = chars (kind_name k') ++ ":"%char :: c' ->
            k = k' /\ c = c') as Hsplit.
  { intros k k' c c' E. apply app_sep_inj_l in E as [E ->]; [|done..].
    apply chars_inj, kind_name_inj in E. done. }
  destruct (holderOf k1) eqn:Hh1, (holderOf k2) eqn:Hh2, o1 as [o1|], o2 as [o2|];
    repeat case_bool_decide; intros E1 E2; try discriminate; injection E1 as <-;
    injection E2 as E; apply (f_equal chars) in E; rewrite !chars_append in E;
    cbn [chars app] in E; apply Hsplit in E as [<- E]; try congruence.
  - by apply chars_inj in E as <-.
  - apply app_sep_inj_r in E as [Eo Ec]; [|done..].
    by apply chars_inj in Eo as <-, Ec as <-.
Qed.

Lemma supported_no_colon (c : CurrencyCode) : c ∈ SUPPORTED_CURRENCIES -> ":"%char ∉ chars c.
Proof.
  unfold SUPPORTED_CURRENCIES. intros Hc Hx.
  repeat (apply elem_of_cons in Hc as [->|Hc];
    [cbn in Hx; repeat (apply elem_of_cons in Hx as [Hx|Hx]; [done|]);
     by apply not_elem_of_nil in Hx|]).
  by apply not_elem_of_nil in Hc.
Qed.

Lemma identity_not_blank (spec : LedgerAccountSpec) (i : string) :
  accountIdentityOf spec = Ok i -> btrim_empty i = false.
Proof.
  unfold accountIdentityOf. destruct spec as [[] c o]; cbn; destruct o as [o|];
    repeat case_bool_decide; intros [= <-]; done.
Qed.

(** An account that is asked for is found or created, whoever races. *)
Lemma accountFor_returns (rival : Db -> Db) (spec : LedgerAccountSpec) (db : Db) (i : string) :
  accountIdentityOf spec = Ok i ->
  exists db' a, LedgerService.accountFor rival spec db = (db', Ok a) /\
    (a ∈ accounts db \/ a ∈ accounts (rival db) \/ acc_currency a = spec_currency spec).
Proof.
  intros Hi. unfold LedgerService.accountFor, LedgerDb.accountFor, insert_account. unfold_M.
  rewrite Hi, (identity_not_blank spec i Hi).
  destruct (by_identity i db) as [a|] eqn:Hf.
  { exists db, a. split; [done|]. left. by apply find_by_Some in Hf as [? _]. }
  destruct (by_identity i (rival db)) as [a|] eqn:Hr.
  - rewrite bool_decide_eq_true_2 by done. rewrite Hr. eexists _, a. split; [done|].
    right. left. by apply find_by_Some in Hr as [? _].
  - rewrite bool_decide_eq_false_2 by by intros []. eexists _, _. split; [done|]. by do 2 right.
Qed.

(** Asking for an account with a proper owner always returns it, found or created, whoever
    races: it has the kind, currency and owner asked for, and asking again returns the same
    one and writes nothing. *)
Theorem accountFor_names_one_account (rival rival' : Db -> Db) (spec : LedgerAccountSpec)
    (db : Db) (i : string) :
  good_rival rival -> wf db -> accountIdentityOf spec = Ok i ->
  spec_currency spec ∈ SUPPORTED_CURRENCIES ->
  Forall (fun x => acc_currency x ∈ SUPPORTED_CURRENCIES) (accounts (rival db)) ->
  exists db' a, LedgerService.accountFor rival spec db = (db', Ok a) /\ wf db' /\
    a ∈ accounts db' /\ acc_kind a = spec_kind spec /\ acc_currency a = spec_currency spec /\
    acc_ownerId a = spec_ownerId spec /\
    LedgerService.accountFor rival' spec db' = (db', Ok a).
Proof.
  intros Hgood Hwf Hi Hs Hall. rewrite Forall_forall in Hall.
  destruct (accountFor_returns rival spec db i Hi) as (db' & a & H & Hfrom).
  assert (acc_currency a ∈ SUPPORTED_CURRENCIES) as Ha.
  { destruct (Hgood db Hwf) as [_ [[l Hl] _]]. destruct Hfrom as [Hin|[Hin| ->]]; [|auto|done].
    apply Hall. rewrite Hl. apply elem_of_app. by left. }
  destruct (accountFor_spec _ _ _ _ _ Hgood Hwf H) as (Hwf' & _ & i' & Hi' & Hfound).
  assert (i' = i) as -> by congruence.
  pose proof (find_by_Some _ _ _ _ Hfound) as [Hin Hid].
  pose proof (wf_account_spec _ Hwf') as Hspec. rewrite Forall_forall in Hspec.
  specialize (Hspec a Hin). rewrite Hid in Hspec.
  assert (spec = mkSpec (acc_kind a) (acc_currency a) (acc_ownerId a)) as Heq.
  { apply (identity_inj _ _ i); [by apply supported_no_colon..|done|done]. }
  exists db', a. split_and!; try done; try (by rewrite Heq).
  unfold LedgerService.accountFor, LedgerDb.accountFor. unfold_M.
  by rewrite Hi, Hfound.
Qed.

End Ledger.
