(* ===== verification/Pricing.v ===== *)
(** * Pricing ([apps/api/src/pricing/], the policies of
    [packages/contracts/src/pricing.ts] and the units of [quotes.ts])

    The renter's fee and its floor, the inclusive daily price, the cheapest
    combination of an owner's rates, the minimum booking total and the applied
    damage excess.  Percentages go through binary64 as the code computes them. *)

From S2P Require Import Prelude JsNumber Text Money.

#[local] Open Scope string_scope.
#[local] Open Scope list_scope.
#[local] Open Scope Z_scope.

Module Pricing.
Import Money.

(** ** Policies and rates *)
Definition MAX_FEE_BASIS_POINTS : Z := 5000.
Definition MAX_EXCESS_PERCENTAGE_BASIS_POINTS : Z := 10000.
Definition MAX_RENTAL_RATE_MINOR_UNITS : Z := 1000000.

Record CategoryFeePolicy : Type := mkPolicy {
  ownerCommissionBasisPoints : Z;
  renterFeeBasisPoints : Z;
  minimumBookingTotal : Money;
  minimumPlatformFee : Money }.

Definition basisPointsToPercent (basisPoints : Z) : Js.number :=
  Js.div (Js.of_Z basisPoints) (Js.of_Z 100).

Record ListingRateCard : Type := mkRates {
  daily : option Money;
  weekend : option Money;
  weekly : option Money }.

Inductive RentalUnit : Type := day | weekend_unit | week.

Definition RENTAL_UNIT_DAYS (u : RentalUnit) : Z :=
  match u with day => 1 | weekend_unit => 3 | week => 7 end.

Definition WEEKEND_START_WEEKDAY : Z := 5.

Definition money_again (m : Money) : result Money := money (amount m) (currency m).

(** ** The renter's fee *)
Record RenterFee : Type := mkFee { fee : Money; minimumFeeApplied : bool }.

Definition renterFeeOn (charge : Money) (policy : CategoryFeePolicy) : result RenterFee :=
  percentageFee ← percentageOf charge (basisPointsToPercent (renterFeeBasisPoints policy)) half_up;
  floor ← money_again (minimumPlatformFee policy);
  minimumFeeApplied ← lessThan percentageFee floor;
  Ok (mkFee (if minimumFeeApplied : bool then floor else percentageFee) minimumFeeApplied).

(** ** The headline price *)
Record InclusiveDailyPrice : Type := mkDaily {
  rate : Money;
  daily_fee : Money;
  daily_total : Money;
  daily_minimumFeeApplied : bool }.

Definition inclusiveDailyPrice (rates : ListingRateCard) (policy : CategoryFeePolicy)
  : result (option InclusiveDailyPrice) :=
  match daily rates with
  | None => Ok None
  | Some d =>
      r ← money_again d;
      f ← renterFeeOn r policy;
      t ← add r (fee f);
      Ok (Some (mkDaily r (fee f) t (minimumFeeApplied f)))
  end.

(** ** The cheapest combination *)
Definition UNITS_LARGEST_FIRST : list RentalUnit := [week; weekend_unit; day].

Record Counts : Type := mkCounts { n_day : Z; n_weekend : Z; n_week : Z }.
Definition count (u : RentalUnit) (c : Counts) : Z :=
  match u with day => n_day c | weekend_unit => n_weekend c | week => n_week c end.

Record Combination : Type := mkCombination { counts : Counts; cost : Money }.

Record AvailableRates : Type := mkAvailable {
  day_rate : Money;
  weekend_rate : option Money;
  week_rate : option Money }.

Definition toAvailableRates (rates : ListingRateCard) (startsOnWeekday : Z)
  : result AvailableRates :=
  match daily rates with
  | None => Err (ForeignError "a rate card with no daily rate cannot be priced")
  | Some d =>
      d' ← money_again d;
      we ← match weekend rates with
           | Some w => if startsOnWeekday =? WEEKEND_START_WEEKDAY
                       then (m ← money_again w; Ok (Some m)) else Ok None
           | None => Ok None
           end;
      wk ← match weekly rates with
           | None => Ok None
           | Some w => m ← money_again w; Ok (Some m)
           end;
      Ok (mkAvailable d' we wk)
  end.

Definition rateFor (u : RentalUnit) (rates : AvailableRates) : result Money :=
  match u with
  | day => Ok (day_rate rates)
  | _ =>
      match (match u with week => week_rate rates | _ => weekend_rate rates end) with
      | None => Err (ForeignError "no rate was set")
      | Some r => Ok r
      end
  end.

Definition units_used (c : Counts) : list RentalUnit :=
  filter (fun u => 0 < count u c) UNITS_LARGEST_FIRST.

Definition priced_unit (c : Counts) (rates : AvailableRates) (u : RentalUnit) : result Money :=
  r ← rateFor u rates; multiply r (Js.of_Z (count u c)) half_up.

Definition costOf (c : Counts) (rates : AvailableRates) : result Money :=
  parts ← try_map (priced_unit c rates) (units_used c);
  sum parts (currency (day_rate rates)).

(** [for (let i = n; i >= 0; i -= 1)] *)
Definition downFrom (n : Z) : list Z :=
  reverse (Z.of_nat <$> seq 0 (Z.to_nat (n + 1))).

Definition consider (rates : AvailableRates) (best : option Combination) (c : Counts)
  : result (option Combination) :=
  cost' ← costOf c rates;
  match best with
  | None => Ok (Some (mkCombination c cost'))
  | Some b =>
      cheaper ← lessThan cost' (cost b);
      Ok (Some (if cheaper : bool then mkCombination c cost' else b))
  end.

Definition countsFor (days weekends weeks : Z) : Counts :=
  let afterWeekends := Z.max 0 (days - weekends * RENTAL_UNIT_DAYS weekend_unit) in
  mkCounts (Z.max 0 (afterWeekends - weeks * RENTAL_UNIT_DAYS week)) weekends weeks.

(** [None] when [Math.ceil] gives NaN or an infinity. *)
Definition weekLimitFor (days weekends : Z) (rates : AvailableRates) : option Z :=
  match week_rate rates with
  | None => Some 0
  | Some _ =>
      Js.ceil (Js.div (Js.of_Z (Z.max 0 (days - weekends * RENTAL_UNIT_DAYS weekend_unit)))
                 (Js.of_Z (RENTAL_UNIT_DAYS week)))
  end.

Definition considerWeekends (days : Z) (rates : AvailableRates) (best : option Combination)
    (weekends : Z) : result (option Combination) :=
  match weekLimitFor days weekends rates with
  | None => Ok best
  | Some weekLimit =>
      loop (fun best weeks => consider rates best (countsFor days weekends weeks))
        (downFrom weekLimit) best
  end.

Definition weekendLimitOf (rates : AvailableRates) : Z :=
  match weekend_rate rates with None => 0 | Some _ => 1 end.

Definition cheapestCombination (days : Z) (rates : AvailableRates) : result Combination :=
  best ← loop (considerWeekends days rates) (downFrom (weekendLimitOf rates)) None;
  match best with
  | None => Err (ForeignError "no combination of rates was considered")
  | Some b => Ok b
  end.

Record QuoteLineItem : Type := mkLine {
  unit_of : RentalUnit;
  line_count : Z;
  unitPrice : Money;
  subtotal : Money }.

Definition toLineItem (best : Combination) (rates : AvailableRates) (u : RentalUnit)
  : result QuoteLineItem :=
  unitPrice ← rateFor u rates;
  subtotal ← multiply unitPrice (Js.of_Z (count u (counts best))) half_up;
  Ok (mkLine u (count u (counts best)) unitPrice subtotal).

Definition toLineItems (best : Combination) (rates : AvailableRates) : result (list QuoteLineItem) :=
  try_map (toLineItem best rates) (units_used (counts best)).

Record RentalUnits : Type := mkUnits { units_lineItems : list QuoteLineItem; units_itemCharge : Money }.

Definition chooseCheapestUnits (days startsOnWeekday : Z) (rates : ListingRateCard)
  : result (option RentalUnits) :=
  match daily rates with
  | None => Ok None
  | Some _ =>
      if days <? 1 then Ok None
      else
        available ← toAvailableRates rates startsOnWeekday;
        best ← cheapestCombination days available;
        lines ← toLineItems best available;
        Ok (Some (mkUnits lines (cost best)))
  end.

(** ** The whole price *)
Record PricedRental : Type := mkPriced {
  lineItems : list QuoteLineItem;
  itemCharge : Money;
  renterFee : Money;
  priced_minimumFeeApplied : bool;
  total : Money }.

Definition priceRental (days startsOnWeekday : Z) (rates : ListingRateCard)
    (policy : CategoryFeePolicy) : result (option PricedRental) :=
  units ← chooseCheapestUnits days startsOnWeekday rates;
  match units with
  | None => Ok None
  | Some u =>
      f ← renterFeeOn (units_itemCharge u) policy;
      t ← add (units_itemCharge u) (fee f);
      Ok (Some (mkPriced (units_lineItems u) (units_itemCharge u) (fee f) (minimumFeeApplied f) t))
  end.

(** [{ total, minimum }] when the booking is too small. *)
Definition refuseBelowMinimumBooking (t : Money) (policy : CategoryFeePolicy)
  : result (option (Money * Money)) :=
  minimum ← money_again (minimumBookingTotal policy);
  below ← lessThan t minimum;
  Ok (if below : bool then Some (t, minimum) else None).

(** [Intl.NumberFormat], which writes an amount the way people read it. *)
Class Intl : Type := { format : Money -> string }.

Definition describeBelowMinimumBooking `{Intl} (refusal : Money * Money) : string :=
  "That comes to " +:+ format (fst refusal) +:+ ", and the smallest booking we can " +:+
  "take for this kind of item is " +:+ format (snd refusal) +:+ ". Hiring for " +:+
  "longer will get you there.".

(** ** The damage excess *)
Record DamageSecurityPolicy : Type := mkSecurity {
  excessFloor : Money;
  excessPercentageBasisPoints : Z;
  recoveryCeiling : Money }.

Inductive ExcessBound : Type := by_floor | by_percentage | by_ceiling.
Record AppliedExcess : Type := mkExcess { excess_amount : Money; boundBy : ExcessBound }.

Definition appliedExcessFor (policy : DamageSecurityPolicy) (replacementValue : Money)
  : result AppliedExcess :=
  floor ← money_again (excessFloor policy);
  ceiling ← money_again (recoveryCeiling policy);
  percentage ← percentageOf replacementValue
                 (basisPointsToPercent (excessPercentageBasisPoints policy)) half_up;
  greaterOfTheTwo ← maxOf floor percentage;
  over ← greaterThan greaterOfTheTwo ceiling;
  if over : bool then Ok (mkExcess ceiling by_ceiling)
  else
    p ← greaterThan percentage floor;
    Ok (mkExcess greaterOfTheTwo (if p : bool then by_percentage else by_floor)).

Definition appliedExcessOrNone (policy : option DamageSecurityPolicy) (replacementValue : Money)
  : result (option AppliedExcess) :=
  match policy with
  | None => Ok None
  | Some p => e ← appliedExcessFor p replacementValue; Ok (Some e)
  end.

End Pricing.
