(* ===== verification/PricingProofs.v ===== *)
(** * Theorems about prices

    Conservation and the fee floor, optimality of the chosen units over every
    combination that covers the hire, the agreement of the headline with the
    one-day quote, and the bounds of the damage excess. *)

From S2P Require Import Prelude JsNumber Text Money Pricing.

#[local] Open Scope string_scope.
#[local] Open Scope list_scope.
#[local] Open Scope Z_scope.

Import Money Pricing.

(** ** Values the code accepts *)
Definition MAX_SAFE : Z := Js.MAX_SAFE_INTEGER.

(** A non-negative amount of [c] below [limit]. *)
Definition priced (c : CurrencyCode) (limit : Z) (m : Money) : Prop :=
  currency m = c /\ 0 <= amount m <= limit.

Lemma priced_wf (c : CurrencyCode) (limit : Z) (m : Money) :
  limit <= MAX_SAFE -> priced c limit m -> Money.wf m.
Proof. unfold MAX_SAFE. intros Hl [_ Hm]. apply is_safe_iff. lia. Qed.

Lemma money_again_ok (m : Money) : Money.wf m -> money_again m = Ok m.
Proof. intros H. unfold money_again. rewrite money_safe by done. by destruct m. Qed.

Lemma lessThan_ok (a b : Money) :
  currency a = currency b -> lessThan a b = Ok (amount a <? amount b).
Proof.
  intros H. unfold lessThan, compare, assertSameCurrency. rewrite H.
  rewrite bool_decide_eq_true_2 by done. unfold_result. cbn.
  destruct (amount a <? amount b); [done|]. by destruct (amount a >? amount b).
Qed.

Lemma greaterThan_ok (a b : Money) :
  currency a = currency b -> greaterThan a b = Ok (amount b <? amount a).
Proof.
  intros H. unfold greaterThan, compare, assertSameCurrency. rewrite H.
  rewrite bool_decide_eq_true_2 by done. unfold_result. cbn. rewrite Z.gtb_ltb.
  destruct (Z.ltb_spec (amount a) (amount b)), (Z.ltb_spec (amount b) (amount a)); done || lia.
Qed.

Lemma maxOf_ok (a b : Money) :
  currency a = currency b -> maxOf a b = Ok (if amount b <? amount a then a else b).
Proof. intros H. unfold maxOf. unfold_result. by rewrite greaterThan_ok. Qed.

Lemma add_priced (c : CurrencyCode) (a b : Money) (la lb : Z) :
  priced c la a -> priced c lb b -> la + lb <= MAX_SAFE ->
  add a b = Ok (mkMoney (amount a + amount b) c).
Proof.
  unfold MAX_SAFE. intros [Ha1 Ha2] [Hb1 Hb2] Hs. apply add_ok. rewrite Ha1, Hb1.
  split_and!; [done| |done]. apply is_safe_iff. lia.
Qed.

(** ** The fee *)
Definition valid_policy (c : CurrencyCode) (p : CategoryFeePolicy) : Prop :=
  0 <= ownerCommissionBasisPoints p <= MAX_FEE_BASIS_POINTS /\
  0 <= renterFeeBasisPoints p <= MAX_FEE_BASIS_POINTS /\
  priced c 1000000 (minimumPlatformFee p) /\ priced c 1000000 (minimumBookingTotal p).

Definition MAX_CHARGE : Z := 2 ^ 52.

Lemma percentage_ok (charge : Money) (bp : Z) (c : CurrencyCode) :
  0 <= bp <= 10000 -> priced c MAX_CHARGE charge ->
  exists p, percentageOf charge (basisPointsToPercent bp) half_up = Ok (mkMoney p c) /\
            0 <= p <= amount charge.
Proof.
  intros Hbp Hc. pose proof Hc as [Hcur Ha].
  destruct (percentageOf_bounded charge bp) as (p & Hp & Hpb);
    [done|lia|by apply (priced_wf c MAX_CHARGE)|].
  exists p. unfold basisPointsToPercent. by rewrite Hp, Hcur.
Qed.

Lemma renterFeeOn_ok (charge : Money) (p : CategoryFeePolicy) (c : CurrencyCode) :
  valid_policy c p -> priced c MAX_CHARGE charge ->
  exists pct, percentageOf charge (basisPointsToPercent (renterFeeBasisPoints p)) half_up
                = Ok (mkMoney pct c) /\ 0 <= pct <= amount charge /\
    renterFeeOn charge p =
      Ok (mkFee (mkMoney (Z.max pct (amount (minimumPlatformFee p))) c)
                (pct <? amount (minimumPlatformFee p))).
Proof.
  unfold MAX_FEE_BASIS_POINTS. intros (_ & Hbp & Hfloor & _) Hc.
  unfold MAX_FEE_BASIS_POINTS in Hbp.
  destruct (percentage_ok charge (renterFeeBasisPoints p) c) as (pct & Hp & Hb); [lia|done|].
  exists pct. split_and!; [done|lia|lia|].
  unfold renterFeeOn. unfold_result. rewrite Hp.
  rewrite money_again_ok by (apply (priced_wf c 1000000); [done|exact Hfloor]).
  destruct Hfloor as [Hfc Hfa].
  rewrite lessThan_ok by done. cbn.
  destruct (Z.ltb_spec pct (amount (minimumPlatformFee p))).
  - rewrite Z.max_r by lia. by destruct (minimumPlatformFee p); cbn in *; subst.
  - by rewrite Z.max_l by lia.
Qed.

(** ** The exact cost of a combination *)
Definition MAX_DAYS : Z := 400.

Definition amount_or (m : option Money) : Z := match m with Some m => amount m | None => 0 end.

Definition price_of (c : Counts) (r : AvailableRates) : Z :=
  n_day c * amount (day_rate r) + n_weekend c * amount_or (weekend_rate r)
  + n_week c * amount_or (week_rate r).

Definition valid_rates (cur : CurrencyCode) (r : AvailableRates) : Prop :=
  priced cur MAX_RENTAL_RATE_MINOR_UNITS (day_rate r) /\
  (forall m, weekend_rate r = Some m -> priced cur MAX_RENTAL_RATE_MINOR_UNITS m) /\
  (forall m, week_rate r = Some m -> priced cur MAX_RENTAL_RATE_MINOR_UNITS m).

Definition valid_counts (c : Counts) (r : AvailableRates) : Prop :=
  0 <= n_day c <= MAX_DAYS /\ 0 <= n_weekend c <= 1 /\ 0 <= n_week c <= MAX_DAYS /\
  (weekend_rate r = None -> n_weekend c = 0) /\ (week_rate r = None -> n_week c = 0).

(** What the code computes for one unit. *)
Definition unit_rate (u : RentalUnit) (r : AvailableRates) : Z :=
  match u with
  | day => amount (day_rate r)
  | weekend_unit => amount_or (weekend_rate r)
  | week => amount_or (week_rate r)
  end.

Lemma unit_multiply (cur : CurrencyCode) (c : Counts) (r : AvailableRates) (u : RentalUnit) (m : Money) :
  valid_counts c r -> priced cur MAX_RENTAL_RATE_MINOR_UNITS m ->
  multiply m (Js.of_Z (count u c)) half_up = Ok (mkMoney (amount m * count u c) cur).
Proof.
  intros (Hd & He & Hw & _) Hm. pose proof Hm as [Hc Ha].
  unfold MAX_RENTAL_RATE_MINOR_UNITS, MAX_DAYS in *.
  assert (0 <= count u c <= 400) as Hn by (destruct u; cbn; lia).
  rewrite multiply_exactly; [by rewrite Hc|lia|unfold Js.MAX_SAFE_INTEGER; lia| |].
  - by apply (priced_wf cur 1000000).
  - unfold Js.MAX_SAFE_INTEGER. nia.
Qed.

Lemma rateFor_ok (cur : CurrencyCode) (c : Counts) (r : AvailableRates) (u : RentalUnit) :
  valid_rates cur r -> valid_counts c r -> 0 < count u c ->
  exists m, rateFor u r = Ok m /\ priced cur MAX_RENTAL_RATE_MINOR_UNITS m /\
            amount m = unit_rate u r.
Proof.
  intros (Hd & He & Hw) (_ & _ & _ & Hne & Hnw) Hn. destruct u; cbn in Hn |- *.
  - by exists (day_rate r).
  - destruct (weekend_rate r) as [m|]; [|specialize (Hne eq_refl); lia].
    exists m. split_and!; [done| |done]. by apply He.
  - destruct (week_rate r) as [m|]; [|specialize (Hnw eq_refl); lia].
    exists m. split_and!; [done| |done]. by apply Hw.
Qed.

Lemma priced_unit_ok (cur : CurrencyCode) (c : Counts) (r : AvailableRates) (u : RentalUnit) :
  valid_rates cur r -> valid_counts c r -> 0 < count u c ->
  priced_unit c r u = Ok (mkMoney (unit_rate u r * count u c) cur).
Proof.
  intros Hr Hc Hn. destruct (rateFor_ok cur c r u Hr Hc Hn) as (m & Hm & Hp & Ha).
  unfold priced_unit. unfold_result. rewrite Hm.
  rewrite (unit_multiply cur c r u m Hc Hp). by rewrite Ha.
Qed.

Lemma units_used_positive (c : Counts) : Forall (fun u => 0 < count u c) (units_used c).
Proof. apply Forall_forall. by intros u [? _]%list_elem_of_filter. Qed.

Lemma units_total (c : Counts) (r : AvailableRates) (cur : CurrencyCode) :
  valid_counts c r ->
  Money.total_of ((fun u => mkMoney (unit_rate u r * count u c) cur) <$> units_used c) = price_of c r.
Proof.
  intros (Hd & He & Hw & _). unfold units_used, UNITS_LARGEST_FIRST, price_of.
  rewrite !filter_cons, filter_nil. cbn [count].
  repeat case_decide; cbn -[Z.mul Z.add]; destruct c as [d e w]; cbn [n_day n_weekend n_week count] in *;
    repeat match goal with H : ~ (0 < ?x) |- _ => assert (x = 0) by lia; clear H; subst x end; lia.
Qed.

Lemma unit_rate_bound (cur : CurrencyCode) (r : AvailableRates) (u : RentalUnit) :
  valid_rates cur r -> 0 <= unit_rate u r <= MAX_RENTAL_RATE_MINOR_UNITS.
Proof.
  intros (Hd & He & Hw). destruct u; cbn.
  - apply Hd.
  - destruct (weekend_rate r) as [m|]; cbn; [by apply He|unfold MAX_RENTAL_RATE_MINOR_UNITS; lia].
  - destruct (week_rate r) as [m|]; cbn; [by apply Hw|unfold MAX_RENTAL_RATE_MINOR_UNITS; lia].
Qed.

Lemma price_of_bound (cur : CurrencyCode) (c : Counts) (r : AvailableRates) :
  valid_rates cur r -> valid_counts c r -> 0 <= price_of c r <= 1200000000.
Proof.
  intros Hr (Hd & He & Hw & _). unfold price_of.
  pose proof (unit_rate_bound cur r day Hr) as H1. pose proof (unit_rate_bound cur r weekend_unit Hr) as H2.
  pose proof (unit_rate_bound cur r week Hr) as H3. cbn [unit_rate] in *.
  unfold MAX_RENTAL_RATE_MINOR_UNITS, MAX_DAYS in *. nia.
Qed.

Lemma costOf_ok (cur : CurrencyCode) (c : Counts) (r : AvailableRates) :
  valid_rates cur r -> valid_counts c r -> costOf c r = Ok (mkMoney (price_of c r) cur).
Proof.
  intros Hr Hc. unfold costOf. unfold_result.
  rewrite (try_map_ok _ (fun u => mkMoney (unit_rate u r * count u c) cur)).
  - rewrite (proj1 (proj1 Hr)). rewrite <- (units_total c r cur Hc). apply sum_total.
    + rewrite Forall_fmap. eapply Forall_impl; [apply units_used_positive|].
      cbn. intros u Hu. split; [done|]. pose proof (unit_rate_bound cur r u Hr). nia.
    + rewrite units_total by done. pose proof (price_of_bound cur c r Hr Hc).
      unfold Js.MAX_SAFE_INTEGER. lia.
  - eapply Forall_impl; [apply units_used_positive|]. intros u Hu. by apply priced_unit_ok.
Qed.

(** ** The loop keeps a cheapest combination *)
Section search.
Context (cur : CurrencyCode) (r : AvailableRates) (Hr : valid_rates cur r) (days : Z).

Definition covers (c : Counts) : Prop := days <= n_day c + 3 * n_weekend c + 7 * n_week c.

(** The running best is a covering combination at its own price. *)
Definition best_ok (b : Combination) : Prop :=
  valid_counts (counts b) r /\ covers (counts b) /\
  cost b = mkMoney (price_of (counts b) r) cur.
Definition at_most (best : option Combination) (p : Z) : Prop :=
  exists b, best = Some b /\ amount (cost b) <= p.

Definition improves (best best' : option Combination) : Prop :=
  (forall b, best' = Some b -> best_ok b) /\ (forall p, at_most best p -> at_most best' p).

Lemma consider_ok (best : option Combination) (c : Counts) :
  (forall b, best = Some b -> best_ok b) -> valid_counts c r -> covers c ->
  exists best', consider r best c = Ok best' /\ improves best best' /\ at_most best' (price_of c r).
Proof.
  intros Hb Hc Hcov. unfold consider. unfold_result. rewrite (costOf_ok cur c r Hr Hc).
  assert (best_ok (mkCombination c (mkMoney (price_of c r) cur))) as Hnew by done.
  destruct best as [b|].
  - destruct (Hb b eq_refl) as (Hv & Hcb & Hcost).
    rewrite lessThan_ok by by rewrite Hcost.
    eexists. split; [done|]. cbn. destruct (Z.ltb_spec (price_of c r) (amount (cost b))) as [Hlt|Hge].
    + split; [split|].
      * by intros ? [= <-].
      * intros p (b' & [= <-] & Hp). eexists. split; [done|]. cbn. lia.
      * eexists. split; [done|]. cbn. lia.
    + split; [split|].
      * by intros ? [= <-].
      * done.
      * by exists b.
  - eexists. split; [done|]. split; [split|].
    + by intros ? [= <-].
    + by intros p (? & ? & _).
    + eexists. split; [done|]. cbn. lia.
Qed.

Lemma loop_improves {A} (body : option Combination -> A -> result (option Combination))
    (P : A -> Z -> Prop) (l : list A) (best : option Combination) :
  (forall best x, x ∈ l -> (forall b, best = Some b -> best_ok b) ->
     exists best', body best x = Ok best' /\ improves best best' /\
                   forall p, P x p -> at_most best' p) ->
  (forall b, best = Some b -> best_ok b) ->
  exists best', loop body l best = Ok best' /\ improves best best' /\
                forall x p, x ∈ l -> P x p -> at_most best' p.
Proof.
  revert best. induction l as [|x l IH]; intros best Hbody Hb; cbn [loop]; unfold_result.
  - exists best. split_and!; [done|done|]. by intros x p ?%not_elem_of_nil.
  - destruct (Hbody best x) as (b1 & -> & [Hb1 Hi1] & Hp1); [left|done|].
    destruct (IH b1) as (b2 & -> & [Hb2 Hi2] & Hp2); [|done|].
    { intros best' y Hy. apply Hbody. by right. }
    exists b2. split_and!; [done|split; auto|].
    intros y p [->|Hy]%elem_of_cons HP; [by apply Hi2, Hp1|by eapply Hp2].
Qed.

Lemma elem_of_downFrom (n i : Z) : i ∈ downFrom n <-> 0 <= i <= n.
Proof.
  unfold downFrom. rewrite elem_of_reverse, list_elem_of_fmap. split.
  - intros (k & -> & Hk). apply elem_of_seq in Hk. lia.
  - intros Hi. exists (Z.to_nat i). split; [lia|]. apply elem_of_seq. lia.
Qed.

Definition ceil_sevenths_upto (n : nat) : bool :=
  forallb (fun k => bool_decide (Js.ceil (Js.div (Js.of_Z (Z.of_nat k)) (Js.of_Z 7))
                                  = Some ((Z.of_nat k + 6) / 7))) (seq 0 n).

Lemma ceil_sevenths (a : Z) :
  0 <= a <= MAX_DAYS -> Js.ceil (Js.div (Js.of_Z a) (Js.of_Z 7)) = Some ((a + 6) / 7).
Proof.
  intros Ha. unfold MAX_DAYS in Ha.
  assert (ceil_sevenths_upto 401 = true) as H by (vm_compute; reflexivity).
  unfold ceil_sevenths_upto in H. rewrite forallb_forall in H.
  specialize (H (Z.to_nat a)). rewrite Z2Nat.id in H by lia.
  apply bool_decide_eq_true in H; [exact H|]. apply List.in_seq. lia.
Qed.

(** The number of weeks the code tries for a number of weekends. *)
Definition weeks_tried (weekends : Z) : Z :=
  match week_rate r with None => 0 | Some _ => (Z.max 0 (days - weekends * 3) + 6) / 7 end.

Lemma weeks_tried_bound (weekends : Z) :
  0 <= weekends -> days <= MAX_DAYS -> 0 <= weeks_tried weekends <= 58.
Proof.
  unfold weeks_tried, MAX_DAYS. intros Hw Hd. destruct (week_rate r); [|lia].
  split; [apply Z.div_pos; lia|]. apply Z.div_le_upper_bound; lia.
Qed.

Lemma countsFor_ok (weekends weeks : Z) :
  1 <= days <= MAX_DAYS -> 0 <= weekends <= weekendLimitOf r -> 0 <= weeks <= weeks_tried weekends ->
  valid_counts (countsFor days weekends weeks) r /\ covers (countsFor days weekends weeks).
Proof.
  intros Hd Hwe Hwk. pose proof (weeks_tried_bound weekends (proj1 Hwe) (proj2 Hd)).
  unfold valid_counts, covers, countsFor, RENTAL_UNIT_DAYS, weekendLimitOf, weeks_tried, MAX_DAYS in *.
  cbn -[Z.mul Z.max Z.sub] in *.
  destruct (weekend_rate r), (week_rate r); split_and!; try done; try lia; intros; lia.
Qed.

Lemma considerWeekends_ok (best : option Combination) (weekends : Z) :
  1 <= days <= MAX_DAYS -> 0 <= weekends <= weekendLimitOf r ->
  (forall b, best = Some b -> best_ok b) ->
  exists best', considerWeekends days r best weekends = Ok best' /\ improves best best' /\
    forall weeks, 0 <= weeks <= weeks_tried weekends ->
      at_most best' (price_of (countsFor days weekends weeks) r).
Proof.
  intros Hd Hwe Hb. unfold considerWeekends.
  assert (weekLimitFor days weekends r = Some (weeks_tried weekends)) as ->.
  { unfold weekLimitFor, weeks_tried, RENTAL_UNIT_DAYS.
    destruct (week_rate r); [|done]. apply ceil_sevenths. unfold MAX_DAYS in *. lia. }
  destruct (loop_improves
    (fun best weeks => consider r best (countsFor days weekends weeks))
    (fun weeks p => p = price_of (countsFor days weekends weeks) r)
    (downFrom (weeks_tried weekends)) best) as (best' & Hl & Hi & Hp).
  - intros b0 weeks Hin Hb0. apply elem_of_downFrom in Hin.
    destruct (countsFor_ok weekends weeks Hd Hwe Hin) as [Hv Hc].
    destruct (consider_ok b0 _ Hb0 Hv Hc) as (b1 & Hb1 & Hi & Hp).
    exists b1. split_and!; [done|done|]. by intros p ->.
  - done.
  - exists best'. split_and!; [done|done|].
    intros weeks Hweeks. apply (Hp weeks); [by apply elem_of_downFrom|done].
Qed.

Lemma cheapestCombination_search :
  1 <= days <= MAX_DAYS ->
  exists b, cheapestCombination days r = Ok b /\ best_ok b /\
    forall weekends weeks, 0 <= weekends <= weekendLimitOf r -> 0 <= weeks <= weeks_tried weekends ->
      amount (cost b) <= price_of (countsFor days weekends weeks) r.
Proof.
  intros Hd. unfold cheapestCombination. unfold_result.
  destruct (loop_improves (considerWeekends days r)
    (fun weekends p => exists weeks, 0 <= weeks <= weeks_tried weekends /\
                         p = price_of (countsFor days weekends weeks) r)
    (downFrom (weekendLimitOf r)) None) as (best & Hl & [Hbest _] & Hp).
  - intros b0 weekends Hin Hb0. apply elem_of_downFrom in Hin.
    destruct (considerWeekends_ok b0 weekends Hd Hin Hb0) as (b1 & Hb1 & Hi & Hp).
    exists b1. split_and!; [done|done|]. intros p (weeks & Hw & ->). by apply Hp.
  - done.
  - rewrite Hl.
    assert (forall weekends weeks, 0 <= weekends <= weekendLimitOf r ->
              0 <= weeks <= weeks_tried weekends ->
              at_most best (price_of (countsFor days weekends weeks) r)) as Hall.
    { intros weekends weeks H1 H2. apply (Hp weekends); [by apply elem_of_downFrom|eauto]. }
    assert (0 <= weekendLimitOf r) as Hlim by (unfold weekendLimitOf; destruct (weekend_rate r); lia).
    destruct (Hall 0 0) as (b & -> & _); [lia| |].
    { pose proof (weeks_tried_bound 0 ltac:(lia) (proj2 Hd)). lia. }
    exists b. split_and!; [done|by apply Hbest|].
    intros weekends weeks H1 H2. by destruct (Hall weekends weeks H1 H2) as (? & [= <-] & ?).
Qed.

(** Any covering combination costs at least as much as one the code tries. *)
Lemma covering_not_cheaper (c : Counts) :
  1 <= days -> covers c -> 0 <= n_day c -> 0 <= n_weekend c <= weekendLimitOf r -> 0 <= n_week c ->
  (week_rate r = None -> n_week c = 0) ->
  exists weeks, 0 <= weeks <= weeks_tried (n_weekend c) /\
    price_of (countsFor days (n_weekend c) weeks) r <= price_of c r.
Proof.
  intros Hd Hcov Hday Hwe Hwk Hnone.
  exists (Z.min (n_week c) (weeks_tried (n_weekend c))).
  assert (0 <= weeks_tried (n_weekend c)) as Hw0.
  { unfold weeks_tried. destruct (week_rate r); [apply Z.div_pos|]; lia. }
  split; [lia|].
  unfold price_of, countsFor, RENTAL_UNIT_DAYS, covers in *. cbn [n_day n_weekend n_week].
  pose proof (unit_rate_bound cur r day Hr) as H1. pose proof (unit_rate_bound cur r week Hr) as H3.
  cbn [unit_rate] in *.
  set (k := Z.min _ _). set (a := Z.max 0 (days - n_weekend c * 3)).
  assert (Z.max 0 (a - k * 7) <= n_day c /\ k <= n_week c) as [Hle1 Hle2].
  { split; [|lia]. subst k. unfold weeks_tried in *. fold a. destruct (week_rate r).
    - destruct (Z.min_spec (n_week c) ((a + 6) / 7)) as [[_ ->]|[_ ->]]; [lia|].
      pose proof (Z_div_mod_eq_full (a + 6) 7). pose proof (Z.mod_pos_bound (a + 6) 7). lia.
    - rewrite (Hnone eq_refl) in *. lia. }
  nia.
Qed.
End search.

(** ** What is quoted *)
Definition valid_card (cur : CurrencyCode) (rates : ListingRateCard) : Prop :=
  is_Some (daily rates) /\
  forall m, daily rates = Some m \/ weekend rates = Some m \/ weekly rates = Some m ->
            priced cur MAX_RENTAL_RATE_MINOR_UNITS m.

Definition available (d : Money) (rates : ListingRateCard) (weekday : Z) : AvailableRates :=
  mkAvailable d (if weekday =? WEEKEND_START_WEEKDAY then weekend rates else None) (weekly rates).

Lemma toAvailableRates_ok (cur : CurrencyCode) (rates : ListingRateCard) (d : Money) (weekday : Z) :
  valid_card cur rates -> daily rates = Some d ->
  toAvailableRates rates weekday = Ok (available d rates weekday) /\
  valid_rates cur (available d rates weekday).
Proof.
  intros [_ Hall] Hd.
  assert (forall m, daily rates = Some m \/ weekend rates = Some m \/ weekly rates = Some m ->
            money_again m = Ok m) as Hm.
  { intros m Hin. apply money_again_ok, (priced_wf cur MAX_RENTAL_RATE_MINOR_UNITS);
      [done|by apply Hall]. }
  split.
  - unfold toAvailableRates, available. rewrite Hd. unfold_result. rewrite Hm by auto.
    destruct (weekend rates) as [w|], (weekday =? WEEKEND_START_WEEKDAY), (weekly rates) as [k|];
      cbn; rewrite ?Hm by auto; done.
  - split_and!; cbn; [apply Hall; auto| |intros m Hk; apply Hall; auto].
    intros m. destruct (_ =? _); [|done]. intros Hk. apply Hall; auto.
Qed.

Definition line_days (l : QuoteLineItem) : Z := line_count l * RENTAL_UNIT_DAYS (unit_of l).

Definition line_for (cur : CurrencyCode) (c : Counts) (r : AvailableRates) (u : RentalUnit)
  : QuoteLineItem :=
  mkLine u (count u c) (mkMoney (unit_rate u r) cur) (mkMoney (unit_rate u r * count u c) cur).

Lemma toLineItems_ok (cur : CurrencyCode) (b : Combination) (r : AvailableRates) :
  valid_rates cur r -> valid_counts (counts b) r ->
  toLineItems b r = Ok (line_for cur (counts b) r <$> units_used (counts b)).
Proof.
  intros Hr Hc. apply try_map_ok.
  eapply Forall_impl; [apply units_used_positive|]. intros u Hu.
  destruct (rateFor_ok cur (counts b) r u Hr Hc Hu) as (m & Hm & Hp & Ha).
  unfold toLineItem, line_for. unfold_result. rewrite Hm, (unit_multiply cur _ r _ _ Hc Hp), Ha.
  destruct m as [a c], Hp as [Hpc _]. cbn in *. by subst.
Qed.

Lemma units_days (c : Counts) (r : AvailableRates) (cur : CurrencyCode) :
  valid_counts c r ->
  zsum (line_days <$> (line_for cur c r <$> units_used c)) =
  n_day c + 3 * n_weekend c + 7 * n_week c.
Proof.
  intros (Hd & He & Hw & _). unfold units_used, UNITS_LARGEST_FIRST.
  rewrite !filter_cons, filter_nil. cbn [count].
  repeat case_decide; cbn -[Z.mul Z.add]; unfold line_days; cbn -[Z.mul Z.add]; lia.
Qed.

(** A way of hiring for [days] under the owner's rates. *)
Record offer (rates : ListingRateCard) (weekday days : Z) (c : Counts) : Prop := {
  offer_days : days <= n_day c + 3 * n_weekend c + 7 * n_week c;
  offer_day : 0 <= n_day c;
  offer_weekend : 0 <= n_weekend c <= 1;
  offer_week : 0 <= n_week c;
  offer_friday : n_weekend c = 1 -> is_Some (weekend rates) /\ weekday = WEEKEND_START_WEEKDAY;
  offer_weekly : 0 < n_week c -> is_Some (weekly rates) }.

Definition offer_price (rates : ListingRateCard) (c : Counts) : Z :=
  n_day c * amount_or (daily rates) + n_weekend c * amount_or (weekend rates)
  + n_week c * amount_or (weekly rates).

Lemma offer_price_available (rates : ListingRateCard) (weekday days : Z) (c : Counts) (d : Money) :
  daily rates = Some d -> offer rates weekday days c ->
  offer_price rates c = price_of c (available d rates weekday) /\
  0 <= n_weekend c <= weekendLimitOf (available d rates weekday) /\
  (week_rate (available d rates weekday) = None -> n_week c = 0).
Proof.
  intros Hd [Hdays Hday Hwe Hwk Hf Hk]. unfold offer_price, price_of, available, weekendLimitOf. cbn.
  rewrite Hd. cbn.
  assert (n_weekend c = 0 \/ n_weekend c = 1) as [H0|H1] by lia.
  - rewrite H0. split_and!; [destruct (_ =? _); lia|lia|destruct (if _ : bool then _ else _); lia|].
    intros Hn. destruct (decide (0 < n_week c)) as [Hp|]; [|lia].
    destruct (Hk Hp) as [? Hx]. congruence.
  - destruct (Hf H1) as [[w Hw] ->]. rewrite Z.eqb_refl, Hw. cbn. split_and!; [lia..|].
    intros Hn. destruct (decide (0 < n_week c)) as [Hp|]; [|lia].
    destruct (Hk Hp) as [? Hx]. congruence.
Qed.

(** [chooseCheapestUnits] always answers, and its answer covers the hire. *)
Lemma chooseCheapestUnits_ok (cur : CurrencyCode) (rates : ListingRateCard) (weekday days : Z) :
  valid_card cur rates -> 1 <= days <= MAX_DAYS ->
  exists u c, chooseCheapestUnits days weekday rates = Ok (Some u) /\
    currency (units_itemCharge u) = cur /\
    0 <= amount (units_itemCharge u) <= 1200000000 /\
    days <= zsum (line_days <$> units_lineItems u) /\
    Money.total_of (subtotal <$> units_lineItems u) = amount (units_itemCharge u) /\
    Forall (fun l => 0 < line_count l /\
                     amount (subtotal l) = amount (unitPrice l) * line_count l) (units_lineItems u) /\
    (forall c, offer rates weekday days c -> amount (units_itemCharge u) <= offer_price rates c) /\
    (offer rates weekday days c /\ amount (units_itemCharge u) = offer_price rates c).
Proof.
  intros Hcard Hd. pose proof Hcard as [[d Hday] _].
  destruct (toAvailableRates_ok cur rates d weekday Hcard Hday) as [Ha Hr].
  set (r := available d rates weekday) in *.
  destruct (cheapestCombination_search cur r Hr days Hd) as (b & Hb & (Hv & Hcov & Hcost) & Hmin).
  pose proof (price_of_bound cur (counts b) r Hr Hv) as Hbound.
  exists (mkUnits (line_for cur (counts b) r <$> units_used (counts b)) (cost b)), (counts b).
  assert (offer rates weekday days (counts b)) as Hoffer.
  { destruct Hv as (V1 & V2 & V3 & V4 & V5).
    unfold covers in Hcov.
    split; [lia|lia|lia|lia| |].
    - intros H1. subst r. cbn in *. destruct (Z.eqb_spec weekday WEEKEND_START_WEEKDAY) as [->|].
      + destruct (weekend rates); [done|]. specialize (V4 eq_refl). lia.
      + specialize (V4 eq_refl). lia.
    - intros Hp. subst r. cbn in *. destruct (weekly rates); [done|]. specialize (V5 eq_refl). lia. }
  destruct (offer_price_available rates weekday days (counts b) d Hday Hoffer) as (Hop & _ & _).
  cbn [units_itemCharge units_lineItems]. rewrite Hcost. cbn [amount currency].
  split_and!; [|done|lia|lia| | | | |done|done].
  - unfold chooseCheapestUnits. rewrite Hday.
    destruct (Z.ltb_spec days 1); [lia|]. unfold_result.
    rewrite Ha, Hb, (toLineItems_ok cur b r Hr Hv). by rewrite Hcost.
  - by rewrite (units_days (counts b) r cur Hv).
  - rewrite <- (units_total (counts b) r cur Hv). f_equal. rewrite <- list_fmap_compose. done.
  - rewrite Forall_fmap. eapply Forall_impl; [apply units_used_positive|]. by intros u Hu.
  - intros c Hc. destruct (offer_price_available rates weekday days c d Hday Hc) as (-> & Hwe & Hwk).
    destruct Hc as [Hc1 Hc2 _ Hc4 _ _].
    destruct (covering_not_cheaper cur r Hr days c) as (weeks & Hw & Hle); [lia|done|done|done|done|done|].
    specialize (Hmin (n_weekend c) weeks Hwe Hw). rewrite Hcost in Hmin. cbn in Hmin. fold r. lia.
Qed.

(** What a table may store of a line: the bounds of its columns hold with room. *)
Definition storable_line (cur : CurrencyCode) (l : QuoteLineItem) : Prop :=
  0 < line_count l <= MAX_DAYS /\ priced cur MAX_RENTAL_RATE_MINOR_UNITS (unitPrice l) /\
  priced cur (MAX_DAYS * MAX_RENTAL_RATE_MINOR_UNITS) (subtotal l).

Lemma chosen_lines (cur : CurrencyCode) (rates : ListingRateCard) (weekday days : Z) (u : RentalUnits) :
  valid_card cur rates -> 1 <= days <= MAX_DAYS -> chooseCheapestUnits days weekday rates = Ok (Some u) ->
  Forall (storable_line cur) (units_lineItems u).
Proof.
  intros Hcard Hd. pose proof Hcard as [[d Hday] _].
  destruct (toAvailableRates_ok cur rates d weekday Hcard Hday) as [Ha Hr].
  set (r := available d rates weekday) in *.
  destruct (cheapestCombination_search cur r Hr days Hd) as (b & Hb & (Hv & _ & _) & _).
  unfold chooseCheapestUnits. rewrite Hday. destruct (Z.ltb_spec days 1); [lia|]. unfold_result.
  rewrite Ha, Hb, (toLineItems_ok cur b r Hr Hv). intros [= <-]. cbn [units_lineItems].
  rewrite Forall_fmap. eapply Forall_impl; [apply units_used_positive|]. cbn. intros x Hx.
  pose proof (unit_rate_bound cur r x Hr). destruct Hv as (V1 & V2 & V3 & _ & _).
  unfold storable_line, priced, MAX_DAYS, MAX_RENTAL_RATE_MINOR_UNITS in *. cbn.
  destruct x; cbn in *; split_and!; (done || nia).
Qed.

Record well_priced (cur : CurrencyCode) (policy : CategoryFeePolicy) (days : Z) (q : PricedRental) (pct : Z)
  : Prop := {
  wp_pct : percentageOf (itemCharge q) (basisPointsToPercent (renterFeeBasisPoints policy)) half_up
           = Ok (mkMoney pct cur);
  wp_pct_le : 0 <= pct <= amount (itemCharge q);
  wp_item : priced cur (days * MAX_RENTAL_RATE_MINOR_UNITS) (itemCharge q);
  wp_fee : renterFee q = mkMoney (Z.max pct (amount (minimumPlatformFee policy))) cur;
  wp_flag : priced_minimumFeeApplied q = (pct <? amount (minimumPlatformFee policy));
  wp_total : total q = mkMoney (amount (itemCharge q) + amount (renterFee q)) cur;
  wp_lines : lineItems q <> [] /\ Forall (storable_line cur) (lineItems q) }.

Lemma priceRental_ok (cur : CurrencyCode) (rates : ListingRateCard) (policy : CategoryFeePolicy)
    (weekday days : Z) :
  valid_card cur rates -> valid_policy cur policy -> 1 <= days <= MAX_DAYS ->
  exists q pct, priceRental days weekday rates policy = Ok (Some q) /\ well_priced cur policy days q pct.
Proof.
  intros Hcard Hpol Hd.
  destruct (chooseCheapestUnits_ok cur rates weekday days Hcard Hd)
    as (u & _ & Hu & Hcur & Hb & Hdays & _ & _ & Hmin & _).
  pose proof (chosen_lines cur rates weekday days u Hcard Hd Hu) as Hlines.
  assert (amount (units_itemCharge u) <= days * MAX_RENTAL_RATE_MINOR_UNITS) as Hle.
  { pose proof Hcard as [[d Hday] Hall]. destruct (Hall d (or_introl Hday)) as [_ Hda].
    assert (offer rates weekday days (mkCounts days 0 0)) as Ho by (split; cbn; lia).
    specialize (Hmin _ Ho). unfold offer_price in Hmin. cbn in Hmin. rewrite Hday in Hmin. cbn in Hmin. nia. }
  assert (priced cur MAX_CHARGE (units_itemCharge u)) as Hp
    by (unfold MAX_CHARGE; split; [done|lia]).
  destruct (renterFeeOn_ok _ policy cur Hpol Hp) as (pct & Hpct & Hpb & Hfee).
  destruct Hpol as (_ & _ & [_ Hfl] & _).
  assert (priced cur 1200000000 (mkMoney (Z.max pct (amount (minimumPlatformFee policy))) cur)) as Hfp
    by (split; cbn; [done|lia]).
  exists (mkPriced (units_lineItems u) (units_itemCharge u)
            (mkMoney (Z.max pct (amount (minimumPlatformFee policy))) cur)
            (pct <? amount (minimumPlatformFee policy))
            (mkMoney (amount (units_itemCharge u) + Z.max pct (amount (minimumPlatformFee policy))) cur)), pct.
  split.
  - unfold priceRental. unfold_result. rewrite Hu, Hfee. cbn [fee minimumFeeApplied].
    by rewrite (add_priced cur _ _ MAX_CHARGE 1200000000 Hp Hfp) by (unfold MAX_CHARGE, MAX_SAFE, Js.MAX_SAFE_INTEGER; lia).
  - split; cbn [itemCharge renterFee total priced_minimumFeeApplied lineItems]; try done.
    + by split; [|lia].
    + split; [|done]. intros Hnil. rewrite Hnil in Hdays. cbn in Hdays. lia.
Qed.

(** Every amount that a price shows. *)
Definition amounts_of (q : PricedRental) : list Money :=
  [itemCharge q; renterFee q; total q] ++ (unitPrice <$> lineItems q) ++ (subtotal <$> lineItems q).

Lemma well_priced_safe (cur : CurrencyCode) (policy : CategoryFeePolicy) (days : Z) (q : PricedRental) (pct : Z) :
  valid_policy cur policy -> 1 <= days <= MAX_DAYS -> well_priced cur policy days q pct ->
  Forall (fun m => currency m = cur /\ 0 <= amount m <= Js.MAX_SAFE_INTEGER) (amounts_of q).
Proof.
  intros (_ & _ & [_ Hfl] & _) Hd [_ Hpct [Hc Hi] Hf _ Ht [_ Hlines]]. unfold amounts_of. rewrite Ht, Hf. unfold storable_line, priced in Hlines. unfold MAX_DAYS, MAX_RENTAL_RATE_MINOR_UNITS, Js.MAX_SAFE_INTEGER in *.
  rewrite Forall_app, Forall_app, !Forall_fmap. split_and!.
  - repeat apply Forall_cons_2; [..|done]; cbn; (split; [done|lia]).
  - eapply Forall_impl; [exact Hlines|]. intros l (_ & [Hlc Hl] & _). cbn. split; [done|lia].
  - eapply Forall_impl; [exact Hlines|]. intros l (_ & _ & [Hlc Hl]). cbn. split; [done|lia].
Qed.

(** C25. The two nested loops choose a combination of weeks, weekend and days that covers
    the hire and costs no more than any combination the owner's rates offer; its line items
    add up to its price, and each is its unit price times its count. *)
Theorem quote_is_cheapest (cur : CurrencyCode) (rates : ListingRateCard) (weekday days : Z) :
  valid_card cur rates -> 1 <= days <= MAX_DAYS ->
  exists u, chooseCheapestUnits days weekday rates = Ok (Some u) /\
    (forall c, offer rates weekday days c -> amount (units_itemCharge u) <= offer_price rates c) /\
    (exists c, offer rates weekday days c /\ amount (units_itemCharge u) = offer_price rates c) /\
    days <= zsum (line_days <$> units_lineItems u) /\
    Money.total_of (subtotal <$> units_lineItems u) = amount (units_itemCharge u) /\
    Forall (fun l => 0 < line_count l /\
                     amount (subtotal l) = amount (unitPrice l) * line_count l) (units_lineItems u).
Proof.
  intros Hcard Hd.
  destruct (chooseCheapestUnits_ok cur rates weekday days Hcard Hd)
    as (u & c & Hu & _ & _ & Hdays & Hsum & Hlines & Hmin & Hatt).
  exists u. split_and!; [done|done|by exists c|done..].
Qed.

(** C39. Pricing a hire always succeeds within the contract's bounds: the fee is the
    percentage of the item charge or the policy's floor, whichever is larger, flagged when
    the floor applied; the total is charge plus fee; and every amount of the quote, of its
    lines and of its fees, is in the one currency, not negative, and a safe integer. *)
Theorem quote_total (cur : CurrencyCode) (rates : ListingRateCard) (policy : CategoryFeePolicy)
    (weekday days : Z) :
  valid_card cur rates -> valid_policy cur policy -> 1 <= days <= MAX_DAYS ->
  exists q pct, priceRental days weekday rates policy = Ok (Some q) /\
    percentageOf (itemCharge q) (basisPointsToPercent (renterFeeBasisPoints policy)) half_up
      = Ok (mkMoney pct cur) /\
    amount (renterFee q) = Z.max pct (amount (minimumPlatformFee policy)) /\
    priced_minimumFeeApplied q = (pct <? amount (minimumPlatformFee policy)) /\
    amount (total q) = amount (itemCharge q) + amount (renterFee q) /\
    amount (minimumPlatformFee policy) <= amount (renterFee q) /\
    amount (renterFee q) <= Z.max (amount (itemCharge q)) (amount (minimumPlatformFee policy)) /\
    Forall (fun m => currency m = cur /\ 0 <= amount m <= Js.MAX_SAFE_INTEGER) (amounts_of q).
Proof.
  intros Hcard Hpol Hd.
  destruct (priceRental_ok cur rates policy weekday days Hcard Hpol Hd) as (q & pct & Hq & Hw).
  pose proof (well_priced_safe cur policy days q pct Hpol Hd Hw) as Hs. destruct Hw as [H1 H2 H3 H4 H5 H6 _].
  exists q, pct. rewrite H4, H6 in *. cbn [amount currency] in *. split_and!; (done || lia).
Qed.

(** What a single day comes to, when no larger unit undercuts it. *)
Lemma one_day_is_the_daily_rate (cur : CurrencyCode) (rates : ListingRateCard) (weekday : Z) (d : Money)
    (c : Counts) (m : Money) :
  valid_card cur rates -> daily rates = Some d ->
  amount d <= amount_or (weekend rates) \/ weekend rates = None ->
  amount d <= amount_or (weekly rates) \/ weekly rates = None ->
  currency m = cur -> offer rates weekday 1 c -> amount m = offer_price rates c ->
  (forall c', offer rates weekday 1 c' -> amount m <= offer_price rates c') -> m = d.
Proof.
  intros Hcard Hday Hwe Hwk Hcur Hoff Hatt Hmin.
  destruct (proj2 Hcard d (or_introl Hday)) as [Hdc Hda].
  assert (offer rates weekday 1 (mkCounts 1 0 0)) as Hone by (constructor; cbn; lia).
  specialize (Hmin _ Hone). unfold offer_price in *. rewrite Hday in *. cbn [n_day n_weekend n_week] in Hmin.
  cbn [amount_or] in *. destruct Hoff as [O1 O2 O3 O4 O5 O6].
  assert (0 <= amount_or (weekend rates)) as Hn1.
  { destruct (weekend rates) as [x|] eqn:E; cbn; [|lia]. apply (proj2 Hcard); auto. }
  assert (0 <= amount_or (weekly rates)) as Hn2.
  { destruct (weekly rates) as [x|] eqn:E; cbn; [|lia]. apply (proj2 Hcard); auto. }
  assert (n_weekend c = 0 \/ amount d <= amount_or (weekend rates)) as Hwe'.
  { destruct Hwe as [|Hnone]; [by right|]. left.
    destruct (decide (n_weekend c = 1)) as [H'|]; [|lia]. destruct (O5 H') as [[? Hs] _]. congruence. }
  assert (n_week c = 0 \/ amount d <= amount_or (weekly rates)) as Hwk'.
  { destruct Hwk as [|Hnone]; [by right|]. left.
    destruct (decide (0 < n_week c)) as [H'|]; [|lia]. destruct (O6 H') as [? Hs]. congruence. }
  enough (amount m = amount d) as Heq by (destruct m, d; cbn in *; congruence).
  assert (amount d <= amount m); [|lia]. rewrite Hatt.
  destruct (decide (0 < n_day c)); [nia|]. assert (n_day c = 0) as D0 by lia. rewrite D0 in *.
  destruct (decide (n_weekend c = 1)) as [E1|]; [rewrite E1 in *; destruct Hwe'; nia|].
  assert (n_weekend c = 0) as E0 by lia. rewrite E0. assert (0 < n_week c) by lia.
  destruct Hwk'; nia.
Qed.

(** The inclusive price in the shop window is the total, fee and flag a one-day quote comes
    to, unless a larger unit undercuts the daily rate. *)
Theorem headline_is_one_day_quote (cur : CurrencyCode) (rates : ListingRateCard)
    (policy : CategoryFeePolicy) (weekday : Z) (d : Money) :
  valid_card cur rates -> valid_policy cur policy -> daily rates = Some d ->
  amount d <= amount_or (weekend rates) \/ weekend rates = None ->
  amount d <= amount_or (weekly rates) \/ weekly rates = None ->
  exists q h, priceRental 1 weekday rates policy = Ok (Some q) /\
    inclusiveDailyPrice rates policy = Ok (Some h) /\
    total q = daily_total h /\ renterFee q = daily_fee h /\ itemCharge q = rate h /\
    priced_minimumFeeApplied q = daily_minimumFeeApplied h.
Proof.
  intros Hcard Hpol Hday Hwe Hwk.
  destruct (chooseCheapestUnits_ok cur rates weekday 1 Hcard ltac:(unfold MAX_DAYS; lia))
    as (u & c & Hu & Hcur & Hb & _ & _ & _ & Hmin & [Hoff Hatt]).
  pose proof (proj2 Hcard d (or_introl Hday)) as Hdp.
  assert (units_itemCharge u = d) as Hud by by eapply one_day_is_the_daily_rate.
  destruct (renterFeeOn_ok (units_itemCharge u) policy cur Hpol) as (pct & _ & Hpb & Hfee).
  { rewrite Hud. destruct Hdp. unfold priced, MAX_CHARGE, MAX_RENTAL_RATE_MINOR_UNITS in *. split; [done|lia]. }
  set (f := mkMoney _ cur) in Hfee.
  assert (exists t, add (units_itemCharge u) f = Ok t) as [t Ht].
  { destruct Hpol as (_ & _ & [_ Hfl] & _).
    eexists. apply (add_priced cur _ _ MAX_RENTAL_RATE_MINOR_UNITS 1200000000).
    - by rewrite Hud.
    - subst f. split; cbn; [done|lia].
    - unfold MAX_RENTAL_RATE_MINOR_UNITS, MAX_SAFE, Js.MAX_SAFE_INTEGER. lia. }
  eexists _, _. split_and!.
  - unfold priceRental. unfold_result. rewrite Hu, Hfee. cbn [fee]. rewrite Ht. done.
  - unfold inclusiveDailyPrice. rewrite Hday.
    rewrite money_again_ok by (apply (priced_wf cur MAX_RENTAL_RATE_MINOR_UNITS); done).
    unfold_result. rewrite <- Hud, Hfee. cbn [fee]. rewrite Ht. done.
  - done.
  - done.
  - done.
  - done.
Qed.

(** ** The damage excess *)
Record valid_security (cur : CurrencyCode) (policy : DamageSecurityPolicy) : Prop := {
  vs_floor : priced cur 1000000 (excessFloor policy);
  vs_ceiling : priced cur 1000000 (recoveryCeiling policy);
  vs_band : amount (excessFloor policy) <= amount (recoveryCeiling policy);
  vs_percentage : 0 <= excessPercentageBasisPoints policy <= MAX_EXCESS_PERCENTAGE_BASIS_POINTS }.

Lemma appliedExcessFor_ok (cur : CurrencyCode) (policy : DamageSecurityPolicy) (value : Money) :
  valid_security cur policy -> priced cur MAX_CHARGE value ->
  exists e pct, appliedExcessFor policy value = Ok e /\
    percentageOf value (basisPointsToPercent (excessPercentageBasisPoints policy)) half_up
      = Ok (mkMoney pct cur) /\ 0 <= pct <= amount value /\
    currency (excess_amount e) = cur /\
    amount (excess_amount e) =
      Z.min (amount (recoveryCeiling policy)) (Z.max (amount (excessFloor policy)) pct) /\
    amount (excessFloor policy) <= amount (excess_amount e) <= amount (recoveryCeiling policy) /\
    match boundBy e with
    | by_ceiling => amount (recoveryCeiling policy) < pct
    | by_percentage => amount (excessFloor policy) < pct <= amount (recoveryCeiling policy)
    | by_floor => pct <= amount (excessFloor policy)
    end.
Proof.
  intros [Hf Hc Hfc Hbp] Hv. unfold MAX_EXCESS_PERCENTAGE_BASIS_POINTS in Hbp.
  destruct (percentage_ok value _ cur Hbp Hv) as (pct & Hp & Hpb).
  unfold appliedExcessFor. unfold_result.
  rewrite !money_again_ok by (by apply (priced_wf cur 1000000)). rewrite Hp.
  destruct Hf as [Hfcur Hfa], Hc as [Hccur Hca].
  rewrite maxOf_ok by done. cbn [amount].
  destruct (Z.ltb_spec pct (amount (excessFloor policy))) as [H1|H1].
  - rewrite greaterThan_ok by congruence.
    destruct (Z.ltb_spec (amount (recoveryCeiling policy)) (amount (excessFloor policy))); [lia|].
    rewrite greaterThan_ok by done. cbn [amount].
    destruct (Z.ltb_spec (amount (excessFloor policy)) pct); [lia|].
    (eexists _, pct; split; [reflexivity|]; cbn; split_and!; (done || lia)).
  - rewrite greaterThan_ok by done. cbn [amount].
    destruct (Z.ltb_spec (amount (recoveryCeiling policy)) pct).
    + (eexists _, pct; split; [reflexivity|]; cbn; split_and!; (done || lia)).
    + rewrite greaterThan_ok by done. cbn [amount].
      destruct (Z.ltb_spec (amount (excessFloor policy)) pct);
        (eexists _, pct; split; [reflexivity|]; cbn; split_and!; (done || lia)).
Qed.

(** The damage excess is the percentage of the replacement value clamped to the category's
    band, in its currency, and the bound it reports is the one that decided it. *)
Theorem excess_within_band (cur : CurrencyCode) (policy : DamageSecurityPolicy) (value : Money) :
  priced cur 1000000 (excessFloor policy) -> priced cur 1000000 (recoveryCeiling policy) ->
  amount (excessFloor policy) <= amount (recoveryCeiling policy) ->
  0 <= excessPercentageBasisPoints policy <= MAX_EXCESS_PERCENTAGE_BASIS_POINTS ->
  priced cur MAX_CHARGE value ->
  exists e pct, appliedExcessFor policy value = Ok e /\
    percentageOf value (basisPointsToPercent (excessPercentageBasisPoints policy)) half_up
      = Ok (mkMoney pct cur) /\ 0 <= pct <= amount value /\
    currency (excess_amount e) = cur /\
    amount (excess_amount e) =
      Z.min (amount (recoveryCeiling policy)) (Z.max (amount (excessFloor policy)) pct) /\
    amount (excessFloor policy) <= amount (excess_amount e) <= amount (recoveryCeiling policy) /\
    match boundBy e with
    | by_ceiling => amount (recoveryCeiling policy) < pct
    | by_percentage => amount (excessFloor policy) < pct <= amount (recoveryCeiling policy)
    | by_floor => pct <= amount (excessFloor policy)
    end.
Proof. intros Hf Hc Hfc Hbp. by apply appliedExcessFor_ok. Qed.
