(* ===== verification/HireSettlement.v ===== *)
(** * Dividing a hire's money ([apps/api/src/payments/hire-settlement.ts])

    The owner's share is computed, the platform's is derived by subtraction; the
    ledger entries omit a zero share. *)

From S2P Require Import Prelude JsNumber Text Money Ledger Pricing PricingProofs.

#[local] Open Scope string_scope.
#[local] Open Scope list_scope.
#[local] Open Scope Z_scope.

Module HireSettlement.
Import Money Ledger Pricing.

Record HireSettlement : Type := mkSettlement {
  renterPays : Money;
  ownerEarns : Money;
  platformEarns : Money;
  ownerCommission : Money }.

Record HireCharge : Type := mkCharge {
  charge_itemCharge : Money;
  charge_renterFee : Money;
  charge_total : Money }.

#[global] Instance HireCharge_eq_dec : EqDecision HireCharge.
Proof. solve_decision. Defined.

Definition settleHire (charge : HireCharge) (policy : CategoryFeePolicy) : result HireSettlement :=
  let c := currency (charge_total charge) in
  _ ← throw_if (negb (bool_decide (currency (charge_itemCharge charge) = c))
                || negb (bool_decide (currency (charge_renterFee charge) = c)))
        (LedgerError "a hire cannot be settled from amounts in different currencies");
  parts ← add (charge_itemCharge charge) (charge_renterFee charge);
  _ ← throw_if (negb (amount parts =? amount (charge_total charge)))
        (LedgerError "refusing to settle from a row that disagrees with itself");
  ownerCommission ← percentageOf (charge_itemCharge charge)
                      (basisPointsToPercent (ownerCommissionBasisPoints policy)) half_up;
  ownerEarns ← subtract (charge_itemCharge charge) ownerCommission;
  platformEarns ← subtract (charge_total charge) ownerEarns;
  Ok (mkSettlement (charge_total charge) ownerEarns platformEarns ownerCommission).

Definition hireCaptureEntries (s : HireSettlement) (clearing payable revenue : string)
  : result (list LedgerEntryDraft) :=
  let shares :=
    filter (fun sh => amount (share_amount sh) <> 0)
      [mkShare payable (ownerEarns s); mkShare revenue (platformEarns s)] in
  apportion (mkShare clearing (renterPays s)) shares (currency (renterPays s)).

(** ** What a settlement is *)

(** A charge as a stored attempt or a booking carries it. *)
Definition valid_charge (cur : CurrencyCode) (c : HireCharge) : Prop :=
  currency (charge_itemCharge c) = cur /\ currency (charge_renterFee c) = cur /\
  currency (charge_total c) = cur /\
  0 < amount (charge_itemCharge c) /\ 0 <= amount (charge_renterFee c) /\
  amount (charge_total c) = amount (charge_itemCharge c) + amount (charge_renterFee c) /\
  amount (charge_total c) < 2 ^ 31.

Lemma settleHire_ok (cur : CurrencyCode) (c : HireCharge) (policy : CategoryFeePolicy) :
  valid_charge cur c -> 0 <= ownerCommissionBasisPoints policy <= 10000 ->
  exists k, settleHire c policy =
      Ok (mkSettlement (charge_total c) (mkMoney (amount (charge_itemCharge c) - k) cur)
            (mkMoney (amount (charge_renterFee c) + k) cur) (mkMoney k cur)) /\
    0 <= k <= amount (charge_itemCharge c) /\
    percentageOf (charge_itemCharge c) (basisPointsToPercent (ownerCommissionBasisPoints policy))
      half_up = Ok (mkMoney k cur).
Proof.
  intros (Hi & Hf & Ht & Hip & Hfp & Hsum & Hmax) Hbp.
  assert (priced cur MAX_CHARGE (charge_itemCharge c)) as Hp by (unfold MAX_CHARGE; split; [done|lia]).
  destruct (percentage_ok _ _ cur Hbp Hp) as (k & Hk & Hkb).
  exists k. split_and!; [|lia|lia|done].
  unfold settleHire. unfold_result. rewrite Hi, Hf, Ht, !bool_decide_eq_true_2 by done. cbn [negb orb].
  rewrite (add_priced cur _ _ (2 ^ 31) (2 ^ 31));
    [|by split; [|lia]|by split; [|lia]|unfold MAX_SAFE, Js.MAX_SAFE_INTEGER; lia].
  cbn [amount]. rewrite <- Hsum, Z.eqb_refl. cbn [negb]. rewrite Hk.
  assert (forall a b m, currency a = cur -> currency b = cur -> amount a - amount b = m ->
            - 2 ^ 32 <= m <= 2 ^ 32 -> subtract a b = Ok (mkMoney m cur)) as Hsub.
  { intros a b m Ha Hb <- Hm. apply subtract_ok. rewrite Ha, Hb. split_and!; [done| |done].
    apply is_safe_iff. unfold Js.MAX_SAFE_INTEGER. lia. }
  rewrite (Hsub _ (mkMoney k cur) (amount (charge_itemCharge c) - k)) by (cbn; done || lia).
  rewrite (Hsub _ _ (amount (charge_renterFee c) + k)) by (cbn; done || lia). done.
Qed.

Lemma settleHire_parts (c : HireCharge) (policy : CategoryFeePolicy) (s : HireSettlement) :
  settleHire c policy = Ok s ->
  renterPays s = charge_total c /\
  currency (charge_itemCharge c) = currency (charge_total c) /\
  currency (charge_renterFee c) = currency (charge_total c) /\
  amount (charge_itemCharge c) + amount (charge_renterFee c) = amount (charge_total c) /\
  amount (ownerEarns s) + amount (platformEarns s) = amount (charge_total c) /\
  currency (ownerEarns s) = currency (charge_total c) /\
  currency (platformEarns s) = currency (charge_total c).
Proof.
  unfold settleHire. unfold_result.
  case_bool_decide as Hi; [|done]. case_bool_decide as Hf; [|done]. cbn [negb orb].
  destruct (add _ _) as [parts|] eqn:Hadd; [|done].
  destruct (Z.eqb_spec (amount parts) (amount (charge_total c))) as [Hp|]; [|done]. cbn [negb].
  destruct (percentageOf _ _ _) as [k|]; [|done].
  destruct (subtract (charge_itemCharge c) k) as [o|] eqn:Ho; [|done].
  destruct (subtract (charge_total c) o) as [p|] eqn:Hpl; [|done].
  intros [= <-]. cbn.
  apply add_ok in Hadd as (_ & _ & ->). apply subtract_ok in Ho as (_ & _ & ->), Hpl as (_ & _ & ->).
  cbn in *. split_and!; try done; lia.
Qed.

Lemma on_side_cons (d : LedgerDirection) (e : LedgerEntryDraft) (es : list LedgerEntryDraft) :
  on_side d (e :: es) =
  (if decide (direction e = d) then [entry_amount e] else []) ++ on_side d es.
Proof.
  unfold on_side. destruct (decide (direction e = d)).
  - by rewrite filter_cons_True by done.
  - by rewrite filter_cons_False by done.
Qed.

Lemma credit_side (l : list Share) :
  on_side credit ((fun sh => mkEntry (share_accountId sh) credit (share_amount sh)) <$> l)
  = share_amount <$> l.
Proof. induction l as [|x l IH]; [done|]. cbn [fmap list_fmap]. by rewrite on_side_cons, IH. Qed.

Lemma debit_side (l : list Share) :
  on_side debit ((fun sh => mkEntry (share_accountId sh) credit (share_amount sh)) <$> l) = [].
Proof. induction l as [|x l IH]; [done|]. cbn [fmap list_fmap]. by rewrite on_side_cons, IH. Qed.

(** The entries of a settled hire always make a postable transaction. *)
Lemma capture_entries_ok (cur : CurrencyCode) (s : HireSettlement) (clearing payable revenue : string) :
  currency (renterPays s) = cur -> currency (ownerEarns s) = cur -> currency (platformEarns s) = cur ->
  0 < amount (renterPays s) <= MAX_SAFE -> 0 <= amount (ownerEarns s) -> 0 <= amount (platformEarns s) ->
  amount (ownerEarns s) + amount (platformEarns s) = amount (renterPays s) ->
  exists es, hireCaptureEntries s clearing payable revenue = Ok es /\
    (2 <= length es)%nat /\
    Forall (fun e => currency (entry_amount e) = cur /\ 0 < amount (entry_amount e)) es /\
    Money.total_of (on_side debit es) = amount (renterPays s) /\
    Money.total_of (on_side credit es) = amount (renterPays s) /\
    Forall (fun e => accountId e = clearing \/ accountId e = payable \/ accountId e = revenue) es.
Proof.
  unfold MAX_SAFE. intros Hr Ho Hp Ht Ho0 Hp0 Hsum. unfold hireCaptureEntries, apportion. cbn [share_amount].
  set (shares := filter _ _).
  assert (Forall (fun sh => currency (share_amount sh) = cur /\ 0 < amount (share_amount sh) /\
                            (share_accountId sh = payable \/ share_accountId sh = revenue)) shares
          /\ Money.total_of (share_amount <$> shares) = amount (renterPays s)
          /\ shares <> []) as (Hall & Htot & Hne).
  { subst shares. rewrite !filter_cons, filter_nil. cbn [share_amount].
    repeat case_decide; cbn; split_and!; try done;
      repeat (apply Forall_cons; split; cbn); try apply Forall_nil; try done; try lia;
      split_and!; auto; lia. }
  assert (sum (share_amount <$> shares) (currency (renterPays s)) =
          Ok (mkMoney (amount (renterPays s)) (currency (renterPays s)))) as Hs.
  { rewrite <- Htot. apply sum_total; [|lia]. rewrite Forall_fmap.
    eapply Forall_impl; [exact Hall|]. cbn. intros sh (? & ? & _). split; [congruence|lia]. }
  rewrite Hs. cbn [mbind result_bind amount share_amount]. rewrite Z.eqb_refl. cbn [negb].
  eexists. split; [done|].
  rewrite !on_side_cons. cbn [direction]. rewrite (credit_side shares), (debit_side shares).
  split_and!.
  - destruct shares; [done|]. cbn. lia.
  - apply Forall_cons. split; [cbn; split; [done|lia]|].
    rewrite Forall_fmap. eapply Forall_impl; [exact Hall|]. cbn. tauto.
  - rewrite decide_True, app_nil_r, total_of_cons by done. cbn [entry_amount]. unfold total_of. cbn.
    lia.
  - done.
  - apply Forall_cons. split; [by left|]. rewrite Forall_fmap.
    eapply Forall_impl; [exact Hall|]. cbn. tauto.
Qed.

Lemma hireCaptureEntries_shape (s : HireSettlement) (clearing payable revenue : string)
    (es : list LedgerEntryDraft) :
  hireCaptureEntries s clearing payable revenue = Ok es ->
  Money.total_of (on_side debit es) = amount (renterPays s) /\
  Forall (fun e => (accountId e = clearing /\ entry_amount e = renterPays s) \/
                   (accountId e = payable /\ entry_amount e = ownerEarns s) \/
                   (accountId e = revenue /\ entry_amount e = platformEarns s)) es.
Proof.
  unfold hireCaptureEntries, apportion. cbn [share_amount share_accountId].
  set (shares := filter _ _).
  assert (Forall (fun sh => (share_accountId sh = payable /\ share_amount sh = ownerEarns s) \/
                            (share_accountId sh = revenue /\ share_amount sh = platformEarns s)) shares)
    as Hall.
  { apply Forall_forall. intros sh [_ Hin]%list_elem_of_filter.
    apply elem_of_cons in Hin as [->| ->%list_elem_of_singleton]; cbn; auto. }
  destruct (sum (share_amount <$> shares) (currency (renterPays s))) as [t|] eqn:Hs; [|done].
  cbn [mbind result_bind]. destruct (negb _); [done|]. intros [= <-]. split.
  - rewrite on_side_cons, debit_side, decide_True, app_nil_r, total_of_cons by done.
    cbn [entry_amount]. unfold total_of. cbn. lia.
  - apply Forall_cons. split; [by left|]. rewrite Forall_fmap.
    eapply Forall_impl; [exact Hall|]. cbn. tauto.
Qed.

(** Settling a consistent hire always succeeds and neither loses nor invents a penny: owner
    and platform together get exactly what the renter pays, the owner's part and the
    commission are the item charge, and the commission lies between zero and the item
    charge, whatever the binary64 percentage rounds to. *)
Theorem settlement_conserves (cur : CurrencyCode) (c : HireCharge) (policy : CategoryFeePolicy) :
  valid_charge cur c -> valid_policy cur policy ->
  exists s, settleHire c policy = Ok s /\ renterPays s = charge_total c /\
    amount (ownerEarns s) + amount (platformEarns s) = amount (charge_total c) /\
    amount (ownerEarns s) + amount (ownerCommission s) = amount (charge_itemCharge c) /\
    amount (platformEarns s) = amount (charge_renterFee c) + amount (ownerCommission s) /\
    0 <= amount (ownerCommission s) <= amount (charge_itemCharge c).
Proof.
  intros Hc (Hbp & _). unfold MAX_FEE_BASIS_POINTS in Hbp.
  destruct (settleHire_ok cur c policy Hc) as (k & Hs & Hk & _); [lia|].
  eexists. split; [exact Hs|]. cbn. destruct Hc as (_ & _ & _ & _ & _ & Hsum & _).
  split_and!; done || lia.
Qed.

(** Every consistent hire under a valid fee policy settles, its entries are built, and the
    ledger's rules accept them: they balance at exactly the total the renter pays, even
    where the platform's or the owner's share is zero. *)
Theorem settled_hire_is_postable (cur : CurrencyCode) (c : HireCharge) (policy : CategoryFeePolicy)
    (clearing payable revenue key booking : string) (t : instant) :
  valid_charge cur c -> valid_policy cur policy -> trim key <> "" ->
  exists s es, settleHire c policy = Ok s /\
    hireCaptureEntries s clearing payable revenue = Ok es /\
    assertPostable (mkDraft key hire_charge_captured cur (Some booking) t es None) = Ok tt /\
    Money.total_of (on_side debit es) = amount (charge_total c).
Proof.
  intros Hc (Hbp & _) Hkey. unfold MAX_FEE_BASIS_POINTS in Hbp.
  destruct (settleHire_ok cur c policy Hc) as (k & Hs & Hk & _); [lia|].
  destruct Hc as (_ & _ & Hcur & Hi & Hf & Hsum & Hmax).
  set (s := mkSettlement _ _ _ _) in Hs.
  destruct (capture_entries_ok cur s clearing payable revenue)
    as (es & Hes & H2 & Hall & Hd & Hcr & _); try (subst s; cbn; done || lia).
  { subst s. cbn. unfold MAX_SAFE, Js.MAX_SAFE_INTEGER. lia. }
  exists s, es. split_and!; [done|done| |exact Hd].
  assert (amount (renterPays s) = amount (charge_total c)) as Hpays by done.
  apply assertPostable_complete.
  - constructor; cbn [entries idempotencyKey draft_currency]; [done|done|done|lia].
  - split; cbn [entries]; unfold Js.MAX_SAFE_INTEGER; lia.
Qed.

(** A charge whose parts do not add up to its total is never settled. *)
Theorem settlement_refuses_inconsistent (c : HireCharge) (policy : CategoryFeePolicy) :
  amount (charge_itemCharge c) + amount (charge_renterFee c) <> amount (charge_total c) ->
  is_ok (settleHire c policy) = false.
Proof.
  intros Hne. destruct (settleHire c policy) as [s|e] eqn:Hs; [|done].
  exfalso. apply Hne. by destruct (settleHire_parts c policy s Hs) as (_ & _ & _ & ? & _).
Qed.

End HireSettlement.
