(* ===== verification/PaymentIntent.v ===== *)
(** * Payment attempts ([apps/api/src/payments/payment-intent.ts] and
    [payment-provider.ts])

    The vocabulary of an attempt, which outcome may follow which status, the
    refusal of a reused key, and the keys themselves. *)

From S2P Require Import Prelude JsNumber Text Money Ledger.
From Stdlib Require Import Ascii.

#[local] Open Scope string_scope.
#[local] Open Scope list_scope.
#[local] Open Scope Z_scope.

Module PaymentIntent.
Import Money.

(** ** Vocabulary *)
Inductive PaymentIntentPurpose : Type := hire_charge | damage_security.

Inductive PaymentIntentStatus : Type :=
  initiated | pending_payer_action | processing | succeeded | failed.

(** [PaymentAttemptStatus]: what a provider reports. *)
Inductive PaymentAttemptStatus : Type :=
  reported_pending_payer_action | reported_processing | reported_succeeded | reported_failed.

#[global] Instance PaymentIntentPurpose_eq_dec : EqDecision PaymentIntentPurpose.
Proof. solve_decision. Defined.
#[global] Instance PaymentIntentStatus_eq_dec : EqDecision PaymentIntentStatus.
Proof. solve_decision. Defined.

(** Both unions are strings in the code; a reported status is one of ours. *)
Definition status_of (s : PaymentAttemptStatus) : PaymentIntentStatus :=
  match s with
  | reported_pending_payer_action => pending_payer_action
  | reported_processing => processing
  | reported_succeeded => succeeded
  | reported_failed => failed
  end.

Definition TERMINAL_STATUSES : list PaymentIntentStatus := [succeeded; failed].
Definition isTerminal (s : PaymentIntentStatus) : bool := bool_decide (s ∈ TERMINAL_STATUSES).

Inductive FailureReason : Type := declined | authentication_failed | provider_error.
Record PaymentFailure : Type := mkFailure { reason : FailureReason; message : string }.

#[global] Instance FailureReason_eq_dec : EqDecision FailureReason.
Proof. solve_decision. Defined.
#[global] Instance PaymentFailure_eq_dec : EqDecision PaymentFailure.
Proof. solve_decision. Defined.

(** The union on [purpose]: a charge divides, a hold does not. *)
Inductive Division : Type :=
  | divides (itemCharge renterFee : Money)
  | holds.

#[global] Instance Division_eq_dec : EqDecision Division.
Proof. solve_decision. Defined.

Definition purposeOf (d : Division) : PaymentIntentPurpose :=
  match d with divides _ _ => hire_charge | holds => damage_security end.

Record NewPaymentIntent : Type := mkNew {
  new_bookingId : string;
  new_attemptKey : string;
  new_ownerId : string;
  new_categoryVersionId : string;
  new_division : Division;
  new_amount : Money;
  new_provider : string }.

Record PaymentIntentRecord : Type := mkRecord {
  id : string;
  bookingId : string;
  attemptKey : string;
  status : PaymentIntentStatus;
  provider : string;
  providerReference : option string;
  intent_amount : Money;
  authorisationExpiresAt : option instant;
  failure : option PaymentFailure;
  createdAt : instant;
  updatedAt : instant;
  ownerId : string;
  categoryVersionId : string;
  division : Division }.

Record PaymentIntentOutcome : Type := mkOutcome {
  outcome_status : PaymentAttemptStatus;
  outcome_reference : string;
  outcome_expiresAt : option instant;
  outcome_failure : option PaymentFailure }.

(** ** The provider's side of the port *)
Record PaymentAttempt : Type := mkAttempt {
  att_providerReference : string;
  att_status : PaymentAttemptStatus;
  payerAction : option string;
  att_failure : option PaymentFailure;
  att_occurredAt : option instant;
  att_expiresAt : option instant }.

Record PaymentRequest : Type := mkRequest {
  req_idempotencyKey : string;
  req_amount : Money;
  description : string }.

(** A provider is third-party code with a state of its own. *)
Class PaymentProvider (P : Type) : Type := {
  provider_name : string;
  provider_begin : PaymentRequest -> M P PaymentAttempt;
  provider_read : string -> M P PaymentAttempt;
  provider_hold : PaymentRequest -> M P PaymentAttempt }.

(** [NoPaymentProvider]: every method throws. *)
Definition refusal : error := PaymentIntentError "no payment provider is configured".

Definition NoPaymentProvider : PaymentProvider () := {|
  provider_name := "none";
  provider_begin := fun _ => throw refusal;
  provider_read := fun _ => throw refusal;
  provider_hold := fun _ => throw refusal |}.

(** ** The rules *)
Inductive OutcomeDisposition : Type := apply_ | ignore.

Definition dispositionOf (current : PaymentIntentStatus) (arriving : PaymentAttemptStatus)
  : result OutcomeDisposition :=
  if bool_decide (current = status_of arriving) then Ok ignore
  else if isTerminal current then
    Err (PaymentIntentError "a settled attempt is the last word, and a retry is a new attempt")
  else Ok apply_.

Definition dividesDifferently (proposed : NewPaymentIntent) (found : PaymentIntentRecord) : bool :=
  match new_division proposed, division found with
  | divides pi pf, divides fi ff =>
      negb (amount fi =? amount pi) || negb (amount ff =? amount pf)
  | _, _ => false
  end.

Definition assertSameAttempt (proposed : NewPaymentIntent) (found : PaymentIntentRecord)
  : result PaymentIntentRecord :=
  let differs :=
    negb (bool_decide (bookingId found = new_bookingId proposed))
    || negb (bool_decide (purposeOf (division found) = purposeOf (new_division proposed)))
    || negb (bool_decide (ownerId found = new_ownerId proposed))
    || negb (bool_decide (categoryVersionId found = new_categoryVersionId proposed))
    || negb (amount (intent_amount found) =? amount (new_amount proposed))
    || negb (bool_decide (currency (intent_amount found) = currency (new_amount proposed)))
    || dividesDifferently proposed found in
  if differs then Err (PaymentIntentError "has already been used for a different payment")
  else Ok found.

(** ** Keys *)
Definition hireAttemptKey (booking : string) (failedAttempts : nat) : string :=
  "hire:" +:+ booking +:+ ":" +:+ str (print_Z (Z.of_nat failedAttempts)).
Definition securityHoldKey (booking : string) (failedAttempts : nat) : string :=
  "security:" +:+ booking +:+ ":" +:+ str (print_Z (Z.of_nat failedAttempts)).
Definition hireCaptureKey (booking : string) : string := "hire-capture:" +:+ booking.

(** ** Theorems about the rules *)
Lemma chars_cons_append (c : ascii) (s t : string) : chars (String c s +:+ t) = c :: chars (s +:+ t).
Proof. done. Qed.

Lemma attempt_key_suffix (b1 b2 : string) (n1 n2 : nat) :
  chars (b1 +:+ ":" +:+ str (print_Z (Z.of_nat n1))) =
  chars (b2 +:+ ":" +:+ str (print_Z (Z.of_nat n2))) -> b1 = b2 /\ n1 = n2.
Proof.
  rewrite !chars_append, !chars_str. cbn [chars app]. intros H.
  assert (is_digit ":"%char = false) as Hc by by vm_compute.
  apply app_sep_inj_r in H as [Hb Hn]; [|by apply print_Z_plain..].
  apply chars_inj in Hb. apply print_Z_inj in Hn. split; [done|lia].
Qed.

(** An outcome is ignored when it is the status the attempt already has, refused when the
    attempt has ended with the other terminal status, and applied in every other case. *)
Theorem terminal_is_the_last_word (current : PaymentIntentStatus) (arriving : PaymentAttemptStatus) :
  match dispositionOf current arriving with
  | Ok ignore => current = status_of arriving
  | Ok apply_ => current <> status_of arriving /\ current <> succeeded /\ current <> failed
  | Err _ => (current = succeeded \/ current = failed) /\ current <> status_of arriving
  end.
Proof. destruct current, arriving; vm_compute; intuition discriminate. Qed.

(** The keys of attempts, holds and captures tell bookings and attempt numbers apart, and a
    hold's key is never an attempt's. *)
Theorem attempt_keys_never_collide (b1 b2 : string) (n1 n2 : nat) :
  (hireAttemptKey b1 n1 = hireAttemptKey b2 n2 <-> b1 = b2 /\ n1 = n2) /\
  (securityHoldKey b1 n1 = securityHoldKey b2 n2 <-> b1 = b2 /\ n1 = n2) /\
  hireAttemptKey b1 n1 <> securityHoldKey b2 n2 /\
  (hireCaptureKey b1 = hireCaptureKey b2 <-> b1 = b2).
Proof.
  unfold hireAttemptKey, securityHoldKey, hireCaptureKey. split_and!.
  - split; [|by intros [-> ->]]. intros H. apply (f_equal chars) in H.
    rewrite !(chars_append "hire:") in H. apply app_inv_head in H. by apply attempt_key_suffix.
  - split; [|by intros [-> ->]]. intros H. apply (f_equal chars) in H.
    rewrite !(chars_append "security:") in H. apply app_inv_head in H. by apply attempt_key_suffix.
  - done.
  - split; [|by intros ->]. intros H. apply (f_equal chars) in H.
    rewrite !(chars_append "hire-capture:") in H. apply app_inv_head in H. by apply chars_inj.
Qed.

Lemma assertSameAttempt_ok (n : NewPaymentIntent) (r r' : PaymentIntentRecord) :
  assertSameAttempt n r = Ok r' ->
  r' = r /\ bookingId r = new_bookingId n /\ purposeOf (division r) = purposeOf (new_division n) /\
  ownerId r = new_ownerId n /\ categoryVersionId r = new_categoryVersionId n /\
  intent_amount r = new_amount n.
Proof.
  unfold assertSameAttempt.
  destruct (Z.eqb_spec (amount (intent_amount r)) (amount (new_amount n))); cbn [negb];
    repeat case_bool_decide; cbn [negb orb]; try done.
  destruct (dividesDifferently n r); [done|]. intros [= <-]. split_and!; try done.
  destruct (intent_amount r), (new_amount n). cbn in *. congruence.
Qed.

End PaymentIntent.
