(* ===== verification/IntentStore.v ===== *)
(** * Payment attempts in Postgres
    ([apps/api/src/payments/prisma-payment-intent-store.ts] and the migrations
    [20260821140000_payment_intents] and [payment_intent_hold_does_not_divide])

    [Module IntentDb]: the table with its CHECKs and unique indexes, and the
    adapter.  Rows are never deleted.  The foreign keys point at other tables;
    [references] stands for them. *)

From S2P Require Import Prelude JsNumber Text Money Ledger LedgerStore PaymentIntent.
From Stdlib Require Import Ascii.

#[local] Open Scope string_scope.
#[local] Open Scope list_scope.
#[local] Open Scope Z_scope.

Module IntentDb.
Import Money PaymentIntent.
Import LedgerDb (btrim_empty, fits_int4).

(** ** Rows *)
Record IntentRow : Type := mkRow {
  row_id : string;
  row_bookingId : string;
  row_ownerId : string;
  row_categoryVersionId : string;
  purpose : PaymentIntentPurpose;
  row_attemptKey : string;
  row_status : PaymentIntentStatus;
  row_provider : string;
  row_providerReference : option string;
  itemChargeMinor : option Z;
  renterFeeMinor : option Z;
  amountMinor : Z;
  row_currency : string;
  row_expiresAt : option instant;
  failureReason : option FailureReason;
  failureMessage : option string;
  row_createdAt : instant;
  row_updatedAt : instant }.

#[global] Instance IntentRow_eq_dec : EqDecision IntentRow.
Proof. solve_decision. Defined.

(** [intent_seq] counts the ids generated so far. *)
Record Db : Type := mkDb { rows : list IntentRow; intent_seq : nat }.
Definition empty_db : Db := mkDb [] 0.

(** ** The constraints of the migrations *)
Definition divides_only_if_it_is_a_charge (r : IntentRow) : bool :=
  match purpose r, itemChargeMinor r, renterFeeMinor r with
  | hire_charge, Some i, Some f => (0 <? i) && (0 <=? f) && (i + f =? amountMinor r)
  | damage_security, None, None => true
  | _, _, _ => false
  end.

Definition fits_columns (r : IntentRow) : bool :=
  fits_int4 (amountMinor r) &&
  match itemChargeMinor r with Some i => fits_int4 i | None => true end &&
  match renterFeeMinor r with Some f => fits_int4 f | None => true end.

(** The CHECKs of one row, first match. *)
Definition row_refusal (r : IntentRow) : option string :=
  if negb (fits_columns r) then Some "integer out of range"
  else if btrim_empty (row_attemptKey r) then Some "attempt_key_is_present"
  else if amountMinor r <=? 0 then Some "intent_amount_is_positive"
  else if negb (divides_only_if_it_is_a_charge r) then Some "intent_divides_only_if_it_is_a_charge"
  else if bool_decide (row_status r = succeeded /\ row_providerReference r = None)
  then Some "succeeded_intent_has_a_provider_reference"
  else if bool_decide (row_status r = failed /\ failureReason r = None)
  then Some "failed_intent_has_a_reason"
  else None.

(** [one_succeeded_intent_per_booking_and_purpose], against the other rows. *)
Definition clashes (r r' : IntentRow) : bool :=
  bool_decide (row_status r = succeeded /\ row_status r' = succeeded /\ row_id r <> row_id r' /\
               row_bookingId r = row_bookingId r' /\ purpose r = purpose r').

(** ** Reading a row back *)
Definition toFailure (r : IntentRow) : option PaymentFailure :=
  match failureReason r with
  | None => None
  | Some why =>
      Some (mkFailure why
        match failureMessage r with
        | Some m => m
        | None => "That payment could not be completed. Please try again."
        end)
  end.

Definition record_of (r : IntentRow) (amt : Money) (d : Division) : PaymentIntentRecord := {|
  id := row_id r;
  bookingId := row_bookingId r;
  attemptKey := row_attemptKey r;
  status := row_status r;
  provider := row_provider r;
  providerReference := row_providerReference r;
  intent_amount := amt;
  authorisationExpiresAt := row_expiresAt r;
  failure := toFailure r;
  createdAt := row_createdAt r;
  updatedAt := row_updatedAt r;
  ownerId := row_ownerId r;
  categoryVersionId := row_categoryVersionId r;
  division := d |}.

Definition toRecord (r : IntentRow) : result PaymentIntentRecord :=
  amt ← money (amountMinor r) (row_currency r);
  match purpose r with
  | damage_security => Ok (record_of r amt holds)
  | hire_charge =>
      match itemChargeMinor r, renterFeeMinor r with
      | Some i, Some f =>
          item ← money i (row_currency r);
          fee ← money f (row_currency r);
          Ok (record_of r amt (divides item fee))
      | _, _ => Err (PaymentIntentError "is a hire charge with no division")
      end
  end.

Section Store.
Context {Ids : UuidSource}.

(** Whether the rows of other tables a row points at exist. *)
Variable references : IntentRow -> bool.
(** What other connections commit between a read and a write. *)
Variable rival : Db -> Db.

Definition by_attempt_key (key : string) (db : Db) : option IntentRow :=
  find_by row_attemptKey key (rows db).
Definition by_row_id (i : string) (db : Db) : option IntentRow := find_by row_id i (rows db).

(** ** Writing *)
Definition row_for (n : NewPaymentIntent) (db : Db) (t : instant) : IntentRow := {|
  row_id := uuid (intent_seq db);
  row_bookingId := new_bookingId n;
  row_ownerId := new_ownerId n;
  row_categoryVersionId := new_categoryVersionId n;
  purpose := purposeOf (new_division n);
  row_attemptKey := new_attemptKey n;
  row_status := initiated;
  row_provider := new_provider n;
  row_providerReference := None;
  itemChargeMinor := match new_division n with divides i _ => Some (amount i) | holds => None end;
  renterFeeMinor := match new_division n with divides _ f => Some (amount f) | holds => None end;
  amountMinor := amount (new_amount n);
  row_currency := currency (new_amount n);
  row_expiresAt := None;
  failureReason := None;
  failureMessage := None;
  row_createdAt := t;
  row_updatedAt := t |}.

Definition insert (n : NewPaymentIntent) (t : instant) : M Db IntentRow := fun db =>
  let r := row_for n db t in
  if bool_decide (is_Some (by_attempt_key (row_attemptKey r) db)) then
    (db, Err (DatabaseError "payment_intents_attemptKey_key"))
  else if negb (references r) then (db, Err (DatabaseError "payment_intents_fkey"))
  else
    match row_refusal r with
    | Some c => (db, Err (DatabaseError c))
    | None => (mkDb (rows db ++ [r]) (S (intent_seq db)), Ok r)
    end.

Definition with_outcome (o : PaymentIntentOutcome) (t : instant) (r : IntentRow) : IntentRow := {|
  row_id := row_id r;
  row_bookingId := row_bookingId r;
  row_ownerId := row_ownerId r;
  row_categoryVersionId := row_categoryVersionId r;
  purpose := purpose r;
  row_attemptKey := row_attemptKey r;
  row_status := status_of (outcome_status o);
  row_provider := row_provider r;
  row_providerReference := Some (outcome_reference o);
  itemChargeMinor := itemChargeMinor r;
  renterFeeMinor := renterFeeMinor r;
  amountMinor := amountMinor r;
  row_currency := row_currency r;
  row_expiresAt := match outcome_expiresAt o with Some e => Some e | None => row_expiresAt r end;
  failureReason := match outcome_failure o with Some f => Some (reason f) | None => failureReason r end;
  failureMessage := match outcome_failure o with Some f => Some (message f) | None => failureMessage r end;
  row_createdAt := row_createdAt r;
  row_updatedAt := t |}.

Definition replace (r' : IntentRow) (l : list IntentRow) : list IntentRow :=
  (fun r => if decide (row_id r = row_id r') then r' else r) <$> l.

Definition update (i : string) (o : PaymentIntentOutcome) (t : instant) : M Db IntentRow := fun db =>
  match by_row_id i db with
  | None => (db, Err (DatabaseError "record to update not found"))
  | Some r =>
      let r' := with_outcome o t r in
      match row_refusal r' with
      | Some c => (db, Err (DatabaseError c))
      | None =>
          if existsb (clashes r') (rows db) then
            (db, Err (DatabaseError "one_succeeded_intent_per_booking_and_purpose"))
          else (mkDb (replace r' (rows db)) (intent_seq db), Ok r')
      end
  end.

(** ** [PrismaPaymentIntentStore] *)
Definition begin (n : NewPaymentIntent) (t : instant) : M Db PaymentIntentRecord :=
  existing ← gets (by_attempt_key (new_attemptKey n));
  match existing with
  | Some r => lift (toRecord r)
  | None =>
      _ ← modify rival;
      catch (r ← insert n t; lift (toRecord r))
        (fun _ =>
           raced ← gets (by_attempt_key (new_attemptKey n));
           match raced with
           | Some r => lift (toRecord r)
           | None => throw (PaymentIntentError "the database refused a payment attempt")
           end)
  end.

Definition recordOutcome (i : string) (o : PaymentIntentOutcome) (t : instant)
  : M Db PaymentIntentRecord :=
  catch (r ← update i o t; lift (toRecord r))
    (fun _ => throw (PaymentIntentError "the database refused the outcome")).

Definition findById (i : string) : M Db (option PaymentIntentRecord) :=
  row ← gets (by_row_id i);
  match row with
  | None => mret None
  | Some r => x ← lift (toRecord r); mret (Some x)
  end.

(** [ORDER BY createdAt DESC] and [ORDER BY updatedAt ASC]. *)
Definition newest_first (r r' : IntentRow) : Prop := row_createdAt r' <= row_createdAt r.
Definition stalest_first (r r' : IntentRow) : Prop := row_updatedAt r <= row_updatedAt r'.
#[global] Instance newest_first_dec : RelDecision newest_first.
Proof. unfold newest_first. intros r r'. apply _. Defined.
#[global] Instance stalest_first_dec : RelDecision stalest_first.
Proof. unfold stalest_first. intros r r'. apply _. Defined.

Definition findForBooking (booking : string) : M Db (list PaymentIntentRecord) :=
  found ← gets (fun db =>
    merge_sort newest_first (filter (fun r => row_bookingId r = booking) (rows db)));
  lift (try_map toRecord found).

Definition findUnsettled (notUpdatedSince : instant) (limit : nat) : M Db (list PaymentIntentRecord) :=
  found ← gets (fun db =>
    take limit (merge_sort stalest_first
      (filter (fun r => row_status r ∉ TERMINAL_STATUSES /\ row_updatedAt r < notUpdatedSince)
         (rows db))));
  lift (try_map toRecord found).
End Store.
End IntentDb.
