(* ===== verification/Payments.v ===== *)
(** * Taking money for a hire ([apps/api/src/payments/payments.service.ts],
    [reconciliation.service.ts])

    [Module Payments]: [PaymentsService] over a world that holds the ledger, the
    attempts and the provider's own state.  Between any two [await]s another
    request may commit; [rival] is what it commits.  A store's own read-then-write
    is one step here: racing inside it equals racing before it
    ([PaymentsRace]).  [Module Reconciliation]: the
    sweep. *)

From S2P Require Import Prelude JsNumber Text Money Ledger LedgerStore Pricing HireSettlement.
From S2P Require Import PaymentIntent IntentStore.
From Stdlib Require Import Ascii.

#[local] Open Scope string_scope.
#[local] Open Scope list_scope.
#[local] Open Scope Z_scope.

Module Payments.
Import Money PaymentIntent HireSettlement Pricing.

(** ** The world *)
Record World {P : Type} : Type := mkWorld {
  ledger : LedgerDb.Db;
  intents : IntentDb.Db;
  psp : P }.
Arguments World P : clear implicits.
Arguments mkWorld {P}.

(** [this.now()] *)
Definition now {P} (w : World P) : instant := LedgerDb.clock (ledger w).

Definition on_ledger {P A} (m : M LedgerDb.Db A) : M (World P) A := fun w =>
  let (s, r) := m (ledger w) in (mkWorld s (intents w) (psp w), r).
Definition on_intents {P A} (m : M IntentDb.Db A) : M (World P) A := fun w =>
  let (s, r) := m (intents w) in (mkWorld (ledger w) s (psp w), r).
Definition on_psp {P A} (m : M P A) : M (World P) A := fun w =>
  let (s, r) := m (psp w) in (mkWorld (ledger w) (intents w) s, r).

Record HirePaymentInstruction : Type := mkHireInstruction {
  ins_bookingId : string;
  ins_ownerId : string;
  ins_charge : HireCharge;
  ins_categoryVersionId : string;
  itemTitle : string }.

Record DamageSecurityInstruction : Type := mkSecurityInstruction {
  sec_bookingId : string;
  sec_ownerId : string;
  sec_categoryVersionId : string;
  excess : option Money;
  sec_itemTitle : string }.

(** [payerAction] is passed through from the attempt. *)
Record HirePaymentOutcome : Type := mkPaid {
  intent : PaymentIntentRecord;
  paid_payerAction : option string }.

Inductive DamageSecurityOutcome : Type :=
  | not_required
  | attempted (held : PaymentIntentRecord) (action : option string).

Section Service.
Context {Ids : UuidSource} {P : Type} {Provider : PaymentProvider P}.

(** [CategoryFeePolicySource.findFeePolicy]: the versions table is immutable. *)
Variable findFeePolicy : string -> option CategoryFeePolicy.
Variable references : IntentDb.IntentRow -> bool.

Section Race.
Variable rival : World P -> World P.

(** [await]: whatever else commits before this request runs again. *)
Definition await : M (World P) () := modify rival.

(** [settleHire]'s [LedgerError] is translated. *)
Definition settle (bookingId categoryVersionId : string) (charge : HireCharge)
  : M (World P) HireSettlement :=
  match findFeePolicy categoryVersionId with
  | None => throw (PaymentIntentError "pins a category version which cannot be found")
  | Some policy =>
      match settleHire charge policy with
      | Ok s => mret s
      | Err (LedgerError _) => throw (PaymentIntentError "cannot be settled")
      | Err e => throw e
      end
  end.

Definition attemptsFor (booking : string) : M (World P) (list PaymentIntentRecord) :=
  on_intents (IntentDb.findForBooking booking).

Definition failures (p : PaymentIntentPurpose) (attempts : list PaymentIntentRecord) : nat :=
  length (filter (fun a => purposeOf (division a) = p /\ status a = failed) attempts).

Definition attemptKeyFor (booking : string) (p : PaymentIntentPurpose) : M (World P) string :=
  attempts ← on_intents (IntentDb.findForBooking booking);
  mret (match p with
        | hire_charge => hireAttemptKey booking (failures p attempts)
        | damage_security => securityHoldKey booking (failures p attempts)
        end).

(** The entries are computed before [ledger.post] is called. *)
Definition postCapture (i : PaymentIntentRecord) (item fee : Money) (a : PaymentAttempt)
  : M (World P) () :=
  s ← settle (bookingId i) (categoryVersionId i) (mkCharge item fee (intent_amount i));
  let c := currency (renterPays s) in
  _ ← await;
  clearing ← on_ledger (LedgerService.accountFor Datatypes.id
               (Ledger.mkSpec Ledger.provider_clearing c None));
  _ ← await;
  payable ← on_ledger (LedgerService.accountFor Datatypes.id
               (Ledger.mkSpec Ledger.owner_payable c (Some (ownerId i))));
  _ ← await;
  revenue ← on_ledger (LedgerService.accountFor Datatypes.id
               (Ledger.mkSpec Ledger.platform_revenue c None));
  _ ← await;
  t ← gets now;
  es ← lift (hireCaptureEntries s (LedgerDb.acc_id clearing) (LedgerDb.acc_id payable)
               (LedgerDb.acc_id revenue));
  _ ← on_ledger (LedgerService.post Datatypes.id
        {| Ledger.idempotencyKey := hireCaptureKey (bookingId i);
           Ledger.draft_kind := Ledger.hire_charge_captured;
           Ledger.draft_currency := c;
           Ledger.bookingId := Some (bookingId i);
           Ledger.occurredAt := match att_occurredAt a with Some o => o | None => t end;
           Ledger.entries := es;
           Ledger.reversesTransactionId := None |});
  mret tt.

Definition applyOutcome (i : PaymentIntentRecord) (a : PaymentAttempt)
  : M (World P) PaymentIntentRecord :=
  d ← lift (dispositionOf (status i) (att_status a));
  match d with
  | ignore => mret i
  | apply_ =>
      _ ← (match att_status a, division i with
           | reported_succeeded, divides item fee => postCapture i item fee a
           | _, _ => mret tt
           end);
      _ ← await;
      t ← gets now;
      on_intents (IntentDb.recordOutcome (id i)
        (mkOutcome (att_status a) (att_providerReference a) (att_expiresAt a) (att_failure a)) t)
  end.

Definition payForHire (ins : HirePaymentInstruction) : M (World P) HirePaymentOutcome :=
  _ ← settle (ins_bookingId ins) (ins_categoryVersionId ins) (ins_charge ins);
  _ ← await;
  key ← attemptKeyFor (ins_bookingId ins) hire_charge;
  let proposed := {|
    new_bookingId := ins_bookingId ins;
    new_attemptKey := key;
    new_ownerId := ins_ownerId ins;
    new_categoryVersionId := ins_categoryVersionId ins;
    new_division := divides (charge_itemCharge (ins_charge ins)) (charge_renterFee (ins_charge ins));
    new_amount := charge_total (ins_charge ins);
    new_provider := provider_name |} in
  _ ← await;
  t ← gets now;
  found ← on_intents (IntentDb.begin references Datatypes.id proposed t);
  i ← lift (assertSameAttempt proposed found);
  if negb (bool_decide (status i = initiated)) then mret (mkPaid i None)
  else
    _ ← await;
    a ← on_psp (provider_begin (mkRequest (attemptKey i) (charge_total (ins_charge ins))
                                  (itemTitle ins)));
    _ ← await;
    recorded ← applyOutcome i a;
    mret (mkPaid recorded (payerAction a)).

Definition asHold (i : PaymentIntentRecord) : result PaymentIntentRecord :=
  if bool_decide (purposeOf (division i) = damage_security) then Ok i
  else Err (PaymentIntentError "cannot be read as a damage security hold").

Definition holdDamageSecurity (ins : DamageSecurityInstruction) : M (World P) DamageSecurityOutcome :=
  match excess ins with
  | None => mret not_required
  | Some e =>
      if amount e =? 0 then mret not_required
      else
        key ← attemptKeyFor (sec_bookingId ins) damage_security;
        let proposed := {|
          new_bookingId := sec_bookingId ins;
          new_attemptKey := key;
          new_ownerId := sec_ownerId ins;
          new_categoryVersionId := sec_categoryVersionId ins;
          new_division := holds;
          new_amount := e;
          new_provider := provider_name |} in
        _ ← await;
        t ← gets now;
        found ← on_intents (IntentDb.begin references Datatypes.id proposed t);
        same ← lift (assertSameAttempt proposed found);
        i ← lift (asHold same);
        if negb (bool_decide (status i = initiated)) then mret (attempted i None)
        else
          _ ← await;
          a ← on_psp (provider_hold (mkRequest (attemptKey i) e (sec_itemTitle ins)));
          _ ← await;
          applied ← applyOutcome i a;
          recorded ← lift (asHold applied);
          mret (attempted recorded (payerAction a))
  end.

Definition refresh (intentId : string) : M (World P) (option PaymentIntentRecord) :=
  found ← on_intents (IntentDb.findById intentId);
  match found with
  | None => mret None
  | Some i =>
      if isTerminal (status i) then mret (Some i)
      else
        match providerReference i with
        | None => mret (Some i)
        | Some ref_ =>
            _ ← await;
            a ← on_psp (provider_read ref_);
            _ ← await;
            i' ← applyOutcome i a;
            mret (Some i')
        end
  end.
End Race.
End Service.
End Payments.

Module Reconciliation.
Import PaymentIntent Payments.

Definition STALE_AFTER_MINUTES : Z := 15.
Definition BATCH_LIMIT : nat := 100.

(** [Time.addMinutes] on a UTC instant. *)
Definition addMinutes (t : instant) (minutes : Z) : instant := t + minutes * 60000.

Record ReconciliationResult : Type := mkResult {
  examined : nat;
  settled : nat;
  stillPending : nat;
  unreconcilable : nat;
  failed_ : nat;
  reachedLimit : bool }.

(** The counters of the loop. *)
Record Counters : Type := mkCounters {
  c_settled : nat; c_stillPending : nat; c_unreconcilable : nat; c_failed : nat }.

Section Sweep.
Context {Ids : UuidSource} {P : Type} {Provider : PaymentProvider P}.
Variable findFeePolicy : string -> option Pricing.CategoryFeePolicy.
Variable rival : World P -> World P.

(** One turn of the loop: an attempt's failure does not abandon the rest. *)
Definition reconcile (c : Counters) (i : PaymentIntentRecord) : M (World P) Counters :=
  match providerReference i with
  | None => mret (mkCounters (c_settled c) (c_stillPending c) (S (c_unreconcilable c)) (c_failed c))
  | Some _ =>
      catch
        (refreshed ← refresh findFeePolicy rival (id i);
         mret (if match refreshed with Some r => isTerminal (status r) | None => false end
               then mkCounters (S (c_settled c)) (c_stillPending c) (c_unreconcilable c) (c_failed c)
               else mkCounters (c_settled c) (S (c_stillPending c)) (c_unreconcilable c) (c_failed c)))
        (fun _ =>
           mret (mkCounters (c_settled c) (c_stillPending c) (c_unreconcilable c) (S (c_failed c))))
  end.

Fixpoint reconcile_all (c : Counters) (l : list PaymentIntentRecord) : M (World P) Counters :=
  match l with
  | [] => mret c
  | i :: l' => c' ← reconcile c i; reconcile_all c' l'
  end.

Definition sweep : M (World P) ReconciliationResult :=
  t ← gets now;
  stale ← on_intents (IntentDb.findUnsettled (addMinutes t (- STALE_AFTER_MINUTES)) BATCH_LIMIT);
  c ← reconcile_all (mkCounters 0 0 0 0) stale;
  mret (mkResult (length stale) (c_settled c) (c_stillPending c) (c_unreconcilable c) (c_failed c)
          (BATCH_LIMIT <=? length stale)%nat).
End Sweep.
End Reconciliation.
