(* ===== verification/IntentProofs.v ===== *)
(** * The invariant of the attempts table

    Every row satisfies the migrations' constraints, keys and ids are unique, at
    most one attempt per booking and purpose has succeeded; the adapter's writes
    keep it, and what identifies an attempt never changes once it is written. *)

From S2P Require Import Prelude JsNumber Text Money Ledger LedgerStore PaymentIntent.
From S2P Require Import IntentStore.
From Stdlib Require Import Ascii.

#[local] Open Scope string_scope.
#[local] Open Scope list_scope.
#[local] Open Scope Z_scope.

Import Money PaymentIntent IntentDb.

Section Intents.
Context {Ids : UuidSource}.

(** ** The invariant *)
Definition row_issued (db : Db) (i : string) : Prop :=
  exists k, (k < intent_seq db)%nat /\ i = uuid k.

Record iwf (db : Db) : Prop := {
  iwf_keys : NoDup (row_attemptKey <$> rows db);
  iwf_ids : NoDup (row_id <$> rows db);
  iwf_issued : Forall (fun r => row_issued db (row_id r)) (rows db);
  iwf_rows : Forall (fun r => row_refusal r = None) (rows db);
  iwf_currency : Forall (fun r => row_currency r ∈ SUPPORTED_CURRENCIES) (rows db);
  iwf_one : forall r r', r ∈ rows db -> r' ∈ rows db -> clashes r r' = false }.

Lemma iwf_empty : iwf empty_db.
Proof. split; cbn; try apply NoDup_nil_2; try constructor. by intros r r' ?%not_elem_of_nil. Qed.

(** What an attempt is, whatever becomes of it. *)
Definition same_core (r r' : IntentRow) : Prop :=
  row_id r' = row_id r /\ row_bookingId r' = row_bookingId r /\ row_ownerId r' = row_ownerId r /\
  row_categoryVersionId r' = row_categoryVersionId r /\ purpose r' = purpose r /\
  row_attemptKey r' = row_attemptKey r /\ row_provider r' = row_provider r /\
  itemChargeMinor r' = itemChargeMinor r /\ renterFeeMinor r' = renterFeeMinor r /\
  amountMinor r' = amountMinor r /\ row_currency r' = row_currency r /\
  row_createdAt r' = row_createdAt r.

#[export] Instance same_core_equiv : Equivalence same_core.
Proof.
  unfold same_core. split.
  - intros r. by split_and!.
  - intros r r' H. by destruct_and!; split_and!.
  - intros r r' r'' H1 H2. destruct_and!. split_and!; congruence.
Qed.

Definition iext (db db' : Db) : Prop :=
  forall r, r ∈ rows db -> exists r', r' ∈ rows db' /\ same_core r r'.

#[export] Instance iext_preorder : PreOrder iext.
Proof.
  split.
  - intros db r Hr. by exists r.
  - intros a b c Hab Hbc r Hr. destruct (Hab r Hr) as (r1 & H1 & E1).
    destruct (Hbc r1 H1) as (r2 & H2 & E2). exists r2. split; [done|by etrans].
Qed.

(** A record read from a row, up to what may change. *)
Definition matches (i : PaymentIntentRecord) (r : IntentRow) : Prop :=
  id i = row_id r /\ bookingId i = row_bookingId r /\ ownerId i = row_ownerId r /\
  categoryVersionId i = row_categoryVersionId r /\
  intent_amount i = mkMoney (amountMinor r) (row_currency r) /\
  match division i with
  | divides item fee =>
      purpose r = hire_charge /\ itemChargeMinor r = Some (amount item) /\
      renterFeeMinor r = Some (amount fee) /\
      currency item = row_currency r /\ currency fee = row_currency r
  | holds => purpose r = damage_security
  end.

Definition recorded (i : PaymentIntentRecord) (db : Db) : Prop :=
  exists r, r ∈ rows db /\ matches i r.

Lemma matches_core (i : PaymentIntentRecord) (r r' : IntentRow) :
  same_core r r' -> matches i r -> matches i r'.
Proof.
  unfold same_core, matches. intros H1 H2. destruct_and!.
  destruct (division i); destruct_and?; split_and!; congruence.
Qed.

Lemma recorded_mono (i : PaymentIntentRecord) (db db' : Db) :
  iext db db' -> recorded i db -> recorded i db'.
Proof.
  intros He (r & Hr & Hm). destruct (He r Hr) as (r' & Hr' & Hc).
  exists r'. split; [done|by eapply matches_core].
Qed.

Lemma toRecord_ok (r : IntentRow) (i : PaymentIntentRecord) :
  toRecord r = Ok i -> matches i r /\ status i = row_status r /\
    providerReference i = row_providerReference r /\ attemptKey i = row_attemptKey r.
Proof.
  unfold toRecord. unfold_result.
  destruct (money (amountMinor r) (row_currency r)) as [amt|] eqn:Ha; [|done].
  apply money_ok in Ha as [_ ->].
  destruct (purpose r) eqn:Hp.
  - destruct (itemChargeMinor r) as [it|] eqn:Hi; [|done].
    destruct (renterFeeMinor r) as [f|] eqn:Hf; [|done].
    destruct (money it _) as [item|] eqn:Hit; [|done]. destruct (money f _) as [fee|] eqn:Hfe; [|done].
    apply money_ok in Hit as [_ ->], Hfe as [_ ->]. intros [= <-]. by unfold matches; cbn.
  - intros [= <-]. by unfold matches; cbn.
Qed.

Lemma row_fits (r : IntentRow) : row_refusal r = None -> fits_columns r = true.
Proof. unfold row_refusal. by destruct (fits_columns r). Qed.

Lemma fits_int4_safe (z : Z) : LedgerDb.fits_int4 z = true -> Js.is_safe z = true.
Proof. unfold LedgerDb.fits_int4, Js.is_safe, Js.MAX_SAFE_INTEGER. lia. Qed.

(** A row the constraints admit always reads back. *)
Lemma toRecord_total (r : IntentRow) : row_refusal r = None -> exists i, toRecord r = Ok i.
Proof.
  intros H. pose proof (row_fits r H) as Hf. unfold fits_columns in Hf.
  apply andb_true_iff in Hf as [[Ha Hi]%andb_true_iff Hfe].
  unfold toRecord. unfold_result. rewrite money_safe by by apply fits_int4_safe.
  unfold row_refusal in H.
  repeat match type of H with (if ?b then _ else _) = _ => destruct b eqn:?; [done|] end.
  destruct (divides_only_if_it_is_a_charge r) eqn:Hd; [|done].
  unfold divides_only_if_it_is_a_charge in Hd.
  destruct (purpose r); [|by eexists].
  destruct (itemChargeMinor r), (renterFeeMinor r); try done.
  rewrite !money_safe by by apply fits_int4_safe. by eexists.
Qed.

(** ** Writes *)
Lemma not_row_issued (db : Db) : ~ row_issued db (uuid (intent_seq db)).
Proof. intros (i & Hi & He). apply (inj uuid) in He. lia. Qed.

Lemma clashes_initiated (r r' : IntentRow) :
  row_status r = initiated \/ row_status r' = initiated -> clashes r r' = false.
Proof. intros H. apply bool_decide_eq_false. intros (H1 & H2 & _). destruct H; congruence. Qed.

Lemma insert_iwf (references : IntentRow -> bool) (n : NewPaymentIntent) (t : instant) (db db' : Db) (res : result IntentRow) :
  iwf db -> currency (new_amount n) ∈ SUPPORTED_CURRENCIES ->
  insert references n t db = (db', res) ->
  iwf db' /\ iext db db' /\
  match res with
  | Ok r => r = row_for n db t /\ rows db' = rows db ++ [r] /\ row_refusal r = None
  | Err _ => db' = db
  end.
Proof.
  intros Hwf Hcur. unfold insert. set (row := row_for n db t).
  case_bool_decide as Hex; [intros [= <- <-]; split_and!; [done|reflexivity|done]|].
  destruct (references row); [|intros [= <- <-]; split_and!; [done|reflexivity|done]].
  destruct (row_refusal row) as [c|] eqn:Href; [intros [= <- <-]; split_and!; [done|reflexivity|done]|].
  assert (row_attemptKey row ∉ row_attemptKey <$> rows db) as Hnew.
  { apply find_by_None. unfold by_attempt_key in Hex. destruct (find_by _ _ _); [by destruct Hex|done]. }
  destruct Hwf. intros [= <- <-]. cbn [negb]. split_and!; [| |done|done|done].
  - split; cbn [rows].
    + rewrite fmap_app. by apply NoDup_snoc.
    + rewrite fmap_app. apply NoDup_snoc; [done|]. intros Hin.
      apply list_elem_of_fmap in Hin as (x & Hx & Hin).
      rewrite Forall_forall in iwf_issued0. apply (not_row_issued db).
      change (row_id row) with (uuid (intent_seq db)) in Hx. rewrite Hx. by apply iwf_issued0.
    + apply Forall_app. split.
      * eapply Forall_impl; [exact iwf_issued0|]. intros x (i & Hi & ->). exists i. split; [cbn; lia|done].
      * apply Forall_singleton. exists (intent_seq db). split; [cbn; lia|done].
    + apply Forall_app. split; [done|by apply Forall_singleton].
    + apply Forall_app. split; [done|by apply Forall_singleton].
    + intros r r' Hr Hr'. apply elem_of_app in Hr as [Hr| ->%list_elem_of_singleton];
        apply elem_of_app in Hr' as [Hr'| ->%list_elem_of_singleton];
        [by apply iwf_one0| | |]; apply clashes_initiated; auto.
  - intros r Hr. exists r. split; [apply elem_of_app; by left|reflexivity].
Qed.

Lemma with_outcome_core (o : PaymentIntentOutcome) (t : instant) (r : IntentRow) :
  same_core r (with_outcome o t r).
Proof. unfold same_core. by cbn. Qed.

Lemma elem_of_replace (r' x : IntentRow) (l : list IntentRow) :
  x ∈ replace r' l -> x = r' \/ (x ∈ l /\ row_id x <> row_id r').
Proof.
  unfold replace. intros (y & -> & Hy)%list_elem_of_fmap.
  destruct (decide (row_id y = row_id r')); [by left|by right].
Qed.

Lemma replace_elem (r r' : IntentRow) (l : list IntentRow) :
  r ∈ l -> row_id r = row_id r' -> r' ∈ replace r' l.
Proof.
  intros Hr Hid. apply list_elem_of_fmap. exists r. split; [|done]. by rewrite decide_True.
Qed.

Lemma replace_fmap {B} (f : IntentRow -> B) (r r' : IntentRow) (l : list IntentRow) :
  NoDup (row_id <$> l) -> r ∈ l -> row_id r' = row_id r -> f r' = f r -> f <$> replace r' l = f <$> l.
Proof.
  intros Hnd Hr Hid Hf. unfold replace. rewrite <- list_fmap_compose.
  apply list_fmap_ext. intros i x Hx. cbn.
  destruct (decide (row_id x = row_id r')) as [He|]; [|done].
  enough (x = r) as -> by done.
  apply list_elem_of_lookup_2 in Hx.
  pose proof (find_by_unique row_id l r Hnd Hr) as H1.
  pose proof (find_by_unique row_id l x Hnd Hx) as H2. rewrite He, Hid in H2. congruence.
Qed.

Lemma clashes_sym (r r' : IntentRow) : clashes r r' = clashes r' r.
Proof. unfold clashes. apply bool_decide_ext. intuition congruence. Qed.

Lemma update_iwf (i : string) (o : PaymentIntentOutcome) (t : instant) (db db' : Db)
    (res : result IntentRow) :
  iwf db -> update i o t db = (db', res) ->
  iwf db' /\ iext db db' /\
  match res with
  | Ok r' => exists r, r ∈ rows db /\ row_id r = i /\ r' = with_outcome o t r /\
                       rows db' = replace r' (rows db) /\ r' ∈ rows db' /\ row_refusal r' = None
  | Err _ => db' = db
  end.
Proof.
  intros Hwf. unfold update, by_row_id.
  destruct (find_by row_id i (rows db)) as [r|] eqn:Hfind;
    [|intros [= <- <-]; split_and!; [done|reflexivity|done]].
  apply find_by_Some in Hfind as [Hr Hid].
  set (r' := with_outcome o t r).
  destruct (row_refusal r') as [c|] eqn:Href; [intros [= <- <-]; split_and!; [done|reflexivity|done]|].
  destruct (existsb (clashes r') (rows db)) eqn:Hclash;
    [intros [= <- <-]; split_and!; [done|reflexivity|done]|].
  assert (forall x, x ∈ rows db -> clashes r' x = false) as Hno.
  { intros x Hx. destruct (clashes r' x) eqn:Hcx; [|done].
    enough (existsb (clashes r') (rows db) = true) by congruence.
    apply existsb_exists. exists x. split; [by apply list_elem_of_In|done]. }
  destruct Hwf. intros [= <- <-].
  assert (row_id r' = row_id r /\ row_attemptKey r' = row_attemptKey r
          /\ row_currency r' = row_currency r) as (Eid & Ekey & Ecur) by done.
  split_and!.
  - split; cbn [rows].
    + by rewrite (replace_fmap _ r).
    + by rewrite (replace_fmap _ r).
    + apply Forall_forall. intros x [->|[Hx _]]%elem_of_replace.
      * rewrite Eid. rewrite Forall_forall in iwf_issued0. by apply iwf_issued0.
      * rewrite Forall_forall in iwf_issued0. by apply iwf_issued0.
    + apply Forall_forall. rewrite Forall_forall in iwf_rows0.
      intros x [->|[Hx _]]%elem_of_replace; [done|by apply iwf_rows0].
    + apply Forall_forall. rewrite Forall_forall in iwf_currency0.
      intros x [->|[Hx _]]%elem_of_replace; [rewrite Ecur|]; by apply iwf_currency0.
    + intros x y [->|[Hx _]]%elem_of_replace [->|[Hy _]]%elem_of_replace.
      * apply bool_decide_eq_false. by intros (_ & _ & ? & _).
      * by apply Hno.
      * rewrite clashes_sym. by apply Hno.
      * by apply iwf_one0.
  - intros x Hx. destruct (decide (row_id x = row_id r')) as [He|He].
    + exists r'. split; [by apply (replace_elem x)|].
      enough (x = r) as -> by apply with_outcome_core.
      pose proof (find_by_unique row_id (rows db) r iwf_ids0 Hr) as H1.
      pose proof (find_by_unique row_id (rows db) x iwf_ids0 Hx) as H2.
      rewrite He, Eid in H2. congruence.
    + exists x. split; [|reflexivity]. apply list_elem_of_fmap. exists x. by rewrite decide_False.
  - exists r. split_and!; try done. by apply (replace_elem r).
Qed.

(** ** The adapter *)
Lemma begin_spec (references : IntentRow -> bool) (n : NewPaymentIntent) (t : instant) (db db' : Db) (res : result PaymentIntentRecord) :
  iwf db -> currency (new_amount n) ∈ SUPPORTED_CURRENCIES ->
  begin references Datatypes.id n t db = (db', res) ->
  iwf db' /\ iext db db' /\
  match res with
  | Ok i => recorded i db' /\ attemptKey i = new_attemptKey n /\
            (db' = db \/ exists r, rows db' = rows db ++ [r] /\ row_status r = initiated)
  | Err _ => db' = db \/ exists r, rows db' = rows db ++ [r] /\ row_status r = initiated
  end.
Proof.
  intros Hwf Hcur. unfold begin. unfold_M.
  destruct (by_attempt_key (new_attemptKey n) db) as [r|] eqn:Hk.
  - apply find_by_Some in Hk as [Hr Hkey]. intros [= <- <-]. split_and!; [done|reflexivity|].
    destruct (toRecord r) as [i|] eqn:Hrec; [|by left].
    apply toRecord_ok in Hrec as (Hm & _ & _ & Hik). split_and!; [by exists r|congruence|by left].
  - cbn [Datatypes.id].
    destruct (insert references n t db) as [db1 res1] eqn:Hins.
    destruct (insert_iwf references n t db db1 res1 Hwf Hcur Hins) as (Hwf1 & Hext & Hres).
    destruct res1 as [r|e].
    + destruct Hres as (-> & Hrows & Href).
      destruct (toRecord_total _ Href) as (i & Hi). rewrite Hi.
      intros [= <- <-]. split; [done|split; [done|]].
      apply toRecord_ok in Hi as (Hm & _ & _ & Hik). split_and!.
      * exists (row_for n db t). split; [rewrite Hrows; apply elem_of_app; right; left|done].
      * done.
      * right. by eexists.
    + subst db1. destruct (by_attempt_key (new_attemptKey n) db) as [r|]; [done|].
      intros [= <- <-]. split_and!; [done|reflexivity|by left].
Qed.

Lemma recordOutcome_spec (i : string) (o : PaymentIntentOutcome) (t : instant) (db db' : Db)
    (res : result PaymentIntentRecord) :
  iwf db -> recordOutcome i o t db = (db', res) ->
  iwf db' /\ iext db db' /\
  (db' = db /\ is_ok res = false \/
   exists r, r ∈ rows db /\ row_id r = i /\ rows db' = replace (with_outcome o t r) (rows db) /\
             exists rec, res = Ok rec /\ toRecord (with_outcome o t r) = Ok rec /\ recorded rec db').
Proof.
  intros Hwf. unfold recordOutcome. unfold_M.
  destruct (update i o t db) as [db1 res1] eqn:Hup.
  destruct (update_iwf i o t db db1 res1 Hwf Hup) as (Hwf1 & Hext & Hres).
  destruct res1 as [r'|e].
  - destruct Hres as (r & Hr & Hid & -> & Hrows & Hin & Href).
    destruct (toRecord_total _ Href) as (rec & Hrec). rewrite Hrec.
    intros [= <- <-]. split_and!; [done|done|]. right. exists r. split_and!; [done..|].
    exists rec. split_and!; [done|done|]. apply toRecord_ok in Hrec as (Hm & _).
    by exists (with_outcome o t r).
  - intros [= <- <-]. subst db1. split_and!; [done|reflexivity|by left].
Qed.

Lemma findById_spec (i : string) (db db' : Db) (res : result (option PaymentIntentRecord)) :
  findById i db = (db', res) ->
  db' = db /\ match res with
              | Ok (Some rec) => recorded rec db /\ id rec = i
              | _ => True
              end.
Proof.
  unfold findById, by_row_id. unfold_M.
  destruct (find_by row_id i (rows db)) as [r|] eqn:Hf; [|by intros [= <- <-]].
  apply find_by_Some in Hf as [Hr Hid].
  destruct (toRecord r) as [rec|] eqn:Hrec; intros [= <- <-]; [|done].
  apply toRecord_ok in Hrec as (Hm & _). split_and!; [done|by exists r|].
  destruct Hm as (-> & _). done.
Qed.

Lemma findForBooking_state (b : string) (db : Db) : fst (findForBooking b db) = db.
Proof. unfold findForBooking. by unfold_M. Qed.

Lemma findUnsettled_state (t : instant) (n : nat) (db : Db) : fst (findUnsettled t n db) = db.
Proof. unfold findUnsettled. by unfold_M. Qed.

End Intents.
