(* ===== verification/PaymentsProofs.v ===== *)
(** * The invariant of payments

    A small logic of [await]-separated steps: [safe Pre m Post] says that from
    any world that satisfies the invariant, under any well-behaved concurrent
    requests, [m] keeps the invariant, only extends the books and the attempts,
    and establishes [Post] when it returns. *)

From S2P Require Import Prelude JsNumber Text Money Ledger LedgerStore LedgerProofs.
From S2P Require Import LedgerTheorems Pricing HireSettlement PaymentIntent IntentStore.
From S2P Require Import IntentProofs Payments.
From Stdlib Require Import Ascii.

#[local] Open Scope string_scope.
#[local] Open Scope list_scope.
#[local] Open Scope Z_scope.

Import Money (CurrencyCode, amount, currency, Money, mkMoney, SUPPORTED_CURRENCIES).
Import PaymentIntent HireSettlement Payments.
Import IntentDb (IntentRow, row_id, row_bookingId, row_status, row_currency, amountMinor, rows, purpose).

Section Payments.
Context {Ids : UuidSource} {P : Type} {Provider : PaymentProvider P}.
Variable findFeePolicy : string -> option Pricing.CategoryFeePolicy.
Variable references : IntentRow -> bool.

(** ** The invariant *)

(** The books hold the capture of this attempt, for its whole amount. *)
Definition captured (l : LedgerDb.Db) (r : IntentRow) : Prop :=
  exists p, LedgerDb.by_key (hireCaptureKey (row_bookingId r)) l = Some p /\
    Ledger.draft_kind (Ledger.posted p) = Ledger.hire_charge_captured /\
    Ledger.bookingId (Ledger.posted p) = Some (row_bookingId r) /\
    Ledger.draft_currency (Ledger.posted p) = row_currency r /\
    LedgerDb.side_total Ledger.debit (Ledger.entries (Ledger.posted p)) = amountMinor r.

Record winv (w : World P) : Prop := {
  winv_ledger : wf (ledger w);
  winv_intents : iwf (intents w);
  winv_captured : forall r, r ∈ rows (intents w) -> row_status r = succeeded ->
    purpose r = hire_charge -> captured (ledger w) r }.

Definition wext (w w' : World P) : Prop :=
  extends (ledger w) (ledger w') /\ iext (intents w) (intents w').

#[export] Instance wext_preorder : PreOrder wext.
Proof.
  split; [by split|]. intros a b c [H1 H2] [H3 H4]. split; by etrans.
Qed.

Definition good_world_rival (rival : World P -> World P) : Prop :=
  forall w, winv w -> winv (rival w) /\ wext w (rival w).

Lemma good_world_rival_id : good_world_rival Datatypes.id.
Proof. intros w Hw. split; [done|reflexivity]. Qed.

Lemma captured_mono (l l' : LedgerDb.Db) (r : IntentRow) :
  extends l l' -> captured l r -> captured l' r.
Proof. intros He (p & Hk & Hp). exists p. split; [by eapply by_key_mono|done]. Qed.

Lemma captured_core (l : LedgerDb.Db) (r r' : IntentRow) :
  same_core r r' -> captured l r -> captured l r'.
Proof.
  unfold same_core. intros Hc (p & Hp). destruct_and!. exists p. split_and!; congruence.
Qed.

(** ** Triples *)
Definition safe {A} (Pre : World P -> Prop) (m : M (World P) A) (Post : A -> World P -> Prop) : Prop :=
  forall w w' r, winv w -> Pre w -> m w = (w', r) ->
    winv w' /\ wext w w' /\ match r with Ok a => Post a w' | Err _ => True end.

Definition stable (F : World P -> Prop) : Prop := forall w w', wext w w' -> F w -> F w'.

Lemma safe_bind {A B} (Pre : World P -> Prop) (m : M (World P) A) (Mid : A -> World P -> Prop)
    (f : A -> M (World P) B) (Post : B -> World P -> Prop) :
  safe Pre m Mid -> (forall a, safe (Mid a) (f a) Post) -> safe Pre (mbind f m) Post.
Proof.
  intros Hm Hf w w' r Hw Hp. unfold mbind, M_bind.
  destruct (m w) as [w1 [a|e]] eqn:Hr.
  - destruct (Hm _ _ _ Hw Hp Hr) as (Hw1 & He1 & Ha). intros H2.
    destruct (Hf a _ _ _ Hw1 Ha H2) as (Hw2 & He2 & Hb). split_and!; [done|by etrans|done].
  - intros [= <- <-]. by apply (Hm _ _ _ Hw Hp Hr).
Qed.

Lemma safe_frame {A} (F Pre : World P -> Prop) (m : M (World P) A) (Post : A -> World P -> Prop) :
  stable F -> safe Pre m Post -> safe (fun w => F w /\ Pre w) m (fun a w => F w /\ Post a w).
Proof.
  intros HF Hm w w' r Hw [HFw Hp] H. destruct (Hm _ _ _ Hw Hp H) as (Hw' & He & Hr).
  split_and!; [done|done|]. destruct r; [|done]. split; [by eapply HF|done].
Qed.

Lemma safe_weaken {A} (Pre Pre' : World P -> Prop) (m : M (World P) A) (Post Post' : A -> World P -> Prop) :
  (forall w, Pre' w -> Pre w) -> (forall a w, Post a w -> Post' a w) ->
  safe Pre m Post -> safe Pre' m Post'.
Proof.
  intros Hpre Hpost Hm w w' r Hw Hp H. destruct (Hm _ _ _ Hw (Hpre _ Hp) H) as (? & ? & Hr).
  split_and!; [done|done|]. destruct r; auto.
Qed.

(** A step that only reads. *)
Lemma safe_reads {A} (Pre : World P -> Prop) (m : M (World P) A) (Post : A -> World P -> Prop) :
  (forall w, fst (m w) = w) -> (forall w a, Pre w -> snd (m w) = Ok a -> Post a w) -> safe Pre m Post.
Proof.
  intros Hs Hp w w' r Hw Hpre H. pose proof (Hs w) as Hsw. specialize (Hp w).
  rewrite H in Hsw, Hp. cbn in *. subst w'. split_and!; [done|reflexivity|].
  destruct r; [by apply Hp|done].
Qed.

Lemma safe_ret {A} (Pre : World P -> Prop) (a : A) : safe Pre (mret a) (fun b w => b = a /\ Pre w).
Proof. by apply safe_reads; [|intros w b Hp [= <-]]. Qed.

Lemma safe_lift {A} (Pre : World P -> Prop) (r : result A) :
  safe Pre (lift r) (fun a w => r = Ok a /\ Pre w).
Proof. by apply safe_reads. Qed.

Lemma safe_throw {A} (Pre : World P -> Prop) (e : error) (Post : A -> World P -> Prop) :
  safe Pre (throw e) Post.
Proof. by apply safe_reads. Qed.

Lemma safe_gets {A} (Pre : World P -> Prop) (f : World P -> A) :
  safe Pre (gets f) (fun _ w => Pre w).
Proof. by apply safe_reads. Qed.

Lemma safe_await (F : World P -> Prop) (rival : World P -> World P) :
  good_world_rival rival -> stable F -> safe F (await rival) (fun _ w => F w).
Proof.
  intros Hgood HF w w' r Hw HFw [= <- <-]. destruct (Hgood w Hw) as [Hw1 He].
  split_and!; [done|done|by eapply HF].
Qed.

(** The provider keeps no row of ours. *)
Lemma safe_psp {A} (F : World P -> Prop) (m : M P A) :
  stable F -> safe F (on_psp m) (fun _ w => F w).
Proof.
  intros HF w w' r Hw HFw. unfold on_psp. destruct (m (psp w)) as [s res]. intros [= <- <-].
  assert (wext w (mkWorld (ledger w) (intents w) s)) as He by (split; reflexivity).
  split_and!; [by destruct Hw; split|done|]. destruct res; [by eapply HF|done].
Qed.

Lemma winv_ledger_step (w : World P) (l : LedgerDb.Db) :
  winv w -> wf l -> extends (ledger w) l -> winv (mkWorld l (intents w) (psp w)).
Proof.
  intros [Hl Hi Hc] Hwf He. split; cbn; [done|done|].
  intros r Hr Hs Hp. eapply captured_mono; [exact He|by apply Hc].
Qed.

(** ** The ledger's steps *)
Lemma stored_account_plain (l : LedgerDb.Db) (i : string) (a : LedgerDb.LedgerAccountRecord) :
  wf l -> LedgerDb.by_identity i l = Some a -> plain (LedgerDb.acc_id a).
Proof.
  intros Hwf Ha. apply find_by_Some in Ha as [Hin _].
  pose proof (wf_account_issued _ Hwf) as Hi. rewrite Forall_forall in Hi.
  destruct (Hi a Hin) as (k & _ & ->). apply uuid_plain.
Qed.

Lemma safe_accountFor (F : World P -> Prop) (spec : Ledger.LedgerAccountSpec) :
  stable F ->
  safe F (on_ledger (LedgerService.accountFor Datatypes.id spec))
    (fun a w => plain (LedgerDb.acc_id a) /\ F w).
Proof.
  intros HF w w' r Hw HFw. unfold on_ledger.
  destruct (LedgerService.accountFor Datatypes.id spec (ledger w)) as [l res] eqn:H. intros [= <- <-].
  destruct (accountFor_spec _ _ _ _ _ good_rival_id (winv_ledger _ Hw) H) as (Hl & He & Hres).
  assert (wext w (mkWorld l (intents w) (psp w))) as Hext by (split; [done|reflexivity]).
  split_and!; [by apply winv_ledger_step|done|].
  destruct res as [a|]; [|done]. destruct Hres as (i & _ & Hi).
  split; [by apply (stored_account_plain l i)|by eapply HF].
Qed.

Lemma safe_post (F : World P -> Prop) (d : Ledger.LedgerTransactionDraft) :
  stable F ->
  safe F (on_ledger (LedgerService.post Datatypes.id d))
    (fun p w => F w /\ Ledger.assertPostable d = Ok tt /\
                LedgerService.assertSameTransaction d p = Ok tt /\
                LedgerDb.by_key (Ledger.idempotencyKey d) (ledger w) = Some p).
Proof.
  intros HF w w' r Hw HFw. unfold on_ledger.
  destruct (LedgerService.post Datatypes.id d (ledger w)) as [l res] eqn:H. intros [= <- <-].
  destruct (post_spec _ _ _ _ _ good_rival_id (winv_ledger _ Hw) H) as (Hl & He & Hres).
  assert (wext w (mkWorld l (intents w) (psp w))) as Hext by (split; [done|reflexivity]).
  split_and!; [by apply winv_ledger_step|done|].
  destruct res as [p|]; [|done]. split; [by eapply HF|done].
Qed.

(** ** Facts carried across awaits *)
Definition is_recorded (i : PaymentIntentRecord) (w : World P) : Prop := recorded i (intents w).
Definition capture_posted (i : PaymentIntentRecord) (w : World P) : Prop :=
  exists r, matches i r /\ captured (ledger w) r.

Lemma captured_matches (l : LedgerDb.Db) (i : PaymentIntentRecord) (r r' : IntentRow) :
  matches i r -> matches i r' -> captured l r -> captured l r'.
Proof.
  intros (_ & Hb & _ & _ & Ha & _) (_ & Hb' & _ & _ & Ha' & _) (p & Hp).
  rewrite Ha in Ha'. injection Ha' as Ha' Hc'. exists p. rewrite <- Hb', Hb, <- Ha', <- Hc'. exact Hp.
Qed.

Lemma capture_posted_stable (i : PaymentIntentRecord) : stable (capture_posted i).
Proof.
  intros w w' [He _] (r & Hm & Hc). exists r. split; [done|by eapply captured_mono].
Qed.

Lemma is_recorded_stable (i : PaymentIntentRecord) : stable (is_recorded i).
Proof. intros w w' [_ He]. by apply recorded_mono. Qed.

Lemma true_stable : stable (fun _ => True).
Proof. by intros w w'. Qed.

Lemma and_stable (F G : World P -> Prop) : stable F -> stable G -> stable (fun w => F w /\ G w).
Proof. intros HF HG w w' He [Hf Hg]. split; [by eapply HF|by eapply HG]. Qed.

Lemma pure_stable (Q : Prop) : stable (fun _ => Q).
Proof. by intros w w'. Qed.

#[local] Ltac solve_stable :=
  repeat match goal with x := _ |- stable ?F => progress unfold x end;
  repeat first [ done | eassumption | apply is_recorded_stable | apply capture_posted_stable
               | apply pure_stable | apply and_stable ].

(** ** The capture *)
Lemma side_total_perm (d : Ledger.LedgerDirection) (es fs : list Ledger.LedgerEntryDraft) :
  es ≡ₚ fs -> LedgerDb.side_total d es = LedgerDb.side_total d fs.
Proof.
  intros H. unfold LedgerDb.side_total, Ledger.on_side. apply Money.total_of_perm. by rewrite H.
Qed.

Lemma safe_settle (F : World P -> Prop) (b v : string) (c : HireCharge) :
  safe F (settle findFeePolicy b v c)
    (fun s w => (exists policy, settleHire c policy = Ok s) /\ F w).
Proof.
  unfold settle. destruct (findFeePolicy v) as [policy|]; [|apply safe_throw].
  destruct (settleHire c policy) as [s|e] eqn:Hs; [|destruct e; apply safe_throw].
  eapply safe_weaken; [| |apply safe_ret]; [done|]. cbn. intros a w [-> HF]. eauto.
Qed.

(** The draft the capture posts. *)
Definition capture_draft (i : PaymentIntentRecord) (c : CurrencyCode) (t : instant)
    (es : list Ledger.LedgerEntryDraft) : Ledger.LedgerTransactionDraft := {|
  Ledger.idempotencyKey := hireCaptureKey (bookingId i);
  Ledger.draft_kind := Ledger.hire_charge_captured;
  Ledger.draft_currency := c;
  Ledger.bookingId := Some (bookingId i);
  Ledger.occurredAt := t;
  Ledger.entries := es;
  Ledger.reversesTransactionId := None |}.

Lemma captured_by_post (w : World P) (i : PaymentIntentRecord) (r : IntentRow) (s : HireSettlement)
    (clearing payable revenue : string) (es : list Ledger.LedgerEntryDraft) (t : instant)
    (p : Ledger.PostedLedgerTransaction) (item fee : Money) (policy : Pricing.CategoryFeePolicy) :
  wf (ledger w) -> plain clearing -> plain payable -> plain revenue ->
  settleHire (mkCharge item fee (intent_amount i)) policy = Ok s ->
  hireCaptureEntries s clearing payable revenue = Ok es ->
  LedgerService.assertSameTransaction (capture_draft i (currency (renterPays s)) t es) p = Ok tt ->
  LedgerDb.by_key (hireCaptureKey (bookingId i)) (ledger w) = Some p ->
  matches i r -> row_currency r ∈ SUPPORTED_CURRENCIES -> captured (ledger w) r.
Proof.
  intros Hwf Hc Hp Hr Hsettle Hes Hsame Hkey Hm Hcur.
  destruct (settleHire_parts _ _ _ Hsettle) as (Hpays & _ & _ & _ & _ & Ho & Hpl). cbn in Hpays, Ho, Hpl.
  destruct (hireCaptureEntries_shape _ _ _ _ _ Hes) as [Htot Hall].
  destruct Hm as (_ & Hb & _ & _ & Hamt & _).
  rewrite Hpays, Hamt in *. cbn [currency amount] in *.
  pose proof Hsame as (Hk & Hcurr & Hbk & _ & _)%assertSameTransaction_ok. cbn in Hk, Hcurr, Hbk.
  assert (p ∈ LedgerDb.transactions (ledger w)) as Hin by by apply find_by_Some in Hkey as [? _].
  apply assertSame_iff in Hsame as (_ & _ & _ & _ & Hperm); cbn [capture_draft Ledger.entries] in *.
  - exists p. rewrite <- Hb. split_and!; try done.
    rewrite <- (side_total_perm _ _ _ Hperm). exact Htot.
  - eapply Forall_impl; [exact Hall|]. cbn. intros e He. split.
    + by destruct He as [[-> _]|[[-> _]|[-> _]]].
    + apply plain_supported. destruct He as [[_ ->]|[[_ ->]|[_ ->]]]; by rewrite ?Hpays, ?Ho, ?Hpl, ?Hamt.
  - apply (stored_plain (ledger w)); [done|done|]. by rewrite <- Hcurr.
Qed.

Lemma safe_with_inv {A} (Pre : World P -> Prop) (m : M (World P) A) (Post : A -> World P -> Prop) :
  safe Pre m (fun a w => winv w -> Post a w) -> safe Pre m Post.
Proof.
  intros Hm w w' r Hw Hp H. destruct (Hm _ _ _ Hw Hp H) as (Hw' & He & Hr).
  split_and!; [done|done|]. destruct r; [by apply Hr|done].
Qed.

Lemma safe_postCapture (rival : World P -> World P) (i : PaymentIntentRecord) (item fee : Money)
    (a : PaymentAttempt) :
  good_world_rival rival ->
  safe (is_recorded i) (postCapture findFeePolicy rival i item fee a)
    (fun _ w => is_recorded i w /\ capture_posted i w).
Proof.
  intros Hgood. unfold postCapture.
  eapply safe_bind; [apply safe_settle|]. intros s.
  set (Q := exists policy, settleHire (mkCharge item fee (intent_amount i)) policy = Ok s).
  set (F := fun w => Q /\ is_recorded i w).
  assert (stable F) as HF by solve_stable.
  eapply safe_bind; [by apply safe_await|]. intros [].
  eapply safe_bind; [by apply safe_accountFor|]. intros clearing. cbn beta.
  eapply safe_bind; [apply safe_await; [done|]; solve_stable|]. intros [].
  eapply safe_bind; [apply safe_accountFor; solve_stable|].
  intros payable. cbn beta.
  eapply safe_bind; [apply safe_await; [done|]; solve_stable|].
  intros [].
  eapply safe_bind; [apply safe_accountFor; solve_stable|].
  intros revenue. cbn beta.
  eapply safe_bind; [apply safe_await; [done|]; solve_stable|].
  intros [].
  eapply safe_bind; [apply safe_gets|]. intros t. cbn beta.
  eapply safe_bind; [apply safe_lift|]. intros es. cbn beta.
  eapply safe_bind; [apply safe_post; solve_stable|].
  intros p. apply safe_with_inv.
  eapply safe_weaken; [| |apply safe_ret]; [intros w Hw; exact Hw|].
  cbn beta. intros [] w [_ ((Hes & Hr & Hp & Hc & (policy & Hs) & Hrec) & _ & Hsame & Hkey)] Hinv.
  split; [done|]. destruct Hrec as (r & Hin & Hm). exists r. split; [done|].
  eapply (captured_by_post w i r s (LedgerDb.acc_id clearing) (LedgerDb.acc_id payable)
            (LedgerDb.acc_id revenue) es _ p item fee policy); try eassumption; [by destruct Hinv|].
  pose proof (iwf_currency _ (winv_intents _ Hinv)) as Hcur. rewrite Forall_forall in Hcur. by apply Hcur.
Qed.

(** ** Recording an outcome *)
Definition ready (i : PaymentIntentRecord) (a : PaymentAttempt) (w : World P) : Prop :=
  is_recorded i w /\
  (att_status a = reported_succeeded -> purposeOf (division i) = hire_charge -> capture_posted i w).

Lemma ready_stable (i : PaymentIntentRecord) (a : PaymentAttempt) : stable (ready i a).
Proof.
  intros w w' He [Hr Hc]. split; [by eapply is_recorded_stable|].
  intros H1 H2. eapply capture_posted_stable; [exact He|by apply Hc].
Qed.

Lemma matches_purpose (i : PaymentIntentRecord) (r : IntentRow) :
  matches i r -> purposeOf (division i) = purpose r.
Proof. intros (_ & _ & _ & _ & _ & Hd). destruct (division i); by destruct_and?. Qed.

Lemma recorded_row (i : PaymentIntentRecord) (db : IntentDb.Db) (r : IntentRow) :
  iwf db -> recorded i db -> r ∈ rows db -> row_id r = id i -> matches i r.
Proof.
  intros Hwf (r0 & Hr0 & Hm) Hr Hid. enough (r = r0) as -> by done.
  pose proof Hm as (Hid0 & _).
  pose proof (find_by_unique row_id (rows db) r (iwf_ids _ Hwf) Hr) as H1.
  pose proof (find_by_unique row_id (rows db) r0 (iwf_ids _ Hwf) Hr0) as H2.
  rewrite <- Hid0, <- Hid in H2. congruence.
Qed.

Lemma safe_record (i : PaymentIntentRecord) (a : PaymentAttempt) (t : instant) :
  safe (ready i a)
    (on_intents (IntentDb.recordOutcome (id i)
       (mkOutcome (att_status a) (att_providerReference a) (att_expiresAt a) (att_failure a)) t))
    (fun i' w => is_recorded i' w).
Proof.
  intros w w' r Hw [Hrec Hcap]. unfold on_intents.
  set (o := mkOutcome _ _ _ _).
  destruct (IntentDb.recordOutcome (id i) o t (intents w)) as [db res] eqn:H. intros [= <- <-].
  destruct (recordOutcome_spec _ _ _ _ _ _ (winv_intents _ Hw) H) as (Hi & He & Hres).
  assert (wext w (mkWorld (ledger w) db (psp w))) as Hext by (split; [reflexivity|done]).
  destruct Hres as [[-> Hbad]|(x & Hx & Hxid & Hrows & rec & -> & _ & Hr')].
  - split_and!; [by destruct Hw; split|done|]. by destruct res.
  - split_and!; [|done|done]. split; cbn; [apply Hw|done|].
    rewrite Hrows. intros y [->|[Hy _]]%elem_of_replace Hs Hp; [|by apply Hw].
    eapply captured_core; [apply with_outcome_core|].
    pose proof (recorded_row i _ x (winv_intents _ Hw) Hrec Hx Hxid) as Hm.
    destruct Hcap as (r0 & Hm0 & Hc0).
    + by destruct (att_status a).
    + by rewrite (matches_purpose _ _ Hm).
    + by eapply captured_matches.
Qed.

Lemma safe_applyOutcome (rival : World P -> World P) (i : PaymentIntentRecord) (a : PaymentAttempt) :
  good_world_rival rival ->
  safe (is_recorded i) (applyOutcome findFeePolicy rival i a) (fun i' w => is_recorded i' w).
Proof.
  intros Hgood. unfold applyOutcome.
  eapply safe_bind; [apply safe_lift|]. intros [|]; cbn beta iota.
  - eapply safe_bind with (Mid := fun _ w => ready i a w).
    + destruct (att_status a) eqn:Ha, (division i) as [item fee|] eqn:Hd;
        try (eapply safe_weaken; [intros w [_ H]; exact H| |apply safe_ret];
             intros [] w [_ H]; split; [exact H|by rewrite ?Ha, ?Hd]).
      eapply safe_weaken; [intros w [_ H]; exact H| |by apply safe_postCapture].
      intros [] w [H1 H2]. by split.
    + intros []. eapply safe_bind; [apply safe_await; [done|apply ready_stable]|]. intros [].
      eapply safe_bind; [apply safe_gets|]. intros t. apply safe_record.
  - eapply safe_weaken; [intros w [_ H]; exact H| |apply safe_ret]. by intros i' w [-> H].
Qed.

(** ** The service's operations *)
Lemma safe_begin (F : World P -> Prop) (n : NewPaymentIntent) (t : instant) :
  stable F -> currency (new_amount n) ∈ SUPPORTED_CURRENCIES ->
  safe F (on_intents (IntentDb.begin references Datatypes.id n t))
    (fun i w => is_recorded i w /\ F w).
Proof.
  intros HF Hcur w w' r Hw HFw. unfold on_intents.
  destruct (IntentDb.begin references Datatypes.id n t (intents w)) as [db res] eqn:H. intros [= <- <-].
  destruct (begin_spec references _ _ _ _ _ (winv_intents _ Hw) Hcur H) as (Hi & He & Hres).
  assert (wext w (mkWorld (ledger w) db (psp w))) as Hext by (split; [reflexivity|done]).
  assert (db = intents w \/ exists x, rows db = rows (intents w) ++ [x] /\ row_status x = initiated)
    as Hrows by by destruct res as [i|]; [destruct Hres as (_ & _ & ?)|].
  split_and!; [|done|].
  - split; cbn; [apply Hw|done|]. intros x Hx Hs Hp.
    destruct Hrows as [->|(y & Hy & Hy0)]; [by apply Hw|].
    rewrite Hy in Hx. apply elem_of_app in Hx as [Hx| ->%list_elem_of_singleton]; [by apply Hw|congruence].
  - destruct res as [i|]; [|done]. destruct Hres as (Hr & _). split; [done|by eapply HF].
Qed.

Lemma safe_attemptKeyFor (b : string) (p : PaymentIntentPurpose) :
  safe (fun _ => True) (attemptKeyFor b p) (fun _ _ => True).
Proof.
  apply safe_reads; [|done]. intros [l i s]. unfold attemptKeyFor, on_intents. unfold_M. cbn.
  pose proof (findForBooking_state b i) as H.
  destruct (IntentDb.findForBooking b i) as [i' [x|e]]; cbn in *; by subst.
Qed.

End Payments.
