(* ===== verification/PaymentsTheorems.v ===== *)
(** * What payments promise

    Requests that race each other at every [await], and what holds after any of
    them: money marked taken is in the books, once; a hold posts nothing; a sweep
    accounts for every attempt it read. *)

From S2P Require Import Prelude JsNumber Text Money Ledger LedgerStore LedgerProofs.
From S2P Require Import LedgerTheorems Pricing HireSettlement PaymentIntent IntentStore.
From S2P Require Import IntentProofs Payments PaymentsProofs.
From Stdlib Require Import Ascii.

#[local] Open Scope string_scope.
#[local] Open Scope list_scope.
#[local] Open Scope Z_scope.

Import Money (CurrencyCode, amount, currency, Money, mkMoney, SUPPORTED_CURRENCIES).
Import PaymentIntent HireSettlement Payments Reconciliation.
Import IntentDb (IntentRow, row_id, row_bookingId, row_status, row_currency, amountMinor, rows, purpose).

Section Payments.
Context {Ids : UuidSource} {P : Type} {Provider : PaymentProvider P}.
Variable findFeePolicy : string -> option Pricing.CategoryFeePolicy.
Variable references : IntentRow -> bool.

(** ** Requests *)
Inductive request : Type :=
  | RPay (ins : HirePaymentInstruction)
  | RHold (ins : DamageSecurityInstruction)
  | RRefresh (intentId : string)
  | RSweep
  | RProvider (f : P -> P)
  | RClock (t : instant).

(** The currency of an instruction is one the type admits. *)
Definition typed (r : request) : Prop :=
  match r with
  | RPay ins => currency (charge_total (ins_charge ins)) ∈ SUPPORTED_CURRENCIES
  | RHold ins => forall e, excess ins = Some e -> currency e ∈ SUPPORTED_CURRENCIES
  | _ => True
  end.

Definition set_clock (t : instant) (l : LedgerDb.Db) : LedgerDb.Db :=
  LedgerDb.mkDb (LedgerDb.accounts l) (LedgerDb.transactions l) (LedgerDb.seq l) t.

Definition serve (rival : World P -> World P) (r : request) (w : World P) : World P :=
  match r with
  | RPay ins => fst (payForHire findFeePolicy references rival ins w)
  | RHold ins => fst (holdDamageSecurity findFeePolicy references rival ins w)
  | RRefresh i => fst (refresh findFeePolicy rival i w)
  | RSweep => fst (sweep findFeePolicy rival w)
  | RProvider f => mkWorld (ledger w) (intents w) (f (psp w))
  | RClock t => mkWorld (set_clock t (ledger w)) (intents w) (psp w)
  end.

(** Requests served whole, one after another: what a rival commits. *)
Definition serve_all (rs : list request) (w : World P) : World P :=
  fold_left (fun w r => serve Datatypes.id r w) rs w.

(** Requests each of which is interrupted at every [await] by a list of others. *)
Definition schedule : Type := list (request * list request).
Definition run_schedule (s : schedule) (w : World P) : World P :=
  fold_left (fun w r => serve (serve_all r.2) r.1 w) s w.
Definition all_typed (s : schedule) : Prop := Forall (fun r => typed r.1 /\ Forall typed r.2) s.

Definition empty_world (t : instant) (p : P) : World P :=
  mkWorld (LedgerDb.empty_db t) IntentDb.empty_db p.

#[local] Ltac returns := eapply safe_weaken; [intros ? Hw; exact Hw| |apply safe_ret].

(** ** Every request keeps the invariant *)
#[local] Notation any := (fun _ : World P => True).

Lemma safe_any {A} (Pre : World P -> Prop) (m : M (World P) A) (Post : A -> World P -> Prop) :
  safe any m Post -> safe Pre m (fun _ => any).
Proof. by apply safe_weaken. Qed.

Lemma safe_payForHire (rival : World P -> World P) (ins : HirePaymentInstruction) :
  good_world_rival rival -> currency (charge_total (ins_charge ins)) ∈ SUPPORTED_CURRENCIES ->
  safe any (payForHire findFeePolicy references rival ins) (fun o w => is_recorded (intent o) w).
Proof.
  intros Hgood Hcur. unfold payForHire.
  eapply safe_bind; [eapply (safe_any _ _ _ (safe_settle _ any _ _ _))|]. intros s0.
  eapply safe_bind; [apply safe_await; [done|apply true_stable]|]. intros [].
  eapply safe_bind; [apply safe_attemptKeyFor|]. intros key.
  eapply safe_bind; [apply safe_await; [done|apply true_stable]|]. intros [].
  eapply safe_bind; [apply safe_gets|]. intros t.
  eapply safe_bind; [apply safe_begin; [apply true_stable|exact Hcur]|]. intros found.
  eapply safe_bind; [apply safe_lift|]. intros i. cbn beta.
  destruct (negb _).
  - eapply safe_weaken; [intros w Hw; exact Hw| |apply safe_ret].
    intros o w [-> [Hs [Hr _]]]. by apply assertSameAttempt_ok in Hs as [-> _].
  - eapply safe_bind with (Mid := fun _ w => is_recorded i w).
    { eapply safe_weaken; [| |apply (safe_await (is_recorded i)); [done|apply is_recorded_stable]]; [|done].
      intros w [Hs [Hr _]]. by apply assertSameAttempt_ok in Hs as [-> _]. }
    intros []. eapply safe_bind; [apply safe_psp, is_recorded_stable|]. intros a.
    eapply safe_bind; [apply safe_await; [done|apply is_recorded_stable]|]. intros [].
    eapply safe_bind; [by apply safe_applyOutcome|]. intros r.
    eapply safe_weaken; [intros w H; exact H| |apply safe_ret]. by intros o w [-> H].
Qed.

Lemma asHold_ok (i i' : PaymentIntentRecord) : asHold i = Ok i' -> i' = i.
Proof. unfold asHold. case_bool_decide; [by intros [= <-]|done]. Qed.

Lemma safe_hold (rival : World P -> World P) (ins : DamageSecurityInstruction) :
  good_world_rival rival ->
  (forall e, excess ins = Some e -> currency e ∈ SUPPORTED_CURRENCIES) ->
  safe any (holdDamageSecurity findFeePolicy references rival ins) (fun _ => any).
Proof.
  intros Hgood Hcur. unfold holdDamageSecurity.
  destruct (excess ins) as [e|]; [|by eapply safe_any, safe_ret].
  destruct (amount e =? 0); [by eapply safe_any, safe_ret|].
  eapply safe_bind; [apply safe_attemptKeyFor|]. intros key.
  eapply safe_bind; [apply safe_await; [done|apply true_stable]|]. intros [].
  eapply safe_bind; [apply safe_gets|]. intros t.
  eapply safe_bind; [apply safe_begin; [apply true_stable|by apply Hcur]|]. intros found.
  eapply safe_bind; [apply safe_lift|]. intros same. cbn beta.
  eapply safe_bind; [apply safe_lift|]. intros i. cbn beta.
  destruct (negb _); [by returns|].
  eapply safe_bind with (Mid := fun _ w => is_recorded i w).
  { eapply safe_weaken; [| |apply (safe_await (is_recorded i)); [done|apply is_recorded_stable]]; [|done].
    intros w (->%asHold_ok & Hs & Hr & _). by apply assertSameAttempt_ok in Hs as [-> _]. }
  intros []. eapply safe_bind; [apply safe_psp, is_recorded_stable|]. intros a.
  eapply safe_bind; [apply safe_await; [done|apply is_recorded_stable]|]. intros [].
  eapply safe_bind; [by apply safe_applyOutcome|]. intros r.
  eapply safe_bind; [apply safe_lift|]. intros r'.
  by returns.
Qed.

Lemma safe_findById (i : string) :
  safe any (on_intents (IntentDb.findById i))
    (fun o w => match o with Some r => is_recorded r w | None => True end).
Proof.
  apply safe_reads.
  - intros [l d s]. unfold on_intents. destruct (IntentDb.findById i _) as [d' r] eqn:H.
    by apply findById_spec in H as [-> _].
  - intros [l d s] o _. unfold on_intents. destruct (IntentDb.findById i _) as [d' r] eqn:H.
    cbn. intros ->. apply findById_spec in H as [-> H]. destruct o as [x|]; [|done]. by destruct H.
Qed.

Lemma safe_refresh (rival : World P -> World P) (i : string) :
  good_world_rival rival -> safe any (refresh findFeePolicy rival i) (fun _ => any).
Proof.
  intros Hgood. unfold refresh.
  eapply safe_bind; [apply safe_findById|]. intros [x|]; [|by returns].
  destruct (isTerminal (status x)); [by returns|].
  destruct (providerReference x); [|by returns].
  eapply safe_bind; [apply safe_await; [done|apply is_recorded_stable]|]. intros [].
  eapply safe_bind; [apply safe_psp, is_recorded_stable|]. intros a.
  eapply safe_bind; [apply safe_await; [done|apply is_recorded_stable]|]. intros [].
  eapply safe_bind; [by apply safe_applyOutcome|]. intros r.
  by returns.
Qed.

Lemma safe_catch {A} (Pre : World P -> Prop) (m : M (World P) A) (h : error -> M (World P) A)
    (Post : A -> World P -> Prop) :
  safe Pre m Post -> (forall e, safe any (h e) Post) -> safe Pre (catch m h) Post.
Proof.
  intros Hm Hh w w' r Hw Hp. unfold catch. destruct (m w) as [w1 [a|e]] eqn:H.
  - intros [= <- <-]. by apply (Hm _ _ _ Hw Hp H).
  - destruct (Hm _ _ _ Hw Hp H) as (Hw1 & He1 & _). intros H2.
    destruct (Hh e _ _ _ Hw1 I H2) as (Hw2 & He2 & Hr). split_and!; [done|by etrans|done].
Qed.

Lemma safe_reconcile_all (rival : World P -> World P) (c : Counters) (l : list PaymentIntentRecord) :
  good_world_rival rival -> safe any (reconcile_all findFeePolicy rival c l) (fun _ => any).
Proof.
  intros Hgood. revert c. induction l as [|i l IH]; intros c; cbn [reconcile_all].
  { by eapply safe_any, safe_ret. }
  eapply safe_bind; [|intros c'; apply IH]. unfold reconcile.
  destruct (providerReference i); [|by eapply safe_any, safe_ret].
  apply safe_catch; [|intros e; by eapply safe_any, safe_ret].
  eapply safe_bind; [by apply safe_refresh|]. intros o. by eapply safe_any, safe_ret.
Qed.

Lemma safe_sweep (rival : World P -> World P) :
  good_world_rival rival -> safe any (sweep findFeePolicy rival) (fun _ => any).
Proof.
  intros Hgood. unfold sweep.
  eapply safe_bind; [apply safe_gets|]. intros t.
  eapply safe_bind with (Mid := fun _ => any).
  { apply safe_reads; [|done]. intros [l d s]. unfold on_intents.
    match goal with |- context[IntentDb.findUnsettled ?a ?b ?c] =>
      pose proof (findUnsettled_state a b c) as H; destruct (IntentDb.findUnsettled a b c) end.
    cbn in *. by subst. }
  intros stale. eapply safe_bind; [by apply safe_reconcile_all|]. intros c.
  by eapply safe_any, safe_ret.
Qed.

Lemma safe_state {A} (m : M (World P) A) (Post : A -> World P -> Prop) (w : World P) :
  safe any m Post -> winv w -> winv (fst (m w)) /\ wext w (fst (m w)).
Proof.
  intros Hm Hw. destruct (m w) as [w' r] eqn:H. by destruct (Hm _ _ _ Hw I H) as (? & ? & _).
Qed.

Lemma serve_good (rival : World P -> World P) (r : request) (w : World P) :
  good_world_rival rival -> typed r -> winv w -> winv (serve rival r w) /\ wext w (serve rival r w).
Proof.
  intros Hgood Ht Hw. destruct r as [ins|ins|i| |f|t]; cbn [serve].
  - eapply safe_state; [by apply safe_payForHire|done].
  - eapply safe_state; [by apply safe_hold|done].
  - eapply safe_state; [by apply safe_refresh|done].
  - eapply safe_state; [by apply safe_sweep|done].
  - destruct Hw as [Hl Hi Hc]. split; [by split|split; reflexivity].
  - destruct Hw as [Hl Hi Hc]. split; [|by split]. split; cbn; [|done|done].
    destruct Hl. by split.
Qed.

Lemma serve_all_world_good (rs : list request) (w : World P) :
  Forall typed rs -> winv w -> winv (serve_all rs w) /\ wext w (serve_all rs w).
Proof.
  unfold serve_all. intros Hrs. revert w. induction Hrs as [|r rs Hr _ IH]; intros w Hw; cbn [fold_left].
  - split; [done|reflexivity].
  - destruct (serve_good Datatypes.id r w good_world_rival_id Hr Hw) as [Hw1 He1].
    destruct (IH _ Hw1) as [Hw2 He2]. split; [done|by etrans].
Qed.

Lemma run_schedule_inv (s : schedule) (w : World P) :
  all_typed s -> winv w -> winv (run_schedule s w) /\ wext w (run_schedule s w).
Proof.
  unfold run_schedule, all_typed. intros Hs. revert w.
  induction Hs as [|[r rs] s [Hr Hrs] _ IH]; intros w Hw; cbn [fold_left].
  - split; [done|reflexivity].
  - assert (good_world_rival (serve_all rs)) as Hgood by (intros w1; by apply serve_all_world_good).
    destruct (serve_good _ r w Hgood Hr Hw) as [Hw1 He1].
    destruct (IH _ Hw1) as [Hw2 He2]. split; [done|by etrans].
Qed.

Lemma winv_empty (t : instant) (p : P) : winv (empty_world t p).
Proof. split; cbn; [apply wf_empty|apply iwf_empty|]. by intros r ?%not_elem_of_nil. Qed.

(** ** Money marked taken is in the books *)
(** C3. After any schedule of racing payment requests, every hire charge marked succeeded
    has exactly one ledger transaction under its booking's capture key, whose debits and
    credits both equal the amount of the attempt in its currency. *)
Theorem paid_is_in_the_books (s : schedule) (t : instant) (p : P) (r : IntentRow) :
  all_typed s -> let w := run_schedule s (empty_world t p) in
  r ∈ rows (intents w) -> row_status r = succeeded -> purpose r = hire_charge ->
  exists c, with_key (hireCaptureKey (row_bookingId r)) (ledger w) = [c] /\
    Ledger.bookingId (Ledger.posted c) = Some (row_bookingId r) /\
    Ledger.draft_currency (Ledger.posted c) = row_currency r /\
    LedgerDb.side_total Ledger.debit (Ledger.entries (Ledger.posted c)) = amountMinor r /\
    LedgerDb.side_total Ledger.credit (Ledger.entries (Ledger.posted c)) = amountMinor r.
Proof.
  intros Hs w Hr Hst Hp. destruct (run_schedule_inv s _ Hs (winv_empty t p)) as [Hw _]. fold w in Hw.
  destruct (winv_captured _ Hw r Hr Hst Hp) as (c & Hk & _ & Hb & Hc & Ha).
  pose proof (winv_ledger _ Hw) as Hl. exists c. split_and!; [by apply with_key_unique|done..|].
  pose proof (wf_transactions _ Hl) as Ht. rewrite Forall_forall in Ht.
  apply find_by_Some in Hk as [Hin _]. destruct (Ht c Hin) as (_ & _ & Hbal). congruence.
Qed.

(** C6. After any schedule of racing payment requests, a booking has at most one succeeded
    attempt per purpose. *)
Theorem one_success_per_booking (s : schedule) (t : instant) (p : P) (r r' : IntentRow) :
  all_typed s -> let w := run_schedule s (empty_world t p) in
  r ∈ rows (intents w) -> r' ∈ rows (intents w) ->
  row_status r = succeeded -> row_status r' = succeeded ->
  row_bookingId r = row_bookingId r' -> purpose r = purpose r' -> r = r'.
Proof.
  intros Hs w Hr Hr' S S' Hb Hp.
  destruct (run_schedule_inv s _ Hs (winv_empty t p)) as [Hw _]. fold w in Hw.
  pose proof (winv_intents _ Hw) as Hi.
  pose proof (iwf_one _ Hi r r' Hr Hr') as Hc. apply bool_decide_eq_false in Hc.
  destruct (decide (row_id r = row_id r')) as [He|He]; [|by destruct Hc].
  pose proof (find_by_unique row_id _ r (iwf_ids _ Hi) Hr) as H1.
  pose proof (find_by_unique row_id _ r' (iwf_ids _ Hi) Hr') as H2. rewrite He in H1. congruence.
Qed.

(** ** Refusals before anything is written *)
(** A hire whose fee policy is missing or whose parts do not add up to its total is refused
    before anything is written or anyone is called. *)
Theorem unsettleable_hire_is_refused_first (rival : World P -> World P)
    (ins : HirePaymentInstruction) (w : World P) :
  findFeePolicy (ins_categoryVersionId ins) = None \/
  amount (charge_itemCharge (ins_charge ins)) + amount (charge_renterFee (ins_charge ins))
    <> amount (charge_total (ins_charge ins)) ->
  fst (payForHire findFeePolicy references rival ins w) = w /\
  is_ok (snd (payForHire findFeePolicy references rival ins w)) = false.
Proof.
  intros H. unfold payForHire, settle. unfold_M.
  destruct (findFeePolicy (ins_categoryVersionId ins)) as [policy|]; [|done].
  destruct H as [|Hne]; [done|].
  destruct (settleHire (ins_charge ins) policy) as [s|e] eqn:Hs; [|by destruct e].
  exfalso. apply Hne. by destruct (settleHire_parts _ _ _ Hs) as (_ & _ & _ & ? & _).
Qed.

(** ** What each step leaves alone *)
Lemma keeps_intents_capture (i : PaymentIntentRecord) (item fee : Money) (a : PaymentAttempt) :
  keeps (@intents P) (postCapture findFeePolicy Datatypes.id i item fee a).
Proof.
  assert (forall A (m : M LedgerDb.Db A), keeps (@intents P) (on_ledger m)) as Hl.
  { intros A m w. unfold on_ledger. by destruct (m (ledger w)). }
  unfold postCapture.
  repeat first [ apply keeps_bind; [|intros ?] | apply Hl | by intros w ].
  unfold settle. destruct (findFeePolicy _) as [policy|]; [|by intros w].
  destruct (settleHire _ policy) as [|[]]; by intros w.
Qed.

Lemma keeps_ledger_intents {A} (m : M IntentDb.Db A) : keeps (@ledger P) (on_intents m).
Proof. intros w. unfold on_intents. by destruct (m (intents w)). Qed.

Lemma keeps_ledger_psp {A} (m : M P A) : keeps (@ledger P) (on_psp m).
Proof. intros w. unfold on_psp. by destruct (m (psp w)). Qed.

Lemma keeps_ledger_apply (i : PaymentIntentRecord) (a : PaymentAttempt) :
  purposeOf (division i) = damage_security ->
  keeps (@ledger P) (applyOutcome findFeePolicy Datatypes.id i a).
Proof.
  intros Hp. unfold applyOutcome. apply keeps_bind; [by intros w|]. intros [|]; [|by intros w].
  apply keeps_bind.
  - destruct (att_status a); try by intros w. destruct (division i); [done|by intros w].
  - intros []. apply keeps_bind; [by intros w|]. intros []. apply keeps_bind; [by intros w|].
    intros t. apply keeps_ledger_intents.
Qed.

Lemma keeps_lift_ok {X A B} (f : World P -> X) (a : A) (k : A -> M (World P) B) :
  keeps f (k a) -> keeps f (mbind k (lift (Ok a))).
Proof. intros Hk w. exact (Hk w). Qed.

(** Securing a handover never touches the ledger, whatever the provider answers: a hold is
    not income. *)
Theorem hold_posts_nothing (ins : DamageSecurityInstruction) (w : World P) :
  ledger (fst (holdDamageSecurity findFeePolicy references Datatypes.id ins w)) = ledger w.
Proof.
  revert w. change (keeps (@ledger P) (holdDamageSecurity findFeePolicy references Datatypes.id ins)).
  unfold holdDamageSecurity. destruct (excess ins) as [e|]; [|by intros w].
  destruct (amount e =? 0); [by intros w|].
  apply keeps_bind. { unfold attemptKeyFor. apply keeps_bind; [apply keeps_ledger_intents|by intros l w]. }
  intros key. apply keeps_bind; [by intros w|]. intros []. apply keeps_bind; [by intros w|]. intros t.
  apply keeps_bind; [apply keeps_ledger_intents|]. intros found.
  apply keeps_bind; [by intros w|]. intros same.
  destruct (asHold same) as [i|e'] eqn:Hh; [|by intros w].
  assert (purposeOf (division i) = damage_security) as Hp
    by (unfold asHold in Hh; case_bool_decide; [by injection Hh as <-|done]).
  apply keeps_lift_ok.
  destruct (negb _); [by intros w|].
  apply keeps_bind; [by intros w|]. intros []. apply keeps_bind; [apply keeps_ledger_psp|]. intros a.
  apply keeps_bind; [by intros w|]. intros []. apply keeps_bind; [by apply keeps_ledger_apply|].
  intros applied. apply keeps_bind; [by intros w|]. by intros r w.
Qed.

(** ** Reading an attempt again *)
Lemma recordOutcome_row (db db' : IntentDb.Db) (i : string) (o : PaymentIntentOutcome) (t : instant)
    (x : PaymentIntentRecord) :
  iwf db -> IntentDb.recordOutcome i o t db = (db', Ok x) ->
  iwf db' /\ exists r, r ∈ rows db /\ row_id r = i /\ rows db' = IntentDb.replace (IntentDb.with_outcome o t r) (rows db) /\
    IntentDb.toRecord (IntentDb.with_outcome o t r) = Ok x /\ status x = status_of (outcome_status o) /\
    IntentDb.findById i db' = (db', Ok (Some x)).
Proof.
  intros Hwf H. destruct (recordOutcome_spec _ _ _ _ _ _ Hwf H) as (Hwf' & _ & Hres).
  destruct Hres as [[_ ?]|(r & Hr & Hid & Hrows & rec & [= <-] & Hrec & _)]; [done|].
  pose proof (toRecord_ok _ _ Hrec) as (_ & Hst & _). split; [done|]. exists r.
  split_and!; [done|done|done|done|done|].
  assert (IntentDb.with_outcome o t r ∈ rows db') as Hin by (rewrite Hrows; by apply (replace_elem r)).
  pose proof (find_by_unique row_id _ _ (iwf_ids _ Hwf') Hin) as Hf.
  change (row_id (IntentDb.with_outcome o t r)) with (row_id r) in Hf. rewrite Hid in Hf.
  unfold IntentDb.findById, IntentDb.by_row_id. unfold_M. by rewrite Hf, Hrec.
Qed.

Lemma on_intents_ok {A} (m : M IntentDb.Db A) (w w' : World P) (x : A) :
  on_intents m w = (w', Ok x) ->
  m (intents w) = (intents w', Ok x) /\ ledger w' = ledger w /\ psp w' = psp w.
Proof. unfold on_intents. destruct (m (intents w)) as [db r]. by intros [= <- ->]. Qed.

Lemma on_intents_run {A} (m : M IntentDb.Db A) (w : World P) (x : A) :
  m (intents w) = (intents w, Ok x) -> on_intents m w = (w, Ok x).
Proof. unfold on_intents. intros ->. by destruct w. Qed.

(** What an undisturbed [applyOutcome] that returns has done. *)
Lemma applyOutcome_returns (i x : PaymentIntentRecord) (a : PaymentAttempt) (w w' : World P) :
  winv w -> is_recorded i w -> applyOutcome findFeePolicy Datatypes.id i a w = (w', Ok x) ->
  (x = i /\ w' = w /\ status i = status_of (att_status a)) \/
  (exists o t r, outcome_status o = att_status a /\ isTerminal (status i) = false /\
     r ∈ rows (intents w) /\ row_id r = id i /\
     rows (intents w') = IntentDb.replace (IntentDb.with_outcome o t r) (rows (intents w)) /\
     IntentDb.toRecord (IntentDb.with_outcome o t r) = Ok x /\ status x = status_of (att_status a) /\
     IntentDb.findById (id i) (intents w') = (intents w', Ok (Some x))).
Proof.
  intros Hw Hrec H. unfold applyOutcome in H.
  apply bind_ok in H as (w0 & d & Hd & H). injection Hd as <- Hd.
  destruct d; [right|left].
  - apply bind_ok in H as (w1 & [] & Hcap & H).
    assert (intents w1 = intents w) as Hi1.
    { destruct (att_status a), (division i) as [item fee|]; try (by injection Hcap as <-).
      pose proof (keeps_intents_capture i item fee a w) as Hk. by rewrite Hcap in Hk. }
    apply bind_ok in H as (w2 & [] & Hw2 & H). injection Hw2 as <-.
    apply bind_ok in H as (w3 & t & Hw3 & H). injection Hw3 as <- _.
    apply on_intents_ok in H as (H & _ & _). rewrite Hi1 in H.
    destruct (recordOutcome_row _ _ _ _ _ _ (winv_intents _ Hw) H)
      as (_ & r & Hr & Hid & Hrows & Hto & Hst & Hfind).
    exists (mkOutcome (att_status a) (att_providerReference a) (att_expiresAt a) (att_failure a)), t, r.
    split_and!; try done.
    unfold dispositionOf in Hd. case_bool_decide; [done|]. by destruct (isTerminal (status i)).
  - injection H as <- <-. unfold dispositionOf in Hd. case_bool_decide; [done|].
    by destruct (isTerminal (status i)).
Qed.

(** Refreshing an attempt that a refresh has just settled changes nothing and answers the
    same. *)
Theorem refresh_is_idempotent (i : string) (w w' : World P) (x : PaymentIntentRecord) :
  winv w -> refresh findFeePolicy Datatypes.id i w = (w', Ok (Some x)) ->
  isTerminal (status x) = true ->
  refresh findFeePolicy Datatypes.id i w' = (w', Ok (Some x)).
Proof.
  intros Hw H Hterm.
  enough (IntentDb.findById i (intents w') = (intents w', Ok (Some x))) as Hf.
  { unfold refresh. rewrite (bind_run _ _ _ w' (Some x)) by by apply on_intents_run. by rewrite Hterm. }
  unfold refresh in H. apply bind_ok in H as (w1 & o & H1 & H).
  apply on_intents_ok in H1 as (H1 & Hl & Hp).
  destruct (findById_spec _ _ _ _ H1) as [Hi Hspec].
  assert (w1 = w) as -> by (destruct w, w1; cbn in *; congruence).
  destruct o as [y|]; [|done]. destruct Hspec as [Hrec Hid].
  destruct (isTerminal (status y)) eqn:Hy; [by injection H as <- <-|].
  destruct (providerReference y) as [ref_|]; [|injection H as <- <-; congruence].
  apply bind_ok in H as (w2 & [] & Hw2 & H). injection Hw2 as <-.
  apply bind_ok in H as (w3 & a & Hpsp & H).
  assert (winv w3 /\ is_recorded y w3) as [Hw3 Hrec3].
  { destruct (safe_psp (is_recorded y) (provider_read ref_) (is_recorded_stable y) w w3 (Ok a) Hw Hrec Hpsp)
      as (? & _ & ?). done. }
  apply bind_ok in H as (w4 & [] & Hw4 & H). injection Hw4 as <-.
  apply bind_ok in H as (w5 & y' & Happ & H). injection H as <- ->.
  destruct (applyOutcome_returns y x a w3 w5 Hw3 Hrec3 Happ)
    as [(-> & _ & _)|(o & t & r & _ & _ & _ & _ & _ & _ & _ & Hfind)]; [congruence|].
  by rewrite <- Hid.
Qed.

(** ** The sweep *)

(** What becomes of an attempt that the sweep has read. *)
Inductive fate : Type := is_settled | is_pending | is_unreconcilable | is_failed.
#[local] Instance fate_dec : EqDecision fate.
Proof. solve_decision. Defined.

Definition fate_of (r : result (option PaymentIntentRecord)) : fate :=
  match r with
  | Ok (Some i) => if isTerminal (status i) then is_settled else is_pending
  | Ok None => is_pending
  | Err _ => is_failed
  end.

(** Every attempt that has a reference is refreshed, once and in turn; the others are left. *)
Fixpoint refreshed_in_turn (rival : World P -> World P) (l : list PaymentIntentRecord) (w : World P) : World P * list fate :=
  match l with
  | [] => (w, [])
  | i :: l' =>
      let '(w1, f) := match providerReference i with
                      | None => (w, is_unreconcilable)
                      | Some _ => let '(w1, r) := refresh findFeePolicy rival (id i) w in (w1, fate_of r)
                      end in
      let '(w2, fs) := refreshed_in_turn rival l' w1 in (w2, f :: fs)
  end.

Definition met (f : fate) (fs : list fate) : nat := length (filter (fun x => x = f) fs).

Lemma met_cons (f g : fate) (fs : list fate) : met f (g :: fs) = (if decide (g = f) then 1 + met f fs else met f fs)%nat.
Proof. unfold met. rewrite filter_cons. by destruct (decide (g = f)). Qed.

Lemma reconcile_all_fates (rival : World P -> World P) (l : list PaymentIntentRecord) (c : Counters) (w : World P) :
  let '(w', fs) := refreshed_in_turn rival l w in
  reconcile_all findFeePolicy rival c l w =
    (w', Ok (mkCounters (c_settled c + met is_settled fs) (c_stillPending c + met is_pending fs)
               (c_unreconcilable c + met is_unreconcilable fs) (c_failed c + met is_failed fs))).
Proof.
  revert c w. induction l as [|i l IH]; intros c w; cbn [reconcile_all refreshed_in_turn].
  { unfold met. destruct c. cbn. by rewrite !Nat.add_0_r. }
  unfold reconcile, catch. destruct (providerReference i) as [ref_|].
  - destruct (refresh findFeePolicy rival (id i) w) as [w1 r] eqn:E.
    destruct (refreshed_in_turn rival l w1) as [w2 fs] eqn:E2. run_binds. rewrite E.
    destruct r as [[x|]|e]; run_binds; cbn [fate_of]; [destruct (isTerminal (status x))| |];
      match goal with |- reconcile_all _ _ ?c1 l w1 = _ => specialize (IH c1 w1) end; rewrite E2 in IH; rewrite IH; rewrite !met_cons; repeat case_decide; try done; cbn; do 3 f_equal; lia.
  - destruct (refreshed_in_turn rival l w) as [w2 fs] eqn:E2. run_binds.
    match goal with |- reconcile_all _ _ ?c1 l w = _ => specialize (IH c1 w) end. rewrite E2 in IH. rewrite IH, !met_cons. repeat case_decide; try done; cbn; do 3 f_equal; lia.
Qed.

Definition overdue (bound : instant) (r : IntentDb.IntentRow) : Prop := IntentDb.row_status r ∉ TERMINAL_STATUSES /\ IntentDb.row_updatedAt r < bound.

(** The batch: overdue attempts, the longest unchanged first, and all of them where they
    are fewer than the limit. *)
Lemma batch_is_stalest (bound : instant) (limit : nat) (db : IntentDb.Db) :
  let batch := take limit (merge_sort IntentDb.stalest_first (filter (fun r => IntentDb.row_status r ∉ TERMINAL_STATUSES /\ IntentDb.row_updatedAt r < bound) (IntentDb.rows db))) in
  (length batch <= limit)%nat /\ StronglySorted IntentDb.stalest_first batch /\
  batch ⊆+ IntentDb.rows db /\ (forall r, r ∈ batch -> overdue bound r) /\
  (forall r, r ∈ IntentDb.rows db -> overdue bound r -> r ∈ batch \/
     length batch = limit /\ forall b, b ∈ batch -> IntentDb.row_updatedAt b <= IntentDb.row_updatedAt r).
Proof.
  set (l := merge_sort _ _). intros batch. unfold overdue.
  assert (Transitive IntentDb.stalest_first /\ Total IntentDb.stalest_first) as [Htr Hto]
    by (unfold IntentDb.stalest_first; split; [intros a b c; lia|intros a b; lia]).
  assert (StronglySorted IntentDb.stalest_first l) as Hs by (apply StronglySorted_merge_sort; apply _).
  assert (forall r, r ∈ l <-> (IntentDb.row_status r ∉ TERMINAL_STATUSES /\ IntentDb.row_updatedAt r < bound) /\ r ∈ IntentDb.rows db) as Hin
    by (intros r; unfold l; rewrite merge_sort_Permutation, list_elem_of_filter; tauto).
  assert (l = batch ++ drop limit l) as Hl by (symmetry; apply take_drop).
  split_and!.
  - unfold batch. rewrite length_take. lia.
  - rewrite Hl in Hs. by apply StronglySorted_app_1_l in Hs.
  - etrans; [apply sublist_submseteq, sublist_take|]. unfold l. rewrite merge_sort_Permutation. apply sublist_submseteq, sublist_filter.
  - intros r Hr. assert (r ∈ l) as H by (rewrite Hl; apply elem_of_app; by left). apply Hin in H. tauto.
  - intros r Hr Ho. assert (r ∈ l) as H by (apply (proj2 (Hin r)); done). rewrite Hl in H. apply elem_of_app in H as [H|H]; [by left|right]. split.
    + unfold batch. apply length_take_le. destruct (Nat.le_gt_cases limit (length l)) as [?|Hlt]; [done|].
      rewrite drop_ge in H by lia. by apply elem_of_nil in H.
    + intros b Hb. rewrite Hl in Hs. exact (StronglySorted_app_1_elem_of _ batch (drop limit l) b r Hs Hb H).
Qed.

(** C40. The reconciliation sweep takes the attempts that have been open and unchanged for a
    quarter of an hour, the longest unchanged first and no more than its batch, refreshes
    each one that has a reference, once and in turn, whatever the provider throws, and
    leaves the others; it always answers how many it examined, how many of them are settled,
    still pending, without a reference or failed to refresh, and whether the batch was full.
    Where a row cannot be read, it fails before any of them is touched. *)
Theorem sweep_accounts_for_all (rival : World P -> World P) (w : World P) :
  exists batch : list IntentDb.IntentRow,
    ((length batch <= BATCH_LIMIT)%nat /\ StronglySorted IntentDb.stalest_first batch /\
     batch ⊆+ IntentDb.rows (intents w) /\ (forall r, r ∈ batch -> overdue (now w - 15 * 60000) r) /\
     (forall r, r ∈ IntentDb.rows (intents w) -> overdue (now w - 15 * 60000) r -> r ∈ batch \/
        length batch = BATCH_LIMIT /\ forall b, b ∈ batch -> IntentDb.row_updatedAt b <= IntentDb.row_updatedAt r)) /\
    match try_map IntentDb.toRecord batch with
    | Err e => sweep findFeePolicy rival w = (w, Err e)
    | Ok stale =>
        let '(w', fates) := refreshed_in_turn rival stale w in
        sweep findFeePolicy rival w = (w', Ok {|
          examined := length batch;
          settled := met is_settled fates;
          stillPending := met is_pending fates;
          unreconcilable := met is_unreconcilable fates;
          failed_ := met is_failed fates;
          reachedLimit := bool_decide (length batch = BATCH_LIMIT) |})
    end.
Proof.
  eexists. split; [apply batch_is_stalest|]. unfold sweep, IntentDb.findUnsettled, on_intents. run_binds.
  unfold addMinutes, STALE_AFTER_MINUTES. change (now w + - (15) * 60000) with (now w - 15 * 60000).
  set (batch := take BATCH_LIMIT _).
  assert (length batch <= BATCH_LIMIT)%nat as Hlen by (unfold batch; rewrite length_take; lia).
  destruct (try_map IntentDb.toRecord batch) as [stale|e] eqn:Ht; run_binds; [|by destruct w].
  pose proof (try_map_length _ _ _ Ht) as Hst.
  replace (mkWorld (ledger w) (intents w) (psp w)) with w by (by destruct w).
  pose proof (reconcile_all_fates rival stale (mkCounters 0 0 0 0) w) as H. destruct (refreshed_in_turn rival stale w) as [w' fs].
  assert ((BATCH_LIMIT <=? length batch)%nat = bool_decide (length batch = BATCH_LIMIT)) as Hfull
    by (destruct (Nat.leb_spec BATCH_LIMIT (length batch)); symmetry; [apply bool_decide_eq_true_2|apply bool_decide_eq_false_2]; lia).
  rewrite H. run_binds. by rewrite Hst, Hfull.
Qed.

End Payments.
