(* ===== verification/PaymentsRace.v ===== *)
(** * Races and repeats

    A store's read-then-write under a race equals the race first and then the
    write; a second press of pay finds the first attempt and calls nobody; and
    the one thing racing refreshes can lose. *)

From S2P Require Import Prelude JsNumber Text Money Ledger LedgerStore LedgerProofs.
From S2P Require Import LedgerTheorems Pricing HireSettlement PaymentIntent IntentStore.
From S2P Require Import IntentProofs Payments PaymentsProofs PaymentsTheorems.
From Stdlib Require Import Ascii.

#[local] Open Scope string_scope.
#[local] Open Scope list_scope.
#[local] Open Scope Z_scope.

Import Money (CurrencyCode, amount, currency, Money, mkMoney, SUPPORTED_CURRENCIES).
Import PaymentIntent HireSettlement Payments Reconciliation.
Import IntentDb (IntentRow, row_id, row_bookingId, row_status, row_currency, row_attemptKey,
  amountMinor, rows, purpose).

Section Race.
Context {Ids : UuidSource}.

(** ** The stores linearise *)
Lemma ledger_post_linearises (rival : LedgerDb.Db -> LedgerDb.Db) (d : Ledger.LedgerTransactionDraft)
    (db : LedgerDb.Db) :
  LedgerDb.post rival d db =
  match LedgerDb.by_key (Ledger.idempotencyKey d) db with
  | Some p => (db, Ok p)
  | None => LedgerDb.post Datatypes.id d (rival db)
  end.
Proof.
  unfold LedgerDb.post, LedgerDb.findByIdempotencyKey. unfold_M.
  destruct (LedgerDb.by_key (Ledger.idempotencyKey d) db) as [p|]; [done|].
  destruct (LedgerDb.by_key (Ledger.idempotencyKey d) (rival db)) as [p|] eqn:Hk; [|done].
  assert (LedgerDb.insert_transaction d (rival db) =
          (rival db, Err (DatabaseError "ledger_transactions_idempotencyKey_key"))) as ->; [|by rewrite Hk].
  unfold LedgerDb.insert_transaction, LedgerDb.refusal. rewrite Hk.
  by rewrite bool_decide_eq_true_2.
Qed.

Lemma ledger_accountFor_linearises (rival : LedgerDb.Db -> LedgerDb.Db) (spec : Ledger.LedgerAccountSpec)
    (db : LedgerDb.Db) (i : string) :
  Ledger.accountIdentityOf spec = Ok i ->
  LedgerDb.accountFor rival spec db =
  match LedgerDb.by_identity i db with
  | Some a => (db, Ok a)
  | None => LedgerDb.accountFor Datatypes.id spec (rival db)
  end.
Proof.
  intros Hi. unfold LedgerDb.accountFor. unfold_M. rewrite Hi.
  destruct (LedgerDb.by_identity i db) as [a|]; [done|].
  destruct (LedgerDb.by_identity i (rival db)) as [a|] eqn:Hk; [|done].
  assert (LedgerDb.insert_account i spec (rival db) =
          (rival db, Err (DatabaseError "ledger_accounts_identity_key"))) as ->; [|by rewrite Hk].
  unfold LedgerDb.insert_account. rewrite Hk. by rewrite bool_decide_eq_true_2.
Qed.

Lemma intent_begin_linearises (references : IntentRow -> bool) (rival : IntentDb.Db -> IntentDb.Db)
    (n : NewPaymentIntent) (t : instant) (db : IntentDb.Db) :
  IntentDb.begin references rival n t db =
  match IntentDb.by_attempt_key (new_attemptKey n) db with
  | Some r => (db, IntentDb.toRecord r)
  | None => IntentDb.begin references Datatypes.id n t (rival db)
  end.
Proof.
  unfold IntentDb.begin. unfold_M.
  destruct (IntentDb.by_attempt_key (new_attemptKey n) db) as [p|]; [done|].
  destruct (IntentDb.by_attempt_key (new_attemptKey n) (rival db)) as [p|] eqn:Hk; [|done].
  assert (IntentDb.insert references n t (rival db) =
          (rival db, Err (DatabaseError "payment_intents_attemptKey_key"))) as ->; [|by rewrite Hk].
  unfold IntentDb.insert. cbn [row_attemptKey IntentDb.row_for]. rewrite Hk. by rewrite bool_decide_eq_true_2.
Qed.

(** Whatever other connections commit between a store's read and its write, the ledger's
    post and accountFor and the attempts' begin end as an undisturbed call would, made
    before the race or after it. *)
Theorem store_operations_linearise (references : IntentRow -> bool)
    (lr : LedgerDb.Db -> LedgerDb.Db) (ir : IntentDb.Db -> IntentDb.Db)
    (d : Ledger.LedgerTransactionDraft) (n : NewPaymentIntent) (t : instant)
    (l : LedgerDb.Db) (i : IntentDb.Db) :
  (LedgerDb.post lr d l = LedgerDb.post Datatypes.id d l \/
   LedgerDb.post lr d l = LedgerDb.post Datatypes.id d (lr l)) /\
  (forall spec, LedgerDb.accountFor lr spec l = LedgerDb.accountFor Datatypes.id spec l \/
                LedgerDb.accountFor lr spec l = LedgerDb.accountFor Datatypes.id spec (lr l)) /\
  (IntentDb.begin references ir n t i = IntentDb.begin references Datatypes.id n t i \/
   IntentDb.begin references ir n t i = IntentDb.begin references Datatypes.id n t (ir i)).
Proof.
  split_and!.
  - rewrite !(ledger_post_linearises lr), !(ledger_post_linearises Datatypes.id d l).
    destruct (LedgerDb.by_key _ l); auto.
  - intros spec. destruct (Ledger.accountIdentityOf spec) as [k|e] eqn:Hk.
    + rewrite !(ledger_accountFor_linearises lr spec l k Hk),
        !(ledger_accountFor_linearises Datatypes.id spec l k Hk).
      destruct (LedgerDb.by_identity k l); auto.
    + left. unfold LedgerDb.accountFor. unfold_M. by rewrite Hk.
  - rewrite !(intent_begin_linearises references ir), !(intent_begin_linearises references Datatypes.id n t i).
    destruct (IntentDb.by_attempt_key _ i); auto.
Qed.

(** ** The attempt key counts failures in the rows *)
Definition failed_rows (p : PaymentIntentPurpose) (booking : string) (l : list IntentRow) : nat :=
  length (filter (fun r => row_bookingId r = booking /\ purpose r = p /\ row_status r = failed) l).

Lemma failures_try_map (p : PaymentIntentPurpose) (l : list IntentRow) (recs : list PaymentIntentRecord) :
  try_map IntentDb.toRecord l = Ok recs ->
  failures p recs = length (filter (fun r => purpose r = p /\ row_status r = failed) l).
Proof.
  unfold failures. revert recs. induction l as [|r l IH]; intros recs; cbn [try_map].
  { by intros [= <-]. }
  unfold_result. destruct (IntentDb.toRecord r) as [x|] eqn:Hx; [|done].
  destruct (try_map IntentDb.toRecord l) as [xs|] eqn:Hxs; [|done]. intros [= <-].
  apply toRecord_ok in Hx as (Hm & Hst & _). pose proof (matches_purpose _ _ Hm) as Hp.
  specialize (IH xs eq_refl). rewrite !filter_cons, Hp, Hst.
  destruct (decide _); cbn [length]; lia.
Qed.

Lemma filter_and {A} (Q R : A -> Prop) `{!forall x, Decision (Q x)} `{!forall x, Decision (R x)} (l : list A) :
  filter Q (filter R l) = filter (fun x => R x /\ Q x) l.
Proof.
  induction l as [|x l IH]; [done|]. rewrite !filter_cons.
  destruct (decide (R x)), (decide (R x /\ Q x)); try tauto; rewrite ?filter_cons, ?IH;
    try destruct (decide (Q x)); tauto.
Qed.

Lemma findForBooking_failures (p : PaymentIntentPurpose) (b : string) (db db' : IntentDb.Db)
    (recs : list PaymentIntentRecord) :
  IntentDb.findForBooking b db = (db', Ok recs) -> db' = db /\ failures p recs = failed_rows p b (rows db).
Proof.
  unfold IntentDb.findForBooking. unfold_M. intros [= <- H]. split; [done|].
  rewrite (failures_try_map p _ _ H). unfold failed_rows.
  rewrite <- (filter_and (fun r => purpose r = p /\ row_status r = failed)).
  apply Permutation_length. apply filter_Permutation, merge_sort_Permutation.
Qed.
End Race.

(** ** A second press *)
Section Press.
Context {Ids : UuidSource} {P : Type} {Provider : PaymentProvider P}.
Variable findFeePolicy : string -> option Pricing.CategoryFeePolicy.
Variable references : IntentRow -> bool.

Lemma begin_row (n : NewPaymentIntent) (t : instant) (db db' : IntentDb.Db) (found : PaymentIntentRecord) :
  iwf db -> currency (new_amount n) ∈ SUPPORTED_CURRENCIES ->
  IntentDb.begin references Datatypes.id n t db = (db', Ok found) ->
  iwf db' /\ exists r, r ∈ rows db' /\ row_attemptKey r = new_attemptKey n /\
    IntentDb.toRecord r = Ok found /\
    (db' = db \/ rows db' = rows db ++ [r] /\ row_status r = initiated).
Proof.
  intros Hwf Hcur H. destruct (begin_spec references n t db db' (Ok found) Hwf Hcur H) as (Hwf' & _).
  split; [done|]. revert H. unfold IntentDb.begin. unfold_M.
  destruct (IntentDb.by_attempt_key (new_attemptKey n) db) as [r|] eqn:Hk.
  - apply find_by_Some in Hk as [Hr Hkey]. intros [= <- Hrec]. exists r. split_and!; [done..|by left].
  - unfold Datatypes.id at 1.
    destruct (IntentDb.insert references n t db) as [db1 res1] eqn:Hins.
    destruct (insert_iwf references n t db db1 res1 Hwf Hcur Hins) as (_ & _ & Hres).
    destruct res1 as [r|e].
    + destruct Hres as (-> & Hrows & Href). destruct (toRecord_total _ Href) as (i & Hi). rewrite Hi.
      intros [= <- <-]. exists (IntentDb.row_for n db t). rewrite Hrows.
      split_and!; [apply elem_of_app; right; left|done|done|by right].
    + subst db1. unfold Datatypes.id. rewrite Hk. done.
Qed.

Lemma begin_again (n : NewPaymentIntent) (t : instant) (db : IntentDb.Db) (r : IntentRow)
    (x : PaymentIntentRecord) :
  iwf db -> r ∈ rows db -> row_attemptKey r = new_attemptKey n -> IntentDb.toRecord r = Ok x ->
  IntentDb.begin references Datatypes.id n t db = (db, Ok x).
Proof.
  intros Hwf Hr Hk Hx.
  assert (IntentDb.by_attempt_key (new_attemptKey n) db = Some r) as Hf.
  { rewrite <- Hk. by apply find_by_unique; [apply iwf_keys|]. }
  unfold IntentDb.begin. unfold_M. by rewrite Hf, Hx.
Qed.

Lemma toRecord_with_outcome (o : PaymentIntentOutcome) (t : instant) (r : IntentRow)
    (y x : PaymentIntentRecord) :
  IntentDb.toRecord r = Ok y -> IntentDb.toRecord (IntentDb.with_outcome o t r) = Ok x ->
  bookingId x = bookingId y /\ ownerId x = ownerId y /\ categoryVersionId x = categoryVersionId y /\
  intent_amount x = intent_amount y /\ division x = division y.
Proof.
  unfold IntentDb.toRecord. unfold_result. cbn [IntentDb.with_outcome amountMinor row_currency purpose
    IntentDb.itemChargeMinor IntentDb.renterFeeMinor].
  destruct (Money.money (amountMinor r) _); [|done]. destruct (purpose r).
  - destruct (IntentDb.itemChargeMinor r), (IntentDb.renterFeeMinor r); try done.
    destruct (Money.money z _); [|done]. destruct (Money.money z0 _); [|done].
    by intros [= <-] [= <-].
  - by intros [= <-] [= <-].
Qed.

Lemma assertSameAttempt_again (n : NewPaymentIntent) (y x : PaymentIntentRecord) :
  bookingId x = bookingId y /\ ownerId x = ownerId y /\ categoryVersionId x = categoryVersionId y /\
  intent_amount x = intent_amount y /\ division x = division y ->
  assertSameAttempt n y = Ok y -> assertSameAttempt n x = Ok x.
Proof.
  intros (Hb & Ho & Hc & Ha & Hd). unfold assertSameAttempt, dividesDifferently.
  rewrite Hb, Ho, Hc, Ha, Hd.
  match goal with |- context[if ?b then _ else _] => destruct b end; done.
Qed.

Lemma filter_fmap_length {A} (Q : A -> Prop) `{!forall x, Decision (Q x)} (g : A -> A) (l : list A) :
  (forall x, x ∈ l -> Q (g x) <-> Q x) -> length (filter Q (g <$> l)) = length (filter Q l).
Proof.
  induction l as [|x l IH]; intros Hq; [done|]. cbn [fmap list_fmap]. rewrite !filter_cons.
  assert (length (filter Q (g <$> l)) = length (filter Q l)) as IHl
    by (apply IH; intros y Hy; apply Hq; by right).
  assert (Q (g x) <-> Q x) as Hx by (apply Hq; left).
  destruct (decide (Q (g x))), (decide (Q x)); cbn [length]; rewrite ?IHl; tauto.
Qed.

Lemma failed_rows_replace (p : PaymentIntentPurpose) (b : string) (db : IntentDb.Db) (r : IntentRow)
    (o : PaymentIntentOutcome) (t : instant) :
  iwf db -> r ∈ rows db -> row_status r <> failed -> status_of (outcome_status o) <> failed ->
  failed_rows p b (IntentDb.replace (IntentDb.with_outcome o t r) (rows db)) = failed_rows p b (rows db).
Proof.
  intros Hwf Hr Hrs Hos. apply filter_fmap_length. intros x Hx.
  destruct (decide (row_id x = row_id (IntentDb.with_outcome o t r))) as [He|]; [|done].
  assert (x = r) as ->.
  { change (row_id (IntentDb.with_outcome o t r)) with (row_id r) in He.
    pose proof (find_by_unique row_id _ r (iwf_ids _ Hwf) Hr) as H1.
    pose proof (find_by_unique row_id _ x (iwf_ids _ Hwf) Hx) as H2. rewrite He in H2. congruence. }
  cbn. tauto.
Qed.

Lemma settle_ok (b v : string) (c : HireCharge) (w w1 : World P) (s : HireSettlement) :
  settle findFeePolicy b v c w = (w1, Ok s) ->
  w1 = w /\ forall w' : World P, settle findFeePolicy b v c w' = (w', Ok s).
Proof.
  unfold settle. destruct (findFeePolicy v) as [policy|]; [|done].
  destruct (settleHire c policy) as [x|[]]; try done. by intros [= <- <-].
Qed.

Lemma attemptKeyFor_key (b : string) (p : PaymentIntentPurpose) (w w' : World P) (key : string) :
  attemptKeyFor b p w = (w', Ok key) ->
  w' = w /\ key = match p with
                  | hire_charge => hireAttemptKey b (failed_rows p b (rows (intents w)))
                  | damage_security => securityHoldKey b (failed_rows p b (rows (intents w)))
                  end.
Proof.
  intros H. unfold attemptKeyFor in H. apply bind_ok in H as (w1 & recs & H1 & H2).
  injection H2 as <- <-. apply on_intents_ok in H1 as (H1 & Hl & Hp).
  destruct (findForBooking_failures p _ _ _ _ H1) as [Hi Hn].
  split; [destruct w, w1; cbn in *; congruence|]. by rewrite Hn.
Qed.

Lemma attemptKeyFor_total (b : string) (p : PaymentIntentPurpose) (w : World P) :
  winv w -> exists key, attemptKeyFor b p w = (w, Ok key).
Proof.
  intros Hw. unfold attemptKeyFor.
  assert (exists recs, IntentDb.findForBooking b (intents w) = (intents w, Ok recs)) as [recs Hr].
  { unfold IntentDb.findForBooking. unfold_M.
    pose proof (iwf_rows _ (winv_intents _ Hw)) as Hrows.
    assert (forall l, Forall (fun r => IntentDb.row_refusal r = None) l ->
              exists recs, try_map IntentDb.toRecord l = Ok recs) as Ht.
    { induction 1 as [|r l Hr _ [xs IH]]; [by exists []|]. cbn [try_map]. unfold_result.
      destruct (toRecord_total r Hr) as (x & ->). rewrite IH. by eexists. }
    destruct (Ht (merge_sort IntentDb.newest_first
      (filter (fun r => row_bookingId r = b) (rows (intents w))))) as [recs Hrecs].
    - rewrite merge_sort_Permutation. rewrite Forall_forall in *.
      intros r [_ Hin]%list_elem_of_filter. by apply Hrows.
    - exists recs. by rewrite Hrecs. }
  rewrite (bind_run _ _ _ _ _ (on_intents_run _ w recs Hr)). by eexists.
Qed.

(** The request a hire instruction makes of the store. *)
Definition proposal (ins : HirePaymentInstruction) (key : string) : NewPaymentIntent := {|
  new_bookingId := ins_bookingId ins;
  new_attemptKey := key;
  new_ownerId := ins_ownerId ins;
  new_categoryVersionId := ins_categoryVersionId ins;
  new_division := divides (charge_itemCharge (ins_charge ins)) (charge_renterFee (ins_charge ins));
  new_amount := charge_total (ins_charge ins);
  new_provider := provider_name |}.

(** A press that finds an attempt already past [initiated]. *)
Lemma press_finds (ins : HirePaymentInstruction) (w : World P) (r : IntentRow)
    (x : PaymentIntentRecord) (s : HireSettlement) :
  winv w ->
  settle findFeePolicy (ins_bookingId ins) (ins_categoryVersionId ins) (ins_charge ins) w = (w, Ok s) ->
  r ∈ rows (intents w) ->
  row_attemptKey r = hireAttemptKey (ins_bookingId ins)
                       (failed_rows hire_charge (ins_bookingId ins) (rows (intents w))) ->
  IntentDb.toRecord r = Ok x -> status x <> initiated ->
  assertSameAttempt (proposal ins (row_attemptKey r)) x = Ok x ->
  payForHire findFeePolicy references Datatypes.id ins w = (w, Ok (mkPaid x None)).
Proof.
  intros Hw Hs Hr Hk Hx Hst Hsame. unfold payForHire.
  rewrite (bind_run _ _ _ _ _ Hs), (bind_run _ _ w w tt) by done.
  destruct (attemptKeyFor_total (ins_bookingId ins) hire_charge w Hw) as [key Hkey].
  rewrite (bind_run _ _ _ _ _ Hkey). apply attemptKeyFor_key in Hkey as [_ ->]. rewrite <- Hk.
  rewrite (bind_run _ _ w w tt), (bind_run _ _ w w (now w)) by done.
  change {| new_bookingId := ins_bookingId ins; new_attemptKey := row_attemptKey r |}
    with (proposal ins (row_attemptKey r)) || idtac.
  pose proof (begin_again (proposal ins (row_attemptKey r)) (now w) (intents w) r x
                (winv_intents _ Hw) Hr eq_refl Hx) as Hb.
  rewrite (bind_run _ _ _ _ _ (on_intents_run _ w x Hb)).
  rewrite (bind_run _ _ w w x) by (unfold lift; by rewrite <- Hsame).
  by rewrite bool_decide_eq_false_2.
Qed.

(** After a first press of pay that did not fail, a second press finds the same attempt,
    returns it, changes nothing and calls the provider not at all. *)
Theorem double_press_calls_nobody (ins : HirePaymentInstruction) (w w' : World P) (o : HirePaymentOutcome) :
  winv w -> currency (charge_total (ins_charge ins)) ∈ SUPPORTED_CURRENCIES ->
  payForHire findFeePolicy references Datatypes.id ins w = (w', Ok o) ->
  status (intent o) <> failed ->
  payForHire findFeePolicy references Datatypes.id ins w' = (w', Ok (mkPaid (intent o) None)).
Proof.
  intros Hw Hcur Hpay Hnf. pose proof Hpay as H. unfold payForHire in H.
  apply bind_ok in H as (w0 & s & Hs & H). apply settle_ok in Hs as [-> Hs].
  apply bind_ok in H as (w1 & [] & Hw1 & H). injection Hw1 as <-.
  apply bind_ok in H as (w1 & key & Hkey & H). apply attemptKeyFor_key in Hkey as [-> Hkey].
  apply bind_ok in H as (w1 & [] & Hw1 & H). injection Hw1 as <-.
  apply bind_ok in H as (w1 & t & Hw1 & H). injection Hw1 as <- _.
  fold (proposal ins key) in H.
  apply bind_ok in H as (w1 & found & Hbegin & H).
  pose proof (safe_begin references (fun _ => True) (proposal ins key) t (true_stable) Hcur
                w w1 (Ok found) Hw I Hbegin) as (Hwi1 & _ & Hrec1 & _).
  apply on_intents_ok in Hbegin as (Hbegin & Hl1 & Hp1).
  destruct (begin_row (proposal ins key) t _ _ found (winv_intents _ Hw) Hcur Hbegin)
    as (Hi1 & r & Hr & Hrk & Hto & Hrows).
  apply bind_ok in H as (w2 & i & Hsame & H). injection Hsame as <- Hsame.
  pose proof (assertSameAttempt_ok _ _ _ Hsame) as (-> & _).
  pose proof (toRecord_ok _ _ Hto) as (_ & Hfst & _).
  case_bool_decide as Hinit; cbn [negb] in H.
  - apply bind_ok in H as (w2 & [] & Hw2 & H). injection Hw2 as <-.
    apply bind_ok in H as (w2 & a & Ha & H).
    destruct (safe_psp (is_recorded found) _ (is_recorded_stable found) w1 w2 (Ok a) Hwi1 Hrec1 Ha)
      as (Hwi2 & _ & Hrec2).
    assert (intents w2 = intents w1) as Hi2.
    { unfold on_psp in Ha. destruct (provider_begin _ _). by injection Ha as <- _. }
    apply bind_ok in H as (w3 & [] & Hw3 & H). injection Hw3 as <-.
    apply bind_ok in H as (w3 & x & Happ & H). injection H as <- <-. cbn [intent] in *.
    destruct (safe_applyOutcome findFeePolicy Datatypes.id found a good_world_rival_id w2 w3 (Ok x) Hwi2 Hrec2 Happ)
      as (Hwi3 & _ & _).
    destruct (applyOutcome_returns findFeePolicy found x a w2 w3 Hwi2 Hrec2 Happ)
      as [(_ & _ & Hst)|(out & t' & r0 & Hout & _ & Hr0 & Hid0 & Hrows3 & Hto3 & Hst3 & _)].
    { rewrite Hinit in Hst. by destruct (att_status a). }
    rewrite Hi2 in *.
    assert (r0 = r) as ->.
    { pose proof (toRecord_ok _ _ Hto) as (Hm & _). destruct Hm as (Hmid & _).
      pose proof (find_by_unique row_id _ r (iwf_ids _ Hi1) Hr) as E1.
      pose proof (find_by_unique row_id _ r0 (iwf_ids _ Hi1) Hr0) as E2. congruence. }
    assert (row_status r <> failed) as Hrnf by (rewrite <- Hfst, Hinit; done).
    assert (status_of (outcome_status out) <> failed) as Hof by (rewrite Hout, <- Hst3; done).
    assert (failed_rows hire_charge (ins_bookingId ins) (rows (intents w1)) =
            failed_rows hire_charge (ins_bookingId ins) (rows (intents w))) as Hfr.
    { destruct Hrows as [->|[-> Hnew]]; [done|]. unfold failed_rows. rewrite filter_app, length_app.
      rewrite filter_cons_False; [cbn; lia|]. intros (_ & _ & ?). congruence. }
    apply (press_finds ins w3 (IntentDb.with_outcome out t' r) x s); try done.
    + rewrite Hrows3. by apply (replace_elem r).
    + cbn [IntentDb.with_outcome row_attemptKey].
      rewrite Hrows3, (failed_rows_replace _ _ _ _ _ _ Hi1 Hr Hrnf Hof), Hfr, Hrk. done.
    + rewrite Hst3. by destruct (att_status a).
    + cbn [IntentDb.with_outcome row_attemptKey]. rewrite Hrk.
      eapply assertSameAttempt_again; [|exact Hsame]. by eapply toRecord_with_outcome.
  - injection H as <- <-. cbn [intent] in *.
    destruct Hrows as [Hi|[_ Hnew]]; [|congruence].
    assert (w1 = w) as -> by (destruct w, w1; cbn in *; congruence). exact Hpay.
Qed.
End Press.

(** ** A concrete world *)

(** A provider that answers from a script. *)
Definition next_answer : M (list PaymentAttempt) PaymentAttempt := fun script =>
  match script with
  | [] => ([], Err (ForeignError "no answer"))
  | a :: rest => (rest, Ok a)
  end.

Definition scripted : PaymentProvider (list PaymentAttempt) := {|
  provider_name := "scripted";
  provider_begin := fun _ => next_answer;
  provider_read := fun _ => next_answer;
  provider_hold := fun _ => next_answer |}.

Definition answer (s : PaymentAttemptStatus) : PaymentAttempt :=
  mkAttempt "ref-1" s None
    (match s with reported_failed => Some (mkFailure declined "Declined.") | _ => None end) None None.

Definition example_policy : Pricing.CategoryFeePolicy :=
  Pricing.mkPolicy 1500 800 (mkMoney 1000 "GBP") (mkMoney 100 "GBP").
Definition example_policies (v : string) : option Pricing.CategoryFeePolicy :=
  if decide (v = "v1") then Some example_policy else None.

Definition example_hire : HirePaymentInstruction :=
  mkHireInstruction "b1" "o1" (mkCharge (mkMoney 2000 "GBP") (mkMoney 160 "GBP") (mkMoney 2160 "GBP"))
    "v1" "Drill".

Definition example_world (script : list PaymentAttemptStatus) : World (list PaymentAttempt) :=
  empty_world 0 (answer <$> script).

Definition example_run (s : @schedule (list PaymentAttempt)) (script : list PaymentAttemptStatus) : World (list PaymentAttempt) :=
  @run_schedule decimal_uuids _ scripted example_policies (fun _ => true) s (example_world script).

(** A refresh whose provider answer is overtaken by another refresh writes the
    older answer over a success: [recordOutcome] does not compare the status it
    replaces, so the last word of a terminal status holds only between reads. *)
Definition overtaken : @schedule (list PaymentAttempt) :=
  [(RPay example_hire, []); (RRefresh "0", [RRefresh "0"])].

Lemma overtaken_refresh_loses_success :
  let w := example_run overtaken
    [reported_pending_payer_action; reported_pending_payer_action; reported_processing; reported_succeeded] in
  row_status <$> rows (intents w) = [processing] /\
  length (with_key (hireCaptureKey "b1") (ledger w)) = 1%nat.
Proof. by vm_compute. Qed.
