(* ===== verification/BookingState.v ===== *)
(** * The booking state machine ([apps/api/src/booking/booking-state-machine.ts],
    [payability.ts], the states of [packages/contracts/src/booking.ts])

    The transition table, the states that occupy a calendar, and who may pay. *)

From S2P Require Import Prelude.

#[local] Open Scope string_scope.
#[local] Open Scope list_scope.

Module BookingState.

Inductive BookingState : Type :=
  | DRAFT | ABANDONED | REQUESTED | ACCEPTED | AWAITING_PAYMENT | PAYMENT_FAILED | RESERVED
  | READY_FOR_COLLECTION | SECURITY_FAILED | NO_SHOW | COLLECTED | RETURN_DUE | LATE
  | RETURNED_PENDING_CONFIRMATION | COMPLETED | REVIEW_WINDOW | DISPUTED | REFUNDED
  | PARTIALLY_REFUNDED | DECLINED | EXPIRED | CANCELLED | CLOSED.

#[global] Instance BookingState_eq_dec : EqDecision BookingState.
Proof. solve_decision. Defined.

Definition BOOKING_STATES : list BookingState :=
  [DRAFT; ABANDONED; REQUESTED; ACCEPTED; AWAITING_PAYMENT; PAYMENT_FAILED; RESERVED;
   READY_FOR_COLLECTION; SECURITY_FAILED; NO_SHOW; COLLECTED; RETURN_DUE; LATE;
   RETURNED_PENDING_CONFIRMATION; COMPLETED; REVIEW_WINDOW; DISPUTED; REFUNDED;
   PARTIALLY_REFUNDED; DECLINED; EXPIRED; CANCELLED; CLOSED].

Definition TRANSITIONS (s : BookingState) : list BookingState :=
  match s with
  | DRAFT => [REQUESTED; ABANDONED]
  | ABANDONED => []
  | REQUESTED => [ACCEPTED; DECLINED; EXPIRED; CANCELLED]
  | ACCEPTED => [AWAITING_PAYMENT; RESERVED]
  | AWAITING_PAYMENT => [RESERVED; PAYMENT_FAILED; EXPIRED]
  | PAYMENT_FAILED => [AWAITING_PAYMENT; EXPIRED; CANCELLED]
  | RESERVED => [READY_FOR_COLLECTION; CANCELLED; DISPUTED]
  | READY_FOR_COLLECTION => [COLLECTED; NO_SHOW; CANCELLED; SECURITY_FAILED]
  | SECURITY_FAILED => [READY_FOR_COLLECTION; CANCELLED; DISPUTED]
  | NO_SHOW => [CANCELLED; DISPUTED; CLOSED]
  | COLLECTED => [RETURN_DUE; RETURNED_PENDING_CONFIRMATION; DISPUTED]
  | RETURN_DUE => [RETURNED_PENDING_CONFIRMATION; LATE]
  | LATE => [RETURNED_PENDING_CONFIRMATION; DISPUTED]
  | RETURNED_PENDING_CONFIRMATION => [COMPLETED; DISPUTED]
  | COMPLETED => [REVIEW_WINDOW]
  | REVIEW_WINDOW => [CLOSED]
  | DISPUTED => [COMPLETED; REFUNDED; PARTIALLY_REFUNDED; CLOSED]
  | REFUNDED => [CLOSED]
  | PARTIALLY_REFUNDED => [CLOSED]
  | DECLINED => [CLOSED]
  | EXPIRED => [CLOSED]
  | CANCELLED => [CLOSED]
  | CLOSED => []
  end.

Definition CALENDAR_OCCUPYING_STATES : list BookingState :=
  [ACCEPTED; AWAITING_PAYMENT; PAYMENT_FAILED; RESERVED; READY_FOR_COLLECTION; SECURITY_FAILED;
   COLLECTED; RETURN_DUE; LATE].

Definition occupiesCalendar (s : BookingState) : bool :=
  bool_decide (s ∈ CALENDAR_OCCUPYING_STATES).

Definition isTerminal (s : BookingState) : bool := Nat.eqb (length (TRANSITIONS s)) 0.
Definition TERMINAL_STATES : list BookingState := List.filter isTerminal BOOKING_STATES.

Definition canTransition (from_ to_ : BookingState) : bool := bool_decide (to_ ∈ TRANSITIONS from_).

Definition state_name (s : BookingState) : string :=
  match s with
  | DRAFT => "DRAFT" | ABANDONED => "ABANDONED" | REQUESTED => "REQUESTED"
  | ACCEPTED => "ACCEPTED" | AWAITING_PAYMENT => "AWAITING_PAYMENT"
  | PAYMENT_FAILED => "PAYMENT_FAILED" | RESERVED => "RESERVED"
  | READY_FOR_COLLECTION => "READY_FOR_COLLECTION" | SECURITY_FAILED => "SECURITY_FAILED"
  | NO_SHOW => "NO_SHOW" | COLLECTED => "COLLECTED" | RETURN_DUE => "RETURN_DUE" | LATE => "LATE"
  | RETURNED_PENDING_CONFIRMATION => "RETURNED_PENDING_CONFIRMATION"
  | COMPLETED => "COMPLETED" | REVIEW_WINDOW => "REVIEW_WINDOW" | DISPUTED => "DISPUTED"
  | REFUNDED => "REFUNDED" | PARTIALLY_REFUNDED => "PARTIALLY_REFUNDED" | DECLINED => "DECLINED"
  | EXPIRED => "EXPIRED" | CANCELLED => "CANCELLED" | CLOSED => "CLOSED"
  end.

Definition assertTransition (from_ to_ : BookingState) : result BookingState :=
  if canTransition from_ to_ then Ok to_
  else Err (InvalidBookingTransitionError (state_name from_) (state_name to_)).

(** ** Who may pay *)
Definition PAYABLE_STATES : list BookingState := [ACCEPTED; AWAITING_PAYMENT; PAYMENT_FAILED].

Definition PAYMENT_NOT_ENABLED : string := "Paying for bookings is not switched on yet, so nothing has been charged. Your booking is still held.".
Definition ONLY_THE_RENTER_PAYS : string := "The renter pays for this booking. There is nothing for you to pay here.".
Definition SUSPENDED_CANNOT_PAY : string := "Your account is suspended, so you cannot pay for a booking at the moment. Your booking is still held. See your account page for what this means.".

Definition describeUnpayable (s : BookingState) : string :=
  match s with
  | RESERVED => "That booking is already paid for. Nothing has been charged again."
  | REQUESTED => "That request has not been accepted yet, so there is nothing to pay for."
  | DECLINED | EXPIRED | CANCELLED => "That booking is no longer live, so it cannot be paid for."
  | _ => "That booking is past the point of paying for it. Reload the page to see where it stands."
  end.

Record PayabilityQuestion : Type := mkQuestion {
  q_state : BookingState;
  isRenter : bool;
  isSuspended : bool;
  paymentEnabled : bool }.

Inductive BookingPayability : Type :=
  | payable
  | not_payable (reason : string).

Definition payabilityOf (q : PayabilityQuestion) : BookingPayability :=
  if negb (isRenter q) then not_payable ONLY_THE_RENTER_PAYS
  else if negb (bool_decide (q_state q ∈ PAYABLE_STATES)) then
    not_payable (describeUnpayable (q_state q))
  else if isSuspended q then not_payable SUSPENDED_CANNOT_PAY
  else if negb (paymentEnabled q) then not_payable PAYMENT_NOT_ENABLED
  else payable.

(** ** The table as a graph *)
Definition step (s s' : BookingState) : Prop := canTransition s s' = true.

Lemma all_states (s : BookingState) : s ∈ BOOKING_STATES.
Proof. destruct s; unfold BOOKING_STATES; repeat (apply elem_of_cons; (by left) || right). Qed.

(** Everything reachable in at most [n] steps. *)
Fixpoint reach (n : nat) (from_ : list BookingState) : list BookingState :=
  match n with
  | O => from_
  | S n' => reach n' (remove_dups (from_ ++ (from_ ≫= TRANSITIONS)))
  end.

Lemma reach_sound (n : nat) (from_ : list BookingState) (s : BookingState) :
  s ∈ reach n from_ -> exists s0, s0 ∈ from_ /\ rtc step s0 s.
Proof.
  revert from_. induction n as [|n IH]; intros from_; cbn [reach].
  - intros Hs. by exists s.
  - intros Hs. destruct (IH _ Hs) as (s0 & H0 & Hr).
    apply elem_of_remove_dups, elem_of_app in H0 as [H0|H0]; [by exists s0|].
    apply list_elem_of_bind in H0 as (s1 & Hs1 & H1). exists s1. split; [done|].
    eapply rtc_l; [|exact Hr]. by apply bool_decide_eq_true.
Qed.

Definition reaches_end (s : BookingState) : bool :=
  bool_decide (CLOSED ∈ reach 10 [s] \/ ABANDONED ∈ reach 10 [s]).

(** Every state of a booking is reachable from DRAFT and can reach a terminal one, and only
    CLOSED and ABANDONED are terminal. *)
Theorem every_booking_can_end (s : BookingState) :
  rtc step DRAFT s /\ (exists e, isTerminal e = true /\ rtc step s e) /\
  (isTerminal s = true <-> s = CLOSED \/ s = ABANDONED).
Proof.
  split_and!.
  - assert (s ∈ reach 12 [DRAFT]) as H.
    { apply (bool_decide_unpack _). destruct s; vm_compute; exact I. }
    apply reach_sound in H as (s0 & ->%list_elem_of_singleton & H). done.
  - assert (reaches_end s = true) as H by (destruct s; by vm_compute).
    apply bool_decide_eq_true in H as [H|H]; apply reach_sound in H as (s0 & ->%list_elem_of_singleton & H);
      eexists; (split; [|exact H]); done.
  - by destruct s; cbn; intuition.
Qed.

(** A booking is shown as payable exactly to its renter, while not suspended, with payments
    enabled, in AWAITING_PAYMENT or a state that may move there. *)
Theorem payable_iff (q : PayabilityQuestion) :
  payabilityOf q = payable <->
  isRenter q = true /\ isSuspended q = false /\ paymentEnabled q = true /\
  (q_state q = AWAITING_PAYMENT \/ canTransition (q_state q) AWAITING_PAYMENT = true).
Proof.
  unfold payabilityOf. destruct q as [s [] [] []]; cbn [q_state isRenter isSuspended paymentEnabled negb];
    destruct s; vm_compute; intuition discriminate.
Qed.

End BookingState.
