(* ===== verification/BookingStore.v ===== *)
(** * Bookings in Postgres ([apps/api/src/booking/prisma-booking-store.ts],
    [prisma-availability-store.ts], [damage-excess-columns.ts] and their migrations)

    [Module BookingDb]: bookings, their append-only events and the owner's blocks,
    with the CHECKs, the unique quote and the [EXCLUDE] constraint, and the two
    adapters.  Transactions run at READ COMMITTED: what other connections commit
    between a transaction's first read and its writes is the [rival], and a
    transaction may be chosen as a deadlock's [victim] at each attempt. *)

From S2P Require Import Prelude JsNumber Text Money Ledger LedgerStore Pricing BookingState.

#[local] Open Scope string_scope.
#[local] Open Scope list_scope.
#[local] Open Scope Z_scope.

Module BookingDb.
Import Money BookingState.
Import Pricing (AppliedExcess, mkExcess, ExcessBound, excess_amount, boundBy, by_floor, by_percentage, by_ceiling).
Import LedgerDb (fits_int4).

#[global] Instance ExcessBound_eq_dec : EqDecision ExcessBound.
Proof. solve_decision. Defined.

(** ** Rows *)
Record Row : Type := mkRow {
  row_id : string;
  row_listingId : string;
  row_renterId : string;
  row_state : BookingState;
  row_startAt : instant;
  row_endAt : instant;
  row_timeZone : string;
  row_quoteId : string;
  row_categoryVersionId : string;
  itemChargeAmount : Z;
  renterFeeAmount : Z;
  totalAmount : Z;
  row_currency : string;
  row_itemTitle : string;
  row_categoryName : string;
  damageExcessAmount : option Z;
  damageExcessBoundBy : option ExcessBound;
  row_requestExpiresAt : instant;
  row_createdAt : instant;
  row_updatedAt : instant }.

Inductive BookingEventType : Type := requested | state_changed | auto_declined.

Record EventRow : Type := mkEvent {
  ev_bookingId : string;
  ev_type : BookingEventType;
  fromState : option BookingState;
  toState : option BookingState;
  actorId : option string;
  conflictingBookingId : option string;
  ev_createdAt : instant }.

Record BlockRow : Type := mkBlock {
  block_id : string;
  block_listingId : string;
  block_startAt : instant;
  block_endAt : instant;
  block_reason : option string }.

Record Db : Type := mkDb {
  bookings : list Row;
  events : list EventRow;
  blocks : list BlockRow;
  bseq : nat;
  bclock : instant }.

Definition empty_db (t : instant) : Db := mkDb [] [] [] 0 t.

(** ** Records *)
Record NewBooking : Type := mkNewBooking {
  listingId : string;
  renterId : string;
  state : BookingState;
  startAt : instant;
  endAt : instant;
  quoteId : string;
  categoryVersionId : string;
  itemCharge : Money;
  renterFee : Money;
  total : Money;
  itemTitle : string;
  categoryName : string;
  appliedExcess : option AppliedExcess;
  requestExpiresAt : instant;
  timeZone : string }.

Record BookingRecord : Type := mkBookingRecord {
  id : string;
  new : NewBooking;
  createdAt : instant;
  updatedAt : instant }.

Record NewBookingEvent : Type := mkNewEvent {
  ne_type : BookingEventType;
  ne_fromState : option BookingState;
  ne_toState : option BookingState;
  ne_actorId : option string }.

Definition damageExcessColumns (e : option AppliedExcess) : option Z * option ExcessBound :=
  (match e with None => None | Some e => Some (amount (excess_amount e)) end,
   match e with None => None | Some e => Some (boundBy e) end).

Definition toAppliedExcess (amount_ : option Z) (boundBy_ : option ExcessBound) (currency_ : string)
  : result (option AppliedExcess) :=
  match amount_ with
  | None => Ok None
  | Some a =>
      match boundBy_ with
      | None => Err (ForeignError "has a damage excess amount with no bound")
      | Some b =>
          if bool_decide (currency_ ∈ SUPPORTED_CURRENCIES) then
            m ← money a currency_; Ok (Some (mkExcess m b))
          else Err (ForeignError "holds a damage excess in an unsupported currency")
      end
  end.

Definition toRecord (r : Row) : result BookingRecord :=
  item ← money (itemChargeAmount r) (row_currency r);
  fee ← money (renterFeeAmount r) (row_currency r);
  t ← money (totalAmount r) (row_currency r);
  excess ← toAppliedExcess (damageExcessAmount r) (damageExcessBoundBy r) (row_currency r);
  Ok {| id := row_id r;
        new := {| listingId := row_listingId r; renterId := row_renterId r; state := row_state r;
                  startAt := row_startAt r; endAt := row_endAt r; quoteId := row_quoteId r;
                  categoryVersionId := row_categoryVersionId r; itemCharge := item; renterFee := fee;
                  total := t; itemTitle := row_itemTitle r; categoryName := row_categoryName r;
                  appliedExcess := excess; requestExpiresAt := row_requestExpiresAt r;
                  timeZone := row_timeZone r |};
        createdAt := row_createdAt r; updatedAt := row_updatedAt r |}.

(** ** Periods *)

(** [{ startAt: { lt: endAt }, endAt: { gt: startAt } }] *)
Definition overlaps (startAt endAt start' end' : instant) : bool :=
  (start' <? endAt) && (startAt <? end').

Definition row_overlaps (r r' : Row) : bool :=
  overlaps (row_startAt r) (row_endAt r) (row_startAt r') (row_endAt r').

(** [booking_periods_do_not_overlap]: two rows no table may hold together, in the states
    that the migration lists. *)
Definition CONSTRAINED_STATES : list BookingState :=
  [ACCEPTED; AWAITING_PAYMENT; PAYMENT_FAILED; RESERVED; READY_FOR_COLLECTION; SECURITY_FAILED; COLLECTED; RETURN_DUE; LATE].

Definition excluded (r r' : Row) : bool :=
  bool_decide (row_id r <> row_id r' /\ row_listingId r = row_listingId r') &&
  bool_decide (row_state r ∈ CONSTRAINED_STATES) && bool_decide (row_state r' ∈ CONSTRAINED_STATES) && row_overlaps r r'.

(** They are the states that the domain says occupy a calendar. *)
Lemma constrained_occupies (s : BookingState) : bool_decide (s ∈ CONSTRAINED_STATES) = occupiesCalendar s.
Proof. by destruct s. Qed.

Lemma excluded_eq (r r' : Row) :
  excluded r r' =
  bool_decide (row_id r <> row_id r' /\ row_listingId r = row_listingId r') &&
  occupiesCalendar (row_state r) && occupiesCalendar (row_state r') && row_overlaps r r'.
Proof. unfold excluded. by rewrite !constrained_occupies. Qed.

(** The CHECKs of one row. *)
Definition row_refusal (r : Row) : option string :=
  if negb (fits_int4 (itemChargeAmount r) && fits_int4 (renterFeeAmount r) && fits_int4 (totalAmount r) &&
           match damageExcessAmount r with Some a => fits_int4 a | None => true end)
  then Some "integer out of range"
  else if row_endAt r <=? row_startAt r then Some "booking_ends_after_it_starts"
  else if negb ((0 <=? itemChargeAmount r) && (0 <=? renterFeeAmount r) &&
                (totalAmount r =? itemChargeAmount r + renterFeeAmount r))
  then Some "booking_money_is_not_negative"
  else match damageExcessAmount r, damageExcessBoundBy r with
       | None, None => None
       | Some a, Some _ => if 0 <=? a then None else Some "booking_damage_excess_is_complete"
       | _, _ => Some "booking_damage_excess_is_complete"
       end.

Definition OVERLAP_CONSTRAINT : string := "booking_periods_do_not_overlap".
Definition QUOTE_UNIQUE_INDEX : string := "bookings_quoteId_key".
Definition DEADLOCK : string := "40P01".

Definition isOverlapViolation (e : error) : bool := bool_decide (e = DatabaseError OVERLAP_CONSTRAINT).
Definition isDuplicateQuote (e : error) : bool := bool_decide (e = DatabaseError QUOTE_UNIQUE_INDEX).
Definition isDeadlock (e : error) : bool := bool_decide (e = DatabaseError DEADLOCK).

(** [ORDER BY k ASC, id ASC]. *)
Definition sorts_before (k : Z) (i : string) (k' : Z) (i' : string) : Prop :=
  k < k' \/ (k = k' /\ String.le i i').
#[global] Instance sorts_before_dec k i k' i' : Decision (sorts_before k i k' i').
Proof. unfold sorts_before. apply _. Defined.

Section Store.
Context {Ids : UuidSource}.

(** The owner of a listing; a listing never changes hands. *)
Variable ownerOf : string -> option string.

(** ** Statements *)
Definition by_id (i : string) (db : Db) : option Row := find_by row_id i (bookings db).

Definition row_for (b : NewBooking) (db : Db) : Row := {|
  row_id := uuid (bseq db);
  row_listingId := listingId b;
  row_renterId := renterId b;
  row_state := state b;
  row_startAt := startAt b;
  row_endAt := endAt b;
  row_timeZone := timeZone b;
  row_quoteId := quoteId b;
  row_categoryVersionId := categoryVersionId b;
  itemChargeAmount := amount (itemCharge b);
  renterFeeAmount := amount (renterFee b);
  totalAmount := amount (total b);
  row_currency := currency (total b);
  row_itemTitle := itemTitle b;
  row_categoryName := categoryName b;
  damageExcessAmount := fst (damageExcessColumns (appliedExcess b));
  damageExcessBoundBy := snd (damageExcessColumns (appliedExcess b));
  row_requestExpiresAt := requestExpiresAt b;
  row_createdAt := bclock db;
  row_updatedAt := bclock db |}.

Definition with_bookings (l : list Row) (db : Db) : Db :=
  mkDb l (events db) (blocks db) (bseq db) (bclock db).

(** [tx.booking.create] *)
Definition insert_booking (b : NewBooking) : M Db Row := fun db =>
  let r := row_for b db in
  match row_refusal r with
  | Some c => (db, Err (DatabaseError c))
  | None =>
      if bool_decide (row_quoteId r ∈ row_quoteId <$> bookings db) then
        (db, Err (DatabaseError QUOTE_UNIQUE_INDEX))
      else if existsb (excluded r) (bookings db) then (db, Err (DatabaseError OVERLAP_CONSTRAINT))
      else (mkDb (bookings db ++ [r]) (events db) (blocks db) (S (bseq db)) (bclock db), Ok r)
  end.

Definition with_state (s : BookingState) (t : instant) (r : Row) : Row := {|
  row_id := row_id r;
  row_listingId := row_listingId r;
  row_renterId := row_renterId r;
  row_state := s;
  row_startAt := row_startAt r;
  row_endAt := row_endAt r;
  row_timeZone := row_timeZone r;
  row_quoteId := row_quoteId r;
  row_categoryVersionId := row_categoryVersionId r;
  itemChargeAmount := itemChargeAmount r;
  renterFeeAmount := renterFeeAmount r;
  totalAmount := totalAmount r;
  row_currency := row_currency r;
  row_itemTitle := row_itemTitle r;
  row_categoryName := row_categoryName r;
  damageExcessAmount := damageExcessAmount r;
  damageExcessBoundBy := damageExcessBoundBy r;
  row_requestExpiresAt := row_requestExpiresAt r;
  row_createdAt := row_createdAt r;
  row_updatedAt := t |}.

(** [UPDATE bookings SET state = s WHERE p]: every matching row, or none. *)
Definition moved (p : Row -> bool) (s : BookingState) (db : Db) : list Row :=
  (fun r => if p r then with_state s (bclock db) r else r) <$> bookings db.

Definition update_where (p : Row -> bool) (s : BookingState) : M Db (list Row) := fun db =>
  let l := moved p s db in
  if existsb (fun r => p r && existsb (excluded (with_state s (bclock db) r)) l) (bookings db)
  then (db, Err (DatabaseError OVERLAP_CONSTRAINT))
  else (with_bookings l db, Ok (with_state s (bclock db) <$> List.filter p (bookings db))).

(** [tx.booking.update] on a primary key. *)
Definition update_one (i : string) (s : BookingState) : M Db Row :=
  rows ← update_where (fun r => bool_decide (row_id r = i)) s;
  match rows with
  | [] => throw (DatabaseError "record to update not found")
  | r :: _ => mret r
  end.

Definition add_event (booking : string) (conflict : option string) (e : NewBookingEvent) : M Db () :=
  modify (fun db =>
    mkDb (bookings db)
      (events db ++ [mkEvent booking (ne_type e) (ne_fromState e) (ne_toState e) (ne_actorId e)
                       conflict (bclock db)])
      (blocks db) (bseq db) (bclock db)).

Fixpoint add_events (ids : list string) (conflict : option string) (e : NewBookingEvent) : M Db () :=
  match ids with
  | [] => mret tt
  | i :: ids' => _ ← add_event i conflict e; add_events ids' conflict e
  end.

(** ** [PrismaBookingStore] *)
Section Race.
Variable rival : Db -> Db.
(** Whether Postgres picks this call's [k]-th attempt as a deadlock's victim. *)
Variable victim : nat -> bool.

Definition DEADLOCK_ATTEMPTS : nat := 2.

(** One attempt at a transaction, after whatever its rivals committed. *)
Definition attempt_at {A} (k : nat) (m : M Db A) : M Db A := fun db =>
  let db1 := rival db in
  if victim k then (db1, Err (DatabaseError DEADLOCK)) else transaction m db1.

Definition create_with (b : NewBooking) (e : option NewBookingEvent) : M Db Row :=
  row ← insert_booking b;
  _ ← match e with None => mret tt | Some e => add_event (row_id row) None e end;
  mret row.

(** [left] attempts remain after this one; the row is read as a record once its transaction
    has committed. *)
Fixpoint write_attempts (left : nat) (b : NewBooking) (e : option NewBookingEvent)
  : M Db BookingRecord :=
  catch (row ← attempt_at (DEADLOCK_ATTEMPTS - left) (create_with b e); lift (toRecord row))
    (fun err =>
       if isOverlapViolation err then throw (OverlappingBookingError (listingId b))
       else if isDuplicateQuote err then throw (DuplicateQuoteBookingError (quoteId b))
       else
         match left with
         | S left' => if isDeadlock err then write_attempts left' b e else throw err
         | O => throw err
         end).

Definition write (b : NewBooking) (e : option NewBookingEvent) : M Db BookingRecord :=
  write_attempts (DEADLOCK_ATTEMPTS - 1) b e.

Definition create (b : NewBooking) : M Db BookingRecord := write b None.
Definition createWithEvent (b : NewBooking) (e : NewBookingEvent) : M Db BookingRecord :=
  write b (Some e).

Definition owned_by (ownerId : string) (r : Row) : bool :=
  bool_decide (ownerOf (row_listingId r) = Some ownerId).

Record AcceptanceResult : Type := mkAcceptance { accepted : BookingRecord; autoDeclinedIds : list string }.

(** The writes of an acceptance, on the rows as the transaction first read them. *)
Definition accept_writes (b : Row) (ownerId : string) : M Db (option AcceptanceResult) :=
  row ← update_one (row_id b) ACCEPTED;
  _ ← add_event (row_id b) None (mkNewEvent state_changed (Some REQUESTED) (Some ACCEPTED) (Some ownerId));
  conflicts ← gets (fun db =>
    row_id <$> List.filter (fun r => negb (bool_decide (row_id r = row_id b)) &&
      bool_decide (row_listingId r = row_listingId b /\ row_state r = REQUESTED) &&
      overlaps (row_startAt b) (row_endAt b) (row_startAt r) (row_endAt r)) (bookings db));
  _ ← match conflicts with
      | [] => mret tt
      | _ =>
          _ ← update_where (fun r => bool_decide (row_id r ∈ conflicts)) DECLINED;
          add_events conflicts (Some (row_id b))
            (mkNewEvent auto_declined (Some REQUESTED) (Some DECLINED) None)
      end;
  rec ← lift (toRecord row);
  mret (Some (mkAcceptance rec conflicts)).

Definition accept_attempt (k : nat) (bookingId ownerId : string) (now : instant)
  : M Db (option AcceptanceResult) := fun db =>
  match by_id bookingId db with
  | None => (db, Ok None)
  | Some b =>
      if negb (owned_by ownerId b) then (db, Ok None)
      else if negb (bool_decide (row_state b = REQUESTED)) then
        (db, Err (BookingStateChangedError bookingId (state_name (row_state b))))
      else if row_requestExpiresAt b <=? now then
        (db, Err (BookingStateChangedError bookingId (state_name (row_state b))))
      else attempt_at k (accept_writes b ownerId) db
  end.

Fixpoint accept_attempts (left : nat) (bookingId ownerId : string) (now : instant)
  : M Db (option AcceptanceResult) :=
  catch (accept_attempt (DEADLOCK_ATTEMPTS - left) bookingId ownerId now)
    (fun err =>
       if isOverlapViolation err then throw (OverlappingBookingError bookingId)
       else
         match left with
         | S left' =>
             if isDeadlock err then accept_attempts left' bookingId ownerId now else throw err
         | O => throw err
         end).

Definition accept (bookingId ownerId : string) (now : instant) : M Db (option AcceptanceResult) :=
  accept_attempts (DEADLOCK_ATTEMPTS - 1) bookingId ownerId now.

(** A decline does not retry; its only attempt is the first. *)
Definition decline (bookingId ownerId : string) (now : instant) : M Db (option BookingRecord) := fun db =>
  match by_id bookingId db with
  | None => (db, Ok None)
  | Some b =>
      if negb (owned_by ownerId b) then (db, Ok None)
      else if negb (bool_decide (row_state b = REQUESTED)) then
        (db, Err (BookingStateChangedError bookingId (state_name (row_state b))))
      else
        attempt_at 1
          (row ← update_one bookingId DECLINED;
           _ ← add_event bookingId None
                 (mkNewEvent state_changed (Some REQUESTED) (Some DECLINED) (Some ownerId));
           rec ← lift (toRecord row);
           mret (Some rec)) db
  end.

(** The state predicate is in the UPDATE. *)
Definition advance (bookingId : string) (from_ to_ : BookingState) (actor : option string)
  : M Db (option BookingRecord) :=
  attempt_at 1
    (rows ← update_where (fun r => bool_decide (row_id r = bookingId /\ row_state r = from_)) to_;
     match rows with
     | [] => mret None
     | _ =>
         _ ← add_event bookingId None (mkNewEvent state_changed (Some from_) (Some to_) actor);
         found ← gets (by_id bookingId);
         match found with
         | None => throw (DatabaseError "No record was found")
         | Some r => rec ← lift (toRecord r); mret (Some rec)
         end
     end).

(** [ORDER BY "requestExpiresAt" ASC, id ASC]: the earliest deadlines first. *)
Definition due_first (r r' : Row) : Prop :=
  sorts_before (row_requestExpiresAt r) (row_id r) (row_requestExpiresAt r') (row_id r').
#[global] Instance due_first_dec : RelDecision due_first.
Proof. unfold due_first. intros r r'. apply _. Defined.

Definition overdue (now : instant) (r : Row) : bool :=
  bool_decide (row_state r = REQUESTED) && (row_requestExpiresAt r <=? now).

Record ExpirySweepResult : Type := mkExpiry { expired : list Row; expiry_reachedLimit : bool }.

Definition expireRequests (now : instant) (limit : nat) : M Db ExpirySweepResult := fun db =>
  let candidates := row_id <$> take limit (merge_sort due_first (List.filter (overdue now) (bookings db))) in
  match candidates with
  | [] => (db, Ok (mkExpiry [] false))
  | _ =>
      attempt_at 1
        (rows ← update_where (fun r => bool_decide (row_id r ∈ candidates) && overdue now r) EXPIRED;
         _ ← match rows with
             | [] => mret tt
             | _ => add_events (row_id <$> rows) None
                      (mkNewEvent state_changed (Some REQUESTED) (Some EXPIRED) None)
             end;
         mret (mkExpiry rows (bool_decide (length candidates = limit)))) db
  end.
End Race.

(** ** Reads *)
Record PendingRequest : Type := mkPending { pending : BookingRecord; conflictCount : nat }.

Definition by_start (r r' : Row) : Prop :=
  sorts_before (row_startAt r) (row_id r) (row_startAt r') (row_id r').
#[global] Instance by_start_dec : RelDecision by_start.
Proof. unfold by_start. intros r r'. apply _. Defined.

Definition findPendingRequests (listing ownerId : string) (now : instant)
  : M Db (list PendingRequest) := fun db =>
  let rows := merge_sort by_start
    (List.filter (fun r => bool_decide (row_listingId r = listing) && owned_by ownerId r &&
                           bool_decide (row_state r = REQUESTED) && (now <? row_requestExpiresAt r))
       (bookings db)) in
  (db, try_map (fun r =>
         rec ← toRecord r;
         Ok (mkPending rec
           (length (List.filter (fun other =>
              negb (bool_decide (row_id other = row_id r)) &&
              overlaps (row_startAt r) (row_endAt r) (row_startAt other) (row_endAt other)) rows))))
       rows).

Definition newest (r r' : Row) : Prop :=
  sorts_before (row_createdAt r') (row_id r') (row_createdAt r) (row_id r).
#[global] Instance newest_dec : RelDecision newest.
Proof. unfold newest. intros r r'. apply _. Defined.

Definition findForRenter (renter : string) (limit : nat) : M Db (list BookingRecord) := fun db =>
  (db, try_map toRecord (take limit (merge_sort newest
         (List.filter (fun r => bool_decide (row_renterId r = renter)) (bookings db))))).

Definition findForOwner (ownerId : string) (limit : nat) : M Db (list BookingRecord) := fun db =>
  (db, try_map toRecord (take limit (merge_sort newest (List.filter (owned_by ownerId) (bookings db))))).

Definition findBookedListings (listingIds : list string) (db : Db) : gset string :=
  if decide (listingIds = []) then ∅
  else list_to_set (row_listingId <$> filter (fun r => row_listingId r ∈ listingIds) (bookings db)).

Record BookingWithEvents : Type := mkWithEvents { booking : BookingRecord; history : list EventRow }.

Definition is_party (userId : string) (r : Row) : bool :=
  bool_decide (row_renterId r = userId) || owned_by userId r.

(** The booking's events in the order they were written. *)
Definition written (i : string) (db : Db) : list EventRow :=
  filter (fun e => ev_bookingId e = i) (events db).

(** [events: { orderBy: [{ createdAt: 'asc' }, { id: 'asc' }] }].  An event's id is
    the one generated for its place in the table, which only ever grows. *)
Definition by_event (x x' : nat * EventRow) : Prop :=
  sorts_before (ev_createdAt (snd x)) (uuid (fst x)) (ev_createdAt (snd x')) (uuid (fst x')).
#[global] Instance by_event_dec : RelDecision by_event.
Proof. unfold by_event. intros x x'. apply _. Defined.

Definition history_of (i : string) (db : Db) : list EventRow :=
  snd <$> merge_sort by_event
    (filter (fun x => ev_bookingId (snd x) = i) (imap pair (events db))).

(** The line items of the quote are not modelled. *)
Definition findForParty (i userId : string) : M Db (option BookingWithEvents) := fun db =>
  match by_id i db with
  | Some r =>
      if is_party userId r
      then (db, rec ← toRecord r; Ok (Some (mkWithEvents rec (history_of i db))))
      else (db, Ok None)
  | None => (db, Ok None)
  end.

(** ** [PrismaAvailabilityStore] *)
Definition block (listing : string) (start_ end_ : instant) (reason : option string) : M Db BlockRow :=
  fun db =>
  if end_ <=? start_ then (db, Err (DatabaseError "block_ends_after_it_starts"))
  else
    let b := mkBlock (uuid (bseq db)) listing start_ end_ reason in
    (mkDb (bookings db) (events db) (blocks db ++ [b]) (S (bseq db)) (bclock db), Ok b).

Definition unblock (i listing : string) : M Db bool := fun db =>
  let keep := List.filter (fun b => negb (bool_decide (block_id b = i /\ block_listingId b = listing)))
                (blocks db) in
  (mkDb (bookings db) (events db) keep (bseq db) (bclock db),
   Ok (negb (Nat.eqb (length keep) (length (blocks db))))).

Definition by_block_start (b b' : BlockRow) : Prop :=
  sorts_before (block_startAt b) (block_id b) (block_startAt b') (block_id b').
#[global] Instance by_block_start_dec : RelDecision by_block_start.
Proof. unfold by_block_start. intros b b'. apply _. Defined.

Definition listBlocks (listing : string) (from_ to_ : instant) (db : Db) : list BlockRow :=
  merge_sort by_block_start
    (List.filter (fun b => bool_decide (block_listingId b = listing) &&
                           overlaps from_ to_ (block_startAt b) (block_endAt b)) (blocks db)).

Definition occupying (listing : string) (start_ end_ : instant) (r : Row) : bool :=
  bool_decide (row_listingId r = listing) && occupiesCalendar (row_state r) &&
  overlaps start_ end_ (row_startAt r) (row_endAt r).

Definition listBookedPeriods (listing : string) (from_ to_ : instant) (db : Db) : list Row :=
  merge_sort by_start (List.filter (occupying listing from_ to_) (bookings db)).

Inductive UnavailableReason : Type := blocked | booked.

Definition reasonUnavailable (listing : string) (start_ end_ : instant) (db : Db)
  : option UnavailableReason :=
  if existsb (fun b => bool_decide (block_listingId b = listing) &&
                       overlaps start_ end_ (block_startAt b) (block_endAt b)) (blocks db)
  then Some blocked
  else if existsb (occupying listing start_ end_) (bookings db) then Some booked
  else None.
End Store.
End BookingDb.
