(* ===== verification/BookingProofs.v ===== *)
(** * The invariants of bookings

    Under any interleaving: ids and quotes are unique and no two bookings of one
    listing hold overlapping dates.  Served one at a time: every booking's state
    is the end of its own history, and that history follows the transition table. *)

From S2P Require Import Prelude JsNumber Text Money Ledger LedgerStore Pricing BookingState.
From S2P Require Import BookingStore.

#[local] Open Scope string_scope.
#[local] Open Scope list_scope.
#[local] Open Scope Z_scope.

Import Money (amount, currency, SUPPORTED_CURRENCIES).
Import BookingState BookingDb.

(** ** The orders rows are read in *)
Lemma sorts_before_total (k : Z) (i : string) (k' : Z) (i' : string) :
  sorts_before k i k' i' \/ sorts_before k' i' k i.
Proof.
  unfold sorts_before. destruct (base.total String.le i i'), (Z.lt_trichotomy k k') as [|[]]; auto.
Qed.

Lemma sorts_before_trans (k : Z) (i : string) (k' : Z) (i' : string) (k'' : Z) (i'' : string) :
  sorts_before k i k' i' -> sorts_before k' i' k'' i'' -> sorts_before k i k'' i''.
Proof.
  unfold sorts_before. intros [?|[? H]] [?|[? H']]; [left; lia..|].
  right. split; [congruence|by etrans].
Qed.

#[global] Instance due_first_total : Total due_first.
Proof. intros r r'. apply sorts_before_total. Qed.
#[global] Instance due_first_trans : Transitive due_first.
Proof. intros r r' r''. apply sorts_before_trans. Qed.

#[global] Instance by_event_total {Ids : UuidSource} : Total by_event.
Proof. intros x x'. apply sorts_before_total. Qed.
#[global] Instance by_event_trans {Ids : UuidSource} : Transitive by_event.
Proof. intros x x' x''. apply sorts_before_trans. Qed.

Section Bookings.
Context {Ids : UuidSource}.

(** ** The invariant *)
Definition row_issued (db : Db) (i : string) : Prop :=
  exists k, (k < bseq db)%nat /\ i = uuid k.

Record bwf (db : Db) : Prop := {
  bwf_ids : NoDup (row_id <$> bookings db);
  bwf_quotes : NoDup (row_quoteId <$> bookings db);
  bwf_issued : Forall (fun r => row_issued db (row_id r)) (bookings db);
  bwf_rows : Forall (fun r => row_refusal r = None) (bookings db);
  bwf_excluded : forall r r', r ∈ bookings db -> r' ∈ bookings db -> excluded r r' = false }.

Lemma bwf_empty (t : instant) : bwf (empty_db t).
Proof. split; cbn; try apply NoDup_nil_2; try constructor. by intros r r' ?%not_elem_of_nil. Qed.

(** What a booking was made under never changes. *)
Definition same_terms (r r' : Row) : Prop := r' = with_state (row_state r') (row_updatedAt r') r.

Definition bext (db db' : Db) : Prop :=
  (forall r, r ∈ bookings db -> exists r', r' ∈ bookings db' /\ same_terms r r') /\
  events db `prefix_of` events db'.

#[export] Instance bext_preorder : PreOrder bext.
Proof.
  split.
  - intros db. split; [|done]. intros r Hr. exists r. split; [done|]. by destruct r.
  - intros a b c [Hab Eab] [Hbc Ebc]. split; [|by etrans].
    intros r Hr. destruct (Hab r Hr) as (r1 & H1 & E1). destruct (Hbc r1 H1) as (r2 & H2 & E2).
    exists r2. split; [done|]. unfold same_terms in *. rewrite E2, E1. by destruct r, r2.
Qed.

Definition good_rival (rival : Db -> Db) : Prop :=
  forall db, bwf db -> bwf (rival db) /\ bext db (rival db).

Lemma booking_rival_id : good_rival Datatypes.id.
Proof. intros db Hdb. split; [done|reflexivity]. Qed.

(** ** Computations that keep it *)
Definition sound {A} (m : M Db A) : Prop :=
  forall db, bwf db -> bwf (fst (m db)) /\ bext db (fst (m db)).

Lemma sound_read {A} (m : M Db A) : (forall db, fst (m db) = db) -> sound m.
Proof. intros H db Hdb. rewrite H. split; [done|reflexivity]. Qed.

Lemma sound_bind {A B} (m : M Db A) (f : A -> M Db B) :
  sound m -> (forall a, sound (f a)) -> sound (mbind f m).
Proof.
  intros Hm Hf db Hdb. unfold mbind, M_bind. destruct (Hm db Hdb) as [H1 E1].
  destruct (m db) as [db1 [a|e]]; cbn [fst] in *; [|done].
  destruct (Hf a db1 H1) as [H2 E2]. split; [done|by etrans].
Qed.

Lemma sound_catch {A} (m : M Db A) (h : error -> M Db A) :
  sound m -> (forall e, sound (h e)) -> sound (catch m h).
Proof.
  intros Hm Hh db Hdb. unfold catch. destruct (Hm db Hdb) as [H1 E1].
  destruct (m db) as [db1 [a|e]]; cbn [fst] in *; [done|].
  destruct (Hh e db1 H1) as [H2 E2]. split; [done|by etrans].
Qed.

Lemma sound_transaction {A} (m : M Db A) : sound m -> sound (transaction m).
Proof.
  intros Hm db Hdb. unfold transaction. destruct (Hm db Hdb) as [H1 E1].
  destruct (m db) as [db1 [a|e]]; cbn [fst] in *; [done|split; [done|reflexivity]].
Qed.

Lemma sound_attempt {A} (rival : Db -> Db) (victim : nat -> bool) (k : nat) (m : M Db A) :
  good_rival rival -> sound m -> sound (attempt_at rival victim k m).
Proof.
  intros Hr Hm db Hdb. unfold attempt_at. destruct (Hr db Hdb) as [H1 E1].
  destruct (victim k); cbn [fst]; [done|].
  destruct (sound_transaction m Hm (rival db) H1) as [H2 E2]. split; [done|by etrans].
Qed.

(** ** Statements *)
Lemma excluded_sym (r r' : Row) : excluded r r' = excluded r' r.
Proof.
  rewrite !excluded_eq. unfold row_overlaps, overlaps.
  rewrite (bool_decide_ext (row_id r <> row_id r' /\ row_listingId r = row_listingId r')
             (row_id r' <> row_id r /\ row_listingId r' = row_listingId r)) by intuition congruence.
  rewrite <- !andb_assoc. f_equal. rewrite !andb_assoc, (andb_comm (occupiesCalendar (row_state r))).
  rewrite <- !andb_assoc. do 2 f_equal. apply andb_comm.
Qed.

Lemma excluded_self (r : Row) : excluded r r = false.
Proof. unfold excluded. by rewrite bool_decide_eq_false_2 by tauto. Qed.

Lemma sound_insert (b : NewBooking) : sound (insert_booking b).
Proof.
  intros db Hdb. unfold insert_booking. set (r := row_for b db).
  destruct (row_refusal r) as [c|] eqn:Href; [split; [done|reflexivity]|].
  case_bool_decide as Hq; [split; [done|reflexivity]|].
  destruct (existsb (excluded r) (bookings db)) eqn:Hx; [split; [done|reflexivity]|].
  cbn [fst]. destruct Hdb as [Hids Hqs Hiss Hrows Hex]. split.
  - split; cbn [bookings].
    + rewrite fmap_app. apply NoDup_snoc; [done|]. intros Hin.
      apply list_elem_of_fmap in Hin as (x & Hxr & Hin). rewrite Forall_forall in Hiss.
      destruct (Hiss x Hin) as (k & Hk & He). rewrite He in Hxr. apply (inj uuid) in Hxr. lia.
    + rewrite fmap_app. by apply NoDup_snoc.
    + apply Forall_app. split; [|apply Forall_singleton; exists (bseq db); cbn; split; [lia|done]].
      eapply Forall_impl; [exact Hiss|]. intros x (k & Hk & ->). exists k. cbn. split; [lia|done].
    + apply Forall_app. split; [done|by apply Forall_singleton].
    + intros x y [Hxi| ->%list_elem_of_singleton]%elem_of_app [Hyi| ->%list_elem_of_singleton]%elem_of_app.
      * by apply Hex.
      * rewrite excluded_sym. by eapply existsb_false.
      * by eapply existsb_false.
      * apply excluded_self.
  - split; [|done]. intros x Hxi. exists x. split; [apply elem_of_app; by left|by destruct x].
Qed.

Lemma with_state_id (s : BookingState) (t : instant) (r : Row) : row_id (with_state s t r) = row_id r.
Proof. done. Qed.

Lemma moved_fmap {B} (f : Row -> B) (p : Row -> bool) (s : BookingState) (db : Db) :
  (forall s t r, f (with_state s t r) = f r) -> f <$> moved p s db = f <$> bookings db.
Proof.
  intros Hf. unfold moved. rewrite <- list_fmap_compose. apply list_fmap_ext.
  intros i r _. cbn. destruct (p r); [by rewrite Hf|done].
Qed.

Lemma elem_of_moved (p : Row -> bool) (s : BookingState) (db : Db) (r : Row) :
  r ∈ moved p s db <->
  exists r0, r0 ∈ bookings db /\ r = if p r0 then with_state s (bclock db) r0 else r0.
Proof. unfold moved. rewrite list_elem_of_fmap. split; intros (x & ? & ?); eauto. Qed.

Lemma with_state_refusal (s : BookingState) (t : instant) (r : Row) :
  row_refusal (with_state s t r) = row_refusal r.
Proof. done. Qed.

Lemma sound_update (p : Row -> bool) (s : BookingState) : sound (update_where p s).
Proof.
  intros db Hdb. unfold update_where.
  destruct (existsb _ (bookings db)) eqn:Hx; [split; [done|reflexivity]|].
  cbn [fst]. destruct Hdb as [Hids Hqs Hiss Hrows Hex]. split.
  - split; cbn [with_bookings bookings].
    + by rewrite (moved_fmap row_id).
    + by rewrite (moved_fmap row_quoteId).
    + apply Forall_forall. rewrite Forall_forall in Hiss. intros r (r0 & Hr0 & ->)%elem_of_moved.
      destruct (p r0); exact (Hiss _ Hr0).
    + apply Forall_forall. rewrite Forall_forall in Hrows. intros r (r0 & Hr0 & ->)%elem_of_moved.
      destruct (p r0); [rewrite with_state_refusal|]; by apply Hrows.
    + assert (forall r0 y, r0 ∈ bookings db -> p r0 = true -> y ∈ moved p s db ->
                excluded (with_state s (bclock db) r0) y = false) as Hnew.
      { intros r0 y Hr0 Hp Hy. pose proof (existsb_false _ _ r0 Hx Hr0) as H. cbn in H. rewrite Hp in H.
        by eapply existsb_false. }
      intros x y Hxm Hym. pose proof Hxm as (x0 & Hx0 & Ex)%elem_of_moved.
      pose proof Hym as (y0 & Hy0 & Ey)%elem_of_moved.
      destruct (p x0) eqn:Px; [subst x; by apply Hnew|].
      destruct (p y0) eqn:Py; [subst y; rewrite excluded_sym; by apply Hnew|].
      subst. by apply Hex.
  - split; [|done]. intros r Hr. exists (if p r then with_state s (bclock db) r else r). split.
    + apply elem_of_moved. eauto.
    + destruct (p r); [done|by destruct r].
Qed.

Lemma sound_event (i : string) (c : option string) (e : NewBookingEvent) : sound (add_event i c e).
Proof.
  intros db [Hids Hqs Hiss Hrows Hex]. cbn. split; [by split|].
  split; cbn; [|by apply prefix_app_r]. intros r Hr. exists r. split; [done|by destruct r].
Qed.

Lemma sound_events (ids : list string) (c : option string) (e : NewBookingEvent) :
  sound (add_events ids c e).
Proof.
  induction ids as [|i ids IH]; cbn [add_events]; [by apply sound_read|].
  apply sound_bind; [apply sound_event|by intros _].
Qed.

Lemma sound_update_one (i : string) (s : BookingState) : sound (update_one i s).
Proof.
  apply sound_bind; [apply sound_update|]. intros [|r rs]; by apply sound_read.
Qed.

(** ** The adapters, under any good rival *)
Section Race.
Context (ownerOf : string -> option string) (rival : Db -> Db) (victim : nat -> bool).
Hypothesis Hgood : good_rival rival.

Lemma sound_write (b : NewBooking) (e : option NewBookingEvent) : sound (write rival victim b e).
Proof.
  unfold write. generalize (DEADLOCK_ATTEMPTS - 1)%nat. intros left.
  induction left as [|left IH]; cbn [write_attempts]; apply sound_catch;
    try (apply sound_bind; [apply sound_attempt; [done|]; unfold create_with; apply sound_bind; [apply sound_insert|];
         intros r; apply sound_bind; [destruct e; [apply sound_event|by apply sound_read]|];
         intros _; by apply sound_read|intros r; by apply sound_read]);
    intros err; destruct (isOverlapViolation err), (isDuplicateQuote err); try by apply sound_read.
  destruct (isDeadlock err); [exact IH|by apply sound_read].
Qed.

Lemma sound_accept_writes (b : Row) (o : string) : sound (accept_writes b o).
Proof.
  unfold accept_writes.
  apply sound_bind; [apply sound_update_one|]. intros row.
  apply sound_bind; [apply sound_event|]. intros _.
  apply sound_bind; [by apply sound_read|]. intros conflicts.
  apply sound_bind.
  - destruct conflicts; [by apply sound_read|].
    apply sound_bind; [apply sound_update|intros _; apply sound_events].
  - intros _. apply sound_bind; [by apply sound_read|]. intros rec. by apply sound_read.
Qed.

Lemma sound_accept (i o : string) (now : instant) : sound (accept ownerOf rival victim i o now).
Proof.
  unfold accept. generalize (DEADLOCK_ATTEMPTS - 1)%nat. intros left.
  assert (forall k, sound (accept_attempt ownerOf rival victim k i o now)) as Hattempt.
  { intros k db Hdb. unfold accept_attempt. destruct (by_id i db) as [b|]; [|split; [done|reflexivity]].
    destruct (negb _); [split; [done|reflexivity]|]. destruct (negb _); [split; [done|reflexivity]|].
    destruct (_ <=? now); [split; [done|reflexivity]|].
    by apply (sound_attempt rival victim k (accept_writes b o) Hgood (sound_accept_writes b o)). }
  induction left as [|left IH]; cbn [accept_attempts]; apply sound_catch; try apply Hattempt;
    intros err; destruct (isOverlapViolation err); try by apply sound_read.
  destruct (isDeadlock err); [exact IH|by apply sound_read].
Qed.

Lemma sound_decline (i o : string) (now : instant) : sound (decline ownerOf rival victim i o now).
Proof.
  intros db Hdb. unfold decline. destruct (by_id i db) as [b|]; [|split; [done|reflexivity]].
  destruct (negb _); [split; [done|reflexivity]|]. destruct (negb _); [split; [done|reflexivity]|].
  apply sound_attempt; [done| |done].
  apply sound_bind; [apply sound_update_one|]. intros row.
  apply sound_bind; [apply sound_event|]. intros _.
  apply sound_bind; [by apply sound_read|]. intros rec. by apply sound_read.
Qed.

Lemma sound_advance (i : string) (from_ to_ : BookingState) (a : option string) :
  sound (advance rival victim i from_ to_ a).
Proof.
  unfold advance. apply sound_attempt; [done|].
  apply sound_bind; [apply sound_update|]. intros [|r rs]; [by apply sound_read|].
  apply sound_bind; [apply sound_event|]. intros _.
  apply sound_bind; [by apply sound_read|]. intros [x|]; [|by apply sound_read].
  apply sound_bind; [by apply sound_read|]. intros rec. by apply sound_read.
Qed.

Lemma sound_expire (now : instant) (limit : nat) : sound (expireRequests rival victim now limit).
Proof.
  intros db Hdb. unfold expireRequests.
  destruct (row_id <$> take limit _) as [|c cs]; [split; [done|reflexivity]|].
  apply sound_attempt; [done| |done].
  apply sound_bind; [apply sound_update|]. intros rows.
  apply sound_bind; [destruct rows; [by apply sound_read|apply sound_events]|].
  intros _. by apply sound_read.
Qed.
End Race.

Lemma sound_block (l : string) (a b : instant) (why : option string) : sound (block l a b why).
Proof.
  intros db [Hids Hqs Hiss Hrows Hex]. unfold block. destruct (b <=? a); cbn [fst]; [split; [by split|reflexivity]|].
  split.
  - split; try done. eapply Forall_impl; [exact Hiss|]. intros x (k & Hk & ->). exists k. cbn. split; [lia|done].
  - split; [|done]. intros r Hr. exists r. split; [done|by destruct r].
Qed.

Lemma sound_unblock (i l : string) : sound (unblock i l).
Proof.
  intros db [Hids Hqs Hiss Hrows Hex]. unfold unblock. cbn [fst]. split; [by split|].
  split; [|done]. intros r Hr. exists r. split; [done|by destruct r].
Qed.
End Bookings.
