(* ===== verification/Bookings.v ===== *)
(** * The booking service ([apps/api/src/booking/bookings.service.ts],
    [request-expiry.service.ts], [availability.service.ts],
    [packages/core/src/paging.ts])

    [Module Bookings]: asking for, answering and paying for a hire, over the
    booking tables and everything the service reaches through its ports.  The
    ports are the class [BookingPorts].  Wire formats (local dates) are left out:
    an operation that returns a wire booking returns the record and its history. *)

From S2P Require Import Prelude JsNumber Text Money Ledger LedgerStore Pricing BookingState.
From S2P Require Import BookingStore.

#[local] Open Scope string_scope.
#[local] Open Scope list_scope.
#[local] Open Scope Z_scope.

(** ** Paging *)
Module Paging.
Import Js.

Record LimitBounds : Type := mkBounds { fallback : Z; max : Z }.

Definition boundedLimit (requested : number) (bounds : LimitBounds) : Z :=
  match trunc requested with
  | Some z => Z.min (Z.max z 1) (max bounds)
  | None => fallback bounds
  end.

Definition probe (limit : Z) : Z := limit + 1.

Record Page (T : Type) : Type := mkPage { items : list T; truncated : bool }.
Arguments mkPage {T}.
Arguments items {T}.
Arguments truncated {T}.

Definition fitTo {T} (rows : list T) (limit : Z) : Page T :=
  mkPage (take (Z.to_nat limit) rows) (limit <? Z.of_nat (length rows)).
End Paging.

Module Bookings.
Import Money BookingState BookingDb.

(** ** Ports *)
Record NewQuote : Type := mkNewQuote {
  q_listingId : string;
  q_renterId : string;
  q_startAt : instant;
  q_endAt : instant;
  q_timeZone : string;
  q_renterPostcode : string;
  q_itemCharge : Money;
  q_renterFee : Money;
  q_total : Money;
  q_minimumFeeApplied : bool;
  q_lineItems : list Pricing.QuoteLineItem;
  q_appliedExcess : option Pricing.AppliedExcess;
  q_categoryVersionId : string;
  q_expiresAt : instant }.

Record QuoteRecord : Type := mkQuote { q_id : string; q_new :> NewQuote; q_createdAt : instant }.

Record QuotableListing : Type := mkListing {
  l_id : string;
  l_ownerId : string;
  l_title : string;
  l_categoryName : string;
  l_rates : Pricing.ListingRateCard;
  l_currentFeePolicy : Pricing.CategoryFeePolicy;
  l_currentDamageSecurity : option Pricing.DamageSecurityPolicy;
  l_replacementValue : Money;
  l_currentMaximumRentalDays : Z;
  l_currentRequestExpiryHours : Z;
  l_currentCategoryVersionId : string }.

Inductive HireChargeStatus : Type := c_pending_payer_action | c_processing | c_succeeded | c_failed.
Inductive CollectionSecurityStatus : Type := s_not_required | s_held | s_pending_payer_action | s_failed.

#[global] Instance CollectionSecurityStatus_eq_dec : EqDecision CollectionSecurityStatus.
Proof. solve_decision. Defined.

Record HireChargeRequest : Type := mkChargeRequest {
  hc_bookingId : string;
  hc_ownerId : string;
  hc_categoryVersionId : string;
  hc_itemTitle : string;
  hc_itemCharge : Money;
  hc_renterFee : Money;
  hc_total : Money }.

Record HireChargeResult : Type := mkChargeResult {
  hc_status : HireChargeStatus;
  hc_payerAction : option string;
  hc_failureMessage : option string }.

Record CollectionSecurityRequest : Type := mkSecurityRequest {
  cs_bookingId : string;
  cs_ownerId : string;
  cs_categoryVersionId : string;
  cs_itemTitle : string;
  cs_excess : option Money }.

Record CollectionSecurityResult : Type := mkSecurityResult {
  cs_status : CollectionSecurityStatus;
  cs_payerAction : option string;
  cs_failureMessage : option string }.

(** What the service asks of the rest of the system, whose state is [W]. *)
Class BookingPorts (W : Type) : Type := {
  findQuoteForRenter : string -> string -> W -> option QuoteRecord;
  findQuotable : string -> W -> option QuotableListing;
  isPaymentEnabled : W -> bool;
  chargeForHire : HireChargeRequest -> M W HireChargeResult;
  holdForCollection : CollectionSecurityRequest -> M W CollectionSecurityResult }.

Record World {W : Type} : Type := mkWorld { bdb : BookingDb.Db; rest : W }.
Arguments World W : clear implicits.
Arguments mkWorld {W}.

Definition now {W} (w : World W) : instant := bclock (bdb w).

Definition on_bookings {W A} (m : M BookingDb.Db A) : M (World W) A := fun w =>
  let (s, r) := m (bdb w) in (mkWorld s (rest w), r).
Definition on_rest {W A} (m : M W A) : M (World W) A := fun w =>
  let (s, r) := m (rest w) in (mkWorld (bdb w) s, r).

Definition refuse {S A} (why : string) : M S A := throw (RequestRefusedError why).

Definition describeUnavailable (r : UnavailableReason) : string :=
  "Those dates have been taken since you asked for a price. The calendar on the listing shows what is free.".
Definition describeUnavailableToOwner (r : UnavailableReason) : string :=
  match r with
  | blocked => "You have blocked some of those dates since this request arrived. Remove the block on your calendar if you want to accept it."
  | booked => "Those dates are already taken by a booking you have accepted."
  end.

(** [Time.addHours] on a UTC instant. *)
Definition addHours (t : instant) (hours : Z) : instant := t + hours * 3600000.

Definition DEFAULT_BOOKING_LIST_LIMIT : Z := 50.
Definition MAX_BOOKING_LIST_LIMIT : Z := 200.
Definition boundedBookingLimit (limit : Js.number) : Z :=
  Paging.boundedLimit limit (Paging.mkBounds DEFAULT_BOOKING_LIST_LIMIT MAX_BOOKING_LIST_LIMIT).

Record BookingPayment : Type := mkPayment { paid_booking : BookingWithEvents; payment : HireChargeResult }.

Record BookingDetail : Type := mkDetail {
  detail : BookingWithEvents;
  viewer_is_renter : bool;
  detail_payability : BookingPayability }.

Section Service.
Context {Ids : UuidSource} {W : Type} {Ports : BookingPorts W}.
Variable ownerOf : string -> option string.

Section Race.
(** What other requests commit while this one awaits, what other connections
    commit inside one of its transactions, and Postgres's choice of victims. *)
Variable rival : World W -> World W.
Variable within : BookingDb.Db -> BookingDb.Db.
Variable victim : nat -> bool.

Definition await : M (World W) () := modify rival.

Definition requestDeadline (hours : Z) : M (World W) instant :=
  t ← gets now; mret (addHours t hours).

Definition createOrExplainDuplicate (b : NewBooking) (e : NewBookingEvent) : M (World W) BookingRecord :=
  catch (on_bookings (createWithEvent within victim b e))
    (fun err =>
       match err with
       | DuplicateQuoteBookingError _ => refuse "You have already requested this hire. We have only kept the first request — asking again would have made two."
       | _ => throw err
       end).

Definition vanished {A} : M (World W) A :=
  throw (ForeignError "a booking vanished between write and read").

Definition readBack (bookingId userId : string) : M (World W) BookingWithEvents :=
  found ← on_bookings (findForParty ownerOf bookingId userId);
  match found with None => vanished | Some b => mret b end.

Definition request (renter quoteId_ : string) : M (World W) (option BookingWithEvents) :=
  quote ← gets (fun w => findQuoteForRenter quoteId_ renter (rest w));
  match (quote : option QuoteRecord) with
  | None => mret None
  | Some q =>
      t ← gets now;
      if q_expiresAt q <=? t then refuse "That price has expired. Ask for the dates again and you will get a fresh quote — the price may have changed."
      else
        _ ← await;
        listing ← gets (fun w => findQuotable (q_listingId q) (rest w));
        match listing with
        | None => refuse "This item is no longer available to book. It may have been withdrawn since you asked for a price."
        | Some l =>
            if bool_decide (l_ownerId l = renter) then refuse "This is your own listing, so there is nothing to request."
            else
              _ ← await;
              unavailable ← gets (fun w =>
                reasonUnavailable (q_listingId q) (q_startAt q) (q_endAt q) (bdb w));
              match unavailable with
              | Some r => refuse (describeUnavailable r)
              | None =>
                  s ← lift (assertTransition DRAFT REQUESTED);
                  deadline ← requestDeadline (l_currentRequestExpiryHours l);
                  created ← createOrExplainDuplicate
                    {| listingId := q_listingId q; renterId := renter; state := s;
                       startAt := q_startAt q; endAt := q_endAt q; quoteId := q_id q;
                       categoryVersionId := q_categoryVersionId q; itemCharge := q_itemCharge q;
                       renterFee := q_renterFee q; total := q_total q; itemTitle := l_title l;
                       categoryName := l_categoryName l; appliedExcess := q_appliedExcess q;
                       requestExpiresAt := deadline; timeZone := q_timeZone q |}
                    (mkNewEvent requested None (Some s) (Some renter));
                  _ ← await;
                  b ← readBack (id created) renter;
                  mret (Some b)
              end
        end
  end.

Definition pendingRequests (listing ownerId : string) : M (World W) (list PendingRequest) :=
  t ← gets now; on_bookings (findPendingRequests ownerOf listing ownerId t).

Definition accept (bookingId ownerId : string) : M (World W) (option BookingWithEvents) :=
  existing ← on_bookings (findForParty ownerOf bookingId ownerId);
  match existing with
  | None => mret None
  | Some e =>
      let b := new (booking e) in
      if negb (bool_decide (state b = REQUESTED)) then
        refuse "That request is no longer waiting for an answer. Reload the page to see what is."
      else
        t ← gets now;
        if requestExpiresAt b <=? t then refuse "That request has expired, so it can no longer be accepted. The renter can ask again."
        else
          _ ← await;
          unavailable ← gets (fun w => reasonUnavailable (listingId b) (startAt b) (endAt b) (bdb w));
          match unavailable with
          | Some r => refuse (describeUnavailableToOwner r)
          | None =>
              _ ← lift (assertTransition REQUESTED ACCEPTED);
              _ ← await;
              t' ← gets now;
              result ← on_bookings (BookingDb.accept ownerOf within victim bookingId ownerId t');
              match result with
              | None => mret None
              | Some _ => _ ← await; b ← readBack bookingId ownerId; mret (Some b)
              end
          end
  end.

Definition decline (bookingId ownerId : string) : M (World W) (option BookingWithEvents) :=
  existing ← on_bookings (findForParty ownerOf bookingId ownerId);
  match existing with
  | None => mret None
  | Some e =>
      if negb (bool_decide (state (new (booking e)) = REQUESTED)) then
        refuse "That request is no longer waiting for an answer. Reload the page to see what is."
      else
        _ ← lift (assertTransition REQUESTED DECLINED);
        _ ← await;
        t ← gets now;
        result ← on_bookings (BookingDb.decline ownerOf within victim bookingId ownerId t);
        match result with
        | None => mret None
        | Some _ => _ ← await; b ← readBack bookingId ownerId; mret (Some b)
        end
  end.

(** [false] is the code's [null]. *)
Definition movePayable (from_ : BookingState) (bookingId renter : string) : M (World W) bool :=
  if bool_decide (from_ = AWAITING_PAYMENT) then mret true
  else
    _ ← lift (assertTransition from_ AWAITING_PAYMENT);
    moved_ ← on_bookings (advance within victim bookingId from_ AWAITING_PAYMENT (Some renter));
    mret (match moved_ with None => false | Some _ => true end).

Definition settle (bookingId renter : string) (s : HireChargeStatus) : M (World W) () :=
  match s with
  | c_processing | c_pending_payer_action => mret tt
  | _ =>
      let to_ := match s with c_succeeded => RESERVED | _ => PAYMENT_FAILED end in
      _ ← lift (assertTransition AWAITING_PAYMENT to_);
      _ ← on_bookings (advance within victim bookingId AWAITING_PAYMENT to_ (Some renter));
      mret tt
  end.

Definition pay (bookingId renter : string) : M (World W) (option BookingPayment) :=
  enabled ← gets (fun w => isPaymentEnabled (rest w));
  if negb enabled then refuse PAYMENT_NOT_ENABLED
  else
    _ ← await;
    existing ← on_bookings (findForParty ownerOf bookingId renter);
    match existing with
    | None => mret None
    | Some e =>
        let b := new (booking e) in
        if negb (bool_decide (renterId b = renter)) then mret None
        else if negb (bool_decide (state b ∈ PAYABLE_STATES)) then refuse (describeUnpayable (state b))
        else
          match ownerOf (listingId b) with
          | None => refuse "That item is no longer available to pay for. Nothing has been charged."
          | Some owner =>
              _ ← await;
              awaiting ← movePayable (state b) bookingId renter;
              if negb awaiting then refuse "That booking changed while you were paying. Reload the page to see where it stands. Nothing has been charged twice."
              else
                _ ← await;
                res ← on_rest (chargeForHire
                  (mkChargeRequest bookingId owner (categoryVersionId b) (itemTitle b) (itemCharge b)
                     (renterFee b) (total b)));
                _ ← await;
                _ ← settle bookingId renter (hc_status res);
                _ ← await;
                back ← readBack bookingId renter;
                mret (Some (mkPayment back res))
          end
    end.

Definition secureCollection (bookingId renter : string) : M (World W) (option CollectionSecurityResult) :=
  enabled ← gets (fun w => isPaymentEnabled (rest w));
  if negb enabled then refuse PAYMENT_NOT_ENABLED
  else
    _ ← await;
    existing ← on_bookings (findForParty ownerOf bookingId renter);
    match existing with
    | None => mret None
    | Some e =>
        let b := new (booking e) in
        if negb (bool_decide (renterId b = renter)) then mret None
        else if negb (bool_decide (state b = READY_FOR_COLLECTION)) then
          refuse "That booking is not at its collection window, so there is nothing to secure yet. Nothing has been held."
        else
          match ownerOf (listingId b) with
          | None => refuse "That item is no longer available to collect. Nothing has been held."
          | Some owner =>
              _ ← await;
              res ← on_rest (holdForCollection
                (mkSecurityRequest bookingId owner (categoryVersionId b) (itemTitle b)
                   (match appliedExcess b with None => None | Some x => Some (Pricing.excess_amount x) end)));
              _ ← await;
              _ ← (if bool_decide (cs_status res = s_failed) then
                     _ ← lift (assertTransition READY_FOR_COLLECTION SECURITY_FAILED);
                     _ ← on_bookings (advance within victim bookingId READY_FOR_COLLECTION SECURITY_FAILED None);
                     mret tt
                   else mret tt);
              mret (Some res)
          end
    end.

Definition listForRenter (renter : string) (limit : Js.number) : M (World W) (Paging.Page BookingRecord) :=
  let bounded := boundedBookingLimit limit in
  rows ← on_bookings (findForRenter renter (Z.to_nat (Paging.probe bounded)));
  mret (Paging.fitTo rows bounded).

Definition listForOwner (ownerId : string) (limit : Js.number) : M (World W) (Paging.Page BookingRecord) :=
  let bounded := boundedBookingLimit limit in
  rows ← on_bookings (findForOwner ownerOf ownerId (Z.to_nat (Paging.probe bounded)));
  mret (Paging.fitTo rows bounded).

Definition find (bookingId userId : string) (isSuspended_ : bool) : M (World W) (option BookingDetail) :=
  found ← on_bookings (findForParty ownerOf bookingId userId);
  match found with
  | None => mret None
  | Some f =>
      _ ← await;
      enabled ← gets (fun w => isPaymentEnabled (rest w));
      let r := bool_decide (renterId (new (booking f)) = userId) in
      mret (Some (mkDetail f r
        (payabilityOf (mkQuestion (state (new (booking f))) r isSuspended_ enabled))))
  end.

(** [RequestExpiryService.sweep] *)
Definition EXPIRY_BATCH_LIMIT : nat := 500.

Definition sweep : M (World W) ExpirySweepResult :=
  _ ← lift (assertTransition REQUESTED EXPIRED);
  t ← gets now;
  on_bookings (expireRequests within victim t EXPIRY_BATCH_LIMIT).
End Race.

(** ** [AvailabilityService]

    Local dates become instants in [periodFromLocalDates]; the period here is
    already one, and the limits on local dates are a parameter. *)
Section Availability.
Variable acceptable : instant -> instant -> instant -> result ().

Definition isOwnedBy (listing ownerId : string) : bool := bool_decide (ownerOf listing = Some ownerId).

Definition block (listing ownerId : string) (start_ end_ : instant) (reason : option string)
  : M (World W) (option BlockRow) :=
  if negb (isOwnedBy listing ownerId) then mret None
  else
    t ← gets now;
    _ ← lift (acceptable start_ end_ t);
    b ← on_bookings (BookingDb.block listing start_ end_ reason);
    mret (Some b).

Definition unblock (listing ownerId blockId : string) : M (World W) bool :=
  if negb (isOwnedBy listing ownerId) then mret false
  else on_bookings (BookingDb.unblock blockId listing).

Definition readPeriod (listing ownerId : string) (from_ to_ : instant)
  : M (World W) (option (list BlockRow * list Row)) :=
  if negb (isOwnedBy listing ownerId) then mret None
  else
    blocks_ ← gets (fun w => listBlocks listing from_ to_ (bdb w));
    booked_ ← gets (fun w => listBookedPeriods listing from_ to_ (bdb w));
    mret (Some (blocks_, booked_)).
End Availability.
End Service.
End Bookings.
