(* ===== verification/BookingTheorems.v ===== *)
(** * What bookings promise under any interleaving

    Requests served one after another, each disturbed at every [await] by other
    requests, inside every transaction by other connections' commits, and by
    Postgres's choice of deadlock victims: no two bookings of a listing hold
    overlapping dates, no booking loses its terms, no event is unwritten, and
    when transactions are not overtaken every state is the end of its own
    history. *)

From S2P Require Import Prelude JsNumber Text Money Ledger LedgerStore Pricing BookingState.
From S2P Require Import BookingStore BookingProofs Bookings.

#[local] Open Scope string_scope.
#[local] Open Scope list_scope.
#[local] Open Scope Z_scope.

Import BookingState BookingDb Bookings.

(** ** Schedules *)
Section Schedules.
Context {Ids : UuidSource} {W : Type} {Ports : BookingPorts W}.
Variable ownerOf : string -> option string.
Variable acceptable : instant -> instant -> instant -> result ().

(** A transaction some other connection commits. *)
Inductive commit : Type :=
  | KWrite (b : NewBooking) (e : option NewBookingEvent)
  | KAccept (bookingId ownerId : string) (at_ : instant)
  | KDecline (bookingId ownerId : string) (at_ : instant)
  | KAdvance (bookingId : string) (from_ to_ : BookingState) (actor : option string)
  | KExpire (at_ : instant) (limit : nat)
  | KBlock (listing : string) (start_ end_ : instant) (reason : option string)
  | KUnblock (i listing : string).

Definition undisturbed (k : nat) : bool := false.

Definition commit_op (c : commit) (db : Db) : Db :=
  match c with
  | KWrite b e => fst (write Datatypes.id undisturbed b e db)
  | KAccept i o t => fst (BookingDb.accept ownerOf Datatypes.id undisturbed i o t db)
  | KDecline i o t => fst (BookingDb.decline ownerOf Datatypes.id undisturbed i o t db)
  | KAdvance i f t a => fst (advance Datatypes.id undisturbed i f t a db)
  | KExpire t n => fst (expireRequests Datatypes.id undisturbed t n db)
  | KBlock l a b why => fst (BookingDb.block l a b why db)
  | KUnblock i l => fst (BookingDb.unblock i l db)
  end.

Definition commits (cs : list commit) (db : Db) : Db := fold_left (fun db c => commit_op c db) cs db.

Inductive request : Type :=
  | RRequest (renter quote : string)
  | RAccept (bookingId ownerId : string)
  | RDecline (bookingId ownerId : string)
  | RPay (bookingId renter : string)
  | RSecure (bookingId renter : string)
  | RSweep
  | RBlock (listing ownerId : string) (start_ end_ : instant) (reason : option string)
  | RUnblock (listing ownerId blockId : string)
  | RClock (t : instant)
  | RRest (f : W -> W).

Definition set_clock (t : instant) (db : Db) : Db :=
  mkDb (bookings db) (events db) (blocks db) (bseq db) t.

Definition serve (rival : World W -> World W) (within : Db -> Db) (victim : nat -> bool)
    (r : request) (w : World W) : World W :=
  match r with
  | RRequest u q => fst (Bookings.request ownerOf rival within victim u q w)
  | RAccept b o => fst (Bookings.accept ownerOf rival within victim b o w)
  | RDecline b o => fst (Bookings.decline ownerOf rival within victim b o w)
  | RPay b u => fst (pay ownerOf rival within victim b u w)
  | RSecure b u => fst (secureCollection ownerOf rival within victim b u w)
  | RSweep => fst (sweep within victim w)
  | RBlock l o a b why => fst (Bookings.block ownerOf acceptable l o a b why w)
  | RUnblock l o i => fst (Bookings.unblock ownerOf l o i w)
  | RClock t => mkWorld (set_clock t (bdb w)) (rest w)
  | RRest f => mkWorld (bdb w) (f (rest w))
  end.

(** Requests served whole: what runs during somebody else's [await]. *)
Definition serve_all (rs : list request) (w : World W) : World W :=
  fold_left (fun w r => serve Datatypes.id Datatypes.id undisturbed r w) rs w.

Record turn : Type := mkTurn {
  served : request;
  between : list request;
  inside : list commit;
  deadlocks : nat -> bool }.

Definition calm (r : request) : turn := mkTurn r [] [] undisturbed.

Definition run (ts : list turn) (w : World W) : World W :=
  fold_left (fun w t => serve (serve_all (between t)) (commits (inside t)) (deadlocks t) (served t) w) ts w.

Definition opening (t : instant) (x : W) : World W := mkWorld (empty_db t) x.

(** ** Every request keeps the invariant *)
Definition soundw {A} (m : M (World W) A) : Prop :=
  forall w, bwf (bdb w) -> bwf (bdb (fst (m w))) /\ bext (bdb w) (bdb (fst (m w))).

Definition good_world (rival : World W -> World W) : Prop := soundw (modify rival).

Lemma soundw_same {A} (m : M (World W) A) : (forall w, bdb (fst (m w)) = bdb w) -> soundw m.
Proof. intros H w Hw. rewrite H. split; [done|reflexivity]. Qed.

Lemma soundw_bind {A B} (m : M (World W) A) (f : A -> M (World W) B) :
  soundw m -> (forall a, soundw (f a)) -> soundw (mbind f m).
Proof.
  intros Hm Hf w Hw. unfold mbind, M_bind. destruct (Hm w Hw) as [H1 E1].
  destruct (m w) as [w1 [a|e]]; cbn [fst] in *; [|done].
  destruct (Hf a w1 H1) as [H2 E2]. split; [done|by etrans].
Qed.

Lemma soundw_catch {A} (m : M (World W) A) (h : error -> M (World W) A) :
  soundw m -> (forall e, soundw (h e)) -> soundw (catch m h).
Proof.
  intros Hm Hh w Hw. unfold catch. destruct (Hm w Hw) as [H1 E1].
  destruct (m w) as [w1 [a|e]]; cbn [fst] in *; [done|].
  destruct (Hh e w1 H1) as [H2 E2]. split; [done|by etrans].
Qed.

Lemma soundw_bookings {A} (m : M Db A) : sound m -> soundw (on_bookings m).
Proof. intros Hm w Hw. specialize (Hm _ Hw). unfold on_bookings. by destruct (m (bdb w)). Qed.

Lemma soundw_rest {A} (m : M W A) : soundw (on_rest m).
Proof. apply soundw_same. intros w. unfold on_rest. by destruct (m (rest w)). Qed.

Lemma sound_findForParty (i u : string) : sound (findForParty ownerOf i u).
Proof.
  apply sound_read. intros db. unfold findForParty. destruct (by_id i db) as [r|]; [|done].
  by destruct (is_party _ _ _).
Qed.

Lemma soundw_readBack (i u : string) : soundw (readBack ownerOf i u).
Proof.
  apply soundw_bind; [apply soundw_bookings, sound_findForParty|].
  intros [b|]; by apply soundw_same.
Qed.
End Schedules.

Create HintDb booking.
#[export] Hint Resolve soundw_bind soundw_rest soundw_bookings sound_findForParty soundw_readBack
  sound_write sound_accept sound_decline sound_advance sound_expire sound_block sound_unblock : booking.
#[export] Hint Extern 8 (soundw _) => (apply soundw_same; done) : booking.

(** Walk a handler: one [bind], one [match] at a time. *)
Ltac walk :=
  repeat first
    [ progress eauto with booking nocore
    | apply soundw_bind; [|intros ?]
    | match goal with |- soundw (match ?x with _ => _ end) => destruct x end
    | match goal with |- soundw (if ?x then _ else _) => destruct x end
    | progress cbn zeta ].

Section Sound.
Context {Ids : UuidSource} {W : Type} {Ports : BookingPorts W}.
Variable ownerOf : string -> option string.
Variable acceptable : instant -> instant -> instant -> result ().

Lemma commits_good (cs : list (commit)) : good_rival (commits ownerOf cs).
Proof.
  assert (good_rival Datatypes.id) as Hid by apply booking_rival_id.
  unfold commits. induction cs as [|c cs IH]; cbn [fold_left]; [done|]. intros db Hdb.
  assert (bwf (commit_op ownerOf c db) /\ bext db (commit_op ownerOf c db)) as [H1 E1].
  { destruct c; cbn [commit_op].
    - by apply sound_write.
    - by apply sound_accept.
    - by apply sound_decline.
    - by apply sound_advance.
    - by apply sound_expire.
    - by apply sound_block.
    - by apply sound_unblock. }
  destruct (IH _ H1) as [H2 E2]. split; [done|by etrans].
Qed.

Section Race.
Variable rival : World W -> World W.
Variable within : Db -> Db.
Variable victim : nat -> bool.
Hypothesis Hrival : good_world rival.
Hypothesis Hwithin : good_rival within.

Lemma soundw_await : soundw (await rival).
Proof. exact Hrival. Qed.

#[local] Hint Resolve soundw_await Hwithin : booking.

Lemma soundw_request (u q : string) : soundw (Bookings.request ownerOf rival within victim u q).
Proof.
  unfold Bookings.request, createOrExplainDuplicate, requestDeadline. walk.
  apply soundw_catch; [walk|]. intros []; by apply soundw_same.
Qed.

Lemma soundw_accept (b o : string) : soundw (Bookings.accept ownerOf rival within victim b o).
Proof. unfold Bookings.accept. walk. Qed.

Lemma soundw_decline (b o : string) : soundw (Bookings.decline ownerOf rival within victim b o).
Proof. unfold Bookings.decline. walk. Qed.

Lemma soundw_settle (b u : string) (s : HireChargeStatus) : soundw (W := W) (settle within victim b u s).
Proof. unfold settle. destruct s; walk. Qed.

Lemma soundw_pay (b u : string) : soundw (pay ownerOf rival within victim b u).
Proof. pose proof soundw_settle. unfold pay, movePayable. walk. Qed.

Lemma soundw_secure (b u : string) : soundw (secureCollection ownerOf rival within victim b u).
Proof. unfold secureCollection. walk. Qed.

Lemma soundw_sweep : soundw (sweep (W := W) within victim).
Proof. unfold sweep. walk. Qed.

Lemma serve_sound (r : request (W := W)) (w : World W) :
  bwf (bdb w) ->
  bwf (bdb (serve ownerOf acceptable rival within victim r w)) /\
  bext (bdb w) (bdb (serve ownerOf acceptable rival within victim r w)).
Proof.
  destruct r; cbn [serve].
  - apply soundw_request.
  - apply soundw_accept.
  - apply soundw_decline.
  - apply soundw_pay.
  - apply soundw_secure.
  - apply soundw_sweep.
  - revert w. change (soundw (W := W) (Bookings.block ownerOf acceptable listing ownerId start_ end_ reason)).
    unfold Bookings.block. walk.
  - revert w. change (soundw (W := W) (Bookings.unblock ownerOf listing ownerId blockId)).
    unfold Bookings.unblock. walk.
  - intros [Hids Hqs Hiss Hrows Hex]. split; [by split|]. split; [|done].
    intros x Hx. exists x. split; [done|by destruct x].
  - intros Hw. split; [done|reflexivity].
Qed.
End Race.

Lemma serve_all_good (rs : list (request (W := W))) : good_world (serve_all ownerOf acceptable rs).
Proof.
  unfold serve_all, good_world. induction rs as [|r rs IH]; intros w Hw; cbn [modify fst fold_left].
  { split; [done|reflexivity]. }
  destruct (serve_sound Datatypes.id Datatypes.id undisturbed
              (fun w Hw => conj Hw (reflexivity _)) booking_rival_id r w Hw) as [H1 E1].
  destruct (IH _ H1) as [H2 E2]. split; [done|by etrans].
Qed.

Lemma run_sound (ts : list (turn (W := W))) (w : World W) :
  bwf (bdb w) -> bwf (bdb (run ownerOf acceptable ts w)) /\ bext (bdb w) (bdb (run ownerOf acceptable ts w)).
Proof.
  unfold run. revert w. induction ts as [|t ts IH]; intros w Hw; cbn [fold_left].
  { split; [done|reflexivity]. }
  destruct (serve_sound _ _ (deadlocks t) (serve_all_good (between t)) (commits_good (inside t))
              (served t) w Hw) as [H1 E1].
  destruct (IH _ H1) as [H2 E2]. split; [done|by etrans].
Qed.
End Sound.

(** ** What holds after any schedule *)
Section Theorems.
Context {Ids : UuidSource} {W : Type} {Ports : BookingPorts W}.
Variable ownerOf : string -> option string.
Variable acceptable : instant -> instant -> instant -> result ().

Lemma not_excluded (r r' : Row) :
  row_id r <> row_id r' -> row_listingId r = row_listingId r' ->
  occupiesCalendar (row_state r) = true -> occupiesCalendar (row_state r') = true ->
  excluded r r' = false ->
  row_endAt r <= row_startAt r' \/ row_endAt r' <= row_startAt r.
Proof.
  intros Hi Hl Ho Ho'. rewrite excluded_eq. unfold row_overlaps, overlaps.
  rewrite bool_decide_eq_true_2, Ho, Ho' by done. cbn [andb]. lia.
Qed.

(** C1. After any schedule of requests, each disturbed at every await by other requests, in
    every transaction by other connections' commits and by Postgres's choice of deadlock
    victims, two different bookings of one listing that both occupy the calendar never
    overlap in time. *)
Theorem no_double_booking (ts : list (turn (W := W))) (t : instant) (x : W) (r r' : Row) :
  let db := bdb (run ownerOf acceptable ts (opening t x)) in
  r ∈ bookings db -> r' ∈ bookings db -> row_listingId r = row_listingId r' ->
  occupiesCalendar (row_state r) = true -> occupiesCalendar (row_state r') = true ->
  r = r' \/ row_endAt r <= row_startAt r' \/ row_endAt r' <= row_startAt r.
Proof.
  intros db Hr Hr' Hl Ho Ho'.
  destruct (run_sound ownerOf acceptable ts (opening t x) (bwf_empty t)) as [Hwf _]. fold db in Hwf.
  destruct (decide (row_id r = row_id r')) as [He|Hne].
  - left. pose proof (find_by_unique row_id _ r (bwf_ids _ Hwf) Hr) as H1.
    pose proof (find_by_unique row_id _ r' (bwf_ids _ Hwf) Hr') as H2. congruence.
  - right. apply not_excluded; [done..|]. by apply (bwf_excluded _ Hwf).
Qed.

(** Once written, a booking is found under its id forever and only its state and its update
    time ever differ: its dates, parties and money are the ones it was made with, its money
    adds up, its dates are in order, and no event is ever unwritten. *)
Theorem terms_never_change (ts1 ts2 : list (turn (W := W))) (t : instant) (x : W) (r : Row) :
  let w := run ownerOf acceptable ts1 (opening t x) in
  let db' := bdb (run ownerOf acceptable ts2 w) in
  r ∈ bookings (bdb w) ->
  exists s u, by_id (row_id r) db' = Some (with_state s u r) /\
    totalAmount r = itemChargeAmount r + renterFeeAmount r /\ row_startAt r < row_endAt r /\
    events (bdb w) `prefix_of` events db'.
Proof.
  intros w db' Hr.
  destruct (run_sound ownerOf acceptable ts1 (opening t x) (bwf_empty t)) as [Hw _]. fold w in Hw.
  destruct (run_sound ownerOf acceptable ts2 w Hw) as [Hw' [Hrows Hev]]. fold db' in Hw', Hrows, Hev.
  destruct (Hrows r Hr) as (r' & Hr' & He). exists (row_state r'), (row_updatedAt r'). split_and!.
  - rewrite <- He. assert (row_id r = row_id r') as -> by (by rewrite He).
    by apply find_by_unique; [apply bwf_ids|].
  - pose proof (bwf_rows _ Hw) as H. rewrite Forall_forall in H. specialize (H r Hr). unfold row_refusal in H.
    repeat step_match; try done; lia.
  - pose proof (bwf_rows _ Hw) as H. rewrite Forall_forall in H. specialize (H r Hr). unfold row_refusal in H.
    repeat step_match; try done; lia.
  - done.
Qed.
End Theorems.
