(* ===== verification/BookingHistory.v ===== *)
(** * Bookings and their histories

    When no transaction is overtaken between its read and its write, every
    booking's state is the end of its own append-only history, and that history
    follows the transition table.  Requests may still interleave at every
    [await], and any transaction may be a deadlock's victim. *)

From S2P Require Import Prelude JsNumber Text Money Ledger LedgerStore Pricing BookingState.
From S2P Require Import BookingStore BookingProofs Bookings BookingTheorems.

#[local] Open Scope string_scope.
#[local] Open Scope list_scope.
#[local] Open Scope Z_scope.

Import BookingState BookingDb Bookings.

(** ** Histories *)

(** [explains es s]: the events [es] start with a booking's creation, each next
    one leaves the state the last one entered by an edge of the table, and [s] is
    where they end. *)
Inductive explains : list EventRow -> BookingState -> Prop :=
  | explains_created e s : fromState e = None -> toState e = Some s -> explains [e] s
  | explains_moved es e s s' :
      explains es s -> fromState e = Some s -> toState e = Some s' ->
      canTransition s s' = true -> explains (es ++ [e]) s'.

Section History.
Context {Ids : UuidSource}.

Record hinv (db : Db) : Prop := {
  hinv_bwf : bwf db;
  hinv_events : Forall (fun e => row_issued db (ev_bookingId e)) (events db);
  hinv_rows : forall r, r ∈ bookings db -> explains (written (row_id r) db) (row_state r) }.

Lemma hinv_empty (t : instant) : hinv (empty_db t).
Proof. split; [apply bwf_empty|constructor|by intros r ?%not_elem_of_nil]. Qed.

(** ** Appending events *)
Definition logged (db : Db) (c : option string) (e : NewBookingEvent) (i : string) : EventRow :=
  mkEvent i (ne_type e) (ne_fromState e) (ne_toState e) (ne_actorId e) c (bclock db).

Definition with_events (es : list EventRow) (db : Db) : Db :=
  mkDb (bookings db) (events db ++ es) (blocks db) (bseq db) (bclock db).

Lemma add_events_run (ids : list string) (c : option string) (e : NewBookingEvent) (db : Db) :
  add_events ids c e db = (with_events (logged db c e <$> ids) db, Ok tt).
Proof.
  revert db. induction ids as [|i ids IH]; intros db; cbn [add_events].
  - unfold with_events. cbn. rewrite app_nil_r. by destruct db.
  - rewrite (bind_run _ _ db (with_events [logged db c e i] db) tt) by done.
    rewrite IH. unfold with_events. cbn. by rewrite <- app_assoc.
Qed.

Lemma add_event_run (i : string) (c : option string) (e : NewBookingEvent) (db : Db) :
  add_event i c e db = (with_events (logged db c e <$> [i]) db, Ok tt).
Proof. done. Qed.

Lemma written_logged (i : string) (ids : list string) (c : option string) (e : NewBookingEvent)
    (db db0 : Db) :
  NoDup ids ->
  written i (with_events (logged db0 c e <$> ids) db) =
  written i db ++ (if decide (i ∈ ids) then [logged db0 c e i] else []).
Proof.
  intros Hnd. unfold written, with_events. cbn [events]. rewrite filter_app. f_equal.
  induction Hnd as [|x ids Hx Hnd IH]; [by rewrite decide_False by apply not_elem_of_nil|].
  cbn [fmap list_fmap]. destruct (decide (x = i)) as [->|Hne].
  - rewrite filter_cons_True, decide_True by (done || left). rewrite IH. by rewrite decide_False.
  - rewrite filter_cons_False, IH by done. destruct (decide (i ∈ ids)).
    + by rewrite decide_True by (by right).
    + rewrite decide_False; [done|]. by intros [->|?]%elem_of_cons.
Qed.

(** ** What a party reads *)
Lemma filter_imap_written (i : string) (k : nat) (es : list EventRow) :
  snd <$> filter (fun x => ev_bookingId (snd x) = i) (imap (fun j e => ((k + j)%nat, e)) es) =
  filter (fun e => ev_bookingId e = i) es.
Proof.
  revert k. induction es as [|e es IH]; intros k; [done|]. rewrite imap_cons.
  assert (imap ((fun j e0 => ((k + j)%nat, e0)) ∘ S) es = imap (fun j e0 => ((S k + j)%nat, e0)) es) as ->
    by (apply imap_ext; intros j e0 _; cbn; f_equal; lia).
  rewrite !filter_cons. cbn [snd]. destruct (decide _); [rewrite fmap_cons; f_equal|]; apply IH.
Qed.

Lemma later_is_other (es : list (nat * EventRow)) (x x' : nat * EventRow) :
  StronglySorted Z.lt (ev_createdAt <$> (snd <$> es)) -> x ∈ es -> x' ∈ es ->
  by_event x x' -> by_event x' x -> x = x'.
Proof.
  intros Hs. revert x x'. induction es as [|y es IH]; intros x x'; [by intros ?%not_elem_of_nil|].
  cbn in Hs. apply StronglySorted_inv in Hs as [Hs Hy]. rewrite Forall_forall in Hy.
  assert (forall z, z ∈ es -> ev_createdAt (snd y) < ev_createdAt (snd z)) as Hlt
    by (intros z Hz; apply Hy, list_elem_of_fmap_2, list_elem_of_fmap_2, Hz).
  rewrite !elem_of_cons. intros [->|Hx] [->|Hx'] H1 H2; [done|..|by apply IH].
  - specialize (Hlt x' Hx'). unfold by_event, sorts_before in *. lia.
  - specialize (Hlt x Hx). unfold by_event, sorts_before in *. lia.
Qed.

Lemma strictly_in_order (es : list (nat * EventRow)) :
  StronglySorted Z.lt (ev_createdAt <$> (snd <$> es)) -> StronglySorted by_event es.
Proof.
  induction es as [|y es IH]; intros Hs; [constructor|]. cbn in Hs.
  apply StronglySorted_inv in Hs as [Hs Hy]. constructor; [by apply IH|].
  rewrite Forall_forall in Hy. apply Forall_forall. intros z Hz. left.
  apply Hy, list_elem_of_fmap_2, list_elem_of_fmap_2, Hz.
Qed.

(** Events a millisecond or more apart are read in the order they were written. *)
Lemma history_of_written (i : string) (db : Db) :
  StronglySorted Z.lt (ev_createdAt <$> written i db) -> history_of i db = written i db.
Proof.
  unfold history_of, written. rewrite <- (filter_imap_written i 0).
  change (imap (fun j e => ((0 + j)%nat, e))) with (imap (@pair nat EventRow)).
  set (es := filter _ (imap pair (events db))). intros Hs. f_equal.
  apply (StronglySorted_unique_strong by_event).
  - intros x x' Hx Hx'. rewrite merge_sort_Permutation in Hx. by apply (later_is_other es).
  - apply (StronglySorted_merge_sort by_event).
  - by apply strictly_in_order.
  - apply merge_sort_Permutation.
Qed.

(** ** A move and its record *)
Lemma row_unique (db : Db) (r r' : Row) :
  bwf db -> r ∈ bookings db -> r' ∈ bookings db -> row_id r = row_id r' -> r = r'.
Proof.
  intros Hwf Hr Hr' He.
  pose proof (find_by_unique row_id _ r (bwf_ids _ Hwf) Hr) as H1.
  pose proof (find_by_unique row_id _ r' (bwf_ids _ Hwf) Hr') as H2. congruence.
Qed.

Lemma filter_ids_NoDup (db : Db) (p : Row -> bool) :
  bwf db -> NoDup (row_id <$> List.filter p (bookings db)).
Proof.
  intros Hwf. apply NoDup_bfilter, (bwf_ids _ Hwf).
Qed.

Lemma update_where_ok (p : Row -> bool) (s : BookingState) (db db' : Db) (rows : list Row) :
  update_where p s db = (db', Ok rows) ->
  db' = with_bookings (moved p s db) db /\
  row_id <$> rows = row_id <$> List.filter p (bookings db) /\
  rows = with_state s (bclock db) <$> List.filter p (bookings db).
Proof.
  unfold update_where. destruct (existsb _ _); [done|]. intros [= <- <-]. split_and!; [done| |done].
  rewrite <- list_fmap_compose. by apply list_fmap_ext.
Qed.

Lemma move_and_log (p : Row -> bool) (from_ to_ : BookingState) (c : option string)
    (e : NewBookingEvent) (db db' : Db) (rows : list Row) :
  hinv db -> (forall r, r ∈ bookings db -> p r = true -> row_state r = from_) ->
  canTransition from_ to_ = true -> ne_fromState e = Some from_ -> ne_toState e = Some to_ ->
  update_where p to_ db = (db', Ok rows) ->
  hinv (with_events (logged db' c e <$> (row_id <$> rows)) db').
Proof.
  intros [Hwf Hev Hrows] Hp Hc Hf Ht Hu.
  pose proof (sound_update p to_ db Hwf) as [Hwf' _]. rewrite Hu in Hwf'. cbn [fst] in Hwf'.
  destruct (update_where_ok _ _ _ _ _ Hu) as (-> & Hids & _). rewrite Hids.
  set (ids := row_id <$> List.filter p (bookings db)).
  assert (NoDup ids) as Hnd by by apply filter_ids_NoDup.
  assert (forall r0, r0 ∈ bookings db -> row_id r0 ∈ ids <-> p r0 = true) as Hin.
  { intros r0 Hr0. unfold ids. rewrite list_elem_of_fmap. split.
    - intros (x & Hx & [Hxi Hpx]%list_elem_of_In%List.filter_In).
      by rewrite (row_unique db r0 x Hwf Hr0 (proj2 (list_elem_of_In _ _) Hxi) Hx).
    - intros Hpr. exists r0. split; [done|]. apply list_elem_of_In, List.filter_In.
      split; [by apply list_elem_of_In|done]. }
  split.
  - destruct Hwf' as [H1 H2 H3 H4 H5]. by split.
  - cbn [with_events events with_bookings]. apply Forall_app. split.
    + eapply Forall_impl; [exact Hev|]. intros x (k & Hk & Hx). by exists k.
    + apply Forall_fmap, Forall_forall. intros i (x & -> & [Hx _]%list_elem_of_In%List.filter_In)%list_elem_of_fmap.
      cbn. apply list_elem_of_In in Hx. pose proof (bwf_issued _ Hwf) as Hiss. rewrite Forall_forall in Hiss.
      destruct (Hiss x Hx) as (k & Hk & He). by exists k.
  - intros r Hr. cbn [with_events bookings with_bookings] in Hr.
    apply elem_of_moved in Hr as (r0 & Hr0 & ->). rewrite written_logged by done.
    change (written _ (with_bookings _ db)) with
      (written (row_id (if p r0 then with_state to_ (bclock db) r0 else r0)) db).
    specialize (Hrows r0 Hr0). specialize (Hin r0 Hr0). destruct (p r0) eqn:Hpr.
    + change (row_id (with_state _ _ r0)) with (row_id r0). rewrite decide_True by tauto.
      eapply explains_moved; [exact Hrows|cbn; rewrite Hf; by f_equal; rewrite <- (Hp r0 Hr0 Hpr)|done|].
      by rewrite (Hp r0 Hr0 Hpr).
    + rewrite decide_False by (by rewrite Hin). by rewrite app_nil_r.
Qed.

(** ** The adapters keep it, when no transaction is overtaken *)
Definition told {A} (m : M Db A) : Prop := forall db, hinv db -> hinv (fst (m db)).
Definition told_ok {A} (m : M Db A) : Prop := forall db db' a, hinv db -> m db = (db', Ok a) -> hinv db'.

Lemma told_read {A} (m : M Db A) : (forall db, fst (m db) = db) -> told m.
Proof. intros H db. by rewrite H. Qed.

Lemma told_catch {A} (m : M Db A) (h : error -> M Db A) :
  told m -> (forall e, told (h e)) -> told (catch m h).
Proof.
  intros Hm Hh db Hdb. unfold catch. specialize (Hm db Hdb).
  destruct (m db) as [db1 [a|e]]; [done|by apply Hh].
Qed.

Lemma told_attempt {A} (victim : nat -> bool) (k : nat) (m : M Db A) :
  told_ok m -> told (attempt_at Datatypes.id victim k m).
Proof.
  intros Hm db Hdb. unfold attempt_at, transaction, Datatypes.id.
  destruct (victim k); [done|]. destruct (m db) as [db1 [a|e]] eqn:Hr; [|done]. by eapply Hm.
Qed.

Lemma told_then {A B} (m : M Db A) (f : A -> result B) : told m -> told (a ← m; lift (f a)).
Proof. intros Hm db Hdb. specialize (Hm db Hdb). rewrite bind_at. by destruct (m db) as [db1 [a|e]]. Qed.

Lemma row_for_issued (b : NewBooking) (db db' : Db) (r : Row) :
  insert_booking b db = (db', Ok r) ->
  r = row_for b db /\ bookings db' = bookings db ++ [r] /\ events db' = events db /\
  bseq db' = S (bseq db) /\ row_refusal r = None.
Proof.
  unfold insert_booking. destruct (row_refusal _) eqn:Hr; [done|]. case_bool_decide; [done|].
  destruct (existsb _ _); [done|]. by intros [= <- <-].
Qed.

Lemma unissued_written (db : Db) : hinv db -> written (uuid (bseq db)) db = [].
Proof.
  intros [_ Hev _]. unfold written. induction Hev as [|e es (k & Hk & He) _ IH]; [done|].
  rewrite filter_cons_False; [done|]. rewrite He. intros ?%(inj uuid). lia.
Qed.

Lemma told_create (b : NewBooking) (e : NewBookingEvent) :
  ne_fromState e = None -> ne_toState e = Some (state b) -> told_ok (create_with b (Some e)).
Proof.
  intros Hf Ht db db' a Hdb H. unfold create_with in H.
  apply bind_ok in H as (db1 & r & Hins & H). apply bind_ok in H as (db2 & [] & Hadd & H).
  injection H as <- _. rewrite add_event_run in Hadd. injection Hadd as <-.
  pose proof (sound_insert b db (hinv_bwf _ Hdb)) as [Hwf' _]. rewrite Hins in Hwf'. cbn [fst] in Hwf'.
  pose proof (unissued_written db Hdb) as Hnone. destruct Hdb as [Hwf Hev Hrows].
  apply row_for_issued in Hins as (-> & Hb & He & Hs & _). split.
  - destruct Hwf' as [H1 H2 H3 H4 H5]. by split.
  - cbn [with_events events]. rewrite He. apply Forall_app. split.
    + eapply Forall_impl; [exact Hev|]. intros x (k & Hk & Hx). exists k. cbn. split; [lia|done].
    + apply Forall_singleton. exists (bseq db). cbn. split; [lia|done].
  - intros x Hx. cbn [with_events bookings] in Hx. rewrite Hb in Hx.
    change (with_events _ db1) with (with_events (logged db1 None e <$> [uuid (bseq db)]) db1).
    rewrite written_logged by apply NoDup_singleton.
    assert (written (row_id x) db1 = written (row_id x) db) as -> by (unfold written; by rewrite He).
    apply elem_of_app in Hx as [Hx| ->%list_elem_of_singleton].
    + rewrite decide_False; [by rewrite app_nil_r; apply Hrows|].
      intros Heq%list_elem_of_singleton. pose proof (bwf_issued _ Hwf) as Hiss. rewrite Forall_forall in Hiss.
      destruct (Hiss x Hx) as (k & Hk & Hid). rewrite Heq in Hid. apply (inj uuid) in Hid. lia.
    + rewrite decide_True by (by apply list_elem_of_singleton). cbn [row_id row_for]. rewrite Hnone.
      apply explains_created; [done|]. cbn. by rewrite Ht.
Qed.

Lemma told_write (victim : nat -> bool) (b : NewBooking) (e : NewBookingEvent) :
  ne_fromState e = None -> ne_toState e = Some (state b) ->
  told (write Datatypes.id victim b (Some e)).
Proof.
  intros Hf Ht. unfold write. generalize (DEADLOCK_ATTEMPTS - 1)%nat. intros left.
  induction left as [|left IH]; cbn [write_attempts];
    (apply told_catch; [by apply told_then, told_attempt, told_create|]);
    intros err; destruct (isOverlapViolation err), (isDuplicateQuote err); try by apply told_read.
  destruct (isDeadlock err); [exact IH|by apply told_read].
Qed.

Lemma update_one_ok (i : string) (s : BookingState) (db db' : Db) (r : Row) :
  update_one i s db = (db', Ok r) ->
  exists rows, update_where (fun r => bool_decide (row_id r = i)) s db = (db', Ok rows) /\
    head rows = Some r.
Proof.
  unfold update_one. intros H. apply bind_ok in H as (db1 & rows & Hu & H).
  destruct rows as [|x rows]; [done|]. injection H as -> ->. eauto.
Qed.

(** A single booking, by its id, and the record of it. *)
Lemma update_one_and_log (i : string) (from_ to_ : BookingState) (c : option string)
    (e : NewBookingEvent) (db db' : Db) (b r : Row) :
  hinv db -> by_id i db = Some b -> row_state b = from_ ->
  canTransition from_ to_ = true -> ne_fromState e = Some from_ -> ne_toState e = Some to_ ->
  update_one i to_ db = (db', Ok r) -> hinv (with_events (logged db' c e <$> [i]) db').
Proof.
  intros Hdb Hb Hs Hc Hf Ht Hu. apply update_one_ok in Hu as (rows & Hu & _).
  apply find_by_Some in Hb as [Hb <-]. pose proof (hinv_bwf _ Hdb) as Hwf.
  assert (row_id <$> rows = [row_id b]) as <-.
  { destruct (update_where_ok _ _ _ _ _ Hu) as (_ & -> & _).
    by rewrite filter_by_unique by (done || apply (bwf_ids _ Hwf)). }
  eapply move_and_log; [done| |done..|exact Hu].
  intros r0 Hr0 He%bool_decide_eq_true. by rewrite (row_unique db r0 b Hwf Hr0 Hb He).
Qed.

(** *** The handlers of the adapter *)
Section Calm.
Variable ownerOf : string -> option string.
Variable victim : nat -> bool.

Lemma told_accept_writes (b : Row) (o : string) (db db' : Db) (a : option AcceptanceResult) :
  hinv db -> by_id (row_id b) db = Some b -> row_state b = REQUESTED ->
  accept_writes b o db = (db', Ok a) -> hinv db'.
Proof.
  intros Hdb Hb Hs H. unfold accept_writes in H.
  apply bind_ok in H as (db1 & row & Hu & H). apply bind_ok in H as (db2 & [] & Ha & H).
  rewrite add_event_run in Ha. apply (f_equal fst) in Ha. cbn [fst] in Ha.
  assert (hinv db2) as H2.
  { rewrite <- Ha. by eapply (update_one_and_log _ REQUESTED ACCEPTED). }
  clear Hu Ha db1 Hdb Hb. apply bind_ok in H as (db3 & conflicts & Hc & H).
  injection Hc as <- Hc. apply bind_ok in H as (db4 & [] & Hd & H).
  assert (db' = db4) as ->.
  { apply bind_ok in H as (db5 & rec & H5 & H). injection H5 as <- _. by injection H as <- _. }
  destruct conflicts as [|x xs]; [by injection Hd as <-|].
  apply bind_ok in Hd as (db5 & rows & Hu & Hd). rewrite add_events_run in Hd.
  apply (f_equal fst) in Hd. cbn [fst] in Hd. rewrite <- Hd. clear Hd H.
  revert Hu Hc. generalize (x :: xs). intros ids Hu Hc.
  assert (row_id <$> rows = ids) as <-.
  { destruct (update_where_ok _ _ _ _ _ Hu) as (_ & -> & _). rewrite <- Hc.
    apply filter_chosen, (bwf_ids _ (hinv_bwf _ H2)). }
  eapply (move_and_log _ REQUESTED DECLINED); [done| |done..|exact Hu].
  intros r Hr Hin%bool_decide_eq_true. rewrite <- Hc in Hin.
  apply list_elem_of_fmap in Hin as (y & He & [Hy Hp]%elem_of_bfilter).
  rewrite (row_unique db2 r y (hinv_bwf _ H2) Hr Hy He).
  apply andb_prop in Hp as [[_ Hp]%andb_prop _]. by apply bool_decide_eq_true in Hp as [_ ?].
Qed.

Lemma told_accept (i o : string) (now : instant) :
  told (BookingDb.accept ownerOf Datatypes.id victim i o now).
Proof.
  unfold BookingDb.accept. generalize (DEADLOCK_ATTEMPTS - 1)%nat. intros left.
  assert (forall k, told (accept_attempt ownerOf Datatypes.id victim k i o now)) as Hattempt.
  { intros k db Hdb. unfold accept_attempt. destruct (by_id i db) as [b|] eqn:Hb; [|done].
    destruct (negb _); [done|]. case_bool_decide as Hs; [|done]. cbn [negb].
    destruct (_ <=? now); [done|]. unfold attempt_at, transaction, Datatypes.id.
    destruct (victim k); [done|]. destruct (accept_writes b o db) as [db1 [a|e]] eqn:Hr; [|done].
    eapply told_accept_writes; [exact Hdb| |exact Hs|exact Hr].
    pose proof Hb as [_ <-]%find_by_Some. done. }
  induction left as [|left IH]; cbn [accept_attempts]; (apply told_catch; [apply Hattempt|]);
    intros err; destruct (isOverlapViolation err); try by apply told_read.
  destruct (isDeadlock err); [exact IH|by apply told_read].
Qed.

Lemma told_decline (i o : string) (now : instant) :
  told (BookingDb.decline ownerOf Datatypes.id victim i o now).
Proof.
  intros db Hdb. unfold BookingDb.decline. destruct (by_id i db) as [b|] eqn:Hb; [|done].
  destruct (negb _); [done|]. case_bool_decide as Hs; [|done]. cbn [negb].
  unfold attempt_at, transaction, Datatypes.id. destruct (victim 1); [done|].
  lazymatch goal with |- hinv (fst (match ?m with _ => _ end)) => destruct m as [db1 [a|e]] eqn:H; [|done] end.
  cbn [fst].
  apply bind_ok in H as (db2 & row & Hu & H). apply bind_ok in H as (db3 & [] & Ha & H).
  rewrite add_event_run in Ha. apply (f_equal fst) in Ha. cbn [fst] in Ha.
  apply bind_ok in H as (db5 & rec & H5 & H). injection H5 as <- _. injection H as <- _.
  rewrite <- Ha. by eapply (update_one_and_log _ REQUESTED DECLINED).
Qed.

Lemma told_advance (i : string) (from_ to_ : BookingState) (actor : option string) :
  canTransition from_ to_ = true -> told (advance Datatypes.id victim i from_ to_ actor).
Proof.
  intros Hc. unfold advance. apply told_attempt. intros db db' a Hdb H.
  apply bind_ok in H as (db1 & rows & Hu & H). pose proof (update_where_ok _ _ _ _ _ Hu) as (Hdb1 & Hids & _).
  destruct rows as [|x rows].
  - injection H as <- _.
    replace db1 with (with_events (logged db1 None (mkNewEvent state_changed (Some from_) (Some to_) actor)
                        <$> (row_id <$> [])) db1) by (destruct db1; unfold with_events; cbn; by rewrite app_nil_r).
    eapply (move_and_log _ from_ to_); [done| |done..|exact Hu].
    by intros r _ [_ ?]%bool_decide_eq_true.
  - apply bind_ok in H as (db2 & [] & Ha & H). rewrite add_event_run in Ha.
    apply (f_equal fst) in Ha. cbn [fst] in Ha.
    assert (db' = db2) as ->.
    { apply bind_ok in H as (db5 & found & H5 & H). injection H5 as <- _. destruct found; [|done].
      apply bind_ok in H as (db6 & rec & H6 & H). injection H6 as <- _. by injection H as <- _. }
    rewrite <- Ha. assert (row_id <$> x :: rows = [i]) as He.
    { rewrite Hids. eapply filter_single; [apply (bwf_ids _ (hinv_bwf _ Hdb))| |by rewrite <- Hids].
      by intros r [? _]%bool_decide_eq_true. }
    rewrite <- He. eapply (move_and_log _ from_ to_); [done| |done..|exact Hu].
    by intros r _ [_ ?]%bool_decide_eq_true.
Qed.

Lemma told_expire (now : instant) (limit : nat) : told (expireRequests Datatypes.id victim now limit).
Proof.
  intros db Hdb. unfold expireRequests. destruct (row_id <$> take limit _) as [|c cs]; [done|].
  revert db Hdb. apply told_attempt. intros db db' a Hdb H.
  apply bind_ok in H as (db1 & rows & Hu & H). apply bind_ok in H as (db2 & [] & Ha & H).
  injection H as <- _. assert (add_events (row_id <$> rows) None
    (mkNewEvent state_changed (Some REQUESTED) (Some EXPIRED) None) db1 = (db2, Ok tt)) as Ha'
    by (by destruct rows).
  rewrite add_events_run in Ha'. apply (f_equal fst) in Ha'. cbn [fst] in Ha'. rewrite <- Ha'.
  eapply (move_and_log _ REQUESTED EXPIRED); [done| |done..|exact Hu].
  intros r _ [_ Ho]%andb_prop. unfold overdue in Ho. apply andb_prop in Ho as [Ho _].
  by apply bool_decide_eq_true in Ho.
Qed.

Lemma told_block (l : string) (a b : instant) (why : option string) : told (BookingDb.block l a b why).
Proof.
  intros db Hdb. pose proof (sound_block l a b why db (hinv_bwf _ Hdb)) as [Hwf _]. revert Hwf.
  destruct Hdb as [H1 Hev Hrows]. unfold BookingDb.block. destruct (b <=? a); cbn [fst]; [by split|].
  split; [done| |exact Hrows]. eapply Forall_impl; [exact Hev|]. intros x (k & Hk & Hx).
  exists k. cbn. split; [lia|done].
Qed.

Lemma told_unblock (i l : string) : told (BookingDb.unblock i l).
Proof.
  intros db Hdb. pose proof (sound_unblock i l db (hinv_bwf _ Hdb)) as [Hwf _].
  destruct Hdb as [H1 Hev Hrows]. by split.
Qed.
End Calm.

(** ** The service keeps it *)
Section Service.
Context {W : Type} {Ports : BookingPorts W}.
Variable ownerOf : string -> option string.
Variable acceptable : instant -> instant -> instant -> result ().

Definition toldw {A} (m : M (World W) A) : Prop := forall w, hinv (bdb w) -> hinv (bdb (fst (m w))).

(** What follows may rely on what was returned. *)
Lemma toldw_bind {A B} (m : M (World W) A) (f : A -> M (World W) B) :
  toldw m -> (forall a, (exists w w', m w = (w', Ok a)) -> toldw (f a)) -> toldw (mbind f m).
Proof.
  intros Hm Hf w Hw. unfold mbind, M_bind. specialize (Hm w Hw).
  destruct (m w) as [w1 [a|e]] eqn:H; cbn [fst] in *; [|done]. apply Hf; eauto.
Qed.

Lemma toldw_same {A} (m : M (World W) A) : (forall w, bdb (fst (m w)) = bdb w) -> toldw m.
Proof. intros H w Hw. by rewrite H. Qed.

Lemma toldw_catch {A} (m : M (World W) A) (h : error -> M (World W) A) :
  toldw m -> (forall e, toldw (h e)) -> toldw (catch m h).
Proof.
  intros Hm Hh w Hw. unfold catch. specialize (Hm w Hw).
  destruct (m w) as [w1 [a|e]]; [done|by apply Hh].
Qed.

Lemma toldw_bookings {A} (m : M Db A) : told m -> toldw (on_bookings m).
Proof. intros Hm w Hw. specialize (Hm _ Hw). unfold on_bookings. by destruct (m (bdb w)). Qed.

Lemma toldw_rest {A} (m : M W A) : toldw (on_rest m).
Proof. apply toldw_same. intros w. unfold on_rest. by destruct (m (rest w)). Qed.

Lemma toldw_findForParty (i u : string) : toldw (on_bookings (findForParty ownerOf i u)).
Proof.
  apply toldw_bookings, told_read. intros db. unfold findForParty.
  destruct (by_id i db) as [r|]; [|done]. by destruct (is_party _ _ _).
Qed.

Lemma toldw_readBack (i u : string) : toldw (readBack ownerOf i u).
Proof. apply toldw_bind; [apply toldw_findForParty|]. intros [b|] _; by apply toldw_same. Qed.

Lemma lift_transition (from_ to_ s : BookingState) :
  (exists w w' : World W, lift (assertTransition from_ to_) w = (w', Ok s)) ->
  s = to_ /\ canTransition from_ to_ = true.
Proof.
  intros (w & w' & H). injection H as _ H. unfold assertTransition in H.
  by destruct (canTransition from_ to_); [injection H as ->|].
Qed.

#[local] Hint Resolve toldw_rest toldw_bookings toldw_findForParty toldw_readBack told_accept told_decline
  told_expire told_block told_unblock : booking.
#[local] Hint Extern 8 (toldw _) => (apply toldw_same; done) : booking.

Ltac walk_told :=
  repeat first
    [ progress eauto with booking nocore
    | apply toldw_bind;
        [|intros ?;
          first [ intros [-> ?]%lift_transition | intros _ ]]
    | match goal with
      | |- toldw (match ?x with _ => _ end) => destruct x eqn:?
      | |- toldw (on_bookings (advance _ _ _ _ _ _)) => by apply toldw_bookings, told_advance
      end
    | progress cbn zeta ].

Section Calm.
Variable rival : World W -> World W.
Variable victim : nat -> bool.
Hypothesis Hrival : forall w, hinv (bdb w) -> hinv (bdb (rival w)).

Lemma toldw_await : toldw (await rival).
Proof. exact Hrival. Qed.
#[local] Hint Resolve toldw_await : booking.

Lemma toldw_request (u q : string) : toldw (Bookings.request ownerOf rival Datatypes.id victim u q).
Proof.
  unfold Bookings.request, createOrExplainDuplicate, requestDeadline. walk_told.
  apply toldw_catch; [by apply toldw_bookings, told_write|]. intros []; by apply toldw_same.
Qed.

Lemma toldw_accept (b o : string) : toldw (Bookings.accept ownerOf rival Datatypes.id victim b o).
Proof. unfold Bookings.accept. walk_told. Qed.

Lemma toldw_decline (b o : string) : toldw (Bookings.decline ownerOf rival Datatypes.id victim b o).
Proof. unfold Bookings.decline. walk_told. Qed.

Lemma toldw_settle (b u : string) (s : HireChargeStatus) :
  toldw (settle (W := W) Datatypes.id victim b u s).
Proof. unfold settle. destruct s; walk_told. Qed.
#[local] Hint Resolve toldw_settle : booking.

Lemma toldw_movePayable (s : BookingState) (b u : string) :
  toldw (movePayable (W := W) Datatypes.id victim s b u).
Proof. unfold movePayable. walk_told. Qed.
#[local] Hint Resolve toldw_movePayable : booking.

Lemma toldw_pay (b u : string) : toldw (pay ownerOf rival Datatypes.id victim b u).
Proof. unfold pay. walk_told. Qed.

Lemma toldw_secure (b u : string) : toldw (secureCollection ownerOf rival Datatypes.id victim b u).
Proof. unfold secureCollection. walk_told. Qed.

Lemma serve_told (r : BookingTheorems.request (W := W)) (w : World W) :
  hinv (bdb w) -> hinv (bdb (serve ownerOf acceptable rival Datatypes.id victim r w)).
Proof.
  destruct r; cbn [serve].
  - apply toldw_request.
  - apply toldw_accept.
  - apply toldw_decline.
  - apply toldw_pay.
  - apply toldw_secure.
  - revert w. change (toldw (sweep (W := W) Datatypes.id victim)). unfold sweep. walk_told.
  - revert w. change (toldw (Bookings.block ownerOf acceptable listing ownerId start_ end_ reason)).
    unfold Bookings.block. walk_told.
  - revert w. change (toldw (Bookings.unblock ownerOf listing ownerId blockId)).
    unfold Bookings.unblock. walk_told.
  - intros [[Hids Hqs Hiss Hrows Hex] Hev Hr]. by split.
  - done.
Qed.
End Calm.

Lemma serve_all_told (rs : list (BookingTheorems.request (W := W))) (w : World W) :
  hinv (bdb w) -> hinv (bdb (serve_all ownerOf acceptable rs w)).
Proof.
  unfold serve_all. revert w. induction rs as [|r rs IH]; intros w Hw; cbn [fold_left]; [done|].
  by apply IH, serve_told.
Qed.

(** No transaction is overtaken. *)
Definition unovertaken (ts : list (turn (W := W))) : Prop := Forall (fun t => inside t = []) ts.

Lemma run_told (ts : list (turn (W := W))) (w : World W) :
  unovertaken ts -> hinv (bdb w) -> hinv (bdb (run ownerOf acceptable ts w)).
Proof.
  unfold run, unovertaken. intros Hts. revert w.
  induction Hts as [|t ts Ht _ IH]; intros w Hw; cbn [fold_left]; [done|].
  apply IH. rewrite Ht. change (commits ownerOf []) with (@Datatypes.id Db).
  apply serve_told; [|done]. intros w1. apply serve_all_told.
Qed.

(** C5. When no transaction is overtaken between its read and its write, though requests may
    interleave at every await and any transaction may be a deadlock's victim, each booking's
    state is the end of its own append-only history: it starts with a creation, each event
    leaves the state the last one entered along an edge of the transition table. *)
Theorem history_explains_state (ts : list (turn (W := W))) (t : instant) (x : W) (r : Row) :
  unovertaken ts -> let db := bdb (run ownerOf acceptable ts (opening t x)) in
  r ∈ bookings db -> explains (written (row_id r) db) (row_state r).
Proof.
  intros Hts db Hr. apply hinv_rows; [|done]. apply run_told; [done|apply hinv_empty].
Qed.
End Service.
End History.
