(* ===== verification/BookingOutcomes.v ===== *)
(** * What each booking operation does

    The functional behaviour of the booking operations on every branch, one
    request at a time: an acceptance and the requests it declines, a payment and
    the state each answer of the provider leads to, the expiry sweep, and the
    lists. *)

From S2P Require Import Prelude JsNumber Text Money Ledger LedgerStore Pricing BookingState.
From S2P Require Import BookingStore BookingProofs Bookings BookingTheorems BookingHistory.

#[local] Open Scope string_scope.
#[local] Open Scope list_scope.
#[local] Open Scope Z_scope.

Import BookingState BookingDb Bookings.

Section Outcomes.
Context {Ids : UuidSource}.

(** ** Statements that succeed *)
Lemma update_where_run (p : Row -> bool) (s : BookingState) (db : Db) :
  (forall r y, r ∈ bookings db -> p r = true -> y ∈ moved p s db ->
     excluded (with_state s (bclock db) r) y = false) ->
  update_where p s db =
    (with_bookings (moved p s db) db, Ok (with_state s (bclock db) <$> List.filter p (bookings db))).
Proof.
  intros H. unfold update_where. rewrite existsb_none; [done|]. apply Forall_forall. intros r Hr.
  destruct (p r) eqn:Hp; [|done]. cbn [andb]. apply existsb_none, Forall_forall. intros y Hy. by apply H.
Qed.

(** A state that occupies no calendar can always be entered. *)
Lemma update_where_free (p : Row -> bool) (s : BookingState) (db : Db) :
  occupiesCalendar s = false ->
  update_where p s db =
    (with_bookings (moved p s db) db, Ok (with_state s (bclock db) <$> List.filter p (bookings db))).
Proof.
  intros Hs. apply update_where_run. intros r y _ _ _. rewrite excluded_eq. cbn [row_state with_state].
  by rewrite Hs, andb_false_r.
Qed.

(** Bookings that already hold their dates keep them. *)
Lemma update_where_held (p : Row -> bool) (s : BookingState) (db : Db) :
  bwf db -> (forall r, r ∈ bookings db -> p r = true -> occupiesCalendar (row_state r) = true) ->
  update_where p s db =
    (with_bookings (moved p s db) db, Ok (with_state s (bclock db) <$> List.filter p (bookings db))).
Proof.
  intros Hwf Hp. apply update_where_run. intros r y Hr Hpr Hy.
  apply elem_of_moved in Hy as (y0 & Hy0 & ->).
  pose proof (bwf_excluded _ Hwf r y0 Hr Hy0) as Hex. pose proof (Hp r Hr Hpr) as Hor.
  destruct (excluded (with_state s (bclock db) r) _) eqn:He; [|done]. exfalso. revert Hex He.
  rewrite !excluded_eq. unfold row_overlaps. rewrite Hor.
  destruct (p y0) eqn:Hpy; [rewrite (Hp y0 Hy0 Hpy)|]; cbn [with_state row_id row_listingId row_state
    row_startAt row_endAt]; destruct (bool_decide _), (overlaps _ _ _ _), (occupiesCalendar s);
    cbn [andb]; try done; destruct (occupiesCalendar (row_state y0)); done.
Qed.

Lemma by_id_moved (i : string) (p : Row -> bool) (s : BookingState) (db : Db) :
  by_id i (with_bookings (moved p s db) db) =
  (fun r => if p r then with_state s (bclock db) r else r) <$> by_id i db.
Proof.
  unfold by_id, find_by, moved. cbn [bookings with_bookings].
  induction (bookings db) as [|r l IH]; [done|]. cbn.
  assert (row_id (if p r then with_state s (bclock db) r else r) = row_id r) as -> by by destruct (p r).
  by destruct (bool_decide _).
Qed.

(** Reading a row fails or not whatever its state. *)
Lemma toRecord_with_state (s : BookingState) (t : instant) (r : Row) (rec : BookingRecord) :
  toRecord r = Ok rec ->
  exists rec', toRecord (with_state s t r) = Ok rec' /\ state (new rec') = s /\ id rec' = row_id r.
Proof.
  unfold toRecord, toAppliedExcess. unfold_result.
  cbn [with_state itemChargeAmount renterFeeAmount totalAmount row_currency damageExcessAmount
       damageExcessBoundBy].
  repeat step_match; try done; intros _; eauto.
Qed.

(** ** Acceptance *)

(** A request that asked for dates [b] takes. *)
Definition competes (b r : Row) : bool :=
  negb (bool_decide (row_id r = row_id b)) &&
  bool_decide (row_listingId r = row_listingId b /\ row_state r = REQUESTED) &&
  overlaps (row_startAt b) (row_endAt b) (row_startAt r) (row_endAt r).

(** A booking that already holds some of [b]'s dates. *)
Definition holds_dates (b r : Row) : bool :=
  negb (bool_decide (row_id r = row_id b)) &&
  occupying (row_listingId b) (row_startAt b) (row_endAt b) r.

Definition resolved (b : Row) (t : instant) (r : Row) : Row :=
  if bool_decide (row_id r = row_id b) then with_state ACCEPTED t r
  else if competes b r then with_state DECLINED t r else r.

Definition acceptance_events (b : Row) (o : string) (db : Db) : list EventRow :=
  logged db None (mkNewEvent state_changed (Some REQUESTED) (Some ACCEPTED) (Some o)) (row_id b) ::
  (logged db (Some (row_id b)) (mkNewEvent auto_declined (Some REQUESTED) (Some DECLINED) None)
     <$> (row_id <$> List.filter (competes b) (bookings db))).

Lemma accepted_excluded (b r : Row) (t : instant) (db : Db) :
  bwf db -> b ∈ bookings db -> r ∈ bookings db -> row_state b = REQUESTED ->
  let p := fun x => bool_decide (row_id x = row_id b) in
  excluded (with_state ACCEPTED t b) (if p r then with_state ACCEPTED t r else r) = holds_dates b r.
Proof.
  intros Hwf Hb Hr Hs p. rewrite excluded_eq. unfold p, holds_dates, occupying, row_overlaps.
  destruct (decide (row_id r = row_id b)) as [He|He].
  - rewrite !(bool_decide_eq_true_2 (row_id r = row_id b)) by done. cbn [negb andb].
    rewrite bool_decide_eq_false_2; [done|]. intros [Hn _]. by apply Hn.
  - rewrite !(bool_decide_eq_false_2 (row_id r = row_id b)) by done.
    cbn [negb andb with_state row_id row_listingId row_state row_startAt row_endAt].
    rewrite (bool_decide_ext (row_id b <> row_id r /\ row_listingId b = row_listingId r)
               (row_listingId r = row_listingId b)) by intuition congruence.
    change (occupiesCalendar ACCEPTED) with true. by rewrite andb_true_r.
Qed.

Lemma update_to_accepted (b : Row) (db : Db) :
  bwf db -> b ∈ bookings db -> row_state b = REQUESTED ->
  let p := fun x => bool_decide (row_id x = row_id b) in
  update_one (row_id b) ACCEPTED db =
    if existsb (holds_dates b) (bookings db) then (db, Err (DatabaseError OVERLAP_CONSTRAINT))
    else (with_bookings (moved p ACCEPTED db) db, Ok (with_state ACCEPTED (bclock db) b)).
Proof.
  intros Hwf Hb Hs p. unfold update_one. fold p.
  assert (List.filter p (bookings db) = [b]) as Hone.
  { apply filter_by_unique; [apply (bwf_ids _ Hwf)|done]. }
  assert (existsb (fun r => p r && existsb (excluded (with_state ACCEPTED (bclock db) r)) (moved p ACCEPTED db))
            (bookings db) = existsb (holds_dates b) (bookings db)) as Hx.
  { apply eq_true_iff_eq. rewrite !existsb_exists. split.
    - intros (r & Hr & [Hp (y & Hy & He)%existsb_exists]%andb_prop).
      assert (r = b) as ->.
      { apply list_elem_of_singleton. rewrite <- Hone. apply elem_of_bfilter.
        split; [by apply list_elem_of_In|done]. }
      apply list_elem_of_In, elem_of_moved in Hy as (y0 & Hy0 & ->). exists y0.
      split; [by apply list_elem_of_In|]. etrans; [symmetry; by apply (accepted_excluded b y0 (bclock db) db)|done].
    - intros (y & Hy%list_elem_of_In & He). exists b. split; [by apply list_elem_of_In|].
      unfold p at 1. rewrite bool_decide_eq_true_2 by done. cbn [andb]. apply existsb_exists.
      exists (if p y then with_state ACCEPTED (bclock db) y else y). split.
      + apply list_elem_of_In, elem_of_moved. eauto.
      + etrans; [|exact He].
        by apply (accepted_excluded b y (bclock db) db). }
  unfold mbind at 1, M_bind. unfold update_where. rewrite Hx.
  destruct (existsb (holds_dates b) (bookings db)); [done|]. by rewrite Hone.
Qed.

Lemma competes_after (b r : Row) (t : instant) :
  let r' := if bool_decide (row_id r = row_id b) then with_state ACCEPTED t r else r in
  competes b r' = competes b r.
Proof.
  cbn zeta. unfold competes. destruct (bool_decide (row_id r = row_id b)) eqn:He; [|by rewrite He].
  cbn [with_state row_id]. by rewrite He.
Qed.

(** Both writes of an acceptance, as one. *)
Lemma resolved_moved (b : Row) (db : Db) :
  bwf db ->
  let p := fun x => bool_decide (row_id x = row_id b) in
  let db1 := with_bookings (moved p ACCEPTED db) db in
  let ids := row_id <$> List.filter (competes b) (bookings db) in
  moved (fun x => bool_decide (row_id x ∈ ids)) DECLINED db1 = resolved b (bclock db) <$> bookings db.
Proof.
  intros Hwf p db1 ids. unfold moved at 1. cbn [db1 bookings with_bookings bclock]. unfold moved.
  rewrite <- list_fmap_compose. apply list_fmap_ext. intros k r Hk. cbn [compose].
  assert (r ∈ bookings db) as Hr by by eapply list_elem_of_lookup_2.
  assert (row_id (if p r then with_state ACCEPTED (bclock db) r else r) = row_id r) as ->
    by by destruct (p r).
  assert (bool_decide (row_id r ∈ ids) = competes b r) as ->.
  { unfold ids. destruct (competes b r) eqn:Hc.
    - apply bool_decide_eq_true_2, list_elem_of_fmap_2. by apply elem_of_bfilter.
    - apply bool_decide_eq_false_2. intros (y & He & [Hy Hcy]%elem_of_bfilter)%list_elem_of_fmap.
      pose proof (row_unique db r y Hwf Hr Hy He) as ->. congruence. }
  unfold resolved. destruct (p r) eqn:Hp; unfold p in Hp; rewrite Hp; [|done].
  unfold competes. by rewrite Hp.
Qed.

Lemma conflicts_after (b : Row) (db : Db) :
  let p := fun x => bool_decide (row_id x = row_id b) in
  row_id <$> List.filter (competes b) (moved p ACCEPTED db) =
  row_id <$> List.filter (competes b) (bookings db).
Proof.
  intros p. unfold moved. induction (bookings db) as [|r l IH]; [done|]. cbn [fmap list_fmap List.filter].
  assert (competes b (if p r then with_state ACCEPTED (bclock db) r else r) = competes b r) as ->
    by apply (competes_after b r (bclock db)).
  destruct (competes b r); cbn [fmap list_fmap]; [|exact IH].
  f_equal; [by destruct (p r)|exact IH].
Qed.

Lemma accept_writes_run (b : Row) (o : string) (db : Db) (rec : BookingRecord) :
  bwf db -> b ∈ bookings db -> row_state b = REQUESTED ->
  toRecord (with_state ACCEPTED (bclock db) b) = Ok rec ->
  accept_writes b o db =
    if existsb (holds_dates b) (bookings db) then (db, Err (DatabaseError OVERLAP_CONSTRAINT))
    else
      (mkDb (resolved b (bclock db) <$> bookings db) (events db ++ acceptance_events b o db)
         (blocks db) (bseq db) (bclock db),
       Ok (Some (mkAcceptance rec (row_id <$> List.filter (competes b) (bookings db))))).
Proof.
  intros Hwf Hb Hs Hrec. unfold accept_writes. unfold mbind at 1, M_bind.
  rewrite update_to_accepted by done. destruct (existsb (holds_dates b) (bookings db)); [done|].
  set (p := fun x => bool_decide (row_id x = row_id b)).
  set (db1 := with_bookings (moved p ACCEPTED db) db).
  rewrite (bind_run _ _ _ _ _ (add_event_run _ _ _ db1)).
  set (db2 := with_events _ db1).
  rewrite (bind_run _ _ db2 db2 (row_id <$> List.filter (competes b) (bookings db)))
    by (unfold gets; do 2 f_equal; apply (conflicts_after b db)).
  set (ids := row_id <$> List.filter (competes b) (bookings db)).
  set (db3 := mkDb (resolved b (bclock db) <$> bookings db) (events db ++ acceptance_events b o db)
                (blocks db) (bseq db) (bclock db)).
  rewrite (bind_run _ _ db2 db3 tt).
  { unfold lift at 1. unfold mbind, M_bind. by rewrite Hrec. }
  pose proof (resolved_moved b db Hwf) as Hres. cbn zeta in Hres. fold p ids in Hres.
  assert (forall k, (match ids with [] => k | _ => moved (fun x => bool_decide (row_id x ∈ ids)) DECLINED db2 end) =
            match ids with [] => k | _ => resolved b (bclock db) <$> bookings db end) as Hmoved.
  { intros k. destruct ids; [done|exact Hres]. }
  destruct ids as [|x xs] eqn:Hids.
  - unfold db3, db2, mret, M_ret. f_equal. unfold with_events, acceptance_events. fold ids. rewrite Hids.
    cbn [fmap list_fmap bookings events blocks bseq bclock db1 with_bookings]. f_equal.
    rewrite <- Hres. unfold moved at 2. symmetry. etrans; [|apply list_fmap_id].
    apply list_fmap_ext. intros i r _. cbn. by rewrite bool_decide_eq_false_2 by apply not_elem_of_nil.
  - rewrite (bind_run _ _ _ _ _ (update_where_free _ DECLINED db2 eq_refl)), add_events_run.
    f_equal. unfold db3, with_events, acceptance_events. fold ids. rewrite Hids. cbn [with_bookings bookings events blocks bseq bclock].
    f_equal; [exact Hres|]. cbn [db2 with_events events with_bookings db1 bclock]. by rewrite <- app_assoc.
Qed.

(** C24. Accepting, in the store, a booking whose row can be read, where nothing else
    commits meanwhile, and however many of its attempts deadlock, answers on every branch:
    nothing for a booking that is not the owner's; refused where it is no live request any
    more; the deadlock itself after the second; refused where its dates are held by another
    booking; each of these with nothing changed; and otherwise it is accepted and exactly
    the other overlapping requests of the listing are declined, each with its own event. *)
Theorem accept_resolves_requests (ownerOf : string -> option string) (victim : nat -> bool)
    (b : Row) (o : string) (now : instant) (db : Db) (rec : BookingRecord) :
  bwf db -> b ∈ bookings db -> toRecord (with_state ACCEPTED (bclock db) b) = Ok rec ->
  BookingDb.accept ownerOf Datatypes.id victim (row_id b) o now db =
    if negb (bool_decide (ownerOf (row_listingId b) = Some o)) then (db, Ok None)
    else if negb (bool_decide (row_state b = REQUESTED)) || (row_requestExpiresAt b <=? now)
    then (db, Err (BookingStateChangedError (row_id b) (state_name (row_state b))))
    else if victim 1%nat && victim 2%nat then (db, Err (DatabaseError DEADLOCK))
    else if existsb (holds_dates b) (bookings db) then (db, Err (OverlappingBookingError (row_id b)))
    else
      (mkDb (resolved b (bclock db) <$> bookings db) (events db ++ acceptance_events b o db)
         (blocks db) (bseq db) (bclock db),
       Ok (Some (mkAcceptance rec (row_id <$> List.filter (competes b) (bookings db))))).
Proof.
  intros Hwf Hb Hrec.
  assert (by_id (row_id b) db = Some b) as Hid by by apply find_by_unique; [apply bwf_ids|].
  assert (forall k, accept_attempt ownerOf Datatypes.id victim k (row_id b) o now db =
    if negb (bool_decide (ownerOf (row_listingId b) = Some o)) then (db, Ok None)
    else if negb (bool_decide (row_state b = REQUESTED)) || (row_requestExpiresAt b <=? now)
    then (db, Err (BookingStateChangedError (row_id b) (state_name (row_state b))))
    else attempt_at Datatypes.id victim k (accept_writes b o) db) as Hattempt.
  { intros k. unfold accept_attempt. rewrite Hid. unfold owned_by. destruct (negb _); [done|]. by destruct (negb _). }
  unfold BookingDb.accept. cbn [DEADLOCK_ATTEMPTS Nat.sub accept_attempts]. unfold catch at 1. rewrite Hattempt.
  destruct (negb (bool_decide (ownerOf _ = _))) eqn:Hown; [done|]. destruct (bool_decide_reflect (row_state b = REQUESTED)) as [Hs|]; [|done].
  destruct (row_requestExpiresAt b <=? now) eqn:Hexp; [done|]. cbn [negb orb].
  assert (forall k, attempt_at Datatypes.id victim k (accept_writes b o) db =
    if victim k then (db, Err (DatabaseError DEADLOCK))
    else if existsb (holds_dates b) (bookings db) then (db, Err (DatabaseError OVERLAP_CONSTRAINT))
    else
      (mkDb (resolved b (bclock db) <$> bookings db) (events db ++ acceptance_events b o db) (blocks db) (bseq db) (bclock db),
       Ok (Some (mkAcceptance rec (row_id <$> List.filter (competes b) (bookings db)))))) as Hrun.
  { intros k. unfold attempt_at, transaction, Datatypes.id. destruct (victim k); [done|].
    rewrite (accept_writes_run b o db rec) by done. by destruct (existsb _ _). }
  rewrite Hrun. destruct (victim 1%nat); cbn [andb]; [|by destruct (existsb _ _)].
  change (isOverlapViolation (DatabaseError DEADLOCK)) with false.
  change (isDeadlock (DatabaseError DEADLOCK)) with true. cbn iota.
  unfold catch. rewrite Hattempt, Hrun. cbn [negb orb]. destruct (victim 2%nat); [done|by destruct (existsb _ _)].
Qed.

(** ** Payment *)

(** [moves b s db db']: the booking [b] of [db] is in state [s] in [db'], and
    nothing else about any booking has changed. *)
Definition moves (b : Row) (s : BookingState) (db db' : Db) : Prop :=
  (exists t, by_id (row_id b) db' = Some (with_state s t b)) /\
  (forall j, j <> row_id b -> by_id j db' = by_id j db).

Lemma moves_refl (b : Row) (db : Db) :
  by_id (row_id b) db = Some b -> moves b (row_state b) db db.
Proof. intros Hb. split; [|done]. exists (row_updatedAt b). by destruct b. Qed.

Lemma advance_moves (b : Row) (from_ to_ : BookingState) (a : option string) (db0 db : Db)
    (rec : BookingRecord) :
  bwf db -> moves b from_ db0 db -> occupiesCalendar from_ = true -> toRecord b = Ok rec ->
  exists db' rec', advance Datatypes.id undisturbed (row_id b) from_ to_ a db = (db', Ok (Some rec')) /\
    bwf db' /\ moves b to_ db0 db'.
Proof.
  intros Hwf [[t Hb] Hothers] Hocc Hrec.
  set (p := fun r => bool_decide (row_id r = row_id b /\ row_state r = from_)).
  assert (forall r, r ∈ bookings db -> p r = true -> occupiesCalendar (row_state r) = true) as Hp
    by (intros r _ [_ ->]%bool_decide_eq_true; exact Hocc).
  pose proof (update_where_held p to_ db Hwf Hp) as Hu.
  pose proof (sound_advance Datatypes.id undisturbed booking_rival_id (row_id b) from_ to_ a db Hwf) as [Hwf' _].
  pose proof Hb as [Hin _]%find_by_Some.
  assert (with_state from_ t b ∈ List.filter p (bookings db)) as Hpb.
  { apply elem_of_bfilter. split; [done|]. by apply bool_decide_eq_true_2. }
  revert Hwf'. unfold advance, attempt_at, transaction, Datatypes.id. cbn [undisturbed]. fold p.
  rewrite (bind_run _ _ _ _ _ Hu).
  destruct (List.filter p (bookings db)) as [|r0 rs]; [by apply not_elem_of_nil in Hpb|]. cbn [fmap list_fmap].
  rewrite (bind_run _ _ _ _ _ (add_event_run _ _ _ _)).
  set (db1 := with_events _ _).
  assert (by_id (row_id b) db1 = Some (with_state to_ (bclock db) b)) as Hfound.
  { change (by_id (row_id b) db1) with (by_id (row_id b) (with_bookings (moved p to_ db) db)).
    rewrite by_id_moved, Hb. cbn. unfold p. by rewrite bool_decide_eq_true_2. }
  rewrite (bind_run _ _ db1 db1 (Some (with_state to_ (bclock db) b))) by (unfold gets; by rewrite Hfound).
  destruct (toRecord_with_state to_ (bclock db) b rec Hrec) as (rec' & Hrec' & _).
  rewrite (bind_run _ _ db1 db1 rec') by (unfold lift; by rewrite Hrec').
  intros Hwf'. exists db1, rec'. split_and!; [done|exact Hwf'|]. split; [by exists (bclock db)|].
  intros j Hj. change (by_id j db1) with (by_id j (with_bookings (moved p to_ db) db)).
  rewrite by_id_moved, Hothers by done. destruct (by_id j db0) as [r|] eqn:Hr; [|done]. cbn.
  apply find_by_Some in Hr as [_ Hr]. unfold p. rewrite bool_decide_eq_false_2; [done|]. intros [? _]. congruence.
Qed.

Definition outcome_state (s : HireChargeStatus) : BookingState :=
  match s with
  | c_succeeded => RESERVED
  | c_failed => PAYMENT_FAILED
  | c_processing | c_pending_payer_action => AWAITING_PAYMENT
  end.

Lemma toRecord_fields (r : Row) (rec : BookingRecord) :
  toRecord r = Ok rec ->
  renterId (new rec) = row_renterId r /\ state (new rec) = row_state r /\
  listingId (new rec) = row_listingId r /\ categoryVersionId (new rec) = row_categoryVersionId r /\
  itemTitle (new rec) = row_itemTitle r /\ id rec = row_id r /\
  itemCharge (new rec) = Money.mkMoney (itemChargeAmount r) (row_currency r) /\
  renterFee (new rec) = Money.mkMoney (renterFeeAmount r) (row_currency r) /\
  total (new rec) = Money.mkMoney (totalAmount r) (row_currency r).
Proof.
  unfold toRecord, toAppliedExcess, Money.money. unfold_result.
  repeat step_match; try done; intros [= <-]; cbn [new renterId state listingId categoryVersionId
    itemTitle itemCharge renterFee total id]; split_and!; congruence.
Qed.

Section Pay.
Context {W : Type} {Ports : BookingPorts W}.
Variable ownerOf : string -> option string.

Lemma on_bookings_run {A} (m : M Db A) (w : World W) (db : Db) (a : A) :
  m (bdb w) = (db, Ok a) -> on_bookings m w = (mkWorld db (rest w), Ok a).
Proof. intros H. unfold on_bookings. by rewrite H. Qed.

Lemma on_bookings_read {A} (m : M Db A) (w : World W) (a : A) :
  m (bdb w) = (bdb w, Ok a) -> on_bookings m w = (w, Ok a).
Proof. intros H. rewrite (on_bookings_run m w _ _ H). by destruct w. Qed.

Lemma await_run (w : World W) : await Datatypes.id w = (w, Ok tt).
Proof. done. Qed.

Lemma findForParty_renter (b : Row) (rec : BookingRecord) (db : Db) :
  by_id (row_id b) db = Some b -> toRecord b = Ok rec ->
  findForParty ownerOf (row_id b) (row_renterId b) db =
    (db, Ok (Some (mkWithEvents rec (history_of (row_id b) db)))).
Proof.
  intros Hb Hrec. unfold findForParty. rewrite Hb. unfold is_party.
  rewrite bool_decide_eq_true_2 by done. cbn [orb]. unfold_result. by rewrite Hrec.
Qed.

Lemma movePayable_moves (b : Row) (u : string) (w : World W) (rec : BookingRecord) :
  bwf (bdb w) -> by_id (row_id b) (bdb w) = Some b -> row_state b ∈ PAYABLE_STATES -> toRecord b = Ok rec ->
  exists db', movePayable Datatypes.id undisturbed (row_state b) (row_id b) u w =
      (mkWorld db' (rest w), Ok true) /\ bwf db' /\ moves b AWAITING_PAYMENT (bdb w) db'.
Proof.
  intros Hwf Hb Hs Hrec. pose proof (moves_refl b (bdb w) Hb) as Hm. unfold movePayable.
  case_bool_decide as Ha.
  { exists (bdb w). rewrite Ha in Hm. by destruct w. }
  assert (canTransition (row_state b) AWAITING_PAYMENT = true /\ occupiesCalendar (row_state b) = true)
    as [Hc Hocc].
  { unfold PAYABLE_STATES in Hs. repeat apply elem_of_cons in Hs as [Hs|Hs]; rewrite ?Hs; try done.
    by apply not_elem_of_nil in Hs. }
  unfold assertTransition. rewrite Hc. rewrite (bind_run _ _ w w AWAITING_PAYMENT) by done.
  destruct (advance_moves b (row_state b) AWAITING_PAYMENT (Some u) (bdb w) (bdb w) rec)
    as (db' & rec' & Hadv & Hwf' & Hm'); [done..|].
  exists db'. rewrite (bind_run _ _ _ _ _ (on_bookings_run _ w _ _ Hadv)). by split_and!.
Qed.

Lemma settle_moves (b : Row) (u : string) (s : HireChargeStatus) (db0 : Db) (w : World W)
    (rec : BookingRecord) :
  bwf (bdb w) -> moves b AWAITING_PAYMENT db0 (bdb w) -> toRecord b = Ok rec ->
  exists db', settle Datatypes.id undisturbed (row_id b) u s w = (mkWorld db' (rest w), Ok tt) /\
    bwf db' /\ moves b (outcome_state s) db0 db'.
Proof.
  intros Hwf Hm Hrec. unfold settle.
  destruct s; cbn [outcome_state]; try (exists (bdb w); by destruct w).
  - destruct (advance_moves b AWAITING_PAYMENT RESERVED (Some u) db0 (bdb w) rec)
      as (db' & rec' & Hadv & Hwf' & Hm'); [done..|]. exists db'.
    rewrite (bind_run _ _ w w RESERVED) by done.
    rewrite (bind_run _ _ _ _ _ (on_bookings_run _ w _ _ Hadv)). by split_and!.
  - destruct (advance_moves b AWAITING_PAYMENT PAYMENT_FAILED (Some u) db0 (bdb w) rec)
      as (db' & rec' & Hadv & Hwf' & Hm'); [done..|]. exists db'.
    rewrite (bind_run _ _ w w PAYMENT_FAILED) by done.
    rewrite (bind_run _ _ _ _ _ (on_bookings_run _ w _ _ Hadv)). by split_and!.
Qed.

(** What the renter is charged: the figures frozen on the booking. *)
Definition charge_of (b : Row) (o : string) : HireChargeRequest :=
  mkChargeRequest (row_id b) o (row_categoryVersionId b) (row_itemTitle b)
    (Money.mkMoney (itemChargeAmount b) (row_currency b))
    (Money.mkMoney (renterFeeAmount b) (row_currency b))
    (Money.mkMoney (totalAmount b) (row_currency b)).

(** Paying for what can be paid for. *)
Lemma pay_payable (b : Row) (o : string) (w : World W) (rec : BookingRecord) :
  bwf (bdb w) -> b ∈ bookings (bdb w) -> toRecord b = Ok rec ->
  ownerOf (row_listingId b) = Some o -> row_state b ∈ PAYABLE_STATES ->
  isPaymentEnabled (rest w) = true ->
  exists db', bwf db' /\
    match chargeForHire (charge_of b o) (rest w) with
    | (x, Ok res) =>
        moves b (outcome_state (hc_status res)) (bdb w) db' /\
        exists back, state (new (booking back)) = outcome_state (hc_status res) /\
          pay ownerOf Datatypes.id Datatypes.id undisturbed (row_id b) (row_renterId b) w =
            (mkWorld db' x, Ok (Some (mkPayment back res)))
    | (x, Err e) =>
        moves b AWAITING_PAYMENT (bdb w) db' /\
        pay ownerOf Datatypes.id Datatypes.id undisturbed (row_id b) (row_renterId b) w =
          (mkWorld db' x, Err e)
    end.
Proof.
  intros Hwf Hin Hrec Ho Hs Hen.
  assert (by_id (row_id b) (bdb w) = Some b) as Hb by by apply find_by_unique; [apply bwf_ids|].
  destruct (toRecord_fields b rec Hrec) as (Hru & Hst & Hli & Hca & Hti & _ & Hit & Hfe & Hto).
  destruct (movePayable_moves b (row_renterId b) w rec Hwf Hb Hs Hrec) as (db1 & Hmove & Hwf1 & Hm1).
  set (w1 := mkWorld db1 (rest w)) in *.
  assert (pay ownerOf Datatypes.id Datatypes.id undisturbed (row_id b) (row_renterId b) w =
    (res ← on_rest (chargeForHire (charge_of b o));
     _ ← await Datatypes.id;
     _ ← settle Datatypes.id undisturbed (row_id b) (row_renterId b) (hc_status res);
     _ ← await Datatypes.id;
     back ← readBack ownerOf (row_id b) (row_renterId b);
     mret (Some (mkPayment back res))) w1) as ->.
  { unfold pay. rewrite (bind_run _ _ w w true) by (unfold gets; by rewrite Hen). cbn [negb].
    rewrite (bind_run _ _ _ _ _ (await_run w)).
    rewrite (bind_run _ _ _ _ _ (on_bookings_read _ w _ (findForParty_renter b rec _ Hb Hrec))).
    cbn [booking]. rewrite Hru, Hst, Hli, Ho, Hca, Hti, Hit, Hfe, Hto.
    rewrite !bool_decide_eq_true_2 by done. cbn [negb].
    rewrite (bind_run _ _ _ _ _ (await_run w)), (bind_run _ _ _ _ _ Hmove). cbn [negb].
    by rewrite (bind_run _ _ _ _ _ (await_run _)). }
  destruct (chargeForHire (charge_of b o) (rest w)) as [x [res|e]] eqn:Hch.
  2: { exists db1. split_and!; [done..|]. unfold mbind at 1, M_bind, on_rest. cbn [w1 rest bdb]. by rewrite Hch. }
  rewrite (bind_run _ _ w1 (mkWorld db1 x) res) by (unfold on_rest; cbn [w1 rest bdb]; by rewrite Hch).
  destruct (settle_moves b (row_renterId b) (hc_status res) (bdb w) (mkWorld db1 x) rec)
    as (db2 & Hset & Hwf2 & Hm2); [done..|].
  exists db2. split_and!; [done..|]. destruct Hm2 as [[t Hb2] _].
  destruct (toRecord_with_state (outcome_state (hc_status res)) t b rec Hrec) as (rec2 & Hrec2 & Hst2 & _).
  pose proof (findForParty_renter (with_state (outcome_state (hc_status res)) t b) rec2 db2 Hb2 Hrec2) as Hread.
  cbn [row_id row_renterId with_state] in Hread.
  exists (mkWithEvents rec2 (history_of (row_id b) db2)). split; [done|].
  rewrite (bind_run _ _ _ _ _ (await_run _)), (bind_run _ _ _ _ _ Hset), (bind_run _ _ _ _ _ (await_run _)).
  unfold readBack.
  rewrite (bind_run _ _ (mkWorld db2 x) (mkWorld db2 x) (mkWithEvents rec2 (history_of (row_id b) db2))); [done|].
  by rewrite (bind_run _ _ _ _ _ (on_bookings_read _ (mkWorld db2 x) _ Hread)).
Qed.

(** C23. Paying for a booking whose row can be read, where nothing else commits meanwhile
    and no statement deadlocks, answers on every branch: refused, with nothing written,
    while payments are switched off, in a state that is not payable, or when the listing has
    no owner any more; nothing for a booking that is not the renter's; and otherwise the
    booking goes through AWAITING_PAYMENT to the state the provider's answer calls for
    (RESERVED, PAYMENT_FAILED, or still AWAITING_PAYMENT) and the caller reads that state
    back with the answer; when the payment port throws, it is left in AWAITING_PAYMENT and
    the error is the caller's. *)
Theorem pay_outcomes (b : Row) (u : string) (w : World W) (rec : BookingRecord) :
  bwf (bdb w) -> b ∈ bookings (bdb w) -> toRecord b = Ok rec ->
  let paid := pay ownerOf Datatypes.id Datatypes.id undisturbed (row_id b) u w in
  if negb (isPaymentEnabled (rest w)) then paid = (w, Err (RequestRefusedError PAYMENT_NOT_ENABLED))
  else if negb (bool_decide (row_renterId b = u)) then paid = (w, Ok None)
  else if negb (bool_decide (row_state b ∈ PAYABLE_STATES)) then paid = (w, Err (RequestRefusedError (describeUnpayable (row_state b))))
  else match ownerOf (row_listingId b) with
  | None => paid = (w, Err (RequestRefusedError "That item is no longer available to pay for. Nothing has been charged."))
  | Some o => exists db', bwf db' /\
      match chargeForHire (charge_of b o) (rest w) with
      | (x, Ok res) =>
          moves b (outcome_state (hc_status res)) (bdb w) db' /\
          exists back, state (new (booking back)) = outcome_state (hc_status res) /\
            paid = (mkWorld db' x, Ok (Some (mkPayment back res)))
      | (x, Err e) => moves b AWAITING_PAYMENT (bdb w) db' /\ paid = (mkWorld db' x, Err e)
      end
  end.
Proof.
  intros Hwf Hin Hrec paid. subst paid.
  assert (by_id (row_id b) (bdb w) = Some b) as Hb by by apply find_by_unique; [apply bwf_ids|].
  destruct (toRecord_fields b rec Hrec) as (Hru & Hst & Hli & _).
  destruct (isPaymentEnabled (rest w)) eqn:Hen; cbn [negb].
  2:{ unfold pay. rewrite (bind_run _ _ w w false) by (unfold gets; by rewrite Hen). done. }
  destruct (bool_decide_reflect (row_renterId b = u)) as [<-|Hu]; cbn [negb].
  2:{ unfold pay. rewrite (bind_run _ _ w w true) by (unfold gets; by rewrite Hen). cbn [negb]. rewrite (bind_run _ _ _ _ _ (await_run w)).
    assert (findForParty ownerOf (row_id b) u (bdb w) =
      (bdb w, Ok (if is_party ownerOf u b then Some (mkWithEvents rec (history_of (row_id b) (bdb w))) else None))) as Hf.
    { unfold findForParty. rewrite Hb. destruct (is_party ownerOf u b); [|done]. unfold_result. by rewrite Hrec. }
    rewrite (bind_run _ _ _ _ _ (on_bookings_read _ w _ Hf)). destruct (is_party ownerOf u b); [|done].
    cbn [booking]. rewrite Hru. by rewrite bool_decide_eq_false_2. }
  destruct (bool_decide_reflect (row_state b ∈ PAYABLE_STATES)) as [Hs|Hs]; cbn [negb];
    [destruct (ownerOf (row_listingId b)) as [o|] eqn:Ho; [by eapply pay_payable|]|];
    unfold pay; rewrite (bind_run _ _ w w true) by (unfold gets; by rewrite Hen); cbn [negb]; rewrite (bind_run _ _ _ _ _ (await_run w));
    rewrite (bind_run _ _ _ _ _ (on_bookings_read _ w _ (findForParty_renter b rec _ Hb Hrec))); cbn [booking]; rewrite Hru, Hst, Hli.
  - rewrite !bool_decide_eq_true_2 by done. cbn [negb]. by rewrite Ho.
  - rewrite bool_decide_eq_true_2 by done. cbn [negb]. by rewrite bool_decide_eq_false_2.
Qed.

(** What the booking page shows as not payable is not charged: paying then changes nothing,
    calls no payment port and returns no payment. *)
Theorem unpayable_is_untouched (i u : string) (w w' : World W) (d : BookingDetail) :
  Bookings.find ownerOf Datatypes.id i u false w = (w', Ok (Some d)) ->
  detail_payability d <> payable ->
  let '(w2, r) := pay ownerOf Datatypes.id Datatypes.id undisturbed i u w in
  w2 = w /\ match r with Ok (Some _) => False | _ => True end.
Proof.
  unfold Bookings.find. intros H Hd.
  apply bind_ok in H as (w1 & found & Hfound & H). destruct found as [f|]; [|done].
  assert (w1 = w /\ findForParty ownerOf i u (bdb w) = (bdb w, Ok (Some f))) as [-> Hf].
  { revert Hfound. unfold on_bookings, findForParty.
    destruct (by_id i (bdb w)) as [r|]; [|by intros [= <-]]. destruct (is_party _ _ _); [|by intros [= <-]].
    unfold_result. destruct (toRecord r); [|done]. intros [= <- <-]. by destruct w. }
  rewrite (bind_run _ _ _ _ _ (await_run w)), (bind_run _ _ w w (isPaymentEnabled (rest w))) in H by done.
  injection H as _ <-. cbn [detail_payability] in Hd. unfold payabilityOf in Hd. cbn [isRenter q_state isSuspended paymentEnabled] in Hd.
  unfold pay. rewrite (bind_run _ _ w w (isPaymentEnabled (rest w))) by done.
  destruct (isPaymentEnabled (rest w)); cbn [negb]; [|done].
  rewrite (bind_run _ _ _ _ _ (await_run w)), (bind_run _ _ _ _ _ (on_bookings_read _ w _ Hf)).
  destruct (bool_decide (renterId _ = u)); cbn [negb] in *; [|done].
  destruct (bool_decide (state _ ∈ PAYABLE_STATES)); cbn [negb] in *; done.
Qed.

(** ** Asking twice *)
(** A row that cannot be read as a record is no failure of the database. *)
Lemma toRecord_error (r : Row) (err : error) : toRecord r = Err err ->
  isOverlapViolation err = false /\ isDuplicateQuote err = false /\ isDeadlock err = false.
Proof.
  unfold toRecord, toAppliedExcess, Money.money, isOverlapViolation, isDuplicateQuote, isDeadlock. unfold_result.
  repeat step_match; intros [= <-]; done.
Qed.

Lemma write_serial (b : NewBooking) (e : NewBookingEvent) (db db1 : Db) (r : result Row) :
  create_with b (Some e) db = (db1, r) ->
  write Datatypes.id undisturbed b (Some e) db =
    match r with
    | Ok row => (db1, toRecord row)
    | Err err =>
        (db, Err (if isOverlapViolation err then OverlappingBookingError (listingId b)
                  else if isDuplicateQuote err then DuplicateQuoteBookingError (quoteId b)
                  else err))
    end.
Proof.
  intros Hc. unfold write. cbn [DEADLOCK_ATTEMPTS Nat.sub write_attempts].
  unfold catch, attempt_at, transaction, Datatypes.id. cbn [undisturbed]. rewrite !bind_at, Hc. destruct r as [row|err].
  - unfold lift. destruct (toRecord row) as [rec|err] eqn:Hr; [done|]. destruct (toRecord_error _ _ Hr) as (-> & -> & ->). done.
  - destruct (isOverlapViolation err) eqn:H1; [done|]. destruct (isDuplicateQuote err) eqn:H2; [done|].
    destruct (isDeadlock err); [|done]. rewrite !bind_at, Hc. by rewrite H1, H2.
Qed.

Lemma create_with_ok (b : NewBooking) (e : NewBookingEvent) (db db' : Db) (row : Row) :
  create_with b (Some e) db = (db', Ok row) ->
  bookings db' = bookings db ++ [row_for b db] /\ blocks db' = blocks db /\ bclock db' = bclock db /\
  row_refusal (row_for b db) = None /\ row = row_for b db.
Proof.
  intros H. apply bind_ok in H as (db1 & r & Hins & H). apply bind_ok in H as (db2 & [] & Hadd & H).
  injection H as <- <-. rewrite add_event_run in Hadd. injection Hadd as <-.
  unfold insert_booking in Hins. destruct (row_refusal (row_for b db)) eqn:Href; [done|].
  case_bool_decide; [done|]. destruct (existsb _ _); [done|]. injection Hins as <- <-.
  cbn [with_events bookings blocks bclock]. done.
Qed.

Lemma duplicate_quote (b b' : NewBooking) (e : NewBookingEvent) (db0 db : Db) :
  row_refusal (row_for b db0) = None -> quoteId b' = quoteId b ->
  startAt b' = startAt b -> endAt b' = endAt b -> itemCharge b' = itemCharge b ->
  renterFee b' = renterFee b -> total b' = total b -> appliedExcess b' = appliedExcess b ->
  quoteId b ∈ row_quoteId <$> bookings db ->
  write Datatypes.id undisturbed b' (Some e) db = (db, Err (DuplicateQuoteBookingError (quoteId b))).
Proof.
  intros Href Hq H1 H2 H3 H4 H5 H6 Hin.
  assert (row_refusal (row_for b' db) = None) as Href'.
  { revert Href. unfold row_refusal, row_for. cbn [itemChargeAmount renterFeeAmount totalAmount
      damageExcessAmount damageExcessBoundBy row_startAt row_endAt]. by rewrite H1, H2, H3, H4, H5, H6. }
  assert (create_with b' (Some e) db = (db, Err (DatabaseError QUOTE_UNIQUE_INDEX))) as Hc.
  { unfold create_with, mbind, M_bind, insert_booking. rewrite Href'. cbn [row_for row_quoteId].
    by rewrite bool_decide_eq_true_2 by (by rewrite Hq). }
  rewrite (write_serial _ _ _ _ _ Hc), Hq. done.
Qed.

(** Nothing but an occupying booking or a block makes dates unavailable. *)
Lemma reasonUnavailable_new (l : string) (a z : instant) (db db' : Db) (r : Row) :
  bookings db' = bookings db ++ [r] -> blocks db' = blocks db -> occupiesCalendar (row_state r) = false ->
  reasonUnavailable l a z db' = reasonUnavailable l a z db.
Proof.
  intros Hb Hk Ho. unfold reasonUnavailable. rewrite Hb, Hk, existsb_app. cbn [existsb].
  unfold occupying at 2. by rewrite Ho, andb_false_r, !orb_false_r.
Qed.

(** Everything a request for [q] reads before it writes. *)
Definition asked (u q : string) (w : World W) (qt : QuoteRecord) (l : QuotableListing) : Prop :=
  findQuoteForRenter q u (rest w) = Some qt /\ (q_expiresAt qt <=? now w) = false /\
  findQuotable (q_listingId qt) (rest w) = Some l /\ bool_decide (l_ownerId l = u) = false /\
  reasonUnavailable (q_listingId qt) (q_startAt qt) (q_endAt qt) (bdb w) = None.

Definition booking_of (u : string) (qt : QuoteRecord) (l : QuotableListing) (t : instant) : NewBooking :=
  {| listingId := q_listingId qt; renterId := u; state := REQUESTED;
     startAt := q_startAt qt; endAt := q_endAt qt; quoteId := q_id qt;
     categoryVersionId := q_categoryVersionId qt; itemCharge := q_itemCharge qt;
     renterFee := q_renterFee qt; total := q_total qt; itemTitle := l_title l;
     categoryName := l_categoryName l; appliedExcess := q_appliedExcess qt;
     requestExpiresAt := addHours t (l_currentRequestExpiryHours l); timeZone := q_timeZone qt |}.

Definition request_event (u : string) : NewBookingEvent := mkNewEvent requested None (Some REQUESTED) (Some u).

Lemma request_run (u q : string) (w : World W) (qt : QuoteRecord) (l : QuotableListing) :
  asked u q w qt l ->
  Bookings.request ownerOf Datatypes.id Datatypes.id undisturbed u q w =
    (created ← createOrExplainDuplicate Datatypes.id undisturbed (booking_of u qt l (now w)) (request_event u);
     _ ← await Datatypes.id;
     b ← readBack ownerOf (id created) u;
     mret (Some b)) w.
Proof.
  intros (Hq & He & Hl & Ho & Hu). unfold Bookings.request.
  rewrite (bind_run _ _ w w (Some qt)) by (unfold gets; by rewrite Hq).
  rewrite (bind_run _ _ w w (now w)), He, (bind_run _ _ _ _ _ (await_run w)) by done.
  rewrite (bind_run _ _ w w (Some l)), Ho, (bind_run _ _ _ _ _ (await_run w)) by (unfold gets; by rewrite Hl).
  by rewrite (bind_run _ _ w w None) by (unfold gets; by rewrite Hu).
Qed.

Lemma request_asked (u q : string) (w w' : World W) (b : BookingWithEvents) :
  Bookings.request ownerOf Datatypes.id Datatypes.id undisturbed u q w = (w', Ok (Some b)) ->
  exists qt l, asked u q w qt l.
Proof.
  unfold Bookings.request, asked. intros H.
  apply bind_ok in H as (w1 & [qt|] & Hq & H); [|done]. injection Hq as <- Hq.
  apply bind_ok in H as (w1 & t & Ht & H). injection Ht as <- <-.
  destruct (q_expiresAt qt <=? now w) eqn:Hexp; [done|]. rewrite (bind_run _ _ _ _ _ (await_run w)) in H.
  apply bind_ok in H as (w1 & [l|] & Hl & H); [|done]. injection Hl as <- Hl.
  destruct (bool_decide (l_ownerId l = u)) eqn:Hown; [done|]. rewrite (bind_run _ _ _ _ _ (await_run w)) in H.
  apply bind_ok in H as (w1 & [un|] & Hu & H); [done|]. injection Hu as <- Hu. by exists qt, l.
Qed.

Lemma readBack_reads (i u : string) (w w' : World W) (b : BookingWithEvents) :
  readBack ownerOf i u w = (w', Ok b) -> w' = w.
Proof.
  unfold readBack. intros H. apply bind_ok in H as (w1 & [x|] & Hf & H); [|done]. injection H as <- _.
  revert Hf. unfold on_bookings, findForParty.
  destruct (by_id i (bdb w)); [destruct (is_party _ _ _)|]; intros [= <- _]; by destruct w.
Qed.

(** A request that succeeded wrote one row and read it back. *)
Lemma request_wrote (u q : string) (w w' : World W) (b : BookingWithEvents) (qt : QuoteRecord)
    (l : QuotableListing) :
  asked u q w qt l ->
  Bookings.request ownerOf Datatypes.id Datatypes.id undisturbed u q w = (w', Ok (Some b)) ->
  exists db1 row, w' = mkWorld db1 (rest w) /\
    create_with (booking_of u qt l (now w)) (Some (request_event u)) (bdb w) = (db1, Ok row).
Proof.
  intros Ha H. rewrite (request_run u q w qt l Ha) in H.
  apply bind_ok in H as (w1 & created & Hc & H). rewrite (bind_run _ _ _ _ _ (await_run w1)) in H.
  apply bind_ok in H as (w2 & rb & Hrb & H). injection H as <- _. apply readBack_reads in Hrb as ->.
  revert Hc. unfold createOrExplainDuplicate, catch, on_bookings, createWithEvent.
  destruct (create_with _ _ (bdb w)) as [db1 [row|err]] eqn:Hcw; rewrite (write_serial _ _ _ _ _ Hcw).
  { destruct (toRecord row) as [rec|err] eqn:Hrow; [intros [= <- <-]; eauto|]. by destruct err. }
  destruct (if isOverlapViolation err then _ else _); done.
Qed.

(** Asking twice from one quote is refused with its own message: the first request stands
    and the second changes nothing. *)
Theorem second_request_is_refused (u q : string) (w w' : World W) (b : BookingWithEvents) :
  Bookings.request ownerOf Datatypes.id Datatypes.id undisturbed u q w = (w', Ok (Some b)) ->
  Bookings.request ownerOf Datatypes.id Datatypes.id undisturbed u q w' =
    (w', Err (RequestRefusedError "You have already requested this hire. We have only kept the first request — asking again would have made two.")).
Proof.
  intros H. destruct (request_asked u q w w' b H) as (qt & l & Ha).
  destruct (request_wrote u q w w' b qt l Ha H) as (db1 & row & -> & Hcw).
  apply create_with_ok in Hcw as (Hb1 & Hk1 & Ht1 & Href & _).
  assert (asked u q (mkWorld db1 (rest w)) qt l) as Ha1.
  { unfold asked, now in *. cbn [rest bdb]. rewrite Ht1.
    by rewrite (reasonUnavailable_new _ _ _ (bdb w) db1 _ Hb1 Hk1 eq_refl). }
  rewrite (request_run _ _ _ _ _ Ha1). unfold mbind at 1, M_bind at 1, createOrExplainDuplicate, catch, on_bookings, createWithEvent.
  cbn [bdb rest]. unfold now. cbn [bdb]. rewrite Ht1.
  rewrite (duplicate_quote (booking_of u qt l (now w)) _ _ (bdb w) db1 Href); try done.
  rewrite Hb1, fmap_app, elem_of_app. right. by apply list_elem_of_singleton.
Qed.
End Pay.

(** ** The expiry sweep *)

(** The requests a sweep reads: the earliest deadlines first, at most [limit]. *)
Definition due (now : instant) (limit : nat) (db : Db) : list Row :=
  take limit (merge_sort due_first (List.filter (overdue now) (bookings db))).

Lemma elem_of_due (now : instant) (limit : nat) (db : Db) (r : Row) :
  r ∈ due now limit db -> r ∈ bookings db /\ overdue now r = true.
Proof.
  intros Hr. apply elem_of_bfilter. rewrite <- (merge_sort_Permutation due_first).
  by eapply elem_of_take in Hr as (i & Hr & _); [eapply list_elem_of_lookup_2].
Qed.

Lemma due_NoDup (now : instant) (limit : nat) (db : Db) : bwf db -> NoDup (row_id <$> due now limit db).
Proof.
  intros Hwf. unfold due. rewrite fmap_take. eapply sublist_NoDup; [|apply sublist_take].
  rewrite merge_sort_Permutation. by apply filter_ids_NoDup.
Qed.

Definition chosen (now : instant) (limit : nat) (db : Db) (r : Row) : bool :=
  bool_decide (row_id r ∈ row_id <$> due now limit db) && overdue now r.

Lemma chosen_due (now : instant) (limit : nat) (db : Db) :
  bwf db -> List.filter (chosen now limit db) (bookings db) ≡ₚ due now limit db.
Proof.
  intros Hwf. apply NoDup_Permutation.
  - eapply NoDup_fmap_1. by apply filter_ids_NoDup.
  - eapply NoDup_fmap_1. by apply due_NoDup.
  - intros r. rewrite elem_of_bfilter. unfold chosen. rewrite andb_true_iff, bool_decide_eq_true. split.
    + intros (Hr & Hin & _). apply list_elem_of_fmap in Hin as (y & He & Hy).
      destruct (elem_of_due _ _ _ _ Hy) as [Hyb _]. by rewrite (row_unique db r y Hwf Hr Hyb He).
    + intros Hr. destruct (elem_of_due _ _ _ _ Hr) as [Hrb Ho]. split_and!; [done|by apply list_elem_of_fmap_2|done].
Qed.

(** What is left for the next sweep falls due no sooner. *)
Lemma due_before (now : instant) (limit : nat) (db : Db) (r r' : Row) :
  bwf db -> r ∈ bookings db -> r' ∈ bookings db -> chosen now limit db r = true ->
  overdue now r' = true -> chosen now limit db r' = false ->
  row_requestExpiresAt r <= row_requestExpiresAt r'.
Proof.
  intros Hwf Hr Hr' Hc Ho Hn.
  assert (r ∈ due now limit db) as Hd by (rewrite <- (chosen_due now limit db Hwf); by apply elem_of_bfilter).
  assert (r' ∈ merge_sort due_first (List.filter (overdue now) (bookings db))) as Hs
    by (rewrite merge_sort_Permutation; by apply elem_of_bfilter).
  rewrite <- (take_drop limit (merge_sort due_first _)) in Hs. apply elem_of_app in Hs as [Hs|Hs].
  { exfalso. unfold chosen in Hn. rewrite Ho, andb_true_r in Hn. apply bool_decide_eq_false in Hn.
    by apply Hn, list_elem_of_fmap_2. }
  assert (due_first r r') as [?|[? _]]; [|lia..].
  eapply StronglySorted_app_1_elem_of; [|exact Hd|exact Hs].
  unfold due. rewrite take_drop. apply Sorted_StronglySorted; [apply _|apply Sorted_merge_sort, _].
Qed.

Lemma expireRequests_run (now : instant) (limit : nat) (db : Db) :
  bwf db -> exists es res,
  expireRequests Datatypes.id undisturbed now limit db =
    (mkDb (moved (chosen now limit db) EXPIRED db) (events db ++ es) (blocks db) (bseq db) (bclock db), Ok res) /\
  expired res ≡ₚ with_state EXPIRED (bclock db) <$> due now limit db.
Proof.
  intros Hwf. unfold expireRequests. fold (due now limit db).
  destruct (row_id <$> due now limit db) as [|c cs] eqn:Hd.
  - exists [], (mkExpiry [] false). apply fmap_nil_inv in Hd. rewrite Hd. split; [|done].
    rewrite app_nil_r. f_equal. destruct db as [bs es bl sq t]. f_equal. unfold moved. cbn [bookings].
    symmetry. etrans; [|apply list_fmap_id]. apply list_fmap_ext. intros i r _. unfold chosen. rewrite Hd.
    by rewrite bool_decide_eq_false_2 by apply not_elem_of_nil.
  - unfold attempt_at, transaction, Datatypes.id. cbn [undisturbed]. rewrite <- Hd.
    change (fun r => bool_decide (row_id r ∈ row_id <$> due now limit db) && overdue now r)
      with (chosen now limit db).
    rewrite (bind_run _ _ _ _ _ (update_where_free (chosen now limit db) EXPIRED db eq_refl)).
    set (rows := with_state EXPIRED (bclock db) <$> List.filter (chosen now limit db) (bookings db)).
    set (ev := mkNewEvent state_changed (Some REQUESTED) (Some EXPIRED) None).
    set (db1 := with_bookings _ db).
    rewrite (bind_run _ _ db1 (with_events (logged db1 None ev <$> (row_id <$> rows)) db1) tt).
    2: { destruct rows as [|x xs]; [|apply add_events_run]. unfold with_events. cbn. by rewrite app_nil_r. }
    eexists _, _. split; [done|]. cbn [expired]. unfold rows. by rewrite chosen_due.
Qed.

(** The expiry sweep always returns, expires exactly the overdue requests with the earliest
    deadlines, as many as its limit allows, touches nothing else, and once the limit covers
    them all none is left and a second sweep does nothing. *)
Theorem sweep_expires_the_earliest (now : instant) (limit : nat) (db : Db) :
  bwf db -> exists db' res,
  expireRequests Datatypes.id undisturbed now limit db = (db', Ok res) /\
  length (expired res) = Nat.min limit (length (List.filter (overdue now) (bookings db))) /\
  (forall r, r ∈ bookings db ->
     by_id (row_id r) db' = Some (if chosen now limit db r then with_state EXPIRED (bclock db) r else r)) /\
  (forall r r', r ∈ bookings db -> r' ∈ bookings db -> chosen now limit db r = true ->
     overdue now r' = true -> chosen now limit db r' = false ->
     row_requestExpiresAt r <= row_requestExpiresAt r') /\
  ((length (List.filter (overdue now) (bookings db)) <= limit)%nat ->
     List.filter (overdue now) (bookings db') = [] /\
     expireRequests Datatypes.id undisturbed now limit db' = (db', Ok (mkExpiry [] false))).
Proof.
  intros Hwf. destruct (expireRequests_run now limit db Hwf) as (es & res & Hrun & Hres).
  set (db' := mkDb _ _ _ _ _) in Hrun. exists db', res.
  assert (forall r, r ∈ bookings db -> overdue now r = true ->
            (length (List.filter (overdue now) (bookings db)) <= limit)%nat -> chosen now limit db r = true) as Hall.
  { intros r Hr Ho Hle. unfold chosen. rewrite Ho, andb_true_r. apply bool_decide_eq_true_2, list_elem_of_fmap_2.
    unfold due. rewrite take_ge by (by rewrite merge_sort_Permutation).
    rewrite merge_sort_Permutation. by apply elem_of_bfilter. }
  assert ((length (List.filter (overdue now) (bookings db)) <= limit)%nat ->
            List.filter (overdue now) (bookings db') = []) as Hnone.
  { intros Hle. apply filter_none. intros r Hr. apply elem_of_moved in Hr as (r0 & Hr0 & ->).
    destruct (chosen now limit db r0) eqn:Hc; [done|].
    destruct (overdue now r0) eqn:Ho; [|done]. rewrite (Hall r0 Hr0 Ho Hle) in Hc. done. }
  split_and!; [done| | | |].
  - rewrite Hres, length_fmap. unfold due. by rewrite length_take, merge_sort_Permutation.
  - intros r Hr. change (by_id (row_id r) db') with (by_id (row_id r) (with_bookings (moved (chosen now limit db) EXPIRED db) db)).
    rewrite by_id_moved. unfold by_id. by rewrite (find_by_unique row_id _ r (bwf_ids _ Hwf) Hr).
  - intros r r' Hr Hr' Hc Ho Hn. by apply (due_before now limit db).
  - intros Hle. split; [by apply Hnone|]. unfold expireRequests. rewrite (Hnone Hle).
    change (merge_sort due_first []) with (@nil Row). by rewrite take_nil.
Qed.

(** ** Lists *)
Lemma try_map_take {A B} (f : A -> result B) (l : list A) (n : nat) (bs : list B) :
  try_map f l = Ok bs -> try_map f (take n l) = Ok (take n bs).
Proof.
  revert n bs. induction l as [|x l IH]; intros n bs; cbn [try_map]; unfold_result.
  - intros [= <-]. by rewrite !take_nil.
  - destruct (f x) as [y|] eqn:Hf; [|done]. destruct (try_map f l) as [ys|] eqn:Hl; [|done]. intros [= <-].
    destruct n as [|n]; [done|]. cbn [take try_map]. unfold_result. by rewrite Hf, (IH n ys eq_refl).
Qed.

Lemma bounded_limit (limit : Js.number) : 1 <= boundedBookingLimit limit <= MAX_BOOKING_LIST_LIMIT.
Proof.
  unfold boundedBookingLimit, Paging.boundedLimit, MAX_BOOKING_LIST_LIMIT. cbn [Paging.max Paging.fallback].
  destruct (Js.trunc limit); cbv [DEFAULT_BOOKING_LIST_LIMIT]; lia.
Qed.

(** A renter's list is the newest bookings, between one and the bound, whatever number the
    limit was, and says that it was truncated exactly when there are more. *)
Theorem list_says_when_truncated {W} (u : string) (limit : Js.number) (w w' : World W)
    (page : Paging.Page BookingRecord) :
  listForRenter u limit w = (w', Ok page) ->
  let rows := merge_sort newest (List.filter (fun r => bool_decide (row_renterId r = u)) (bookings (bdb w))) in
  let n := Z.to_nat (boundedBookingLimit limit) in
  w' = w /\ (1 <= n <= 200)%nat /\
  try_map toRecord (take n rows) = Ok (Paging.items page) /\
  (Paging.truncated page = true <-> (n < length rows)%nat).
Proof.
  intros H rows n. unfold listForRenter in H. pose proof (bounded_limit limit) as Hb.
  unfold MAX_BOOKING_LIST_LIMIT in Hb.
  apply bind_ok in H as (w1 & recs & Hr & H). injection H as <- <-.
  unfold on_bookings, findForRenter in Hr. injection Hr as <- Hr. fold rows in Hr.
  assert (Z.to_nat (Paging.probe (boundedBookingLimit limit)) = S n) as Hn by (unfold n, Paging.probe; lia).
  rewrite Hn in Hr. cbn [Paging.fitTo Paging.items Paging.truncated].
  pose proof (try_map_length _ _ _ Hr) as Hl. rewrite length_take in Hl. fold n.
  split_and!; [by destruct w|lia|lia| |].
  - rewrite <- (try_map_take _ _ n _ Hr), take_take. by rewrite Nat.min_l by lia.
  - rewrite Z.ltb_lt. lia.
Qed.
End Outcomes.
