(* ===== verification/System.v ===== *)
(** * Bookings paid for by payments ([apps/api/src/main.ts])

    The composition root's two adapters, which answer the booking service's
    payment ports with the payments service, and what the composed system
    promises: under any interleaving, a booking is RESERVED only when the ledger
    holds the capture of exactly what it costs. *)

From S2P Require Import Prelude JsNumber Text Money Ledger LedgerStore LedgerProofs.
From S2P Require Import LedgerTheorems Pricing HireSettlement PaymentIntent IntentStore.
From S2P Require Import IntentProofs Payments PaymentsProofs PaymentsTheorems PaymentsRace.
From S2P Require Import BookingState BookingStore BookingProofs Bookings BookingTheorems.
From S2P Require Import BookingHistory BookingOutcomes.

#[local] Open Scope string_scope.
#[local] Open Scope list_scope.
#[local] Open Scope Z_scope.

(** ** What an answer of the payments service says *)
Module Answers.
Import Money (amount, currency, SUPPORTED_CURRENCIES).
Import PaymentIntent HireSettlement Payments.
Import IntentDb (IntentRow, row_id, row_bookingId, row_status, row_currency, amountMinor, rows, purpose).

Section Answers.
Context {Ids : UuidSource} {P : Type} {Provider : PaymentProvider P}.
Variable findFeePolicy : string -> option Pricing.CategoryFeePolicy.
Variable references : IntentRow -> bool.
Variable rival : World P -> World P.
Hypothesis Hgood : good_world_rival rival.

(** An attempt reported as taken is in the books by then. *)
Definition truthful (i : PaymentIntentRecord) (w : World P) : Prop :=
  is_recorded i w /\
  (status i = succeeded -> purposeOf (division i) = hire_charge -> capture_posted i w).

Lemma truthful_stable (i : PaymentIntentRecord) : stable (truthful i).
Proof.
  intros w w' He [Hr Hc]. split; [by eapply is_recorded_stable|].
  intros H1 H2. eapply capture_posted_stable; [exact He|by apply Hc].
Qed.

Definition same_attempt (i i' : PaymentIntentRecord) : Prop :=
  bookingId i' = bookingId i /\ intent_amount i' = intent_amount i /\
  purposeOf (division i') = purposeOf (division i).

Lemma matches_same (i i' : PaymentIntentRecord) (r : IntentRow) :
  matches i r -> matches i' r -> same_attempt i i'.
Proof.
  intros H H'. unfold same_attempt. rewrite (matches_purpose i r H), (matches_purpose i' r H').
  destruct H as (_ & Hb & _ & _ & Ha & _), H' as (_ & Hb' & _ & _ & Ha' & _). split_and!; congruence.
Qed.

Lemma truthful_record (i : PaymentIntentRecord) (a : PaymentAttempt) (t : instant) :
  safe (ready i a)
    (on_intents (IntentDb.recordOutcome (id i)
       (mkOutcome (att_status a) (att_providerReference a) (att_expiresAt a) (att_failure a)) t))
    (fun i' w => truthful i' w /\ same_attempt i i').
Proof.
  intros w w' r Hw Hready H. destruct (safe_record i a t w w' r Hw Hready H) as (Hw' & He & Hr).
  split_and!; [done|done|]. destruct r as [i'|e]; [|done]. destruct Hready as [Hrec Hcap].
  apply on_intents_ok in H as (H & Hl & _).
  destruct (recordOutcome_spec _ _ _ _ _ _ (winv_intents _ Hw) H)
    as (_ & _ & [[_ ?]|(x & Hx & Hxid & _ & rec & [= <-] & Hto & Hrec')]); [done|].
  pose proof (recorded_row i _ x (winv_intents _ Hw) Hrec Hx Hxid) as Hm.
  destruct (toRecord_ok _ _ Hto) as (Hm' & Hst & _).
  match type of Hto with IntentDb.toRecord (IntentDb.with_outcome ?o t x) = _ =>
    pose proof (with_outcome_core o t x) as Hcore end.
  pose proof (matches_same i i' _ (matches_core _ _ _ Hcore Hm) Hm') as Hsame.
  split; [|done]. split; [exact Hr|]. intros Hs Hp. destruct Hsame as (_ & _ & Hpp).
  destruct Hcap as (r0 & Hm0 & Hc0); [|congruence|].
  - rewrite Hst in Hs. cbn in Hs. by destruct (att_status a).
  - eexists. split; [exact Hm'|]. rewrite Hl.
    eapply captured_core; [exact Hcore|by eapply captured_matches].
Qed.

Lemma truthful_apply (i : PaymentIntentRecord) (a : PaymentAttempt) :
  safe (truthful i) (applyOutcome findFeePolicy rival i a) (fun i' w => truthful i' w /\ same_attempt i i').
Proof.
  unfold applyOutcome. eapply safe_bind; [apply safe_lift|]. intros [|]; cbn beta iota.
  - eapply safe_bind with (Mid := fun _ w => ready i a w).
    + destruct (att_status a) eqn:Ha, (division i) as [item fee|] eqn:Hd;
        try (eapply safe_weaken; [intros w [_ H]; exact H| |apply safe_ret];
             intros [] w [_ [H _]]; split; [exact H|by rewrite ?Ha, ?Hd]).
      eapply safe_weaken; [intros w [_ [H _]]; exact H| |by apply safe_postCapture].
      intros [] w [H1 H2]. by split.
    + intros []. eapply safe_bind; [apply safe_await; [done|apply ready_stable]|]. intros [].
      eapply safe_bind; [apply safe_gets|]. intros t. apply truthful_record.
  - eapply safe_weaken; [intros w [_ H]; exact H| |apply safe_ret]. by intros i' w [-> H].
Qed.

Lemma truthful_begin (n : NewPaymentIntent) (t : instant) :
  currency (new_amount n) ∈ SUPPORTED_CURRENCIES ->
  safe (fun _ => True) (on_intents (IntentDb.begin references Datatypes.id n t)) truthful.
Proof.
  intros Hcur w w' r Hw _ H.
  destruct (safe_begin references (fun _ => True) n t true_stable Hcur w w' r Hw I H) as (Hw' & He & Hr).
  split_and!; [done|done|]. destruct r as [i|e]; [|done]. destruct Hr as [Hrec _].
  apply on_intents_ok in H as (H & Hl & _).
  destruct (begin_row references n t _ _ i (winv_intents _ Hw) Hcur H) as (_ & x & Hx & _ & Hto & _).
  destruct (toRecord_ok _ _ Hto) as (Hm & Hst & _). split; [done|]. intros Hs Hp. exists x. split; [done|].
  apply (winv_captured _ Hw' x Hx); [congruence|]. by rewrite <- (matches_purpose _ _ Hm).
Qed.

(** What [payForHire] answers about a hire. *)
Definition answers (ins : HirePaymentInstruction) (i : PaymentIntentRecord) (w : World P) : Prop :=
  truthful i w /\ bookingId i = ins_bookingId ins /\ purposeOf (division i) = hire_charge /\
  intent_amount i = charge_total (ins_charge ins).

Lemma answers_same (ins : HirePaymentInstruction) (i i' : PaymentIntentRecord) (w : World P) :
  bookingId i = ins_bookingId ins -> purposeOf (division i) = hire_charge ->
  intent_amount i = charge_total (ins_charge ins) ->
  truthful i' w /\ same_attempt i i' -> answers ins i' w.
Proof. intros Hb Hp Ha [Ht (Eb & Ea & Ep)]. split_and!; [done|congruence..]. Qed.

Lemma safe_payForHire_answers (ins : HirePaymentInstruction) :
  currency (charge_total (ins_charge ins)) ∈ SUPPORTED_CURRENCIES ->
  safe (fun _ => True) (payForHire findFeePolicy references rival ins)
    (fun o w => answers ins (intent o) w).
Proof.
  intros Hcur. unfold payForHire.
  eapply safe_bind; [eapply (safe_any _ _ _ (safe_settle _ (fun _ => True) _ _ _))|]. intros s0.
  eapply safe_bind; [apply safe_await; [done|apply true_stable]|]. intros [].
  eapply safe_bind; [apply safe_attemptKeyFor|]. intros key.
  eapply safe_bind; [apply safe_await; [done|apply true_stable]|]. intros [].
  eapply safe_bind; [apply safe_gets|]. intros t.
  eapply safe_bind; [apply truthful_begin; exact Hcur|]. intros found.
  eapply safe_bind; [apply safe_lift|]. intros i. cbn beta.
  destruct (negb _).
  - eapply safe_weaken; [intros w Hw; exact Hw| |apply safe_ret].
    intros o w [-> [Hs Ht]]. apply assertSameAttempt_ok in Hs as (-> & Hb & Hp & _ & _ & Ha).
    by split_and!.
  - set (about := bookingId i = ins_bookingId ins /\ purposeOf (division i) = hire_charge /\
                  intent_amount i = charge_total (ins_charge ins)).
    assert (stable (fun w => about /\ truthful i w)) as Hst.
    { intros w w' He [Hab Ht]. split; [done|by eapply truthful_stable]. }
    eapply safe_bind with (Mid := fun _ w => about /\ truthful i w).
    { eapply safe_weaken; [| |apply (safe_await (fun w => about /\ truthful i w)); [done|exact Hst]]; [|done].
      intros w [Hs Ht]. apply assertSameAttempt_ok in Hs as (-> & Hb & Hp & _ & _ & Ha). by split. }
    intros []. eapply safe_bind; [apply safe_psp; exact Hst|]. intros a.
    eapply safe_bind; [apply safe_await; [done|exact Hst]|]. intros [].
    eapply safe_bind with (Mid := fun x w => about /\ (truthful x w /\ same_attempt i x)).
    { apply safe_frame; [by intros ? ? ? ?|apply truthful_apply]. }
    intros x. eapply safe_weaken; [intros w H; exact H| |apply safe_ret].
    intros o w [-> [(Hb & Hp & Ha) H]]. by eapply answers_same.
Qed.
End Answers.
End Answers.

(** ** Statements about every row of the bookings table *)
Module Rows.
Import BookingState BookingDb.

Section Rows.
Context {Ids : UuidSource}.
Variable G : Row -> Prop.
Hypothesis G_moves : forall s t r, s <> RESERVED -> G r -> G (with_state s t r).

Definition all_rows (db : Db) : Prop := Forall G (bookings db).
Definition holds_on {A} (m : M Db A) : Prop := forall db, all_rows db -> all_rows (fst (m db)).

Lemma holds_read {A} (m : M Db A) : (forall db, fst (m db) = db) -> holds_on m.
Proof. intros H db. by rewrite H. Qed.

Lemma holds_bind {A B} (m : M Db A) (f : A -> M Db B) :
  holds_on m -> (forall a, holds_on (f a)) -> holds_on (mbind f m).
Proof.
  intros Hm Hf db Hdb. unfold mbind, M_bind. specialize (Hm db Hdb).
  destruct (m db) as [db1 [a|e]]; [by apply Hf|done].
Qed.

Lemma holds_catch {A} (m : M Db A) (h : error -> M Db A) :
  holds_on m -> (forall e, holds_on (h e)) -> holds_on (catch m h).
Proof.
  intros Hm Hh db Hdb. unfold catch. specialize (Hm db Hdb).
  destruct (m db) as [db1 [a|e]]; [done|by apply Hh].
Qed.

Lemma holds_attempt {A} (within : Db -> Db) (victim : nat -> bool) (k : nat) (m : M Db A) :
  (forall db, all_rows db -> all_rows (within db)) -> holds_on m ->
  holds_on (attempt_at within victim k m).
Proof.
  intros Hw Hm db Hdb. unfold attempt_at, transaction. specialize (Hw db Hdb). specialize (Hm _ Hw).
  destruct (victim k); [done|]. destruct (m (within db)) as [db1 [a|e]]; done.
Qed.

Lemma holds_update (p : Row -> bool) (s : BookingState) : s <> RESERVED -> holds_on (update_where p s).
Proof.
  intros Hs db Hdb. unfold update_where. destruct (existsb _ _); [done|]. unfold all_rows in *. cbn [fst].
  apply Forall_forall. rewrite Forall_forall in Hdb. intros r (r0 & Hr0 & ->)%elem_of_moved.
  destruct (p r0); [by apply G_moves, Hdb|by apply Hdb].
Qed.

Lemma holds_event (i : string) (c : option string) (e : NewBookingEvent) : holds_on (add_event i c e).
Proof. by intros db. Qed.

Lemma holds_events (ids : list string) (c : option string) (e : NewBookingEvent) :
  holds_on (add_events ids c e).
Proof.
  induction ids as [|i ids IH]; cbn [add_events]; [by apply holds_read|].
  apply holds_bind; [apply holds_event|by intros _].
Qed.

Lemma holds_update_one (i : string) (s : BookingState) : s <> RESERVED -> holds_on (update_one i s).
Proof.
  intros Hs. apply holds_bind; [by apply holds_update|]. intros [|r rs]; by apply holds_read.
Qed.

Lemma holds_insert (b : NewBooking) : (forall db, G (row_for b db)) -> holds_on (insert_booking b).
Proof.
  intros Hb db Hdb. unfold insert_booking.
  destruct (row_refusal _); [done|]. case_bool_decide; [done|]. destruct (existsb _ _); [done|].
  apply Forall_app. split; [done|]. apply Forall_singleton, Hb.
Qed.

#[local] Hint Resolve holds_bind holds_event holds_events holds_insert holds_update holds_update_one : rows.
#[local] Hint Extern 8 (holds_on _) => (apply holds_read; done) : rows.
#[local] Hint Extern 4 (_ <> RESERVED) => discriminate : rows.

Ltac walk_rows :=
  repeat first
    [ progress eauto with rows nocore
    | apply holds_bind; [|intros ?]
    | match goal with |- holds_on (match ?x with _ => _ end) => destruct x end ].

Section Race.
Variable within : Db -> Db.
Variable victim : nat -> bool.
Hypothesis Hwithin : forall db, all_rows db -> all_rows (within db).

Lemma holds_write (b : NewBooking) (e : option NewBookingEvent) :
  (forall db, G (row_for b db)) -> holds_on (write within victim b e).
Proof.
  intros Hb. unfold write. generalize (DEADLOCK_ATTEMPTS - 1)%nat. intros left.
  induction left as [|left IH]; cbn [write_attempts]; apply holds_catch;
    try (apply holds_bind; [apply holds_attempt; [done|]; unfold create_with; walk_rows|intros row; by apply holds_read]);
    intros err; destruct (isOverlapViolation err), (isDuplicateQuote err); try by apply holds_read.
  destruct (isDeadlock err); [exact IH|by apply holds_read].
Qed.

Lemma holds_accept (ownerOf : string -> option string) (i o : string) (now : instant) :
  holds_on (BookingDb.accept ownerOf within victim i o now).
Proof.
  unfold BookingDb.accept. generalize (DEADLOCK_ATTEMPTS - 1)%nat. intros left.
  assert (forall k, holds_on (accept_attempt ownerOf within victim k i o now)) as Hattempt.
  { intros k db Hdb. unfold accept_attempt. destruct (by_id i db) as [b|]; [|done].
    destruct (negb _); [done|]. destruct (negb _); [done|]. destruct (_ <=? now); [done|].
    revert db Hdb. apply holds_attempt; [done|]. unfold accept_writes. walk_rows. }
  induction left as [|left IH]; cbn [accept_attempts]; apply holds_catch; try apply Hattempt;
    intros err; destruct (isOverlapViolation err); try by apply holds_read.
  destruct (isDeadlock err); [exact IH|by apply holds_read].
Qed.

Lemma holds_decline (ownerOf : string -> option string) (i o : string) (now : instant) :
  holds_on (BookingDb.decline ownerOf within victim i o now).
Proof.
  intros db Hdb. unfold BookingDb.decline. destruct (by_id i db) as [b|]; [|done].
  destruct (negb _); [done|]. destruct (negb _); [done|].
  revert db Hdb. apply holds_attempt; [done|]. walk_rows.
Qed.

Lemma holds_advance (i : string) (from_ to_ : BookingState) (a : option string) :
  to_ <> RESERVED -> holds_on (advance within victim i from_ to_ a).
Proof. intros Ht. unfold advance. apply holds_attempt; [done|]. walk_rows. Qed.

Lemma holds_expire (now : instant) (limit : nat) : holds_on (expireRequests within victim now limit).
Proof.
  intros db Hdb. unfold expireRequests. destruct (row_id <$> take limit _) as [|c cs]; [done|].
  revert db Hdb. apply holds_attempt; [done|]. walk_rows.
Qed.

(** A move into RESERVED needs the fact of the very row it moves. *)
Lemma holds_reserve (i : string) (from_ : BookingState) (a : option string) (db : Db) :
  (forall t r, r ∈ bookings (within db) -> row_id r = i -> G (with_state RESERVED t r)) ->
  all_rows db -> all_rows (fst (advance within victim i from_ RESERVED a db)).
Proof.
  intros Hi Hdb. specialize (Hwithin db Hdb). unfold advance, attempt_at, transaction.
  destruct (victim 1); [done|]. unfold mbind at 1, M_bind at 1.
  destruct (update_where _ RESERVED (within db)) as [db1 [rows|e]] eqn:Hu; [|done].
  assert (all_rows db1) as H1.
  { revert Hu. unfold update_where. destruct (existsb _ _); [done|]. intros [= <- _].
    unfold all_rows in *. apply Forall_forall. rewrite Forall_forall in Hwithin.
    intros r (r0 & Hr0 & ->)%elem_of_moved. case_bool_decide as Hp; [|by apply Hwithin].
    apply Hi; tauto. }
  match goal with |- context [match ?m db1 with _ => _ end] => assert (holds_on m) as Hm by walk_rows end.
  specialize (Hm db1 H1). by destruct (_ db1) as [db2 [x|e]].
Qed.
End Race.
End Rows.
End Rows.

(** ** The composition root's adapters *)
Module Composition.
Import Money (amount, currency, SUPPORTED_CURRENCIES).
Import PaymentIntent HireSettlement.
Import Bookings (HireChargeStatus, c_processing, c_pending_payer_action, c_succeeded, c_failed,
  HireChargeRequest, HireChargeResult, mkChargeResult, hc_bookingId, hc_ownerId, hc_categoryVersionId,
  hc_itemTitle, hc_itemCharge, hc_renterFee, hc_total,
  CollectionSecurityRequest, CollectionSecurityResult, mkSecurityResult, s_not_required, s_held,
  s_pending_payer_action, s_failed, cs_bookingId, cs_ownerId, cs_categoryVersionId, cs_itemTitle, cs_excess,
  BookingPorts, Build_BookingPorts).

(** Quotes, listings and the feature flag, which this development does not model. *)
Class Catalogue (C : Type) : Type := {
  quoteFor : string -> string -> C -> option Bookings.QuoteRecord;
  quotable : string -> C -> option Bookings.QuotableListing;
  payment_flag : C -> bool;
  quote_currency : forall q u c x, quoteFor q u c = Some x ->
    currency (Bookings.q_total (Bookings.q_new x)) ∈ SUPPORTED_CURRENCIES }.

Record System {P C : Type} : Type := mkSystem { money : Payments.World P; catalogue : C }.
Arguments System P C : clear implicits.
Arguments mkSystem {P C}.

Section Adapters.
Context {Ids : UuidSource} {P C : Type} {Provider : PaymentProvider P} {Cat : Catalogue C}.
Variable findFeePolicy : string -> option Pricing.CategoryFeePolicy.
Variable references : IntentDb.IntentRow -> bool.
(** What other payment requests commit while this one awaits. *)
Variable rival : Payments.World P -> Payments.World P.

Definition on_money {A} (m : M (Payments.World P) A) : M (System P C) A := fun s =>
  let (w, r) := m (money s) in (mkSystem w (catalogue s), r).

Definition asMoney (value : Money.Money) : result Money.Money :=
  Money.money (amount value) (currency value).

Definition charge_status (s : PaymentIntentStatus) : HireChargeStatus :=
  match s with
  | initiated => c_processing
  | pending_payer_action => c_pending_payer_action
  | processing => c_processing
  | succeeded => c_succeeded
  | failed => c_failed
  end.

Definition failure_message (i : PaymentIntentRecord) : option string :=
  match failure i with None => None | Some f => Some (message f) end.

Definition chargeForHire (req : HireChargeRequest) : M (System P C) HireChargeResult :=
  item ← lift (asMoney (hc_itemCharge req));
  fee ← lift (asMoney (hc_renterFee req));
  total ← lift (asMoney (hc_total req));
  outcome ← on_money (Payments.payForHire findFeePolicy references rival
    (Payments.mkHireInstruction (hc_bookingId req) (hc_ownerId req) (mkCharge item fee total)
       (hc_categoryVersionId req) (hc_itemTitle req)));
  mret (mkChargeResult (charge_status (status (Payments.intent outcome)))
          (Payments.paid_payerAction outcome) (failure_message (Payments.intent outcome))).

Definition holdForCollection (req : CollectionSecurityRequest)
  : M (System P C) CollectionSecurityResult :=
  excess ← lift (match cs_excess req with None => Ok None | Some e => m ← asMoney e; Ok (Some m) end);
  outcome ← on_money (Payments.holdDamageSecurity findFeePolicy references rival
    (Payments.mkSecurityInstruction (cs_bookingId req) (cs_ownerId req) (cs_categoryVersionId req)
       excess (cs_itemTitle req)));
  mret (match outcome with
        | Payments.not_required => mkSecurityResult s_not_required None None
        | Payments.attempted i action =>
            match status i with
            | succeeded => mkSecurityResult s_held None None
            | failed => mkSecurityResult s_failed None (failure_message i)
            | _ => mkSecurityResult s_pending_payer_action action None
            end
        end).

Definition booking_ports : BookingPorts (System P C) := {|
  Bookings.findQuoteForRenter := fun q u s => quoteFor q u (catalogue s);
  Bookings.findQuotable := fun l s => quotable l (catalogue s);
  Bookings.isPaymentEnabled := fun s => payment_flag (catalogue s);
  Bookings.chargeForHire := chargeForHire;
  Bookings.holdForCollection := holdForCollection |}.
End Adapters.
End Composition.

(** ** The composed system's invariant *)
Section Composed.
Context {Ids : UuidSource} {P C : Type} {Provider : PaymentIntent.PaymentProvider P} {Cat : Composition.Catalogue C}.
Variable findFeePolicy : string -> option Pricing.CategoryFeePolicy.
Variable references : IntentDb.IntentRow -> bool.
Variable payments_rival : Payments.World P -> Payments.World P.
Hypothesis Hpayments : good_world_rival payments_rival.
Variable ownerOf : string -> option string.
Variable acceptable : instant -> instant -> instant -> result ().

Import Money (amount, currency, SUPPORTED_CURRENCIES).
Import BookingState BookingDb Bookings Composition Answers Rows.

#[local] Instance ports : BookingPorts (System P C) :=
  booking_ports findFeePolicy references payments_rival.

Notation world := (Bookings.World (System P C)).

Definition books (w : world) : LedgerDb.Db := Payments.ledger (money (rest w)).

(** The ledger holds the capture of exactly what the booking costs. *)
Definition paid_for (l : LedgerDb.Db) (r : Row) : Prop :=
  exists p, LedgerDb.by_key (PaymentIntent.hireCaptureKey (row_id r)) l = Some p /\
    Ledger.bookingId (Ledger.posted p) = Some (row_id r) /\
    Ledger.draft_currency (Ledger.posted p) = row_currency r /\
    LedgerDb.side_total Ledger.debit (Ledger.entries (Ledger.posted p)) = totalAmount r.

Definition row_ok (l : LedgerDb.Db) (r : Row) : Prop :=
  row_currency r ∈ SUPPORTED_CURRENCIES /\ (row_state r = RESERVED -> paid_for l r).

Lemma row_ok_moves (l : LedgerDb.Db) (s : BookingState) (t : instant) (r : Row) :
  s <> RESERVED -> row_ok l r -> row_ok l (with_state s t r).
Proof. intros Hs [Hc _]. by split. Qed.

Lemma row_ok_mono (l l' : LedgerDb.Db) (r : Row) : extends l l' -> row_ok l r -> row_ok l' r.
Proof.
  intros He [Hc Hp]. split; [done|]. intros Hs. destruct (Hp Hs) as (p & Hk & H).
  exists p. split; [by eapply by_key_mono|done].
Qed.

Record sysinv (w : world) : Prop := {
  sysinv_bookings : bwf (bdb w);
  sysinv_payments : winv (money (rest w));
  sysinv_rows : all_rows (row_ok (books w)) (bdb w) }.

Definition sysext (w w' : world) : Prop :=
  bext (bdb w) (bdb w') /\ wext (money (rest w)) (money (rest w')).

#[local] Instance sysext_preorder : PreOrder sysext.
Proof. split; [by split|]. intros a b c [H1 H2] [H3 H4]. split; by etrans. Qed.

(** ** Triples over the composed system *)
Definition trip {A} (Pre : world -> Prop) (m : M world A) (Post : A -> world -> Prop) : Prop :=
  forall w w' r, sysinv w -> Pre w -> m w = (w', r) ->
    sysinv w' /\ sysext w w' /\ match r with Ok a => Post a w' | Err _ => True end.

Definition anyw (w : world) : Prop := True.
Definition lasting (F : world -> Prop) : Prop := forall w w', sysinv w -> sysinv w' -> sysext w w' -> F w -> F w'.

Lemma trip_bind {A B} (Pre : world -> Prop) (m : M world A) (Mid : A -> world -> Prop)
    (f : A -> M world B) (Post : B -> world -> Prop) :
  trip Pre m Mid -> (forall a, trip (Mid a) (f a) Post) -> trip Pre (mbind f m) Post.
Proof.
  intros Hm Hf w w' r Hw Hp. unfold mbind, M_bind. destruct (m w) as [w1 [a|e]] eqn:Hr.
  - destruct (Hm _ _ _ Hw Hp Hr) as (Hw1 & He1 & Ha). intros H2.
    destruct (Hf a _ _ _ Hw1 Ha H2) as (Hw2 & He2 & Hb). split_and!; [done|by etrans|done].
  - intros [= <- <-]. by apply (Hm _ _ _ Hw Hp Hr).
Qed.

Lemma trip_weaken {A} (Pre Pre' : world -> Prop) (m : M world A) (Post Post' : A -> world -> Prop) :
  (forall w, Pre' w -> Pre w) -> (forall a w, Post a w -> Post' a w) -> trip Pre m Post -> trip Pre' m Post'.
Proof.
  intros H1 H2 Hm w w' r Hw Hp H. destruct (Hm _ _ _ Hw (H1 _ Hp) H) as (? & ? & Hr).
  split_and!; [done|done|]. destruct r; auto.
Qed.

Lemma trip_frame {A} (F Pre : world -> Prop) (m : M world A) (Post : A -> world -> Prop) :
  lasting F -> trip Pre m Post -> trip (fun w => F w /\ Pre w) m (fun a w => F w /\ Post a w).
Proof.
  intros HF Hm w w' r Hw [HFw Hp] H. destruct (Hm _ _ _ Hw Hp H) as (Hw' & He & Hr).
  split_and!; [done|done|]. destruct r; [|done]. split; [exact (HF w w' Hw Hw' He HFw)|done].
Qed.

(** A fact that lasts is still there after any step that keeps the invariant. *)
Lemma trip_keeps {A} (F : world -> Prop) (m : M world A) :
  lasting F -> trip anyw m (fun _ => anyw) -> trip F m (fun _ => F).
Proof.
  intros HF Hm. eapply trip_weaken; [| |apply (trip_frame F anyw m _ HF Hm)]; [by split|by intros a w []].
Qed.

Lemma trip_catch {A} (m : M world A) (h : error -> M world A) :
  trip anyw m (fun _ => anyw) -> (forall e, trip anyw (h e) (fun _ => anyw)) ->
  trip anyw (catch m h) (fun _ => anyw).
Proof.
  intros Hm Hh w w' r Hw _. unfold catch. destruct (m w) as [w1 [a|e]] eqn:H.
  - intros [= <- <-]. by apply (Hm _ _ _ Hw I H).
  - destruct (Hm _ _ _ Hw I H) as (Hw1 & He1 & _). intros H2.
    destruct (Hh e _ _ _ Hw1 I H2) as (Hw2 & He2 & Hr). split_and!; [done|by etrans|done].
Qed.

(** A step that only reads. *)
Lemma trip_reads {A} (Pre : world -> Prop) (m : M world A) (Post : A -> world -> Prop) :
  (forall w, fst (m w) = w) -> (forall w a, sysinv w -> Pre w -> snd (m w) = Ok a -> Post a w) ->
  trip Pre m Post.
Proof.
  intros Hs Hp w w' r Hw Hpre H. pose proof (Hs w) as Hsw. specialize (Hp w).
  rewrite H in Hsw, Hp. cbn in *. subst w'. split_and!; [done|reflexivity|].
  destruct r; [by apply Hp|done].
Qed.

Lemma trip_read {A} (m : M world A) : (forall w, fst (m w) = w) -> trip anyw m (fun _ => anyw).
Proof. intros H. by apply trip_reads. Qed.

(** A statement on the booking tables. *)
Lemma trip_bookings {A} (m : M Db A) :
  sound m -> (forall l, holds_on (row_ok l) m) -> trip anyw (on_bookings m) (fun _ => anyw).
Proof.
  intros Hm Hr w w' r [Hb Hp Hrows] _. unfold on_bookings.
  destruct (Hm _ Hb) as [Hb' He]. specialize (Hr (books w) (bdb w) Hrows).
  destruct (m (bdb w)) as [db res]. intros [= <- <-]. cbn [fst] in *.
  split_and!; [by split|by split|]. by destruct res.
Qed.

Lemma trip_any {A B} (m : M world A) (f : A -> M world B) :
  trip anyw m (fun _ => anyw) -> (forall a, trip anyw (f a) (fun _ => anyw)) ->
  trip anyw (mbind f m) (fun _ => anyw).
Proof. by apply trip_bind. Qed.

Lemma trip_pure {A} (Q : Prop) (m : M world A) (Post : A -> world -> Prop) :
  (Q -> trip anyw m Post) -> trip (fun _ => Q) m Post.
Proof. intros H w w' r Hw Hq. by apply H. Qed.

Lemma trip_rest {A} (m : M (System P C) A) :
  (forall s, winv (money s) -> winv (money (fst (m s))) /\ wext (money s) (money (fst (m s)))) ->
  trip anyw (on_rest m) (fun _ => anyw).
Proof.
  intros Hm w w' r [Hb Hp Hrows] _. unfold on_rest. destruct (Hm _ Hp) as [Hp' He].
  destruct (m (rest w)) as [s res]. intros [= <- <-]. cbn [fst] in *.
  split_and!; [|by split|by destruct res]. split; [done|done|]. unfold all_rows, books in *. cbn [rest bdb].
  eapply Forall_impl; [exact Hrows|]. intros x. apply row_ok_mono. by destruct He.
Qed.

Lemma on_money_safe {A} (m : M (Payments.World P) A) (Post : A -> Payments.World P -> Prop) (s : System P C) :
  safe (fun _ => True) m Post -> winv (money s) ->
  winv (money (fst (on_money m s))) /\ wext (money s) (money (fst (on_money m s))) /\
  match snd (on_money m s) with Ok a => Post a (money (fst (on_money m s))) | Err _ => True end.
Proof.
  intros Hm Hw. unfold on_money. destruct (m (money s)) as [w r] eqn:H.
  by destruct (Hm _ _ _ Hw I H) as (? & ? & ?).
Qed.

Lemma asMoney_ok (v m : Money.Money) : asMoney v = Ok m -> m = v.
Proof. intros H. apply Money.money_ok in H as [_ ->]. by destruct v. Qed.

(** The request charges a booking of the tables for exactly what it costs. *)
Definition booked (i : string) (total : Money.Money) (w : world) : Prop :=
  exists r, r ∈ bookings (bdb w) /\ row_id r = i /\ total = Money.mkMoney (totalAmount r) (row_currency r).

Definition secured (i : string) (w : world) : Prop :=
  exists r, r ∈ bookings (bdb w) /\ row_id r = i /\ paid_for (books w) r.

Lemma same_terms_fields (r r' : Row) :
  same_terms r r' -> row_id r' = row_id r /\ totalAmount r' = totalAmount r /\ row_currency r' = row_currency r.
Proof. unfold same_terms. by intros ->. Qed.

Lemma paid_for_same (l l' : LedgerDb.Db) (r r' : Row) :
  extends l l' -> row_id r' = row_id r -> totalAmount r' = totalAmount r -> row_currency r' = row_currency r ->
  paid_for l r -> paid_for l' r'.
Proof.
  intros He Hi Ht Hc (p & Hk & Hb & Hcur & Hd). exists p. rewrite Hi, Ht, Hc.
  split_and!; [by eapply by_key_mono|done..].
Qed.

Lemma booked_lasting (i : string) (m : Money.Money) : lasting (booked i m).
Proof.
  intros w w' _ _ [[Hrows _] _] (r & Hr & Hi & Hm). destruct (Hrows r Hr) as (r' & Hr' & Hs).
  apply same_terms_fields in Hs as (Ei & Et & Ec). exists r'. split_and!; [done|congruence..].
Qed.

Lemma secured_lasting (i : string) : lasting (secured i).
Proof.
  intros w w' _ _ [[Hrows _] [Hl _]] (r & Hr & Hi & Hp). destruct (Hrows r Hr) as (r' & Hr' & Hs).
  apply same_terms_fields in Hs as (Ei & Et & Ec). exists r'. split_and!; [done|congruence|].
  by eapply paid_for_same.
Qed.

(** What the adapter answers about a hire: taken means in the books. *)
Lemma charge_answers (req : HireChargeRequest) (s : System P C) :
  winv (money s) -> currency (hc_total req) ∈ SUPPORTED_CURRENCIES ->
  let '(s', r) := Composition.chargeForHire findFeePolicy references payments_rival req s in
  winv (money s') /\ wext (money s) (money s') /\
  match r with
  | Ok res => hc_status res = c_succeeded ->
      exists i, capture_posted i (money s') /\ PaymentIntent.bookingId i = hc_bookingId req /\
                PaymentIntent.intent_amount i = hc_total req
  | Err _ => True
  end.
Proof.
  intros Hw Hcur. unfold Composition.chargeForHire. unfold mbind, M_bind, lift.
  destruct (asMoney (hc_itemCharge req)) as [item|]; [|by split_and!].
  destruct (asMoney (hc_renterFee req)) as [fee|]; [|by split_and!].
  destruct (asMoney (hc_total req)) as [total|] eqn:Ht; [|by split_and!]. apply asMoney_ok in Ht as ->.
  match goal with |- context [Payments.payForHire _ _ _ ?x] => set (ins := x) end.
  pose proof (safe_payForHire_answers findFeePolicy references payments_rival Hpayments ins Hcur) as Hsafe.
  destruct (on_money_safe _ _ s Hsafe Hw) as (Hw' & He & Ho). clear Hsafe.
  destruct (on_money _ s) as [s' [o|e]]; cbn [fst snd] in *; [|done].
  split_and!; [done|done|]. intros Hs. exists (Payments.intent o).
  destruct Ho as ((_ & Hcap) & Hb & Hp & Ha). split_and!; [|done|done]. apply Hcap; [|done].
  unfold charge_status in Hs. cbn [hc_status] in Hs. by destruct (PaymentIntent.status (Payments.intent o)).
Qed.

Lemma trip_charge (req : HireChargeRequest) :
  trip (booked (hc_bookingId req) (hc_total req)) (on_rest (Bookings.chargeForHire req))
    (fun res w => hc_status res = c_succeeded -> secured (hc_bookingId req) w).
Proof.
  intros w w' r Hw (b & Hb & Hid & Htot) H. pose proof (sysinv_rows _ Hw) as Hrows.
  unfold all_rows in Hrows. rewrite Forall_forall in Hrows.
  assert (currency (hc_total req) ∈ SUPPORTED_CURRENCIES) as Hcur by (rewrite Htot; apply (Hrows b Hb)).
  pose proof (charge_answers req (rest w) (sysinv_payments _ Hw) Hcur) as Hc.
  revert H. unfold on_rest. cbn [Bookings.chargeForHire ports booking_ports].
  destruct (Composition.chargeForHire _ _ _ req (rest w)) as [s' res]. intros [= <- <-].
  destruct Hc as (Hp' & He & Hres). split_and!; [|by split|].
  - split; [apply (sysinv_bookings _ Hw)|done|]. apply Forall_forall. intros x Hx. cbn [bdb] in Hx.
    eapply row_ok_mono; [apply He|by apply Hrows].
  - destruct res as [res|]; [|done]. intros Hs. destruct (Hres Hs) as (i & (ir & Hm & p & Hk & _ & Hbk & Hcr & Hd) & Hbi & Ha).
    destruct Hm as (_ & Hmb & _ & _ & Hma & _).
    assert (row_id b = IntentDb.row_bookingId ir) as Hbb by congruence.
    rewrite Htot, Hma in Ha. injection Ha as Ha Hac.
    exists b. split_and!; [done|done|]. exists p. rewrite Hbb. split_and!; [done|done|congruence|congruence].
Qed.

Section Race.
Variable rival : world -> world.
Variable within : Db -> Db.
Variable victim : nat -> bool.
Hypothesis Hrival : forall w, sysinv w -> sysinv (rival w) /\ sysext w (rival w).
Hypothesis Hwithin : good_rival within.
Hypothesis Hwithin_rows : forall l db, all_rows (row_ok l) db -> all_rows (row_ok l) (within db).

Lemma trip_await (F : world -> Prop) : lasting F -> trip F (await rival) (fun _ => F).
Proof.
  intros HF w w' r Hw Hp [= <- <-]. destruct (Hrival w Hw) as [Hw' He].
  split_and!; [done|done|]. exact (HF w _ Hw Hw' He Hp).
Qed.

Lemma trip_advance (i : string) (from_ to_ : BookingState) (a : option string) :
  to_ <> RESERVED -> trip anyw (on_bookings (advance within victim i from_ to_ a)) (fun _ => anyw).
Proof.
  intros Ht. apply trip_bookings; [by apply sound_advance|].
  intros l. apply holds_advance; [intros s t r; apply row_ok_moves|apply Hwithin_rows|done].
Qed.

Lemma trip_reserve (i : string) (from_ : BookingState) (a : option string) :
  trip (secured i) (on_bookings (advance within victim i from_ RESERVED a)) (fun _ => anyw).
Proof.
  intros w w' r [Hb Hp Hrows] (x & Hx & Hid & Hpaid).
  destruct (sound_advance within victim Hwithin i from_ RESERVED a (bdb w) Hb) as [Hb' He].
  assert (all_rows (row_ok (books w)) (fst (advance within victim i from_ RESERVED a (bdb w)))) as Hr'.
  { apply (holds_reserve (row_ok (books w))); [apply Hwithin_rows| |exact Hrows].
    intros t y Hy Hyi. destruct (Hwithin (bdb w) Hb) as [Hbw [Hext _]].
    destruct (Hext x Hx) as (x' & Hx' & Hs). apply same_terms_fields in Hs as (Ei & Et & Ec).
    assert (y = x') as -> by (apply (row_unique (within (bdb w))); [done..|congruence]).
    pose proof (Hwithin_rows _ _ Hrows) as Hok. unfold all_rows in Hok. rewrite Forall_forall in Hok.
    split; [apply (Hok x' Hy)|]. intros _. by eapply (paid_for_same _ _ x). }
  unfold on_bookings. destruct (advance _ _ _ _ _ _ (bdb w)) as [db res]. intros [= <- <-]. cbn [fst] in *.
  split_and!; [by split|by split|by destruct res].
Qed.

Lemma trip_lift {A} (Pre : world -> Prop) (r : result A) : trip Pre (lift r) (fun _ => Pre).
Proof. by apply trip_reads. Qed.

Lemma trip_settle (i u : string) (s : HireChargeStatus) :
  trip (fun w => s = c_succeeded -> secured i w) (settle within victim i u s) (fun _ => anyw).
Proof.
  unfold settle. destruct s; try (by apply trip_reads).
  - eapply trip_bind; [apply trip_lift|]. intros to_.
    eapply trip_bind; [eapply trip_weaken; [| |apply trip_reserve]; [by intros w H; apply H|done]|].
    intros o. by apply trip_reads.
  - eapply trip_bind; [apply trip_lift|]. intros to_.
    eapply trip_bind; [eapply trip_weaken; [| |by apply trip_advance]; done|].
    intros o. by apply trip_reads.
Qed.

Lemma findForParty_fst (i u : string) (db : Db) : fst (findForParty ownerOf i u db) = db.
Proof. unfold findForParty. destruct (by_id i db) as [r|]; [|done]. by destruct (is_party _ _ _). Qed.

Lemma on_bookings_fst {A} (m : M Db A) (w : world) :
  fst (m (bdb w)) = bdb w -> fst (on_bookings m w) = w.
Proof. unfold on_bookings. destruct (m (bdb w)). cbn. intros ->. by destruct w. Qed.

Lemma trip_findForParty (i u : string) :
  trip anyw (on_bookings (findForParty ownerOf i u))
    (fun o w => match o with Some e => booked i (total (new (booking e))) w | None => True end).
Proof.
  apply trip_reads; [intros w; apply on_bookings_fst, findForParty_fst|].
  intros w o Hw _. unfold on_bookings, findForParty.
  destruct (by_id i (bdb w)) as [r|] eqn:Hr; [|by intros [= <-]].
  destruct (is_party _ _ _); [|by intros [= <-]].
  unfold_result. destruct (toRecord r) as [rec|] eqn:Hrec; [|done]. cbn. intros [= <-]. cbn [booking].
  apply find_by_Some in Hr as [Hin Hid]. exists r. split_and!; [done|done|].
  by apply (toRecord_fields r rec).
Qed.

Lemma trip_readBack (i u : string) : trip anyw (readBack ownerOf i u) (fun _ => anyw).
Proof.
  apply trip_any; [eapply trip_weaken; [| |apply trip_findForParty]; done|].
  intros [b|]; by apply trip_read.
Qed.

Lemma trip_movePayable (s : BookingState) (i u : string) :
  trip anyw (movePayable within victim s i u) (fun _ => anyw).
Proof.
  unfold movePayable. case_bool_decide; [by apply trip_read|].
  apply trip_any; [by apply trip_read|]. intros _. apply trip_any; [by apply trip_advance|].
  intros o. by apply trip_read.
Qed.

Lemma trip_pay (i u : string) : trip anyw (pay ownerOf rival within victim i u) (fun _ => anyw).
Proof.
  unfold pay. apply trip_any; [by apply trip_read|]. intros en. destruct (negb en); [by apply trip_read|].
  apply trip_any; [by apply trip_await|]. intros _.
  eapply trip_bind; [apply trip_findForParty|]. intros [e|]; [|by apply trip_reads]. cbn zeta.
  set (b := new (booking e)). destruct (negb _); [by apply trip_reads|].
  destruct (negb _); [by apply trip_reads|]. destruct (ownerOf (listingId b)) as [o|]; [|by apply trip_reads].
  eapply trip_bind; [apply trip_await, booked_lasting|]. intros [].
  eapply trip_bind; [apply (trip_keeps _ _ (booked_lasting i (total b))), trip_movePayable|]. intros aw.
  destruct (negb aw); [by apply trip_reads|].
  eapply trip_bind; [apply trip_await, booked_lasting|]. intros [].
  eapply trip_bind.
  { apply (trip_charge (mkChargeRequest i o (categoryVersionId b) (itemTitle b) (itemCharge b) (renterFee b) (total b))). }
  cbn [hc_bookingId]. intros res.
  assert (lasting (fun w => hc_status res = c_succeeded -> secured i w)) as Hl.
  { intros w w' Hw Hw' He H Hs. by apply (secured_lasting i w w'), H. }
  eapply trip_bind; [by apply trip_await|]. intros []. eapply trip_bind; [apply trip_settle|]. intros [].
  apply trip_any; [by apply trip_await|]. intros _. apply trip_any; [apply trip_readBack|].
  intros back. by apply trip_read.
Qed.

Lemma trip_found (i u : string) : trip anyw (on_bookings (findForParty ownerOf i u)) (fun _ => anyw).
Proof. eapply trip_weaken; [| |apply trip_findForParty]; done. Qed.

Lemma trip_awaits : trip anyw (await rival) (fun _ => anyw).
Proof. by apply trip_await. Qed.

#[local] Hint Resolve trip_found trip_awaits trip_readBack trip_any : system.
#[local] Hint Extern 8 (trip _ _ _) => (apply trip_read; done) : system.
#[local] Hint Extern 4 (_ <> RESERVED) => discriminate : system.

Ltac walk_trip :=
  repeat first
    [ progress eauto with system nocore
    | apply trip_any; [|intros ?]
    | match goal with |- trip _ (match ?x with _ => _ end) _ => destruct x end
    | progress cbn zeta ].

Lemma trip_accept (b o : string) : trip anyw (Bookings.accept ownerOf rival within victim b o) (fun _ => anyw).
Proof.
  assert (forall t, trip anyw (on_bookings (BookingDb.accept ownerOf within victim b o t)) (fun _ => anyw)).
  { intros t. apply trip_bookings; [by apply sound_accept|].
    intros l. apply holds_accept; [intros s u r; apply row_ok_moves|apply Hwithin_rows]. }
  unfold Bookings.accept. walk_trip.
Qed.

Lemma trip_decline (b o : string) : trip anyw (Bookings.decline ownerOf rival within victim b o) (fun _ => anyw).
Proof.
  assert (forall t, trip anyw (on_bookings (BookingDb.decline ownerOf within victim b o t)) (fun _ => anyw)).
  { intros t. apply trip_bookings; [by apply sound_decline|].
    intros l. apply holds_decline; [intros s u r; apply row_ok_moves|apply Hwithin_rows]. }
  unfold Bookings.decline. walk_trip.
Qed.

Lemma trip_sweep : trip anyw (sweep (W := System P C) within victim) (fun _ => anyw).
Proof.
  assert (forall t n, trip anyw (on_bookings (expireRequests within victim t n)) (fun _ => anyw)).
  { intros t n. apply trip_bookings; [by apply sound_expire|].
    intros l. apply holds_expire; [intros s u r; apply row_ok_moves|apply Hwithin_rows]. }
  unfold sweep. walk_trip.
Qed.

(** The excess a booking carries is in a currency the code supports. *)
Lemma applied_currency (r : Row) (rec : BookingRecord) (x : Pricing.AppliedExcess) :
  toRecord r = Ok rec -> appliedExcess (new rec) = Some x ->
  currency (Pricing.excess_amount x) ∈ SUPPORTED_CURRENCIES.
Proof.
  unfold toRecord. unfold_result.
  do 3 (destruct (Money.money _ _); [|done]). destruct (toAppliedExcess _ _ _) as [o|] eqn:Ho; [|done].
  intros [= <-]. cbn. intros ->. revert Ho. unfold toAppliedExcess. unfold_result.
  destruct (damageExcessAmount r) as [z|]; [|done]. destruct (damageExcessBoundBy r); [|done].
  case_bool_decide as Hc; [|done]. destruct (Money.money z _) as [m|] eqn:Hm; [|done].
  apply Money.money_ok in Hm as [_ ->]. by intros [= <-].
Qed.

Lemma trip_found_excess (i u : string) :
  trip anyw (on_bookings (findForParty ownerOf i u))
    (fun o _ => forall e x, o = Some e -> appliedExcess (new (booking e)) = Some x ->
       currency (Pricing.excess_amount x) ∈ SUPPORTED_CURRENCIES).
Proof.
  apply trip_reads; [intros w; apply on_bookings_fst, findForParty_fst|].
  intros w o Hw _. unfold on_bookings, findForParty.
  destruct (by_id i (bdb w)) as [r|] eqn:Hr; [|by intros [= <-]].
  destruct (is_party _ _ _); [|by intros [= <-]].
  unfold_result. destruct (toRecord r) as [rec|] eqn:Hrec; [|done]. cbn. intros [= <-] e x [= <-].
  by apply (applied_currency r).
Qed.

Lemma trip_hold (req : CollectionSecurityRequest) :
  (forall e, cs_excess req = Some e -> currency e ∈ SUPPORTED_CURRENCIES) ->
  trip anyw (on_rest (Bookings.holdForCollection req)) (fun _ => anyw).
Proof.
  intros Hcur. apply trip_rest. intros s Hs. cbn [Bookings.holdForCollection ports booking_ports].
  unfold Composition.holdForCollection, mbind, M_bind, lift.
  assert (forall x, match cs_excess req with None => Ok None | Some e => m ← asMoney e; Ok (Some m) end = Ok x ->
            forall e, x = Some e -> currency e ∈ SUPPORTED_CURRENCIES) as Hx.
  { intros x. destruct (cs_excess req) as [e|]; unfold_result; [|by intros [= <-]].
    destruct (asMoney e) as [m|] eqn:Hm; [|done]. apply asMoney_ok in Hm as ->.
    intros [= <-] e' [= <-]. by apply Hcur. }
  destruct (match cs_excess req with None => _ | Some _ => _ end) as [x|e]; [|by split].
  specialize (Hx x eq_refl).
  pose proof (safe_hold findFeePolicy references payments_rival
    (Payments.mkSecurityInstruction (cs_bookingId req) (cs_ownerId req) (cs_categoryVersionId req) x
       (cs_itemTitle req)) Hpayments Hx) as Hsafe.
  destruct (on_money_safe _ _ s Hsafe Hs) as (Hw' & He & _).
  destruct (on_money _ s) as [s' [o|e]]; done.
Qed.

Lemma trip_secure (b u : string) : trip anyw (secureCollection ownerOf rival within victim b u) (fun _ => anyw).
Proof.
  pose proof trip_advance. unfold secureCollection.
  apply trip_any; [by apply trip_read|]. intros en. destruct (negb en); [by apply trip_read|].
  apply trip_any; [by apply trip_await|]. intros _.
  eapply trip_bind; [apply trip_found_excess|]. intros o. cbn beta. apply trip_pure. intros Ho.
  destruct o as [e|]; [|by apply trip_read]. specialize (Ho e). cbn zeta.
  destruct (negb _); [by apply trip_read|]. destruct (negb _); [by apply trip_read|].
  destruct (ownerOf _) as [o|]; [|by apply trip_read]. apply trip_any; [by apply trip_await|]. intros _.
  apply trip_any.
  { apply trip_hold. cbn [cs_excess]. destruct (appliedExcess _) as [x|]; [|done]. intros m [= <-]. by apply Ho. }
  intros res. walk_trip.
Qed.

Lemma trip_request (u q : string) : trip anyw (Bookings.request ownerOf rival within victim u q) (fun _ => anyw).
Proof.
  unfold Bookings.request.
  eapply trip_bind with (Mid := fun o _ => forall x : QuoteRecord, o = Some x -> currency (q_total x) ∈ SUPPORTED_CURRENCIES).
  { apply trip_reads; [done|]. intros w o _ _. intros [= <-] x Hx. by eapply quote_currency. }
  intros [qt|]; [|by apply trip_reads]. cbn beta. apply trip_pure. intros Hq. specialize (Hq qt eq_refl).
  assert (forall b e, currency (total b) = currency (q_total qt) -> state b = REQUESTED ->
            trip anyw (createOrExplainDuplicate within victim b e) (fun _ => anyw)) as Hcreate.
  { intros b e Hb Hs. unfold createOrExplainDuplicate. apply trip_catch.
    - apply trip_bookings; [by apply sound_write|]. intros l.
      apply holds_write; [apply Hwithin_rows|].
      intros db. split; [cbn; by rewrite Hb|]. cbn. by rewrite Hs.
    - intros []; by apply trip_read. }
  apply trip_any; [by apply trip_read|]. intros t. destruct (_ <=? t); [by apply trip_read|].
  apply trip_any; [apply trip_awaits|]. intros _. apply trip_any; [by apply trip_read|].
  intros [l|]; [|by apply trip_read]. destruct (bool_decide _); [by apply trip_read|].
  apply trip_any; [apply trip_awaits|]. intros _. apply trip_any; [by apply trip_read|].
  intros [r|]; [by apply trip_read|].
  eapply trip_bind with (Mid := fun s _ => s = REQUESTED).
  { apply trip_reads; [done|]. by intros w s _ _ [= <-]. }
  intros s. cbn beta. apply trip_pure. intros ->.
  apply trip_any; [by apply trip_read|]. intros d. apply trip_any; [by apply Hcreate|]. intros c. walk_trip.
Qed.
End Race.

(** ** Schedules of the composed system *)

(** What the code commits inside somebody else's transaction: anything but a
    payment's own move to RESERVED, and rows priced in a supported currency. *)
Definition honest_commit (c : commit) : Prop :=
  match c with
  | KWrite b _ => currency (total b) ∈ SUPPORTED_CURRENCIES /\ state b <> RESERVED
  | KAdvance _ _ to_ _ => to_ <> RESERVED
  | _ => True
  end.

(** The rest of the system may do anything the payments service does. *)
Definition keeps_books (f : System P C -> System P C) : Prop :=
  forall s, winv (money s) -> winv (money (f s)) /\ wext (money s) (money (f s)).

Definition honest (r : BookingTheorems.request (W := System P C)) : Prop :=
  match r with RRest f => keeps_books f | _ => True end.

Definition honest_turn (t : turn (W := System P C)) : Prop :=
  honest (served t) /\ Forall honest (between t) /\ Forall honest_commit (inside t).

Lemma payments_keep_books (r : PaymentsTheorems.request) :
  typed r ->
  keeps_books (fun s => mkSystem (PaymentsTheorems.serve findFeePolicy references payments_rival r (money s))
                          (catalogue s)).
Proof. intros Hr s Hs. by apply serve_good. Qed.

Lemma commits_rows (cs : list commit) (l : LedgerDb.Db) (db : Db) :
  Forall honest_commit cs -> all_rows (row_ok l) db -> all_rows (row_ok l) (commits ownerOf cs db).
Proof.
  unfold commits. intros Hcs. revert db. induction Hcs as [|c cs Hc _ IH]; intros db Hdb; cbn [fold_left]; [done|].
  apply IH. clear IH. assert (forall s t r, s <> RESERVED -> row_ok l r -> row_ok l (with_state s t r)) as Hm
    by (intros s t r; apply row_ok_moves).
  assert (forall d, all_rows (row_ok l) d -> all_rows (row_ok l) (Datatypes.id d)) as Hid by done.
  destruct c; cbn [commit_op honest_commit] in *.
  - destruct Hc as [Hcur Hs]. apply holds_write; [done| |done]. intros d. by split.
  - by apply holds_accept.
  - by apply holds_decline.
  - by apply holds_advance.
  - by apply holds_expire.
  - unfold BookingDb.block. by destruct (_ <=? _).
  - done.
Qed.

Lemma trip_run {A} (m : M world A) (w : world) :
  trip anyw m (fun _ => anyw) -> sysinv w -> sysinv (fst (m w)) /\ sysext w (fst (m w)).
Proof. intros Hm Hw. destruct (m w) as [w' r] eqn:H. by destruct (Hm _ _ _ Hw I H) as (? & ? & _). Qed.

Lemma serve_composed (rival : world -> world) (within : Db -> Db) (victim : nat -> bool) (r : BookingTheorems.request)
    (w : world) :
  (forall w, sysinv w -> sysinv (rival w) /\ sysext w (rival w)) -> good_rival within ->
  (forall l db, all_rows (row_ok l) db -> all_rows (row_ok l) (within db)) -> honest r -> sysinv w ->
  sysinv (BookingTheorems.serve ownerOf acceptable rival within victim r w) /\
  sysext w (BookingTheorems.serve ownerOf acceptable rival within victim r w).
Proof.
  intros H1 H2 H3 Hr Hw. destruct r; cbn [BookingTheorems.serve].
  - by apply (trip_run _ w (trip_request rival within victim H1 H2 H3 renter quote)).
  - by apply (trip_run _ w (trip_accept rival within victim H1 H2 H3 bookingId ownerId)).
  - by apply (trip_run _ w (trip_decline rival within victim H1 H2 H3 bookingId ownerId)).
  - by apply (trip_run _ w (trip_pay rival within victim H1 H2 H3 bookingId renter)).
  - by apply (trip_run _ w (trip_secure rival within victim H1 H2 H3 bookingId renter)).
  - by apply (trip_run _ w (trip_sweep within victim H2 H3)).
  - apply trip_run; [|done]. unfold Bookings.block. destruct (negb _); [by apply trip_read|].
    apply trip_any; [by apply trip_read|]. intros t. apply trip_any; [by apply trip_read|]. intros [].
    apply trip_any; [|intros b; by apply trip_read].
    apply trip_bookings; [apply sound_block|]. intros l db Hdb. unfold BookingDb.block. by destruct (_ <=? _).
  - apply trip_run; [|done]. unfold Bookings.unblock. destruct (negb _); [by apply trip_read|].
    apply trip_bookings; [apply sound_unblock|]. by intros l db Hdb.
  - destruct Hw as [[B1 B2 B3 B4 B5] Hp Hrows]. split; [by split|]. split; [|done]. split; [|done].
    intros x Hx. exists x. split; [done|by destruct x].
  - destruct Hw as [Hb Hp Hrows]. destruct (Hr _ Hp) as [Hp' He]. split; [|by split].
    split; [done|done|]. unfold all_rows, books in *. cbn [rest bdb].
    eapply Forall_impl; [exact Hrows|]. intros x. apply row_ok_mono. by destruct He.
Qed.

Lemma serve_all_composed (rs : list BookingTheorems.request) (w : world) :
  Forall honest rs -> sysinv w ->
  sysinv (BookingTheorems.serve_all ownerOf acceptable rs w) /\
  sysext w (BookingTheorems.serve_all ownerOf acceptable rs w).
Proof.
  unfold BookingTheorems.serve_all. intros Hrs. revert w.
  induction Hrs as [|r rs Hr _ IH]; intros w Hw; cbn [fold_left]; [split; [done|reflexivity]|].
  destruct (serve_composed Datatypes.id Datatypes.id undisturbed r w) as [H1 E1];
    [by intros x Hx; split; [|reflexivity]|apply booking_rival_id|done..|].
  destruct (IH _ H1) as [H2 E2]. split; [done|by etrans].
Qed.

Lemma run_composed (ts : list turn) (w : world) :
  Forall honest_turn ts -> sysinv w ->
  sysinv (BookingTheorems.run ownerOf acceptable ts w) /\
  sysext w (BookingTheorems.run ownerOf acceptable ts w).
Proof.
  unfold BookingTheorems.run. intros Hts. revert w.
  induction Hts as [|t ts (Hs & Hb & Hi) _ IH]; intros w Hw; cbn [fold_left]; [split; [done|reflexivity]|].
  destruct (serve_composed (BookingTheorems.serve_all ownerOf acceptable (between t))
              (commits ownerOf (inside t)) (deadlocks t) (served t) w) as [H1 E1].
  - intros x Hx. by apply serve_all_composed.
  - apply commits_good.
  - intros l db. by apply commits_rows.
  - done.
  - done.
  - destruct (IH _ H1) as [H2 E2]. split; [done|by etrans].
Qed.

Lemma opening_composed (t t' : instant) (p : P) (c : C) :
  sysinv (opening t (mkSystem (empty_world t' p) c)).
Proof. split; [apply bwf_empty|apply winv_empty|constructor]. Qed.

(** C2. In the composed system, under any interleaving of booking and payment requests, a
    booking in RESERVED has exactly one capture in the ledger under its own key: for its
    booking, in its currency and for exactly its total, which is its item charge plus its
    renter fee. The schedules (honest_turn) let everything else keep the books as the
    payments service does, and commit anything inside a transaction but a move to RESERVED
    or a row priced in no supported currency. *)
Theorem reserved_booking_is_paid_for (ts : list turn) (t t' : instant) (p : P) (c : C) (r : Row) :
  Forall honest_turn ts ->
  let w := BookingTheorems.run ownerOf acceptable ts (opening t (mkSystem (empty_world t' p) c)) in
  r ∈ bookings (bdb w) -> row_state r = RESERVED ->
  exists k, with_key (PaymentIntent.hireCaptureKey (row_id r)) (books w) = [k] /\
    Ledger.bookingId (Ledger.posted k) = Some (row_id r) /\
    Ledger.draft_currency (Ledger.posted k) = row_currency r /\
    LedgerDb.side_total Ledger.debit (Ledger.entries (Ledger.posted k)) = totalAmount r /\
    totalAmount r = itemChargeAmount r + renterFeeAmount r.
Proof.
  intros Hts w Hr Hs. destruct (run_composed ts _ Hts (opening_composed t t' p c)) as [[Hb Hp Hrows] _].
  fold w in Hb, Hp, Hrows. unfold all_rows in Hrows. rewrite Forall_forall in Hrows.
  destruct (Hrows r Hr) as [_ Hpaid]. destruct (Hpaid Hs) as (k & Hk & Hbk & Hc & Hd).
  exists k. split_and!; [|done..|].
  - apply with_key_unique; [apply (winv_ledger _ Hp)|done].
  - pose proof (bwf_rows _ Hb) as H. rewrite Forall_forall in H. specialize (H r Hr). unfold row_refusal in H.
    repeat step_match; try done; lia.
Qed.
End Composed.
