(* ===== verification/AuditLog.v ===== *)
(** * The audit trail ([apps/api/src/audit/])

    [Module AuditDb]: the table [audit_logs] with what its columns and foreign key
    refuse, and [prisma-audit-log.ts].  [Module Audit]: [audit.service.ts].  The
    digest of a state ([state-digest.ts]) is a parameter. *)

From S2P Require Import Prelude JsNumber Text Columns Ledger Bookings.

#[local] Open Scope string_scope.
#[local] Open Scope list_scope.
#[local] Open Scope Z_scope.

Module AuditDb.

Inductive AuditAction : Type :=
  | account_provisioned | admin_activity_viewed | admin_user_viewed
  | admin_approval_proposed | admin_approval_granted | admin_approval_cancelled
  | account_suspended | account_reinstated | profile_created | profile_updated
  | account_deletion_requested | profile_erased | account_exported
  | account_email_changed | category_created | category_reconfigured
  | feature_flag_changed | listing_moderated.

#[global] Instance AuditAction_eq_dec : EqDecision AuditAction.
Proof. solve_decision. Defined.

Record Actor : Type := mkActor {
  actor_userId : string;
  actor_ipAddress : option string;
  actor_sessionId : option string }.

Record AuditEntry : Type := mkEntry {
  entry_actorId : option string;
  entry_action : AuditAction;
  entry_targetType : string;
  entry_targetId : string;
  beforeHash : option string;
  afterHash : option string;
  entry_ipAddress : option string;
  entry_sessionId : option string;
  entry_reason : option string }.

(** A stored entry. *)
Record AuditRow : Type := mkAuditRow {
  audit_id : string;
  audited : AuditEntry;
  audit_createdAt : instant }.

Record Trail : Type := mkTrail { entries : list AuditRow; eseq : nat }.
Definition empty_trail : Trail := mkTrail [] 0.

Record RecordedEntry : Type := mkRecorded {
  rec_id : string;
  rec_action : AuditAction;
  rec_targetType : string;
  rec_reason : option string;
  rec_ipAddress : option string;
  rec_sessionId : option string;
  rec_createdAt : instant }.

Record DisclosedEntry : Type := mkDisclosed {
  dis_id : string;
  dis_action : AuditAction;
  dis_targetType : string;
  dis_reason : option string;
  dis_createdAt : instant;
  byAnotherUser : bool }.

Section Log.
Context {Ids : UuidSource} {Pg : PgTypes} {Order : DescOrder}.

(** [auditLog.create], at the time [at_] by the database's clock; [known] says
    which accounts exist. *)
Definition record (at_ : instant) (known : string -> bool) (e : AuditEntry) : M Trail () :=
  actor ← as_uuid_opt (entry_actorId e);
  target ← as_uuid (entry_targetId e);
  if match entry_ipAddress e with Some ip => negb (inet_in ip) | None => false end then
    throw (DatabaseError "22P02")
  else if match actor with Some a => negb (known a) | None => false end then
    throw (DatabaseError "audit_logs_actorId_fkey")
  else
    modify (fun t =>
      mkTrail
        (entries t ++ [mkAuditRow (uuid (eseq t))
           (mkEntry actor (entry_action e) (entry_targetType e) target (beforeHash e) (afterHash e)
              (entry_ipAddress e) (entry_sessionId e) (entry_reason e)) at_])
        (S (eseq t))).

Definition toRecorded (r : AuditRow) : RecordedEntry :=
  mkRecorded (audit_id r) (entry_action (audited r)) (entry_targetType (audited r))
    (entry_reason (audited r)) (entry_ipAddress (audited r)) (entry_sessionId (audited r))
    (audit_createdAt r).

Definition toDisclosed (r : AuditRow) : DisclosedEntry :=
  mkDisclosed (audit_id r) (entry_action (audited r)) (entry_targetType (audited r))
    (entry_reason (audited r)) (audit_createdAt r)
    (negb (bool_decide (entry_actorId (audited r) = None))).

Definition acted (u : string) (r : AuditRow) : bool :=
  bool_decide (entry_actorId (audited r) = Some u).

(** Somebody other than [u], or nobody at all, acted on [u]. *)
Definition disclosed (u : string) (r : AuditRow) : bool :=
  bool_decide (entry_targetId (audited r) = u) &&
  (bool_decide (entry_actorId (audited r) = None) || negb (acted u r)).

Definition newest (limit : Z) (p : AuditRow -> bool) (t : Trail) : list AuditRow :=
  take (Z.to_nat limit) (order_desc audit_createdAt (List.filter p (entries t))).

Definition listForActor (actorId : string) (limit : Z) : M Trail (list RecordedEntry) :=
  u ← as_uuid actorId;
  rows ← gets (newest limit (acted u));
  mret (toRecorded <$> rows).

Definition listForSubject (subjectId : string) (limit : Z) : M Trail (list DisclosedEntry) :=
  u ← as_uuid subjectId;
  rows ← gets (newest limit (disclosed u));
  mret (toDisclosed <$> rows).
End Log.
End AuditDb.

Module Audit.
Import AuditDb.

Definition DEFAULT_ACTIVITY_LIMIT : Z := 50.
Definition MAX_ACTIVITY_LIMIT : Z := 200.
Definition EXPORTED_ACTIVITY_LIMIT : Z := 1000.

Inductive ActivityActor : Type := subject | administrator | system.

Record ActivityRecord : Type := mkActivity {
  act_id : string;
  act_action : AuditAction;
  act_targetType : string;
  act_reason : option string;
  act_ipAddress : option string;
  act_sessionId : option string;
  act_createdAt : instant;
  by_ : ActivityActor }.

(** [before] and [after] are [None] where the code leaves them out. *)
Record RecordChange {State : Type} : Type := mkChange {
  actor : option Actor;
  action : AuditAction;
  targetType : string;
  targetId : string;
  before : option State;
  after : option State;
  reason : option string }.
Arguments RecordChange : clear implicits.
Arguments mkChange {State}.

Definition asOwnAction (e : RecordedEntry) : ActivityRecord :=
  mkActivity (rec_id e) (rec_action e) (rec_targetType e) (rec_reason e) (rec_ipAddress e)
    (rec_sessionId e) (rec_createdAt e) subject.

Definition asDisclosure (e : DisclosedEntry) : ActivityRecord :=
  mkActivity (dis_id e) (dis_action e) (dis_targetType e) (dis_reason e) None None
    (dis_createdAt e) (if byAnotherUser e then administrator else system).

(** Newest first, ties by id the other way round; on ids, which are lower-case
    hexadecimal in fixed groups, [localeCompare] is the order of characters. *)
Definition newestFirst (a b : ActivityRecord) : Prop :=
  act_createdAt b < act_createdAt a \/
  (act_createdAt a = act_createdAt b /\ String.le (act_id b) (act_id a)).
#[global] Instance newestFirst_dec : RelDecision newestFirst.
Proof. intros a b. unfold newestFirst. apply _. Defined.

Section Service.
Context {Ids : UuidSource} {Pg : PgTypes} {Order : DescOrder}.

Definition record {State} (digest : State -> string) (at_ : instant) (known : string -> bool)
    (c : RecordChange State) : M Trail () :=
  AuditDb.record at_ known
    {| entry_actorId := actor_userId <$> actor c;
       entry_action := action c;
       entry_targetType := targetType c;
       entry_targetId := targetId c;
       beforeHash := digest <$> before c;
       afterHash := digest <$> after c;
       entry_ipAddress := match actor c with Some a => actor_ipAddress a | None => None end;
       entry_sessionId := match actor c with Some a => actor_sessionId a | None => None end;
       entry_reason := reason c |}.

Definition bound (limit : Js.number) : Z :=
  Paging.boundedLimit limit (Paging.mkBounds DEFAULT_ACTIVITY_LIMIT MAX_ACTIVITY_LIMIT).

Definition listForActor (actorId : string) (limit : Js.number) : M Trail (list RecordedEntry) :=
  AuditDb.listForActor actorId (bound limit).

(** What other requests record while an answer is being put together. *)
Variable meanwhile : Trail -> Trail.

Definition activityFor (userId : string) (limit : Z) : M Trail (list ActivityRecord) :=
  own ← AuditDb.listForActor userId limit;
  _ ← modify meanwhile;
  others ← AuditDb.listForSubject userId limit;
  mret (merge_sort newestFirst ((asOwnAction <$> own) ++ (asDisclosure <$> others))).

Definition listActivityFor (userId : string) (limit : Js.number) : M Trail (list ActivityRecord) :=
  let bounded := bound limit in
  rows ← activityFor userId bounded;
  mret (take (Z.to_nat bounded) rows).

Definition exportActivityFor (userId : string) : M Trail (Paging.Page ActivityRecord) :=
  rows ← activityFor userId (Paging.probe EXPORTED_ACTIVITY_LIMIT);
  mret (Paging.fitTo rows EXPORTED_ACTIVITY_LIMIT).
End Service.
End Audit.
