(* ===== verification/AuditTheorems.v ===== *)
(** * The audit trail: what a reader of it sees

    An activity page is the newest entries of both halves of a person's history,
    though each half is cut before the two are merged; an export says when it was
    cut; and what is withheld is withheld on every row. *)

From S2P Require Import Prelude JsNumber Text Columns Ledger Bookings AuditLog.

#[local] Open Scope string_scope.
#[local] Open Scope list_scope.
#[local] Open Scope Z_scope.

Import AuditDb Audit.

(** ** The newest of two cut lists *)

(** [top k n xs all]: [xs] are the [n] rows of [all] with the greatest keys. *)
Definition top {A} (k : A -> Z) (n : nat) (xs all : list A) : Prop :=
  length xs = Nat.min n (length all) /\ StronglySorted (fun x y => k y <= k x) xs /\
  exists left, xs ++ left ≡ₚ all /\ forall x y, x ∈ xs -> y ∈ left -> k y <= k x.

Section top.
Context {A : Type} (k : A -> Z).

Lemma StronglySorted_app_le (l1 l2 : list A) (x y : A) :
  StronglySorted (fun x y => k y <= k x) (l1 ++ l2) -> x ∈ l1 -> y ∈ l2 -> k y <= k x.
Proof.
  induction l1 as [|z l1 IH]; cbn; [by intros _ ?%not_elem_of_nil|].
  intros [Hs Hz]%StronglySorted_inv. rewrite Forall_forall in Hz.
  intros [->|Hx]%elem_of_cons Hy; [|by apply IH]. apply Hz, elem_of_app. by right.
Qed.

Lemma StronglySorted_take (R : A -> A -> Prop) (n : nat) (l : list A) :
  StronglySorted R l -> StronglySorted R (take n l).
Proof.
  intros Hl. revert n. induction Hl as [|x l Hl IH Hx]; intros [|n]; cbn; constructor; [apply IH|].
  by apply Forall_take.
Qed.

(** Rows beyond the cut of one half are no greater than anything that survives
    the cut of the merge: the [n] rows kept before them would be greater too. *)
Lemma cut_is_small (n : nat) (a s other : list A) (x y : A) :
  StronglySorted (fun x y => k y <= k x) a -> StronglySorted (fun x y => k y <= k x) s ->
  s ≡ₚ take n a ++ other -> x ∈ take n s -> y ∈ drop n a -> k y <= k x.
Proof.
  intros Ha Hs Hp Hx Hy. destruct (decide (k y <= k x)) as [|Hlt]; [done|exfalso].
  assert (n <= length a)%nat as Hn.
  { destruct (decide (n <= length a)%nat); [done|]. rewrite drop_ge in Hy by lia.
    by apply not_elem_of_nil in Hy. }
  set (p := fun z => bool_decide (k x < k z)).
  assert (n <= length (List.filter p s))%nat as Hge.
  { rewrite (Permutation_length (l' := List.filter p (take n a ++ other))).
    - rewrite List.filter_app, length_app, forallb_filter_id.
      + rewrite length_take. lia.
      + apply forallb_forall. intros z Hz%list_elem_of_In. apply bool_decide_eq_true_2.
        pose proof (StronglySorted_app_le (take n a) (drop n a) z y) as H.
        rewrite take_drop in H. specialize (H Ha Hz Hy). lia.
    - clear -Hp. induction Hp; cbn; repeat case_match; eauto using Permutation. }
  apply list_elem_of_split in Hx as (l1 & l2 & Hl).
  assert (length l1 < n)%nat as Hl1.
  { apply (f_equal length) in Hl. rewrite length_take, length_app in Hl. cbn in Hl. lia. }
  rewrite <- (take_drop n s), Hl, <- app_assoc, List.filter_app, length_app in Hge.
  rewrite (filter_none p ((x :: l2) ++ drop n s)) in Hge.
  - cbn in Hge. pose proof (List.filter_length_le p l1). lia.
  - rewrite <- (take_drop n s), Hl, <- app_assoc in Hs.
    assert (StronglySorted (fun x y => k y <= k x) ((x :: l2) ++ drop n s)) as Hs2.
    { clear -Hs. induction l1; [done|]. cbn in Hs. apply StronglySorted_inv in Hs as [Hs _]. by apply IHl1. }
    cbn in Hs2. apply StronglySorted_inv in Hs2 as [_ Hall]. rewrite Forall_forall in Hall.
    intros z [->|Hz]%elem_of_cons; apply bool_decide_eq_false_2; [lia|]. specialize (Hall z Hz). cbn in Hall. lia.
Qed.

Lemma top_of_tops (n : nat) (a b s : list A) :
  StronglySorted (fun x y => k y <= k x) a -> StronglySorted (fun x y => k y <= k x) b ->
  StronglySorted (fun x y => k y <= k x) s -> s ≡ₚ take n a ++ take n b ->
  top k n (take n s) (a ++ b).
Proof.
  intros Ha Hb Hs Hp. split; [|split; [by apply StronglySorted_take|]].
  { rewrite length_take, Hp, !length_app, !length_take. lia. }
  exists (drop n s ++ drop n a ++ drop n b). split.
  - rewrite app_assoc, take_drop, Hp.
    rewrite <- (take_drop n a) at 3. rewrite <- (take_drop n b) at 3. solve_Permutation.
  - intros x y Hx [Hy|[Hy|Hy]%elem_of_app]%elem_of_app.
    + apply (StronglySorted_app_le (take n s) (drop n s)); [by rewrite take_drop|done..].
    + by apply (cut_is_small n a s (take n b)).
    + apply (cut_is_small n b s (take n a)); [done..|by rewrite Hp, Permutation_app_comm|done|done].
Qed.
End top.

(** ** What a person may see of their own history *)
Section Activity.
Context {Ids : UuidSource} {Pg : PgTypes} {Order : DescOrder}.

(** What [u] did is shown whole; what was done to [u] without who did it, from
    where or in which session. *)
Definition own_view (r : AuditRow) : ActivityRecord :=
  mkActivity (audit_id r) (entry_action (audited r)) (entry_targetType (audited r))
    (entry_reason (audited r)) (entry_ipAddress (audited r)) (entry_sessionId (audited r))
    (audit_createdAt r) subject.
Definition other_view (r : AuditRow) : ActivityRecord :=
  mkActivity (audit_id r) (entry_action (audited r)) (entry_targetType (audited r))
    (entry_reason (audited r)) None None (audit_createdAt r)
    (match entry_actorId (audited r) with Some _ => administrator | None => system end).

(** Everything [u] did by [t], and everything done to [u] by [t']. *)
Definition history (u : string) (t t' : Trail) : list ActivityRecord :=
  (own_view <$> List.filter (acted u) (entries t)) ++
  (other_view <$> List.filter (disclosed u) (entries t')).

Lemma own_view_recorded (r : AuditRow) : asOwnAction (toRecorded r) = own_view r.
Proof. done. Qed.

Lemma other_view_disclosed (r : AuditRow) : asDisclosure (toDisclosed r) = other_view r.
Proof. unfold asDisclosure, other_view, toDisclosed. cbn. by destruct (entry_actorId _). Qed.

#[local] Instance newestFirst_total : Total newestFirst.
Proof.
  intros a b. unfold newestFirst. destruct (decide (act_createdAt a = act_createdAt b)) as [He|].
  - destruct (total String.le (act_id b) (act_id a)); [left|right]; right; by split.
  - destruct (decide (act_createdAt b < act_createdAt a)); [left|right]; left; lia.
Qed.
#[local] Instance newestFirst_trans : Transitive newestFirst.
Proof.
  intros a b c. unfold newestFirst. intros [H1|[H1 H1']] [H2|[H2 H2']]; [left; lia..|].
  right. split; [lia|]. by etrans.
Qed.

Lemma StronglySorted_impl {A} (R R' : A -> A -> Prop) (l : list A) :
  (forall x y, R x y -> R' x y) -> StronglySorted R l -> StronglySorted R' l.
Proof. intros H. induction 1 as [|x l Hl IH Hx]; constructor; [done|]. eapply Forall_impl; [exact Hx|]. apply H. Qed.

Lemma StronglySorted_view {B} (g : AuditRow -> B) (kb : B -> Z) (l : list AuditRow) :
  (forall r, kb (g r) = audit_createdAt r) ->
  StronglySorted (fun x y => kb y <= kb x) (g <$> order_desc audit_createdAt l).
Proof.
  intros Hg. pose proof (order_desc_sorted _ audit_createdAt l) as H.
  induction H as [|x r H IH Hx]; cbn; constructor; [done|]. apply Forall_fmap.
  eapply Forall_impl; [exact Hx|]. intros y Hy. cbn. by rewrite !Hg.
Qed.

Lemma activityFor_run (meanwhile : Trail -> Trail) (u u' : string) (limit : Z) (t : Trail) :
  uuid_in u = Some u' ->
  activityFor meanwhile u limit t =
    (meanwhile t, Ok (merge_sort newestFirst
       (take (Z.to_nat limit) (own_view <$> order_desc audit_createdAt (List.filter (acted u') (entries t))) ++
        take (Z.to_nat limit) (other_view <$>
          order_desc audit_createdAt (List.filter (disclosed u') (entries (meanwhile t))))))).
Proof.
  intros Hu. unfold activityFor, AuditDb.listForActor, listForSubject, as_uuid. rewrite Hu. unfold_M.
  unfold newest. rewrite <- !fmap_take, <- !list_fmap_compose.
  do 4 f_equal. by apply list_fmap_ext; intros i r _; apply other_view_disclosed.
Qed.

(** The [n] newest entries of a history. *)
Lemma activityFor_newest (meanwhile : Trail -> Trail) (u u' : string) (limit : Z) (t t' : Trail)
    (rows : list ActivityRecord) :
  uuid_in u = Some u' -> activityFor meanwhile u limit t = (t', Ok rows) ->
  StronglySorted newestFirst rows /\
  top act_createdAt (Z.to_nat limit) (take (Z.to_nat limit) rows) (history u' t t') /\
  length rows = (Nat.min (Z.to_nat limit) (length (List.filter (acted u') (entries t))) +
                 Nat.min (Z.to_nat limit) (length (List.filter (disclosed u') (entries t'))))%nat.
Proof.
  intros Hu. rewrite (activityFor_run meanwhile u u') by done. intros [= <- <-].
  split; [by apply (StronglySorted_merge_sort newestFirst)|split].
  - assert (forall a b c d : list ActivityRecord, a ≡ₚ b -> c ≡ₚ d ->
      forall n xs, top act_createdAt n xs (a ++ c) -> top act_createdAt n xs (b ++ d)) as Hperm.
    { intros a b c d Hab Hcd n xs (Hl & Hs & left_ & Hp & Hle). split; [|split; [done|]].
      - by rewrite Hl, Hab, Hcd.
      - exists left_. split; [|done]. by rewrite Hp, Hab, Hcd. }
    eapply Hperm; [..|apply top_of_tops].
    1,2: apply fmap_Permutation, order_desc_Permutation.
    1,2: by apply StronglySorted_view.
    + eapply StronglySorted_impl; [|apply (StronglySorted_merge_sort newestFirst)].
      unfold newestFirst. intros; lia.
    + apply merge_sort_Permutation.
  - rewrite merge_sort_Permutation, length_app, !length_take, !length_fmap.
    by rewrite !order_desc_Permutation.
Qed.

Lemma activityFor_runs (meanwhile : Trail -> Trail) (u u' : string) (n : Z) (t : Trail) :
  uuid_in u = Some u' -> exists t' rows, activityFor meanwhile u n t = (t', Ok rows).
Proof.
  intros Hu. unfold activityFor, AuditDb.listForActor, AuditDb.listForSubject, as_uuid.
  rewrite !Hu. unfold_M. by do 2 eexists.
Qed.

(** A page of one's activity is always returned, holds the newest entries of what one did
    and what was done to one, in order, at most as many as were asked for (held between 1
    and 200, whatever the number), and never shows anybody else's address or session. *)
Theorem activity_page_is_newest (meanwhile : Trail -> Trail) (u u' : string) (limit : Js.number) (t : Trail) :
  uuid_in u = Some u' -> exists t' page, listActivityFor meanwhile u limit t = (t', Ok page) /\
  (1 <= bound limit <= MAX_ACTIVITY_LIMIT) /\ StronglySorted newestFirst page /\
  top act_createdAt (Z.to_nat (bound limit)) page (history u' t t') /\
  (forall r, r ∈ page -> by_ r <> subject -> act_ipAddress r = None /\ act_sessionId r = None).
Proof.
  intros Hu. destruct (activityFor_runs meanwhile u u' (bound limit) t Hu) as (t' & rows & Hrows).
  exists t', (take (Z.to_nat (bound limit)) rows). split; [unfold listActivityFor; by rewrite bind_at, Hrows|].
  destruct (activityFor_newest _ _ _ _ _ _ _ Hu Hrows) as (Hs & Htop & _).
  split; [|split; [by apply StronglySorted_take|split; [done|]]].
  - unfold bound, Paging.boundedLimit, MAX_ACTIVITY_LIMIT, DEFAULT_ACTIVITY_LIMIT. cbn. destruct (Js.trunc limit); lia.
  - destruct Htop as (_ & _ & left_ & Hp & _). intros r Hr Hby.
    assert (r ∈ history u' t t') as Hin by (rewrite <- Hp; apply elem_of_app; by left).
    unfold history in Hin. apply elem_of_app in Hin as [Hin|Hin];
      apply list_elem_of_fmap in Hin as (x & -> & _); [by destruct Hby|done].
Qed.

Theorem export_says_when_cut (meanwhile : Trail -> Trail) (u u' : string) (t : Trail) :
  uuid_in u = Some u' -> exists t' page, exportActivityFor meanwhile u t = (t', Ok page) /\
  top act_createdAt (Z.to_nat EXPORTED_ACTIVITY_LIMIT) (Paging.items page) (history u' t t') /\
  Paging.truncated page = (EXPORTED_ACTIVITY_LIMIT <? Z.of_nat (length (history u' t t'))).
Proof.
  intros Hu. destruct (activityFor_runs meanwhile u u' (Paging.probe EXPORTED_ACTIVITY_LIMIT) t Hu)
    as (t' & rows & Hrows).
  exists t', (Paging.fitTo rows EXPORTED_ACTIVITY_LIMIT).
  split; [unfold exportActivityFor; by rewrite bind_at, Hrows|].
  destruct (activityFor_newest _ _ _ _ _ _ _ Hu Hrows) as (Hs & (_ & Hs' & left_ & Hp & Hle) & Hlen).
  unfold Paging.fitTo, Paging.probe in *. cbn [Paging.items Paging.truncated].
  assert (length (history u' t t') = (length (List.filter (acted u') (entries t)) +
    length (List.filter (disclosed u') (entries t')))%nat) as Hh
    by (unfold history; by rewrite length_app, !length_fmap).
  unfold EXPORTED_ACTIVITY_LIMIT in *. rewrite Hh.
  split; [|rewrite Hlen; apply eq_true_iff_eq; rewrite !Z.ltb_lt; lia].
  set (n := Z.to_nat 1000). set (N := Z.to_nat (1000 + 1)) in *.
  assert (n <= N)%nat as HnN by (unfold n, N; lia).
  assert (take n rows = take n (take N rows)) as Htt
    by (rewrite take_take, Nat.min_l by lia; done).
  split; [|split; [rewrite Htt; by apply StronglySorted_take|]].
  - rewrite length_take, Hlen, Hh. lia.
  - exists (drop n (take N rows) ++ left_). split.
    + by rewrite app_assoc, Htt, take_drop.
    + intros x y Hx [Hy|Hy]%elem_of_app.
      * eapply (StronglySorted_app_le act_createdAt (take n (take N rows)));
          [by rewrite take_drop|by rewrite <- Htt|done].
      * apply Hle; [|done]. rewrite <- (take_drop n (take N rows)), <- Htt.
        apply elem_of_app. by left.
Qed.
End Activity.
