(* ===== verification/IdentityStore.v ===== *)
(** * Accounts in Postgres ([apps/api/src/identity/prisma-identity-store.ts],
    [prisma-admin-approval-store.ts], [prisma-authentication-events.ts] and their
    migrations)

    [Module IdentityDb]: the tables [users], [admin_approvals], [webhook_events],
    [authentication_events] and [audit_logs], with the unique indexes, CHECKs and
    foreign keys, and the four adapters.  Every statement is atomic; the approval
    transaction locks the row it claims, so it is one step too. *)

From S2P Require Import Prelude JsNumber Text Columns Ledger Bookings AuditLog.

#[local] Open Scope string_scope.
#[local] Open Scope list_scope.
#[local] Open Scope Z_scope.

Module IdentityDb.
Import AuditDb (Trail, empty_trail, Actor).

Inductive UserRole : Type := USER | ADMIN.
#[global] Instance UserRole_eq_dec : EqDecision UserRole.
Proof. solve_decision. Defined.
Definition role_name (r : UserRole) : string := match r with USER => "USER" | ADMIN => "ADMIN" end.

(** ** Rows *)
Record UserRow : Type := mkUser {
  user_id : string;
  user_clerkUserId : string;
  user_email : string;
  user_role : UserRole;
  user_deletedAt : option instant;
  user_deletionRequestedAt : option instant;
  user_suspendedAt : option instant;
  user_suspendedById : option string;
  user_suspensionReason : option string;
  user_createdAt : instant }.

Record ApprovalRow : Type := mkApproval {
  appr_id : string;
  appr_action : string;
  appr_targetType : string;
  appr_targetId : string;
  appr_payload : list (string * string);
  appr_proposedById : string;
  appr_proposedReason : string;
  appr_proposedAt : instant;
  appr_expiresAt : instant;
  appr_approvedById : option string;
  appr_approvedReason : option string;
  appr_approvedAt : option instant;
  appr_cancelledById : option string;
  appr_cancelledReason : option string;
  appr_cancelledAt : option instant }.

Record DeliveryRow : Type := mkDelivery {
  del_provider : string;
  del_externalId : string;
  del_eventType : string;
  del_receivedAt : instant;
  del_processedAt : option instant }.

Inductive AuthenticationEventType : Type := started | ended | removed | revoked.
#[global] Instance AuthenticationEventType_eq_dec : EqDecision AuthenticationEventType.
Proof. solve_decision. Defined.

Record SessionActivity : Type := mkSession {
  act_ip : option string;
  browserName : option string;
  browserVersion : option string;
  deviceType : option string;
  isMobile : option bool }.

Definition NO_SESSION_ACTIVITY : SessionActivity := mkSession None None None None None.

Record SignInRow : Type := mkSignIn {
  sign_id : string;
  sign_userId : string;
  sign_clerkSessionId : string;
  sign_event : AuthenticationEventType;
  sign_occurredAt : instant;
  sign_activity : SessionActivity }.

Record Db : Type := mkDb {
  users : list UserRow;
  approvals : list ApprovalRow;
  deliveries : list DeliveryRow;
  signIns : list SignInRow;
  trail : Trail;
  iseq : nat;
  iclock : instant }.

Definition empty_db (t : instant) : Db := mkDb [] [] [] [] empty_trail 0 t.

Definition with_users (l : list UserRow) (db : Db) : Db :=
  mkDb l (approvals db) (deliveries db) (signIns db) (trail db) (iseq db) (iclock db).
Definition with_approvals (l : list ApprovalRow) (db : Db) : Db :=
  mkDb (users db) l (deliveries db) (signIns db) (trail db) (iseq db) (iclock db).
Definition with_deliveries (l : list DeliveryRow) (db : Db) : Db :=
  mkDb (users db) (approvals db) l (signIns db) (trail db) (iseq db) (iclock db).
Definition with_signIns (l : list SignInRow) (db : Db) : Db :=
  mkDb (users db) (approvals db) (deliveries db) l (trail db) (iseq db) (iclock db).
Definition with_trail (t : Trail) (db : Db) : Db :=
  mkDb (users db) (approvals db) (deliveries db) (signIns db) t (iseq db) (iclock db).
Definition next_id (db : Db) : Db :=
  mkDb (users db) (approvals db) (deliveries db) (signIns db) (trail db) (S (iseq db)) (iclock db).

(** ** Records *)
Record MirroredUser : Type := mkMirrored {
  id : string;
  clerkUserId : string;
  email : string;
  role : UserRole;
  deletedAt : option instant;
  deletionRequestedAt : option instant;
  suspendedAt : option instant;
  suspensionReason : option string;
  createdAt : instant }.

Definition toMirroredUser (r : UserRow) : MirroredUser :=
  mkMirrored (user_id r) (user_clerkUserId r) (user_email r) (user_role r) (user_deletedAt r)
    (user_deletionRequestedAt r) (user_suspendedAt r) (user_suspensionReason r) (user_createdAt r).

Record UpsertResult : Type := mkUpsert { upserted : MirroredUser; created : bool }.

Record UserChanges : Type := mkChanges {
  ch_email : option string;
  ch_deletedAt : option instant;
  ch_deletionRequestedAt : option instant }.

Record Suspension : Type := mkSuspension { susp_at : instant; susp_byId : string; susp_reason : string }.

(** One action so far: [role.changed]. *)
Record ApprovableAction : Type := roleChanged { ac_userId : string; ac_role : UserRole }.
Definition kind (a : ApprovableAction) : string := "role.changed".

Record AdminApproval : Type := mkAdminApproval {
  ap_id : string;
  ap_action : ApprovableAction;
  ap_targetType : string;
  ap_targetId : string;
  ap_proposedById : string;
  ap_proposedReason : string;
  ap_proposedAt : instant;
  ap_expiresAt : instant;
  ap_approvedById : option string;
  ap_approvedReason : option string;
  ap_approvedAt : option instant;
  ap_cancelledById : option string;
  ap_cancelledReason : option string;
  ap_cancelledAt : option instant }.

Inductive ApprovalState : Type := pending | approved | cancelled | expired.
#[global] Instance ApprovalState_eq_dec : EqDecision ApprovalState.
Proof. solve_decision. Defined.
Definition state_word (s : ApprovalState) : string :=
  match s with
  | pending => "pending" | approved => "approved" | cancelled => "cancelled" | expired => "expired"
  end.

Definition approvalState (a : AdminApproval) (now : instant) : ApprovalState :=
  match ap_approvedAt a, ap_cancelledAt a with
  | Some _, _ => approved
  | None, Some _ => cancelled
  | None, None => if ap_expiresAt a <=? now then expired else pending
  end.

Record ProposeApproval : Type := mkPropose {
  pr_action : ApprovableAction;
  pr_targetType : string;
  pr_targetId : string;
  pr_proposedById : string;
  pr_proposedReason : string;
  pr_expiresAt : instant }.

Record ApprovalDecision : Type := mkDecision {
  dc_approvalId : string;
  dc_byId : string;
  dc_reason : string;
  dc_at : instant }.

Record WebhookDelivery : Type := mkWebhook { wh_provider : string; wh_externalId : string; wh_eventType : string }.

Record AuthenticationEventRecord : Type := mkAuthEvent {
  ae_userId : string;
  ae_clerkSessionId : string;
  ae_event : AuthenticationEventType;
  ae_occurredAt : instant;
  ae_activity : SessionActivity }.

Record RecordedAuthenticationEvent : Type := mkRecordedEvent {
  re_id : string;
  re_clerkSessionId : string;
  re_event : AuthenticationEventType;
  re_occurredAt : instant;
  re_activity : SessionActivity }.

(** ** Actions as JSON *)
Definition member (k : string) (payload : list (string * string)) : option string :=
  snd <$> find_by fst k payload.

Definition toPayload (a : ApprovableAction) : list (string * string) :=
  [("userId", ac_userId a); ("role", role_name (ac_role a))].

Definition toAction (action : string) (payload : list (string * string)) : result ApprovableAction :=
  if negb (bool_decide (action = "role.changed")) then Err (ForeignError "unknown approvable action: ")
  else
    match member "userId" payload, member "role" payload with
    | Some u, Some r =>
        if bool_decide (r = "ADMIN") then Ok (roleChanged u ADMIN)
        else if bool_decide (r = "USER") then Ok (roleChanged u USER)
        else Err (ForeignError "malformed payload for ")
    | _, _ => Err (ForeignError "malformed payload for ")
    end.

Definition toApproval (r : ApprovalRow) : result AdminApproval :=
  a ← toAction (appr_action r) (appr_payload r);
  Ok (mkAdminApproval (appr_id r) a (appr_targetType r) (appr_targetId r) (appr_proposedById r)
        (appr_proposedReason r) (appr_proposedAt r) (appr_expiresAt r) (appr_approvedById r)
        (appr_approvedReason r) (appr_approvedAt r) (appr_cancelledById r)
        (appr_cancelledReason r) (appr_cancelledAt r)).

(** ** Constraints *)

Definition is_set {A} (o : option A) : bool := match o with Some _ => true | None => false end.

(** [suspension_is_complete] *)
Definition suspension_is_complete (r : UserRow) : bool :=
  Bool.eqb (is_set (user_suspendedAt r)) (is_set (user_suspensionReason r)).

(** [approver_is_not_proposer], [approval_is_complete], [cancellation_is_complete],
    [outcome_is_singular] *)
Definition approval_refusal (r : ApprovalRow) : option string :=
  if bool_decide (appr_approvedById r = Some (appr_proposedById r)) then Some "approver_is_not_proposer"
  else if negb (Bool.eqb (is_set (appr_approvedById r)) (is_set (appr_approvedAt r)) &&
                Bool.eqb (is_set (appr_approvedById r)) (is_set (appr_approvedReason r)))
  then Some "approval_is_complete"
  else if negb (Bool.eqb (is_set (appr_cancelledById r)) (is_set (appr_cancelledAt r)) &&
                Bool.eqb (is_set (appr_cancelledById r)) (is_set (appr_cancelledReason r)))
  then Some "cancellation_is_complete"
  else if is_set (appr_approvedAt r) && is_set (appr_cancelledAt r) then Some "outcome_is_singular"
  else None.

Definition by_user_id (i : string) (db : Db) : option UserRow := find_by user_id i (users db).
Definition by_clerk_id (c : string) (db : Db) : option UserRow := find_by user_clerkUserId c (users db).
Definition known (db : Db) (i : string) : bool := is_set (by_user_id i db).

Definition UNIQUE_VIOLATION : string := "P2002".
Definition NOT_FOUND : string := "P2025".
Definition isUniqueViolation (e : error) : bool := bool_decide (e = DatabaseError UNIQUE_VIOLATION).

(** The emails of other rows, as [citext] compares them. *)
Definition email_taken (i e : string) (db : Db) : bool :=
  existsb (fun r => negb (bool_decide (user_id r = i)) && bool_decide (lower (user_email r) = lower e))
    (users db).

Section Store.
Context {Ids : UuidSource} {Pg : PgTypes} {Order : DescOrder}.

(** ** Statements on [users] *)
Definition user_for (clerk e : string) (db : Db) : UserRow :=
  mkUser (uuid (iseq db)) clerk e USER None None None None None (iclock db).

Definition insert_user (clerk e : string) : M Db UserRow := fun db =>
  let r := user_for clerk e db in
  if is_set (by_clerk_id clerk db) || email_taken (user_id r) e db
  then (db, Err (DatabaseError UNIQUE_VIOLATION))
  else (next_id (with_users (users db ++ [r]) db), Ok r).

Definition replaced (r : UserRow) (l : list UserRow) : list UserRow :=
  (fun x => if bool_decide (user_id x = user_id r) then r else x) <$> l.

(** [user.update] on a primary key, with the columns [f] sets. *)
Definition update_user (i : string) (f : UserRow -> UserRow) : M Db UserRow :=
  u ← as_uuid i;
  found ← gets (by_user_id u);
  match found with
  | None => throw (DatabaseError NOT_FOUND)
  | Some r =>
      let r' := f r in
      taken ← gets (email_taken u (user_email r'));
      dangling ← gets (fun db => match user_suspendedById r' with Some a => negb (known db a) | None => false end);
      if (taken : bool) then throw (DatabaseError UNIQUE_VIOLATION)
      else if negb (suspension_is_complete r') then throw (DatabaseError "suspension_is_complete")
      else if (dangling : bool) then throw (DatabaseError "users_suspendedById_fkey")
      else _ ← modify (fun db => with_users (replaced r' (users db)) db); mret r'
  end.

Definition or_else {A} (o : option A) (a : option A) : option A :=
  match o with Some _ => o | None => a end.

Definition set_changes (c : UserChanges) (r : UserRow) : UserRow :=
  mkUser (user_id r) (user_clerkUserId r)
    (match ch_email c with Some e => e | None => user_email r end) (user_role r)
    (or_else (ch_deletedAt c) (user_deletedAt r))
    (or_else (ch_deletionRequestedAt c) (user_deletionRequestedAt r))
    (user_suspendedAt r) (user_suspendedById r) (user_suspensionReason r) (user_createdAt r).

Definition set_suspension (at_ : option instant) (byId why : option string) (r : UserRow) : UserRow :=
  mkUser (user_id r) (user_clerkUserId r) (user_email r) (user_role r) (user_deletedAt r)
    (user_deletionRequestedAt r) at_ byId why (user_createdAt r).

Definition set_role (x : UserRole) (r : UserRow) : UserRow :=
  mkUser (user_id r) (user_clerkUserId r) (user_email r) x (user_deletedAt r)
    (user_deletionRequestedAt r) (user_suspendedAt r) (user_suspendedById r)
    (user_suspensionReason r) (user_createdAt r).

(** ** [PrismaUserDirectory] *)
Definition findByClerkUserId (c : string) (db : Db) : option MirroredUser :=
  toMirroredUser <$> by_clerk_id c db.

Definition findById (i : string) : M Db (option MirroredUser) :=
  if negb (isAccountId i) then mret None
  else u ← as_uuid i; row ← gets (by_user_id u); mret (toMirroredUser <$> row).

(** [rival] is what other connections commit between the adapter's statements. *)
Definition upsert (rival : Db -> Db) (clerk e : string) : M Db UpsertResult :=
  existing ← gets (findByClerkUserId clerk);
  match existing with
  | Some u => mret (mkUpsert u false)
  | None =>
      _ ← modify rival;
      catch (row ← insert_user clerk e; mret (mkUpsert (toMirroredUser row) true))
        (fun err =>
           if negb (isUniqueViolation err) then throw err
           else
             _ ← modify rival;
             raced ← gets (findByClerkUserId clerk);
             match raced with
             | Some u => mret (mkUpsert u false)
             | None => throw UserConflictError
             end)
  end.

Definition usable_administrator (r : UserRow) : bool :=
  bool_decide (user_role r = ADMIN) && negb (is_set (user_deletedAt r)) && negb (is_set (user_suspendedAt r)).

Definition countAdministrators (db : Db) : nat := length (List.filter usable_administrator (users db)).

Definition setSuspension (i : string) (s : option Suspension) : M Db MirroredUser :=
  by_ ← as_uuid_opt (susp_byId <$> s);
  row ← update_user i (set_suspension (susp_at <$> s) by_ (susp_reason <$> s));
  mret (toMirroredUser row).

Definition update (i : string) (changes : UserChanges) : M Db MirroredUser :=
  catch (row ← update_user i (set_changes changes); mret (toMirroredUser row))
    (fun err => if isUniqueViolation err then throw UserConflictError else throw err).

(** ** [PrismaWebhookLedger] *)
Definition delivery_key (d : DeliveryRow) : string * string := (del_provider d, del_externalId d).

Definition claim (d : WebhookDelivery) : M Db bool := fun db =>
  if is_set (find_by delivery_key (wh_provider d, wh_externalId d) (deliveries db)) then (db, Ok false)
  else (with_deliveries (deliveries db ++
          [mkDelivery (wh_provider d) (wh_externalId d) (wh_eventType d) (iclock db) None]) db, Ok true).

Definition markProcessed (provider externalId : string) : M Db () := fun db =>
  if is_set (find_by delivery_key (provider, externalId) (deliveries db)) then
    (with_deliveries ((fun d => if bool_decide (delivery_key d = (provider, externalId))
        then mkDelivery (del_provider d) (del_externalId d) (del_eventType d) (del_receivedAt d)
               (Some (iclock db))
        else d) <$> deliveries db) db, Ok tt)
  else (db, Err (DatabaseError NOT_FOUND)).

(** ** [PrismaAdminApprovalStore] *)
Definition by_approval_id (i : string) (db : Db) : option ApprovalRow := find_by appr_id i (approvals db).

Definition proposed (p : ProposeApproval) (target by_ : string) (db : Db) : ApprovalRow :=
  mkApproval (uuid (iseq db)) (kind (pr_action p)) (pr_targetType p) target (toPayload (pr_action p))
    by_ (pr_proposedReason p) (iclock db) (pr_expiresAt p) None None None None None None.

Definition propose (p : ProposeApproval) : M Db AdminApproval :=
  target ← as_uuid (pr_targetId p);
  by_ ← as_uuid (pr_proposedById p);
  row ← gets (proposed p target by_);
  exists_ ← gets (fun db => known db by_);
  if negb exists_ then throw (DatabaseError "admin_approvals_proposedById_fkey")
  else
    _ ← modify (fun db => next_id (with_approvals (approvals db ++ [row]) db));
    lift (toApproval row).

Definition find (i : string) : M Db (option AdminApproval) :=
  u ← as_uuid i;
  row ← gets (by_approval_id u);
  match row with
  | None => mret None
  | Some r => a ← lift (toApproval r); mret (Some a)
  end.

Definition undecided (r : ApprovalRow) : bool :=
  negb (is_set (appr_approvedAt r)) && negb (is_set (appr_cancelledAt r)).

Definition listPending (now : instant) (limit : nat) : M Db (list AdminApproval) :=
  rows ← gets (fun db => take limit (order_desc appr_proposedAt
            (List.filter (fun r => undecided r && (now <? appr_expiresAt r)) (approvals db))));
  lift (try_map toApproval rows).

Definition set_approved (by_ why : string) (at_ : instant) (r : ApprovalRow) : ApprovalRow :=
  mkApproval (appr_id r) (appr_action r) (appr_targetType r) (appr_targetId r) (appr_payload r)
    (appr_proposedById r) (appr_proposedReason r) (appr_proposedAt r) (appr_expiresAt r)
    (Some by_) (Some why) (Some at_)
    (appr_cancelledById r) (appr_cancelledReason r) (appr_cancelledAt r).

Definition set_cancelled (by_ why : string) (at_ : instant) (r : ApprovalRow) : ApprovalRow :=
  mkApproval (appr_id r) (appr_action r) (appr_targetType r) (appr_targetId r) (appr_payload r)
    (appr_proposedById r) (appr_proposedReason r) (appr_proposedAt r) (appr_expiresAt r)
    (appr_approvedById r) (appr_approvedReason r) (appr_approvedAt r)
    (Some by_) (Some why) (Some at_).

(** [adminApproval.updateMany] on a primary key and [p]: the row it changed. *)
Definition claim_approval (i by_ : string) (p : ApprovalRow -> bool) (f : ApprovalRow -> ApprovalRow)
  : M Db (option ApprovalRow) :=
  found ← gets (by_approval_id i);
  match found with
  | None => mret None
  | Some r =>
      if negb (p r) then mret None
      else
        exists_ ← gets (fun db => known db by_);
        match approval_refusal (f r) with
        | Some c => throw (DatabaseError c)
        | None =>
            if negb exists_ then throw (DatabaseError "admin_approvals_approvedById_fkey")
            else
              _ ← modify (fun db => with_approvals
                    ((fun x => if bool_decide (appr_id x = appr_id r) then f r else x) <$> approvals db) db);
              mret (Some (f r))
        end
  end.

Definition NO_LONGER_PENDING : string := "the proposal is no longer pending".

(** [apply]: the effect of an approved action. *)
Definition apply (a : ApprovableAction) : M Db () :=
  _ ← update_user (ac_userId a) (set_role (ac_role a)); mret tt.

Definition approveAndApply (d : ApprovalDecision) : M Db AdminApproval :=
  transaction
    (i ← as_uuid (dc_approvalId d);
     by_ ← as_uuid (dc_byId d);
     claimed ← claim_approval i by_
       (fun r => undecided r && (dc_at d <? appr_expiresAt r) &&
                 negb (bool_decide (appr_proposedById r = by_)))
       (set_approved by_ (dc_reason d) (dc_at d));
     match claimed with
     | None => throw (ApprovalConflictError NO_LONGER_PENDING)
     | Some row =>
         approval ← lift (toApproval row);
         _ ← apply (ap_action approval);
         mret approval
     end).

(** The row is read back by id: what others commit between the two statements
    does not change a decided row. *)
Definition cancel (d : ApprovalDecision) : M Db AdminApproval :=
  i ← as_uuid (dc_approvalId d);
  by_ ← as_uuid (dc_byId d);
  claimed ← claim_approval i by_ undecided (set_cancelled by_ (dc_reason d) (dc_at d));
  match claimed with
  | None => throw (ApprovalConflictError NO_LONGER_PENDING)
  | Some row => lift (toApproval row)
  end.

(** ** [PrismaAuthenticationEvents] *)
Definition sign_key (r : SignInRow) : string * AuthenticationEventType := (sign_clerkSessionId r, sign_event r).

(** The [upsert] is one [INSERT ... ON CONFLICT DO NOTHING]. *)
Definition insert_sign_in (u : string) (e : AuthenticationEventRecord) : M Db () := fun db =>
  let a := ae_activity e in
  if is_set (find_by sign_key (ae_clerkSessionId e, ae_event e) (signIns db)) then (db, Ok tt)
  else if negb (known db u) then (db, Err (DatabaseError "authentication_events_userId_fkey"))
  else (next_id (with_signIns (signIns db ++
          [mkSignIn (uuid (iseq db)) u (ae_clerkSessionId e) (ae_event e) (ae_occurredAt e)
             (mkSession (validIpOrNull (act_ip a)) (browserName a) (browserVersion a) (deviceType a)
                (isMobile a))]) db), Ok tt).

Definition record (e : AuthenticationEventRecord) : M Db () :=
  u ← as_uuid (ae_userId e); insert_sign_in u e.

Definition listFor (userId : string) (limit : nat) : M Db (list RecordedAuthenticationEvent) :=
  u ← as_uuid userId;
  rows ← gets (fun db => take limit (order_desc sign_occurredAt
            (List.filter (fun r => bool_decide (sign_userId r = u)) (signIns db))));
  mret ((fun r => mkRecordedEvent (sign_id r) (sign_clerkSessionId r) (sign_event r) (sign_occurredAt r)
                    (sign_activity r)) <$> rows).

Definition redacted (r : SignInRow) : SignInRow :=
  mkSignIn (sign_id r) (sign_userId r) (sign_clerkSessionId r) (sign_event r) (sign_occurredAt r)
    NO_SESSION_ACTIVITY.

Definition eraseActivity (userId : string) : M Db () :=
  u ← as_uuid userId;
  modify (fun db => with_signIns
    ((fun r => if bool_decide (sign_userId r = u) then redacted r else r) <$> signIns db) db).
End Store.
End IdentityDb.
