(* ===== verification/Identity.v ===== *)
(** * The identity services ([apps/api/src/identity/])

    [Module Identity]: [account-erasure.ts], [identity.service.ts],
    [last-administrator.ts], [account-admin.service.ts], [role-approval.service.ts]
    and what [account-data.service.ts] does beside assembling the export.  The
    state of the other modules is [W]: they are reached through the class
    [IdentityPorts].  Logging is left out. *)

From S2P Require Import Prelude JsNumber Text Columns Ledger Bookings AuditLog.
From S2P Require Import IdentityStore.

#[local] Open Scope string_scope.
#[local] Open Scope list_scope.
#[local] Open Scope Z_scope.

Module Identity.
Import AuditDb (Actor, mkActor, actor_userId, actor_ipAddress, actor_sessionId, AuditAction,
  account_provisioned, account_email_changed, account_deletion_requested, account_suspended,
  account_reinstated, account_exported, admin_user_viewed, admin_approval_proposed,
  admin_approval_granted, admin_approval_cancelled).
Import IdentityDb.

Record World {W : Type} : Type := mkWorld { idb : Db; rest : W }.
Arguments World W : clear implicits.
Arguments mkWorld {W}.

(** What the digests of the trail are taken of. *)
Record AuditableAccount : Type := mkAuditable {
  aud_id : string;
  aud_email : string;
  aud_role : UserRole;
  aud_suspended : bool }.

Definition auditableAccount (u : MirroredUser) : AuditableAccount :=
  mkAuditable (id u) (email u) (role u) (is_set (suspendedAt u)).

(** The other modules: [PersonalDataEraser], [ProfileSummarySource] and the digest. *)
Class IdentityPorts (W : Type) : Type := {
  erase : Actor -> M (World W) ();
  ProfileSummary : Type;
  summaryFor : string -> W -> ProfileSummary;
  digest : AuditableAccount -> string }.

Definition on_db {W A} (m : M Db A) : M (World W) A := fun w =>
  let (s, r) := m (idb w) in (mkWorld s (rest w), r).

Definition now {W} (w : World W) : instant := iclock (idb w).

Record VerifiedSession : Type := mkVerified {
  vs_clerkUserId : string;
  vs_sessionId : string;
  vs_email : string;
  secondFactorAgeMinutes : option Js.number }.

Inductive IdentityEvent : Type :=
  | user_upserted (clerkUserId email : string)
  | user_deleted (clerkUserId : string)
  | session_recorded (clerkUserId clerkSessionId : string) (event : AuthenticationEventType)
      (occurredAt : instant) (activity : SessionActivity).

Definition event_name (e : IdentityEvent) : string :=
  match e with
  | user_upserted _ _ => "user.upserted"
  | user_deleted _ => "user.deleted"
  | session_recorded _ _ _ _ _ => "session.recorded"
  end.

Definition CLERK_PROVIDER : string := "clerk".

Definition tombstoneEmail (userId : string) : string := "deleted+" +:+ userId +:+ "@deleted.invalid".

Definition APPROVAL_WINDOW_HOURS : Z := 24.

Definition DEFAULT_SIGN_IN_LIMIT : Z := 50.
Definition MAX_SIGN_IN_LIMIT : Z := 200.
Definition boundedSignInLimit (limit : Js.number) : Z :=
  Paging.boundedLimit limit (Paging.mkBounds DEFAULT_SIGN_IN_LIMIT MAX_SIGN_IN_LIMIT).

Record AdminUserView {P : Type} : Type := mkView { account : MirroredUser; profile : P }.
Arguments AdminUserView : clear implicits.
Arguments mkView {P}.

Section Services.
Context {Ids : UuidSource} {Pg : PgTypes} {Order : DescOrder} {W : Type} {Ports : IdentityPorts W}.

(** What other requests commit while this one awaits, and between the statements
    of an adapter. *)
Variable rival : World W -> World W.
Variable within : Db -> Db.

Definition await : M (World W) () := modify rival.

(** [AuditService.record], on the trail beside the accounts. *)
Definition audit (actor : option Actor) (action : AuditAction) (targetId : string)
    (before after : option AuditableAccount) (reason : option string) : M (World W) () :=
  _ ← await;
  on_db (fun db =>
    let (t, r) := Audit.record digest (iclock db) (known db)
      (Audit.mkChange actor action "user" targetId before after reason) (trail db) in
    (with_trail t db, r)).

(** ** [AccountErasure] *)
Definition eraseAndTombstone (user : MirroredUser) (actor : Actor) : M (World W) () :=
  _ ← await;
  _ ← erase actor;
  _ ← await;
  _ ← on_db (eraseActivity (id user));
  at_ ← gets now;
  _ ← await;
  deleted ← on_db (update (id user) (mkChanges (Some (tombstoneEmail (id user))) (Some at_) (Some at_)));
  audit (Some actor) account_deletion_requested (id user)
    (Some (auditableAccount user)) (Some (auditableAccount deleted)) None.

(** ** [IdentityService] *)
Definition correctEmail (user : MirroredUser) (e : string) (actor : option Actor)
  : M (World W) MirroredUser :=
  if bool_decide (email user = e) then mret user
  else
    _ ← await;
    corrected ← catch (u ← on_db (update (id user) (mkChanges (Some e) None None)); mret (Some u))
                  (fun err => match err with UserConflictError => mret None | _ => throw err end);
    match corrected with
    | None => mret user
    | Some c =>
        _ ← audit actor account_email_changed (id user)
              (Some (auditableAccount user)) (Some (auditableAccount c)) None;
        mret c
    end.

Definition resolveSession (session : VerifiedSession) (ipAddress : option string)
  : M (World W) MirroredUser :=
  r ← on_db (upsert within (vs_clerkUserId session) (vs_email session));
  let user := upserted r in
  let actor := mkActor (id user) ipAddress (Some (vs_sessionId session)) in
  _ ← (if created r then
         audit (Some actor) account_provisioned (id user) None (Some (auditableAccount user)) None
       else mret tt);
  if is_set (deletedAt user) then throw AccountDeletedError
  else correctEmail user (vs_email session) (Some actor).

Definition findActiveById (i : string) : M (World W) (option MirroredUser) :=
  user ← on_db (findById i);
  mret (match user with
        | None => None
        | Some u => if is_set (deletedAt u) || is_set (suspendedAt u) then None else Some u
        end).

Definition recordAuthenticationEvent (clerk session : string) (event : AuthenticationEventType)
    (occurredAt : instant) (activity : SessionActivity) : M (World W) () :=
  user ← gets (fun w => findByClerkUserId clerk (idb w));
  match user with
  | None => mret tt
  | Some u => _ ← await; on_db (record (mkAuthEvent (id u) session event occurredAt activity))
  end.

Definition apply (event : IdentityEvent) : M (World W) () :=
  match event with
  | session_recorded clerk session ev occurredAt activity =>
      recordAuthenticationEvent clerk session ev occurredAt activity
  | user_upserted clerk e =>
      r ← on_db (upsert within clerk e);
      let user := upserted r in
      _ ← (if created r then
             audit None account_provisioned (id user) None (Some (auditableAccount user)) None
           else mret tt);
      if is_set (deletedAt user) then mret tt
      else _ ← correctEmail user e None; mret tt
  | user_deleted clerk =>
      user ← gets (fun w => findByClerkUserId clerk (idb w));
      match user with
      | None => mret tt
      | Some u =>
          if is_set (deletedAt u) then mret tt else eraseAndTombstone u (mkActor (id u) None None)
      end
  end.

Definition applyEvent (externalId : string) (event : IdentityEvent) : M (World W) bool :=
  claimed ← on_db (claim (mkWebhook CLERK_PROVIDER externalId (event_name event)));
  if negb claimed then mret false
  else
    _ ← await;
    _ ← apply event;
    _ ← await;
    _ ← on_db (markProcessed CLERK_PROVIDER externalId);
    mret true.

(** ** [last-administrator.ts] *)
Definition LAST_ADMINISTRATOR : string := "that is the last administrator — promote somebody else first".

Definition refuseIfLastAdministrator (target : MirroredUser) (becomingRole : option UserRole)
  : M (World W) () :=
  if bool_decide (becomingRole = Some ADMIN) then mret tt
  else if negb (bool_decide (role target = ADMIN)) then mret tt
  else
    _ ← await;
    administrators ← gets (fun w => countAdministrators (idb w));
    if (administrators <=? 1)%nat then throw (ApprovalRefusedError LAST_ADMINISTRATOR) else mret tt.

(** ** [AccountAdminService] *)
Definition adminViewFor (actor : Actor) (userId reason : string)
  : M (World W) (option (AdminUserView ProfileSummary)) :=
  _ ← audit (Some actor) admin_user_viewed userId None None (Some reason);
  _ ← await;
  user ← on_db (findById userId);
  match user with
  | None => mret None
  | Some u => _ ← await; p ← gets (fun w => summaryFor (id u) (rest w)); mret (Some (mkView u p))
  end.

Definition requireSuspendable (actor : Actor) (userId : string) (selfAllowed : bool)
  : M (World W) MirroredUser :=
  if negb selfAllowed && bool_decide (userId = actor_userId actor) then
    throw (ApprovalRefusedError "you cannot suspend yourself — you would not be able to undo it")
  else
    target ← on_db (findById userId);
    match target with
    | None => throw (ApprovalRefusedError "no such account")
    | Some t =>
        if is_set (deletedAt t) then throw (ApprovalRefusedError "that account has been deleted")
        else mret t
    end.

Definition suspend (actor : Actor) (userId reason : string) : M (World W) MirroredUser :=
  target ← requireSuspendable actor userId false;
  if is_set (suspendedAt target) then throw (ApprovalRefusedError "that account is already suspended")
  else
    _ ← refuseIfLastAdministrator target None;
    t ← gets now;
    _ ← await;
    suspended ← on_db (setSuspension (id target) (Some (mkSuspension t (actor_userId actor) reason)));
    _ ← audit (Some actor) account_suspended (id target)
          (Some (auditableAccount target)) (Some (auditableAccount suspended)) (Some reason);
    mret suspended.

Definition reinstate (actor : Actor) (userId reason : string) : M (World W) MirroredUser :=
  target ← requireSuspendable actor userId true;
  if negb (is_set (suspendedAt target)) then throw (ApprovalRefusedError "that account is not suspended")
  else
    _ ← await;
    reinstated ← on_db (setSuspension (id target) None);
    _ ← audit (Some actor) account_reinstated (id target)
          (Some (auditableAccount target)) (Some (auditableAccount reinstated)) (Some reason);
    mret reinstated.

(** ** [RoleApprovalService] *)
Definition proposeRoleChange (actor : Actor) (userId : string) (role_ : UserRole) (reason : string)
  : M (World W) AdminApproval :=
  target ← on_db (findById userId);
  match target with
  | None => throw (ApprovalRefusedError "no such account")
  | Some t =>
      if is_set (deletedAt t) then throw (ApprovalRefusedError "that account has been deleted")
      else if bool_decide (role t = role_) then throw (ApprovalRefusedError "that account is already ")
      else
        _ ← refuseIfLastAdministrator t (Some role_);
        n ← gets now;
        _ ← await;
        proposal ← on_db (propose (mkPropose (roleChanged userId role_) "user" userId
                            (actor_userId actor) reason (Bookings.addHours n APPROVAL_WINDOW_HOURS)));
        _ ← audit (Some actor) admin_approval_proposed userId None None (Some reason);
        mret proposal
  end.

Definition listPendingApprovals (limit : nat) : M (World W) (list AdminApproval) :=
  n ← gets now; on_db (listPending n limit).

Definition requirePending (approvalId : string) : M (World W) AdminApproval :=
  proposal ← on_db (find approvalId);
  match proposal with
  | None => throw (ApprovalRefusedError "no such proposal")
  | Some p =>
      n ← gets now;
      let state := approvalState p n in
      if negb (bool_decide (state = pending)) then
        throw (ApprovalConflictError ("that proposal is already " +:+ state_word state))
      else mret p
  end.

Definition with_role (x : UserRole) (u : MirroredUser) : MirroredUser :=
  mkMirrored (id u) (clerkUserId u) (email u) x (deletedAt u) (deletionRequestedAt u)
    (suspendedAt u) (suspensionReason u) (createdAt u).

Definition approve (actor : Actor) (approvalId reason : string) : M (World W) AdminApproval :=
  proposal ← requirePending approvalId;
  if bool_decide (ap_proposedById proposal = actor_userId actor) then
    throw (ApprovalRefusedError "you proposed this, so somebody else has to approve it")
  else
    _ ← await;
    target ← on_db (findById (ac_userId (ap_action proposal)));
    match target with
    | None => throw (ApprovalRefusedError "that account no longer exists")
    | Some t =>
        if is_set (deletedAt t) then throw (ApprovalRefusedError "that account no longer exists")
        else
          _ ← refuseIfLastAdministrator t (Some (ac_role (ap_action proposal)));
          n ← gets now;
          _ ← await;
          approved ← on_db (approveAndApply (mkDecision approvalId (actor_userId actor) reason n));
          _ ← audit (Some actor) admin_approval_granted (ac_userId (ap_action proposal))
                (Some (auditableAccount t))
                (Some (auditableAccount (with_role (ac_role (ap_action proposal)) t))) (Some reason);
          mret approved
    end.

Definition cancelApproval (actor : Actor) (approvalId reason : string) : M (World W) AdminApproval :=
  proposal ← requirePending approvalId;
  n ← gets now;
  _ ← await;
  cancelled ← on_db (cancel (mkDecision approvalId (actor_userId actor) reason n));
  _ ← audit (Some actor) admin_approval_cancelled (ac_userId (ap_action proposal)) None None (Some reason);
  mret cancelled.

(** ** [AccountDataService] *)
Definition signInsFor (userId : string) (limit : Js.number)
  : M (World W) (list RecordedAuthenticationEvent) :=
  on_db (listFor userId (Z.to_nat (boundedSignInLimit limit))).

Definition requestDeletion (actor : Actor) : M (World W) () :=
  user ← on_db (findById (actor_userId actor));
  match user with
  | None => mret tt
  | Some u => if is_set (deletedAt u) then mret tt else eraseAndTombstone u actor
  end.
End Services.
End Identity.
