(* ===== verification/IdentityProofs.v ===== *)
(** * Identity: requests are sequences of statements

    Every request of the identity services, whatever its rivals do at each await,
    changes the tables by a sequence of statements of the four adapters.  A rival
    is therefore any function that runs statements, chosen by the state it meets:
    which is every interleaving of requests there is.  [acct_wf] is the tables'
    well-formedness and [evolves] what any such sequence can do to them. *)

From S2P Require Import Prelude JsNumber Text Columns Ledger Bookings AuditLog.
From S2P Require Import IdentityStore Identity.

#[local] Open Scope string_scope.
#[local] Open Scope list_scope.
#[local] Open Scope Z_scope.

Import IdentityDb Identity.

(** ** Statements *)
Inductive statement : Type :=
  | SInsertUser (clerk e : string)
  | SUpdate (i : string) (c : UserChanges)
  | SSuspend (i : string) (s : option Suspension)
  | SPropose (p : ProposeApproval)
  | SApprove (d : ApprovalDecision)
  | SCancel (d : ApprovalDecision)
  | SClaim (d : WebhookDelivery)
  | SProcessed (provider externalId : string)
  | SSignIn (e : AuthenticationEventRecord)
  | SEraseActivity (u : string)
  | SAudit (e : AuditDb.AuditEntry)
  | SClock (t : instant).

Section Statements.
Context {Ids : UuidSource} {Pg : PgTypes} {Order : DescOrder}.

Definition exec1 (s : statement) (db : Db) : Db :=
  match s with
  | SInsertUser c e => fst (insert_user c e db)
  | SUpdate i c => fst (update_user i (set_changes c) db)
  | SSuspend i s => fst (setSuspension i s db)
  | SPropose p => fst (propose p db)
  | SApprove d => fst (approveAndApply d db)
  | SCancel d => fst (cancel d db)
  | SClaim d => fst (claim d db)
  | SProcessed p e => fst (markProcessed p e db)
  | SSignIn e => fst (IdentityDb.record e db)
  | SEraseActivity u => fst (eraseActivity u db)
  | SAudit e => with_trail (fst (AuditDb.record (iclock db) (known db) e (trail db))) db
  | SClock t =>
      mkDb (users db) (approvals db) (deliveries db) (signIns db) (trail db) (iseq db) t
  end.

Definition exec (ss : list statement) (db : Db) : Db := fold_left (fun db s => exec1 s db) ss db.

Lemma exec_app (ss ss' : list statement) (db : Db) : exec (ss ++ ss') db = exec ss' (exec ss db).
Proof. apply fold_left_app. Qed.

(** [does f]: in any state, [f] runs some statements. *)
Definition does (f : Db -> Db) : Prop := forall db, exists ss, f db = exec ss db.

Lemma does_id : does Datatypes.id.
Proof. by exists []. Qed.

Lemma does_exec (ss : list statement) : does (exec ss).
Proof. by exists ss. Qed.

(** ** Computations that run statements *)
Definition stm {A} (m : M Db A) : Prop := does (fun db => fst (m db)).

Lemma stm_same {A} (m : M Db A) : (forall db, fst (m db) = db) -> stm m.
Proof. intros H db. exists []. apply H. Qed.

Lemma stm_one {A} (m : M Db A) (s : statement) : (forall db, fst (m db) = exec1 s db) -> stm m.
Proof. intros H db. exists [s]. apply H. Qed.

Lemma stm_bind {A B} (m : M Db A) (f : A -> M Db B) : stm m -> (forall a, stm (f a)) -> stm (mbind f m).
Proof.
  intros Hm Hf db. unfold mbind, M_bind. destruct (Hm db) as [ss Hss].
  destruct (m db) as [db1 [a|e]]; cbn [fst] in *; [|by exists ss].
  destruct (Hf a db1) as [ss' Hss']. exists (ss ++ ss'). by rewrite exec_app, <- Hss.
Qed.

Lemma stm_catch {A} (m : M Db A) (h : error -> M Db A) : stm m -> (forall e, stm (h e)) -> stm (catch m h).
Proof.
  intros Hm Hh db. unfold catch. destruct (Hm db) as [ss Hss].
  destruct (m db) as [db1 [a|e]]; cbn [fst] in *; [by exists ss|].
  destruct (Hh e db1) as [ss' Hss']. exists (ss ++ ss'). by rewrite exec_app, <- Hss.
Qed.

Lemma stm_modify (f : Db -> Db) : does f -> stm (modify f).
Proof. done. Qed.

Lemma bind_fst {S A B} (m : M S A) (f : A -> M S B) (s : S) :
  (forall a s', fst (f a s') = s') -> fst (mbind f m s) = fst (m s).
Proof. intros H. unfold mbind, M_bind. by destruct (m s) as [s' [a|e]]; [apply H|]. Qed.

Lemma stm_upsert (rival : Db -> Db) (c e : string) : does rival -> stm (upsert rival c e).
Proof.
  intros Hr. unfold upsert. apply stm_bind; [by apply stm_same|]. intros [u|]; [by apply stm_same|].
  apply stm_bind; [by apply stm_modify|intros _]. apply stm_catch.
  - apply (stm_one _ (SInsertUser c e)). intros db. by apply bind_fst.
  - intros err. destruct (negb _); [by apply stm_same|].
    apply stm_bind; [by apply stm_modify|intros _]. apply stm_bind; [by apply stm_same|].
    intros [u|]; by apply stm_same.
Qed.

Lemma stm_update (i : string) (c : UserChanges) : stm (update i c).
Proof.
  unfold update. apply stm_catch; [|intros err; destruct (isUniqueViolation err); by apply stm_same].
  apply (stm_one _ (SUpdate i c)). intros db. by apply bind_fst.
Qed.

Lemma stm_setSuspension (i : string) (s : option Suspension) : stm (setSuspension i s).
Proof. by apply (stm_one _ (SSuspend i s)). Qed.

Lemma stm_propose (p : ProposeApproval) : stm (propose p).
Proof. by apply (stm_one _ (SPropose p)). Qed.

Lemma stm_approve (d : ApprovalDecision) : stm (approveAndApply d).
Proof. by apply (stm_one _ (SApprove d)). Qed.

Lemma stm_cancel (d : ApprovalDecision) : stm (cancel d).
Proof. by apply (stm_one _ (SCancel d)). Qed.

Lemma stm_claim (d : WebhookDelivery) : stm (claim d).
Proof. by apply (stm_one _ (SClaim d)). Qed.

Lemma stm_processed (p e : string) : stm (markProcessed p e).
Proof. by apply (stm_one _ (SProcessed p e)). Qed.

Lemma stm_sign_in (e : AuthenticationEventRecord) : stm (IdentityDb.record e).
Proof. by apply (stm_one _ (SSignIn e)). Qed.

Lemma stm_erase (u : string) : stm (eraseActivity u).
Proof. by apply (stm_one _ (SEraseActivity u)). Qed.

(** Reading changes nothing. *)
Lemma reads_as_uuid {S} (s : string) (x : S) : fst (as_uuid s x) = x.
Proof. unfold as_uuid. by destruct (uuid_in s). Qed.

Lemma stm_findById (i : string) : stm (findById i).
Proof.
  apply stm_same. intros db. unfold findById. destruct (negb _); [done|].
  rewrite bind_fst; [apply reads_as_uuid|done].
Qed.

Lemma stm_find (i : string) : stm (find i).
Proof.
  apply stm_same. intros db. unfold find. rewrite bind_fst; [apply reads_as_uuid|].
  intros u s. unfold_M. destruct (by_approval_id u s) as [r|]; [|done]. by destruct (toApproval r).
Qed.

Lemma stm_listPending (t : instant) (n : nat) : stm (listPending t n).
Proof. by apply stm_same. Qed.

Lemma stm_listFor (u : string) (n : nat) : stm (listFor u n).
Proof. apply stm_same. intros db. unfold listFor. rewrite bind_fst; [apply reads_as_uuid|done]. Qed.
End Statements.

(** ** Requests *)
Section Requests.
Context {Ids : UuidSource} {Pg : PgTypes} {Order : DescOrder} {W : Type} {Ports : IdentityPorts W}.

(** A computation that runs statements on the tables, whatever it does elsewhere. *)
Definition acts {A} (m : M (World W) A) : Prop :=
  forall w, exists ss, idb (fst (m w)) = exec ss (idb w).

Lemma acts_same {A} (m : M (World W) A) : (forall w, idb (fst (m w)) = idb w) -> acts m.
Proof. intros H w. exists []. apply H. Qed.

Lemma acts_bind {A B} (m : M (World W) A) (f : A -> M (World W) B) :
  acts m -> (forall a, acts (f a)) -> acts (mbind f m).
Proof.
  intros Hm Hf w. unfold mbind, M_bind. destruct (Hm w) as [ss Hss].
  destruct (m w) as [w1 [a|e]]; cbn [fst] in *; [|by exists ss].
  destruct (Hf a w1) as [ss' Hss']. exists (ss ++ ss'). by rewrite exec_app, <- Hss.
Qed.

Lemma acts_catch {A} (m : M (World W) A) (h : error -> M (World W) A) :
  acts m -> (forall e, acts (h e)) -> acts (catch m h).
Proof.
  intros Hm Hh w. unfold catch. destruct (Hm w) as [ss Hss].
  destruct (m w) as [w1 [a|e]]; cbn [fst] in *; [by exists ss|].
  destruct (Hh e w1) as [ss' Hss']. exists (ss ++ ss'). by rewrite exec_app, <- Hss.
Qed.

Lemma acts_on_db {A} (m : M Db A) : stm m -> acts (on_db m).
Proof. intros Hm w. destruct (Hm (idb w)) as [ss H]. exists ss. unfold on_db. by destruct (m (idb w)). Qed.

(** What other requests may do at an await, and another module's erasure. *)
Definition rival_ok (rival : World W -> World W) : Prop := acts (modify rival).
Definition eraser_ok : Prop := forall a, acts (erase a).
End Requests.

Create HintDb identity.
#[export] Hint Resolve acts_bind acts_on_db stm_upsert stm_update stm_setSuspension stm_propose stm_approve
  stm_cancel stm_claim stm_processed stm_sign_in stm_erase stm_findById stm_find stm_listPending
  stm_listFor : identity.
#[export] Hint Extern 8 (acts _) => (apply acts_same; done) : identity.

(** Walk a handler: one [bind], one [match] at a time. *)
Ltac walk_identity :=
  repeat first
    [ progress eauto with identity nocore
    | apply acts_bind; [|intros ?]
    | match goal with |- acts (match ?x with _ => _ end) => destruct x end
    | match goal with |- acts (if ?x then _ else _) => destruct x end
    | progress cbn zeta ].

Section Handlers.
Context {Ids : UuidSource} {Pg : PgTypes} {Order : DescOrder} {W : Type} {Ports : IdentityPorts W}.
Variable rival : World W -> World W.
Variable within : Db -> Db.
Hypothesis Hrival : rival_ok rival.
Hypothesis Hwithin : does within.
Hypothesis Heraser : eraser_ok.

Lemma acts_await : acts (await rival).
Proof. exact Hrival. Qed.
#[local] Hint Resolve acts_await Hwithin Heraser : identity.

Lemma acts_audit a act i b c r : acts (audit rival a act i b c r).
Proof.
  unfold audit. apply acts_bind; [exact Hrival|intros _ w].
  exists [SAudit {| AuditDb.entry_actorId := AuditDb.actor_userId <$> a; AuditDb.entry_action := act;
       AuditDb.entry_targetType := "user"; AuditDb.entry_targetId := i;
       AuditDb.beforeHash := digest <$> b; AuditDb.afterHash := digest <$> c;
       AuditDb.entry_ipAddress := match a with Some a => AuditDb.actor_ipAddress a | None => None end;
       AuditDb.entry_sessionId := match a with Some a => AuditDb.actor_sessionId a | None => None end;
       AuditDb.entry_reason := r |}].
  unfold on_db. cbn -[AuditDb.record]. unfold Audit.record. cbn -[AuditDb.record].
  by destruct (AuditDb.record _ _ _ _).
Qed.
#[local] Hint Resolve acts_audit : identity.

Lemma acts_eraseAndTombstone u a : acts (eraseAndTombstone rival u a).
Proof. unfold eraseAndTombstone. walk_identity. Qed.

Lemma acts_correctEmail u e a : acts (correctEmail rival u e a).
Proof.
  unfold correctEmail. walk_identity.
  apply acts_catch; [walk_identity|]. intros []; by apply acts_same.
Qed.
#[local] Hint Resolve acts_eraseAndTombstone acts_correctEmail : identity.

Lemma acts_resolveSession s ip : acts (resolveSession rival within s ip).
Proof. unfold resolveSession. walk_identity. Qed.

Lemma acts_recordAuthenticationEvent c s e t x : acts (recordAuthenticationEvent rival c s e t x).
Proof. unfold recordAuthenticationEvent. walk_identity. Qed.
#[local] Hint Resolve acts_recordAuthenticationEvent : identity.

Lemma acts_apply e : acts (Identity.apply rival within e).
Proof. destruct e; cbn [Identity.apply]; walk_identity. Qed.
#[local] Hint Resolve acts_apply : identity.

Lemma acts_applyEvent x e : acts (applyEvent rival within x e).
Proof. unfold applyEvent. walk_identity. Qed.

Lemma acts_refuseIfLast t r : acts (refuseIfLastAdministrator rival t r).
Proof. unfold refuseIfLastAdministrator. walk_identity. Qed.

Lemma acts_requireSuspendable a u b : acts (W := W) (requireSuspendable a u b).
Proof. unfold requireSuspendable. walk_identity. Qed.

Lemma acts_requirePending i : acts (W := W) (requirePending i).
Proof. unfold requirePending. walk_identity. Qed.
#[local] Hint Resolve acts_refuseIfLast acts_requireSuspendable acts_requirePending : identity.

Lemma acts_adminViewFor a u r : acts (adminViewFor rival a u r).
Proof. unfold adminViewFor. walk_identity. Qed.

Lemma acts_suspend a u r : acts (suspend rival a u r).
Proof. unfold suspend. walk_identity. Qed.

Lemma acts_reinstate a u r : acts (reinstate rival a u r).
Proof. unfold reinstate. walk_identity. Qed.

Lemma acts_proposeRoleChange a u x r : acts (proposeRoleChange rival a u x r).
Proof. unfold proposeRoleChange. walk_identity. Qed.

Lemma acts_approve a i r : acts (approve rival a i r).
Proof. unfold approve. walk_identity. Qed.

Lemma acts_cancelApproval a i r : acts (cancelApproval rival a i r).
Proof. unfold cancelApproval. walk_identity. Qed.

Lemma acts_requestDeletion a : acts (requestDeletion rival a).
Proof. unfold requestDeletion. walk_identity. Qed.
End Handlers.
