(* ===== verification/IdentityRows.v ===== *)
(** * Identity: what statements do to the tables

    [acct_wf] is what holds of the tables at every moment, and [evolves] what any
    sequence of statements does to them: accounts keep their identity, a deleted
    account stays deleted, a decided proposal never changes, a role changes only
    with an approved proposal, a claimed delivery stays claimed, and the audit
    trail only grows. *)

From S2P Require Import Prelude JsNumber Text Columns Ledger Bookings AuditLog.
From S2P Require Import IdentityStore Identity IdentityProofs.

#[local] Open Scope string_scope.
#[local] Open Scope list_scope.
#[local] Open Scope Z_scope.

Import IdentityDb Identity.
Import AuditDb (entries, eseq, audit_id).

Section Rows.
Context {Ids : UuidSource} {Pg : PgTypes} {Order : DescOrder}.

(** ** Well-formed tables *)
Record approval_ok (db : Db) (r : ApprovalRow) : Prop := {
  ok_checks : approval_refusal r = None;
  ok_in_window : forall t, appr_approvedAt r = Some t -> t < appr_expiresAt r;
  ok_proposer : known db (appr_proposedById r) = true;
  ok_approver : forall a, appr_approvedById r = Some a -> known db a = true;
  ok_action : is_ok (toAction (appr_action r) (appr_payload r)) = true }.

(** What is stored of an action is read back as it. *)
Lemma toAction_toPayload (a : ApprovableAction) : toAction (kind a) (toPayload a) = Ok a.
Proof. by destruct a as [u []]. Qed.

Definition suspension_ok (db : Db) (r : UserRow) : Prop :=
  suspension_is_complete r = true /\ forall b, user_suspendedById r = Some b -> known db b = true.

Record acct_wf (db : Db) : Prop := {
  wf_user_ids : NoDup (user_id <$> users db);
  wf_user_issued : Forall (fun r => issued (iseq db) (user_id r)) (users db);
  wf_clerk_ids : NoDup (user_clerkUserId <$> users db);
  wf_emails : NoDup ((fun r => lower (user_email r)) <$> users db);
  wf_suspensions : Forall (suspension_ok db) (users db);
  wf_approval_ids : NoDup (appr_id <$> approvals db);
  wf_approval_issued : Forall (fun r => issued (iseq db) (appr_id r)) (approvals db);
  wf_approvals : Forall (approval_ok db) (approvals db);
  wf_deliveries : NoDup (delivery_key <$> deliveries db);
  wf_sign_ins : NoDup (sign_key <$> signIns db);
  wf_sign_users : Forall (fun r => known db (sign_userId r) = true) (signIns db);
  wf_trail : Forall (fun r => issued (eseq (trail db)) (audit_id r)) (entries (trail db)) /\
    NoDup (audit_id <$> entries (trail db)) }.

Lemma acct_wf_empty (t : instant) : acct_wf (empty_db t).
Proof. split; cbn; try apply NoDup_nil_2; try constructor; try constructor. Qed.

(** ** What statements do *)
Definition accounts_grow (l l' : list UserRow) : Prop := forall r, r ∈ l -> exists r', r' ∈ l' /\
  user_id r' = user_id r /\ user_clerkUserId r' = user_clerkUserId r /\
  user_createdAt r' = user_createdAt r /\ (is_set (user_deletedAt r) = true -> is_set (user_deletedAt r') = true).

Definition same_proposal (a a' : ApprovalRow) : Prop :=
  appr_id a' = appr_id a /\ appr_action a' = appr_action a /\ appr_targetType a' = appr_targetType a /\
  appr_targetId a' = appr_targetId a /\ appr_payload a' = appr_payload a /\
  appr_proposedById a' = appr_proposedById a /\ appr_proposedReason a' = appr_proposedReason a /\
  appr_proposedAt a' = appr_proposedAt a /\ appr_expiresAt a' = appr_expiresAt a.

Definition approvals_grow (l l' : list ApprovalRow) : Prop := forall a, a ∈ l -> exists a', a' ∈ l' /\
  same_proposal a a' /\ (undecided a = false -> a' = a).

Definition deliveries_grow (l l' : list DeliveryRow) : Prop :=
  forall k, k ∈ delivery_key <$> l -> k ∈ delivery_key <$> l'.

Definition sign_ins_grow (l l' : list SignInRow) : Prop := forall r, r ∈ l -> r ∈ l' \/ redacted r ∈ l'.

(** The role of an account; a new one has [USER]. *)
Definition role_in (db : Db) (i : string) : UserRole :=
  match by_user_id i db with Some r => user_role r | None => USER end.

(** A proposal, approved, to give account [i] the role [x]. *)
Definition backs (a : ApprovalRow) (i : string) (x : UserRole) : Prop :=
  is_set (appr_approvedAt a) = true /\
  exists u, toAction (appr_action a) (appr_payload a) = Ok (roleChanged u x) /\ uuid_in u = Some i.

Definition approved_in (db : Db) (i : string) : Prop :=
  exists a, a ∈ approvals db /\ appr_id a = i /\ is_set (appr_approvedAt a) = true.

Definition roles_backed (db db' : Db) : Prop := forall i, role_in db' i = role_in db i \/
  exists a, a ∈ approvals db' /\ backs a i (role_in db' i) /\ ~ approved_in db (appr_id a).

Record evolves (db db' : Db) : Prop := {
  ev_accounts : accounts_grow (users db) (users db');
  ev_approvals : approvals_grow (approvals db) (approvals db');
  ev_roles : roles_backed db db';
  ev_deliveries : deliveries_grow (deliveries db) (deliveries db');
  ev_sign_ins : sign_ins_grow (signIns db) (signIns db');
  ev_trail : entries (trail db) `prefix_of` entries (trail db') }.

#[export] Instance accounts_grow_refl : Reflexive accounts_grow.
Proof. intros l r Hr. by exists r. Qed.
#[export] Instance approvals_grow_refl : Reflexive approvals_grow.
Proof. intros l r Hr. exists r. repeat split; auto. Qed.
#[export] Instance deliveries_grow_refl : Reflexive deliveries_grow.
Proof. by intros l k. Qed.
#[export] Instance sign_ins_grow_refl : Reflexive sign_ins_grow.
Proof. intros l r Hr. by left. Qed.

Lemma approved_undecided (a : ApprovalRow) : is_set (appr_approvedAt a) = true -> undecided a = false.
Proof. unfold undecided. by intros ->. Qed.

Lemma approved_in_mono (db db' : Db) (i : string) :
  approvals_grow (approvals db) (approvals db') -> approved_in db i -> approved_in db' i.
Proof.
  intros Hg (a & Ha & Hi & Hs). destruct (Hg a Ha) as (a' & Ha' & _ & Hsame).
  exists a'. split; [done|]. rewrite Hsame by (by apply approved_undecided). done.
Qed.

#[export] Instance evolves_refl : Reflexive evolves.
Proof. intros db. split; try reflexivity. intros i. by left. Qed.

#[export] Instance evolves_trans : Transitive evolves.
Proof.
  intros x y z Hxy Hyz. split.
  - intros r Hr. destruct (ev_accounts _ _ Hxy r Hr) as (r' & Hr' & H1 & H2 & H3 & H4).
    destruct (ev_accounts _ _ Hyz r' Hr') as (r'' & Hr'' & H1' & H2' & H3' & H4').
    exists r''. split_and!; [done|congruence..|auto].
  - intros a Ha. destruct (ev_approvals _ _ Hxy a Ha) as (a' & Ha' & Hp & Hd).
    destruct (ev_approvals _ _ Hyz a' Ha') as (a'' & Ha'' & Hp' & Hd').
    exists a''. split; [done|]. split.
    + unfold same_proposal in *. naive_solver congruence.
    + intros H. specialize (Hd H) as ->. by apply Hd'.
  - intros i. destruct (ev_roles _ _ Hyz i) as [He|(a & Ha & Hb & Hn)].
    + rewrite He. destruct (ev_roles _ _ Hxy i) as [->|(a & Ha & Hb & Hn)]; [by left|right].
      destruct (ev_approvals _ _ Hyz a Ha) as (a' & Ha' & _ & Hd).
      rewrite Hd in Ha' by apply approved_undecided, Hb. by exists a.
    + right. exists a. split_and!; [done..|]. intros Hx. apply Hn.
      eapply approved_in_mono; [apply (ev_approvals _ _ Hxy)|done].
  - intros k Hk. by apply (ev_deliveries _ _ Hyz), (ev_deliveries _ _ Hxy).
  - intros r Hr. destruct (ev_sign_ins _ _ Hxy r Hr) as [Hr'|Hr'];
      destruct (ev_sign_ins _ _ Hyz _ Hr') as [Hr''|Hr'']; auto.
  - etrans; [apply (ev_trail _ _ Hxy)|apply (ev_trail _ _ Hyz)].
Qed.

(** [known] reads only the ids. *)
Lemma known_iff (db : Db) (i : string) : known db i = true <-> i ∈ user_id <$> users db.
Proof.
  unfold known, by_user_id. destruct (find_by user_id i (users db)) as [r|] eqn:H; cbn.
  - apply find_by_Some in H as [Hr <-]. split; [intros _; by apply list_elem_of_fmap_2|done].
  - apply find_by_None in H. by split.
Qed.

Lemma known_ext (db db' : Db) (i : string) :
  user_id <$> users db = user_id <$> users db' -> known db i = known db' i.
Proof. intros H. apply eq_true_iff_eq. by rewrite !known_iff, H. Qed.

Lemma by_user_id_ext (i : string) (db db' : Db) : users db = users db' -> by_user_id i db = by_user_id i db'.
Proof. unfold by_user_id. by intros ->. Qed.

Lemma roles_same (db db' : Db) : users db' = users db -> roles_backed db db'.
Proof. intros H i. left. unfold role_in. by rewrite (by_user_id_ext i db' db). Qed.

(** ** Replacing the row of an account *)
Lemma replaced_split (r r' : UserRow) (l : list UserRow) :
  NoDup (user_id <$> l) -> r ∈ l -> user_id r' = user_id r ->
  exists l1 l2, l = l1 ++ r :: l2 /\ replaced r' l = l1 ++ r' :: l2 /\
    (forall x, x ∈ l1 ++ l2 -> user_id x <> user_id r).
Proof.
  intros Hnd (l1 & l2 & ->)%list_elem_of_split Hid. exists l1, l2. split; [done|].
  assert (forall x, x ∈ l1 ++ l2 -> user_id x <> user_id r) as Hne.
  { intros x Hx He. rewrite fmap_app, fmap_cons in Hnd. rewrite <- Permutation_middle in Hnd.
    apply NoDup_cons in Hnd as [Hr _]. apply Hr. rewrite <- fmap_app, <- He. by apply list_elem_of_fmap_2. }
  split; [|done].
  assert (forall k, (forall x, x ∈ k -> user_id x <> user_id r) -> replaced r' k = k) as Hsame.
  { induction k as [|x k IH]; intros Hk; [done|]. unfold replaced in *. cbn.
    rewrite IH by (intros y Hy; apply Hk; by right).
    rewrite bool_decide_eq_false_2; [done|]. rewrite Hid. apply Hk. left. }
  change (l1 ++ r :: l2) with (l1 ++ [r] ++ l2). unfold replaced. rewrite !fmap_app.
  change (replaced r' l1 ++ replaced r' [r] ++ replaced r' l2 = l1 ++ r' :: l2).
  rewrite (Hsame l1), (Hsame l2) by (intros x Hx; apply Hne, elem_of_app; auto).
  unfold replaced. cbn. by rewrite bool_decide_eq_true_2.
Qed.

Lemma NoDup_middle {A} (l1 l2 : list A) (x y : A) :
  NoDup (l1 ++ x :: l2) -> y ∉ l1 ++ l2 -> NoDup (l1 ++ y :: l2).
Proof. rewrite <- !Permutation_middle. rewrite !NoDup_cons. tauto. Qed.

Lemma update_user_spec (i : string) (f : UserRow -> UserRow) (db : Db) :
  (forall r, user_id (f r) = user_id r) ->
  (fst (update_user i f db) = db /\ is_ok (snd (update_user i f db)) = false) \/
  exists u r, uuid_in i = Some u /\ by_user_id u db = Some r /\
    email_taken u (user_email (f r)) db = false /\ suspension_ok db (f r) /\
    update_user i f db = (with_users (replaced (f r) (users db)) db, Ok (f r)).
Proof.
  intros Hf. unfold update_user, as_uuid. destruct (uuid_in i) as [u|]; [|by left]. unfold_M.
  destruct (by_user_id u db) as [r|] eqn:Hr; [|by left].
  destruct (email_taken u (user_email (f r)) db) eqn:He; [by left|].
  destruct (suspension_is_complete (f r)) eqn:Hs; cbn [negb]; [|by left].
  destruct (user_suspendedById (f r)) as [b|] eqn:Hb; [destruct (known db b) eqn:Hk; cbn [negb]; [|by left]|].
  all: right; exists u, r; split_and!; try done; split; [done|]; naive_solver.
Qed.

(** ** Accounts *)
Lemma approval_ok_mono (db db' : Db) (r : ApprovalRow) :
  (forall i, known db i = true -> known db' i = true) -> approval_ok db r -> approval_ok db' r.
Proof. intros Hk [H1 H2 H3 H4 H5]. split; [done|done|by apply Hk| |done]. intros a Ha. by apply Hk, H4. Qed.

Lemma suspension_ok_mono (db db' : Db) (r : UserRow) :
  (forall i, known db i = true -> known db' i = true) -> suspension_ok db r -> suspension_ok db' r.
Proof. intros Hk [H1 H2]. split; [done|]. intros b Hb. by apply Hk, H2. Qed.

(** Replacing one account's row, keeping what no update changes. *)
Lemma wf_replace (db : Db) (u : string) (r r' : UserRow) :
  acct_wf db -> by_user_id u db = Some r ->
  user_id r' = user_id r -> user_clerkUserId r' = user_clerkUserId r ->
  email_taken u (user_email r') db = false -> suspension_ok db r' ->
  acct_wf (with_users (replaced r' (users db)) db).
Proof.
  intros [W1 W2 W3 W4 W5 W6 W7 W8 W9 W10 W11 W12] [Hr Hu]%find_by_Some Hid Hclerk Hfree Hs.
  destruct (replaced_split r r' (users db)) as (l1 & l2 & Hl & Hl' & Hne); [done..|].
  assert (user_id <$> replaced r' (users db) = user_id <$> users db) as Hids
    by (rewrite Hl', Hl, !fmap_app, !fmap_cons, Hid; done).
  assert (forall i, known db i = true -> known (with_users (replaced r' (users db)) db) i = true) as Hk
    by (intros i Hi; by rewrite <- (known_ext db)).
  split; cbn [users approvals deliveries signIns trail iseq with_users]; try done.
  - by rewrite Hids.
  - rewrite Hl', Hl in *. apply Forall_app in W2 as [? [? ?]%Forall_cons].
    apply Forall_app; split; [done|constructor; [by rewrite Hid|done]].
  - rewrite Hl', Hl in *. rewrite fmap_app, fmap_cons, Hclerk. by rewrite fmap_app in W3.
  - rewrite Hl'. rewrite Hl in W4. rewrite fmap_app, fmap_cons in *.
    eapply NoDup_middle; [exact W4|]. rewrite <- fmap_app. intros (x & He & Hx)%list_elem_of_fmap.
    unfold email_taken in Hfree. apply (existsb_false _ _ x) in Hfree.
    + cbv beta in Hfree. rewrite bool_decide_eq_false_2 in Hfree by (rewrite <- Hu; by apply Hne).
      by rewrite bool_decide_eq_true_2 in Hfree.
    + rewrite Hl. apply elem_of_app in Hx as [Hx|Hx]; apply elem_of_app; [by left|right; by right].
  - eapply Forall_impl; [|intros x; apply suspension_ok_mono, Hk].
    rewrite Hl', Hl in *. apply Forall_app in W5 as [? [? ?]%Forall_cons].
    apply Forall_app; split; [done|by constructor].
  - eapply Forall_impl; [exact W8|]. intros a Ha. by eapply approval_ok_mono.
  - eapply Forall_impl; [exact W11|]. intros a Ha. cbn in *. by apply Hk.
Qed.

Lemma grow_replace (db : Db) (u : string) (r r' : UserRow) :
  acct_wf db -> by_user_id u db = Some r ->
  user_id r' = user_id r -> user_clerkUserId r' = user_clerkUserId r ->
  user_createdAt r' = user_createdAt r ->
  (is_set (user_deletedAt r) = true -> is_set (user_deletedAt r') = true) ->
  accounts_grow (users db) (replaced r' (users db)).
Proof.
  intros Hwf [Hr Hu]%find_by_Some Hid Hclerk Hcr Hdel.
  destruct (replaced_split r r' (users db) (wf_user_ids _ Hwf)) as (l1 & l2 & Hl & Hl' & Hne); [done..|].
  rewrite Hl', Hl. intros x Hx. rewrite <- Permutation_middle in Hx. apply elem_of_cons in Hx as [->|Hx].
  - exists r'. split_and!; [apply elem_of_app; right; left|done..].
  - exists x. split_and!; [|done..]. rewrite <- Permutation_middle. by right.
Qed.

Lemma role_replace (db db' : Db) (u i : string) (r r' : UserRow) :
  acct_wf db -> by_user_id u db = Some r -> user_id r' = user_id r ->
  users db' = replaced r' (users db) ->
  role_in db' i = if bool_decide (i = u) then user_role r' else role_in db i.
Proof.
  intros Hwf Hfound Hid Hdb'. pose proof Hfound as [Hr Hu]%find_by_Some.
  destruct (replaced_split r r' (users db) (wf_user_ids _ Hwf)) as (l1 & l2 & Hl & Hl' & Hne); [done..|].
  unfold role_in, by_user_id. rewrite Hdb', Hl', Hl. subst u.
  assert (forall k, (forall x, x ∈ k -> user_id x <> user_id r) -> find_by user_id (user_id r) k = None) as Hnone.
  { intros k Hk. apply find_by_None. intros (x & He & Hx)%list_elem_of_fmap. by apply (Hk x). }
  case_bool_decide as Hi.
  - subst i. rewrite find_by_app, Hnone by (intros x Hx; apply Hne, elem_of_app; by left).
    unfold find_by. cbn. by rewrite bool_decide_eq_true_2.
  - rewrite !find_by_app. destruct (find_by user_id i l1); [done|].
    unfold find_by. cbn. by rewrite !bool_decide_eq_false_2 by congruence.
Qed.

(** What [user.update] does when it keeps the role. *)
Lemma update_evolves (i : string) (f : UserRow -> UserRow) (db : Db) :
  (forall r, user_id (f r) = user_id r /\ user_clerkUserId (f r) = user_clerkUserId r /\
     user_createdAt (f r) = user_createdAt r /\ user_role (f r) = user_role r /\
     (is_set (user_deletedAt r) = true -> is_set (user_deletedAt (f r)) = true)) ->
  acct_wf db -> acct_wf (fst (update_user i f db)) /\ evolves db (fst (update_user i f db)).
Proof.
  intros Hf Hwf. destruct (update_user_spec i f db) as [[-> _]|(u & r & _ & Hr & He & Hs & ->)];
    [by intros r; apply Hf|done|].
  destruct (Hf r) as (H1 & H2 & H3 & H4 & H5). cbn [fst]. split; [by eapply wf_replace|].
  split; cbn; try reflexivity; [by eapply grow_replace|]. intros x. left.
  rewrite (role_replace db _ u x r (f r)) by done. case_bool_decide as Hx; [|done].
  subst x. unfold role_in. by rewrite Hr, H4.
Qed.

Lemma insert_user_evolves (c e : string) (db : Db) :
  acct_wf db -> acct_wf (fst (insert_user c e db)) /\ evolves db (fst (insert_user c e db)).
Proof.
  intros Hwf. unfold insert_user. set (r := user_for c e db).
  destruct (is_set (by_clerk_id c db) || email_taken (user_id r) e db) eqn:Hfree; [done|].
  apply orb_false_iff in Hfree as [Hc He]. cbn [fst].
  destruct Hwf as [W1 W2 W3 W4 W5 W6 W7 W8 W9 W10 W11 W12].
  assert (user_id r ∉ user_id <$> users db) as Hnew.
  { intros (x & Hx & Hin)%list_elem_of_fmap. rewrite Forall_forall in W2. specialize (W2 x Hin).
    rewrite <- Hx in W2. by apply issued_fresh in W2. }
  set (db' := next_id _).
  assert (forall i, known db i = true -> known db' i = true) as Hk.
  { intros i. rewrite !known_iff. unfold db'. cbn. rewrite fmap_app, elem_of_app. by left. }
  split; [split|split]; unfold db'; cbn [users approvals deliveries signIns trail iseq with_users next_id];
    try done; try reflexivity.
  - rewrite fmap_app. by apply NoDup_snoc.
  - apply Forall_app; split; [eapply Forall_impl; [exact W2|]; intros x; apply issued_mono; lia|].
    repeat constructor. by exists (iseq db); split; [lia|].
  - rewrite fmap_app. apply NoDup_snoc; [done|]. cbn. apply find_by_None.
    unfold by_clerk_id in Hc. by destruct (find_by _ c _).
  - rewrite fmap_app. apply NoDup_snoc; [done|]. cbn. intros (x & Hx & Hin)%list_elem_of_fmap.
    unfold email_taken in He. apply (existsb_false _ _ x) in He; [|done].
    cbv beta in He. rewrite bool_decide_eq_false_2 in He by (intros Hxe; apply Hnew; rewrite <- Hxe; by apply list_elem_of_fmap_2).
    by rewrite bool_decide_eq_true_2 in He.
  - apply Forall_app; split; [|by repeat constructor].
    eapply Forall_impl; [exact W5|]. intros x. by apply suspension_ok_mono.
  - eapply Forall_impl; [exact W7|]; intros x; apply issued_mono; lia.
  - eapply Forall_impl; [exact W8|]. intros a Ha. by eapply approval_ok_mono.
  - eapply Forall_impl; [exact W11|]. intros a Ha. cbn in *. by apply Hk.
  - intros x Hx. exists x. rewrite elem_of_app. split_and!; auto.
  - intros i. left. unfold role_in, by_user_id. cbn [users next_id with_users]. rewrite find_by_app.
    destruct (find_by user_id i (users db)); [done|]. unfold find_by. cbn. by case_bool_decide.
Qed.

(** ** Proposals *)
Lemma propose_evolves (p : ProposeApproval) (db : Db) :
  acct_wf db -> acct_wf (fst (propose p db)) /\ evolves db (fst (propose p db)).
Proof.
  intros Hwf. unfold propose, as_uuid. destruct (uuid_in (pr_targetId p)) as [t|]; [|done].
  unfold_M. destruct (uuid_in (pr_proposedById p)) as [b|]; [|done]. cbn.
  destruct (known db b) eqn:Hb; [|done]. cbn. set (r := proposed p t b db).
  destruct Hwf as [W1 W2 W3 W4 W5 W6 W7 W8 W9 W10 W11 W12].
  split; [split|split]; cbn [users approvals deliveries signIns trail iseq with_approvals next_id];
    try done; try reflexivity.
  - eapply Forall_impl; [exact W2|]; intros x; apply issued_mono; lia.
  - rewrite fmap_app. apply NoDup_snoc; [done|]. intros (x & Hx & Hin)%list_elem_of_fmap.
    rewrite Forall_forall in W7. specialize (W7 x Hin). rewrite <- Hx in W7. by apply issued_fresh in W7.
  - apply Forall_app; split; [eapply Forall_impl; [exact W7|]; intros x; apply issued_mono; lia|].
    repeat constructor. by exists (iseq db); split; [lia|].
  - apply Forall_app; split; [by eapply Forall_impl; [exact W8|]; intros a [? ? ? ? ?]; split|].
    constructor; [|constructor]. split; try done.
    by destruct p as [[u []] ? ? ? ? ?].
  - intros a Ha. exists a. rewrite elem_of_app. repeat split; auto.
  - by apply roles_same.
Qed.

(** Deciding a proposal: only an undecided row that meets the predicate changes. *)
Lemma claim_spec (i by_ : string) (p : ApprovalRow -> bool) (f : ApprovalRow -> ApprovalRow) (db : Db) :
  (fst (claim_approval i by_ p f db) = db /\
     (snd (claim_approval i by_ p f db) = Ok None \/ is_ok (snd (claim_approval i by_ p f db)) = false)) \/
  exists r, r ∈ approvals db /\ appr_id r = i /\ p r = true /\ known db by_ = true /\
    approval_refusal (f r) = None /\
    claim_approval i by_ p f db =
      (with_approvals ((fun x => if bool_decide (appr_id x = appr_id r) then f r else x) <$> approvals db) db,
       Ok (Some (f r))).
Proof.
  unfold claim_approval. unfold_M. destruct (by_approval_id i db) as [r|] eqn:Hr; [|by left; auto].
  apply find_by_Some in Hr as [Hr Hi]. destruct (p r) eqn:Hp; [|by left; auto].
  destruct (approval_refusal (f r)) eqn:Hc; [by left; auto|]. cbn.
  destruct (known db by_) eqn:Hk; cbn; [|by left; auto]. right. by exists r.
Qed.

Definition decide_row (r r' : ApprovalRow) (l : list ApprovalRow) : list ApprovalRow :=
  (fun x => if bool_decide (appr_id x = appr_id r) then r' else x) <$> l.

Lemma decide_wf (r r' : ApprovalRow) (db : Db) :
  acct_wf db -> r ∈ approvals db -> appr_id r' = appr_id r -> approval_ok db r' ->
  acct_wf (with_approvals (decide_row r r' (approvals db)) db).
Proof.
  intros [W1 W2 W3 W4 W5 W6 W7 W8 W9 W10 W11 W12] Hr Hid Hok.
  assert (appr_id <$> decide_row r r' (approvals db) = appr_id <$> approvals db) as Hids.
  { unfold decide_row. rewrite <- list_fmap_compose. apply list_fmap_ext. intros _ x _. cbn.
    by case_bool_decide as Hx; [rewrite Hid, Hx|]. }
  split; cbn [users approvals deliveries signIns trail iseq with_approvals]; try done.
  - by rewrite Hids.
  - rewrite Forall_forall in W7. unfold decide_row. apply Forall_fmap, Forall_forall. intros x Hx. cbn.
    case_bool_decide as He; [rewrite Hid, <- He|]; by apply W7.
  - rewrite Forall_forall in W8. unfold decide_row. apply Forall_fmap, Forall_forall. intros x Hx. cbn.
    case_bool_decide; [by destruct Hok; split|]. by destruct (W8 x Hx); split.
Qed.

Lemma decide_grow (r r' : ApprovalRow) (l : list ApprovalRow) :
  NoDup (appr_id <$> l) -> r ∈ l -> same_proposal r r' -> undecided r = true ->
  approvals_grow l (decide_row r r' l).
Proof.
  intros Hnd Hr Hp Hu a Ha. destruct (decide (appr_id a = appr_id r)) as [He|Hne].
  - assert (a = r) as ->.
    { pose proof (find_by_unique appr_id l a Hnd Ha) as H1. pose proof (find_by_unique appr_id l r Hnd Hr) as H2.
      congruence. }
    exists r'. split_and!; [|done|by rewrite Hu]. unfold decide_row. apply list_elem_of_fmap. exists r.
    by rewrite bool_decide_eq_true_2.
  - exists a. split_and!; [|repeat split|done]. apply list_elem_of_fmap. exists a.
    by rewrite bool_decide_eq_false_2.
Qed.

Lemma cancel_evolves (d : ApprovalDecision) (db : Db) :
  acct_wf db -> acct_wf (fst (cancel d db)) /\ evolves db (fst (cancel d db)).
Proof.
  intros Hwf. unfold cancel, as_uuid. destruct (uuid_in (dc_approvalId d)) as [i|]; [|done].
  destruct (uuid_in (dc_byId d)) as [b|]; [|done]. unfold_M.
  set (p := undecided). set (f := set_cancelled b (dc_reason d) (dc_at d)).
  destruct (claim_spec i b p f db) as [[H1 H2]|(r & Hr & Hi & Hp & Hk & Hc & ->)].
  { destruct (claim_approval i b p f db) as [db1 [[x|]|e]]; cbn in *; subst; [|done..].
    by destruct H2. }
  assert (approval_ok db (f r)) as Hok.
  { pose proof (wf_approvals _ Hwf) as Ho. rewrite Forall_forall in Ho. destruct (Ho r Hr).
    by split. }
  change (acct_wf (with_approvals (decide_row r (f r) (approvals db)) db) /\
          evolves db (with_approvals (decide_row r (f r) (approvals db)) db)).
  split; [by apply decide_wf|]. split; cbn; try reflexivity; [|by apply roles_same].
  apply decide_grow; [apply (wf_approval_ids _ Hwf)|done|by repeat split|done].
Qed.

(** An approval and its effect are one step: the role changes only with it. *)
Lemma approve_evolves (d : ApprovalDecision) (db : Db) :
  acct_wf db -> acct_wf (fst (approveAndApply d db)) /\ evolves db (fst (approveAndApply d db)).
Proof.
  intros Hwf. unfold approveAndApply, transaction, as_uuid.
  destruct (uuid_in (dc_approvalId d)) as [i|]; [|done].
  destruct (uuid_in (dc_byId d)) as [b|]; [|done]. unfold_M.
  set (p := fun r => _). set (f := set_approved b (dc_reason d) (dc_at d)).
  destruct (claim_spec i b p f db) as [[H1 H2]|(r & Hr & Hi & Hp & Hk & Hc & ->)].
  { destruct (claim_approval i b p f db) as [db1 [[x|]|e]]; cbn in *; subst; [|done..].
    by destruct H2. }
  apply andb_true_iff in Hp as [[Hund Hwin]%andb_true_iff Hother].
  set (db1 := with_approvals _ db). destruct (toApproval (f r)) as [a|e] eqn:Ha; [|done].
  assert (approval_ok db (f r)) as Hok.
  { pose proof (wf_approvals _ Hwf) as Ho. rewrite Forall_forall in Ho. destruct (Ho r Hr).
    split; [done|..|done| |done]; cbn.
    - intros t [= <-]. by apply Z.ltb_lt.
    - by intros x [= <-]. }
  assert (acct_wf db1) as Hwf1 by (by apply decide_wf).
  unfold IdentityDb.apply. unfold_M.
  destruct (update_user_spec (ac_userId (ap_action a)) (set_role (ac_role (ap_action a))) db1)
    as [[_ H2]|(u & x & Hu & Hx & He & Hs & ->)]; [done|..].
  { by destruct (update_user _ _ db1) as [db2 [y|e]]. }
  cbn [fst]. split; [by apply (wf_replace db1 u x)|].
  assert (accounts_grow (users db) (replaced (set_role (ac_role (ap_action a)) x) (users db))) as Hacc
    by (by apply (grow_replace db1 u x)).
  assert (approvals_grow (approvals db) (approvals db1)) as Hgrow
    by (apply decide_grow; [apply (wf_approval_ids _ Hwf)|done|by repeat split|done]).
  split; cbn; try reflexivity; [exact Hacc|exact Hgrow|].
  intros z. rewrite (role_replace db1 _ u z x (set_role (ac_role (ap_action a)) x) Hwf1 Hx) by done.
  destruct (bool_decide_reflect (z = u)) as [Hz|_]; [|by left].
  subst z. right. exists (f r). split_and!.
  - apply list_elem_of_fmap. exists r. by rewrite bool_decide_eq_true_2.
  - split; [done|]. exists (ac_userId (ap_action a)). split; [|done].
    unfold toApproval in Ha. unfold_result. destruct (toAction _ _) as [[u' x']|]; [|done]. by injection Ha as <-.
  - intros (y & Hy & Hyi & Hya).
    pose proof (find_by_unique appr_id _ y (wf_approval_ids _ Hwf) Hy) as H1.
    pose proof (find_by_unique appr_id _ r (wf_approval_ids _ Hwf) Hr) as H2.
    assert (y = r) as -> by (cbn in Hyi; congruence).
    unfold undecided in Hund. by rewrite Hya in Hund.
Qed.

(** ** Deliveries, sign-ins, the trail and the clock *)
Lemma claim_evolves (d : WebhookDelivery) (db : Db) :
  acct_wf db -> acct_wf (fst (claim d db)) /\ evolves db (fst (claim d db)).
Proof.
  intros Hwf. unfold claim. destruct (is_set _) eqn:Hfree; [done|].
  destruct Hwf as [W1 W2 W3 W4 W5 W6 W7 W8 W9 W10 W11 W12].
  split; [split|split]; cbn [fst users approvals deliveries signIns trail iseq with_deliveries];
    try done; try reflexivity.
  - eapply Forall_impl; [exact W8|]; intros a [? ? ? ? ?]; by split.
  - rewrite fmap_app. apply NoDup_snoc; [done|]. apply find_by_None.
    by destruct (find_by delivery_key _ _) in Hfree |- *.
  - by apply roles_same.
  - intros k Hk. cbn. rewrite fmap_app, elem_of_app. by left.
Qed.

Lemma processed_keys (p e : string) (t : instant) (l : list DeliveryRow) :
  delivery_key <$> ((fun d => if bool_decide (delivery_key d = (p, e))
      then mkDelivery (del_provider d) (del_externalId d) (del_eventType d) (del_receivedAt d) (Some t)
      else d) <$> l) = delivery_key <$> l.
Proof. rewrite <- list_fmap_compose. apply list_fmap_ext. intros _ d _. cbn. by case_bool_decide. Qed.

Lemma processed_evolves (p e : string) (db : Db) :
  acct_wf db -> acct_wf (fst (markProcessed p e db)) /\ evolves db (fst (markProcessed p e db)).
Proof.
  intros Hwf. unfold markProcessed. destruct (is_set _); [|done].
  destruct Hwf as [W1 W2 W3 W4 W5 W6 W7 W8 W9 W10 W11 W12].
  split; [split|split]; cbn [fst users approvals deliveries signIns trail iseq with_deliveries];
    try done; try reflexivity.
  - eapply Forall_impl; [exact W8|]; intros a [? ? ? ? ?]; by split.
  - by rewrite processed_keys.
  - by apply roles_same.
  - intros k Hk. by rewrite processed_keys.
Qed.

Lemma sign_in_evolves (e : AuthenticationEventRecord) (db : Db) :
  acct_wf db -> acct_wf (fst (IdentityDb.record e db)) /\ evolves db (fst (IdentityDb.record e db)).
Proof.
  intros Hwf. unfold IdentityDb.record, as_uuid. destruct (uuid_in (ae_userId e)) as [u|]; [|done].
  unfold_M. unfold insert_sign_in. destruct (is_set _) eqn:Hfree; [done|].
  destruct (known db u) eqn:Hu; cbn [negb]; [|done].
  destruct Hwf as [W1 W2 W3 W4 W5 W6 W7 W8 W9 W10 W11 W12].
  split; [split|split]; cbn [fst users approvals deliveries signIns trail iseq with_signIns next_id];
    try done; try reflexivity.
  - eapply Forall_impl; [exact W2|]; intros x; apply issued_mono; lia.
  - eapply Forall_impl; [exact W7|]; intros x; apply issued_mono; lia.
  - eapply Forall_impl; [exact W8|]; intros a [? ? ? ? ?]; by split.
  - rewrite fmap_app. apply NoDup_snoc; [done|]. apply find_by_None.
    by destruct (find_by sign_key _ _) in Hfree |- *.
  - apply Forall_app; split; [done|]. by repeat constructor.
  - by apply roles_same.
  - intros r Hr. left. rewrite elem_of_app. by left.
Qed.

Lemma erased_keys (u : string) (l : list SignInRow) :
  sign_key <$> ((fun r => if bool_decide (sign_userId r = u) then redacted r else r) <$> l) = sign_key <$> l.
Proof. rewrite <- list_fmap_compose. apply list_fmap_ext. intros _ r _. cbn. by case_bool_decide. Qed.

Lemma erase_evolves (i : string) (db : Db) :
  acct_wf db -> acct_wf (fst (eraseActivity i db)) /\ evolves db (fst (eraseActivity i db)).
Proof.
  intros Hwf. unfold eraseActivity, as_uuid. destruct (uuid_in i) as [u|]; [|done]. unfold_M.
  destruct Hwf as [W1 W2 W3 W4 W5 W6 W7 W8 W9 W10 W11 W12].
  split; [split|split]; cbn [fst users approvals deliveries signIns trail iseq with_signIns];
    try done; try reflexivity.
  - eapply Forall_impl; [exact W8|]; intros a [? ? ? ? ?]; by split.
  - by rewrite erased_keys.
  - apply Forall_fmap. eapply Forall_impl; [exact W11|]. intros r Hr. cbn. by case_bool_decide.
  - by apply roles_same.
  - intros r Hr. destruct (decide (sign_userId r = u)) as [He|He]; [right|left];
      apply list_elem_of_fmap; exists r.
    + by rewrite bool_decide_eq_true_2.
    + by rewrite bool_decide_eq_false_2.
Qed.

Lemma audit_evolves (t : instant) (e : AuditDb.AuditEntry) (db : Db) :
  let db' := with_trail (fst (AuditDb.record t (known db) e (trail db))) db in
  acct_wf db -> acct_wf db' /\ evolves db db'.
Proof.
  intros db' Hwf. assert (db' = db \/ exists row, audit_id row = uuid (eseq (trail db)) /\
    db' = with_trail (AuditDb.mkTrail (entries (trail db) ++ [row]) (S (eseq (trail db)))) db)
    as [->|(row & Hrow & ->)]; [|done|].
  { subst db'. unfold AuditDb.record, as_uuid_opt, as_uuid. unfold_M.
    assert (with_trail (trail db) db = db) as Hsame by (by destruct db).
    repeat (step_match; cbn [fst]; try (left; exact Hsame)). all: simplify_eq.
    all: right; eexists; split; [|reflexivity]; done. }
  destruct Hwf as [W1 W2 W3 W4 W5 W6 W7 W8 W9 W10 W11 [W12 W13]].
  split; [split|split]; cbn [fst users approvals deliveries signIns trail iseq with_trail]; cbn;
    try done; try reflexivity.
  - eapply Forall_impl; [exact W8|]; intros a [? ? ? ? ?]; by split.
  - split.
    + apply Forall_app; split; [eapply Forall_impl; [exact W12|]; intros x; apply issued_mono; lia|].
      repeat constructor. exists (eseq (trail db)). split; [lia|done].
    + rewrite fmap_app. apply NoDup_snoc; [done|]. rewrite Hrow. intros (x & Hx & Hin)%list_elem_of_fmap.
      rewrite Forall_forall in W12. specialize (W12 x Hin). rewrite <- Hx in W12. by apply issued_fresh in W12.
  - by apply roles_same.
  - by apply prefix_app_r.
Qed.

(** ** Any sequence of statements *)
Lemma exec1_evolves (s : statement) (db : Db) : acct_wf db -> acct_wf (exec1 s db) /\ evolves db (exec1 s db).
Proof.
  destruct s; cbn [exec1]; intros Hwf.
  - by apply insert_user_evolves.
  - apply update_evolves; [|done]. intros r. cbn. split_and!; [done..|]. by destruct (ch_deletedAt c).
  - unfold setSuspension, as_uuid_opt, as_uuid. destruct s as [s|]; cbn -[update_user].
    + destruct (uuid_in (susp_byId s)) as [b|]; [|done]. unfold_M.
      destruct (update_evolves i (set_suspension (Some (susp_at s)) (Some b) (Some (susp_reason s))) db) as [H1 H2];
        [by intros r|done|]. by destruct (update_user _ _ db) as [db' [y|e]].
    + unfold_M. destruct (update_evolves i (set_suspension None None None) db) as [H1 H2];
        [by intros r|done|]. by destruct (update_user _ _ db) as [db' [y|e]].
  - by apply propose_evolves.
  - by apply approve_evolves.
  - by apply cancel_evolves.
  - by apply claim_evolves.
  - by apply processed_evolves.
  - by apply sign_in_evolves.
  - by apply erase_evolves.
  - by apply audit_evolves.
  - split; [|split; try reflexivity; by apply roles_same].
    destruct Hwf as [W1 W2 W3 W4 W5 W6 W7 W8 W9 W10 W11 W12].
    split; try done. eapply Forall_impl; [exact W8|]; intros a [? ? ? ? ?]; by split.
Qed.

Theorem exec_evolves (ss : list statement) (db : Db) : acct_wf db -> acct_wf (exec ss db) /\ evolves db (exec ss db).
Proof.
  revert db. induction ss as [|s ss IH]; intros db Hwf; [by split|].
  destruct (exec1_evolves s db Hwf) as [H1 E1]. destruct (IH _ H1) as [H2 E2].
  split; [done|]. by etrans.
Qed.
End Rows.
