(* ===== verification/SecondFactor.v ===== *)
(** * Admission ([apps/api/src/identity/auth.guard.ts], [second-factor-chain.ts]
    and its provers, [clerk-session-verifier.ts])

    [Module SecondFactor]: the provers of an administrator's second factor and the
    chain that asks them.  [Module Guard]: what stands before every route.  The
    verification of a signed token is a library's, so a parameter. *)

From Stdlib Require Import Ascii SpecFloat.
From S2P Require Import Prelude JsNumber Text Columns Ledger Bookings AuditLog.
From S2P Require Import IdentityStore Identity.

#[local] Open Scope string_scope.
#[local] Open Scope list_scope.
#[local] Open Scope Z_scope.

(** A value of unknown type, as a token's claims hold. *)
Inductive Unknown : Type :=
  | u_undefined
  | u_number (x : Js.number)
  | u_string (s : string)
  | u_array (l : list Unknown)
  | u_other.

Module SecondFactor.
Import Identity.

(** A header of a Fastify request. *)
Inductive Header : Type := absent | one (s : string) | many (l : list string).

Record SecondFactorEvidence : Type := mkEvidence {
  session : VerifiedSession;
  headers : string -> Header }.

Record SecondFactorAnswer : Type := mkAnswer { ageMinutes : Js.number; provenBy : string }.

Record SecondFactorDecision : Type := mkDecision {
  proof : option SecondFactorAnswer;
  attempts : list SecondFactorAnswer }.

(** One way of proving a second factor; it may throw. *)
Record AdminSecondFactor : Type := mkProver {
  name : string;
  bypassesSecondFactor : bool;
  answer : SecondFactorEvidence -> result (option Js.number) }.

Definition MAX_SECOND_FACTOR_AGE_MINUTES : Z := 12 * 60.

(** ** [SecondFactorChain] *)
Definition ask (p : AdminSecondFactor) (ev : SecondFactorEvidence) : option Js.number :=
  match answer p ev with
  | Err _ | Ok None => None
  | Ok (Some age) =>
      if negb (Js.is_finite age) || Js.ltb age (Js.of_Z 0) then None else Some age
  end.

(** The loop of [prove], after the provers whose answers are [asked]. *)
Fixpoint prove_loop (maximum : Js.number) (ps : list AdminSecondFactor) (ev : SecondFactorEvidence)
    (asked : list SecondFactorAnswer) : SecondFactorDecision :=
  match ps with
  | [] => mkDecision None asked
  | p :: ps' =>
      match ask p ev with
      | None => prove_loop maximum ps' ev asked
      | Some age =>
          let attempt := mkAnswer age (name p) in
          if Js.leb age maximum then mkDecision (Some attempt) (asked ++ [attempt])
          else prove_loop maximum ps' ev (asked ++ [attempt])
      end
  end.

Definition prove (maximum : Js.number) (ps : list AdminSecondFactor) (ev : SecondFactorEvidence)
  : SecondFactorDecision := prove_loop maximum ps ev [].

Definition proverNames (ps : list AdminSecondFactor) : list string := name <$> ps.
Definition chain_bypasses (ps : list AdminSecondFactor) : bool := existsb bypassesSecondFactor ps.

(** ** The provers *)
Definition ClerkSecondFactor : AdminSecondFactor :=
  mkProver "clerk-fva" false (fun ev => Ok (secondFactorAgeMinutes (session ev))).

Definition DevelopmentSecondFactor : AdminSecondFactor :=
  mkProver "development-bypass" true (fun _ => Ok (Some (Js.of_Z 0))).

Definition ACCESS_ASSERTION_HEADER : string := "cf-access-jwt-assertion".

Definition assertionFrom (h : Header) : option string :=
  match h with
  | one s =>
      let token := trim s in
      if bool_decide (token = "") || existsb (fun c => bool_decide (c = ","%char)) (chars token) then None
      else Some token
  | _ => None
  end.

Definition is_text (u : Unknown) : bool :=
  match u with u_string s => negb (bool_decide (s = "")) | _ => false end.

Definition isHumanIdentity (claims : string -> Unknown) : bool :=
  match claims "common_name" with
  | u_undefined => true
  | u_string s => bool_decide (s = "")
  | _ => false
  end && is_text (claims "email") && is_text (claims "sub").

(** [Math.floor] of a number that is a number. *)
Definition floor (x : Js.number) : Js.number :=
  match Js.floor x with Some z => Js.of_Z z | None => x end.

Definition ageInMinutes (iat : Unknown) (now : instant) : option Js.number :=
  match iat with
  | u_number x =>
      if negb (Js.is_finite x) then None
      else
        let seconds := Js.add (floor (Js.div (Js.of_Z now) (Js.of_Z 1000))) (SFopp x) in
        if Js.ltb seconds (Js.of_Z 0) then None
        else Some (floor (Js.div seconds (Js.of_Z 60)))
  | _ => None
  end.

Definition CloudflareAccessSecondFactor (verify : string -> result (string -> Unknown)) (now : instant)
  : AdminSecondFactor :=
  mkProver "cloudflare-access" false (fun ev =>
    match assertionFrom (headers ev ACCESS_ASSERTION_HEADER) with
    | None => Ok None
    | Some token =>
        match verify token with
        | Err _ => Ok None
        | Ok claims => if negb (isHumanIdentity claims) then Ok None else Ok (ageInMinutes (claims "iat") now)
        end
    end).

(** [access] is [options.access], with its verifier. *)
Definition composeSecondFactor (allowWithoutSecondFactor : bool)
    (access : option (string -> result (string -> Unknown))) (now : instant) : list AdminSecondFactor :=
  [ClerkSecondFactor] ++
  (match access with Some v => [CloudflareAccessSecondFactor v now] | None => [] end) ++
  (if allowWithoutSecondFactor then [DevelopmentSecondFactor] else []).

(** ** [ClerkSessionVerifier] *)
Definition secondFactorAge (fva : Unknown) : option Js.number :=
  match fva with
  | u_array l =>
      match nth 1 l u_undefined with
      | u_number x => if negb (Js.is_finite x) then None else if Js.ltb x (Js.of_Z 0) then None else Some x
      | _ => None
      end
  | _ => None
  end.

Record VerifiedClaims : Type := mkClaims {
  fva : Unknown;
  sub : Unknown;
  sid : Unknown;
  claim_email : Unknown }.

Definition text_of (u : Unknown) : option string :=
  match u with u_string s => if bool_decide (s = "") then None else Some s | _ => None end.

Definition verify (verifyToken : string -> result VerifiedClaims) (token : string) : result VerifiedSession :=
  match verifyToken token with
  | Err _ => Err (SessionVerificationError "session token is not valid")
  | Ok claims =>
      match text_of (sub claims), text_of (sid claims), text_of (claim_email claims) with
      | Some s, Some i, Some e => Ok (mkVerified s i e (secondFactorAge (fva claims)))
      | _, _, _ => Err (SessionVerificationError "session token is not valid")
      end
  end.
End SecondFactor.

Module Guard.
Import Identity IdentityDb SecondFactor.

(** What [@Roles] and [@AllowsSuspended] say about a route. *)
Record Route : Type := mkRoute { required : option (list UserRole); allowsSuspended : bool }.

(** What the guard attaches to the request it admits. *)
Record Authenticated : Type := mkAuthenticated {
  req_user : MirroredUser;
  req_sessionId : string;
  req_clientIp : option string }.

Definition AUTHORIZATION_HEADER : string := "authorization".
Definition CLIENT_IP_HEADER : string := "x-client-ip".

Fixpoint split_on (c : ascii) (l : text) : list text :=
  match l with
  | [] => [[]]
  | x :: l' =>
      match split_on c l' with
      | w :: ws => if bool_decide (x = c) then [] :: w :: ws else (x :: w) :: ws
      | [] => [[x]]
      end
  end.

Definition bearerToken (header : Header) : option string :=
  match header with
  | one h =>
      match List.filter (fun part => negb (bool_decide (part = []))) (split_on " "%char (chars h)) with
      | [scheme; token] => if bool_decide (lower (str scheme) = "bearer") then Some (str token) else None
      | _ => None
      end
  | _ => None
  end.

Section Guard.
Context {Ids : UuidSource} {Pg : PgTypes} {Order : DescOrder} {W : Type} {Ports : IdentityPorts W}.
Variable rival : World W -> World W.
Variable within : Db -> Db.
Variable verifier : string -> result VerifiedSession.
Variable provers : list AdminSecondFactor.

Definition clientIpFrom (headers : string -> Header) : option string :=
  validIpOrNull (match headers CLIENT_IP_HEADER with one s => Some s | _ => None end).

Definition verify_session (token : string) : M (World W) VerifiedSession :=
  catch (lift (verifier token))
    (fun e => match e with SessionVerificationError _ => throw UnauthorizedException | _ => throw e end).

Definition resolve (session : VerifiedSession) (clientIp : option string) : M (World W) MirroredUser :=
  catch (resolveSession rival within session clientIp)
    (fun e => match e with AccountDeletedError => throw UnauthorizedException | _ => throw e end).

Definition refuseIfSuspended (route : Route) (user : MirroredUser) : M (World W) () :=
  if negb (is_set (suspendedAt user)) then mret tt
  else if allowsSuspended route then mret tt
  else throw ForbiddenException.

Definition requireSecondFactor (evidence : SecondFactorEvidence) : M (World W) () :=
  match proof (prove (Js.of_Z MAX_SECOND_FACTOR_AGE_MINUTES) provers evidence) with
  | None => throw ForbiddenException
  | Some _ => mret tt
  end.

Definition authorise (route : Route) (user : MirroredUser) (evidence : SecondFactorEvidence)
  : M (World W) () :=
  _ ← refuseIfSuspended route user;
  match required route with
  | None | Some [] => mret tt
  | Some roles =>
      if negb (bool_decide (role user ∈ roles)) then throw ForbiddenException
      else if bool_decide (ADMIN ∈ roles) then requireSecondFactor evidence
      else mret tt
  end.

Definition canActivate (route : Route) (headers : string -> Header) : M (World W) Authenticated :=
  match bearerToken (headers AUTHORIZATION_HEADER) with
  | None => throw UnauthorizedException
  | Some token =>
      session ← verify_session token;
      let clientIp := clientIpFrom headers in
      user ← resolve session clientIp;
      _ ← authorise route user (mkEvidence session headers);
      mret (mkAuthenticated user (vs_sessionId session) clientIp)
  end.
End Guard.
End Guard.
