(* ===== verification/IdentityTheorems.v ===== *)
(** * Identity: what holds whatever else is happening

    The theorems quantify over schedules: any sequence of requests, each with any
    sequences of other requests' statements at its awaits and between the
    statements of its adapters. *)

From S2P Require Import Prelude JsNumber Text Columns Ledger Bookings AuditLog.
From S2P Require Import IdentityStore Identity IdentityProofs IdentityRows SecondFactor.

#[local] Open Scope string_scope.
#[local] Open Scope list_scope.
#[local] Open Scope Z_scope.

Import IdentityDb Identity SecondFactor Guard.
Import AuditDb (Actor, mkActor, actor_userId, actor_ipAddress, actor_sessionId, entries).

(** ** Schedules *)
Section Schedules.
Context {Ids : UuidSource} {Pg : PgTypes} {Order : DescOrder} {W : Type} {Ports : IdentityPorts W}.
Variable verifier : string -> result VerifiedSession.
Variable provers : list AdminSecondFactor.

Inductive call : Type :=
  | CActivate (route : Route) (headers : string -> Header)
  | CEvent (externalId : string) (event : IdentityEvent)
  | CView (actor : Actor) (userId reason : string)
  | CSuspend (actor : Actor) (userId reason : string)
  | CReinstate (actor : Actor) (userId reason : string)
  | CPropose (actor : Actor) (userId : string) (role_ : UserRole) (reason : string)
  | CApprove (actor : Actor) (approvalId reason : string)
  | CCancel (actor : Actor) (approvalId reason : string)
  | CDelete (actor : Actor).

Definition serve (rival : World W -> World W) (within : Db -> Db) (c : call) (w : World W) : World W :=
  match c with
  | CActivate r h => fst (canActivate rival within verifier provers r h w)
  | CEvent x e => fst (applyEvent rival within x e w)
  | CView a u why => fst (adminViewFor rival a u why w)
  | CSuspend a u why => fst (suspend rival a u why w)
  | CReinstate a u why => fst (reinstate rival a u why w)
  | CPropose a u r why => fst (proposeRoleChange rival a u r why w)
  | CApprove a i why => fst (approve rival a i why w)
  | CCancel a i why => fst (cancelApproval rival a i why w)
  | CDelete a => fst (requestDeletion rival a w)
  end.

Record turn : Type := mkTurn { served : call; between : World W -> World W; inside : Db -> Db }.
Definition turn_ok (t : turn) : Prop := rival_ok (between t) /\ does (inside t).

Definition run (ts : list turn) (w : World W) : World W :=
  fold_left (fun w t => serve (between t) (inside t) (served t) w) ts w.

Hypothesis Heraser : eraser_ok.

Lemma acts_canActivate rival within r h :
  rival_ok rival -> does within -> acts (canActivate rival within verifier provers r h).
Proof.
  intros Hr Hw. unfold canActivate. walk_identity.
  - unfold verify_session. apply acts_catch; [by apply acts_same|]. intros []; by apply acts_same.
  - unfold resolve. apply acts_catch; [by apply acts_resolveSession|]. intros []; by apply acts_same.
  - unfold refuseIfSuspended. walk_identity.
  - unfold requireSecondFactor. walk_identity.
Qed.

Lemma serve_acts (rival : World W -> World W) (within : Db -> Db) (c : call) (w : World W) :
  rival_ok rival -> does within -> exists ss, idb (serve rival within c w) = exec ss (idb w).
Proof.
  intros Hr Hw. destruct c; cbn [serve].
  - by apply acts_canActivate.
  - by apply acts_applyEvent.
  - by apply acts_adminViewFor.
  - by apply acts_suspend.
  - by apply acts_reinstate.
  - by apply acts_proposeRoleChange.
  - by apply acts_approve.
  - by apply acts_cancelApproval.
  - by apply acts_requestDeletion.
Qed.

Lemma run_acts (ts : list turn) (w : World W) :
  Forall turn_ok ts -> exists ss, idb (run ts w) = exec ss (idb w).
Proof.
  intros Hts. revert w. induction Hts as [|t ts [Hr Hi] _ IH]; intros w; [by exists []|].
  destruct (serve_acts (between t) (inside t) (served t) w Hr Hi) as [ss Hss].
  destruct (IH (serve (between t) (inside t) (served t) w)) as [ss' Hss'].
  exists (ss ++ ss'). rewrite exec_app, <- Hss. exact Hss'.
Qed.

Lemma run_evolves (ts : list turn) (w : World W) :
  Forall turn_ok ts -> acct_wf (idb w) -> acct_wf (idb (run ts w)) /\ evolves (idb w) (idb (run ts w)).
Proof. intros Hts Hwf. destruct (run_acts ts w Hts) as [ss ->]. by apply exec_evolves. Qed.

(** ** Four eyes *)
(** C7. After any schedule of requests and webhooks, disturbed at every await by others, an
    account's role differs from what it was only if a proposal naming that account and that
    role has been approved since, before it expired, by an existing account other than the
    one that proposed it. *)
Theorem role_changes_take_two (ts : list turn) (w : World W) (i : string) :
  Forall turn_ok ts -> acct_wf (idb w) -> role_in (idb (run ts w)) i <> role_in (idb w) i ->
  exists a approver t, a ∈ approvals (idb (run ts w)) /\ backs a i (role_in (idb (run ts w)) i) /\
    ~ approved_in (idb w) (appr_id a) /\
    appr_approvedById a = Some approver /\ approver <> appr_proposedById a /\
    known (idb (run ts w)) approver = true /\ known (idb (run ts w)) (appr_proposedById a) = true /\
    appr_approvedAt a = Some t /\ t < appr_expiresAt a.
Proof.
  intros Hts Hwf Hne. destruct (run_evolves ts w Hts Hwf) as [Hwf' Hev].
  destruct (ev_roles _ _ Hev i) as [?|(a & Ha & Hb & Hn)]; [done|].
  pose proof (wf_approvals _ Hwf') as Hall. rewrite Forall_forall in Hall.
  destruct (Hall a Ha) as [Hc Hwin Hp Happ]. pose proof (proj1 Hb) as Hset.
  unfold approval_refusal in Hc. destruct (appr_approvedAt a) as [t|] eqn:Ht; [|done].
  destruct (appr_approvedById a) as [b|] eqn:Hby.
  - exists a, b, t. split_and!; [done..| |by apply Happ|done|done|by apply Hwin].
    intros ->. by rewrite bool_decide_eq_true_2 in Hc.
  - exfalso. rewrite bool_decide_eq_false_2 in Hc by done. done.
Qed.

(** ** Accounts *)
(** After any schedule of requests and webhooks no two accounts share a Clerk user or an
    email in any letter case, every account keeps its id, Clerk user and date of creation,
    and every recorded sign-in belongs to an account. *)
Theorem accounts_stay_distinct (ts : list turn) (w : World W) :
  Forall turn_ok ts -> acct_wf (idb w) ->
  (forall r r', r ∈ users (idb (run ts w)) -> r' ∈ users (idb (run ts w)) ->
     user_clerkUserId r = user_clerkUserId r' \/ lower (user_email r) = lower (user_email r') -> r = r') /\
  (forall r, r ∈ users (idb w) -> exists r', r' ∈ users (idb (run ts w)) /\ user_id r' = user_id r /\
     user_clerkUserId r' = user_clerkUserId r /\ user_createdAt r' = user_createdAt r) /\
  (forall s, s ∈ signIns (idb (run ts w)) -> exists r, r ∈ users (idb (run ts w)) /\ user_id r = sign_userId s).
Proof.
  intros Hts Hwf. destruct (run_evolves ts w Hts Hwf) as [Hwf' Hev]. split_and!.
  - intros r r' Hr Hr' [H|H].
    + pose proof (find_by_unique user_clerkUserId _ r (wf_clerk_ids _ Hwf') Hr) as H1.
      pose proof (find_by_unique user_clerkUserId _ r' (wf_clerk_ids _ Hwf') Hr') as H2. congruence.
    + pose proof (find_by_unique _ _ r (wf_emails _ Hwf') Hr) as H1.
      pose proof (find_by_unique _ _ r' (wf_emails _ Hwf') Hr') as H2. cbn in *. congruence.
  - intros r Hr. destruct (ev_accounts _ _ Hev r Hr) as (r' & H1 & H2 & H3 & H4 & _). by exists r'.
  - intros s Hs. pose proof (wf_sign_users _ Hwf') as Hall. rewrite Forall_forall in Hall.
    specialize (Hall s Hs). apply known_iff in Hall as (r & Hr & Hin)%list_elem_of_fmap. by exists r.
Qed.

(** ** Deletion is for good *)
Lemma clerk_row (db : Db) (r : UserRow) :
  acct_wf db -> r ∈ users db -> by_clerk_id (user_clerkUserId r) db = Some r.
Proof. intros Hwf Hr. by apply find_by_unique; [apply (wf_clerk_ids _ Hwf)|]. Qed.

(** C8. Once an account is deleted no later schedule of requests or webhooks lets it back
    in: a valid session of its Clerk user is refused and writes nothing, and the guard
    answers 401 on every route. *)
Theorem deleted_stays_out (ts : list turn) (w : World W) (r : UserRow) (rival : World W -> World W)
    (within : Db -> Db) (session : VerifiedSession) (ip : option string) :
  Forall turn_ok ts -> acct_wf (idb w) -> r ∈ users (idb w) -> is_set (user_deletedAt r) = true ->
  vs_clerkUserId session = user_clerkUserId r ->
  resolveSession rival within session ip (run ts w) = (run ts w, Err AccountDeletedError) /\
  (forall token headers route, bearerToken (headers AUTHORIZATION_HEADER) = Some token ->
     verifier token = Ok session ->
     canActivate rival within verifier provers route headers (run ts w) =
       (run ts w, Err UnauthorizedException)).
Proof.
  intros Hts Hwf Hr Hdel Hs. destruct (run_evolves ts w Hts Hwf) as [Hwf' Hev].
  destruct (ev_accounts _ _ Hev r Hr) as (r' & Hr' & _ & Hc & _ & Hd).
  assert (forall ip', resolveSession rival within session ip' (run ts w) = (run ts w, Err AccountDeletedError)) as Hres.
  { intros ip'. unfold resolveSession, on_db, upsert. unfold_M. unfold findByClerkUserId.
    rewrite Hs, <- Hc, (clerk_row _ r') by done. cbn. rewrite (Hd Hdel). by destruct (run ts w). }
  split; [done|]. intros token headers route Hb Hv. unfold canActivate. rewrite Hb.
  unfold verify_session, resolve. unfold_M. rewrite Hv. cbn. by rewrite Hres.
Qed.

(** ** The trail only grows *)
(** No request, webhook or deletion edits or removes an audit entry, whatever interleaves:
    the trail before is a prefix of the trail after, and ids never repeat. *)
Theorem trail_only_grows (ts : list turn) (w : World W) :
  Forall turn_ok ts -> acct_wf (idb w) ->
  entries (trail (idb w)) `prefix_of` entries (trail (idb (run ts w))) /\
  NoDup (AuditDb.audit_id <$> entries (trail (idb (run ts w)))).
Proof.
  intros Hts Hwf. destruct (run_evolves ts w Hts Hwf) as [Hwf' Hev].
  split; [apply (ev_trail _ _ Hev)|apply (wf_trail _ Hwf')].
Qed.

(** ** Deliveries *)
Definition claimed (externalId : string) (db : Db) : Prop :=
  (CLERK_PROVIDER, externalId) ∈ delivery_key <$> deliveries db.

Lemma claim_claims (d : WebhookDelivery) (db : Db) :
  (wh_provider d, wh_externalId d) ∈ delivery_key <$> deliveries (fst (claim d db)).
Proof.
  unfold claim. destruct (find_by _ _ _) as [x|] eqn:H; cbn.
  - apply find_by_Some in H as [Hx <-]. by apply list_elem_of_fmap_2.
  - rewrite fmap_app, elem_of_app. right. left.
Qed.

Lemma applied_already (rival : World W -> World W) (within : Db -> Db) (x : string) (e : IdentityEvent)
    (w : World W) : claimed x (idb w) -> applyEvent rival within x e w = (w, Ok false).
Proof.
  intros (d & Hk & Hd)%list_elem_of_fmap. unfold applyEvent, on_db, claim. unfold_M.
  cbn [wh_provider wh_externalId].
  destruct (find_by delivery_key (CLERK_PROVIDER, x) (deliveries (idb w))) eqn:H; [by destruct w|].
  apply find_by_None in H. exfalso. apply H. rewrite Hk. by apply list_elem_of_fmap_2.
Qed.

(** A webhook delivery acts at most once: from its claim on, whatever else has run and even
    if its first handling failed, the same delivery again answers false and writes nothing;
    and a delivery writes nothing before its claim. *)
Theorem delivery_applied_once (x : string) (e e' : IdentityEvent) (w w' : World W) (ss : list statement)
    (rival rival' : World W -> World W) (within within' : Db -> Db) :
  acct_wf (idb w) -> rival_ok rival -> does within ->
  idb w' = exec ss (fst (claim (mkWebhook CLERK_PROVIDER x (event_name e)) (idb w))) ->
  applyEvent rival' within' x e' w' = (w', Ok false) /\
  exists ss', idb (fst (applyEvent rival within x e w)) =
    exec ss' (fst (claim (mkWebhook CLERK_PROVIDER x (event_name e)) (idb w))).
Proof.
  intros Hwf Hr Hw Hw'. split.
  - apply applied_already. unfold claimed. rewrite Hw'.
    destruct (claim_evolves (mkWebhook CLERK_PROVIDER x (event_name e)) (idb w) Hwf) as [Hwf1 _].
    apply (ev_deliveries _ _ (proj2 (exec_evolves ss _ Hwf1))).
    apply (claim_claims (mkWebhook CLERK_PROVIDER x (event_name e))).
  - unfold applyEvent. unfold mbind at 1, M_bind at 1. unfold on_db at 1.
    destruct (claim _ (idb w)) as [db1 [b|err]]; cbn [fst]; [|by exists []].
    assert (acts (if negb b then mret false else
      _ ← await rival; _ ← Identity.apply rival within e; _ ← await rival;
      _ ← on_db (markProcessed CLERK_PROVIDER x); mret true)) as Hact; [|apply (Hact (mkWorld db1 (rest w)))].
    destruct (negb b); [by apply acts_same|]. pose proof (acts_await rival Hr).
    pose proof (acts_apply rival within Hr Hw Heraser e). walk_identity.
Qed.
End Schedules.
