(* ===== verification/IdentityOutcomes.v ===== *)
(** * Identity: what one request does, undisturbed

    The exact effect of suspending, reinstating, approving and deleting when no
    other request runs in between, refusals included; and that such requests never
    leave the platform without a usable administrator. *)

From S2P Require Import Prelude JsNumber Text Columns Ledger Bookings AuditLog.
From S2P Require Import IdentityStore Identity IdentityProofs IdentityRows.

#[local] Open Scope string_scope.
#[local] Open Scope list_scope.
#[local] Open Scope Z_scope.

Import IdentityDb Identity.
Import AuditDb (Actor, mkActor, actor_userId, actor_ipAddress, actor_sessionId, AuditAction, entries, eseq,
  account_suspended, account_reinstated, admin_approval_granted, account_deletion_requested).

Notation calm := Datatypes.id (only parsing).

Section Outcomes.
Context {Ids : UuidSource} {Pg : PgTypes} {Order : DescOrder} {W : Type} {Ports : IdentityPorts W}.

(** An actor as the guard attaches it: a known account, by its own id, and an
    address an [inet] column takes. *)
Record admitted (db : Db) (a : Actor) : Prop := {
  adm_known : known db (actor_userId a) = true;
  adm_id : uuid_in (actor_userId a) = Some (actor_userId a);
  adm_ip : forall ip, actor_ipAddress a = Some ip -> inet_in ip = true }.

(** The account an id in a request names. *)
Definition target_of (userId : string) (db : Db) : option UserRow :=
  if isAccountId userId then by_user_id (lower userId) db else None.

Lemma findById_run (i : string) (db : Db) : findById i db = (db, Ok (toMirroredUser <$> target_of i db)).
Proof.
  unfold findById, target_of. destruct (isAccountId i) eqn:Hi; cbn [negb]; [|done].
  unfold as_uuid. rewrite (uuid_in_account i) by done. done.
Qed.

Lemma on_db_findById (i : string) (w : World W) :
  on_db (findById i) w = (w, Ok (toMirroredUser <$> target_of i (idb w))).
Proof. unfold on_db. rewrite findById_run. by destruct w. Qed.

Lemma target_found (i : string) (db : Db) (r : UserRow) :
  target_of i db = Some r -> r ∈ users db /\ uuid_in i = Some (user_id r).
Proof.
  unfold target_of. destruct (isAccountId i) eqn:Hi; [|done]. intros [Hr Hid]%find_by_Some.
  split; [done|]. rewrite (uuid_in_account i) by done. by rewrite Hid.
Qed.

Lemma own_id (db : Db) (r : UserRow) : acct_wf db -> r ∈ users db -> uuid_in (user_id r) = Some (user_id r).
Proof.
  intros Hwf Hr. pose proof (wf_user_issued _ Hwf) as H. rewrite Forall_forall in H.
  destruct (H r Hr) as (k & _ & ->). apply uuid_in_out.
Qed.

Lemma email_own (db : Db) (r : UserRow) :
  acct_wf db -> r ∈ users db -> email_taken (user_id r) (user_email r) db = false.
Proof.
  intros Hwf Hr. apply existsb_none, Forall_forall. intros x Hx.
  destruct (decide (user_id x = user_id r)) as [|Hne]; [by rewrite bool_decide_eq_true_2|].
  rewrite bool_decide_eq_false_2 by done. apply bool_decide_eq_false_2. intros He. apply Hne.
  pose proof (find_by_unique _ _ x (wf_emails _ Hwf) Hx) as H1.
  pose proof (find_by_unique _ _ r (wf_emails _ Hwf) Hr) as H2. cbn in *. congruence.
Qed.

(** A trail with one more row. *)
Definition noted (a : option Actor) (act : AuditAction) (target : string)
    (b c : option AuditableAccount) (why : option string) (db : Db) : Db :=
  with_trail (AuditDb.mkTrail (entries (trail db) ++ [AuditDb.mkAuditRow (uuid (eseq (trail db)))
    (AuditDb.mkEntry (actor_userId <$> a) act "user" target (digest <$> b) (digest <$> c)
       (match a with Some a => actor_ipAddress a | None => None end)
       (match a with Some a => actor_sessionId a | None => None end) why) (iclock db)])
    (S (eseq (trail db)))) db.

Lemma audit_run (a : Actor) (act : AuditAction) (i target : string) (b c : option AuditableAccount)
    (why : option string) (w : World W) :
  admitted (idb w) a -> uuid_in i = Some target ->
  audit calm (Some a) act i b c why w =
    (mkWorld (noted (Some a) act target b c why (idb w)) (rest w), Ok tt).
Proof.
  intros [Hk Hid Hip] Hi. unfold audit, on_db, await, noted, Audit.record, AuditDb.record, as_uuid_opt, as_uuid.
  unfold_M. cbn -[known]. rewrite Hid. unfold_M. cbn -[known]. rewrite Hi. unfold_M. cbn -[known].
  destruct (actor_ipAddress a) as [ip|] eqn:He; [rewrite (Hip ip) by done|]; cbn -[known]; by rewrite Hk.
Qed.

(** An update of a known row that its constraints accept. *)
Lemma update_user_run (f : UserRow -> UserRow) (r : UserRow) (i : string) (db : Db) :
  acct_wf db -> r ∈ users db -> uuid_in i = Some (user_id r) ->
  email_taken (user_id r) (user_email (f r)) db = false -> suspension_is_complete (f r) = true ->
  (forall b, user_suspendedById (f r) = Some b -> known db b = true) ->
  update_user i f db = (with_users (replaced (f r) (users db)) db, Ok (f r)).
Proof.
  intros Hwf Hr Hid Hfree Hs Hb. unfold update_user, as_uuid. rewrite Hid. unfold_M.
  unfold by_user_id. rewrite (find_by_unique user_id _ r (wf_user_ids _ Hwf) Hr). rewrite Hfree, Hs. cbn.
  destruct (user_suspendedById (f r)) as [b|] eqn:He; [|done]. by rewrite (Hb b).
Qed.

Lemma replaced_ids (r : UserRow) (l : list UserRow) : user_id <$> replaced r l = user_id <$> l.
Proof.
  unfold replaced. rewrite <- list_fmap_compose. apply list_fmap_ext. intros _ x _. cbn.
  by case_bool_decide.
Qed.

Lemma admitted_users (db : Db) (l : list UserRow) (a : Actor) :
  user_id <$> l = user_id <$> users db -> admitted db a -> admitted (with_users l db) a.
Proof. intros Hl [H1 H2 H3]. split; [|done..]. rewrite <- H1. by apply known_ext. Qed.

(** ** Suspending and reinstating *)
Definition suspended_row (a : Actor) (why : string) (t : instant) (r : UserRow) : UserRow :=
  set_suspension (Some t) (Some (actor_userId a)) (Some why) r.

(** The account an administrator may suspend. *)
Definition suspendable (db : Db) (a : Actor) (userId : string) : option UserRow :=
  match target_of userId db with
  | Some r =>
      if bool_decide (userId = actor_userId a) || is_set (user_deletedAt r) || is_set (user_suspendedAt r) ||
         (bool_decide (user_role r = ADMIN) && (countAdministrators db <=? 1)%nat)
      then None else Some r
  | None => None
  end.

Definition after_suspension (a : Actor) (why : string) (r : UserRow) (db : Db) : Db :=
  let r' := suspended_row a why (iclock db) r in
  noted (Some a) account_suspended (user_id r) (Some (auditableAccount (toMirroredUser r)))
    (Some (auditableAccount (toMirroredUser r'))) (Some why) (with_users (replaced r' (users db)) db).

Lemma requireSuspendable_run (a : Actor) (u : string) (selfAllowed : bool) (w : World W) :
  requireSuspendable a u selfAllowed w =
    (w, if negb selfAllowed && bool_decide (u = actor_userId a)
        then Err (ApprovalRefusedError "you cannot suspend yourself — you would not be able to undo it")
        else match target_of u (idb w) with
             | None => Err (ApprovalRefusedError "no such account")
             | Some r => if is_set (user_deletedAt r)
                         then Err (ApprovalRefusedError "that account has been deleted")
                         else Ok (toMirroredUser r)
             end).
Proof.
  unfold requireSuspendable. destruct (negb selfAllowed && _); [done|].
  rewrite bind_at, on_db_findById. destruct (target_of u (idb w)) as [r|]; [|done]. cbn.
  by destruct (is_set (user_deletedAt r)).
Qed.

(** Setting the three columns of a suspension. *)
Lemma setSuspension_run (r : UserRow) (s : option Suspension) (w : World W) :
  acct_wf (idb w) -> r ∈ users (idb w) ->
  (forall x, s = Some x -> uuid_in (susp_byId x) = Some (susp_byId x) /\ known (idb w) (susp_byId x) = true) ->
  let r' := set_suspension (susp_at <$> s) (susp_byId <$> s) (susp_reason <$> s) r in
  on_db (setSuspension (user_id r) s) w =
    (mkWorld (with_users (replaced r' (users (idb w))) (idb w)) (rest w), Ok (toMirroredUser r')).
Proof.
  intros Hwf Hr Hs r'. unfold on_db, setSuspension.
  assert (as_uuid_opt (S := Db) (susp_byId <$> s) (idb w) = (idb w, Ok (susp_byId <$> s))) as Hid.
  { unfold as_uuid_opt, as_uuid. destruct s as [x|]; [|done]. cbn. by rewrite (proj1 (Hs x eq_refl)). }
  rewrite (bind_run _ _ _ _ _ Hid), bind_at.
  rewrite (update_user_run (set_suspension (susp_at <$> s) (susp_byId <$> s) (susp_reason <$> s)) r);
    [done..|by apply (own_id (idb w))|exact (email_own _ r Hwf Hr)|by destruct s|].
  - intros b Hb. destruct s as [x|]; [|done]. injection Hb as <-. apply (Hs x eq_refl).
Qed.

Lemma refuseIfLast_run (r : UserRow) (x : option UserRole) (w : World W) :
  refuseIfLastAdministrator calm (toMirroredUser r) x w =
    (w, if negb (bool_decide (x = Some ADMIN)) && bool_decide (user_role r = ADMIN) &&
           (countAdministrators (idb w) <=? 1)%nat
        then Err (ApprovalRefusedError LAST_ADMINISTRATOR) else Ok tt).
Proof.
  unfold refuseIfLastAdministrator. destruct (bool_decide (x = Some ADMIN)); [done|]. cbn [negb andb].
  change (role (toMirroredUser r)) with (user_role r).
  destruct (bool_decide (user_role r = ADMIN)); [|done]. unfold await. unfold_M. cbn. by destruct (_ <=? 1)%nat.
Qed.

(** Suspending either refuses, writing nothing, or stores who, when and why with an audit
    entry; it refuses exactly for an unknown, deleted or already suspended account, one's
    own id, and the last administrator who can act. *)
Theorem suspend_outcomes (a : Actor) (userId why : string) (w : World W) :
  acct_wf (idb w) -> admitted (idb w) a ->
  match suspendable (idb w) a userId with
  | None => exists refusal, suspend calm a userId why w = (w, Err (ApprovalRefusedError refusal))
  | Some r =>
      suspend calm a userId why w =
        (mkWorld (after_suspension a why r (idb w)) (rest w),
         Ok (toMirroredUser (suspended_row a why (now w) r)))
  end.
Proof.
  intros Hwf Ha. unfold suspendable, suspend. rewrite bind_at, requireSuspendable_run. cbn [negb andb].
  destruct (bool_decide (userId = actor_userId a)); [destruct (target_of _ _); by eexists|].
  destruct (target_of userId (idb w)) as [r|] eqn:Hr; [|by eexists]. apply target_found in Hr as [Hr _].
  destruct (is_set (user_deletedAt r)); [by eexists|]. cbn [orb].
  change (suspendedAt (toMirroredUser r)) with (user_suspendedAt r).
  destruct (is_set (user_suspendedAt r)); [by eexists|]. cbn [orb].
  rewrite bind_at, refuseIfLast_run. cbn [negb andb bool_decide].
  rewrite (bool_decide_eq_false_2 (None = Some ADMIN)) by done. cbn [negb andb].
  destruct (bool_decide (user_role r = ADMIN) && _); [by eexists|].
  rewrite bind_at. cbn [gets]. rewrite bind_at. cbn [await modify Datatypes.id].
  rewrite bind_at, (setSuspension_run r) by (done || (intros x [= <-]; split; apply Ha)).
  rewrite bind_at, (audit_run a _ _ (user_id r)); [done|..].
  - apply admitted_users; [apply replaced_ids|done].
  - by apply (own_id (idb w)).
Qed.

Lemma replaced_twice (r r' : UserRow) (l : list UserRow) :
  user_id r' = user_id r -> replaced r' (replaced r l) = replaced r' l.
Proof.
  intros He. unfold replaced. rewrite <- list_fmap_compose. apply list_fmap_ext. intros _ x _. cbn.
  destruct (decide (user_id x = user_id r)) as [Hx|Hx].
  - rewrite (bool_decide_eq_true_2 (user_id x = user_id r)) by done. by rewrite He, Hx, bool_decide_eq_true_2.
  - by rewrite (bool_decide_eq_false_2 (user_id x = user_id r)) by done.
Qed.

Lemma replaced_view {B} (g : UserRow -> B) (r r' : UserRow) (l : list UserRow) :
  NoDup (user_id <$> l) -> r ∈ l -> user_id r' = user_id r -> g r' = g r -> g <$> replaced r' l = g <$> l.
Proof.
  intros Hnd Hr Hid Hg. unfold replaced. rewrite <- list_fmap_compose. apply list_fmap_ext. intros i x Hx. cbn.
  case_bool_decide as He; [|done]. rewrite Hg. f_equal.
  pose proof (find_by_unique user_id l x Hnd (list_elem_of_lookup_2 _ _ _ Hx)) as H1.
  pose proof (find_by_unique user_id l r Hnd Hr) as H2. congruence.
Qed.

(** Lifting a suspension gives every account back as it was. *)
Lemma target_mem (db : Db) (i : string) (r : UserRow) :
  acct_wf db -> isAccountId i = true -> r ∈ users db -> uuid_in i = Some (user_id r) -> target_of i db = Some r.
Proof.
  intros Hwf Hi Hr Hu. unfold target_of. rewrite Hi. rewrite (uuid_in_account i) in Hu by done.
  injection Hu as ->. by apply find_by_unique; [apply (wf_user_ids _ Hwf)|].
Qed.

Lemma after_suspension_wf (a : Actor) (why : string) (r : UserRow) (db : Db) :
  acct_wf db -> admitted db a -> r ∈ users db -> acct_wf (with_users (replaced (suspended_row a why (iclock db) r) (users db)) db).
Proof.
  intros Hwf Ha Hr. apply (wf_replace db (user_id r) r); [done| |done|done|exact (email_own db r Hwf Hr)|].
  2: { split; [done|]. intros b [= <-]. apply (adm_known _ _ Ha). }
  by apply find_by_unique; [apply (wf_user_ids _ Hwf)|].
Qed.

Lemma noted_wf (a : option Actor) (act : AuditAction) (target : string) (b c : option AuditableAccount)
    (why : option string) (db : Db) : acct_wf db -> acct_wf (noted a act target b c why db).
Proof.
  intros Hwf. destruct Hwf as [W1 W2 W3 W4 W5 W6 W7 W8 W9 W10 W11 [W12 W13]]. split; try done.
  - by eapply Forall_impl; [exact W8|]; intros x [? ? ? ? ?]; split.
  - cbn. split.
    + apply Forall_app; split; [eapply Forall_impl; [exact W12|]; intros x; apply issued_mono; lia|].
      repeat constructor. exists (eseq (trail db)). split; [lia|done].
    + rewrite fmap_app. apply NoDup_snoc; [done|]. intros (x & Hx & Hin)%list_elem_of_fmap.
      rewrite Forall_forall in W12. specialize (W12 x Hin). rewrite <- Hx in W12. by apply issued_fresh in W12.
Qed.

(** Reinstating an account after its suspension succeeds and leaves every account as it was
    before. *)
Theorem reinstate_undoes_suspend (a b : Actor) (userId why why' : string) (w w1 : World W) (u : MirroredUser) :
  acct_wf (idb w) -> admitted (idb w) a -> admitted (idb w) b -> suspend calm a userId why w = (w1, Ok u) ->
  exists w2 u', reinstate calm b userId why' w1 = (w2, Ok u') /\
    toMirroredUser <$> users (idb w2) = toMirroredUser <$> users (idb w) /\
    toMirroredUser <$> target_of userId (idb w) = Some u'.
Proof.
  intros Hwf Ha Hb Hsus. pose proof (suspend_outcomes a userId why w Hwf Ha) as Hout.
  destruct (suspendable (idb w) a userId) as [r|] eqn:Hs; rewrite Hsus in Hout; [|by destruct Hout].
  injection Hout as -> ->. unfold suspendable in Hs.
  destruct (target_of userId (idb w)) as [r0|] eqn:Ht; [|done].
  destruct (_ || _) eqn:Hflags in Hs; [done|]. injection Hs as ->.
  apply orb_false_iff in Hflags as [[[_ Hdel]%orb_false_iff Hsusp]%orb_false_iff _].
  pose proof (target_found _ _ _ Ht) as [Hr Hu].
  assert (isAccountId userId = true) as Hacc by (unfold target_of in Ht; by destruct (isAccountId userId)).
  set (r' := suspended_row a why (iclock (idb w)) r). set (w1 := mkWorld (after_suspension a why r (idb w)) (rest w)).
  assert (acct_wf (idb w1)) as Hwf1 by (by apply noted_wf, after_suspension_wf).
  assert (r' ∈ users (idb w1)) as Hr'.
  { apply list_elem_of_fmap. exists r. by rewrite bool_decide_eq_true_2. }
  unfold reinstate. rewrite bind_at, requireSuspendable_run, (target_mem _ _ r'); [|done|done|done|done].
  cbn [negb andb]. change (user_deletedAt r') with (user_deletedAt r). rewrite Hdel. cbn [suspendedAt toMirroredUser is_set negb].
  change (user_suspendedAt r') with (Some (iclock (idb w))). cbn [is_set negb].
  rewrite bind_at. cbn [await modify Datatypes.id].
  change (id (toMirroredUser r')) with (user_id r').
  rewrite bind_at, (setSuspension_run r' None) by done. set (r'' := set_suspension _ _ _ r').
  assert (user_id <$> replaced r'' (users (idb w1)) = user_id <$> users (idb w1)) as Hids by apply replaced_ids.
  rewrite bind_at, (audit_run b _ _ (user_id r)).
  - eexists _, _. split; [reflexivity|]. assert (toMirroredUser r'' = toMirroredUser r) as He.
    { pose proof (wf_suspensions _ Hwf) as Hall. rewrite Forall_forall in Hall. destruct (Hall r Hr) as [Hc _].
      unfold suspension_is_complete in Hc. unfold toMirroredUser, r'', r'. cbn.
      destruct (user_suspendedAt r); [done|]. by destruct (user_suspensionReason r). }
    split; [|by rewrite He].
    change (toMirroredUser <$> replaced r'' (replaced r' (users (idb w))) = toMirroredUser <$> users (idb w)).
    rewrite replaced_twice by done. by apply (replaced_view _ r); [apply (wf_user_ids _ Hwf)|..].
  - apply admitted_users; [done|]. destruct Hb as [H1 H2 H3]. split; [|done..].
    rewrite <- H1. apply known_ext. apply replaced_ids.
  - exact (own_id _ r Hwf Hr).
Qed.

(** ** Approving *)

(** The proposal an administrator may approve now, and the account it is about. *)
Definition approvable (db : Db) (a : Actor) (approval : string) : option (ApprovalRow * AdminApproval * UserRow) :=
  match by_approval_id approval db with
  | None => None
  | Some r =>
      match toApproval r with
      | Err _ => None
      | Ok p =>
          match target_of (ac_userId (ap_action p)) db with
          | None => None
          | Some t =>
              if negb (bool_decide (approvalState p (iclock db) = pending)) ||
                 bool_decide (ap_proposedById p = actor_userId a) || is_set (user_deletedAt t) ||
                 (negb (bool_decide (Some (ac_role (ap_action p)) = Some ADMIN)) &&
                  bool_decide (user_role t = ADMIN) && (countAdministrators db <=? 1)%nat)
              then None else Some (r, p, t)
          end
      end
  end.

Definition approved_row (a : Actor) (why : string) (t : instant) (r : ApprovalRow) : ApprovalRow :=
  set_approved (actor_userId a) why t r.

Definition after_approval (a : Actor) (why : string) (r : ApprovalRow) (p : AdminApproval) (t : UserRow)
    (db : Db) : Db :=
  noted (Some a) admin_approval_granted (user_id t) (Some (auditableAccount (toMirroredUser t)))
    (Some (auditableAccount (with_role (ac_role (ap_action p)) (toMirroredUser t)))) (Some why)
    (with_users (replaced (set_role (ac_role (ap_action p)) t) (users db))
       (with_approvals (decide_row r (approved_row a why (iclock db) r) (approvals db)) db)).

Lemma requirePending_run (approvalId approval : string) (w : World W) :
  acct_wf (idb w) -> uuid_in approvalId = Some approval ->
  requirePending approvalId w =
    (w, match by_approval_id approval (idb w) with
        | None => Err (ApprovalRefusedError "no such proposal")
        | Some r =>
            match toApproval r with
            | Err e => Err e
            | Ok p =>
                let state := approvalState p (iclock (idb w)) in
                if negb (bool_decide (state = pending))
                then Err (ApprovalConflictError ("that proposal is already " +:+ state_word state)) else Ok p
            end
        end).
Proof.
  intros Hwf Hi. unfold requirePending, find, as_uuid, on_db. rewrite bind_at, Hi. unfold_M. cbn.
  destruct (by_approval_id approval (idb w)) as [r|]; [|by destruct w]. cbn. unfold_result.
  destruct (toApproval r) as [p|e]; [|by destruct w]. cbn. unfold now. cbn.
  destruct (negb _); by destruct w.
Qed.

(** An undecided row in its window meets the store's predicate. *)
Lemma pending_row (r : ApprovalRow) (p : AdminApproval) (t : instant) :
  toApproval r = Ok p -> approvalState p t = pending ->
  undecided r = true /\ t < appr_expiresAt r /\ ap_proposedById p = appr_proposedById r /\
  ap_id p = appr_id r.
Proof.
  unfold toApproval. unfold_result. destruct (toAction _ _); [|done]. intros [= <-]. unfold approvalState, undecided.
  cbn. destruct (appr_approvedAt r); [done|]. destruct (appr_cancelledAt r); [done|].
  destruct (appr_expiresAt r <=? t) eqn:Ht; [done|]. apply Z.leb_gt in Ht.
  intros _. by split_and!.
Qed.

Lemma toApproval_set (r : ApprovalRow) (p : AdminApproval) (b why : string) (t : instant) :
  toApproval r = Ok p ->
  exists p', toApproval (set_approved b why t r) = Ok p' /\ ap_action p' = ap_action p.
Proof.
  unfold toApproval. cbn. unfold_result. destruct (toAction _ _); [|done]. intros [= <-]. by eexists.
Qed.

(** A pending proposal somebody else made takes the approval. *)
Lemma claim_run (a : Actor) (why : string) (r : ApprovalRow) (db : Db) :
  acct_wf db -> admitted db a -> r ∈ approvals db -> undecided r = true ->
  iclock db < appr_expiresAt r -> appr_proposedById r <> actor_userId a ->
  approval_ok db (approved_row a why (iclock db) r) /\
  claim_approval (appr_id r) (actor_userId a)
    (fun x => undecided x && (iclock db <? appr_expiresAt x) &&
      negb (bool_decide (appr_proposedById x = actor_userId a)))
    (set_approved (actor_userId a) why (iclock db)) db =
  (with_approvals (decide_row r (approved_row a why (iclock db) r) (approvals db)) db,
   Ok (Some (approved_row a why (iclock db) r))).
Proof.
  intros Hwf Ha Hr Hund Hwin Hother.
  pose proof (wf_approvals _ Hwf) as Hok. rewrite Forall_forall in Hok.
  destruct (Hok r Hr) as [Hc Hw Hp Happ Hact].
  assert (approval_refusal (approved_row a why (iclock db) r) = None) as Hc'.
  { unfold approval_refusal in *. cbn. rewrite bool_decide_eq_false_2 by (intros [= ?]; congruence). cbn.
    unfold undecided in Hund. destruct (appr_approvedAt r); [done|]. destruct (appr_cancelledAt r); [done|].
    destruct (bool_decide _); [done|].
    by destruct (appr_approvedById r), (appr_approvedReason r), (appr_cancelledById r), (appr_cancelledReason r). }
  split.
  - split; [done|by intros x [= <-]|done|intros x [= <-]; apply (adm_known _ _ Ha)|done].
  - unfold claim_approval. unfold_M.
    change (by_approval_id (appr_id r) db) with (find_by appr_id (appr_id r) (approvals db)).
    rewrite (find_by_unique appr_id _ r (wf_approval_ids _ Hwf) Hr).
    rewrite Hund, (proj2 (Z.ltb_lt _ _) Hwin), bool_decide_eq_false_2 by done. cbn -[known approval_refusal].
    fold (approved_row a why (iclock db) r). by rewrite Hc', (adm_known _ _ Ha).
Qed.

Lemma approveAndApply_run (a : Actor) (why : string) (r : ApprovalRow) (p' : AdminApproval) (t : UserRow)
    (approvalId : string) (w : World W) :
  let db1 := with_approvals (decide_row r (approved_row a why (iclock (idb w)) r) (approvals (idb w))) (idb w) in
  acct_wf (idb w) -> admitted (idb w) a -> r ∈ approvals (idb w) -> uuid_in approvalId = Some (appr_id r) ->
  undecided r = true -> iclock (idb w) < appr_expiresAt r -> appr_proposedById r <> actor_userId a ->
  t ∈ users (idb w) -> toApproval (approved_row a why (iclock (idb w)) r) = Ok p' ->
  uuid_in (ac_userId (ap_action p')) = Some (user_id t) ->
  on_db (approveAndApply (mkDecision approvalId (actor_userId a) why (iclock (idb w)))) w =
    (mkWorld (with_users (replaced (set_role (ac_role (ap_action p')) t) (users (idb w))) db1) (rest w), Ok p').
Proof.
  intros db1 Hwf Ha Hr Hi Hund Hwin Hother Ht Hp' Hu.
  destruct (claim_run a why r (idb w) Hwf Ha Hr Hund Hwin Hother) as [Hok Hclaim].
  assert (acct_wf db1) as Hwf1 by (by apply decide_wf).
  pose proof (wf_suspensions _ Hwf) as Hs. rewrite Forall_forall in Hs. destruct (Hs t Ht) as [Hs1 Hs2].
  assert (update_user (ac_userId (ap_action p')) (set_role (ac_role (ap_action p'))) db1 =
    (with_users (replaced (set_role (ac_role (ap_action p')) t) (users (idb w))) db1,
     Ok (set_role (ac_role (ap_action p')) t))) as Hupd
    by exact (update_user_run (set_role _) t _ db1 Hwf1 Ht Hu (email_own db1 t Hwf1 Ht) Hs1 Hs2).
  unfold on_db, approveAndApply, transaction, as_uuid. cbn [dc_approvalId dc_byId dc_reason dc_at].
  rewrite Hi, (adm_id _ _ Ha), bind_at. cbn [mret M_ret]. rewrite bind_at. cbn [mret M_ret].
  rewrite bind_at, Hclaim, bind_at. unfold lift. rewrite Hp'. unfold IdentityDb.apply.
  rewrite bind_at, bind_at. fold db1. by rewrite Hupd.
Qed.

(** Approving, undisturbed. *)
Lemma approve_run (a : Actor) (approvalId approval why : string) (w : World W) :
  acct_wf (idb w) -> admitted (idb w) a -> uuid_in approvalId = Some approval ->
  match approvable (idb w) a approval with
  | None => exists e, approve calm a approvalId why w = (w, Err e) /\
      match e with ApprovalRefusedError _ | ApprovalConflictError _ => True | _ => False end
  | Some (r, p, t) => exists p', ap_action p' = ap_action p /\
      approve calm a approvalId why w = (mkWorld (after_approval a why r p t (idb w)) (rest w), Ok p')
  end.
Proof.
  intros Hwf Ha Hi. unfold approvable, approve. rewrite bind_at, (requirePending_run _ approval) by done.
  destruct (by_approval_id approval (idb w)) as [r|] eqn:Hr; [|by eexists].
  apply find_by_Some in Hr as [Hr <-].
  destruct (toApproval r) as [p|e] eqn:Hp.
  2: { pose proof (wf_approvals _ Hwf) as Hok. rewrite Forall_forall in Hok. destruct (Hok r Hr) as [_ _ _ _ Hact].
       unfold toApproval in Hp. unfold_result. by destruct (toAction _ _). }
  cbn zeta. destruct (bool_decide (approvalState p (iclock (idb w)) = pending)) eqn:Hpend; cbn [negb orb].
  2: { destruct (target_of _ _); by eexists. }
  apply bool_decide_eq_true in Hpend. destruct (pending_row r p _ Hp Hpend) as (Hund & Hwin & Hby & _).
  destruct (bool_decide (ap_proposedById p = actor_userId a)) eqn:Hself; cbn [orb].
  { destruct (target_of _ _); by eexists. }
  apply bool_decide_eq_false in Hself. rewrite bind_at. cbn [await modify Datatypes.id].
  rewrite bind_at, on_db_findById.
  destruct (target_of (ac_userId (ap_action p)) (idb w)) as [t|] eqn:Ht; [|by eexists].
  apply target_found in Ht as [Ht Hu]. cbn [fmap option_fmap option_map].
  change (deletedAt (toMirroredUser t)) with (user_deletedAt t).
  destruct (is_set (user_deletedAt t)); cbn [orb]; [by eexists|].
  rewrite bind_at, refuseIfLast_run. destruct (_ && _ && _); [by eexists|].
  rewrite bind_at. cbn [gets]. rewrite bind_at. cbn [await modify Datatypes.id].
  destruct (toApproval_set r p (actor_userId a) why (iclock (idb w)) Hp) as (p' & Hp' & Hact).
  exists p'. split; [done|]. rewrite <- Hby in Hself || rewrite Hby in Hself.
  change (now w) with (iclock (idb w)).
  rewrite bind_at, (approveAndApply_run a why r p' t) by (done || by rewrite Hact).
  rewrite bind_at, (audit_run a _ _ (user_id t)).
  - by rewrite Hact.
  - destruct Ha as [H1 H2 H3]. split; [|done..]. rewrite <- H1. apply known_ext. apply replaced_ids.
  - done.
Qed.

(** What it takes for a proposal to be carried out. *)
Record carried_out (a : Actor) (approval : string) (db : Db) (r : ApprovalRow) (p : AdminApproval) (t : UserRow) : Prop := {
  ca_row : r ∈ approvals db /\ appr_id r = approval /\ toApproval r = Ok p;
  ca_pending : approvalState p (iclock db) = pending;
  ca_other : ap_proposedById p <> actor_userId a;
  ca_target : target_of (ac_userId (ap_action p)) db = Some t /\ user_deletedAt t = None;
  ca_last : ac_role (ap_action p) <> ADMIN -> user_role t = ADMIN -> (1 < countAdministrators db)%nat }.

Lemma approvable_iff (a : Actor) (approval : string) (db : Db) (r : ApprovalRow) (p : AdminApproval) (t : UserRow) :
  acct_wf db -> approvable db a approval = Some (r, p, t) <-> carried_out a approval db r p t.
Proof.
  intros Hwf. unfold approvable. split.
  - destruct (by_approval_id approval db) as [r0|] eqn:Hr; [|done]. destruct (toApproval r0) as [p0|] eqn:Hp; [|done].
    destruct (target_of _ db) as [t0|] eqn:Ht; [|done]. destruct (_ || _) eqn:Hf; [done|]. intros [= -> -> ->].
    apply orb_false_iff in Hf as [[[Hs Ho]%orb_false_iff Hd]%orb_false_iff Hl]. apply find_by_Some in Hr as [Hr Hi].
    apply negb_false_iff, bool_decide_eq_true in Hs. apply bool_decide_eq_false in Ho.
    split; [by split_and!|done|done|split; [done|by destruct (user_deletedAt t)]|]. intros Hn Hadm.
    rewrite (bool_decide_eq_false_2 (Some _ = _)), (bool_decide_eq_true_2 (user_role t = _)) in Hl by congruence.
    cbn [negb andb] in Hl. by apply Nat.leb_gt in Hl.
  - intros [(Hr & <- & Hp) Hs Ho [Ht Hd] Hl].
    unfold by_approval_id. rewrite (find_by_unique appr_id _ r (wf_approval_ids _ Hwf) Hr), Hp, Ht, Hd.
    rewrite (bool_decide_eq_true_2 _ Hs), (bool_decide_eq_false_2 _ Ho). cbn [negb orb is_set].
    destruct (bool_decide_reflect (Some (ac_role (ap_action p)) = Some ADMIN)) as [|Hn]; [done|].
    destruct (bool_decide_reflect (user_role t = ADMIN)) as [Hadm|]; [|done]. cbn [negb andb].
    rewrite (proj2 (Nat.leb_gt _ _)); [done|]. apply Hl; [congruence|done].
Qed.

(** C27. Approving, for a well-formed id, by an account the guard has let in, and where
    nothing else happens meanwhile, either refuses, writing nothing, or settles the proposal
    and gives the role in one transaction and appends the audit entry after it; it does so
    exactly when the proposal is pending, its proposer is somebody else, its target exists
    and is not deleted, and the last administrator is not demoted. *)
Theorem approve_outcomes (a : Actor) (approvalId approval why : string) (w : World W) :
  acct_wf (idb w) -> admitted (idb w) a -> uuid_in approvalId = Some approval ->
  ((exists r p t p', carried_out a approval (idb w) r p t /\ ap_action p' = ap_action p /\
      approve calm a approvalId why w = (mkWorld (after_approval a why r p t (idb w)) (rest w), Ok p')) \/
   exists e, approve calm a approvalId why w = (w, Err e) /\
      match e with ApprovalRefusedError _ | ApprovalConflictError _ => True | _ => False end) /\
  (is_ok (snd (approve calm a approvalId why w)) = true <-> exists r p t, carried_out a approval (idb w) r p t).
Proof.
  intros Hwf Ha Hi. pose proof (approve_run a approvalId approval why w Hwf Ha Hi) as H.
  destruct (approvable (idb w) a approval) as [[[r p] t]|] eqn:E.
  - apply approvable_iff in E; [|done]. destruct H as (p' & Hp & ->). split; [left; by exists r, p, t, p'|]. split; [by exists r, p, t|done].
  - destruct H as (e & -> & He). split; [right; by exists e|]. split; [done|]. intros (r & p & t & Hc).
    apply approvable_iff in Hc; [|done]. congruence.
Qed.

(** ** Deleting *)
Definition tombstone_row (t : instant) (r : UserRow) : UserRow :=
  set_changes (mkChanges (Some (tombstoneEmail (user_id r))) (Some t) (Some t)) r.

Definition erased_sign_ins (u : string) (l : list SignInRow) : list SignInRow :=
  (fun s => if bool_decide (sign_userId s = u) then redacted s else s) <$> l.

(** The tables once the other modules have erased what they hold. *)
Definition after_deletion (a : Actor) (r : UserRow) (db : Db) : Db :=
  noted (Some a) account_deletion_requested (user_id r) (Some (auditableAccount (toMirroredUser r)))
    (Some (auditableAccount (toMirroredUser (tombstone_row (iclock db) r)))) None
    (with_users (replaced (tombstone_row (iclock db) r) (users db))
       (with_signIns (erased_sign_ins (user_id r) (signIns db)) db)).

Lemma eraseActivity_run (r : UserRow) (w : World W) :
  acct_wf (idb w) -> r ∈ users (idb w) ->
  on_db (eraseActivity (user_id r)) w =
    (mkWorld (with_signIns (erased_sign_ins (user_id r) (signIns (idb w))) (idb w)) (rest w), Ok tt).
Proof. intros Hwf Hr. unfold on_db, eraseActivity, as_uuid. rewrite bind_at, (own_id (idb w)) by done. done. Qed.

Lemma update_run (c : UserChanges) (r : UserRow) (w : World W) :
  acct_wf (idb w) -> r ∈ users (idb w) ->
  on_db (update (user_id r) c) w =
    if email_taken (user_id r) (user_email (set_changes c r)) (idb w)
    then (w, Err UserConflictError)
    else (mkWorld (with_users (replaced (set_changes c r) (users (idb w))) (idb w)) (rest w),
          Ok (toMirroredUser (set_changes c r))).
Proof.
  intros Hwf Hr. pose proof (own_id _ r Hwf Hr) as Hid.
  pose proof (wf_suspensions _ Hwf) as Hs. rewrite Forall_forall in Hs. destruct (Hs r Hr) as [Hs1 Hs2].
  unfold on_db, update, catch. rewrite bind_at.
  destruct (email_taken (user_id r) (user_email (set_changes c r)) (idb w)) eqn:He.
  - assert (update_user (user_id r) (set_changes c) (idb w) = (idb w, Err (DatabaseError UNIQUE_VIOLATION))) as ->;
      [|by destruct w].
    unfold update_user, as_uuid. rewrite Hid, bind_at. cbn [mret M_ret]. rewrite bind_at. cbn [gets].
    unfold by_user_id. rewrite (find_by_unique user_id _ r (wf_user_ids _ Hwf) Hr).
    rewrite bind_at. cbn [gets]. rewrite bind_at. cbn [gets]. by rewrite He.
  - by rewrite (update_user_run (set_changes c) r _ _ Hwf Hr Hid He Hs1 Hs2).
Qed.

Lemma with_signIns_wf (u : string) (db : Db) :
  acct_wf db -> acct_wf (with_signIns (erased_sign_ins u (signIns db)) db).
Proof.
  intros [W1 W2 W3 W4 W5 W6 W7 W8 W9 W10 W11 W12]. split; try done.
  - eapply Forall_impl; [exact W8|]; intros x [? ? ? ? ?]; by split.
  - cbn. unfold erased_sign_ins. by rewrite erased_keys.
  - cbn. apply Forall_fmap. eapply Forall_impl; [exact W11|]. intros x Hx. cbn. by case_bool_decide.
Qed.

(** Deleting one's own account does nothing for one that is gone or already deleted;
    otherwise the other modules erase first and their failure stops it, then sign-in details
    are redacted, the email becomes the tombstone and its address is free again, and the
    audit trail says so. *)
Theorem deletion_outcomes (a : Actor) (w w1 : World W) (e : result ()) :
  erase a w = (w1, e) -> users (idb w1) = users (idb w) -> acct_wf (idb w1) -> admitted (idb w1) a ->
  match target_of (actor_userId a) (idb w) with
  | None => requestDeletion calm a w = (w, Ok tt)
  | Some r =>
      if is_set (user_deletedAt r) then requestDeletion calm a w = (w, Ok tt)
      else match e with
           | Err err => requestDeletion calm a w = (w1, Err err)
           | Ok _ =>
               if email_taken (user_id r) (tombstoneEmail (user_id r)) (idb w1) then
                 requestDeletion calm a w =
                   (mkWorld (with_signIns (erased_sign_ins (user_id r) (signIns (idb w1))) (idb w1)) (rest w1),
                    Err UserConflictError)
               else
                 requestDeletion calm a w = (mkWorld (after_deletion a r (idb w1)) (rest w1), Ok tt) /\
                 (lower (tombstoneEmail (user_id r)) <> lower (user_email r) ->
                  forall x, x ∈ users (after_deletion a r (idb w1)) -> lower (user_email x) <> lower (user_email r))
           end
  end.
Proof.
  intros Herase Husers Hwf1 Ha. unfold requestDeletion. rewrite bind_at, on_db_findById.
  destruct (target_of (actor_userId a) (idb w)) as [r|] eqn:Ht; [|done].
  apply target_found in Ht as [Hr Hu]. rewrite <- Husers in Hr. cbn [fmap option_fmap option_map].
  change (deletedAt (toMirroredUser r)) with (user_deletedAt r).
  destruct (is_set (user_deletedAt r)); [done|]. unfold eraseAndTombstone.
  rewrite bind_at. cbn [await modify Datatypes.id]. rewrite bind_at, Herase. destruct e as [[]|err]; [|done].
  rewrite bind_at. cbn [await modify Datatypes.id]. change (id (toMirroredUser r)) with (user_id r).
  rewrite bind_at, (eraseActivity_run r w1) by done. set (w2 := mkWorld _ (rest w1)).
  rewrite bind_at. cbn [gets]. rewrite bind_at. cbn [await modify Datatypes.id].
  assert (acct_wf (idb w2)) as Hwf2 by (by apply with_signIns_wf).
  rewrite bind_at, (update_run _ r w2) by done. cbn [set_changes user_email ch_email].
  change (email_taken (user_id r) (tombstoneEmail (user_id r)) (idb w2)) with
    (email_taken (user_id r) (tombstoneEmail (user_id r)) (idb w1)).
  destruct (email_taken (user_id r) (tombstoneEmail (user_id r)) (idb w1)); [done|]. split.
  - rewrite (audit_run a _ _ (user_id r)); [done| |by apply (own_id (idb w1))].
    destruct Ha as [H1 H2 H3]. split; [|done..]. rewrite <- H1. apply known_ext. apply replaced_ids.
  - intros Htomb x Hx.
    destruct (replaced_split r (tombstone_row (iclock (idb w1)) r) (users (idb w1))) as (l1 & l2 & Hl & Hl' & Hne);
      [apply (wf_user_ids _ Hwf1)|done|done|].
    change (users _) with (replaced (tombstone_row (iclock (idb w1)) r) (users (idb w1))) in Hx.
    rewrite Hl' in Hx. rewrite <- Permutation_middle in Hx. apply elem_of_cons in Hx as [->|Hx]; [done|].
    intros He. pose proof (wf_emails _ Hwf1) as Hnd. rewrite Hl, fmap_app, fmap_cons, <- Permutation_middle in Hnd.
    apply NoDup_cons in Hnd as [Hnd _]. apply Hnd. rewrite <- fmap_app. apply list_elem_of_fmap. by exists x.
Qed.

(** ** The last administrator *)
Definition usable (r : UserRow) : nat := if usable_administrator r then 1 else 0.

Lemma count_replace (r r' : UserRow) (db : Db) :
  NoDup (user_id <$> users db) -> r ∈ users db -> user_id r' = user_id r ->
  (countAdministrators (with_users (replaced r' (users db)) db) + usable r =
   countAdministrators db + usable r')%nat.
Proof.
  intros Hnd Hr Hid. destruct (replaced_split r r' (users db) Hnd Hr Hid) as (l1 & l2 & Hl & Hl' & _).
  unfold countAdministrators. cbn [users with_users]. rewrite Hl', Hl, !List.filter_app, !length_app. unfold usable. cbn.
  destruct (usable_administrator r), (usable_administrator r'); cbn; lia.
Qed.

Lemma usable_le (r : UserRow) : (usable r <= 1)%nat.
Proof. unfold usable. by destruct (usable_administrator r); lia. Qed.

Lemma usable_user (r : UserRow) : bool_decide (user_role r = ADMIN) = false -> usable r = 0%nat.
Proof. unfold usable, usable_administrator. by intros ->. Qed.

(** While some administrator is neither deleted nor suspended, no undisturbed suspension or
    approval leaves the platform without one. *)
Theorem somebody_can_administer (a : Actor) (w : World W) :
  acct_wf (idb w) -> admitted (idb w) a -> (1 <= countAdministrators (idb w))%nat ->
  (forall userId why, 1 <= countAdministrators (idb (fst (suspend calm a userId why w))))%nat /\
  (forall approvalId approval why, uuid_in approvalId = Some approval ->
     1 <= countAdministrators (idb (fst (approve calm a approvalId why w))))%nat.
Proof.
  intros Hwf Ha Hone. split.
  - intros userId why. pose proof (suspend_outcomes a userId why w Hwf Ha) as Hout. revert Hout.
    unfold suspendable. destruct (target_of userId (idb w)) as [r|] eqn:Ht; [|by intros [e ->]].
    apply target_found in Ht as [Hr _]. destruct (_ || _) eqn:Hf; [by intros [e ->]|]. intros ->.
    apply orb_false_iff in Hf as [_ Hlast].
    pose proof (count_replace r (suspended_row a why (iclock (idb w)) r) (idb w) (wf_user_ids _ Hwf) Hr eq_refl) as Hc.
    change (countAdministrators _) with (countAdministrators
      (with_users (replaced (suspended_row a why (iclock (idb w)) r) (users (idb w))) (idb w))).
    pose proof (usable_le r). destruct (bool_decide (user_role r = ADMIN)) eqn:Hrole; cbn [andb] in Hlast.
    + apply Nat.leb_gt in Hlast. lia.
    + apply usable_user in Hrole. lia.
  - intros approvalId approval why Hi. pose proof (approve_run a approvalId approval why w Hwf Ha Hi) as Hout.
    revert Hout. unfold approvable. destruct (by_approval_id approval (idb w)) as [r|] eqn:Hr; [|by intros (e & -> & _)].
    destruct (toApproval r) as [p|e]; [|by intros (e' & -> & _)].
    destruct (target_of (ac_userId (ap_action p)) (idb w)) as [t|] eqn:Ht; [|by intros (e & -> & _)].
    destruct (_ || _) eqn:Hf; [by intros (e & -> & _)|]. intros (p' & _ & ->).
    apply orb_false_iff in Hf as [[_ Hdel]%orb_false_iff Hlast]. apply target_found in Ht as [Htm _].
    pose proof (count_replace t (set_role (ac_role (ap_action p)) t) (idb w) (wf_user_ids _ Hwf) Htm eq_refl) as Hc.
    change (countAdministrators _) with (countAdministrators
      (with_users (replaced (set_role (ac_role (ap_action p)) t) (users (idb w))) (idb w))).
    pose proof (usable_le t). destruct (ac_role (ap_action p)) eqn:Hx.
    + rewrite (bool_decide_eq_false_2 (Some USER = Some ADMIN)) in Hlast by done. cbn [negb andb] in Hlast.
      destruct (bool_decide (user_role t = ADMIN)) eqn:Hrole; cbn [andb] in Hlast.
      * apply Nat.leb_gt in Hlast. lia.
      * apply usable_user in Hrole. lia.
    + assert (usable t <= usable (set_role ADMIN t))%nat; [|lia].
      unfold usable, usable_administrator. cbn. rewrite (bool_decide_eq_true_2 (ADMIN = ADMIN)) by done. cbn.
      destruct (bool_decide (user_role t = ADMIN)); cbn; [lia|]. destruct (_ && _); lia.
Qed.
End Outcomes.
