(* ===== verification/AdmissionTheorems.v ===== *)
(** * Admission: who gets past the guard

    What the second-factor chain concludes, what its composition makes of the
    development bypass, and what is known of a request the guard admits, whatever
    else is happening meanwhile. *)

From S2P Require Import Prelude JsNumber Text Columns Ledger Bookings AuditLog.
From S2P Require Import IdentityStore Identity IdentityProofs IdentityRows SecondFactor.
From S2P Require Import IdentityTheorems IdentityOutcomes.

#[local] Open Scope string_scope.
#[local] Open Scope list_scope.
#[local] Open Scope Z_scope.

Import IdentityDb Identity SecondFactor Guard.
Import AuditDb (Actor, mkActor, actor_userId, actor_ipAddress, actor_sessionId).

(** ** The chain *)
Definition fresh (maximum : Js.number) (p : AdminSecondFactor) (ev : SecondFactorEvidence) : bool :=
  match ask p ev with Some age => Js.leb age maximum | None => false end.

Definition answers (ps : list AdminSecondFactor) (ev : SecondFactorEvidence) : list SecondFactorAnswer :=
  omap (fun p => (fun age => mkAnswer age (name p)) <$> ask p ev) ps.

Lemma prove_loop_spec (maximum : Js.number) (ps : list AdminSecondFactor) (ev : SecondFactorEvidence)
    (asked : list SecondFactorAnswer) :
  match List.find (fun p => fresh maximum p ev) ps with
  | Some p => exists before_ after_ age, ps = before_ ++ p :: after_ /\
      Forall (fun q => fresh maximum q ev = false) before_ /\ ask p ev = Some age /\
      prove_loop maximum ps ev asked =
        mkDecision (Some (mkAnswer age (name p))) (asked ++ answers (before_ ++ [p]) ev)
  | None => prove_loop maximum ps ev asked = mkDecision None (asked ++ answers ps ev)
  end.
Proof.
  revert asked. induction ps as [|q ps IH]; intros asked; cbn [List.find prove_loop]; [by rewrite app_nil_r|].
  unfold fresh at 1. destruct (ask q ev) as [age|] eqn:Hq; [destruct (Js.leb age maximum) eqn:Hle|].
  - exists [], ps, age. split_and!; [done|constructor|done|]. cbn. by rewrite Hq.
  - specialize (IH (asked ++ [mkAnswer age (name q)])). destruct (List.find _ ps) as [p|].
    + destruct IH as (b & a & g & -> & Hb & Hp & ->). exists (q :: b), a, g. split_and!; [done| |done|].
      * constructor; [|done]. unfold fresh. by rewrite Hq.
      * cbn. rewrite Hq. cbn. by rewrite <- app_assoc.
    + rewrite IH. cbn. rewrite Hq. cbn. by rewrite <- app_assoc.
  - specialize (IH asked). destruct (List.find _ ps) as [p|].
    + destruct IH as (b & a & g & -> & Hb & Hp & ->). exists (q :: b), a, g. split_and!; [done| |done|].
      * constructor; [|done]. unfold fresh. by rewrite Hq.
      * cbn. by rewrite Hq.
    + rewrite IH. cbn. by rewrite Hq.
Qed.

(** The chain of second factors answers with the first prover, in order, whose age is
    finite, not negative and within the maximum, and reports every answer it heard until
    then; provers that throw, know nothing or are stale count as no, and if all do there is
    no proof. *)
Theorem chain_fails_closed (maximum : Js.number) (ps : list AdminSecondFactor) (ev : SecondFactorEvidence) :
  match proof (prove maximum ps ev) with
  | Some a => exists before_ p after_, ps = before_ ++ p :: after_ /\
      Forall (fun q => fresh maximum q ev = false) before_ /\ provenBy a = name p /\
      answer p ev = Ok (Some (ageMinutes a)) /\ Js.is_finite (ageMinutes a) = true /\
      Js.ltb (ageMinutes a) (Js.of_Z 0) = false /\ Js.leb (ageMinutes a) maximum = true /\
      attempts (prove maximum ps ev) = answers (before_ ++ [p]) ev
  | None => Forall (fun q => fresh maximum q ev = false) ps /\
      attempts (prove maximum ps ev) = answers ps ev
  end.
Proof.
  unfold prove. pose proof (prove_loop_spec maximum ps ev []) as H.
  destruct (List.find (fun p => fresh maximum p ev) ps) as [p|] eqn:Hf.
  - destruct H as (b & a & age & Hps & Hb & Hp & ->). cbn. exists b, p, a. apply List.find_some in Hf as [_ Hf].
    unfold fresh in Hf. rewrite Hp in Hf. unfold ask in Hp.
    destruct (answer p ev) as [[g|]|]; [|done..].
    destruct (negb (Js.is_finite g) || Js.ltb g (Js.of_Z 0)) eqn:Hg; [done|]. injection Hp as ->.
    apply orb_false_iff in Hg as [Hfin Hneg]. apply negb_false_iff in Hfin. by split_and!.
  - rewrite H. cbn. split; [|done]. apply Forall_forall. intros q Hq.
    apply (List.find_none _ _ Hf). by apply list_elem_of_In.
Qed.

(** Only the flag installs the bypass, and it is asked only when every real
    prover has failed. *)
Theorem bypass_is_last (allow : bool) (access : option (string -> result (string -> Unknown))) (t : instant)
    (maximum : Js.number) (ev : SecondFactorEvidence) (a : SecondFactorAnswer) :
  chain_bypasses (composeSecondFactor allow access t) = allow /\
  (proof (prove maximum (composeSecondFactor allow access t) ev) = Some a ->
   provenBy a = name DevelopmentSecondFactor ->
   allow = true /\ proof (prove maximum (composeSecondFactor false access t) ev) = None).
Proof.
  split; [by destruct allow, access|]. intros Hp Hn.
  pose proof (chain_fails_closed maximum (composeSecondFactor allow access t) ev) as H. rewrite Hp in H.
  destruct H as (b & p & c & Hps & Hb & Hname & _). rewrite Hn in Hname.
  assert (allow = true /\ b = composeSecondFactor false access t) as [Hallow Hbefore].
  { clear -Hps Hname. unfold composeSecondFactor in *.
    destruct allow, access, b as [|q1 [|q2 [|q3 [|q4 b]]]]; cbn in *; simplify_eq; done. }
  split; [done|]. subst b.
  pose proof (prove_loop_spec maximum (composeSecondFactor false access t) ev []) as H. unfold prove.
  destruct (List.find _ _) as [q|] eqn:Hf; [exfalso|by rewrite H].
  apply List.find_some in Hf as [Hin Hq]. rewrite Forall_forall in Hb.
  apply list_elem_of_In in Hin. specialize (Hb q Hin). congruence.
Qed.

(** ** Accounts under whatever else commits *)
Section Admission.
Context {Ids : UuidSource} {Pg : PgTypes} {Order : DescOrder} {W : Type} {Ports : IdentityPorts W}.
Variable verifier : string -> result VerifiedSession.
Variable provers : list AdminSecondFactor.
Hypothesis Heraser : eraser_ok.

(** The account [u] describes is there, under the same provider id. *)
Definition settled (db : Db) (u : MirroredUser) : Prop :=
  exists r, r ∈ users db /\ user_id r = id u /\ user_clerkUserId r = clerkUserId u.

Lemma settled_evolves (db db' : Db) (u : MirroredUser) : evolves db db' -> settled db u -> settled db' u.
Proof.
  intros Hev (r & Hr & Hi & Hc). destruct (ev_accounts _ _ Hev r Hr) as (r' & Hr' & Hi' & Hc' & _).
  exists r'. split_and!; [done|congruence..].
Qed.

Lemma settled_row (db : Db) (r : UserRow) : r ∈ users db -> settled db (toMirroredUser r).
Proof. intros Hr. by exists r. Qed.

Lemma does_evolves (f : Db -> Db) (db : Db) : does f -> acct_wf db -> acct_wf (f db) /\ evolves db (f db).
Proof. intros Hf Hwf. destruct (Hf db) as [ss ->]. by apply exec_evolves. Qed.

Lemma acts_evolves {A} (m : M (World W) A) (w w' : World W) (x : result A) :
  acts m -> m w = (w', x) -> acct_wf (idb w) -> acct_wf (idb w') /\ evolves (idb w) (idb w').
Proof.
  intros Hm Hw Hwf. destruct (Hm w) as [ss Hss]. rewrite Hw in Hss. cbn in Hss. rewrite Hss. by apply exec_evolves.
Qed.

Lemma by_clerk_found (c : string) (db : Db) (r : UserRow) :
  by_clerk_id c db = Some r -> r ∈ users db /\ user_clerkUserId r = c.
Proof. apply find_by_Some. Qed.

(** However many requests provision one Clerk user at once, each gets the single row of that
    user, only the one that inserted it is told that it was created, and the only failure is
    an email that another account holds. *)
Theorem provisioning_converges (rival : Db -> Db) (c e : string) (db : Db) :
  acct_wf db -> does rival ->
  match upsert rival c e db with
  | (db', Ok u) => exists r, r ∈ users db' /\ user_clerkUserId r = c /\ upserted u = toMirroredUser r /\
      (forall r', r' ∈ users db' -> user_clerkUserId r' = c -> r' = r) /\
      (created u = true -> by_clerk_id c (rival db) = None /\ user_role r = USER /\ user_email r = e /\
         users db' = users (rival db) ++ [r])
  | (db', Err err) => err = UserConflictError /\ by_clerk_id c db' = None
  end.
Proof.
  intros Hwf Hr. unfold upsert. rewrite bind_at. cbn [gets]. unfold findByClerkUserId at 1.
  assert (forall db' r, acct_wf db' -> r ∈ users db' -> user_clerkUserId r = c ->
    forall r', r' ∈ users db' -> user_clerkUserId r' = c -> r' = r) as Huniq.
  { intros db' r Hwf' Hin Hc r' Hin' Hc'. pose proof (clerk_row db' r Hwf' Hin) as H1.
    pose proof (clerk_row db' r' Hwf' Hin') as H2. congruence. }
  destruct (by_clerk_id c db) as [r|] eqn:Hfound; cbn [fmap option_fmap option_map].
  { apply by_clerk_found in Hfound as [Hin Hc]. exists r. split_and!; [done..|by apply Huniq|done]. }
  rewrite bind_at. cbn [modify]. destruct (does_evolves rival db Hr Hwf) as [Hwf1 _].
  destruct (insert_user_evolves c e (rival db) Hwf1) as [Hwf2 _].
  unfold catch. rewrite bind_at. unfold insert_user in *.
  destruct (is_set (by_clerk_id c (rival db)) || email_taken _ e (rival db)) eqn:Hfree.
  - cbn [fst] in *. assert (isUniqueViolation (DatabaseError UNIQUE_VIOLATION) = true) as -> by done. cbn [negb].
    rewrite bind_at. cbn [modify]. destruct (does_evolves rival (rival db) Hr Hwf1) as [Hwf3 _].
    rewrite bind_at. cbn [gets]. unfold findByClerkUserId.
    destruct (by_clerk_id c (rival (rival db))) as [r|] eqn:Hraced; cbn; [|done].
    apply by_clerk_found in Hraced as [Hin Hc]. exists r. split_and!; [done..|by apply Huniq|done].
  - apply orb_false_iff in Hfree as [Hnone _]. cbn [fst] in Hwf2.
    assert (user_for c e (rival db) ∈ users (next_id (with_users (users (rival db) ++ [user_for c e (rival db)]) (rival db))))
      as Hin by (apply elem_of_app; right; left).
    eexists. split_and!; [exact Hin|done|done|by apply Huniq|]. intros _. split_and!; [|done..].
    by destruct (by_clerk_id c (rival db)).
Qed.

Lemma update_names (i : string) (c : UserChanges) (db db' : Db) (u : MirroredUser) :
  update i c db = (db', Ok u) -> exists r, r ∈ users db /\ uuid_in i = Some (user_id r) /\
    u = toMirroredUser (set_changes c r).
Proof.
  unfold update, catch. rewrite bind_at.
  destruct (update_user_spec i (set_changes c) db) as [[_ H]|(x & r & Hx & Hr & _ & _ & ->)]; [done|..].
  - destruct (update_user i (set_changes c) db) as [db1 [y|e]]; [done|].
    by destruct (isUniqueViolation e).
  - intros [= _ <-]. apply find_by_Some in Hr as [Hr <-]. by exists r.
Qed.

Section Race.
Variable rival : World W -> World W.
Variable within : Db -> Db.
Hypothesis Hrival : rival_ok rival.
Hypothesis Hwithin : does within.

Lemma settled_id (db : Db) (u : MirroredUser) :
  acct_wf db -> settled db u -> uuid_in (id u) = Some (id u) /\ known db (id u) = true.
Proof.
  intros Hwf (r & Hr & <- & _). split; [by apply (own_id db)|]. apply known_iff. by apply list_elem_of_fmap_2.
Qed.

Lemma correctEmail_settled (user u : MirroredUser) (e : string) (a : option Actor) (w w' : World W) :
  acct_wf (idb w) -> settled (idb w) user -> correctEmail rival user e a w = (w', Ok u) ->
  settled (idb w') u /\ clerkUserId u = clerkUserId user.
Proof.
  intros Hwf Hset H. pose proof (acts_evolves _ _ _ _ (acts_correctEmail rival Hrival user e a) H Hwf) as [Hwf' Hev].
  unfold correctEmail in H. destruct (bool_decide (email user = e)); [by injection H as <- <-|].
  apply bind_ok in H as (w1 & [] & H1 & H). apply bind_ok in H as (w2 & corrected & H2 & H).
  destruct (acts_evolves _ _ _ _ (acts_await rival Hrival) H1 Hwf) as [Hwf1 Hev1].
  destruct corrected as [c|].
  - apply bind_ok in H as (w3 & [] & H3 & [= <- <-]).
    assert (exists r, r ∈ users (idb w1) /\ uuid_in (id user) = Some (user_id r) /\
      c = toMirroredUser (set_changes (mkChanges (Some e) None None) r)) as (r & Hr & Hid & ->).
    { unfold catch in H2. rewrite bind_at in H2. unfold on_db in H2 at 1.
      destruct (update (id user) _ (idb w1)) as [db1 [x|err]] eqn:Hu.
      - injection H2 as _ ->. by eapply update_names.
      - by destruct err. }
    assert (clerkUserId user = user_clerkUserId r /\ id user = user_id r) as [Hc Hi].
    { destruct (settled_evolves _ _ _ Hev1 Hset) as (r1 & Hr1 & Hi1 & Hc1).
      pose proof (own_id _ _ Hwf1 Hr1) as Ho. rewrite Hi1, Hid in Ho. injection Ho as Ho.
      pose proof (find_by_unique user_id _ r (wf_user_ids _ Hwf1) Hr) as E1.
      pose proof (find_by_unique user_id _ r1 (wf_user_ids _ Hwf1) Hr1) as E2. split; congruence. }
    split; [|by cbn]. pose proof (settled_evolves _ _ _ Hev Hset) as (r2 & Hr2 & Hi2 & Hc2).
    exists r2. cbn. split_and!; [done|congruence..].
  - injection H as <- <-. split; [|done]. by eapply settled_evolves.
Qed.

Lemma resolveSession_settled (session : VerifiedSession) (ip : option string) (w w' : World W) (u : MirroredUser) :
  acct_wf (idb w) -> resolveSession rival within session ip w = (w', Ok u) ->
  settled (idb w') u /\ clerkUserId u = vs_clerkUserId session.
Proof.
  intros Hwf H. unfold resolveSession in H. apply bind_ok in H as (w1 & r & H1 & H).
  destruct (acts_evolves _ _ _ _ (acts_on_db _ (stm_upsert within _ _ Hwithin)) H1 Hwf) as [Hwf1 Hev1].
  pose proof (provisioning_converges within (vs_clerkUserId session) (vs_email session) (idb w) Hwf Hwithin) as Hup.
  unfold on_db in H1. destruct (upsert _ _ _ (idb w)) as [db1 x]. injection H1 as <- ->.
  destruct Hup as (row & Hrow & Hc & Hu & _ & _). cbn zeta in H.
  apply bind_ok in H as (w2 & [] & H2 & H).
  assert (acct_wf (idb w2) /\ evolves db1 (idb w2)) as [Hwf2 Hev2].
  { destruct (created r); [|by injection H2 as <-].
    apply (acts_evolves _ _ _ _ (acts_audit rival Hrival _ _ _ _ _ _) H2 Hwf1). }
  destruct (is_set (deletedAt (upserted r))); [done|].
  assert (settled db1 (upserted r)) as Hset by (rewrite Hu; by apply settled_row).
  destruct (correctEmail_settled _ _ _ _ _ _ Hwf2 (settled_evolves _ _ _ Hev2 Hset) H) as [Hs Hcl].
  split; [done|]. by rewrite Hcl, Hu.
Qed.

(** C9. Whoever the guard lets through, under races, bore a token that the verifier took, is
    the account of that token's Clerk user, holds a role the route requires, is not
    suspended unless the route allows it, and on a route for administrators has a second
    factor no older than twelve hours; the actor it hands on exists and carries an address
    the audit table accepts. *)
Theorem guard_admits (route : Route) (headers : string -> Header) (w w' : World W) (ctx : Authenticated) :
  acct_wf (idb w) -> canActivate rival within verifier provers route headers w = (w', Ok ctx) ->
  let user := req_user ctx in
  (exists token session, bearerToken (headers AUTHORIZATION_HEADER) = Some token /\ verifier token = Ok session /\
     clerkUserId user = vs_clerkUserId session /\ req_sessionId ctx = vs_sessionId session /\
     (forall roles, required route = Some roles -> roles <> [] -> role user ∈ roles /\
        (ADMIN ∈ roles -> exists p, p ∈ provers /\
           fresh (Js.of_Z MAX_SECOND_FACTOR_AGE_MINUTES) p (mkEvidence session headers) = true))) /\
  (suspendedAt user = None \/ allowsSuspended route = true) /\
  admitted (idb w') (mkActor (id user) (req_clientIp ctx) (Some (req_sessionId ctx))).
Proof.
  intros Hwf H. unfold canActivate in H. destruct (bearerToken _) as [token|]; [|done].
  apply bind_ok in H as (w1 & session & H1 & H). cbn zeta in H.
  apply bind_ok in H as (w2 & user & H2 & H). apply bind_ok in H as (w3 & [] & H3 & [= <- <-]).
  assert (w1 = w /\ verifier token = Ok session) as [-> Hv].
  { unfold verify_session, catch, lift in H1. destruct (verifier token) as [s|e]; [by simplify_eq|]. by destruct e. }
  assert (resolveSession rival within session (clientIpFrom headers) w = (w2, Ok user)) as Hres.
  { unfold resolve, catch in H2. destruct (resolveSession _ _ _ _ w) as [x [y|e]]; [by simplify_eq|]. by destruct e. }
  destruct (resolveSession_settled _ _ _ _ _ Hwf Hres) as [Hset Hclerk].
  destruct (acts_evolves _ _ _ _ (acts_resolveSession rival within Hrival Hwithin _ _) Hres Hwf) as [Hwf2 _].
  unfold authorise in H3. apply bind_ok in H3 as (w4 & [] & Hsus & H3).
  assert (w4 = w2 /\ (suspendedAt user = None \/ allowsSuspended route = true)) as [-> Hs].
  { revert Hsus. unfold refuseIfSuspended. destruct (suspendedAt user); cbn [is_set negb].
    - destruct (allowsSuspended route); [|done]. intros [= ->]. auto.
    - intros [= ->]. auto. }
  cbn. split; [|split; [done|]].
  - exists token, session. split_and!; [done..|]. intros roles Hroles Hne. rewrite Hroles in H3.
    destruct roles as [|x roles]; [done|].
    destruct (bool_decide (role user ∈ x :: roles)) eqn:Hrole; cbn [negb] in H3; [|done].
    split; [by apply bool_decide_eq_true in Hrole|]. intros Hadm. rewrite (bool_decide_eq_true_2 _ Hadm) in H3.
    unfold requireSecondFactor in H3.
    destruct (proof (prove _ provers _)) as [a|] eqn:Hp; [|done].
    pose proof (chain_fails_closed (Js.of_Z MAX_SECOND_FACTOR_AGE_MINUTES) provers (mkEvidence session headers)) as Hc.
    rewrite Hp in Hc. destruct Hc as (b & p & c & -> & _ & _ & Hans & Hfin & Hneg & Hle & _).
    exists p. split; [apply elem_of_app; right; left|]. unfold fresh, ask. rewrite Hans, Hfin, Hneg. done.
  - assert (w3 = w2) as ->.
    { destruct (required route) as [[|x roles]|]; [by injection H3| |by injection H3].
      destruct (negb _); [done|]. destruct (bool_decide _); [|by injection H3].
      unfold requireSecondFactor in H3. by destruct (proof _); [injection H3|]. }
    destruct (settled_id _ _ Hwf2 Hset) as [Hid Hk]. split; [done|done|].
    cbn. intros ip. apply validIpOrNull_inet.
Qed.
End Race.
End Admission.
