(* ===== verification/LocalTime.v ===== *)
(** * Time ([packages/core/src/time.ts], [apps/api/src/booking/local-period.ts],
    [apps/api/src/pricing/rental-period.ts])

    Instants are milliseconds since 1970 and calendar dates are days since then;
    on the wire a date is the text [YYYY-MM-DD].  [time.ts] computes with the
    package luxon, which the class [Luxon] states: its reading and printing of
    dates, its weekdays, and the days of the platform's zone, each a half-open
    interval of instants, of whatever length the clocks give it. *)

From Stdlib Require Import Ascii.
From Stdlib Require String.
From S2P Require Import Prelude Text Ledger.

#[local] Open Scope string_scope.
#[local] Open Scope list_scope.
#[local] Open Scope Z_scope.

(** ** Luxon *)
Definition PLATFORM_TIMEZONE : string := "Europe/London".

(** 0000-01-01 and 9999-12-31: what four digits of year can say. *)
Definition FIRST_DATE : Z := -719528.
Definition LAST_DATE : Z := 2932896.
Definition is_date (d : Z) : Prop := FIRST_DATE <= d <= LAST_DATE.

Class Luxon : Type := {
  (** [DateTime.fromFormat(s, 'yyyy-MM-dd')] and [toISODate()] *)
  fromFormat : string -> option Z;
  toISODate : Z -> string;
  fromFormat_sound : forall s d, fromFormat s = Some d -> is_date d /\ toISODate d = s;
  fromFormat_toISODate : forall d, is_date d -> fromFormat (toISODate d) = Some d;
  toISODate_ltb : forall d d', is_date d -> is_date d' ->
    String.ltb (toISODate d) (toISODate d') = (d <? d');
  (** [weekday], 1 for Monday *)
  weekday : Z -> Z;
  weekday_range : forall d, 1 <= weekday d <= 7;
  weekday_next : forall d, weekday (d + 1) = weekday d mod 7 + 1;
  (** [plus({ months })] *)
  plusMonths : Z -> Z -> Z;
  (** Zones: the date of an instant, and [startOf('day')]. *)
  valid_zone : string -> bool;
  local_day : string -> instant -> Z;
  startOfDay : string -> Z -> instant;
  platform_valid : valid_zone PLATFORM_TIMEZONE = true;
  platform_day : forall d t, local_day PLATFORM_TIMEZONE t = d <->
    startOfDay PLATFORM_TIMEZONE d <= t < startOfDay PLATFORM_TIMEZONE (d + 1);
  platform_nonempty : forall d, startOfDay PLATFORM_TIMEZONE d < startOfDay PLATFORM_TIMEZONE (d + 1);
  (** [toISO()] in UTC *)
  toISO : instant -> string }.

(** The instants a [Date] can hold. *)
Definition MAX_INSTANT : Z := 8640000000000000.

(** ** [time.ts] *)
Module Time.
Section Time.
Context {L : Luxon}.

Definition fromEpochMs (milliseconds : Z) : result instant :=
  if Z.abs milliseconds <=? MAX_INSTANT then Ok milliseconds
  else Err (TimeError "Not a valid epoch in milliseconds").

Definition toIsoUtc (t : instant) : string := toISO t.

Definition rentalDayCount (start_ end_ : instant) (timeZone : string) : result Z :=
  if negb (valid_zone timeZone) then Err (TimeError "Invalid timezone or instant")
  else
    let startLocal := local_day timeZone start_ in
    let endLocal := local_day timeZone end_ in
    if startOfDay timeZone endLocal <? startOfDay timeZone startLocal
    then Err (TimeError "Rental end date cannot fall before the start date")
    else Ok (Z.max 1 (endLocal - startLocal)).

Definition isDstTransitionDay (t : instant) (timeZone : string) : result bool :=
  if negb (valid_zone timeZone) then Err (TimeError "Invalid timezone or instant")
  else
    let d := local_day timeZone t in
    Ok (negb (startOfDay timeZone (d + 1) - startOfDay timeZone d =? 24 * 3600000)).

Definition parse_date (date : string) : result Z :=
  match fromFormat date with
  | Some d => Ok d
  | None => Err (TimeError "Not a valid calendar date")
  end.

Definition startOfLocalDay (date timeZone : string) : result instant :=
  if negb (valid_zone timeZone) then Err (TimeError "Not a valid calendar date")
  else d ← parse_date date; Ok (startOfDay timeZone d).

Definition addLocalDays (date : string) (days : Z) : result string :=
  d ← parse_date date; Ok (toISODate (d + days)).

Definition addLocalMonths (date : string) (months : Z) : result string :=
  d ← parse_date date; Ok (toISODate (plusMonths d months)).

Definition weekdayOf (date : string) : result Z := d ← parse_date date; Ok (weekday d).

Definition toLocalDateString (t : instant) (timeZone : string) : result string :=
  if negb (valid_zone timeZone) then Err (TimeError "Invalid timezone or instant")
  else Ok (toISODate (local_day timeZone t)).

Definition isWithin (t start_ end_ : instant) : bool := (start_ <=? t) && (t <? end_).
End Time.
End Time.

(** ** [local-period.ts] *)
Module LocalPeriod.
Import Time.
Section LocalPeriod.
Context {L : Luxon}.

Record LocalPeriod : Type := mkPeriod { p_startAt : instant; p_endAt : instant }.

Definition periodFromLocalDates (startDate endDateInclusive : string) : result LocalPeriod :=
  s ← startOfLocalDay startDate PLATFORM_TIMEZONE;
  next ← addLocalDays endDateInclusive 1;
  e ← startOfLocalDay next PLATFORM_TIMEZONE;
  Ok (mkPeriod s e).
End LocalPeriod.
End LocalPeriod.

(** ** [rental-period.ts] *)
Module RentalPeriod.
Import Time.
Section RentalPeriod.
Context {L : Luxon}.

Definition MAX_MAXIMUM_RENTAL_DAYS : Z := 88.

Definition rentalPeriodDays (startAt endAt : instant) (timeZone : string) : result Z :=
  rentalDayCount startAt endAt timeZone.

Inductive PeriodRefusal : Type := inverted | over_maximum (days maximumDays : Z).

Definition refusePeriod (startAt endAt : instant) (timeZone : string) (maximumDays : Z)
  : result (option PeriodRefusal) :=
  if endAt <=? startAt then Ok (Some inverted)
  else
    days ← rentalPeriodDays startAt endAt timeZone;
    let permitted := Z.min maximumDays MAX_MAXIMUM_RENTAL_DAYS in
    Ok (if permitted <? days then Some (over_maximum days permitted) else None).

Definition describePeriodRefusal (r : PeriodRefusal) : string :=
  match r with
  | inverted => "Those dates do not make a hire — the return has to come after the collection."
  | over_maximum days maximumDays =>
      "That is " +:+ str (print_Z days) +:+ " days, and the longest hire we can arrange for " +:+
      "this kind of item is " +:+ str (print_Z maximumDays) +:+ ". Longer hires are " +:+
      "regulated consumer credit, which we are not authorised to arrange. Shorten " +:+
      "the dates, or book again when this hire ends."
  end.
End RentalPeriod.
End RentalPeriod.

(** ** Days of the platform *)
Section Days.
Import Time LocalPeriod RentalPeriod.
Context {L : Luxon}.

Abbreviation start_of := (startOfDay PLATFORM_TIMEZONE).
Abbreviation day_of := (local_day PLATFORM_TIMEZONE).

Lemma start_of_le (d d' : Z) : d <= d' -> start_of d <= start_of d'.
Proof.
  intros H. replace d' with (d + Z.of_nat (Z.to_nat (d' - d))) by lia. generalize (Z.to_nat (d' - d)).
  intros n. induction n as [|n IH]; [rewrite Z.add_0_r; lia|].
  pose proof (platform_nonempty (d + Z.of_nat n)) as Hn. rewrite Nat2Z.inj_succ.
  replace (d + Z.succ (Z.of_nat n)) with (d + Z.of_nat n + 1) by lia. lia.
Qed.

Lemma start_of_lt (d d' : Z) : d < d' <-> start_of d < start_of d'.
Proof.
  split; intros H.
  - pose proof (platform_nonempty d). pose proof (start_of_le (d + 1) d'). lia.
  - destruct (Z.lt_ge_cases d d') as [|Hge]; [done|]. pose proof (start_of_le d' d Hge). lia.
Qed.

Lemma day_of_start (d : Z) : day_of (start_of d) = d.
Proof. apply platform_day. pose proof (platform_nonempty d). lia. Qed.

Lemma day_of_last (d : Z) : day_of (start_of (d + 1) - 1) = d.
Proof. apply platform_day. pose proof (platform_nonempty d). lia. Qed.

Lemma day_of_le (t t' : instant) : t <= t' -> day_of t <= day_of t'.
Proof.
  intros H. destruct (Z.le_gt_cases (day_of t) (day_of t')) as [|Hgt]; [done|exfalso].
  destruct (proj1 (platform_day (day_of t) t) eq_refl) as [Ht _].
  destruct (proj1 (platform_day (day_of t') t') eq_refl) as [_ Ht'].
  pose proof (start_of_le (day_of t' + 1) (day_of t)). lia.
Qed.

Lemma rentalDayCount_run (t t' : instant) :
  t <= t' -> rentalDayCount t t' PLATFORM_TIMEZONE = Ok (Z.max 1 (day_of t' - day_of t)).
Proof.
  intros H. unfold rentalDayCount. rewrite platform_valid. cbn [negb].
  pose proof (start_of_le _ _ (day_of_le _ _ H)). by rewrite (proj2 (Z.ltb_ge _ _)) by lia.
Qed.

Lemma parse_date_sound (s : string) (d : Z) : parse_date s = Ok d -> is_date d /\ toISODate d = s.
Proof. unfold parse_date. destruct (fromFormat s) eqn:H; [|done]. intros [= ->]. by apply fromFormat_sound. Qed.

Lemma parse_date_print (d : Z) : is_date d -> parse_date (toISODate d) = Ok d.
Proof. intros H. unfold parse_date. by rewrite fromFormat_toISODate. Qed.

Lemma toLocalDateString_run (t : instant) :
  toLocalDateString t PLATFORM_TIMEZONE = Ok (toISODate (day_of t)).
Proof. unfold toLocalDateString. by rewrite platform_valid. Qed.

(** The dates a hire was asked for are the dates its instants show. *)
Lemma period_run (s e : string) (d d' : Z) :
  parse_date s = Ok d -> parse_date e = Ok d' -> d' < LAST_DATE ->
  periodFromLocalDates s e = Ok (mkPeriod (start_of d) (start_of (d' + 1))).
Proof.
  intros Hs He Hlast. unfold periodFromLocalDates, startOfLocalDay, addLocalDays. rewrite platform_valid.
  cbn [negb]. rewrite Hs, He. unfold_result. rewrite parse_date_print; [done|].
  apply parse_date_sound in He as [He _]. unfold is_date in *. lia.
Qed.

Lemma period_days (d d' : Z) : d <= d' ->
  rentalPeriodDays (start_of d) (start_of (d' + 1)) PLATFORM_TIMEZONE = Ok (d' - d + 1).
Proof.
  intros H. unfold rentalPeriodDays. rewrite rentalDayCount_run by (apply start_of_le; lia).
  rewrite !day_of_start. f_equal. lia.
Qed.

Lemma refusePeriod_run (d d' maximumDays : Z) : d <= d' ->
  refusePeriod (start_of d) (start_of (d' + 1)) PLATFORM_TIMEZONE maximumDays =
  Ok (if Z.min maximumDays MAX_MAXIMUM_RENTAL_DAYS <? d' - d + 1
      then Some (over_maximum (d' - d + 1) (Z.min maximumDays MAX_MAXIMUM_RENTAL_DAYS)) else None).
Proof.
  intros H. unfold refusePeriod.
  assert (start_of d < start_of (d' + 1)) by (apply (proj1 (start_of_lt d (d' + 1))); lia).
  destruct (Z.leb_spec (start_of (d' + 1)) (start_of d)); [lia|]. by rewrite period_days.
Qed.

(** Whatever was asked for, a period that is not refused is whole days, and few enough. *)
Lemma lawful_period (s e : string) (maximumDays : Z) (p : LocalPeriod) :
  periodFromLocalDates s e = Ok p ->
  refusePeriod (p_startAt p) (p_endAt p) PLATFORM_TIMEZONE maximumDays = Ok None ->
  exists d n, p = mkPeriod (start_of d) (start_of (d + n)) /\ 1 <= n <= MAX_MAXIMUM_RENTAL_DAYS /\
    rentalPeriodDays (p_startAt p) (p_endAt p) PLATFORM_TIMEZONE = Ok n.
Proof.
  unfold periodFromLocalDates, startOfLocalDay, addLocalDays. rewrite platform_valid. cbn [negb].
  destruct (parse_date s) as [d|] eqn:Hs; [|done]. destruct (parse_date e) as [d'|] eqn:He; [|done].
  unfold_result. destruct (parse_date (toISODate (d' + 1))) as [d1|] eqn:H1; [|done]. intros [= <-].
  cbn [p_startAt p_endAt]. unfold refusePeriod. destruct (Z.leb_spec (start_of d1) (start_of d)) as [|Hlt]; [done|].
  pose proof (proj2 (start_of_lt d d1) Hlt) as Hd.
  assert (d1 = (d1 - 1) + 1) as Hd1 by lia. rewrite Hd1. rewrite period_days by lia. unfold_result.
  destruct (Z.ltb_spec (Z.min maximumDays MAX_MAXIMUM_RENTAL_DAYS) (d1 - 1 - d + 1)) as [|Hle]; [done|]. intros _.
  exists d, (d1 - 1 - d + 1). split_and!; [f_equal; f_equal; lia|lia|lia|done].
Qed.
End Days.
