(* ===== verification/Quotes.v ===== *)
(** * Quotes, calendars and the booking export
    ([apps/api/src/booking/quotes.service.ts], [prisma-quote-store.ts],
    [availability.service.ts], [booking-data.service.ts], [limits.ts])

    [Module QuoteDb]: the table of quotes with its CHECKs, and the adapter.
    [Module Quotes]: pricing a period or refusing it, reading a quote back, erasing.
    [Module Availability]: an owner's calendar, in local dates.
    [Module BookingData]: what booking adds to a person's data export. *)

From Stdlib Require String.
From S2P Require Import Prelude JsNumber Text Money Ledger LedgerStore Pricing BookingState.
From S2P Require Import BookingStore Bookings LocalTime.

#[local] Open Scope string_scope.
#[local] Open Scope list_scope.
#[local] Open Scope Z_scope.

Module QuoteDb.
Import Money Pricing Bookings.
Import LedgerDb (fits_int4).
Import BookingDb (damageExcessColumns, toAppliedExcess, sorts_before).

Record QuoteRow : Type := mkQuoteRow {
  qr_id : string;
  qr_listingId : string;
  qr_renterId : string;
  qr_startAt : instant;
  qr_endAt : instant;
  qr_timeZone : string;
  qr_renterPostcode : string;
  qr_itemChargeAmount : Z;
  qr_renterFeeAmount : Z;
  qr_totalAmount : Z;
  qr_currency : string;
  qr_minimumFeeApplied : bool;
  qr_lineItems : list QuoteLineItem;
  qr_damageExcessAmount : option Z;
  qr_damageExcessBoundBy : option ExcessBound;
  qr_categoryVersionId : string;
  qr_expiresAt : instant;
  qr_createdAt : instant }.

Record Db : Type := mkDb { quotes : list QuoteRow; qseq : nat }.
Definition empty_db : Db := mkDb [] 0.

(** The CHECKs of one row. *)
Definition quote_refusal (r : QuoteRow) : option string :=
  if negb (fits_int4 (qr_itemChargeAmount r) && fits_int4 (qr_renterFeeAmount r) &&
           fits_int4 (qr_totalAmount r) &&
           match qr_damageExcessAmount r with Some a => fits_int4 a | None => true end)
  then Some "integer out of range"
  else if qr_endAt r <=? qr_startAt r then Some "quote_period_is_a_hire"
  else if negb ((0 <=? qr_itemChargeAmount r) && (0 <=? qr_renterFeeAmount r) &&
                (qr_totalAmount r =? qr_itemChargeAmount r + qr_renterFeeAmount r))
  then Some "quote_money_is_not_negative"
  else if bool_decide (length (qr_lineItems r) = 0%nat) then Some "quote_has_line_items"
  else match qr_damageExcessAmount r, qr_damageExcessBoundBy r with
       | None, None => None
       | Some a, Some _ => if 0 <=? a then None else Some "quote_damage_excess_is_complete"
       | _, _ => Some "quote_damage_excess_is_complete"
       end.

(** ** Reading a row back *)

(** [moneySchema] and [quoteLineItemSchema] *)
Definition money_schema (m : Money) : bool :=
  Js.is_safe (amount m) && bool_decide (currency m ∈ SUPPORTED_CURRENCIES).
Definition line_schema (l : QuoteLineItem) : bool :=
  (0 <? line_count l) && Js.is_safe (line_count l) && money_schema (unitPrice l) && money_schema (subtotal l).

Definition parseQuoteLineItems (raw : list QuoteLineItem) : result (list QuoteLineItem) :=
  if negb (bool_decide (length raw = 0%nat)) && forallb line_schema raw then Ok raw
  else Err (ForeignError "the line items on quote").

Definition toRecord (r : QuoteRow) : result QuoteRecord :=
  item ← money (qr_itemChargeAmount r) (qr_currency r);
  fee ← money (qr_renterFeeAmount r) (qr_currency r);
  t ← money (qr_totalAmount r) (qr_currency r);
  lines ← parseQuoteLineItems (qr_lineItems r);
  excess ← toAppliedExcess (qr_damageExcessAmount r) (qr_damageExcessBoundBy r) (qr_currency r);
  Ok (mkQuote (qr_id r)
    {| q_listingId := qr_listingId r; q_renterId := qr_renterId r; q_startAt := qr_startAt r;
       q_endAt := qr_endAt r; q_timeZone := qr_timeZone r; q_renterPostcode := qr_renterPostcode r;
       q_itemCharge := item; q_renterFee := fee; q_total := t;
       q_minimumFeeApplied := qr_minimumFeeApplied r; q_lineItems := lines; q_appliedExcess := excess;
       q_categoryVersionId := qr_categoryVersionId r; q_expiresAt := qr_expiresAt r |}
    (qr_createdAt r)).

Record ExportableQuote : Type := mkExportable {
  xq_id : string;
  xq_startAt : instant;
  xq_endAt : instant;
  xq_itemTitle : string;
  xq_total : Money;
  xq_renterPostcode : string;
  xq_createdAt : instant;
  xq_expiresAt : instant }.

Section Store.
Context {Ids : UuidSource}.
(** Listings, users and category versions live in tables this module does not hold. *)
Variable references : QuoteRow -> bool.
Variable titleOf : string -> string.
(** Which quotes a booking was made from. *)
Variable booked : string -> bool.

Definition row_for (at_ : instant) (q : NewQuote) (db : Db) : QuoteRow := {|
  qr_id := uuid (qseq db);
  qr_listingId := q_listingId q;
  qr_renterId := q_renterId q;
  qr_startAt := q_startAt q;
  qr_endAt := q_endAt q;
  qr_timeZone := q_timeZone q;
  qr_renterPostcode := q_renterPostcode q;
  qr_itemChargeAmount := amount (q_itemCharge q);
  qr_renterFeeAmount := amount (q_renterFee q);
  qr_totalAmount := amount (q_total q);
  qr_currency := currency (q_total q);
  qr_minimumFeeApplied := q_minimumFeeApplied q;
  qr_lineItems := q_lineItems q;
  qr_damageExcessAmount := fst (damageExcessColumns (q_appliedExcess q));
  qr_damageExcessBoundBy := snd (damageExcessColumns (q_appliedExcess q));
  qr_categoryVersionId := q_categoryVersionId q;
  qr_expiresAt := q_expiresAt q;
  qr_createdAt := at_ |}.

Definition insert_quote (r : QuoteRow) : M Db () := fun db =>
  match quote_refusal r with
  | Some c => (db, Err (DatabaseError c))
  | None =>
      if negb (references r) then (db, Err (DatabaseError "quotes_fkey"))
      else (mkDb (quotes db ++ [r]) (S (qseq db)), Ok tt)
  end.

Definition create (at_ : instant) (q : NewQuote) : M Db QuoteRecord :=
  r ← gets (row_for at_ q);
  _ ← insert_quote r;
  lift (toRecord r).

Definition of_renter (renter : string) (r : QuoteRow) : bool := bool_decide (qr_renterId r = renter).

Definition findForRenter (i renter : string) : M Db (option QuoteRecord) := fun db =>
  (db, match List.find (fun r => bool_decide (qr_id r = i) && of_renter renter r) (quotes db) with
       | None => Ok None
       | Some r => x ← toRecord r; Ok (Some x)
       end).

(** [{ renterId, bookings: { none: {} } }] *)
Definition unbooked (renter : string) (r : QuoteRow) : bool := of_renter renter r && negb (booked (qr_id r)).

Definition newest (r r' : QuoteRow) : Prop :=
  sorts_before (qr_createdAt r') (qr_id r') (qr_createdAt r) (qr_id r).
#[global] Instance newest_dec : RelDecision newest.
Proof. unfold newest. intros r r'. apply _. Defined.

Definition toExportable (r : QuoteRow) : result ExportableQuote :=
  t ← money (qr_totalAmount r) (qr_currency r);
  Ok (mkExportable (qr_id r) (qr_startAt r) (qr_endAt r) (titleOf (qr_listingId r)) t (qr_renterPostcode r)
        (qr_createdAt r) (qr_expiresAt r)).

Definition listUnbookedForRenter (renter : string) (limit : nat) : M Db (list ExportableQuote) := fun db =>
  (db, try_map toExportable (take limit (merge_sort newest (List.filter (unbooked renter) (quotes db))))).

Definition postcodesFor (quoteIds : list string) (renter : string) (db : Db) : gmap string string :=
  if decide (quoteIds = []) then ∅
  else list_to_map ((fun r => (qr_id r, qr_renterPostcode r)) <$>
         List.filter (fun r => bool_decide (qr_id r ∈ quoteIds) && of_renter renter r) (quotes db)).

Definition deleteUnbookedForRenter (renter : string) : M Db nat := fun db =>
  (mkDb (List.filter (fun r => negb (unbooked renter r)) (quotes db)) (qseq db),
   Ok (length (List.filter (unbooked renter) (quotes db)))).
End Store.
End QuoteDb.

(** ** The world the booking module's services run in *)
Module Quotes.
Import Money Pricing Bookings Time LocalPeriod RentalPeriod QuoteDb.
Import BookingDb (UnavailableReason, blocked, booked, reasonUnavailable).

Record World {W : Type} : Type := mkWorld { qdb : QuoteDb.Db; bdb : BookingDb.Db; rest : W }.
Arguments World W : clear implicits.
Arguments mkWorld {W}.

Definition now {W} (w : World W) : instant := BookingDb.bclock (bdb w).
Definition on_quotes {W A} (m : M QuoteDb.Db A) : M (World W) A := fun w =>
  let (s, r) := m (qdb w) in (mkWorld s (bdb w) (rest w), r).
Definition on_bookings {W A} (m : M BookingDb.Db A) : M (World W) A := fun w =>
  let (s, r) := m (bdb w) in (mkWorld (qdb w) s (rest w), r).

(** Whether some booking was made from the quote. *)
Definition has_booking {W} (w : World W) (i : string) : bool :=
  existsb (fun r => bool_decide (BookingDb.row_quoteId r = i)) (BookingDb.bookings (bdb w)).

Definition QUOTE_VALIDITY_MINUTES : Z := 30.

Record QuoteRequest : Type := mkRequest { startDate : string; endDate : string; postcode : string }.

Record RentalQuote : Type := mkRental {
  rq_id : string;
  rq_listingId : string;
  rq_startDate : string;
  rq_endDate : string;
  rq_days : Z;
  rq_postcode : string;
  rq_lineItems : list QuoteLineItem;
  rq_itemCharge : Money;
  rq_renterFee : Money;
  rq_total : Money;
  rq_minimumFeeApplied : bool;
  rq_appliedExcess : option AppliedExcess;
  rq_expiresAt : string }.

Definition refuseQuote {S A} (why : string) : M S A := throw (QuoteRefusedError why).

Definition OWN_LISTING : string :=
  "This is your own listing, so there is nothing to quote. Ask somebody else to book it, or use your calendar to block the dates.".
Definition NO_PRICE : string :=
  "This item has no price set, so we cannot quote it yet. Its owner needs to add a daily rate.".
Definition PAST_HIRE : string := "That hire starts in the past. Choose a collection date from today onwards.".

Definition describeUnavailable (reason : UnavailableReason) : string :=
  match reason with
  | blocked | booked =>
      "Those dates are not available for this item. The calendar on the listing shows what is free."
  end.

Section Service.
Context {Ids : UuidSource} {L : Luxon} {N : Intl} {W : Type}.
Variable references : QuoteRow -> bool.
Variable findQuotable : string -> W -> option QuotableListing.
(** What other requests commit while this one awaits. *)
Variable rival : World W -> World W.

Definition await : M (World W) () := modify rival.

Definition expiryFromNow : M (World W) instant :=
  t ← gets now; lift (fromEpochMs (t + QUOTE_VALIDITY_MINUTES * 60000)).

Definition refusePastPeriod (request : QuoteRequest) : M (World W) () :=
  t ← gets now;
  today ← lift (toLocalDateString t PLATFORM_TIMEZONE);
  if String.ltb (startDate request) today then refuseQuote PAST_HIRE else mret tt.

Definition toWireQuote (q : QuoteRecord) : result RentalQuote :=
  s ← toLocalDateString (q_startAt q) PLATFORM_TIMEZONE;
  next ← toLocalDateString (q_endAt q) PLATFORM_TIMEZONE;
  e ← addLocalDays next (-1);
  days ← rentalPeriodDays (q_startAt q) (q_endAt q) (q_timeZone q);
  Ok {| rq_id := q_id q; rq_listingId := q_listingId q; rq_startDate := s; rq_endDate := e; rq_days := days;
        rq_postcode := q_renterPostcode q; rq_lineItems := q_lineItems q; rq_itemCharge := q_itemCharge q;
        rq_renterFee := q_renterFee q; rq_total := q_total q;
        rq_minimumFeeApplied := q_minimumFeeApplied q; rq_appliedExcess := q_appliedExcess q;
        rq_expiresAt := toIsoUtc (q_expiresAt q) |}.

(** The two refusals of [quote] that look at a price, and the row it writes. *)
Definition priced_quote (l : QuotableListing) (renterId : string) (request : QuoteRequest) (p : LocalPeriod)
    (pr : PricedRental) : M (World W) NewQuote :=
  tooSmall ← lift (refuseBelowMinimumBooking (total pr) (l_currentFeePolicy l));
  match tooSmall with
  | Some refusal => refuseQuote (describeBelowMinimumBooking refusal)
  | None =>
      excess ← lift (appliedExcessOrNone (l_currentDamageSecurity l) (l_replacementValue l));
      expiresAt ← expiryFromNow;
      mret {| q_listingId := l_id l; q_renterId := renterId; q_startAt := p_startAt p; q_endAt := p_endAt p;
              q_timeZone := PLATFORM_TIMEZONE; q_renterPostcode := postcode request;
              q_itemCharge := itemCharge pr; q_renterFee := renterFee pr; q_total := total pr;
              q_minimumFeeApplied := priced_minimumFeeApplied pr; q_lineItems := lineItems pr;
              q_appliedExcess := excess; q_categoryVersionId := l_currentCategoryVersionId l;
              q_expiresAt := expiresAt |}
  end.

(** The rest of [quote], once the period is lawful and free. *)
Definition price_period (l : QuotableListing) (renterId : string) (request : QuoteRequest) (p : LocalPeriod)
  : M (World W) (option RentalQuote) :=
  days ← lift (rentalPeriodDays (p_startAt p) (p_endAt p) PLATFORM_TIMEZONE);
  startsOn ← lift (weekdayOf (startDate request));
  priced ← lift (priceRental days startsOn (l_rates l) (l_currentFeePolicy l));
  match priced with
  | None => refuseQuote NO_PRICE
  | Some pr =>
      q ← priced_quote l renterId request p pr;
      _ ← await;
      t ← gets now;
      created ← on_quotes (create references t q);
      wire ← lift (toWireQuote created);
      mret (Some wire)
  end.

Definition quote (listingId renterId : string) (request : QuoteRequest) : M (World W) (option RentalQuote) :=
  _ ← await;
  listing ← gets (fun w => findQuotable listingId (rest w));
  match listing with
  | None => mret None
  | Some l =>
      if bool_decide (l_ownerId l = renterId) then refuseQuote OWN_LISTING
      else
        p ← lift (periodFromLocalDates (startDate request) (endDate request));
        unlawful ← lift (refusePeriod (p_startAt p) (p_endAt p) PLATFORM_TIMEZONE (l_currentMaximumRentalDays l));
        match unlawful with
        | Some r => refuseQuote (describePeriodRefusal r)
        | None =>
            _ ← refusePastPeriod request;
            _ ← await;
            unavailable ← gets (fun w => reasonUnavailable (l_id l) (p_startAt p) (p_endAt p) (bdb w));
            match unavailable with
            | Some reason => refuseQuote (describeUnavailable reason)
            | None =>
                price_period l renterId request p
            end
        end
  end.

Definition find (i renterId : string) : M (World W) (option RentalQuote) :=
  found ← on_quotes (findForRenter i renterId);
  match found with
  | None => mret None
  | Some q => wire ← lift (toWireQuote q); mret (Some wire)
  end.

(** One DELETE, whose condition reads the bookings of the same moment. *)
Definition eraseFor (renterId : string) : M (World W) nat := fun w =>
  on_quotes (deleteUnbookedForRenter (has_booking w) renterId) w.
End Service.
End Quotes.

(** ** [AvailabilityService], in local dates *)
Module Availability.
Import BookingDb Time LocalPeriod.
Import Bookings (isOwnedBy).

Definition MAX_BLOCK_DAYS : Z := 366.
Definition MAX_BLOCK_HORIZON_DAYS : Z := 730.

Record AvailabilityBlockRequest : Type := mkBlockRequest {
  ab_startDate : string; ab_endDate : string; ab_reason : option string }.

Record AvailabilityBlock : Type := mkWireBlock {
  wb_id : string; wb_startDate : string; wb_endDate : string; wb_reason : option string }.
Record BookedPeriod : Type := mkWirePeriod { wp_id : string; wp_startDate : string; wp_endDate : string }.
Record ListingAvailability : Type := mkAvailability {
  month : string; av_blocks : list AvailabilityBlock; av_bookings : list BookedPeriod }.

Definition monthOf (date : string) : string := String.substring 0 7 date.
Definition firstDayOf (month : string) : string := month +:+ "-01".

Definition refuseBlock {S A} (why : string) : M S A := throw (BlockRefusedError why).
Definition FINISHED : string :=
  "That period has already finished, so blocking it would change nothing. Choose dates that end today or later.".
Definition TOO_FAR : string :=
  "That start date is more than two years away. If you meant a date sooner than that, check the year.".
Definition TOO_LONG : string :=
  "A single period can cover at most 366 days. Block a shorter period, or add more than one.".

Section Service.
Context {Ids : UuidSource} {L : Luxon}.
Variable ownerOf : string -> option string.
(** What other requests commit while this one awaits. *)
Variable rival : Db -> Db.

Definition toWireBlock (b : BlockRow) : result AvailabilityBlock :=
  s ← toLocalDateString (block_startAt b) PLATFORM_TIMEZONE;
  last ← fromEpochMs (block_endAt b - 1);
  e ← toLocalDateString last PLATFORM_TIMEZONE;
  Ok (mkWireBlock (block_id b) s e (block_reason b)).

Definition toWirePeriod (r : Row) : result BookedPeriod :=
  s ← toLocalDateString (row_startAt r) PLATFORM_TIMEZONE;
  last ← fromEpochMs (row_endAt r - 1);
  e ← toLocalDateString last PLATFORM_TIMEZONE;
  Ok (mkWirePeriod (row_id r) s e).

Definition nextMonth (m : string) : result string :=
  d ← addLocalMonths (firstDayOf m) 1; Ok (monthOf d).

Definition refuseUnacceptablePeriod (request : AvailabilityBlockRequest) (startAt endAt : instant)
  : M Db () :=
  t ← gets bclock;
  today ← lift (toLocalDateString t PLATFORM_TIMEZONE);
  if String.ltb (ab_endDate request) today then refuseBlock FINISHED
  else
    horizon ← lift (addLocalDays today MAX_BLOCK_HORIZON_DAYS);
    if String.ltb horizon (ab_startDate request) then refuseBlock TOO_FAR
    else
      days ← lift (rentalDayCount startAt endAt PLATFORM_TIMEZONE);
      if MAX_BLOCK_DAYS <? days then refuseBlock TOO_LONG else mret tt.

Definition readMonth (listing ownerId : string) (m : option string) : M Db (option ListingAvailability) :=
  _ ← modify rival;
  if negb (isOwnedBy ownerOf listing ownerId) then mret None
  else
    t ← gets bclock;
    resolved ← lift (match m with
                     | Some m => Ok m
                     | None => today ← toLocalDateString t PLATFORM_TIMEZONE; Ok (monthOf today)
                     end);
    from_ ← lift (startOfLocalDay (firstDayOf resolved) PLATFORM_TIMEZONE);
    next ← lift (nextMonth resolved);
    to_ ← lift (startOfLocalDay (firstDayOf next) PLATFORM_TIMEZONE);
    _ ← modify rival;
    blocks_ ← gets (listBlocks listing from_ to_);
    _ ← modify rival;
    booked_ ← gets (listBookedPeriods listing from_ to_);
    wire_blocks ← lift (try_map toWireBlock blocks_);
    wire_booked ← lift (try_map toWirePeriod booked_);
    mret (Some (mkAvailability resolved wire_blocks wire_booked)).

Definition block (listing ownerId : string) (request : AvailabilityBlockRequest)
  : M Db (option AvailabilityBlock) :=
  _ ← modify rival;
  if negb (isOwnedBy ownerOf listing ownerId) then mret None
  else
    p ← lift (periodFromLocalDates (ab_startDate request) (ab_endDate request));
    _ ← refuseUnacceptablePeriod request (p_startAt p) (p_endAt p);
    _ ← modify rival;
    created ← BookingDb.block listing (p_startAt p) (p_endAt p) (ab_reason request);
    wire ← lift (toWireBlock created);
    mret (Some wire).

Definition unblock (listing ownerId blockId : string) : M Db bool :=
  _ ← modify rival;
  if negb (isOwnedBy ownerOf listing ownerId) then mret false
  else BookingDb.unblock blockId listing.
End Service.
End Availability.

(** ** [BookingDataService] *)
Module BookingData.
Import Money Time QuoteDb.
Import BookingDb (BookingRecord).
Import Quotes (World, on_quotes, on_bookings, qdb, has_booking).

Definition EXPORTED_BOOKING_LIMIT : Z := 500.

Record ExportedHire : Type := mkHire {
  hi_id : string;
  hi_state : BookingState.BookingState;
  hi_startDate : string;
  hi_endDate : string;
  hi_itemTitle : string;
  hi_categoryName : string;
  hi_total : Money;
  hi_collectionPostcode : option string;
  hi_createdAt : string }.

Record ExportedLetting : Type := mkLetting {
  le_id : string;
  le_listingId : string;
  le_state : BookingState.BookingState;
  le_startDate : string;
  le_endDate : string;
  le_itemTitle : string;
  le_itemCharge : Money;
  le_createdAt : string }.

Record ExportedQuote : Type := mkExportedQuote {
  eq_id : string;
  eq_startDate : string;
  eq_endDate : string;
  eq_itemTitle : string;
  eq_total : Money;
  eq_collectionPostcode : string;
  eq_createdAt : string;
  eq_expiresAt : string }.

Record ExportedBookingsSection : Type := mkSection {
  hires : list ExportedHire;
  lettings : list ExportedLetting;
  exported_quotes : list ExportedQuote;
  section_truncated : bool }.

Section Service.
Context {Ids : UuidSource} {L : Luxon} {W : Type}.
Variable ownerOf : string -> option string.
Variable titleOf : string -> string.
(** What other requests commit while this one awaits. *)
Variable rival : World W -> World W.

Definition inclusiveEnd (endAt : instant) : result string :=
  d ← toLocalDateString endAt PLATFORM_TIMEZONE; addLocalDays d (-1).

Definition toHire (postcodes : gmap string string) (b : BookingRecord) : result ExportedHire :=
  let n := BookingDb.new b in
  s ← toLocalDateString (BookingDb.startAt n) PLATFORM_TIMEZONE;
  e ← inclusiveEnd (BookingDb.endAt n);
  Ok {| hi_id := BookingDb.id b; hi_state := BookingDb.state n; hi_startDate := s; hi_endDate := e;
        hi_itemTitle := BookingDb.itemTitle n; hi_categoryName := BookingDb.categoryName n;
        hi_total := BookingDb.total n; hi_collectionPostcode := postcodes !! BookingDb.quoteId n;
        hi_createdAt := toIsoUtc (BookingDb.createdAt b) |}.

Definition toLetting (b : BookingRecord) : result ExportedLetting :=
  let n := BookingDb.new b in
  s ← toLocalDateString (BookingDb.startAt n) PLATFORM_TIMEZONE;
  e ← inclusiveEnd (BookingDb.endAt n);
  Ok {| le_id := BookingDb.id b; le_listingId := BookingDb.listingId n; le_state := BookingDb.state n;
        le_startDate := s; le_endDate := e; le_itemTitle := BookingDb.itemTitle n;
        le_itemCharge := BookingDb.itemCharge n; le_createdAt := toIsoUtc (BookingDb.createdAt b) |}.

Definition toQuote (q : ExportableQuote) : result ExportedQuote :=
  s ← toLocalDateString (xq_startAt q) PLATFORM_TIMEZONE;
  e ← inclusiveEnd (xq_endAt q);
  Ok {| eq_id := xq_id q; eq_startDate := s; eq_endDate := e; eq_itemTitle := xq_itemTitle q;
        eq_total := xq_total q; eq_collectionPostcode := xq_renterPostcode q;
        eq_createdAt := toIsoUtc (xq_createdAt q); eq_expiresAt := toIsoUtc (xq_expiresAt q) |}.

Definition exportFor (userId : string) : M (World W) ExportedBookingsSection :=
  let limit := EXPORTED_BOOKING_LIMIT in
  let probe := Z.to_nat (Paging.probe limit) in
  hireRows ← on_bookings (BookingDb.findForRenter userId probe);
  _ ← modify rival;
  lettingRows ← on_bookings (BookingDb.findForOwner ownerOf userId probe);
  _ ← modify rival;
  w ← gets (fun w => w);
  quoteRows ← on_quotes (listUnbookedForRenter titleOf (has_booking w) userId probe);
  _ ← modify rival;
  let hire_page := Paging.fitTo hireRows limit in
  let letting_page := Paging.fitTo lettingRows limit in
  let quote_page := Paging.fitTo quoteRows limit in
  postcodes ← gets (fun w => postcodesFor
    ((fun b => BookingDb.quoteId (BookingDb.new b)) <$> Paging.items hire_page) userId (qdb w));
  hs ← lift (try_map (toHire postcodes) (Paging.items hire_page));
  ls ← lift (try_map toLetting (Paging.items letting_page));
  qs ← lift (try_map toQuote (Paging.items quote_page));
  mret (mkSection hs ls qs
    (Paging.truncated hire_page || Paging.truncated letting_page || Paging.truncated quote_page)).
End Service.
End BookingData.
