(* ===== verification/QuoteTheorems.v ===== *)
(** * Quotes and calendars: what holds of them

    [quotes_stay_lawful]: whatever interleaves, stored quotes are whole local
    days within the legal cap, add up, and read back.  [quote_outcomes]: every
    branch of pricing a period, and that reading the quote back shows the dates and
    the price that were asked for.  [erasure_mirrors_export]: erasing takes the
    quotes the export lists.  [block_outcomes]: an owner's block, and that it closes
    its days to quotes. *)

From Stdlib Require String.
From S2P Require Import Prelude JsNumber Text Money Ledger LedgerStore Pricing PricingProofs.
From S2P Require Import BookingState BookingStore BookingProofs Bookings LocalTime Quotes.

#[local] Open Scope string_scope.
#[local] Open Scope list_scope.
#[local] Open Scope Z_scope.

Import Money Pricing Bookings Time LocalPeriod RentalPeriod QuoteDb Quotes.
Import BookingDb (reasonUnavailable, damageExcessColumns, toAppliedExcess).
Import LedgerDb (fits_int4).

Abbreviation start_of := (startOfDay PLATFORM_TIMEZONE).
Abbreviation day_of := (local_day PLATFORM_TIMEZONE).

(** ** Listings as the schemas let them in *)
Record valid_listing (cur : CurrencyCode) (l : QuotableListing) : Prop := {
  vl_currency : cur ∈ SUPPORTED_CURRENCIES;
  vl_card : valid_card cur (l_rates l);
  vl_policy : valid_policy cur (l_currentFeePolicy l);
  vl_security : forall p, l_currentDamageSecurity l = Some p -> valid_security cur p;
  vl_value : priced cur MAX_CHARGE (l_replacementValue l) }.

Lemma supported_supported (cur : CurrencyCode) :
  cur ∈ SUPPORTED_CURRENCIES -> bool_decide (cur ∈ SUPPORTED_CURRENCIES) = true.
Proof. apply bool_decide_eq_true_2. Qed.

(** ** Rows *)
Section Rows.
Context {Ids : UuidSource} {L : Luxon}.

Record lawful_row (r : QuoteRow) : Prop := {
  lr_stored : quote_refusal r = None;
  lr_days : exists d n, 1 <= n <= MAX_MAXIMUM_RENTAL_DAYS /\ qr_startAt r = start_of d /\
    qr_endAt r = start_of (d + n);
  lr_zone : qr_timeZone r = PLATFORM_TIMEZONE;
  lr_reads : is_ok (toRecord r) = true;
  lr_currency : qr_currency r ∈ SUPPORTED_CURRENCIES }.

Record lawful (db : Db) : Prop := {
  law_rows : Forall lawful_row (quotes db);
  law_ids : NoDup (qr_id <$> quotes db);
  law_issued : Forall (fun r => exists k, (k < qseq db)%nat /\ qr_id r = uuid k) (quotes db) }.

Lemma lawful_empty : lawful empty_db.
Proof. split; constructor. Qed.

(** A new quote that the table takes and gives back. *)
Record storable_quote (q : NewQuote) : Prop := {
  sq_days : exists d n, 1 <= n <= MAX_MAXIMUM_RENTAL_DAYS /\ q_startAt q = start_of d /\
    q_endAt q = start_of (d + n);
  sq_zone : q_timeZone q = PLATFORM_TIMEZONE;
  sq_money : exists cur, cur ∈ SUPPORTED_CURRENCIES /\
    currency (q_itemCharge q) = cur /\ currency (q_renterFee q) = cur /\ currency (q_total q) = cur /\
    0 <= amount (q_itemCharge q) <= 1000000000 /\ 0 <= amount (q_renterFee q) <= 1000000000 /\
    amount (q_total q) = amount (q_itemCharge q) + amount (q_renterFee q) /\
    q_lineItems q <> [] /\ Forall (storable_line cur) (q_lineItems q) /\
    (forall e, q_appliedExcess q = Some e -> priced cur 1000000 (excess_amount e)) }.

Lemma small_money (cur : CurrencyCode) (z limit : Z) :
  0 <= z <= limit -> limit <= 2000000000 -> fits_int4 z = true /\ Js.is_safe z = true.
Proof. intros. unfold fits_int4, Js.is_safe, Js.MAX_SAFE_INTEGER. split; lia. Qed.

Lemma line_storable (cur : CurrencyCode) (l : QuoteLineItem) :
  cur ∈ SUPPORTED_CURRENCIES -> storable_line cur l -> line_schema l = true.
Proof.
  intros Hcur (Hc & [Hu1 Hu2] & [Hs1 Hs2]). unfold line_schema, money_schema, MAX_DAYS, MAX_RENTAL_RATE_MINOR_UNITS in *.
  rewrite Hu1, Hs1, !(bool_decide_eq_true_2 _ Hcur), !andb_true_r. unfold Js.is_safe, Js.MAX_SAFE_INTEGER.
  repeat (apply andb_true_iff; split); lia.
Qed.

Lemma excess_columns_read (cur : CurrencyCode) (e : option AppliedExcess) :
  cur ∈ SUPPORTED_CURRENCIES -> (forall x, e = Some x -> priced cur 1000000 (excess_amount x)) ->
  toAppliedExcess (fst (damageExcessColumns e)) (snd (damageExcessColumns e)) cur = Ok e.
Proof.
  intros Hcur He. destruct e as [[[a c] b]|]; [|done]. destruct (He _ eq_refl) as [Hc Ha]. cbn in *. subst c.
  rewrite (bool_decide_eq_true_2 _ Hcur). unfold_result.
  rewrite money_safe; [done|]. by apply (small_money cur a 1000000).
Qed.

Lemma row_reads (at_ : instant) (q : NewQuote) (db : Db) :
  storable_quote q -> toRecord (row_for at_ q db) = Ok (mkQuote (uuid (qseq db)) q at_).
Proof.
  intros [_ _ (cur & Hcur & Hi & Hf & Ht & Hib & Hfb & Hsum & Hne & Hl & He)].
  unfold toRecord, row_for. cbn -[toAppliedExcess damageExcessColumns]. rewrite Ht, (excess_columns_read cur _ Hcur He). unfold_result.
  rewrite !money_safe by (unfold Js.is_safe, Js.MAX_SAFE_INTEGER; lia).
  unfold parseQuoteLineItems. rewrite bool_decide_eq_false_2 by (by rewrite length_zero_iff_nil).
  assert (forallb line_schema (q_lineItems q) = true) as ->.
  { apply forallb_forall. intros l Hin%list_elem_of_In. rewrite Forall_forall in Hl. by apply (line_storable cur), Hl. }
  cbn. destruct q as [? ? ? ? ? ? [] [] [] ? ? ? ? ?]. cbn in *. by subst.
Qed.

Lemma row_stored (at_ : instant) (q : NewQuote) (db : Db) :
  storable_quote q -> quote_refusal (row_for at_ q db) = None.
Proof.
  intros [(d & n & Hn & Hs & He) _ (cur & Hcur & Hi & Hf & Ht & Hib & Hfb & Hsum & Hne & Hl & Hex)].
  unfold quote_refusal, row_for. cbn.
  rewrite (proj1 (small_money cur _ _ Hib ltac:(lia))), (proj1 (small_money cur _ _ Hfb ltac:(lia))).
  rewrite (proj1 (small_money cur (amount (q_total q)) 2000000000 ltac:(lia) ltac:(lia))).
  rewrite Hs, He. destruct (Z.leb_spec (start_of (d + n)) (start_of d)) as [Hle|_].
  { pose proof (proj1 (start_of_lt d (d + n))). lia. }
  rewrite (bool_decide_eq_false_2 (length _ = 0%nat)) by (by rewrite length_zero_iff_nil).
  rewrite Hsum, Z.eqb_refl, (proj2 (Z.leb_le 0 _) (proj1 Hib)), (proj2 (Z.leb_le 0 _) (proj1 Hfb)). cbn.
  destruct (q_appliedExcess q) as [x|]; cbn; [|done]. destruct (Hex x eq_refl) as [_ Hx].
  rewrite (proj1 (small_money cur _ _ Hx ltac:(lia))), (proj2 (Z.leb_le 0 _) (proj1 Hx)). done.
Qed.

Lemma lawful_insert (at_ : instant) (q : NewQuote) (db : Db) :
  lawful db -> storable_quote q -> lawful (mkDb (quotes db ++ [row_for at_ q db]) (S (qseq db))).
Proof.
  intros [Hr Hi Hs] Hq. split; cbn.
  - apply Forall_app. split; [done|]. constructor; [|done]. pose proof Hq as [Hd Hz Hm].
    destruct Hm as (cur & Hcur & _ & _ & Ht & _). split; [by apply row_stored|done|done| |cbn; by rewrite Ht].
    by rewrite row_reads.
  - rewrite fmap_app. apply NoDup_app. split_and!; [done| |apply NoDup_singleton].
    intros i (r & Hir & Hin)%list_elem_of_fmap Hnew%list_elem_of_singleton. rewrite Forall_forall in Hs.
    destruct (Hs r Hin) as (k & Hk & Hid). rewrite Hnew in Hir. cbn in Hir. rewrite Hid in Hir.
    apply (inj uuid) in Hir. lia.
  - apply Forall_app. split; [eapply Forall_impl; [exact Hs|]; cbn; intros r (k & Hk & ?); exists k; split; [lia|done]|].
    constructor; [|done]. exists (qseq db). split; [lia|done].
Qed.

Lemma lawful_filter (p : QuoteRow -> bool) (db : Db) :
  lawful db -> lawful (mkDb (List.filter p (quotes db)) (qseq db)).
Proof.
  intros [Hr Hi Hs]. rewrite Forall_forall in *. split; cbn.
  - apply Forall_forall. intros r [Hin _]%elem_of_bfilter. by apply Hr.
  - by apply NoDup_bfilter.
  - apply Forall_forall. intros r [Hin _]%elem_of_bfilter. by apply Hs.
Qed.
End Rows.

(** ** Any interleaving *)
Section Interleaving.
Context {Ids : UuidSource} {L : Luxon} {N : Intl} {W : Type}.
Variable references : QuoteRow -> bool.
Variable findQuotable : string -> W -> option QuotableListing.

(** What can happen to the world while somebody waits: other people's quotes, each
    disturbed in turn, erasures, and anything at all outside the table of quotes. *)
Inductive interleaving : (World W -> World W) -> Prop :=
  | i_elsewhere f : (forall w, qdb (f w) = qdb w) -> interleaving f
  | i_quote rival l u q : interleaving rival ->
      interleaving (fun w => fst (quote references findQuotable rival l u q w))
  | i_erase u : interleaving (fun w => fst (eraseFor u w))
  | i_then f g : interleaving f -> interleaving g -> interleaving (fun w => g (f w)).

Hypothesis Hlistings : forall i w l, findQuotable i w = Some l -> exists cur, valid_listing cur l.

(** [sound m]: the table stays lawful through [m], thrown or returned. *)
Definition sound {A} (m : M (World W) A) : Prop := forall w, lawful (qdb w) -> lawful (qdb (fst (m w))).

Lemma keeps_lawful_bind {A B} (m : M (World W) A) (k : A -> M (World W) B) :
  sound m -> (forall a, (exists w w', m w = (w', Ok a)) -> sound (k a)) -> sound (mbind k m).
Proof.
  intros Hm Hk w Hw. specialize (Hm w Hw). unfold mbind, M_bind.
  destruct (m w) as [w' [a|e]] eqn:He; cbn in *; [|done]. apply (Hk a); [by exists w, w'|done].
Qed.

Lemma sound_same {A} (m : M (World W) A) : (forall w, qdb (fst (m w)) = qdb w) -> sound m.
Proof. intros H w Hw. by rewrite H. Qed.

Lemma sound_create (at_ : instant) (q : NewQuote) :
  storable_quote q -> sound (on_quotes (create references at_ q)).
Proof.
  intros Hq w Hw. unfold on_quotes, create, insert_quote. unfold_M.
  rewrite (row_stored at_ q (qdb w) Hq). destruct (negb _); cbn; [done|]. by apply lawful_insert.
Qed.

(** What a listing and a period come to is a quote the table takes. *)
Lemma priced_storable (cur : CurrencyCode) (l : QuotableListing) (renter : string) (request : QuoteRequest)
    (d n weekday : Z) (pr : PricedRental) (q : NewQuote) (w w' : World W) :
  valid_listing cur l -> 1 <= n <= MAX_MAXIMUM_RENTAL_DAYS ->
  priceRental n weekday (l_rates l) (l_currentFeePolicy l) = Ok (Some pr) ->
  priced_quote l renter request (mkPeriod (start_of d) (start_of (d + n))) pr w = (w', Ok q) ->
  storable_quote q.
Proof.
  intros [Hcur Hcard Hpol Hsec Hval] Hn Hpr Hq.
  assert (1 <= n <= MAX_DAYS) as Hn' by (unfold MAX_DAYS, MAX_MAXIMUM_RENTAL_DAYS in *; lia).
  destruct (priceRental_ok cur _ _ weekday n Hcard Hpol Hn') as (pr' & pct & Hpr' & [_ Hpct Hitem Hfee _ Htot Hlines]).
  rewrite Hpr in Hpr'. injection Hpr' as <-.
  unfold priced_quote in Hq. apply bind_ok in Hq as (w1 & small & _ & Hq). destruct small; [done|].
  apply bind_ok in Hq as (w2 & excess & He & Hq). apply bind_ok in Hq as (w3 & expires & _ & Hq).
  injection Hq as _ <-. injection He as _ He.
  destruct Hpol as (_ & _ & [_ Hfl] & _). destruct Hitem as [Hic Hia].
  unfold MAX_MAXIMUM_RENTAL_DAYS, MAX_RENTAL_RATE_MINOR_UNITS in *.
  split; cbn [q_startAt q_endAt q_timeZone q_itemCharge q_renterFee q_total q_lineItems q_appliedExcess p_startAt p_endAt].
  - by exists d, n.
  - done.
  - exists cur. rewrite Htot, Hfee. cbn [amount currency]. split_and!; try done; try nia; [apply Hlines..|].
    intros e ->. unfold appliedExcessOrNone in He. destruct (l_currentDamageSecurity l) as [p|] eqn:Hp; [|done].
    destruct (appliedExcessFor_ok cur p _ (Hsec p eq_refl) Hval) as (e' & p' & He' & _ & _ & Hec & _ & Heb & _).
    unfold_result. rewrite He' in He. injection He as <-. split; [done|]. destruct (Hsec p eq_refl) as [[_ ?] [_ ?] _ _]. lia.
Qed.

Lemma sound_price_period (rival : World W -> World W) (cur : CurrencyCode) (x : QuotableListing) (u : string)
    (q : QuoteRequest) (d n : Z) :
  (forall w, lawful (qdb w) -> lawful (qdb (rival w))) -> valid_listing cur x -> 1 <= n <= MAX_MAXIMUM_RENTAL_DAYS ->
  rentalPeriodDays (start_of d) (start_of (d + n)) PLATFORM_TIMEZONE = Ok n ->
  sound (price_period references rival x u q (mkPeriod (start_of d) (start_of (d + n)))).
Proof.
  intros Hr Hx Hn Hdays. assert (sound (await rival)) as Hawait by (intros w Hw; by apply Hr). unfold price_period.
  apply keeps_lawful_bind; [by apply sound_same|]. intros days (? & ? & [= _ Hd]).
  cbn [p_startAt p_endAt] in Hd.
  assert (days = n) as -> by congruence. clear Hd Hdays.
  apply keeps_lawful_bind; [by apply sound_same|]. intros weekday _.
  apply keeps_lawful_bind; [by apply sound_same|]. intros [pr|] (? & ? & [= _ Hpr]); [|by apply sound_same].
  apply keeps_lawful_bind.
  { apply sound_same. intros w. unfold priced_quote, expiryFromNow. unfold_M. by repeat case_match; simplify_eq. }
  intros new_ (w1 & w1' & Hnew). pose proof (priced_storable _ _ _ _ _ _ _ _ _ _ _ Hx Hn Hpr Hnew) as Hst.
  apply keeps_lawful_bind; [done|]. intros _ _. apply keeps_lawful_bind; [by apply sound_same|]. intros t _.
  apply keeps_lawful_bind; [by apply sound_create|]. intros created _. apply sound_same.
  intros w. unfold_M. by destruct (toWireQuote created).
Qed.

Lemma sound_quote (rival : World W -> World W) (l u : string) (q : QuoteRequest) :
  (forall w, lawful (qdb w) -> lawful (qdb (rival w))) ->
  sound (quote references findQuotable rival l u q).
Proof.
  intros Hr. assert (sound (await rival)) as Hawait by (intros w Hw; by apply Hr).
  unfold quote. apply keeps_lawful_bind; [done|]. intros _ _.
  apply keeps_lawful_bind; [by apply sound_same|]. intros listing (w0 & w0' & [= _ Hl]).
  destruct listing as [x|]; [|by apply sound_same]. destruct (Hlistings _ _ _ Hl) as [cur Hx].
  destruct (bool_decide _); [by apply sound_same|].
  apply keeps_lawful_bind; [by apply sound_same|]. intros p (? & ? & [= _ Hp]).
  apply keeps_lawful_bind; [by apply sound_same|]. intros [r|] (? & ? & [= _ Hun]); [by apply sound_same|].
  destruct (lawful_period _ _ _ _ Hp Hun) as (d & n & -> & Hn & Hdays).
  apply keeps_lawful_bind. { unfold refusePastPeriod. apply sound_same. intros w. unfold_M. by repeat case_match; simplify_eq. }
  intros _ _. apply keeps_lawful_bind; [done|]. intros _ _. apply keeps_lawful_bind; [by apply sound_same|].
  intros [reason|] _; [by apply sound_same|].
  by apply (sound_price_period _ cur _ _ _ d n).
Qed.

(** After any schedule of quotes and erasures, disturbed at every await, every stored quote
    is a hire of 1 to 88 whole days of the platform's zone, whatever the clocks did between,
    passes the table's CHECKs, and reads back; ids never repeat. *)
Theorem quotes_stay_lawful (f : World W -> World W) (w : World W) :
  interleaving f -> lawful (qdb w) -> lawful (qdb (f w)).
Proof.
  intros Hf. revert w. induction Hf as [f Hf|rival l u q _ IH|u|f g _ IHf _ IHg]; intros w Hw.
  - by rewrite Hf.
  - by apply sound_quote.
  - by apply lawful_filter.
  - by apply IHg, IHf.
Qed.
End Interleaving.

(** ** One request, undisturbed *)
Section Outcomes.
Context {Ids : UuidSource} {L : Luxon} {N : Intl} {W : Type}.
Variable references : QuoteRow -> bool.
Variable findQuotable : string -> W -> option QuotableListing.
Hypothesis Hrefs : forall r, references r = true.

Abbreviation calm := (Datatypes.id : World W -> World W).
Abbreviation asked := (quote references findQuotable calm).

(** The first refusal that applies, given what the calendar says of the period. *)
Definition refusal_of (l : QuotableListing) (renter : string) (d d' today : Z)
    (unavailable : option BookingDb.UnavailableReason) : option string :=
  let permitted := Z.min (l_currentMaximumRentalDays l) MAX_MAXIMUM_RENTAL_DAYS in
  if bool_decide (l_ownerId l = renter) then Some OWN_LISTING
  else if d' <? d then Some (describePeriodRefusal inverted)
  else if permitted <? d' - d + 1 then Some (describePeriodRefusal (over_maximum (d' - d + 1) permitted))
  else if d <? today then Some PAST_HIRE
  else match unavailable with
       | Some reason => Some (describeUnavailable reason)
       | None => match daily (l_rates l) with None => Some NO_PRICE | Some _ => None end
       end.

Lemma refusal_of_None (l : QuotableListing) (renter : string) (d d' today : Z) (unavailable : option BookingDb.UnavailableReason) :
  refusal_of l renter d d' today unavailable = None ->
  d <= d' /\ d' - d + 1 <= MAX_MAXIMUM_RENTAL_DAYS /\ daily (l_rates l) <> None.
Proof.
  unfold refusal_of. destruct (bool_decide _); [done|]. destruct (Z.ltb_spec d' d); [done|].
  destruct (Z.ltb_spec (Z.min (l_currentMaximumRentalDays l) MAX_MAXIMUM_RENTAL_DAYS) (d' - d + 1)); [done|].
  destruct (d <? today); [done|]. destruct unavailable; [done|]. intros H1. split_and!; [lia|lia|]. intros E. by rewrite E in H1.
Qed.

(** What is decided before the price. *)
Lemma asked_dated (i renter : string) (request : QuoteRequest) (l : QuotableListing) (d d' : Z) (w : World W) :
  parse_date (startDate request) = Ok d -> parse_date (endDate request) = Ok d' -> d' < LAST_DATE ->
  is_date (day_of (now w)) -> findQuotable i (rest w) = Some l ->
  asked i renter request w =
    match refusal_of l renter d d' (day_of (now w))
            (reasonUnavailable (l_id l) (start_of d) (start_of (d' + 1)) (bdb w)) with
    | Some why => (w, Err (QuoteRefusedError why))
    | None => price_period references calm l renter request (mkPeriod (start_of d) (start_of (d' + 1))) w
    end.
Proof.
  intros Hs He Hlast Htoday Hl. unfold quote, refusal_of, await. run_binds. cbn [Datatypes.id]. rewrite Hl.
  destruct (bool_decide _); [done|]. run_binds. rewrite (period_run _ _ d d' Hs He Hlast). run_binds.
  cbn [p_startAt p_endAt]. destruct (Z.ltb_spec d' d) as [Hinv|Hle].
  - assert (refusePeriod (start_of d) (start_of (d' + 1)) PLATFORM_TIMEZONE (l_currentMaximumRentalDays l) = Ok (Some inverted)) as ->; [|done].
    unfold refusePeriod. pose proof (start_of_le (d' + 1) d ltac:(lia)) as H. by rewrite (proj2 (Z.leb_le _ _) H).
  - rewrite refusePeriod_run by done. run_binds. destruct (_ <? d' - d + 1); [done|].
    unfold refusePastPeriod. run_binds. rewrite toLocalDateString_run. run_binds.
    pose proof (parse_date_sound _ _ Hs) as [Hd <-]. rewrite toISODate_ltb by done.
    destruct (d <? _); [done|]. run_binds. destruct (reasonUnavailable _ _ _ _); [done|].
    destruct (daily (l_rates l)) eqn:Hday; [done|]. unfold price_period. cbn [p_startAt p_endAt]. rewrite period_days by done. run_binds.
    unfold weekdayOf. rewrite Hs. run_binds. unfold priceRental, chooseCheapestUnits. by rewrite Hday.
Qed.

Lemma wire_run (q : NewQuote) (i : string) (at_ : instant) (s e : string) (d d' : Z) :
  parse_date s = Ok d -> parse_date e = Ok d' -> d <= d' -> d' < LAST_DATE ->
  q_startAt q = start_of d -> q_endAt q = start_of (d' + 1) -> q_timeZone q = PLATFORM_TIMEZONE ->
  toWireQuote (mkQuote i q at_) = Ok {| rq_id := i; rq_listingId := q_listingId q; rq_startDate := s;
    rq_endDate := e; rq_days := d' - d + 1; rq_postcode := q_renterPostcode q; rq_lineItems := q_lineItems q;
    rq_itemCharge := q_itemCharge q; rq_renterFee := q_renterFee q; rq_total := q_total q;
    rq_minimumFeeApplied := q_minimumFeeApplied q; rq_appliedExcess := q_appliedExcess q;
    rq_expiresAt := toISO (q_expiresAt q) |}.
Proof.
  intros Hs He Hle Hlast Hqs Hqe Hz. unfold toWireQuote. cbn [q_new q_id].
  rewrite !toLocalDateString_run, Hqs, Hqe, Hz, !day_of_start. unfold_result.
  apply parse_date_sound in Hs as [Hds <-]. pose proof (parse_date_sound _ _ He) as [Hde <-].
  unfold addLocalDays. rewrite parse_date_print by (unfold is_date in *; lia). unfold_result.
  rewrite period_days by done. by replace (d' + 1 + -1) with d' by lia.
Qed.

Lemma priced_quote_run (cur : CurrencyCode) (l : QuotableListing) (renter : string) (request : QuoteRequest)
    (p : LocalPeriod) (n weekday pct : Z) (pr : PricedRental) (w : World W) :
  valid_listing cur l -> 1 <= n <= MAX_MAXIMUM_RENTAL_DAYS -> well_priced cur (l_currentFeePolicy l) n pr pct ->
  Z.abs (now w + QUOTE_VALIDITY_MINUTES * 60000) <= MAX_INSTANT ->
  exists excess, appliedExcessOrNone (l_currentDamageSecurity l) (l_replacementValue l) = Ok excess /\
  priced_quote l renter request p pr w = (w,
    if amount (total pr) <? amount (minimumBookingTotal (l_currentFeePolicy l))
    then Err (QuoteRefusedError (describeBelowMinimumBooking
              (total pr, minimumBookingTotal (l_currentFeePolicy l))))
    else Ok {| q_listingId := l_id l; q_renterId := renter; q_startAt := p_startAt p; q_endAt := p_endAt p;
               q_timeZone := PLATFORM_TIMEZONE; q_renterPostcode := postcode request;
               q_itemCharge := itemCharge pr; q_renterFee := renterFee pr; q_total := total pr;
               q_minimumFeeApplied := priced_minimumFeeApplied pr; q_lineItems := lineItems pr;
               q_appliedExcess := excess; q_categoryVersionId := l_currentCategoryVersionId l;
               q_expiresAt := now w + QUOTE_VALIDITY_MINUTES * 60000 |}).
Proof.
  intros [Hcur Hcard Hpol Hsec Hval] Hn Hw Hnow.
  assert (exists excess, appliedExcessOrNone (l_currentDamageSecurity l) (l_replacementValue l) = Ok excess)
    as [excess He].
  { unfold appliedExcessOrNone. destruct (l_currentDamageSecurity l) as [s|] eqn:Hs; [|by eexists].
    destruct (appliedExcessFor_ok cur s _ (Hsec s eq_refl) Hval) as (e & ? & -> & _). by eexists. }
  exists excess. split; [done|]. destruct Hpol as (_ & _ & _ & Hmin).
  unfold priced_quote, refuseBelowMinimumBooking, expiryFromNow, fromEpochMs. unfold_M. unfold_result.
  rewrite (money_again_ok _ (priced_wf cur 1000000 _ ltac:(done) Hmin)), lessThan_ok
    by (rewrite (wp_total _ _ _ _ _ Hw); by rewrite (proj1 Hmin)).
  destruct (_ <? _); [done|]. rewrite He, (proj2 (Z.leb_le _ _) Hnow). done.
Qed.

Lemma asked_found (at_ : instant) (q : NewQuote) (db : QuoteDb.Db) :
  lawful db -> storable_quote q ->
  findForRenter (uuid (qseq db)) (q_renterId q) (mkDb (quotes db ++ [row_for at_ q db]) (S (qseq db))) =
    (mkDb (quotes db ++ [row_for at_ q db]) (S (qseq db)), Ok (Some (mkQuote (uuid (qseq db)) q at_))).
Proof.
  intros Hl Hq. pose proof (row_reads at_ q db Hq) as Hread. unfold findForRenter. cbn [quotes].
  destruct (List.find _ _) as [r|] eqn:Hf.
  - apply List.find_some in Hf as [Hin [Hid%bool_decide_eq_true _]%andb_true_iff].
    apply list_elem_of_In in Hin. pose proof (lawful_insert at_ q db Hl Hq) as [_ Hnd _]. cbn [quotes] in Hnd.
    assert (row_for at_ q db ∈ quotes db ++ [row_for at_ q db]) as Hnew by (apply elem_of_app; right; left).
    pose proof (find_by_unique qr_id _ _ Hnd Hin) as H1. pose proof (find_by_unique qr_id _ _ Hnd Hnew) as H2.
    change (qr_id (row_for at_ q db)) with (uuid (qseq db)) in H2. rewrite Hid in H1.
    assert (r = row_for at_ q db) as -> by congruence. by rewrite Hread.
  - exfalso. assert (row_for at_ q db ∈ quotes db ++ [row_for at_ q db]) as Hnew by (apply elem_of_app; right; left).
    apply list_elem_of_In in Hnew. apply (List.find_none _ _ Hf) in Hnew. unfold of_renter in Hnew. cbn in Hnew.
    by rewrite !bool_decide_eq_true_2 in Hnew.
Qed.

Lemma price_period_run (cur : CurrencyCode) (l : QuotableListing) (renter : string) (request : QuoteRequest)
    (d d' : Z) (w : World W) :
  parse_date (startDate request) = Ok d -> parse_date (endDate request) = Ok d' -> d <= d' < LAST_DATE ->
  d' - d + 1 <= MAX_MAXIMUM_RENTAL_DAYS -> Z.abs (now w + QUOTE_VALIDITY_MINUTES * 60000) <= MAX_INSTANT ->
  lawful (qdb w) -> valid_listing cur l ->
  let asked := price_period references calm l renter request (mkPeriod (start_of d) (start_of (d' + 1))) w in
  exists pr pct, priceRental (d' - d + 1) (weekday d) (l_rates l) (l_currentFeePolicy l) = Ok (Some pr) /\
    well_priced cur (l_currentFeePolicy l) (d' - d + 1) pr pct /\
    if amount (total pr) <? amount (minimumBookingTotal (l_currentFeePolicy l))
    then asked = (w, Err (QuoteRefusedError (describeBelowMinimumBooking
              (total pr, minimumBookingTotal (l_currentFeePolicy l)))))
    else exists wire row, let w' := mkWorld (mkDb (quotes (qdb w) ++ [row]) (S (qseq (qdb w)))) (bdb w) (rest w) in
      asked = (w', Ok (Some wire)) /\ find (rq_id wire) renter w' = (w', Ok (Some wire)) /\
      rq_startDate wire = startDate request /\ rq_endDate wire = endDate request /\
      rq_days wire = d' - d + 1 /\ rq_total wire = total pr /\ rq_lineItems wire = lineItems pr /\
      qr_expiresAt row = now w + QUOTE_VALIDITY_MINUTES * 60000.
Proof.
  intros Hs He [Hle Hlast] Hcap Hnow Hlaw Hl. cbn zeta.
  assert (1 <= d' - d + 1 <= MAX_MAXIMUM_RENTAL_DAYS) as Hn by lia.
  destruct (priceRental_ok cur (l_rates l) (l_currentFeePolicy l) (weekday d) (d' - d + 1)) as (pr & pct & Hpr & Hwp);
    [apply Hl|apply Hl|unfold MAX_DAYS, MAX_MAXIMUM_RENTAL_DAYS in *; lia|].
  exists pr, pct. split; [done|]. split; [done|].
  destruct (priced_quote_run cur l renter request (mkPeriod (start_of d) (start_of (d' + 1))) _ (weekday d) pct pr w Hl Hn Hwp Hnow)
    as (excess & _ & Hq).
  assert (forall q w1, priced_quote l renter request (mkPeriod (start_of d) (start_of (d' + 1))) pr w = (w1, Ok q) ->
    storable_quote q) as Hst.
  { intros q w1 Hqw. replace (d' + 1) with (d + (d' - d + 1)) in Hqw by lia. by eapply priced_storable. }
  assert (weekdayOf (startDate request) = Ok (weekday d)) as Hwd by (unfold weekdayOf; by rewrite Hs).
  unfold price_period. cbn [p_startAt p_endAt]. rewrite period_days by done. run_binds. rewrite Hwd. run_binds.
  rewrite Hpr. run_binds. rewrite Hq. destruct (_ <? _); [done|]. specialize (Hst _ _ Hq).
  set (q := mkNewQuote _ _ _ _ _ _ _ _ _ _ _ _ _ _) in *.
  pose proof (wire_run q (uuid (qseq (qdb w))) (now w) _ _ d d' Hs He Hle Hlast eq_refl eq_refl eq_refl) as Hwire.
  eexists _, (row_for (now w) q (qdb w)). cbn zeta.
  assert (create references (now w) q (qdb w) =
    (mkDb (quotes (qdb w) ++ [row_for (now w) q (qdb w)]) (S (qseq (qdb w))),
     Ok (mkQuote (uuid (qseq (qdb w))) q (now w)))) as Hcreate.
  { unfold create, insert_quote. unfold_M. by rewrite (row_stored _ _ _ Hst), Hrefs, (row_reads _ _ _ Hst). }
  split_and!; [|unfold find| | | | | |].
  - unfold await. run_binds. unfold on_quotes. cbn [Datatypes.id]. rewrite Hcreate. run_binds. by rewrite Hwire.
  - run_binds. unfold on_quotes. cbn [qdb rq_id].
    change renter with (q_renterId q). rewrite (asked_found (now w) q (qdb w) Hlaw Hst). run_binds. by rewrite Hwire.
  - done.
  - done.
  - done.
  - done.
  - done.
  - done.
Qed.

(** C26. Asking for a price, where nothing else happens meanwhile, answers on every branch:
    nothing for an unknown listing; one's own listing is refused first; dates that are none
    or lie the wrong way round, an overlong hire, a past start, taken dates, a listing
    without a price and too small a total are each refused with the sentence that fits, and
    nothing written; and otherwise a quote of exactly the dates asked for is stored, at the
    cheapest lawful price, which its renter reads back unchanged. The end date and the
    expiry are within the calendar, and a listing that has a daily rate is priced within the
    contract's bounds. *)
Theorem quote_outcomes (cur : CurrencyCode) (i renter : string) (request : QuoteRequest) (w : World W) :
  (forall d', parse_date (endDate request) = Ok d' -> d' < LAST_DATE) ->
  is_date (day_of (now w)) -> Z.abs (now w + QUOTE_VALIDITY_MINUTES * 60000) <= MAX_INSTANT ->
  lawful (qdb w) -> (forall l, findQuotable i (rest w) = Some l -> daily (l_rates l) = None \/ valid_listing cur l) ->
  match findQuotable i (rest w), parse_date (startDate request), parse_date (endDate request) with
  | None, _, _ => asked i renter request w = (w, Ok None)
  | Some l, Ok d, Ok d' =>
      match refusal_of l renter d d' (day_of (now w))
              (reasonUnavailable (l_id l) (start_of d) (start_of (d' + 1)) (bdb w)) with
      | Some why => asked i renter request w = (w, Err (QuoteRefusedError why))
      | None => exists pr pct,
          priceRental (d' - d + 1) (weekday d) (l_rates l) (l_currentFeePolicy l) = Ok (Some pr) /\
          well_priced cur (l_currentFeePolicy l) (d' - d + 1) pr pct /\
          if amount (total pr) <? amount (minimumBookingTotal (l_currentFeePolicy l))
          then asked i renter request w = (w, Err (QuoteRefusedError (describeBelowMinimumBooking
              (total pr, minimumBookingTotal (l_currentFeePolicy l)))))
          else exists wire row,
            let w' := mkWorld (mkDb (quotes (qdb w) ++ [row]) (S (qseq (qdb w)))) (bdb w) (rest w) in
            asked i renter request w = (w', Ok (Some wire)) /\
            find (rq_id wire) renter w' = (w', Ok (Some wire)) /\
            rq_startDate wire = startDate request /\ rq_endDate wire = endDate request /\
            rq_days wire = d' - d + 1 /\ rq_total wire = total pr /\ rq_lineItems wire = lineItems pr /\
            qr_expiresAt row = now w + QUOTE_VALIDITY_MINUTES * 60000
      end
  | Some l, Err e, _ | Some l, Ok _, Err e =>
      asked i renter request w = (w, Err (if bool_decide (l_ownerId l = renter) then QuoteRefusedError OWN_LISTING else e))
  end.
Proof.
  intros Hlast Htoday Hnow Hlaw Hlist. destruct (findQuotable i (rest w)) as [l|] eqn:Hl.
  2:{ unfold quote, await. run_binds. cbn [Datatypes.id]. by rewrite Hl. }
  destruct (parse_date (startDate request)) as [d|e] eqn:Hs; [destruct (parse_date (endDate request)) as [d'|e] eqn:He|].
  - specialize (Hlast d' eq_refl). pose proof (asked_dated i renter request l d d' w Hs He Hlast Htoday Hl) as Hrun.
    destruct (refusal_of _ _ _ _ _ _) as [why|] eqn:Href; [done|]. apply refusal_of_None in Href as (Hle & Hcap & Hday).
    rewrite Hrun. apply price_period_run; try done. by destruct (Hlist l eq_refl).
  - unfold quote, await. run_binds. cbn [Datatypes.id]. rewrite Hl. destruct (bool_decide _); [done|]. run_binds.
    unfold periodFromLocalDates, startOfLocalDay, addLocalDays. rewrite platform_valid. cbn [negb]. rewrite Hs, He. unfold_result. done.
  - unfold quote, await. run_binds. cbn [Datatypes.id]. rewrite Hl. destruct (bool_decide _); [done|]. run_binds.
    unfold periodFromLocalDates, startOfLocalDay. rewrite platform_valid. cbn [negb]. rewrite Hs. unfold_result. done.
Qed.
End Outcomes.

(** ** Erasing *)
Section Erasure.
Context {Ids : UuidSource} {L : Luxon} {W : Type}.

Lemma exportable_reads (titleOf : string -> string) (r : QuoteRow) :
  lawful_row r -> exists x, toExportable titleOf r = Ok x /\ xq_id x = qr_id r.
Proof.
  intros [_ _ _ Hr _]. unfold toExportable, toRecord in *. revert Hr. unfold_result.
  destruct (money (qr_itemChargeAmount r) _); [|done]. destruct (money (qr_renterFeeAmount r) _); [|done].
  destruct (money (qr_totalAmount r) _); [|done]. intros _. by eexists.
Qed.

Lemma exports_read (titleOf : string -> string) (rows : list QuoteRow) :
  Forall lawful_row rows -> exists xs, try_map (toExportable titleOf) rows = Ok xs /\ xq_id <$> xs = qr_id <$> rows.
Proof.
  induction 1 as [|r rows Hr _ (xs & Hxs & Hids)]; [by exists []|].
  destruct (exportable_reads titleOf r Hr) as (x & Hx & Hid). exists (x :: xs). cbn. rewrite Hx. unfold_result.
  rewrite Hxs. split; [done|]. cbn. by rewrite Hid, Hids.
Qed.

#[local] Instance newest_total : Total newest.
Proof.
  intros r r'. unfold newest. apply sorts_before_total.
Qed.

(** Erasing a renter's quotes removes exactly the ones no booking was made from, the same
    the data export lists, and a second erasure finds none. *)
Theorem erasure_mirrors_export (titleOf : string -> string) (renter : string) (w : World W) :
  lawful (qdb w) -> let gone := List.filter (unbooked (has_booking w) renter) (quotes (qdb w)) in
  exists w', eraseFor renter w = (w', Ok (length gone)) /\
    (forall r, r ∈ quotes (qdb w') <->
       r ∈ quotes (qdb w) /\ ~ (qr_renterId r = renter /\ has_booking w (qr_id r) = false)) /\
    eraseFor renter w' = (w', Ok 0%nat) /\
    (forall limit, (length gone <= limit)%nat -> exists xs,
       snd (listUnbookedForRenter titleOf (has_booking w) renter limit (qdb w)) = Ok xs /\
       xq_id <$> xs ≡ₚ qr_id <$> gone).
Proof.
  intros Hlaw gone. set (keep := List.filter (fun r => negb (unbooked (has_booking w) renter r)) (quotes (qdb w))).
  exists (mkWorld (mkDb keep (qseq (qdb w))) (bdb w) (rest w)). split_and!.
  - done.
  - intros r. cbn [qdb quotes]. unfold keep. rewrite elem_of_bfilter. unfold unbooked, of_renter. f_equiv.
    destruct (has_booking w (qr_id r)); case_bool_decide; cbn; naive_solver.
  - unfold eraseFor, on_quotes, deleteUnbookedForRenter. cbn [qdb quotes qseq bdb rest].
    change (has_booking (mkWorld _ (bdb w) (rest w))) with (has_booking w).
    assert (List.filter (unbooked (has_booking w) renter) keep = []) as ->.
    { apply filter_none. intros r [_ Hr]%elem_of_bfilter. by apply negb_true_iff. }
    assert (List.filter (fun r => negb (unbooked (has_booking w) renter r)) keep = keep) as ->; [|done].
    unfold keep. induction (quotes (qdb w)) as [|r l IH]; cbn; [done|].
    destruct (negb (unbooked _ _ r)) eqn:Hr; cbn; [by rewrite Hr, IH|done].
  - intros limit Hlimit. unfold listUnbookedForRenter. cbn [snd]. fold gone.
    assert (merge_sort newest gone ≡ₚ gone) as Hp by apply merge_sort_Permutation.
    rewrite take_ge by (by rewrite Hp). destruct (exports_read titleOf (merge_sort newest gone)) as (xs & Hxs & Hids).
    { rewrite Hp. apply Forall_forall. intros r [Hin _]%elem_of_bfilter.
      pose proof (law_rows _ Hlaw) as H. rewrite Forall_forall in H. by apply H. }
    exists xs. split; [done|]. by rewrite Hids, Hp.
Qed.
End Erasure.

(** ** An owner's calendar *)
Section Calendar.
Context {Ids : UuidSource} {L : Luxon}.
Variable ownerOf : string -> option string.
Import Availability.
Import BookingDb (bclock, blocks, bookings, events, bseq, mkBlock).

(** Blocking dates answers on every branch: nothing for a listing that is not one's own, a
    refusal, writing nothing, for a period that is over, more than two years away or longer
    than 366 days, and otherwise exactly one block of those dates, after which every hire
    that touches them is refused. *)
Theorem block_outcomes (listing ownerId : string) (request : AvailabilityBlockRequest) (d d' : Z)
    (db : BookingDb.Db) :
  parse_date (ab_startDate request) = Ok d -> parse_date (ab_endDate request) = Ok d' -> d <= d' < LAST_DATE ->
  is_date (day_of (bclock db)) -> is_date (day_of (bclock db) + MAX_BLOCK_HORIZON_DAYS) ->
  Z.abs (start_of (d' + 1) - 1) <= MAX_INSTANT ->
  let today := day_of (bclock db) in
  let b := mkBlock (uuid (bseq db)) listing (start_of d) (start_of (d' + 1)) (ab_reason request) in
  let db' := BookingDb.mkDb (bookings db) (events db) (blocks db ++ [b]) (S (bseq db)) (bclock db) in
  block ownerOf Datatypes.id listing ownerId request db =
    (if negb (isOwnedBy ownerOf listing ownerId) then (db, Ok None)
     else if d' <? today then (db, Err (BlockRefusedError FINISHED))
     else if today + MAX_BLOCK_HORIZON_DAYS <? d then (db, Err (BlockRefusedError TOO_FAR))
     else if MAX_BLOCK_DAYS <? d' - d + 1 then (db, Err (BlockRefusedError TOO_LONG))
     else (db', Ok (Some (mkWireBlock (uuid (bseq db)) (ab_startDate request) (ab_endDate request)
                            (ab_reason request))))) /\
  (forall a a', d <= a' -> a <= d' -> reasonUnavailable listing (start_of a) (start_of (a' + 1)) db' =
     Some BookingDb.blocked).
Proof.
  intros Hs He [Hle Hlast] Htoday Hhorizon Hmax. cbn zeta.
  pose proof (parse_date_sound _ _ Hs) as [Hd Hds]. pose proof (parse_date_sound _ _ He) as [Hd' Hde]. split.
  - unfold block. run_binds. cbn [Datatypes.id]. destruct (negb _); [done|]. run_binds.
    rewrite (period_run _ _ d d' Hs He Hlast). run_binds. cbn [p_startAt p_endAt].
    unfold refuseUnacceptablePeriod. run_binds. rewrite toLocalDateString_run. run_binds.
    rewrite <- Hds, <- Hde, toISODate_ltb by done. destruct (d' <? _); [done|].
    assert (addLocalDays (toISODate (day_of (bclock db))) MAX_BLOCK_HORIZON_DAYS =
      Ok (toISODate (day_of (bclock db) + MAX_BLOCK_HORIZON_DAYS))) as Hadd
      by (unfold addLocalDays; by rewrite parse_date_print).
    rewrite Hadd. run_binds. rewrite toISODate_ltb by done. destruct (_ <? d); [done|]. run_binds.
    rewrite rentalDayCount_run by (apply start_of_le; lia). rewrite !day_of_start.
    replace (Z.max 1 (d' + 1 - d)) with (d' - d + 1) by lia. run_binds. destruct (_ <? d' - d + 1); [done|].
    run_binds. cbn [Datatypes.id]. unfold BookingDb.block.
    assert (start_of d < start_of (d' + 1)) as Hlt by (apply (proj1 (start_of_lt d (d' + 1))); lia).
    destruct (Z.leb_spec (start_of (d' + 1)) (start_of d)); [lia|]. unfold toWireBlock, fromEpochMs.
    cbn [BookingDb.block_startAt BookingDb.block_endAt BookingDb.block_id BookingDb.block_reason].
    rewrite (proj2 (Z.leb_le _ _) Hmax), toLocalDateString_run, day_of_start. unfold_result.
    by rewrite toLocalDateString_run, day_of_last.
  - intros a a' H1 H2. unfold reasonUnavailable. cbn [blocks].
    assert (existsb (fun b => bool_decide (BookingDb.block_listingId b = listing) &&
      BookingDb.overlaps (start_of a) (start_of (a' + 1)) (BookingDb.block_startAt b) (BookingDb.block_endAt b))
      (blocks db ++ [mkBlock (uuid (bseq db)) listing (start_of d) (start_of (d' + 1)) (ab_reason request)]) = true)
      as ->; [|done].
    apply existsb_exists. eexists. split; [apply List.in_or_app; right; by left|]. cbn.
    rewrite bool_decide_eq_true_2 by done. unfold BookingDb.overlaps. cbn.
    pose proof (proj1 (start_of_lt d (a' + 1)) ltac:(lia)). pose proof (proj1 (start_of_lt a (d' + 1)) ltac:(lia)). lia.
Qed.
End Calendar.
