(* ===== verification/Calendar.v ===== *)
(** * A concrete luxon: the Gregorian calendar and British clocks

    [Luxon] has an instance: dates by the rule of leap years, printed in ten
    characters, and a zone that is an hour ahead from the last Sunday of March to
    the last Sunday of October.  Years are counted from March here, so that the leap
    day is the last of its year. *)

From Stdlib Require Import Ascii.
From Stdlib Require String.
From S2P Require Import Prelude Text Ledger LocalTime.

#[local] Open Scope string_scope.
#[local] Open Scope list_scope.
#[local] Open Scope Z_scope.

(** ** Dates *)
(** Arithmetic with division by constants. *)
Ltac dlia := Z.to_euclidean_division_equations; lia.

Module Civil.
(** Days before the first of March of year [y], from the first of March of year 0. *)
Definition before (y : Z) : Z := 365 * y + y / 4 - y / 100 + y / 400.
Definition EPOCH : Z := 719468.

Definition year_of (z : Z) : Z :=
  let y := 400 * z / 146097 in if before (y + 1) <=? z then y + 1 else y.

(** Months from March, and the day of the month. *)
Definition month_index (doy : Z) : Z := (5 * doy + 2) / 153.
Definition month_start (mp : Z) : Z := (153 * mp + 2) / 5.

Record date : Type := mkDate { y_ : Z; m_ : Z; d_ : Z }.

Definition civil (n : Z) : date :=
  let z := n + EPOCH in
  let y := year_of z in
  let doy := z - before y in
  let mp := month_index doy in
  let d := doy - month_start mp + 1 in
  if mp <? 10 then mkDate y (mp + 3) d else mkDate (y + 1) (mp - 9) d.

Definition days_of (x : date) : Z :=
  let y := if m_ x <=? 2 then y_ x - 1 else y_ x in
  before y + month_start ((m_ x + 9) mod 12) + d_ x - 1 - EPOCH.

Lemma year_of_spec (z : Z) : before (year_of z) <= z < before (year_of z + 1).
Proof.
  unfold year_of. cbv zeta. set (y := 400 * z / 146097).
  assert (146097 * y <= 400 * z < 146097 * (y + 1)) as Hy by (unfold y; dlia).
  clearbody y. destruct (Z.leb_spec (before (y + 1)) z) as [H|H]; unfold before in *; dlia.
Qed.

Lemma before_step (y : Z) : 365 <= before (y + 1) - before y <= 366.
Proof. unfold before. dlia. Qed.

Lemma day_of_year (n : Z) : 0 <= n + EPOCH - before (year_of (n + EPOCH)) <= 365.
Proof.
  pose proof (year_of_spec (n + EPOCH)). pose proof (before_step (year_of (n + EPOCH))). dlia.
Qed.

Lemma month_index_range (doy : Z) : 0 <= doy <= 365 ->
  0 <= month_index doy <= 11 /\ 1 <= doy - month_start (month_index doy) + 1 <= 31.
Proof. unfold month_index, month_start. dlia. Qed.

Lemma days_of_civil (n : Z) : days_of (civil n) = n.
Proof.
  pose proof (day_of_year n) as Hd. unfold civil. cbv zeta. set (y := year_of _) in *.
  set (doy := n + EPOCH - before y) in *. destruct (month_index_range doy Hd) as [Hm _].
  set (mp := month_index doy) in *. unfold days_of. destruct (Z.ltb_spec mp 10); cbn [y_ m_ d_].
  - destruct (Z.leb_spec (mp + 3) 2); [dlia|].
    replace ((mp + 3 + 9) mod 12) with mp by dlia. unfold doy. dlia.
  - destruct (Z.leb_spec (mp - 9) 2); [|dlia].
    replace ((mp - 9 + 9) mod 12) with mp by dlia. replace (y + 1 - 1) with y by dlia. unfold doy. dlia.
Qed.

(** ** Order *)
Definition key (x : date) : Z := y_ x * 10000 + m_ x * 100 + d_ x.

Lemma civil_fields (n : Z) : 1 <= m_ (civil n) <= 12 /\ 1 <= d_ (civil n) <= 31.
Proof.
  pose proof (day_of_year n) as Hd. unfold civil. cbv zeta. set (doy := n + EPOCH - _) in *.
  pose proof (month_index_range doy Hd). destruct (Z.ltb_spec (month_index doy) 10); cbn [m_ d_]; dlia.
Qed.

(** The key of a day of a year counted from March. *)
Definition key_at (y doy : Z) : Z :=
  (if month_index doy <? 10 then y * 10000 + (month_index doy + 3) * 100
   else (y + 1) * 10000 + (month_index doy - 9) * 100) + (doy - month_start (month_index doy) + 1).

Lemma key_civil (n : Z) :
  key (civil n) = key_at (year_of (n + EPOCH)) (n + EPOCH - before (year_of (n + EPOCH))).
Proof. unfold civil, key_at, key. cbv zeta. destruct (_ <? 10); cbn [y_ m_ d_]; dlia. Qed.

Lemma key_at_step (y doy : Z) : 0 <= doy < 365 -> key_at y doy < key_at y (doy + 1).
Proof.
  intros H. unfold key_at, month_start, month_index.
  destruct (Z.ltb_spec ((5 * doy + 2) / 153) 10), (Z.ltb_spec ((5 * (doy + 1) + 2) / 153) 10); dlia.
Qed.

Lemma key_step (n : Z) : key (civil n) < key (civil (n + 1)).
Proof.
  rewrite !key_civil. pose proof (year_of_spec (n + EPOCH)) as H. pose proof (year_of_spec (n + 1 + EPOCH)) as H'.
  set (y := year_of (n + EPOCH)) in *. set (y' := year_of (n + 1 + EPOCH)) in *. clearbody y y'.
  pose proof (before_step y) as Hy.
  assert (y' = y \/ (y' = y + 1 /\ n + 1 + EPOCH = before (y + 1))) as [->|[-> Hn]].
  { assert (forall a b, a + 1 <= b -> before (a + 1) <= before b) as Hmono.
    { intros a b Hab. destruct (Z.eq_dec (a + 1) b) as [->|]; [lia|]. unfold before. dlia. }
    destruct (Z.lt_trichotomy y' y) as [Hlt|[->|Hgt]]; [|by left|].
    - specialize (Hmono y' y ltac:(dlia)). dlia.
    - right. assert (y' = y + 1) as ->; [|split; [done|dlia]].
      destruct (Z.eq_dec y' (y + 1)); [done|]. specialize (Hmono (y + 1) y' ltac:(dlia)).
      pose proof (before_step (y + 1)). dlia. }
  - replace (n + 1 + EPOCH - before y) with (n + EPOCH - before y + 1) by dlia. apply key_at_step. dlia.
  - rewrite <- Hn. replace (n + 1 + EPOCH - (n + 1 + EPOCH)) with 0 by dlia.
    assert (364 <= n + EPOCH - before y <= 365) as Hdoy by dlia. set (doy := n + EPOCH - before y) in *. clearbody doy.
    unfold key_at, month_start, month_index. destruct (Z.ltb_spec ((5 * doy + 2) / 153) 10); [dlia|].
    destruct (Z.ltb_spec ((5 * 0 + 2) / 153) 10); dlia.
Qed.

Lemma key_lt (n n' : Z) : n < n' -> key (civil n) < key (civil n').
Proof.
  intros H. replace n' with (n + 1 + Z.of_nat (Z.to_nat (n' - n - 1))) by dlia. generalize (Z.to_nat (n' - n - 1)).
  intros k. induction k as [|k IH]; [rewrite Z.add_0_r; apply key_step|].
  pose proof (key_step (n + 1 + Z.of_nat k)) as Hs. rewrite Nat2Z.inj_succ.
  replace (n + 1 + Z.succ (Z.of_nat k)) with (n + 1 + Z.of_nat k + 1) by dlia. dlia.
Qed.

Lemma key_ltb (n n' : Z) : (key (civil n) <? key (civil n')) = (n <? n').
Proof.
  destruct (Z.lt_trichotomy n n') as [H|[->|H]]; [|dlia|].
  - pose proof (key_lt _ _ H). dlia.
  - pose proof (key_lt _ _ H). dlia.
Qed.

Lemma civil_year (n : Z) : is_date n -> 0 <= y_ (civil n) <= 9999.
Proof.
  intros [H1 H2]. pose proof (civil_fields n) as [Hm Hd].
  assert (key (civil FIRST_DATE) = 101) as Hf by reflexivity.
  assert (key (civil LAST_DATE) = 99991231) as Hl by reflexivity.
  assert (key (civil FIRST_DATE) <= key (civil n)).
  { destruct (Z.eq_dec FIRST_DATE n) as [->|]; [dlia|]. pose proof (key_lt FIRST_DATE n). dlia. }
  assert (key (civil n) <= key (civil LAST_DATE)).
  { destruct (Z.eq_dec n LAST_DATE) as [->|]; [dlia|]. pose proof (key_lt n LAST_DATE). dlia. }
  unfold key in *. dlia.
Qed.
End Civil.

(** ** Text *)
Definition lex (a b : text) : comparison := String.compare (str a) (str b).

Lemma lex_cons (x y : ascii) (a b : text) :
  lex (x :: a) (y :: b) = match (code x ?= code y)%Z with Eq => lex a b | c => c end.
Proof.
  unfold lex, str. cbn [String.string_of_list_ascii String.compare]. unfold Ascii.compare, code.
  by rewrite N2Z.inj_compare.
Qed.

(** Digits of one length compare as the numbers they print. *)
Lemma lex_digits (a b x y : text) :
  all_digits a -> all_digits b -> length a = length b ->
  lex (a ++ x) (b ++ y) = match (number_of a ?= number_of b)%Z with Eq => lex x y | c => c end.
Proof.
  revert b. induction a as [|c a IH]; intros [|c' b] Ha Hb Hl; [done..|].
  unfold all_digits in Ha, Hb. apply Forall_cons in Ha as [Hc Ha], Hb as [Hc' Hb]. cbn [app length] in *.
  rewrite lex_cons, IH by (done || lia).
  change (c :: a) with ([c] ++ a). change (c' :: b) with ([c'] ++ b). rewrite !number_of_app.
  assert (forall k : text, all_digits k -> 0 <= number_of k < 10 ^ Z.of_nat (length k)) as Hbound.
  { clear. intros k. induction k as [|c k IH] using rev_ind; [by cbn|].
    unfold all_digits. rewrite Forall_app, Forall_singleton. intros [Hk Hc]. specialize (IH Hk).
    pose proof (is_digit_value c Hc). rewrite number_of_snoc, length_app. cbn [length].
    rewrite Nat2Z.inj_add, Z.pow_add_r by lia. lia. }
  pose proof (Hbound a Ha) as Hba. pose proof (Hbound b Hb) as Hbb. injection Hl as Hl. rewrite <- Hl in *.
  set (p := 10 ^ Z.of_nat (length a)) in *.
  assert (forall c, number_of [c] = digit_value c) as Hone by (intros; unfold number_of; cbn; lia).
  rewrite !Hone. pose proof (is_digit_value c Hc). pose proof (is_digit_value c' Hc'). unfold digit_value in *.
  destruct (Z.compare_spec (code c) (code c')) as [He|Hlt|Hgt].
  - rewrite He. rewrite Z.add_compare_mono_l. done.
  - symmetry. rewrite (proj2 (Z.compare_lt_iff _ _)); [done|nia].
  - symmetry. rewrite (proj2 (Z.compare_gt_iff _ _)); [done|nia].
Qed.

(** [n] in [w] digits *)
Definition padded (w : nat) (n : Z) : text := pad_start w (digits_of n).

Lemma padded_spec (w : nat) (n : Z) : (0 < w)%nat -> 0 <= n < 10 ^ Z.of_nat w ->
  all_digits (padded w n) /\ number_of (padded w n) = n /\ length (padded w n) = w.
Proof.
  intros Hw Hn. destruct (digits_of_spec n) as [Hd Hv]; [lia|].
  destruct (pad_start_spec w _ Hd) as (H1 & H2 & H3). pose proof (digits_of_small n w Hn Hw).
  unfold padded. split_and!; [done|by rewrite H2|lia].
Qed.

Definition print_date (x : Civil.date) : text :=
  padded 4 (Civil.y_ x) ++ "-"%char :: padded 2 (Civil.m_ x) ++ "-"%char :: padded 2 (Civil.d_ x).

Definition read_date (l : text) : Civil.date :=
  Civil.mkDate (number_of (take 4 l)) (number_of (take 2 (drop 5 l))) (number_of (drop 8 l)).

Definition well_formed (x : Civil.date) : Prop :=
  0 <= Civil.y_ x <= 9999 /\ 1 <= Civil.m_ x <= 12 /\ 1 <= Civil.d_ x <= 31.

Lemma fields_spec (x : Civil.date) : well_formed x ->
  (all_digits (padded 4 (Civil.y_ x)) /\ number_of (padded 4 (Civil.y_ x)) = Civil.y_ x /\
   length (padded 4 (Civil.y_ x)) = 4%nat) /\
  (all_digits (padded 2 (Civil.m_ x)) /\ number_of (padded 2 (Civil.m_ x)) = Civil.m_ x /\
   length (padded 2 (Civil.m_ x)) = 2%nat) /\
  (all_digits (padded 2 (Civil.d_ x)) /\ number_of (padded 2 (Civil.d_ x)) = Civil.d_ x /\
   length (padded 2 (Civil.d_ x)) = 2%nat).
Proof. intros (Hy & Hm & Hd). split_and!; apply padded_spec; (lia || (cbn; lia)). Qed.

Lemma read_print (x : Civil.date) : well_formed x -> read_date (print_date x) = x.
Proof.
  intros Hx. destruct (fields_spec x Hx) as ((_ & Hyv & Hyl) & (_ & Hmv & Hml) & (_ & Hdv & Hdl)).
  unfold read_date, print_date. destruct x as [y m d]. cbn [Civil.y_ Civil.m_ Civil.d_] in *.
  destruct (padded 4 y) as [|c1 [|c2 [|c3 [|c4 [|]]]]]; try done.
  destruct (padded 2 m) as [|c5 [|c6 [|]]]; try done.
  change (Civil.mkDate (number_of [c1; c2; c3; c4]) (number_of [c5; c6]) (number_of (padded 2 d)) = Civil.mkDate y m d).
  by rewrite Hyv, Hmv, Hdv.
Qed.

Lemma lex_dates (x x' : Civil.date) : well_formed x -> well_formed x' ->
  lex (print_date x) (print_date x') = (Civil.key x ?= Civil.key x')%Z.
Proof.
  intros Hx Hx'. destruct (fields_spec x Hx) as ((Hy & Hyv & Hyl) & (Hm & Hmv & Hml) & (Hd & Hdv & Hdl)).
  destruct (fields_spec x' Hx') as ((Hy' & Hyv' & Hyl') & (Hm' & Hmv' & Hml') & (Hd' & Hdv' & Hdl')).
  destruct Hx as (_ & X1 & X2), Hx' as (_ & X3 & X4).
  unfold print_date. rewrite lex_digits by (done || congruence). rewrite Hyv, Hyv'.
  unfold Civil.key. destruct (Z.compare_spec (Civil.y_ x) (Civil.y_ x')) as [->|H|H].
  - rewrite lex_cons, Z.compare_refl, lex_digits by (done || congruence). rewrite Hmv, Hmv'.
    destruct (Z.compare_spec (Civil.m_ x) (Civil.m_ x')) as [->|H|H].
    + rewrite lex_cons, Z.compare_refl. rewrite <- (app_nil_r (padded 2 (Civil.d_ x))), <- (app_nil_r (padded 2 (Civil.d_ x'))).
      rewrite lex_digits by (done || congruence). rewrite Hdv, Hdv'.
      rewrite Z.add_compare_mono_l. by destruct (_ ?= _).
    + symmetry. apply Z.compare_lt_iff. lia.
    + symmetry. apply Z.compare_gt_iff. lia.
  - symmetry. apply Z.compare_lt_iff. lia.
  - symmetry. apply Z.compare_gt_iff. lia.
Qed.

(** ** British clocks *)
Definition DAY : Z := 86400000.
Definition HOUR : Z := 3600000.

Definition weekday_of (n : Z) : Z := (n + 3) mod 7 + 1.

Definition last_sunday (y m : Z) : Z :=
  let last := Civil.days_of (Civil.mkDate y m 31) in last - weekday_of last mod 7.

(** Whether the day begins in summer time. *)
Definition summer (d : Z) : bool :=
  let y := Civil.y_ (Civil.civil d) in (last_sunday y 3 <? d) && (d <=? last_sunday y 10).

Definition start_in (zone : string) (d : Z) : instant :=
  d * DAY - (if bool_decide (zone = PLATFORM_TIMEZONE) && summer d then HOUR else 0).

Definition day_in (zone : string) (t : instant) : Z :=
  let d := t / DAY in if start_in zone (d + 1) <=? t then d + 1 else d.

Lemma start_in_range (zone : string) (d : Z) : d * DAY - HOUR <= start_in zone d <= d * DAY.
Proof. unfold start_in, HOUR. destruct (_ && _); lia. Qed.

Lemma start_in_step (zone : string) (d : Z) : start_in zone d < start_in zone (d + 1).
Proof. pose proof (start_in_range zone d). pose proof (start_in_range zone (d + 1)). unfold DAY, HOUR in *. lia. Qed.

Lemma start_in_mono (zone : string) (d d' : Z) : d <= d' -> start_in zone d <= start_in zone d'.
Proof.
  intros H. destruct (Z.eq_dec d d') as [->|]; [lia|].
  pose proof (start_in_range zone d). pose proof (start_in_range zone d'). unfold DAY, HOUR in *. lia.
Qed.

Lemma day_in_spec (zone : string) (t : instant) :
  start_in zone (day_in zone t) <= t < start_in zone (day_in zone t + 1).
Proof.
  unfold day_in. cbv zeta. set (d := t / DAY). assert (d * DAY <= t < (d + 1) * DAY) as Hd by (unfold d, DAY; dlia).
  clearbody d. pose proof (start_in_range zone d). pose proof (start_in_range zone (d + 1 + 1)).
  destruct (Z.leb_spec (start_in zone (d + 1)) t); unfold DAY, HOUR in *; lia.
Qed.

Lemma day_in_iff (zone : string) (d : Z) (t : instant) :
  day_in zone t = d <-> start_in zone d <= t < start_in zone (d + 1).
Proof.
  pose proof (day_in_spec zone t) as H. split; [by intros <-|]. intros H'.
  destruct (Z.lt_trichotomy (day_in zone t) d) as [Hlt|[|Hgt]]; [|done|].
  - pose proof (start_in_mono zone (day_in zone t + 1) d). lia.
  - pose proof (start_in_mono zone (d + 1) (day_in zone t)). lia.
Qed.

(** ** The instance *)
Definition print_day (n : Z) : string := str (print_date (Civil.civil n)).

Definition read_day (s : string) : option Z :=
  let n := Civil.days_of (read_date (chars s)) in
  if bool_decide (is_date n) && bool_decide (print_day n = s) then Some n else None.

Definition plus_months (n k : Z) : Z :=
  let x := Civil.civil n in
  let months := Civil.y_ x * 12 + (Civil.m_ x - 1) + k in
  let first := Civil.days_of (Civil.mkDate (months / 12) (months mod 12 + 1) 1) in
  let next := Civil.days_of (Civil.mkDate ((months + 1) / 12) ((months + 1) mod 12 + 1) 1) in
  Z.min (first + (Civil.d_ x - 1)) (next - 1).

Definition print_instant (t : instant) : string :=
  let ms := t mod DAY in
  str (print_date (Civil.civil (t / DAY)) ++ "T"%char :: padded 2 (ms / HOUR) ++ ":"%char ::
       padded 2 (ms / 60000 mod 60) ++ ":"%char :: padded 2 (ms / 1000 mod 60) ++ "."%char ::
       padded 3 (ms mod 1000) ++ ["Z"%char]).

Lemma civil_well_formed (n : Z) : is_date n -> well_formed (Civil.civil n).
Proof. intros H. pose proof (Civil.civil_fields n) as [? ?]. pose proof (Civil.civil_year n H). by split. Qed.

#[global, program] Instance british_luxon : Luxon := {|
  fromFormat := read_day;
  toISODate := print_day;
  weekday := weekday_of;
  plusMonths := plus_months;
  valid_zone := fun z => bool_decide (z = PLATFORM_TIMEZONE) || bool_decide (z = "UTC");
  local_day := day_in;
  startOfDay := start_in;
  toISO := print_instant |}.
Next Obligation.
  intros s d. unfold read_day. cbv zeta. destruct (bool_decide _ && bool_decide _) eqn:H; [|done].
  apply andb_true_iff in H as [H1%bool_decide_eq_true H2%bool_decide_eq_true]. by intros [= <-].
Qed.
Next Obligation.
  intros d Hd. unfold read_day, print_day. rewrite chars_str, read_print by (by apply civil_well_formed).
  rewrite Civil.days_of_civil. by rewrite !bool_decide_eq_true_2.
Qed.
Next Obligation.
  intros d d' Hd Hd'. unfold String.ltb.
  change (String.compare (print_day d) (print_day d')) with (lex (print_date (Civil.civil d)) (print_date (Civil.civil d'))).
  rewrite lex_dates by (by apply civil_well_formed). rewrite <- Civil.key_ltb. unfold Z.ltb.
  by destruct (_ ?= _).
Qed.
Next Obligation. intros d. unfold weekday_of. dlia. Qed.
Next Obligation. intros d. unfold weekday_of. dlia. Qed.
Next Obligation. done. Qed.
Next Obligation. intros d t. apply day_in_iff. Qed.
Next Obligation. intros d. apply start_in_step. Qed.

(** The clocks went forward on 29 March 2026, which was a Sunday of 23 hours. *)
Example spring_forward :
  read_day "2026-03-29" = Some 20541 /\ weekday_of 20541 = 7 /\ print_day (plus_months 20541 1) = "2026-04-29" /\
  Time.isDstTransitionDay (start_in PLATFORM_TIMEZONE 20541) PLATFORM_TIMEZONE = Ok true /\
  Time.isDstTransitionDay (start_in PLATFORM_TIMEZONE 20540) PLATFORM_TIMEZONE = Ok false /\
  print_instant (start_in PLATFORM_TIMEZONE 20542) = "2026-03-29T23:00:00.000Z".
Proof. by vm_compute. Qed.
