(* ===== verification/CoreText.v ===== *)
(** * Numbers and codes as people type them ([packages/core/src/scaled.ts],
    [postcode.ts], [phone.ts])

    Decimals at a fixed scale, UK postcodes in their one spelling, and UK phone
    numbers in E.164.  Each is read from the spellings people use and written in
    one, which reads back. *)

From Stdlib Require Import Ascii.
From Stdlib Require String.
From S2P Require Import Prelude JsNumber Text.

#[local] Open Scope string_scope.
#[local] Open Scope list_scope.
#[local] Open Scope Z_scope.

(** ** [scaled.ts] *)
Module Scaled.
Definition MAX_DECIMAL_PLACES : Z := 9.

Definition assertScale (decimalPlaces : Z) : result () :=
  throw_if ((decimalPlaces <? 0) || (MAX_DECIMAL_PLACES <? decimalPlaces))
    (ScaledError "Decimal places must be a whole number between 0 and 9").

Definition fromDecimalString (value : string) (decimalPlaces : Z) : result Z :=
  _ ← assertScale decimalPlaces;
  match match_decimal (trim_chars (chars value)) with
  | None => Err (ScaledError "Cannot read as a number")
  | Some (sign, whole, fraction) =>
      if decimalPlaces <? Z.of_nat (length fraction)
      then Err (ScaledError (if decimalPlaces =? 0 then "must be a whole number"
                             else "has more than the decimal places"))
      else
        let scaled := number_of (whole ++ pad_end (Z.to_nat decimalPlaces) fraction) in
        if negb (Js.is_safe scaled) then Err (ScaledError "is too large to store at this scale")
        else Ok (if sign then - scaled else scaled)
  end.

Definition toDecimalString (value decimalPlaces : Z) : result string :=
  _ ← assertScale decimalPlaces;
  if negb (Js.is_safe value) then Err (ScaledError "A scaled value must be a whole number")
  else
    let sign := if value <? 0 then [minus_char] else [] in
    let digits := pad_start (Z.to_nat (decimalPlaces + 1)) (digits_of (Z.abs value)) in
    if decimalPlaces =? 0 then Ok (str (sign ++ digits))
    else
      let whole := take (length digits - Z.to_nat decimalPlaces) digits in
      let fraction := drop (length digits - Z.to_nat decimalPlaces) digits in
      Ok (str (sign ++ whole ++ dot_char :: fraction)).

Definition format (value decimalPlaces : Z) (unit : string) : result string :=
  s ← toDecimalString value decimalPlaces; Ok (trim (s +:+ " " +:+ unit)).

(** Every safe value prints as a decimal that reads back as the same value. *)
Theorem scaled_roundtrip (value decimalPlaces : Z) :
  Z.abs value <= Js.MAX_SAFE_INTEGER -> 0 <= decimalPlaces <= MAX_DECIMAL_PLACES ->
  exists s, toDecimalString value decimalPlaces = Ok s /\ fromDecimalString s decimalPlaces = Ok value.
Proof.
  intros Hv Hd. destruct (digits_of_spec (Z.abs value)) as [Hw Hwv]; [lia|].
  destruct (pad_start_spec (Z.to_nat (decimalPlaces + 1)) _ Hw) as (Hp & Hpv & Hpl).
  unfold fromDecimalString, toDecimalString, assertScale, throw_if.
  replace ((decimalPlaces <? 0) || (MAX_DECIMAL_PLACES <? decimalPlaces)) with false
    by (symmetry; apply orb_false_iff; split; apply Z.ltb_ge; lia).
  unfold_result. unfold Js.is_safe at 1. rewrite (proj2 (Z.leb_le _ _) Hv). cbn [negb].
  set (digits := pad_start _ _) in *. set (n := Z.to_nat decimalPlaces).
  assert (number_of digits = Z.abs value) as Hnum by lia.
  assert ((if value <? 0 then - number_of digits else number_of digits) = value) as Hsigned
    by (destruct (Z.ltb_spec value 0); lia).
  assert (Js.is_safe (number_of digits) = true) as Hsafe by (rewrite Hnum; apply Z.leb_le; lia).
  assert (forall l, all_digits l -> l <> [] ->
    trim_chars ((if value <? 0 then [minus_char] else []) ++ l) = (if value <? 0 then [minus_char] else []) ++ l)
    as Htrim by (intros l Hl Hne; apply trim_snoc_digits; [by destruct (value <? 0)|done|done]).
  assert (digits <> []) as Hne by (intros E; rewrite E in Hpl; cbn in Hpl; lia).
  destruct (Z.eqb_spec decimalPlaces 0) as [->|Hpos].
  - eexists. split; [done|]. rewrite chars_str, Htrim by done.
    rewrite (match_decimal_signed (value <? 0) digits digits []) by by apply match_unsigned_whole.
    cbn [length Z.ltb Z.compare pad_end replicate app Nat.sub]. change (0 <? Z.of_nat 0) with false. cbn iota.
    unfold pad_end. cbn. rewrite !app_nil_r, Hsafe. cbn. by rewrite Hsigned.
  - eexists. split; [done|]. rewrite chars_str.
    assert (length digits >= S n)%nat as Hlen by lia.
    set (whole := take (length digits - n) digits). set (fraction := drop (length digits - n) digits).
    assert (whole ++ fraction = digits) as Hcat by apply take_drop.
    assert (length fraction = n) as Hfl by (unfold fraction; rewrite length_drop; lia).
    assert (all_digits whole /\ all_digits fraction) as [Haw Haf]
      by (split; [by apply Forall_take|by apply Forall_drop]).
    assert (whole <> []) as Hwne.
    { intros E. apply (f_equal length) in E. unfold whole in E. rewrite length_take in E. cbn in E. lia. }
    assert (fraction <> []) as Hfne by (intros E; rewrite E in Hfl; cbn in Hfl; unfold n in Hfl; lia).
    replace ((if value <? 0 then [minus_char] else []) ++ whole ++ dot_char :: fraction)
      with (((if value <? 0 then [minus_char] else []) ++ whole ++ [dot_char]) ++ fraction)
      by by rewrite <- !app_assoc.
    rewrite trim_snoc_digits; [|destruct (value <? 0); [done|]|done|done].
    2: { destruct whole as [|c w]; [done|]. cbn. apply is_digit_not_space. by inversion Haw. }
    rewrite <- !app_assoc. cbn [app].
    rewrite (match_decimal_signed (value <? 0) _ whole fraction) by by apply match_unsigned_fraction.
    rewrite Hfl. replace (decimalPlaces <? Z.of_nat n) with false by (symmetry; apply Z.ltb_ge; lia).
    rewrite (pad_end_full fraction n) by done. rewrite Hcat, Hsafe. cbn. by rewrite Hsigned.
Qed.

(** What is read is safe, so it is exact in a binary64. *)
Lemma fromDecimalString_safe (value : string) (decimalPlaces v : Z) :
  fromDecimalString value decimalPlaces = Ok v -> Z.abs v <= Js.MAX_SAFE_INTEGER.
Proof.
  unfold fromDecimalString. destruct (assertScale decimalPlaces); [|done]. unfold_result.
  destruct (match_decimal _) as [[[sign w] f]|]; [|done]. destruct (_ <? _); [done|].
  destruct (Js.is_safe _) eqn:Hs; [|done]. intros [= <-]. unfold Js.is_safe in Hs. apply Z.leb_le in Hs.
  destruct sign; lia.
Qed.
End Scaled.

(** ** [postcode.ts] *)
Module Postcode.
Definition is_upper (c : ascii) : bool := (65 <=? code c) && (code c <=? 90).
Definition between (a b c : ascii) : bool := (code a <=? code c) && (code c <=? code b).

(** [toUpperCase], on the code units below 256 whose capitals are below 256 too:
    the sharp s becomes two letters. *)
Definition upper_char (c : ascii) : text :=
  if between "a" "z" c || ((224 <=? code c) && (code c <=? 254) && negb (code c =? 247))
  then [ascii_of_N (Z.to_N (code c - 32))]
  else if code c =? 223 then ["S"; "S"]%char
  else [c].

Definition strip (raw : string) : text :=
  List.flat_map upper_char (List.filter (fun c => negb (is_space c)) (chars raw)).

Definition INWARD_LENGTH : nat := 3.

(** The second letter of an area, and the two letters of an inward code. *)
Definition area_letter (c : ascii) : bool := between "A" "H" c || between "J" "Y" c.
Definition unit_letter (c : ascii) : bool :=
  between "A" "B" c || between "D" "H" c || between "J" "J" c || between "L" "L" c ||
  between "N" "N" c || between "P" "U" c || between "W" "Z" c.
Definition district_char (c : ascii) : bool := is_digit c || is_upper c.

(** [[A-Z][A-HJ-Y]?[0-9][0-9A-Z]?], then [[0-9][ABD-HJLNP-UW-Z]{2}]. *)
Definition is_outward (l : text) : bool :=
  match l with
  | [a; d] => is_upper a && is_digit d
  | [a; b; d] => is_upper a && ((area_letter b && is_digit d) || (is_digit b && district_char d))
  | [a; b; d; x] => is_upper a && area_letter b && is_digit d && district_char x
  | _ => false
  end.
Definition is_inward (l : text) : bool :=
  match l with [d; x; y] => is_digit d && unit_letter x && unit_letter y | _ => false end.

Definition outward_of (l : text) : text := take (length l - INWARD_LENGTH) l.
Definition inward_of (l : text) : text := drop (length l - INWARD_LENGTH) l.

Definition POSTCODE (l : text) : bool :=
  bool_decide (l = chars "GIR0AA") || (is_outward (outward_of l) && is_inward (inward_of l)).

Definition parse (raw : string) : result string :=
  let stripped := strip raw in
  if bool_decide (stripped = []) then Err (PostcodeError "Postcode is required")
  else if negb (POSTCODE stripped) then Err (PostcodeError "Not a valid UK postcode")
  else Ok (str (outward_of stripped ++ " "%char :: inward_of stripped)).

Definition isValid (raw : string) : bool := POSTCODE (strip raw).

(** The first part of [split(' ')]. *)
Fixpoint before_space (l : text) : text :=
  match l with
  | [] => []
  | c :: l' => if ascii_dec c " " then [] else c :: before_space l'
  end.

Definition outwardCode (raw : string) : result string :=
  p ← parse raw; Ok (str (before_space (chars p))).

(** *** Facts *)
Definition plain (c : ascii) : Prop := is_space c = false /\ upper_char c = [c].

Lemma plain_code (c : ascii) : is_digit c = true \/ is_upper c = true -> plain c.
Proof.
  unfold plain, is_space, upper_char, is_digit, is_upper, between.
  change (code "a"%char) with 97. change (code "z"%char) with 122. intros H.
  assert (48 <= code c <= 57 \/ 65 <= code c <= 90) as Hc by (destruct H as [H|H]; apply andb_true_iff in H; lia).
  split.
  - repeat (apply orb_false_iff; split); try (apply Z.eqb_neq; lia). apply andb_false_iff.
    destruct (Z.leb_spec 9 (code c)); [right; apply Z.leb_gt; lia|by left].
  - rewrite (proj2 (Z.leb_gt 97 (code c))), (proj2 (Z.leb_gt 224 (code c))), (proj2 (Z.eqb_neq (code c) 223)) by lia.
    done.
Qed.

Lemma between_upper (a b c : ascii) :
  between a b c = true -> 65 <= code a -> code b <= 90 -> is_upper c = true.
Proof. unfold between, is_upper. intros H Ha Hb. apply andb_true_iff in H. apply andb_true_iff. lia. Qed.

Lemma area_letter_upper (c : ascii) : area_letter c = true -> is_upper c = true.
Proof.
  unfold area_letter. rewrite orb_true_iff.
  intros [H|H]; eapply between_upper; try exact H; by vm_compute.
Qed.

Lemma unit_letter_upper (c : ascii) : unit_letter c = true -> is_upper c = true.
Proof.
  unfold unit_letter. rewrite !orb_true_iff. intros H. destruct_or! H; eapply between_upper; try exact H; by vm_compute.
Qed.

Lemma district_char_plain (c : ascii) : district_char c = true -> plain c.
Proof. unfold district_char. rewrite orb_true_iff. apply plain_code. Qed.

Lemma is_outward_plain (l : text) : is_outward l = true -> Forall plain l /\ (2 <= length l <= 4)%nat.
Proof.
  intros H. destruct l as [|a [|b [|d [|x [|]]]]]; try done; cbn in H |- *;
    rewrite ?andb_true_iff, ?orb_true_iff, ?andb_true_iff in H; (split; [|lia]); rewrite !Forall_cons, Forall_nil;
    naive_solver auto using plain_code, area_letter_upper, district_char_plain.
Qed.

Lemma is_inward_plain (l : text) : is_inward l = true -> Forall plain l /\ length l = 3%nat.
Proof.
  intros H. destruct l as [|d [|x [|y [|]]]]; try done; cbn in H. rewrite !andb_true_iff in H. destruct_and! H.
  split; [|done]. rewrite !Forall_cons, Forall_nil. naive_solver auto using plain_code, unit_letter_upper.
Qed.

Lemma flat_map_plain (l : text) :
  Forall plain l -> List.flat_map upper_char (List.filter (fun c => negb (is_space c)) l) = l.
Proof. induction 1 as [|c l [Hs Hu] _ IH]; [done|]. cbn. rewrite Hs. cbn. by rewrite Hu, IH. Qed.

Lemma POSTCODE_parts (l : text) :
  POSTCODE l = true -> Forall plain (outward_of l) /\ Forall plain (inward_of l) /\
  (2 <= length (outward_of l) <= 4)%nat /\ length (inward_of l) = 3%nat /\ l <> [].
Proof.
  unfold POSTCODE. rewrite orb_true_iff, andb_true_iff, bool_decide_eq_true. intros [->|[Ho Hi]].
  - assert (Forall plain (chars "GIR0AA")) as Hp.
    { apply (Forall_impl (fun c => is_digit c = true \/ is_upper c = true)); [|apply plain_code].
      repeat constructor; first [left; by vm_compute|right; by vm_compute]. }
    split_and!; [by apply Forall_take|by apply Forall_drop|vm_compute; lia..|done|done].
  - apply is_outward_plain in Ho as [? ?]. apply is_inward_plain in Hi as [? ?]. split_and!; try done; try lia.
    by intros ->.
Qed.

Lemma before_space_plain (l r : text) : Forall plain l -> before_space (l ++ " "%char :: r) = l.
Proof.
  induction 1 as [|c l [Hs _] _ IH]; cbn; [done|].
  destruct (ascii_dec c " "); [subst; by vm_compute in Hs|]. by rewrite IH.
Qed.

Lemma strip_canonical (l : text) :
  POSTCODE l = true -> strip (str (outward_of l ++ " "%char :: inward_of l)) = l.
Proof.
  intros H. apply POSTCODE_parts in H as (Ho & Hi & _). unfold strip. rewrite chars_str.
  rewrite List.filter_app, List.flat_map_app. cbn [List.filter].
  change (negb (is_space " ")) with false. cbn iota. rewrite !flat_map_plain by done. apply take_drop.
Qed.

Lemma parse_spec (raw : string) :
  parse raw = (if isValid raw
               then Ok (str (outward_of (strip raw) ++ " "%char :: inward_of (strip raw)))
               else Err (PostcodeError (if bool_decide (strip raw = [])
                                        then "Postcode is required" else "Not a valid UK postcode"))).
Proof.
  unfold parse, isValid. destruct (POSTCODE (strip raw)) eqn:H; case_bool_decide as Hs; cbn [negb]; try done.
  by destruct (POSTCODE_parts _ H) as (_ & _ & _ & _ & ?).
Qed.

(** A postcode that is accepted is stored in one spelling, which is accepted as itself and
    whose first part is its outward code, of two to four characters; two spellings are
    stored alike exactly when they strip alike. *)
Theorem postcode_canonical (raw p : string) :
  parse raw = Ok p ->
  parse p = Ok p /\ isValid p = true /\
  (exists o, outwardCode raw = Ok o /\ outwardCode p = Ok o /\ (2 <= length (chars o) <= 4)%nat) /\
  (forall raw', parse raw' = Ok p <-> strip raw' = strip raw).
Proof.
  rewrite parse_spec. destruct (isValid raw) eqn:Hv; [|done]. intros [= <-].
  unfold isValid in Hv. pose proof (strip_canonical _ Hv) as Hs.
  pose proof (POSTCODE_parts _ Hv) as (Ho & Hi & Hlo & Hli & Hne). set (l := strip raw) in *.
  assert (parse (str (outward_of l ++ " "%char :: inward_of l)) = Ok (str (outward_of l ++ " "%char :: inward_of l)))
    as Hp by (rewrite parse_spec; unfold isValid; by rewrite Hs, Hv).
  split_and!; [done|by unfold isValid; rewrite Hs| |].
  - exists (str (outward_of l)). unfold outwardCode. rewrite Hp, parse_spec. unfold isValid. fold l. rewrite Hv.
    unfold_result. rewrite !chars_str, before_space_plain by done. done.
  - intros raw'. split.
    + rewrite parse_spec. destruct (isValid raw') eqn:Hv'; [|done]. intros [= H].
      unfold isValid in Hv'. pose proof (strip_canonical _ Hv') as Hs'. congruence.
    + intros H. rewrite parse_spec. unfold isValid. by rewrite H, Hv.
Qed.
End Postcode.

(** ** [phone.ts] *)
Module Phone.
Definition UK_COUNTRY_CODE : text := ["4"; "4"]%char.

Definition leading_digit (c : ascii) : bool := bool_decide (c ∈ ["1"; "2"; "3"; "5"; "7"; "8"; "9"]%char).

(** [/^[1235789][0-9]{8,9}$/] *)
Definition NATIONAL_NUMBER (l : text) : bool :=
  match l with
  | c :: l' => leading_digit c && forallb is_digit l' && ((length l' =? 8)%nat || (length l' =? 9)%nat)
  | [] => false
  end.

Definition decoration (c : ascii) : bool :=
  is_space c || bool_decide (c ∈ ["-"; "."; "("; ")"; "+"]%char).
Definition digitsOnly (raw : string) : text := List.filter (fun c => negb (decoration c)) (chars raw).

Fixpoint starts_with (p l : text) : bool :=
  match p, l with
  | [], _ => true
  | c :: p', d :: l' => bool_decide (c = d) && starts_with p' l'
  | _, [] => false
  end.

Definition toNationalNumber (raw : string) : option text :=
  let digits := digitsOnly raw in
  if negb (forallb is_digit digits) || bool_decide (digits = []) then None
  else if starts_with ("0" :: "0" :: UK_COUNTRY_CODE)%char digits then Some (drop 4 digits)
  else if starts_with ["0"%char] digits then Some (drop 1 digits)
  else if starts_with UK_COUNTRY_CODE digits && (11 <=? length digits)%nat then Some (drop 2 digits)
  else Some digits.

(** The national number, when it is one. *)
Definition national (raw : string) : option text :=
  n ← toNationalNumber raw; if NATIONAL_NUMBER n then Some n else None.

Definition parse (raw : string) : result string :=
  if bool_decide (trim_chars (chars raw) = []) then Err (PhoneError "Phone number is required")
  else match national raw with
       | None => Err (PhoneError "Not a valid UK phone number")
       | Some n => Ok (str ("+"%char :: UK_COUNTRY_CODE ++ n))
       end.

Definition isValid (raw : string) : bool := match national raw with Some _ => true | None => false end.

Definition format (e164 : string) : string :=
  match national e164 with
  | None => e164
  | Some n =>
      let trunk := "0"%char :: n in
      if starts_with ["0"; "7"]%char trunk && (length trunk =? 11)%nat
      then str (take 5 trunk ++ " "%char :: drop 5 trunk)
      else str trunk
  end.

(** *** Facts *)
Lemma digit_plain (c : ascii) : is_digit c = true -> decoration c = false.
Proof.
  intros H. unfold decoration. rewrite is_digit_not_space by done. apply bool_decide_eq_false. intros Hin.
  rewrite !elem_of_cons, elem_of_nil in Hin. destruct_or! Hin; subst; done.
Qed.

Lemma digitsOnly_digits (l : text) : all_digits l -> List.filter (fun c => negb (decoration c)) l = l.
Proof. induction 1 as [|c l Hc _ IH]; [done|]. cbn. rewrite digit_plain by done. cbn. by rewrite IH. Qed.

Lemma leading_digit_digit (c : ascii) :
  leading_digit c = true -> is_digit c = true /\ c <> "0"%char /\ c <> "4"%char.
Proof.
  unfold leading_digit. rewrite bool_decide_eq_true. intros Hin. rewrite !elem_of_cons, elem_of_nil in Hin.
  destruct_or! Hin; subst; done.
Qed.

Lemma NATIONAL_NUMBER_spec (n : text) :
  NATIONAL_NUMBER n = true -> all_digits n /\ (9 <= length n <= 10)%nat /\
  exists c l, n = c :: l /\ c <> "0"%char /\ c <> "4"%char.
Proof.
  destruct n as [|c l]; [done|]. cbn [NATIONAL_NUMBER]. rewrite !andb_true_iff, orb_true_iff, !Nat.eqb_eq.
  intros [[Hc Hl] Hlen]. apply leading_digit_digit in Hc as (? & ? & ?). split_and!; cbn; try lia.
  - constructor; [done|]. apply Forall_forall. intros x Hx. by apply (proj1 (List.forallb_forall _ _) Hl), list_elem_of_In.
  - by exists c, l.
Qed.

Lemma forallb_digits (l : text) : all_digits l -> forallb is_digit l = true.
Proof. induction 1 as [|c l Hc _ IH]; [done|]. cbn. by rewrite Hc. Qed.

(** With the country code, or with the trunk zero, a national number reads as itself. *)
Lemma national_of_code (raw : string) (n : text) :
  NATIONAL_NUMBER n = true -> digitsOnly raw = UK_COUNTRY_CODE ++ n -> national raw = Some n.
Proof.
  intros Hn Hd. destruct (NATIONAL_NUMBER_spec n Hn) as (Ha & Hl & c & l & -> & H0 & H4).
  unfold national, toNationalNumber. rewrite Hd, forallb_digits by (do 2 (apply Forall_cons; split; [done|]); done).
  cbn [negb orb UK_COUNTRY_CODE app starts_with].
  rewrite !(bool_decide_eq_false_2 (_ = [])) by done.
  rewrite !(bool_decide_eq_false_2 ("0"%char = "4"%char)), !(bool_decide_eq_true_2 ("4"%char = "4"%char)) by done.
  cbn [andb]. rewrite (proj2 (Nat.leb_le _ _)) by (cbn [length] in *; lia). cbn [drop].
  change (mbind (M := option) ?f (Some ?x)) with (f x). cbv beta. by rewrite Hn.
Qed.

Lemma national_of_trunk (raw : string) (n : text) :
  NATIONAL_NUMBER n = true -> digitsOnly raw = "0"%char :: n -> national raw = Some n.
Proof.
  intros Hn Hd. destruct (NATIONAL_NUMBER_spec n Hn) as (Ha & Hl & c & l & -> & H0 & H4).
  unfold national, toNationalNumber. rewrite Hd, forallb_digits by (apply Forall_cons; split; done).
  cbn [negb orb UK_COUNTRY_CODE app starts_with].
  rewrite !(bool_decide_eq_false_2 (_ = [])) by done.
  rewrite !(bool_decide_eq_true_2 ("0"%char = "0"%char)), (bool_decide_eq_false_2 ("0"%char = c)) by done.
  cbn [andb drop]. change (mbind (M := option) ?f (Some ?x)) with (f x). cbv beta. by rewrite Hn.
Qed.

(** A number that is accepted is stored as [+44] and nine or ten digits, is accepted
    as itself, and reads back from the form people are shown. *)
Theorem phone_canonical (raw p : string) :
  parse raw = Ok p ->
  parse p = Ok p /\ isValid p = true /\ parse (format p) = Ok p /\
  exists n, national raw = Some n /\ chars p = "+"%char :: UK_COUNTRY_CODE ++ n /\ (9 <= length n <= 10)%nat.
Proof.
  unfold parse at 1. case_bool_decide; [done|]. destruct (national raw) as [n|] eqn:Hr; [|done]. intros Hp.
  assert (p = str ("+"%char :: UK_COUNTRY_CODE ++ n)) as -> by congruence. clear Hp.
  assert (NATIONAL_NUMBER n = true) as Hn.
  { unfold national in Hr. destruct (toNationalNumber raw) as [m|]; [|done].
    change (mbind (M := option) ?f (Some ?x)) with (f x) in Hr. cbv beta in Hr.
    destruct (NATIONAL_NUMBER m) eqn:Hm; [|done]. by injection Hr as <-. }
  destruct (NATIONAL_NUMBER_spec n Hn) as (Ha & Hl & c & l & E & H0 & H4).
  assert (forall raw', national raw' = Some n -> parse raw' = Ok (str ("+"%char :: UK_COUNTRY_CODE ++ n))) as Hparse.
  { intros raw' H'. unfold parse. case_bool_decide as Hs; [|by rewrite H'].
    exfalso. unfold national, toNationalNumber in H'. destruct (digitsOnly raw') as [|d ds] eqn:Hd; [done|].
    assert (d ∈ chars raw' /\ decoration d = false) as [Hin Hdec].
    { assert (d ∈ digitsOnly raw') as Hi by (rewrite Hd; left). apply elem_of_bfilter in Hi as [? ?].
      split; [done|]. by apply negb_true_iff. }
    assert (is_space d = true) as Hsp by (by apply (trim_nil (chars raw'))).
    unfold decoration in Hdec. by rewrite Hsp in Hdec. }
  assert (national (str ("+"%char :: UK_COUNTRY_CODE ++ n)) = Some n) as Hcode.
  { apply national_of_code; [done|]. unfold digitsOnly. rewrite chars_str. cbn [List.filter UK_COUNTRY_CODE app].
    change (decoration "+") with true. change (decoration "4") with false. cbn. by rewrite digitsOnly_digits. }
  split_and!; [by apply Hparse|by unfold isValid; rewrite Hcode| |].
  - apply Hparse. unfold format. rewrite Hcode. apply national_of_trunk; [done|].
    assert (List.filter (fun c => negb (decoration c)) ("0"%char :: n) = "0"%char :: n) as Hz
      by (apply digitsOnly_digits; by constructor).
    unfold digitsOnly. destruct (starts_with _ _ && _); rewrite chars_str; [|done].
    rewrite List.filter_app. cbn [List.filter]. change (negb (decoration " ")) with false. cbn iota.
    by rewrite <- List.filter_app, take_drop.
  - exists n. rewrite chars_str. by split_and!; lia || done.
Qed.
End Phone.
