(* ===== verification/Answers.v ===== *)
(** * What a listing says, and whether it may be published
    ([packages/contracts/src/catalogue.ts], [attribute-values.ts], [transport.ts],
    [publication.ts], [text.ts], and the states of [listings.ts])

    [Module Attributes]: a category's questions, and reading an owner's answers.
    [Module Transport]: how an item is collected.
    [Module Publication]: what stands between a listing and publication. *)

From Stdlib Require Import Ascii.
From Stdlib Require String.
From S2P Require Import Prelude JsNumber Text Json Money Pricing CoreText.

#[local] Open Scope string_scope.
#[local] Open Scope list_scope.
#[local] Open Scope Z_scope.

(** ** [attribute-values.ts] *)
Module Attributes.
Record AttributeOption : Type := mkOption { opt_value : string; opt_label : string }.

Inductive AttributeType : Type :=
  | a_text (maxLength : Z)
  | a_number (unit : string) (decimalPlaces : Z)
  | a_choice (options : list AttributeOption)
  | a_choice_many (options : list AttributeOption).

Record CategoryAttribute : Type := mkAttribute {
  attr_key : string;
  attr_label : string;
  required : bool;
  attr_type : AttributeType }.

Definition MAX_CATEGORY_ATTRIBUTES : Z := 12.

Inductive AttributeValue : Type := v_text (s : string) | v_number (n : Z) | v_list (l : list string).
Abbreviation ListingAttributeValues := (gmap string AttributeValue).

Record AttributeValueIssue : Type := mkIssue { issue_key : option string; issue_message : string }.

(** *** [text.ts] *)

(** The code units below 256 of the categories Cc and Cf. *)
Definition control_or_format (c : ascii) : bool :=
  (code c <? 32) || ((127 <=? code c) && (code c <=? 159)) || (code c =? 173).
Definition line_break (c : ascii) : bool := (code c =? 13) || (code c =? 10) || (code c =? 9).

Definition hasUnsafeCharacters (value : text) (allowLineBreaks : bool) : bool :=
  existsb control_or_format
    (if allowLineBreaks then List.filter (fun c => negb (line_break c)) value else value).

Definition UNSAFE_CHARACTERS_MESSAGE : string := "must not contain control or direction-changing characters".

(** *** Reading an answer *)
Fixpoint join (separator : string) (l : list string) : string :=
  match l with
  | [] => ""
  | [s] => s
  | s :: l' => s +:+ separator +:+ join separator l'
  end.
Definition optionList (options : list AttributeOption) : string := join ", " (opt_label <$> options).
Definition isOption (options : list AttributeOption) (value : string) : bool :=
  existsb (fun o => bool_decide (opt_value o = value)) options.

Definition quoted (s : string) : string := String.String "034" s +:+ String.String "034" "".

Definition BLANK : string :=
  " must not be blank — leave it out rather than sending an empty answer".

Definition error_message (e : error) : string := match e with ScaledError why => why | _ => "" end.

(** The loop over the entries of a ['choice-many'] answer. *)
Fixpoint choose (label : string) (options : list AttributeOption) (entries : list json) (chosen : list string)
  : string + list string :=
  match entries with
  | [] => inr chosen
  | j_string entry :: entries' =>
      if negb (isOption options entry)
      then inl (label +:+ " may only contain " +:+ optionList options)
      else if bool_decide (entry ∈ chosen) then inl (label +:+ " lists the same choice twice")
      else choose label options entries' (chosen ++ [entry])
  | _ => inl (label +:+ " may only contain " +:+ optionList options)
  end.

(** A message, or a value. *)
Definition readValue (attribute : CategoryAttribute) (raw : json) : string + AttributeValue :=
  let label := attr_label attribute in
  match attr_type attribute with
  | a_text maxLength =>
      match raw with
      | j_string s =>
          let trimmed := trim_chars (chars s) in
          if bool_decide (trimmed = []) then inl (label +:+ BLANK)
          else if maxLength <? Z.of_nat (length trimmed)
          then inl (label +:+ " must be at most " +:+ str (print_Z maxLength) +:+ " characters")
          else if hasUnsafeCharacters trimmed false then inl (label +:+ " " +:+ UNSAFE_CHARACTERS_MESSAGE)
          else inr (v_text (str trimmed))
      | _ => inl (label +:+ " must be text")
      end
  | a_number unit decimalPlaces =>
      match raw with
      | j_string s =>
          let typed := trim_chars (chars s) in
          if bool_decide (typed = []) then inl (label +:+ BLANK)
          else match match_decimal typed with
               | None => inl (label +:+ " must be a number in " +:+ unit +:+ ", such as 2.5 — " +:+
                              "digits only, with no unit and no thousands separator")
               | Some _ =>
                   match Scaled.fromDecimalString (str typed) decimalPlaces with
                   | Ok v => inr (v_number v)
                   | Err e => inl (label +:+ " " +:+ error_message e)
                   end
               end
      | _ => inl (label +:+ " must be sent as text, such as " +:+ quoted "2.5" +:+ ", not as a number")
      end
  | a_choice options =>
      match raw with
      | j_string s => if isOption options s then inr (v_text s)
                      else inl (label +:+ " must be one of " +:+ optionList options)
      | _ => inl (label +:+ " must be one of " +:+ optionList options)
      end
  | a_choice_many options =>
      match raw with
      | j_array entries =>
          match choose label options entries [] with
          | inl message => inl message
          | inr [] => inl (label +:+ " must not be an empty list — leave it out if nothing applies")
          | inr chosen =>
              inr (v_list (List.filter (fun v => bool_decide (v ∈ chosen)) (opt_value <$> options)))
          end
      | _ => inl (label +:+ " must be a list of " +:+ optionList options)
      end
  end.

(** *** All the answers *)
Fixpoint own (key : string) (entries : list (string * json)) : option json :=
  match entries with
  | [] => None
  | (k, v) :: entries' => if decide (k = key) then Some v else own key entries'
  end.

Definition is_null (raw : json) : bool := match raw with j_null => true | _ => false end.

Definition unknown_keys (attributes : list CategoryAttribute) (entries : list (string * json))
  : list AttributeValueIssue :=
  (fun key => mkIssue (Some key) (quoted key +:+ " is not a field of this category. It may have been renamed or " +:+
                                  "removed since this form was opened")) <$>
    List.filter (fun key => negb (bool_decide (key ∈ attr_key <$> attributes))) (fst <$> entries).

(** The loop over the attributes, with the issues and the values so far. *)
Fixpoint read_all (attributes : list CategoryAttribute) (entries : list (string * json))
    (issues : list AttributeValueIssue) (values : ListingAttributeValues)
  : list AttributeValueIssue * ListingAttributeValues :=
  match attributes with
  | [] => (issues, values)
  | a :: attributes' =>
      match own (attr_key a) entries with
      | None => read_all attributes' entries issues values
      | Some supplied =>
          if is_null supplied then read_all attributes' entries issues values
          else match readValue a supplied with
               | inl message => read_all attributes' entries (issues ++ [mkIssue (Some (attr_key a)) message]) values
               | inr value => read_all attributes' entries issues (<[attr_key a := value]> values)
               end
      end
  end.

Definition validateAttributeValues (attributes : list CategoryAttribute) (raw : json)
  : list AttributeValueIssue + ListingAttributeValues :=
  match raw with
  | j_object entries =>
      if MAX_CATEGORY_ATTRIBUTES <? Z.of_nat (length entries)
      then inl [mkIssue None "At most 12 attribute values may be supplied"]
      else
        let '(issues, values) := read_all attributes entries (unknown_keys attributes entries) ∅ in
        if bool_decide (issues = []) then inr values else inl issues
  | _ => inl [mkIssue None "The attribute values must be an object of answers"]
  end.
End Attributes.

(** ** [transport.ts] *)
Module Transport.
Inductive TransportRequirement : Type :=
  hand_carryable | car_boot | estate_or_hatchback | van_required | trailer_required.
#[global] Instance TransportRequirement_eq_dec : EqDecision TransportRequirement.
Proof. solve_decision. Defined.

Definition TRANSPORT_REQUIREMENTS : list TransportRequirement :=
  [hand_carryable; car_boot; estate_or_hatchback; van_required; trailer_required].

Record CategoryTransportOption : Type := mkTransportOption {
  requirement : TransportRequirement;
  suggestedUpToKg : option Z }.

Definition offersTransportRequirement (options : list CategoryTransportOption) (r : TransportRequirement) : bool :=
  existsb (fun o => bool_decide (requirement o = r)) options.

Record ItemWeight : Type := mkWeight { scaled : Z; decimalPlaces : Z }.

(** The loop: the heaviest option so far, and whether any had a threshold. *)
Fixpoint suggest (options : list CategoryTransportOption) (weight : ItemWeight)
    (heaviestOffered : option TransportRequirement) (anyThreshold : bool) : option TransportRequirement :=
  match options with
  | [] => if anyThreshold then heaviestOffered else None
  | o :: options' =>
      match suggestedUpToKg o with
      | None => suggest options' weight (Some (requirement o)) anyThreshold
      | Some kg => if scaled weight <=? kg * 10 ^ decimalPlaces weight then Some (requirement o)
                   else suggest options' weight (Some (requirement o)) true
      end
  end.

Definition suggestTransportRequirement (options : list CategoryTransportOption) (weight : option ItemWeight)
  : option TransportRequirement :=
  match weight with
  | None => None
  | Some w => suggest options w None false
  end.
End Transport.

(** ** [publication.ts], and the states of [listings.ts] *)
Module Publication.
Import Attributes Transport Pricing.

Inductive ListingStatus : Type := DRAFT | PUBLISHED | PAUSED.
Inductive ModerationState : Type := APPROVED | UNDER_REVIEW | REJECTED.
Inductive OwnerStatus : Type := private_owner | professional_trader.
Inductive ListingTransition : Type := t_publish | t_pause.

#[global] Instance ListingStatus_eq_dec : EqDecision ListingStatus. Proof. solve_decision. Defined.
#[global] Instance ModerationState_eq_dec : EqDecision ModerationState. Proof. solve_decision. Defined.
#[global] Instance OwnerStatus_eq_dec : EqDecision OwnerStatus. Proof. solve_decision. Defined.

Definition isPubliclyVisible (status : ListingStatus) (moderation : ModerationState) : bool :=
  bool_decide (status = PUBLISHED) && bool_decide (moderation = APPROVED).
Definition moderationRequiresReason (state : ModerationState) : bool := bool_decide (state <> APPROVED).

Definition TRANSITIONS (t : ListingTransition) : list ListingStatus :=
  match t with t_publish => [DRAFT; PUBLISHED; PAUSED] | t_pause => [PUBLISHED; PAUSED] end.
Definition canTransition (t : ListingTransition) (from_ : ListingStatus) : bool := bool_decide (from_ ∈ TRANSITIONS t).
Definition transitionRefusal (t : ListingTransition) (from_ : ListingStatus) : option string :=
  if canTransition t from_ then None
  else match t with
       | t_pause => Some "This listing is not published, so there is nothing to pause."
       | t_publish => Some "This listing cannot be published from its current state."
       end.

Record PublicationCandidate : Type := mkCandidate {
  c_description : string;
  c_attributes : ListingAttributeValues;
  c_categoryAttributes : list CategoryAttribute;
  c_categoryTransportOptions : list CategoryTransportOption;
  c_transportRequirement : option TransportRequirement;
  c_rates : ListingRateCard;
  c_hasCollectionLocation : bool;
  c_isLocated : bool;
  c_ownerStatus : option OwnerStatus }.

Record PublicationBlocker : Type := mkBlocker { field : string; message : string }.

(** The names an object without properties of its own still answers to. *)
Definition OBJECT_PROTOTYPE : list string :=
  ["constructor"; "hasOwnProperty"; "isPrototypeOf"; "propertyIsEnumerable"; "toLocaleString"; "toString";
   "valueOf"; "__defineGetter__"; "__defineSetter__"; "__lookupGetter__"; "__lookupSetter__"; "__proto__"].

Definition answered (values : ListingAttributeValues) (key : string) : bool :=
  match values !! key with
  | Some (v_text s) => negb (bool_decide (s = ""))
  | Some (v_list l) => negb (bool_decide (l = []))
  | Some (v_number _) => true
  | None => bool_decide (key ∈ OBJECT_PROTOTYPE)
  end.

Definition unanswered (attributes : list CategoryAttribute) (values : ListingAttributeValues)
  : list PublicationBlocker :=
  (fun a => mkBlocker ("attributes." +:+ attr_key a)
              (attr_label a +:+ " is needed before this listing can be published.")) <$>
    List.filter (fun a => required a && negb (answered values (attr_key a))) attributes.

Definition when (b : bool) (x : PublicationBlocker) : list PublicationBlocker := if b then [x] else [].

Definition publicationBlockers (l : PublicationCandidate) : list PublicationBlocker :=
  when (bool_decide (trim_chars (chars (c_description l)) = []))
    (mkBlocker "description" "A description is needed before this listing can be published.") ++
  unanswered (c_categoryAttributes l) (c_attributes l) ++
  when (negb (bool_decide (length (c_categoryTransportOptions l) = 0%nat)) &&
        bool_decide (c_transportRequirement l = None))
    (mkBlocker "transportRequirement"
       "How the item is collected is needed before this listing can be published.") ++
  when (match daily (c_rates l) with None => true | Some _ => false end)
    (mkBlocker "rates.daily" "A daily rate is needed before this listing can be published.") ++
  match c_ownerStatus l with
  | None => [mkBlocker "ownerStatus" ("Your profile has to say whether you are listing as a private " +:+
               "individual or as a business before anything can be published. Renters " +:+
               "have different rights depending on which, so they have to be told.")]
  | Some professional_trader =>
      [mkBlocker "ownerStatus" ("Your profile says you list as a business. We only accept listings " +:+
         "from private individuals at the moment, so this cannot be published — " +:+
         "nothing is wrong with the listing itself.")]
  | Some private_owner => []
  end ++
  (if negb (c_hasCollectionLocation l)
   then [mkBlocker "collectionLocation" ("Where the item is collected from is needed before this listing can be " +:+
           "published, because nobody can come and fetch a thing that is nowhere.")]
   else when (negb (c_isLocated l))
          (mkBlocker "collectionLocation" ("We could not place this address on a map, so nobody searching nearby " +:+
             "would find it. Check the postcode and save again."))).

Definition isPublishable (l : PublicationCandidate) : bool :=
  bool_decide (length (publicationBlockers l) = 0%nat).
End Publication.
