(* ===== verification/AnswersProofs.v ===== *)
(** * Answers that fit their questions, and complete listings

    What [validateAttributeValues] accepts, that what it stores fits the schema and
    reads back as itself, and when nothing blocks a publication. *)

From Stdlib Require Import Ascii.
From Stdlib Require String.
From S2P Require Import Prelude JsNumber Text Json Money Pricing CoreText Answers.

#[local] Open Scope string_scope.
#[local] Open Scope list_scope.
#[local] Open Scope Z_scope.

Import Pricing Attributes Transport Publication.

(** ** Schemas as [categoryAttributesSchema] lets them in *)
Definition option_values (options : list AttributeOption) : list string := opt_value <$> options.

Definition lawful_type (t : AttributeType) : Prop :=
  match t with
  | a_text maxLength => 1 <= maxLength
  | a_number _ decimalPlaces => 0 <= decimalPlaces <= Scaled.MAX_DECIMAL_PLACES
  | a_choice options | a_choice_many options => NoDup (option_values options)
  end.

Record lawful_schema (attributes : list CategoryAttribute) : Prop := {
  ls_keys : NoDup (attr_key <$> attributes);
  ls_few : Z.of_nat (length attributes) <= MAX_CATEGORY_ATTRIBUTES;
  ls_types : Forall (fun a => lawful_type (attr_type a)) attributes }.

(** What a stored answer is, by the type of its question. *)
Definition fits (t : AttributeType) (v : AttributeValue) : Prop :=
  match t, v with
  | a_text maxLength, v_text s =>
      s <> "" /\ trim s = s /\ Z.of_nat (length (chars s)) <= maxLength /\ hasUnsafeCharacters (chars s) false = false
  | a_number _ _, v_number n => Z.abs n <= Js.MAX_SAFE_INTEGER
  | a_choice options, v_text s => s ∈ option_values options
  | a_choice_many options, v_list l => l <> [] /\ l `sublist_of` option_values options
  | _, _ => False
  end.

(** The way a stored answer is sent again by the form that shows it. *)
Definition render (t : AttributeType) (v : AttributeValue) : json :=
  match v with
  | v_text s => j_string s
  | v_number n =>
      match t with
      | a_number _ dp => match Scaled.toDecimalString n dp with Ok s => j_string s | Err _ => j_null end
      | _ => j_null
      end
  | v_list l => j_array (j_string <$> l)
  end.

Definition resubmission (attributes : list CategoryAttribute) (values : ListingAttributeValues) : json :=
  j_object (omap (fun a => (fun v => (attr_key a, render (attr_type a) v)) <$> values !! attr_key a) attributes).

(** ** Choices *)
Lemma isOption_spec (options : list AttributeOption) (v : string) :
  isOption options v = true <-> v ∈ option_values options.
Proof.
  unfold isOption, option_values. rewrite List.existsb_exists, list_elem_of_fmap. split.
  - intros (o & Ho & H%bool_decide_eq_true). exists o. by rewrite list_elem_of_In.
  - intros (o & -> & Ho). exists o. rewrite <- list_elem_of_In. by rewrite bool_decide_eq_true_2.
Qed.

Lemma choose_sound (label : string) (options : list AttributeOption) (entries : list json) (chosen r : list string) :
  choose label options entries chosen = inr r ->
  exists picked, entries = j_string <$> picked /\ r = chosen ++ picked /\
    Forall (fun v => v ∈ option_values options) picked.
Proof.
  revert chosen. induction entries as [|e entries IH]; intros chosen; cbn.
  - intros [= <-]. exists []. by rewrite app_nil_r.
  - destruct e; try done. destruct (isOption options s) eqn:Ho; [|done]. cbn [negb]. case_bool_decide; [done|].
    intros (picked & -> & -> & Hp)%IH. exists (s :: picked). split_and!; [done|by rewrite <- app_assoc|].
    constructor; [by apply isOption_spec|done].
Qed.

Lemma choose_complete (label : string) (options : list AttributeOption) (picked chosen : list string) :
  Forall (fun v => v ∈ option_values options) picked -> NoDup (chosen ++ picked) ->
  choose label options (j_string <$> picked) chosen = inr (chosen ++ picked).
Proof.
  intros Hp. revert chosen. induction Hp as [|v picked Hv _ IH]; intros chosen Hnd; cbn.
  - by rewrite app_nil_r.
  - rewrite (proj2 (isOption_spec _ _) Hv). cbn [negb]. rewrite bool_decide_eq_false_2.
    2: { intros Hin. apply NoDup_app in Hnd as (_ & Hd & _). apply (Hd v Hin). left. }
    rewrite IH by (by rewrite <- app_assoc). by rewrite <- app_assoc.
Qed.

Lemma chosen_sublist (p : string -> bool) (l : list string) : List.filter p l `sublist_of` l.
Proof. induction l as [|v l IH]; cbn; [done|]. destruct (p v); by constructor. Qed.

Lemma read_choices (label : string) (options : list AttributeOption) (l : list string) :
  NoDup (option_values options) -> l <> [] -> l `sublist_of` option_values options ->
  choose label options (j_string <$> l) [] = inr l /\
  List.filter (fun v => bool_decide (v ∈ l)) (option_values options) = l.
Proof.
  intros Hnd Hne Hsub. split.
  - apply (choose_complete label options l []).
    + apply Forall_forall. intros v Hv. by eapply elem_of_sublist.
    + by eapply sublist_NoDup.
  - clear Hne. induction Hsub as [|v l l' Hsub IH|v l l' Hsub IH]; [done| |].
    + apply NoDup_cons in Hnd as [Hv Hnd]. cbn. rewrite bool_decide_eq_true_2 by left. f_equal.
      etransitivity; [|by apply IH]. apply List.filter_ext_in. intros w Hw%list_elem_of_In. apply bool_decide_ext.
      rewrite elem_of_cons. split; [|auto]. by intros [->|].
    + apply NoDup_cons in Hnd as [Hv Hnd]. cbn. rewrite bool_decide_eq_false_2; [by apply IH|].
      intros Hin. apply Hv. by eapply elem_of_sublist.
Qed.

(** ** One answer *)
Lemma readValue_fits (a : CategoryAttribute) (raw : json) (v : AttributeValue) :
  readValue a raw = inr v -> fits (attr_type a) v.
Proof.
  unfold readValue. destruct (attr_type a) as [maxLength|unit dp|options|options].
  - destruct raw as [| | |s| |]; try done. case_bool_decide as Hne; [done|].
    destruct (Z.ltb_spec maxLength (Z.of_nat (length (trim_chars (chars s))))) as [|Hlen]; [done|].
    destruct (hasUnsafeCharacters _ _) eqn:Hu; [done|]. intros [= <-]. cbn. unfold trim. rewrite !chars_str, trim_trim.
    split_and!; try done. intros E. apply Hne. by rewrite <- (chars_str (trim_chars _)), E.
  - destruct raw as [| | |s| |]; try done. case_bool_decide; [done|]. destruct (match_decimal _); [|done].
    destruct (Scaled.fromDecimalString _ _) as [n|] eqn:Hn; [|done]. intros [= <-].
    by eapply Scaled.fromDecimalString_safe.
  - destruct raw as [| | |s| |]; try done. destruct (isOption _ _) eqn:Ho; [|done]. intros [= <-]. by apply isOption_spec.
  - destruct raw as [| | | |entries|]; try done. destruct (choose _ _ _ _) as [|chosen] eqn:Hc; [done|].
    apply choose_sound in Hc as (picked & _ & -> & Hp). destruct picked as [|p picked]; [done|]. intros [= <-].
    split; [|apply chosen_sublist]. apply Forall_cons in Hp as [Hp _]. intros E.
    assert (p ∈ ([] : list string)) as Hin; [|by apply elem_of_nil in Hin]. rewrite <- E. apply elem_of_bfilter.
    split; [done|]. apply bool_decide_eq_true_2. left.
Qed.

(** What is stored reads back as itself. *)
Lemma readValue_render (a : CategoryAttribute) (v : AttributeValue) :
  lawful_type (attr_type a) -> fits (attr_type a) v -> readValue a (render (attr_type a) v) = inr v.
Proof.
  unfold readValue. destruct (attr_type a) as [maxLength|unit dp|options|options], v as [s|n|l]; try done; cbn.
  - intros _ (Hne & Ht & Hlen & Hu). assert (trim_chars (chars s) = chars s) as ->.
    { rewrite <- (chars_str (trim_chars _)). fold (trim s). by rewrite Ht. }
    rewrite bool_decide_eq_false_2. 2: { intros E. apply Hne. by rewrite <- (str_chars s), E. }
    rewrite (proj2 (Z.ltb_ge _ _)), Hu, str_chars by done. done.
  - intros Hdp Hn. destruct (Scaled.scaled_roundtrip n dp Hn Hdp) as (s & -> & Hread).
    assert (Scaled.fromDecimalString (str (trim_chars (chars s))) dp = Ok n) as Hread'.
    { unfold Scaled.fromDecimalString in *. by rewrite chars_str, trim_trim. }
    unfold Scaled.fromDecimalString in Hread. destruct (Scaled.assertScale dp); [|done]. revert Hread. unfold_result.
    destruct (trim_chars (chars s)) as [|c t] eqn:Ht; [done|]. rewrite bool_decide_eq_false_2 by done.
    destruct (match_decimal (c :: t)); [|done]. intros _. by rewrite Hread'.
  - intros _ Ho. by rewrite (proj2 (isOption_spec _ _) Ho).
  - intros Hnd [Hne Hsub]. destruct (read_choices (attr_label a) options l Hnd Hne Hsub) as [-> Hf].
    destruct l as [|c l]; [done|]. f_equal. f_equal. exact Hf.
Qed.

(** ** All the answers *)
Definition answer_to (a : CategoryAttribute) (entries : list (string * json)) : option (string + AttributeValue) :=
  match own (attr_key a) entries with
  | None => None
  | Some supplied => if is_null supplied then None else Some (readValue a supplied)
  end.

Definition complaint (entries : list (string * json)) (a : CategoryAttribute) : option AttributeValueIssue :=
  match answer_to a entries with Some (inl why) => Some (mkIssue (Some (attr_key a)) why) | _ => None end.

Lemma read_all_issues (attributes : list CategoryAttribute) (entries : list (string * json))
    (issues : list AttributeValueIssue) (values : ListingAttributeValues) :
  fst (read_all attributes entries issues values) = issues ++ omap (complaint entries) attributes.
Proof.
  revert issues values. induction attributes as [|a l IH]; intros issues values; cbn; [by rewrite app_nil_r|].
  unfold complaint at 1, answer_to. destruct (own (attr_key a) entries) as [supplied|]; [|apply IH].
  destruct (is_null supplied); [apply IH|]. destruct (readValue a supplied); rewrite IH; [by rewrite <- app_assoc|done].
Qed.

Lemma read_all_other (attributes : list CategoryAttribute) (entries : list (string * json))
    (issues : list AttributeValueIssue) (values : ListingAttributeValues) (key : string) :
  key ∉ attr_key <$> attributes -> snd (read_all attributes entries issues values) !! key = values !! key.
Proof.
  revert issues values. induction attributes as [|a l IH]; intros issues values; cbn; [done|].
  rewrite not_elem_of_cons. intros [Hne Hl].
  destruct (own (attr_key a) entries) as [supplied|]; [|by apply IH]. destruct (is_null supplied); [by apply IH|].
  destruct (readValue a supplied); rewrite IH by done; [done|by rewrite lookup_insert_ne].
Qed.

Lemma read_all_values (attributes : list CategoryAttribute) (entries : list (string * json))
    (issues : list AttributeValueIssue) (values : ListingAttributeValues) (a : CategoryAttribute) :
  NoDup (attr_key <$> attributes) -> a ∈ attributes ->
  snd (read_all attributes entries issues values) !! attr_key a =
  match answer_to a entries with Some (inr v) => Some v | _ => values !! attr_key a end.
Proof.
  revert issues values. induction attributes as [|b l IH]; intros issues values; [by intros _ ?%elem_of_nil|].
  cbn [fmap list_fmap]. intros [Hb Hnd]%NoDup_cons [->|Ha]%elem_of_cons.
  - cbn. unfold answer_to. destruct (own (attr_key b) entries) as [supplied|]; [|by apply read_all_other].
    destruct (is_null supplied); [by apply read_all_other|].
    destruct (readValue b supplied); rewrite read_all_other by done; [done|by rewrite lookup_insert_eq].
  - assert (attr_key b <> attr_key a) as Hne.
    { intros E. apply Hb. rewrite E. by apply (list_elem_of_fmap_2 attr_key). }
    cbn. destruct (own (attr_key b) entries) as [supplied|]; [|by apply IH]. destruct (is_null supplied); [by apply IH|].
    destruct (readValue b supplied); rewrite IH by done; [done|by rewrite lookup_insert_ne].
Qed.

Lemma unknown_keys_nil (attributes : list CategoryAttribute) (entries : list (string * json)) :
  unknown_keys attributes entries = [] <-> forall k, k ∈ fst <$> entries -> k ∈ attr_key <$> attributes.
Proof.
  unfold unknown_keys. split.
  - intros H k Hk. destruct (decide (k ∈ attr_key <$> attributes)) as [|Hn]; [done|]. exfalso.
    apply fmap_nil_inv in H. assert (k ∈ ([] : list string)) as Hin; [|by apply elem_of_nil in Hin].
    rewrite <- H. apply elem_of_bfilter. split; [done|]. by rewrite bool_decide_eq_false_2.
  - intros H. rewrite filter_none; [done|]. intros k Hk. apply negb_false_iff, bool_decide_eq_true_2. by apply H.
Qed.

Lemma complaints_nil (attributes : list CategoryAttribute) (entries : list (string * json)) :
  omap (complaint entries) attributes = [] <->
  forall a, a ∈ attributes -> answer_to a entries = None \/ exists v, answer_to a entries = Some (inr v).
Proof.
  rewrite <- (Forall_forall (fun a => answer_to a entries = None \/ exists v, answer_to a entries = Some (inr v))).
  induction attributes as [|a l IH]; cbn; [by split|]. rewrite Forall_cons, <- IH. unfold complaint at 1.
  destruct (answer_to a entries) as [[why|v]|]; split; try done; try naive_solver.
Qed.

(** The answers are accepted exactly when there are at most twelve, each is to a
    question of the category, and each that is not null can be read; what is then
    stored is, for each question answered, the answer as read, which fits the
    question, and nothing else. *)
Theorem answers_accepted (attributes : list CategoryAttribute) (entries : list (string * json)) :
  NoDup (attr_key <$> attributes) ->
  match validateAttributeValues attributes (j_object entries) with
  | inr values =>
      Z.of_nat (length entries) <= MAX_CATEGORY_ATTRIBUTES /\
      (forall k, k ∈ fst <$> entries -> k ∈ attr_key <$> attributes) /\
      (forall a, a ∈ attributes -> match answer_to a entries with
         | None => values !! attr_key a = None
         | Some (inr v) => values !! attr_key a = Some v /\ fits (attr_type a) v
         | Some (inl _) => False
         end) /\
      (forall k, k ∉ attr_key <$> attributes -> values !! k = None)
  | inl issues => issues <> [] /\
      (MAX_CATEGORY_ATTRIBUTES < Z.of_nat (length entries) \/
       (exists k, k ∈ fst <$> entries /\ k ∉ attr_key <$> attributes) \/
       (exists a why, a ∈ attributes /\ answer_to a entries = Some (inl why)))
  end.
Proof.
  intros Hnd. unfold validateAttributeValues.
  destruct (Z.ltb_spec MAX_CATEGORY_ATTRIBUTES (Z.of_nat (length entries))) as [|Hfew]; [by auto|].
  pose proof (read_all_issues attributes entries (unknown_keys attributes entries) ∅) as Hi.
  pose proof (fun a Ha => read_all_values attributes entries (unknown_keys attributes entries) ∅ a Hnd Ha) as Hv.
  pose proof (fun k Hk => read_all_other attributes entries (unknown_keys attributes entries) ∅ k Hk) as Ho.
  destruct (read_all _ _ _ _) as [issues values]. cbn [fst snd] in *. case_bool_decide as Hnil.
  - rewrite Hnil in Hi. symmetry in Hi. apply app_eq_nil in Hi as [Hu Hc].
    rewrite unknown_keys_nil in Hu. rewrite complaints_nil in Hc. split_and!; [done|done| |].
    + intros a Ha. specialize (Hv a Ha). destruct (Hc a Ha) as [E|[v E]]; rewrite E in *; [by rewrite Hv, lookup_empty|].
      split; [done|]. unfold answer_to in E. destruct (own _ _) as [supplied|]; [|done].
      destruct (is_null supplied); [done|]. injection E as E. by eapply readValue_fits.
    + intros k Hk. by rewrite Ho, lookup_empty.
  - split; [done|]. right. destruct (decide (unknown_keys attributes entries = [])) as [Hu|Hu].
    + right. assert (omap (complaint entries) attributes <> []) as Hc by (intros E; rewrite Hu, E in Hi; done).
      destruct (omap _ _) as [|i l] eqn:E; [done|]. assert (i ∈ omap (complaint entries) attributes) as Hin by (rewrite E; left).
      apply list_elem_of_omap in Hin as (a & Ha & Hca). exists a. unfold complaint in Hca.
      destruct (answer_to a entries) as [[why|]|]; try done. by exists why.
    + left. destruct (unknown_keys attributes entries) as [|i l] eqn:E; [done|].
      assert (i ∈ unknown_keys attributes entries) as Hin by (rewrite E; left).
      unfold unknown_keys in Hin. apply list_elem_of_fmap in Hin as (k & _ & Hk). apply elem_of_bfilter in Hk as [Hk Hn].
      exists k. split; [done|]. by apply negb_true_iff, bool_decide_eq_false in Hn.
Qed.

(** ** Sending stored answers again *)
Lemma own_resubmitted (attributes : list CategoryAttribute) (values : ListingAttributeValues) (a : CategoryAttribute) :
  NoDup (attr_key <$> attributes) -> a ∈ attributes ->
  own (attr_key a) (omap (fun a => (fun v => (attr_key a, render (attr_type a) v)) <$> values !! attr_key a) attributes)
  = render (attr_type a) <$> values !! attr_key a.
Proof.
  induction attributes as [|b l IH]; [by intros _ ?%elem_of_nil|]. cbn [fmap list_fmap].
  intros [Hb Hnd]%NoDup_cons [->|Ha]%elem_of_cons.
  - cbn. destruct (values !! attr_key b) as [v|]; cbn; [by rewrite decide_True|].
    assert (forall k, k ∉ attr_key <$> l -> own k (omap (fun a => (fun v => (attr_key a, render (attr_type a) v)) <$>
      values !! attr_key a) l) = None) as Hnone; [|by apply Hnone].
    clear. intros k. induction l as [|c l IH]; cbn; [done|]. rewrite not_elem_of_cons. intros [Hne Hk].
    destruct (values !! attr_key c); cbn; [rewrite decide_False by done|]; by apply IH.
  - assert (attr_key b <> attr_key a) as Hne.
    { intros E. apply Hb. rewrite E. by apply (list_elem_of_fmap_2 attr_key). }
    cbn. destruct (values !! attr_key b) as [v|]; cbn; [rewrite decide_False by done|]; by apply IH.
Qed.

(** C37. Whatever answers the category's questions accept, sent back as the form shows them,
    are accepted again and stored as they were: numbers as decimals of the question's scale,
    choices in the category's order, whatever the number and the kinds of questions. *)
Theorem answers_resubmit (attributes : list CategoryAttribute) (raw : json) (values : ListingAttributeValues) :
  lawful_schema attributes -> validateAttributeValues attributes raw = inr values ->
  validateAttributeValues attributes (resubmission attributes values) = inr values.
Proof.
  intros [Hnd Hfew Hty] Hok. destruct raw as [| | | | |entries]; try done.
  pose proof (answers_accepted attributes entries Hnd) as H. rewrite Hok in H. destruct H as (_ & _ & Hans & Hother).
  set (again := omap (fun a => (fun v => (attr_key a, render (attr_type a) v)) <$> values !! attr_key a) attributes).
  change (resubmission attributes values) with (j_object again).
  assert (forall a, a ∈ attributes -> answer_to a again = inr <$> values !! attr_key a) as Hagain.
  { intros a Ha. unfold answer_to, again. rewrite own_resubmitted by done. specialize (Hans a Ha).
    destruct (answer_to a entries) as [[?|v]|]; [done| |by rewrite Hans]. destruct Hans as [-> Hfits]. cbn.
    pose proof (proj1 (Forall_forall _ _) Hty a Ha) as Hl. rewrite (readValue_render a v Hl Hfits).
    destruct v as [s|n|l]; try done. destruct (attr_type a) as [|unit dp| |] eqn:E; try done.
    cbv beta in Hl. rewrite E in Hl. cbn.
    by destruct (Scaled.scaled_roundtrip n dp Hfits Hl) as (s & -> & _). }
  pose proof (answers_accepted attributes again Hnd) as H.
  assert (Z.of_nat (length again) <= MAX_CATEGORY_ATTRIBUTES) as Hlen.
  { etransitivity; [|exact Hfew]. apply inj_le. unfold again. clear.
    induction attributes as [|a l IH]; cbn; [done|]. destruct (values !! attr_key a); cbn; lia. }
  destruct (validateAttributeValues attributes (j_object again)) as [issues|values'].
  - destruct H as [_ [?|[(k & Hk & Hn)|(a & why & Ha & Hw)]]]; exfalso; [lia| |].
    + apply Hn. apply list_elem_of_fmap in Hk as ((k' & j) & -> & Hk). apply list_elem_of_omap in Hk as (a & Ha & E).
      destruct (values !! attr_key a); [|done]. injection E as <- _. by apply (list_elem_of_fmap_2 attr_key).
    + rewrite Hagain in Hw by done. by destruct (values !! attr_key a).
  - f_equal. destruct H as (_ & _ & Hans' & Hother'). apply map_eq. intros k.
    destruct (decide (k ∈ attr_key <$> attributes)) as [Hk|Hk]; [|by rewrite Hother, Hother'].
    apply list_elem_of_fmap in Hk as (a & -> & Ha). specialize (Hans' a Ha). rewrite Hagain in Hans' by done.
    destruct (values !! attr_key a); [by destruct Hans'|done].
Qed.

(** ** Publication *)
Lemma when_nil (b : bool) (x : PublicationBlocker) : when b x = [] <-> b = false.
Proof. by destruct b. Qed.

Lemma unanswered_nil (attributes : list CategoryAttribute) (values : ListingAttributeValues) :
  unanswered attributes values = [] <->
  forall a, a ∈ attributes -> required a = true -> answered values (attr_key a) = true.
Proof.
  unfold unanswered. split.
  - intros H a Ha Hr. destruct (answered values (attr_key a)) eqn:E; [done|]. exfalso.
    apply fmap_nil_inv in H. assert (a ∈ ([] : list CategoryAttribute)) as Hin; [|by apply elem_of_nil in Hin].
    rewrite <- H. apply elem_of_bfilter. by rewrite Hr, E.
  - intros H. rewrite filter_none; [done|]. intros a Ha. destruct (required a) eqn:Hr; [|done]. by rewrite (H a Ha Hr).
Qed.

(** What a listing has to say about itself, apart from who its owner is. *)
Record complete (c : PublicationCandidate) : Prop := {
  co_description : trim (c_description c) <> "";
  co_answers : forall a, a ∈ c_categoryAttributes c -> required a = true ->
    answered (c_attributes c) (attr_key a) = true;
  co_transport : c_categoryTransportOptions c <> [] -> c_transportRequirement c <> None;
  co_rate : daily (c_rates c) <> None;
  co_place : c_hasCollectionLocation c = true /\ c_isLocated c = true }.

(** What it lacks, by the field that would say it; who its owner is among them. *)
Inductive missing (c : PublicationCandidate) : string -> Prop :=
  | mi_description : trim (c_description c) = "" -> missing c "description"
  | mi_answer (a : CategoryAttribute) : a ∈ c_categoryAttributes c -> required a = true ->
      answered (c_attributes c) (attr_key a) = false -> missing c ("attributes." +:+ attr_key a)
  | mi_transport : c_categoryTransportOptions c <> [] -> c_transportRequirement c = None -> missing c "transportRequirement"
  | mi_rate : daily (c_rates c) = None -> missing c "rates.daily"
  | mi_owner : c_ownerStatus c <> Some private_owner -> missing c "ownerStatus"
  | mi_place : c_hasCollectionLocation c && c_isLocated c = false -> missing c "collectionLocation".

Lemma elem_of_when (b : bool) (x y : PublicationBlocker) : y ∈ when b x <-> b = true /\ y = x.
Proof. destruct b; cbn; rewrite ?list_elem_of_singleton, ?elem_of_nil; naive_solver. Qed.

Lemma trim_empty (s : string) : trim_chars (chars s) = [] <-> trim s = "".
Proof. unfold trim. rewrite <- (chars_str (trim_chars _)) at 1. by destruct (str (trim_chars _)). Qed.

(** The blockers name what is missing, all of it and nothing else. *)
Lemma blockers_missing (c : PublicationCandidate) (f : string) : f ∈ field <$> publicationBlockers c <-> missing c f.
Proof.
  rewrite list_elem_of_fmap. split.
  - intros (b & -> & Hb). unfold publicationBlockers, unanswered in Hb. rewrite !elem_of_app, !elem_of_when in Hb.
    destruct Hb as [[Hb ->]|[Hb|[[[Ho Ht]%andb_true_iff ->]|[[Hb ->]|[Hb|Hb]]]]]; cbn [field].
    + apply bool_decide_eq_true in Hb. by apply mi_description, trim_empty.
    + apply list_elem_of_fmap in Hb as (a & -> & [Ha [Hr Hn]%andb_true_iff]%elem_of_bfilter). cbn.
      apply mi_answer; [done..|]. by apply negb_true_iff.
    + apply bool_decide_eq_true in Ht. apply negb_true_iff, bool_decide_eq_false in Ho. apply mi_transport; [|done].
      intros E. apply Ho. by rewrite E.
    + apply mi_rate. by destruct (daily (c_rates c)).
    + destruct (c_ownerStatus c) as [[]|] eqn:E; [by apply elem_of_nil in Hb| |]; apply list_elem_of_singleton in Hb as ->;
        apply mi_owner; by rewrite E.
    + assert (field b = "collectionLocation" /\ c_hasCollectionLocation c && c_isLocated c = false) as [-> H]; [|by apply mi_place].
      destruct (c_hasCollectionLocation c); cbn [negb andb] in *.
      * apply elem_of_when in Hb as [Hb ->]. split; [done|by apply negb_true_iff].
      * by apply list_elem_of_singleton in Hb as ->.
  - assert (forall b g, field b = g -> b ∈ publicationBlockers c -> exists y, g = field y /\ y ∈ publicationBlockers c) as Hin by eauto.
    intros [H|a Ha Hr Hn|Ho Ht|H|H|H].
    + eapply (Hin (mkBlocker "description" _)); [reflexivity|]. unfold publicationBlockers, unanswered. rewrite !elem_of_app, !elem_of_when. left. split; [by apply bool_decide_eq_true, trim_empty|reflexivity].
    + eapply (Hin (mkBlocker _ _)); [reflexivity|]. unfold publicationBlockers, unanswered. rewrite !elem_of_app, !elem_of_when. right. left.
      apply list_elem_of_fmap. exists a. split; [reflexivity|]. apply elem_of_bfilter. by rewrite Hr, Hn.
    + eapply (Hin (mkBlocker "transportRequirement" _)); [reflexivity|]. unfold publicationBlockers, unanswered. rewrite !elem_of_app, !elem_of_when. do 2 right. left. split; [|reflexivity].
      rewrite (bool_decide_eq_true_2 _ Ht), andb_true_r. apply negb_true_iff, bool_decide_eq_false.
      intros E. apply Ho. by destruct (c_categoryTransportOptions c).
    + eapply (Hin (mkBlocker "rates.daily" _)); [reflexivity|]. unfold publicationBlockers, unanswered. rewrite !elem_of_app, !elem_of_when. do 3 right. left. split; [by rewrite H|reflexivity].
    + destruct (c_ownerStatus c) as [[]|] eqn:E; [done| |];
        (eapply (Hin (mkBlocker "ownerStatus" _)); [reflexivity|]; unfold publicationBlockers, unanswered; rewrite E, !elem_of_app, !elem_of_when;
         do 4 right; left; apply list_elem_of_singleton; reflexivity).
    + destruct (c_hasCollectionLocation c) eqn:E; cbn [negb andb] in *;
        (eapply (Hin (mkBlocker "collectionLocation" _)); [reflexivity|]; unfold publicationBlockers, unanswered; rewrite E, !elem_of_app, ?elem_of_when; do 5 right);
        cbn [negb]; rewrite ?elem_of_when; [split; [by rewrite H|reflexivity]|apply list_elem_of_singleton; reflexivity].
Qed.

(** Nothing blocks a publication exactly when the listing is complete and its owner
    is a private individual. *)
Theorem publishable_iff (c : PublicationCandidate) :
  publicationBlockers c = [] <-> complete c /\ c_ownerStatus c = Some private_owner.
Proof.
  unfold publicationBlockers. rewrite !app_nil, !when_nil, unanswered_nil, andb_false_iff, negb_false_iff,
    bool_decide_eq_false, bool_decide_eq_true, bool_decide_eq_false.
  assert ((if negb (c_hasCollectionLocation c)
    then [mkBlocker "collectionLocation" ("Where the item is collected from is needed before this listing can be " +:+
           "published, because nobody can come and fetch a thing that is nowhere.")]
    else when (negb (c_isLocated c))
          (mkBlocker "collectionLocation" ("We could not place this address on a map, so nobody searching nearby " +:+
             "would find it. Check the postcode and save again."))) = [] <->
    c_hasCollectionLocation c = true /\ c_isLocated c = true) as ->
    by (destruct (c_hasCollectionLocation c), (c_isLocated c); cbn; naive_solver).
  assert (trim_chars (chars (c_description c)) <> [] <-> trim (c_description c) <> "") as ->.
  { unfold trim. rewrite <- (chars_str (trim_chars _)) at 1. by destruct (str (trim_chars _)). }
  assert (length (c_categoryTransportOptions c) = 0%nat \/ c_transportRequirement c <> None <->
    (c_categoryTransportOptions c <> [] -> c_transportRequirement c <> None)) as ->
    by (destruct (c_categoryTransportOptions c); cbn; naive_solver).
  assert (match daily (c_rates c) with None => true | Some _ => false end = false <-> daily (c_rates c) <> None) as ->
    by (destruct (daily (c_rates c)); naive_solver).
  split.
  - intros (? & ? & ? & ? & Ho & ?). split; [by split|]. by destruct (c_ownerStatus c) as [[]|].
  - intros [[? ? ? ? [? ?]] Ho]. rewrite Ho. by split_and!.
Qed.
