(* ===== verification/UnitEconomics.v ===== *)
(** * What a booking earns and costs ([apps/api/src/pricing/cost-model.ts],
    [unit-economics.ts], [margin-rule.ts])

    [Module CostModel]: the costs of a booking, the figures of the UK included.
    [Module UnitEconomics]: revenue, costs and contribution margin, through binary64
    as the code computes them.  [Module MarginRule]: the rule a category's fees have
    to pass.  Where a figure of the model comes from ([Provenance]) is left out. *)

From Stdlib Require String.
From S2P Require Import Prelude JsNumber Text Money Pricing PricingProofs.

#[local] Open Scope string_scope.
#[local] Open Scope list_scope.
#[local] Open Scope Z_scope.

(** ** [cost-model.ts] *)
Module CostModel.
Import Money.

Record BlendedRate : Type := mkRate { percent : number; fixed : Money }.

Record CostModel : Type := mkCostModel {
  model_currency : CurrencyCode;
  cardProcessing : BlendedRate;
  damageSecurityProcessing : BlendedRate;
  payout : BlendedRate;
  connectedAccountMonthly : Money;
  extendedAuthorisation : Money;
  identityVerification : Money;
  smsPerMessage : Money;
  criticalMessagesPerBooking : number;
  disputeFee : Money;
  refundRate : number;
  chargebackRate : number;
  supportPerBooking : Money }.

Definition gbp (pence : Z) : Money := mkMoney pence "GBP".

(** The literal [n / d]: the nearest binary64. *)
Definition literal (n d : Z) : number := Js.div (Js.of_Z n) (Js.of_Z d).

Definition UK_STRIPE_COST_MODEL : CostModel := {|
  model_currency := "GBP";
  cardProcessing := mkRate (literal 3 2) (gbp 20);
  damageSecurityProcessing := mkRate (literal 3 2) (gbp 20);
  payout := mkRate (literal 1 4) (gbp 10);
  connectedAccountMonthly := gbp 200;
  extendedAuthorisation := gbp 0;
  identityVerification := gbp 0;
  smsPerMessage := gbp 4;
  criticalMessagesPerBooking := Js.of_Z 2;
  disputeFee := gbp 2000;
  refundRate := literal 3 100;
  chargebackRate := literal 5 1000;
  supportPerBooking := gbp 15 |}.

Definition applyRate (r : BlendedRate) (to : Money) : result Money :=
  p ← percentageOf to (percent r) half_up; add p (fixed r).
End CostModel.

(** ** [unit-economics.ts] *)
Module UnitEconomics.
Import Money Pricing CostModel.

Record CostBreakdown : Type := mkCosts {
  c_cardProcessing : Money;
  c_damageSecurityProcessing : Money;
  c_payout : Money;
  c_connectedAccount : Money;
  c_extendedAuthorisation : Money;
  c_identityVerification : Money;
  c_sms : Money;
  c_refunds : Money;
  c_chargebacks : Money;
  c_support : Money }.

(** [Object.values(costs)] *)
Definition values (c : CostBreakdown) : list Money :=
  [c_cardProcessing c; c_damageSecurityProcessing c; c_payout c; c_connectedAccount c; c_extendedAuthorisation c;
   c_identityVerification c; c_sms c; c_refunds c; c_chargebacks c; c_support c].

Record UnitEconomics : Type := mkEconomics {
  e_grossBookingValue : Money;
  e_renterPays : Money;
  e_renterFee : Money;
  e_ownerCommission : Money;
  e_ownerProceeds : Money;
  e_platformRevenue : Money;
  e_costs : CostBreakdown;
  e_totalCost : Money;
  e_contributionMargin : Money;
  e_minimumFeeApplied : bool }.

Record BookingShape : Type := mkShape {
  grossBookingValue : Money;
  damageSecurityCaptured : Money;
  bookingsPerActiveOwnerPerMonth : number }.

Definition costsOf (b : BookingShape) (m : CostModel) (renterPays ownerProceeds : Money) : result CostBreakdown :=
  card ← applyRate (cardProcessing m) renterPays;
  security ← (if isZero (damageSecurityCaptured b) then Ok (zero (currency (grossBookingValue b)))
              else applyRate (damageSecurityProcessing m) (damageSecurityCaptured b));
  out ← applyRate (payout m) ownerProceeds;
  account ← multiply (connectedAccountMonthly m)
              (Js.div (Js.of_Z 1) (bookingsPerActiveOwnerPerMonth b)) half_up;
  sms ← multiply (smsPerMessage m) (criticalMessagesPerBooking m) half_up;
  refunds ← multiply card (refundRate m) half_up;
  disputed ← add (disputeFee m) card;
  chargebacks ← multiply disputed (chargebackRate m) half_up;
  Ok (mkCosts card security out account (extendedAuthorisation m) (identityVerification m) sms refunds chargebacks
        (supportPerBooking m)).

Definition unitEconomicsOf (b : BookingShape) (policy : CategoryFeePolicy) (m : CostModel) : result UnitEconomics :=
  if Js.ltb (bookingsPerActiveOwnerPerMonth b) (Js.of_Z 1)
  then Err (ForeignError "UnitEconomicsError")
  else
    let gross := grossBookingValue b in
    f ← renterFeeOn gross policy;
    commission ← percentageOf gross (basisPointsToPercent (ownerCommissionBasisPoints policy)) half_up;
    renterPays ← add gross (fee f);
    proceeds ← subtract gross commission;
    revenue ← add (fee f) commission;
    costs ← costsOf b m renterPays proceeds;
    totalCost ← sum (values costs) (currency gross);
    margin ← subtract revenue totalCost;
    Ok (mkEconomics gross renterPays (fee f) commission proceeds revenue costs totalCost margin (minimumFeeApplied f)).

Definition with_activity (b : BookingShape) (bookingsPerMonth : number) : BookingShape :=
  mkShape (grossBookingValue b) (damageSecurityCaptured b) bookingsPerMonth.

Definition marginAcrossOwnerActivity (b : BookingShape) (policy : CategoryFeePolicy) (m : CostModel)
    (activityLevels : list number) : result (list (number * UnitEconomics)) :=
  try_map (fun n => e ← unitEconomicsOf (with_activity b n) policy m; Ok (n, e)) activityLevels.

(** The loop, from [bookings], with [fuel] levels left to try. *)
Fixpoint breakEvenFrom (fuel : nat) (bookings : Z) (b : BookingShape) (policy : CategoryFeePolicy) (m : CostModel)
  : result (option Z) :=
  match fuel with
  | O => Ok None
  | S fuel' =>
      e ← unitEconomicsOf (with_activity b (Js.of_Z bookings)) policy m;
      if isNegative (e_contributionMargin e) then breakEvenFrom fuel' (bookings + 1) b policy m
      else Ok (Some bookings)
  end.
Definition breakEvenOwnerActivity (b : BookingShape) (policy : CategoryFeePolicy) (m : CostModel) (searchUpTo : Z)
  : result (option Z) := breakEvenFrom (Z.to_nat searchUpTo) 1 b policy m.
End UnitEconomics.

(** ** [margin-rule.ts] *)
Module MarginRule.
Import Money Pricing CostModel UnitEconomics.

Definition NO_FLOOR_PROBE : Money := mkMoney 100 "GBP".
Definition RULE_ACTIVITY_LEVEL : number := Js.of_Z 1.

(** The sentence of [reason] is written from these two figures ([Intl]). *)
Record MarginVerdict : Type := mkVerdict {
  meetsRule : bool;
  judgedAt : Money;
  contributionMargin : Money }.

Definition probe_of (policy : CategoryFeePolicy) : Money :=
  if 0 <? amount (minimumBookingTotal policy) then minimumBookingTotal policy else NO_FLOOR_PROBE.

Definition rule_shape (judged : Money) : BookingShape := mkShape judged (zero (currency judged)) RULE_ACTIVITY_LEVEL.

Definition marginVerdictFor (policy : CategoryFeePolicy) (m : CostModel) : result MarginVerdict :=
  let judged := probe_of policy in
  economics ← unitEconomicsOf (rule_shape judged) policy m;
  let margin := e_contributionMargin economics in
  if negb (isNegative margin) then Ok (mkVerdict true judged margin)
  else _ ← negate margin; Ok (mkVerdict false judged margin).

Definition meetsMarginRule (policy : CategoryFeePolicy) : result MarginVerdict :=
  marginVerdictFor policy UK_STRIPE_COST_MODEL.
End MarginRule.

(** ** Facts *)
Section Facts.
Import Money Pricing CostModel UnitEconomics MarginRule.
Context (cur : CurrencyCode).

(** A cost model whose rates are fractions, in one currency, of ordinary size. *)
Definition LIMIT : Z := 2 ^ 40.
Definition fraction (x : number) : Prop := Js.mag_le x 1 /\ Js.sign_bit x = false.
Definition valid_rate (r : BlendedRate) : Prop :=
  fraction (Js.div (percent r) (Js.of_Z 100)) /\ priced cur LIMIT (fixed r).

Record valid_model (m : CostModel) : Prop := {
  vm_card : valid_rate (cardProcessing m);
  vm_security : valid_rate (damageSecurityProcessing m);
  vm_payout : valid_rate (payout m);
  vm_account : priced cur LIMIT (connectedAccountMonthly m);
  vm_extended : priced cur LIMIT (extendedAuthorisation m);
  vm_identity : priced cur LIMIT (identityVerification m);
  vm_sms : priced cur LIMIT (smsPerMessage m);
  vm_messages : exists k, criticalMessagesPerBooking m = Js.of_Z k /\ 0 <= k <= 1000;
  vm_dispute : priced cur LIMIT (disputeFee m);
  vm_refunds : fraction (refundRate m);
  vm_chargebacks : fraction (chargebackRate m);
  vm_support : priced cur LIMIT (supportPerBooking m) }.

Lemma priced_add (a b : Money) (la lb : Z) :
  priced cur la a -> priced cur lb b -> la + lb <= Js.MAX_SAFE_INTEGER ->
  exists c, add a b = Ok (mkMoney c cur) /\ c = amount a + amount b /\ priced cur (la + lb) (mkMoney c cur).
Proof.
  intros Ha Hb Hl. exists (amount a + amount b). rewrite (add_priced cur a b la lb) by done.
  destruct Ha as [_ Ha], Hb as [_ Hb]. split_and!; [done..|]. split; cbn; [done|lia].
Qed.

Lemma priced_fraction (m : Money) (x : number) (l : Z) :
  priced cur l m -> fraction x -> l <= Js.MAX_SAFE_INTEGER ->
  exists c, multiply m x half_up = Ok (mkMoney c cur) /\ 0 <= c <= amount m /\ priced cur l (mkMoney c cur).
Proof.
  intros [Cm Hm] [Hx Hs] Hl. destruct (multiply_bounded m x) as (c & Hc & Hb); [lia| |done|done|].
  - unfold wf. apply is_safe_iff. lia.
  - exists c. rewrite Hc, Cm. unfold priced. cbn [amount currency]. split_and!; done || lia.
Qed.

Lemma applyRate_ok (r : BlendedRate) (m : Money) (l : Z) :
  valid_rate r -> priced cur l m -> l + LIMIT <= Js.MAX_SAFE_INTEGER ->
  exists c, applyRate r m = Ok (mkMoney c cur) /\ priced cur (l + LIMIT) (mkMoney c cur).
Proof.
  intros [Hf Hp] Hm Hl. unfold applyRate, percentageOf.
  destruct (priced_fraction m _ l Hm Hf) as (c & Hc & _ & Hpc); [unfold LIMIT in *; lia|]. rewrite Hc. unfold_result.
  destruct (priced_add (mkMoney c cur) (fixed r) l LIMIT Hpc Hp Hl) as (t & Ha & _ & Hb). by exists t.
Qed.

Definition GROSS_LIMIT : Z := 2 ^ 40.

(** A month with between one booking and a thousand. *)
Definition activity (n : number) : Prop := exists k, n = Js.of_Z k /\ 1 <= k <= 1000.

Record valid_shape (b : BookingShape) : Prop := {
  vs_gross : priced cur GROSS_LIMIT (grossBookingValue b);
  vs_security : priced cur LIMIT (damageSecurityCaptured b);
  vs_activity : activity (bookingsPerActiveOwnerPerMonth b) }.

Lemma activities_at_least_one (k : Z) : 1 <= k <= 1000 -> Js.ltb (Js.of_Z k) (Js.of_Z 1) = false.
Proof.
  intros Hk. assert (forallb (fun n => negb (Js.ltb (Js.of_Z (Z.of_nat n)) (Js.of_Z 1))) (seq 1 1000) = true) as H
    by (vm_compute; reflexivity).
  apply (proj1 (List.forallb_forall _ _)) with (x := Z.to_nat k) in H; [|apply List.in_seq; lia].
  apply negb_true_iff in H. by rewrite Z2Nat.id in H by lia.
Qed.

Lemma activity_fraction (n : number) :
  activity n -> Js.ltb n (Js.of_Z 1) = false /\ fraction (Js.div (Js.of_Z 1) n).
Proof.
  intros (k & -> & Hk). destruct (Js.exactly_of_Z k) as (_ & Hge & Hs); [unfold Js.MAX_SAFE_INTEGER; lia|].
  destruct (Js.exactly_of_Z 1) as (H1 & _ & Hs1); [unfold Js.MAX_SAFE_INTEGER; lia|]. split.
  - by apply activities_at_least_one.
  - destruct (Js.div_le (Js.of_Z 1) (Js.of_Z k) 1 1) as [Hd Hsd]; [done|by eapply Js.mag_ge_mono; [|apply Hk]|lia|
      unfold Js.MAX_SAFE_INTEGER; lia|]. split; [done|]. by rewrite Hsd, Hs1, Hs.
Qed.

Definition not_negative (m : Money) : Prop := currency m = cur /\ 0 <= amount m.

Lemma costs_ok (b : BookingShape) (m : CostModel) (renterPays proceeds : Money) :
  valid_shape b -> valid_model m -> priced cur (2 * LIMIT) renterPays -> priced cur LIMIT proceeds ->
  exists c, costsOf b m renterPays proceeds = Ok c /\ Forall not_negative (values c) /\
    total_of (values c) <= 2 ^ 51.
Proof.
  intros [Hg Hs Ha] Hm Hr Hp. destruct (activity_fraction _ Ha) as [_ Hf].
  assert (LIMIT = 2 ^ 40) as HL by done. assert (Js.MAX_SAFE_INTEGER = 2 ^ 53 - 1) as HM by done.
  destruct (applyRate_ok (cardProcessing m) renterPays (2 * LIMIT) (vm_card _ Hm) Hr) as (card & Hcard & Pcard); [lia|].
  assert (exists security, (if isZero (damageSecurityCaptured b) then Ok (zero (currency (grossBookingValue b)))
    else applyRate (damageSecurityProcessing m) (damageSecurityCaptured b)) = Ok (mkMoney security cur) /\
    priced cur (LIMIT + LIMIT) (mkMoney security cur)) as (security & Hsec & Psec).
  { destruct (isZero _); [|apply applyRate_ok; [apply vm_security, Hm|done|lia]].
    exists 0. rewrite (proj1 Hg). split; [done|]. split; cbn; [done|lia]. }
  destruct (applyRate_ok (payout m) proceeds LIMIT (vm_payout _ Hm) Hp) as (out & Hout & Pout); [lia|].
  destruct (priced_fraction (connectedAccountMonthly m) _ LIMIT (vm_account _ Hm) Hf) as (acc & Hacc & _ & Pacc); [lia|].
  destruct (vm_messages _ Hm) as (k & Hk & Hkb). pose proof (vm_sms _ Hm) as [Csms Psms].
  assert (multiply (smsPerMessage m) (Js.of_Z k) half_up = Ok (mkMoney (amount (smsPerMessage m) * k) cur)) as Hsms.
  { rewrite <- Csms. apply multiply_exactly; [lia|lia|apply is_safe_iff; lia|nia]. }
  destruct (priced_fraction (mkMoney card cur) _ (2 * LIMIT + LIMIT) Pcard (vm_refunds _ Hm)) as (ref & Href & _ & Pref); [lia|].
  destruct (priced_add (disputeFee m) (mkMoney card cur) LIMIT (2 * LIMIT + LIMIT) (vm_dispute _ Hm) Pcard)
    as (dis & Hdis & _ & Pdis); [lia|].
  destruct (priced_fraction (mkMoney dis cur) _ (LIMIT + (2 * LIMIT + LIMIT)) Pdis (vm_chargebacks _ Hm))
    as (cb & Hcb & _ & Pcb); [lia|].
  exists (mkCosts (mkMoney card cur) (mkMoney security cur) (mkMoney out cur) (mkMoney acc cur) (extendedAuthorisation m)
    (identityVerification m) (mkMoney (amount (smsPerMessage m) * k) cur) (mkMoney ref cur) (mkMoney cb cur)
    (supportPerBooking m)).
  unfold costsOf. rewrite Hcard. unfold_result. rewrite Hsec, Hout, Hacc, Hk, Hsms, Href, Hdis, Hcb. split; [done|].
  pose proof (vm_extended _ Hm) as [? ?]. pose proof (vm_identity _ Hm) as [? ?]. pose proof (vm_support _ Hm) as [? ?].
  unfold priced, not_negative in *. cbn [amount currency] in *. split.
  - unfold values. cbn. repeat constructor; cbn; try done; try lia; nia.
  - unfold values, total_of. cbn. nia.
Qed.

(** Where the money of a booking goes: the owner's proceeds and the commission are
    the gross value, the platform keeps what the renter pays less the proceeds, and
    the margin is that less every cost. *)
Definition accounts_for (b : BookingShape) (policy : CategoryFeePolicy) (e : UnitEconomics) : Prop :=
  renterFeeOn (grossBookingValue b) policy = Ok (mkFee (e_renterFee e) (e_minimumFeeApplied e)) /\
  amount (e_renterPays e) = amount (grossBookingValue b) + amount (e_renterFee e) /\
  amount (e_ownerProceeds e) + amount (e_ownerCommission e) = amount (grossBookingValue b) /\
  0 <= amount (e_ownerProceeds e) /\ 0 <= amount (e_ownerCommission e) /\
  amount (e_platformRevenue e) = amount (e_renterPays e) - amount (e_ownerProceeds e) /\
  Forall not_negative (values (e_costs e)) /\
  amount (e_contributionMargin e) = amount (e_platformRevenue e) - total_of (values (e_costs e)) /\
  amount (e_totalCost e) = total_of (values (e_costs e)) /\
  currency (e_contributionMargin e) = cur /\ Z.abs (amount (e_contributionMargin e)) <= 2 ^ 52.

(** The economics of a booking are always worked out, and account for every penny. *)
Theorem economics_account (b : BookingShape) (policy : CategoryFeePolicy) (m : CostModel) :
  valid_shape b -> valid_policy cur policy -> valid_model m ->
  exists e, unitEconomicsOf b policy m = Ok e /\ accounts_for b policy e.
Proof.
  intros Hb Hp Hm. destruct (activity_fraction _ (vs_activity _ Hb)) as [Hlt _].
  assert (LIMIT = 2 ^ 40) as HL by done. assert (GROSS_LIMIT = 2 ^ 40) as HG by done.
  assert (Js.MAX_SAFE_INTEGER = 2 ^ 53 - 1) as HM by done.
  pose proof (vs_gross _ Hb) as Hg. set (gross := grossBookingValue b) in *.
  assert (priced cur MAX_CHARGE gross) as Hg' by (destruct Hg; split; [done|unfold MAX_CHARGE in *; lia]).
  destruct (renterFeeOn_ok gross policy cur Hp Hg') as (pct & _ & Hpct & Hfee).
  pose proof Hp as (Hcom & _ & [_ Hfloor] & _).
  destruct (percentage_ok gross (ownerCommissionBasisPoints policy) cur) as (com & Hcomm & Hcb);
    [unfold MAX_FEE_BASIS_POINTS in *; lia|done|].
  set (f := Z.max pct (amount (minimumPlatformFee policy))) in *. destruct Hg as [Cg Hg].
  assert (priced cur LIMIT (mkMoney f cur)) as Pf by (split; cbn; [done|unfold f; lia]).
  assert (priced cur LIMIT (mkMoney com cur)) as Pc by (split; cbn; [done|lia]).
  destruct (priced_add gross (mkMoney f cur) LIMIT LIMIT) as (pays & Hpays & Epays & Ppays); [by split; [|lia]|done|lia|].
  destruct (priced_add (mkMoney f cur) (mkMoney com cur) LIMIT LIMIT Pf Pc) as (rev & Hrev & Erev & Prev); [lia|].
  assert (subtract gross (mkMoney com cur) = Ok (mkMoney (amount gross - com) cur)) as Hsub.
  { rewrite <- Cg. apply subtract_ok. cbn. rewrite Cg. split_and!; [done|apply is_safe_iff; lia|done]. }
  destruct (costs_ok b m (mkMoney pays cur) (mkMoney (amount gross - com) cur) Hb Hm) as (costs & Hcosts & Hnn & Htot);
    [by replace (2 * LIMIT) with (LIMIT + LIMIT) by lia|split; cbn; [done|lia]|].
  assert (0 <= total_of (values costs)) as Htot0.
  { apply total_of_nonneg. eapply Forall_impl; [exact Hnn|]. by intros x [_ ?]. }
  assert (sum (values costs) cur = Ok (mkMoney (total_of (values costs)) cur)) as Hsum by (apply sum_total; [done|lia]).
  assert (subtract (mkMoney rev cur) (mkMoney (total_of (values costs)) cur)
          = Ok (mkMoney (rev - total_of (values costs)) cur)) as Hmar.
  { apply subtract_ok. cbn in *. split_and!; [done|apply is_safe_iff; lia|done]. }
  eexists. unfold unitEconomicsOf. fold gross. rewrite Hlt, Hfee. unfold_result. rewrite Hcomm. cbn [fee minimumFeeApplied].
  rewrite Hpays, Hsub, Hrev, Hcosts. rewrite Cg, Hsum, Hmar. split; [done|].
  destruct Ppays as [_ Ppays], Prev as [_ Prev]. subst gross. cbn [amount currency] in *.
  unfold accounts_for. cbn -[total_of]. split_and!; done || lia.
Qed.

(** ** Breaking even *)
Definition margin_at (b : BookingShape) (policy : CategoryFeePolicy) (m : CostModel) (k : Z) : Z :=
  match unitEconomicsOf (with_activity b (Js.of_Z k)) policy m with
  | Ok e => amount (e_contributionMargin e)
  | Err _ => 0
  end.

Definition first_profit (b : BookingShape) (policy : CategoryFeePolicy) (m : CostModel) (from_ to_ : Z)
    (found : option Z) : Prop :=
  match found with
  | Some n => from_ <= n <= to_ /\ 0 <= margin_at b policy m n /\
      forall k, from_ <= k < n -> margin_at b policy m k < 0
  | None => forall k, from_ <= k <= to_ -> margin_at b policy m k < 0
  end.

Lemma breakEvenFrom_ok (fuel : nat) (from_ : Z) (b : BookingShape) (policy : CategoryFeePolicy) (m : CostModel) :
  priced cur GROSS_LIMIT (grossBookingValue b) -> priced cur LIMIT (damageSecurityCaptured b) ->
  valid_policy cur policy -> valid_model m -> 1 <= from_ -> from_ + Z.of_nat fuel <= 1001 ->
  exists found, breakEvenFrom fuel from_ b policy m = Ok found /\
    first_profit b policy m from_ (from_ + Z.of_nat fuel - 1) found.
Proof.
  intros Hg Hs Hp Hm. revert from_. induction fuel as [|fuel IH]; intros from_ Hfrom Hfuel.
  - exists None. split; [done|]. cbn. lia.
  - destruct (economics_account (with_activity b (Js.of_Z from_)) policy m) as (e & He & _); [|done|done|].
    { split; [done|done|]. exists from_. split; [done|lia]. }
    assert (margin_at b policy m from_ = amount (e_contributionMargin e)) as Hat by (unfold margin_at; by rewrite He).
    cbn [breakEvenFrom]. rewrite He. unfold_result. unfold isNegative.
    destruct (Z.ltb_spec (amount (e_contributionMargin e)) 0) as [Hneg|Hpos].
    + destruct (IH (from_ + 1)) as (found & Hf & Hfirst); [lia|lia|]. exists found. split; [done|].
      destruct found as [n|]; cbn in *.
      * destruct Hfirst as (Hn & Hn0 & Hall). split_and!; [lia|lia|done|]. intros k Hk.
        destruct (decide (k = from_)) as [->|]; [lia|apply Hall; lia].
      * intros k Hk. destruct (decide (k = from_)) as [->|]; [lia|apply Hfirst; lia].
    + exists (Some from_). split; [done|]. cbn. split_and!; lia.
Qed.

(** C38. The search for the first month in which an owner's bookings cover what they cost
    always ends, never throws, and finds the first such number of bookings, or reports none
    when there is none up to its limit, for amounts in one currency within the contract's
    sizes and a limit of up to a thousand. *)
Theorem break_even_is_first (b : BookingShape) (policy : CategoryFeePolicy) (m : CostModel) (searchUpTo : Z) :
  priced cur GROSS_LIMIT (grossBookingValue b) -> priced cur LIMIT (damageSecurityCaptured b) ->
  valid_policy cur policy -> valid_model m -> 0 <= searchUpTo <= 1000 ->
  exists found, breakEvenOwnerActivity b policy m searchUpTo = Ok found /\
    first_profit b policy m 1 searchUpTo found.
Proof.
  intros Hg Hs Hp Hm Hup. destruct (breakEvenFrom_ok (Z.to_nat searchUpTo) 1 b policy m Hg Hs Hp Hm) as (found & Hf & Hfirst);
    [lia|lia|]. exists found. split; [done|]. by replace (1 + Z.of_nat (Z.to_nat searchUpTo) - 1) with searchUpTo in Hfirst by lia.
Qed.
End Facts.
