(* ===== verification/CatalogueStore.v ===== *)
(** * Categories and listings in Postgres
    ([apps/api/src/catalogue/prisma-category-store.ts], [prisma-listing-store.ts],
    [damage-security-columns.ts], and the tables of the migrations)

    [Module CatalogueDb]: versions of categories, listings, their collection
    addresses and their pictures, with the constraints the tables keep, and the two
    adapters.  A [jsonb] column holds what its schema accepts, and a text column with
    a closed vocabulary holds the constructors of its type.  The encryption of an
    address ([field-encryption.ts], over [node:crypto]) is the class
    [FieldEncryptor]; the audit trail, a table of the same database, is [ctrail]. *)

From Stdlib Require Import Ascii.
From Stdlib Require String.
From S2P Require Import Prelude JsNumber Text Money Ledger LedgerStore Pricing.
From S2P Require Import Columns Bookings AuditLog CoreText Answers.

#[local] Open Scope string_scope.
#[local] Open Scope list_scope.
#[local] Open Scope Z_scope.

Module CatalogueDb.
Import Money Pricing Attributes Transport Publication.
Import LedgerDb (fits_int4, btrim_empty).

(** ** Categories *)
Inductive CategoryRiskLevel : Type := low | medium | high.
Inductive CategoryReportableActivity : Type := a_none | means_of_transport | personal_service | sale_of_goods.

Record CategoryConfiguration : Type := mkConfiguration {
  cc_name : string;
  cc_riskLevel : CategoryRiskLevel;
  cc_reportableActivity : CategoryReportableActivity;
  cc_attributes : list CategoryAttribute;
  cc_transportOptions : list CategoryTransportOption;
  cc_feePolicy : CategoryFeePolicy;
  cc_damageSecurity : option DamageSecurityPolicy;
  cc_maximumRentalDays : Z;
  cc_requestExpiryHours : Z }.

Record CategoryRecord : Type := mkCategory {
  cr_id : string;
  cr_slug : string;
  cr_configuration : CategoryConfiguration;
  cr_versionNumber : Z;
  cr_versionCreatedAt : instant;
  cr_createdAt : instant }.

Record CategoryRow : Type := mkCategoryRow { cat_id : string; cat_slug : string; cat_createdAt : instant }.

Record VersionRow : Type := mkVersionRow {
  ver_id : string;
  ver_categoryId : string;
  ver_versionNumber : Z;
  ver_name : string;
  ver_riskLevel : CategoryRiskLevel;
  ver_reportableActivity : CategoryReportableActivity;
  ver_attributes : list CategoryAttribute;
  ver_transportOptions : list CategoryTransportOption;
  ver_ownerCommissionBasisPoints : Z;
  ver_renterFeeBasisPoints : Z;
  ver_minimumBookingTotalAmount : Z;
  ver_minimumBookingTotalCurrency : string;
  ver_minimumPlatformFeeAmount : Z;
  ver_minimumPlatformFeeCurrency : string;
  ver_excessFloorAmount : option Z;
  ver_excessFloorCurrency : option string;
  ver_excessPercentageBasisPoints : option Z;
  ver_recoveryCeilingAmount : option Z;
  ver_recoveryCeilingCurrency : option string;
  ver_maximumRentalDays : Z;
  ver_requestExpiryHours : Z;
  ver_createdById : string;
  ver_createdAt : instant }.

(** ** Listings *)
Record LocatedListingPoint : Type := mkPoint {
  latitude : number;
  longitude : number;
  fuzzBearingDegrees : Z;
  fuzzDistanceMetres : Z;
  fuzzedLatitude : number;
  fuzzedLongitude : number }.

Record StoredFuzzOffset : Type := mkOffset { bearingDegrees : Z; distanceMetres : Z }.

Record ListingCollectionLocation : Type := mkLocation {
  line1 : string;
  line2 : option string;
  town : string;
  postcode : string }.

(** The six columns of a point, which [location_is_geocoded_or_not] makes all null
    or all present. *)
Record LocationRow : Type := mkLocationRow {
  loc_listingId : string;
  loc_postcode : string;
  loc_encryptedDetail : string;
  loc_point : option LocatedListingPoint;
  loc_createdAt : instant;
  loc_updatedAt : instant }.

Record ListingRow : Type := mkListingRow {
  li_id : string;
  li_ownerId : string;
  li_categoryId : string;
  li_categoryVersionId : string;
  li_title : string;
  li_description : string;
  li_replacementValueAmount : Z;
  li_replacementValueCurrency : string;
  li_dailyRateAmount : option Z;
  li_weekendRateAmount : option Z;
  li_weeklyRateAmount : option Z;
  li_rateCurrency : string;
  li_attributes : ListingAttributeValues;
  li_transportRequirement : option TransportRequirement;
  li_requiresTwoPersonLift : bool;
  li_outwardCode : option string;
  li_town : option string;
  li_status : ListingStatus;
  li_moderationState : ModerationState;
  li_moderationReason : option string;
  li_moderatedById : option string;
  li_moderatedAt : option instant;
  li_createdAt : instant;
  li_updatedAt : instant }.

Record MediaRow : Type := mkMediaRow {
  me_id : string;
  me_listingId : string;
  me_position : Z;
  me_displayKey : string;
  me_thumbnailKey : string;
  me_contentType : string;
  me_byteSize : Z;
  me_width : Z;
  me_height : Z;
  me_thumbnailWidth : Z;
  me_thumbnailHeight : Z;
  me_sha256 : string;
  me_moderationState : ModerationState;
  me_createdAt : instant }.

Record Db : Type := mkDb {
  categories : list CategoryRow;
  versions : list VersionRow;
  listings : list ListingRow;
  locations : list LocationRow;
  media : list MediaRow;
  ctrail : AuditDb.Trail;
  cseq : nat;
  cclock : instant }.
Definition empty_db (t : instant) : Db := mkDb [] [] [] [] [] AuditDb.empty_trail 0 t.

Definition with_categories (c : list CategoryRow) (v : list VersionRow) (db : Db) : Db :=
  mkDb c v (listings db) (locations db) (media db) (ctrail db) (cseq db) (cclock db).
Definition with_listings (l : list ListingRow) (db : Db) : Db :=
  mkDb (categories db) (versions db) l (locations db) (media db) (ctrail db) (cseq db) (cclock db).
Definition with_locations (l : list LocationRow) (db : Db) : Db :=
  mkDb (categories db) (versions db) (listings db) l (media db) (ctrail db) (cseq db) (cclock db).
Definition with_media (l : list MediaRow) (db : Db) : Db :=
  mkDb (categories db) (versions db) (listings db) (locations db) l (ctrail db) (cseq db) (cclock db).
Definition with_ctrail (t : AuditDb.Trail) (db : Db) : Db :=
  mkDb (categories db) (versions db) (listings db) (locations db) (media db) t (cseq db) (cclock db).
Definition next (db : Db) : Db :=
  mkDb (categories db) (versions db) (listings db) (locations db) (media db) (ctrail db) (S (cseq db)) (cclock db).

(** ** What the tables refuse *)
Definition fits (z : option Z) : bool := match z with Some z => fits_int4 z | None => true end.

(** [damage_security_is_complete] and [excess_band_currencies_agree] *)
Definition band_refusal (v : VersionRow) : option string :=
  match ver_excessFloorAmount v, ver_excessFloorCurrency v, ver_excessPercentageBasisPoints v,
        ver_recoveryCeilingAmount v, ver_recoveryCeilingCurrency v with
  | None, None, None, None, None => None
  | Some floor, Some floorCurrency, Some bp, Some ceiling, Some ceilingCurrency =>
      if negb ((floor <=? ceiling) && (0 <=? floor) && (0 <? ceiling) && (0 <=? bp) && (bp <=? 10000))
      then Some "damage_security_is_complete"
      else if bool_decide (floorCurrency = ceilingCurrency) then None else Some "excess_band_currencies_agree"
  | _, _, _, _, _ => Some "damage_security_is_complete"
  end.

Definition version_refusal (v : VersionRow) : option string :=
  if negb (fits_int4 (ver_versionNumber v) && fits_int4 (ver_minimumBookingTotalAmount v) &&
           fits_int4 (ver_minimumPlatformFeeAmount v) && fits (ver_excessFloorAmount v) &&
           fits (ver_recoveryCeilingAmount v))
  then Some "integer out of range"
  else if negb ((0 <=? ver_ownerCommissionBasisPoints v) && (ver_ownerCommissionBasisPoints v <=? 5000) &&
                (0 <=? ver_renterFeeBasisPoints v) && (ver_renterFeeBasisPoints v <=? 5000))
  then Some "fee_rates_are_within_bounds"
  else if negb ((0 <=? ver_minimumBookingTotalAmount v) && (0 <=? ver_minimumPlatformFeeAmount v))
  then Some "fee_floors_are_not_negative"
  else if negb (bool_decide (ver_minimumPlatformFeeCurrency v = ver_minimumBookingTotalCurrency v) &&
                (ver_minimumPlatformFeeAmount v <=? ver_minimumBookingTotalAmount v))
  then Some "platform_fee_floor_does_not_exceed_booking_floor"
  else if negb ((1 <=? ver_maximumRentalDays v) && (ver_maximumRentalDays v <=? 88))
  then Some "maximum_rental_days_is_lawful"
  else if negb ((1 <=? ver_requestExpiryHours v) && (ver_requestExpiryHours v <=? 336))
  then Some "request_expiry_hours_is_sane"
  else band_refusal v.

Definition rate_in_bounds (z : option Z) : bool :=
  match z with Some z => (100 <=? z) && (z <=? 1000000) | None => true end.

Definition listing_refusal (r : ListingRow) : option string :=
  if negb (fits_int4 (li_replacementValueAmount r)) then Some "integer out of range"
  else if negb (bool_decide (li_outwardCode r = None <-> li_town r = None)) then Some "location_is_complete"
  else if bool_decide (li_dailyRateAmount r = None) &&
          negb (bool_decide (li_weekendRateAmount r = None) && bool_decide (li_weeklyRateAmount r = None))
  then Some "rate_card_has_a_daily_rate_if_it_has_any"
  else if negb (rate_in_bounds (li_dailyRateAmount r) && rate_in_bounds (li_weekendRateAmount r) &&
                rate_in_bounds (li_weeklyRateAmount r))
  then Some "rental_rates_are_within_bounds"
  else if bool_decide (li_moderationState r <> APPROVED) &&
          match li_moderationReason r with Some why => btrim_empty why | None => true end
  then Some "moderation_hidden_has_a_reason"
  else if negb (bool_decide (li_moderatedById r = None <-> li_moderatedAt r = None))
  then Some "moderation_authorship_is_complete"
  else None.

(** [fuzz_offset_is_within_bounds] *)
Definition location_refusal (r : LocationRow) : option string :=
  match loc_point r with
  | Some p => if (0 <=? fuzzBearingDegrees p) && (fuzzBearingDegrees p <? 360) && (500 <=? fuzzDistanceMetres p)
              then None else Some "fuzz_offset_is_within_bounds"
  | None => None
  end.

Definition has_version (db : Db) (versionId categoryId : string) : bool :=
  existsb (fun v => bool_decide (ver_id v = versionId) && bool_decide (ver_categoryId v = categoryId)) (versions db).

(** ** [prisma-category-store.ts] *)
Definition UNIQUE_VIOLATION : string := "P2002".
Definition isUniqueViolation (e : error) : bool := bool_decide (e = DatabaseError UNIQUE_VIOLATION).

Definition FIRST_VERSION : Z := 1.

Definition asCurrency (value : string) : result CurrencyCode :=
  if bool_decide (value ∈ SUPPORTED_CURRENCIES) then Ok value
  else Err (ForeignError "has a fee policy in a currency this build cannot do arithmetic in").

(** [asFeePolicy] of the category adapter: the currencies are checked, the amounts not. *)
Definition asCategoryFeePolicy (v : VersionRow) : result CategoryFeePolicy :=
  total_currency ← asCurrency (ver_minimumBookingTotalCurrency v);
  fee_currency ← asCurrency (ver_minimumPlatformFeeCurrency v);
  Ok {| ownerCommissionBasisPoints := ver_ownerCommissionBasisPoints v;
        renterFeeBasisPoints := ver_renterFeeBasisPoints v;
        minimumBookingTotal := mkMoney (ver_minimumBookingTotalAmount v) total_currency;
        minimumPlatformFee := mkMoney (ver_minimumPlatformFeeAmount v) fee_currency |}.

(** [damage-security-columns.ts] *)
Definition asBandCurrency (value : string) : result CurrencyCode :=
  if bool_decide (value ∈ SUPPORTED_CURRENCIES) then Ok value
  else Err (ForeignError "has a damage security band in a currency this build cannot do arithmetic in").

Definition asDamageSecurity (v : VersionRow) : result (option DamageSecurityPolicy) :=
  match ver_recoveryCeilingAmount v with
  | None => Ok None
  | Some ceiling =>
      match ver_excessFloorAmount v, ver_excessFloorCurrency v, ver_excessPercentageBasisPoints v,
            ver_recoveryCeilingCurrency v with
      | Some floor, Some floorCurrency, Some bp, Some ceilingCurrency =>
          fc ← asBandCurrency floorCurrency;
          cc ← asBandCurrency ceilingCurrency;
          Ok (Some (mkSecurity (mkMoney floor fc) bp (mkMoney ceiling cc)))
      | _, _, _, _ => Err (ForeignError "has a partial damage security band")
      end
  end.

(** A version's columns, [feePolicyColumns] and [damageSecurityColumns] included. *)
Definition version_for (id categoryId : string) (versionNumber : Z) (c : CategoryConfiguration)
    (authorId : string) (at_ : instant) : VersionRow := {|
  ver_id := id;
  ver_categoryId := categoryId;
  ver_versionNumber := versionNumber;
  ver_name := cc_name c;
  ver_riskLevel := cc_riskLevel c;
  ver_reportableActivity := cc_reportableActivity c;
  ver_attributes := cc_attributes c;
  ver_transportOptions := cc_transportOptions c;
  ver_ownerCommissionBasisPoints := ownerCommissionBasisPoints (cc_feePolicy c);
  ver_renterFeeBasisPoints := renterFeeBasisPoints (cc_feePolicy c);
  ver_minimumBookingTotalAmount := amount (minimumBookingTotal (cc_feePolicy c));
  ver_minimumBookingTotalCurrency := currency (minimumBookingTotal (cc_feePolicy c));
  ver_minimumPlatformFeeAmount := amount (minimumPlatformFee (cc_feePolicy c));
  ver_minimumPlatformFeeCurrency := currency (minimumPlatformFee (cc_feePolicy c));
  ver_excessFloorAmount := (fun p => amount (excessFloor p)) <$> cc_damageSecurity c;
  ver_excessFloorCurrency := (fun p => currency (excessFloor p)) <$> cc_damageSecurity c;
  ver_excessPercentageBasisPoints := excessPercentageBasisPoints <$> cc_damageSecurity c;
  ver_recoveryCeilingAmount := (fun p => amount (recoveryCeiling p)) <$> cc_damageSecurity c;
  ver_recoveryCeilingCurrency := (fun p => currency (recoveryCeiling p)) <$> cc_damageSecurity c;
  ver_maximumRentalDays := cc_maximumRentalDays c;
  ver_requestExpiryHours := cc_requestExpiryHours c;
  ver_createdById := authorId;
  ver_createdAt := at_ |}.

(** [{ versions: { orderBy: { versionNumber: 'desc' }, take: 1 } }] *)
Definition newer (a b : option VersionRow) : option VersionRow :=
  match a, b with
  | Some v, Some w => if ver_versionNumber v <? ver_versionNumber w then Some w else Some v
  | Some v, None => Some v
  | None, _ => b
  end.
Definition latest_version (categoryId : string) (db : Db) : option VersionRow :=
  foldr (fun v => newer (Some v)) None
    (List.filter (fun v => bool_decide (ver_categoryId v = categoryId)) (versions db)).

Definition by_slug (slug : string) (db : Db) : option CategoryRow := find_by cat_slug slug (categories db).

Definition configuration_of (v : VersionRow) : result CategoryConfiguration :=
  policy ← asCategoryFeePolicy v;
  band ← asDamageSecurity v;
  Ok {| cc_name := ver_name v;
        cc_riskLevel := ver_riskLevel v;
        cc_reportableActivity := ver_reportableActivity v;
        cc_attributes := ver_attributes v;
        cc_transportOptions := ver_transportOptions v;
        cc_feePolicy := policy;
        cc_damageSecurity := band;
        cc_maximumRentalDays := ver_maximumRentalDays v;
        cc_requestExpiryHours := ver_requestExpiryHours v |}.

Definition category_record (c : CategoryRow) (v : VersionRow) : result CategoryRecord :=
  conf ← configuration_of v;
  Ok (mkCategory (cat_id c) (cat_slug c) conf (ver_versionNumber v) (ver_createdAt v) (cat_createdAt c)).

(** [toRecord] of the category adapter. *)
Definition toCategoryRecord (db : Db) (c : CategoryRow) : result CategoryRecord :=
  match latest_version (cat_id c) db with
  | None => Err (ForeignError "has no configuration version")
  | Some v => category_record c v
  end.

Section Categories.
Context {Ids : UuidSource} {Order : DescOrder}.
(** Which accounts exist. *)
Variable known : string -> bool.
(** What other connections commit between the statements of an operation. *)
Variable rival : Db -> Db.

Definition insert_category (slug : string) : M Db CategoryRow := fun db =>
  if bool_decide (is_Some (by_slug slug db)) then (db, Err (DatabaseError UNIQUE_VIOLATION))
  else
    let c := mkCategoryRow (uuid (cseq db)) slug (cclock db) in
    (next (with_categories (categories db ++ [c]) (versions db) db), Ok c).

Definition insert_version (categoryId : string) (versionNumber : Z) (conf : CategoryConfiguration)
    (authorId : string) : M Db VersionRow := fun db =>
  let v := version_for (uuid (cseq db)) categoryId versionNumber conf authorId (cclock db) in
  match version_refusal v with
  | Some why => (db, Err (DatabaseError why))
  | None =>
      if existsb (fun w => bool_decide (ver_categoryId w = categoryId) &&
                           (ver_versionNumber w =? versionNumber)) (versions db)
      then (db, Err (DatabaseError UNIQUE_VIOLATION))
      else if negb (bool_decide (categoryId ∈ cat_id <$> categories db))
      then (db, Err (DatabaseError "category_versions_categoryId_fkey"))
      else if negb (known authorId) then (db, Err (DatabaseError "category_versions_createdById_fkey"))
      else (next (with_categories (categories db) (versions db ++ [v]) db), Ok v)
  end.

Definition create (slug : string) (conf : CategoryConfiguration) (authorId : string) : M Db CategoryRecord :=
  catch
    (created ← transaction (c ← insert_category slug;
                            v ← insert_version (cat_id c) FIRST_VERSION conf authorId;
                            mret (c, v));
     lift (category_record (fst created) (snd created)))
    (fun e => if isUniqueViolation e then throw (CategorySlugTakenError slug) else throw e).

Definition addVersion (slug : string) (conf : CategoryConfiguration) (authorId : string)
  : M Db (option CategoryRecord) :=
  existing ← gets (by_slug slug);
  match existing with
  | None => mret None
  | Some c =>
      current ← gets (latest_version (cat_id c));
      match current with
      | None => mret None
      | Some current =>
          _ ← modify rival;
          v ← insert_version (cat_id c) (ver_versionNumber current + 1) conf authorId;
          r ← lift (category_record c v);
          mret (Some r)
      end
  end.

(** [orderBy: { createdAt: 'asc' }], ties as the database has them. *)
Definition oldest_categories (limit : nat) (db : Db) : list CategoryRow :=
  take limit (reverse (order_desc cat_createdAt (categories db))).

Definition list_ (limit : nat) : M Db (list CategoryRecord) := fun db =>
  (db, try_map (toCategoryRecord db) (oldest_categories limit db)).

Definition findBySlug (slug : string) : M Db (option CategoryRecord) := fun db =>
  (db, match by_slug slug db with
       | None => Ok None
       | Some c => r ← toCategoryRecord db c; Ok (Some r)
       end).

Definition findFeePolicyByVersionId (categoryVersionId : string) (db : Db) : result (option CategoryFeePolicy) :=
  match find_by ver_id categoryVersionId (versions db) with
  | None => Ok None
  | Some v => p ← asCategoryFeePolicy v; Ok (Some p)
  end.
End Categories.
End CatalogueDb.
