(* ===== verification/ListingStore.v ===== *)
(** * Listings in Postgres ([apps/api/src/catalogue/prisma-listing-store.ts],
    [listing-store.ts])

    [Module ListingDb]: the adapter of listings over the tables of [CatalogueDb].
    What other connections commit between two of its statements is [rival]. *)

From Stdlib Require Import Ascii.
From Stdlib Require String.
From S2P Require Import Prelude JsNumber Text Money Ledger LedgerStore Pricing.
From S2P Require Import Columns Bookings AuditLog CoreText Answers CatalogueStore.

#[local] Open Scope string_scope.
#[local] Open Scope list_scope.
#[local] Open Scope Z_scope.

(** [JSON.stringify] and [encrypt], and the way back; the number stands for the
    random nonce. *)
Class FieldEncryptor : Type := {
  seal : nat -> string * option string -> string -> string;
  open_ : string -> string -> result (string * option string);
  open_seal : forall n detail context, open_ (seal n detail context) context = Ok detail }.

Module ListingDb.
Import Money Pricing Attributes Transport Publication CatalogueDb.

(** ** Records *)

(** What an owner says of an item, common to drafts, edits and records. *)
Record ListingContent : Type := mkContent {
  title : string;
  description : string;
  replacementValue : Money;
  attributes : ListingAttributeValues;
  transportRequirement : option TransportRequirement;
  requiresTwoPersonLift : bool;
  rates : ListingRateCard }.

Record ListingRecord : Type := mkListing {
  lr_id : string;
  lr_ownerId : string;
  lr_categorySlug : string;
  lr_categoryName : string;
  lr_categoryVersionNumber : Z;
  lr_categoryAttributes : list CategoryAttribute;
  lr_currentFeePolicy : CategoryFeePolicy;
  lr_currentDamageSecurity : option DamageSecurityPolicy;
  lr_categoryTransportOptions : list CategoryTransportOption;
  lr_content :> ListingContent;
  lr_collectionLocation : option ListingCollectionLocation;
  lr_isLocated : bool;
  lr_status : ListingStatus;
  lr_moderationState : ModerationState;
  lr_moderationReason : option string;
  lr_createdAt : instant;
  lr_updatedAt : instant }.

Record ListingImageRecord : Type := mkImage { img_key : string; img_width : Z; img_height : Z }.
Record PublicListingMediaRecord : Type := mkPublicMedia {
  pm_id : string; pm_display : ListingImageRecord; pm_thumbnail : ListingImageRecord }.

Record PublicListingRecord : Type := mkPublic {
  pl_id : string;
  pl_ownerId : string;
  pl_categorySlug : string;
  pl_categoryName : string;
  pl_categoryAttributes : list CategoryAttribute;
  pl_currentFeePolicy : CategoryFeePolicy;
  pl_currentDamageSecurity : option DamageSecurityPolicy;
  pl_content :> ListingContent;
  pl_outwardCode : string;
  pl_town : string;
  pl_media : list PublicListingMediaRecord }.

Record PublicListingSummaryRecord : Type := mkSummary {
  su_id : string;
  su_ownerId : string;
  su_categoryName : string;
  su_currentFeePolicy : CategoryFeePolicy;
  su_title : string;
  su_rates : ListingRateCard;
  su_outwardCode : string;
  su_town : string;
  su_thumbnail : option ListingImageRecord }.

Record ListingDraft : Type := mkDraft {
  dr_ownerId : string;
  dr_categorySlug : string;
  dr_content :> ListingContent;
  dr_collectionLocation : option ListingCollectionLocation;
  dr_locatedPoint : option LocatedListingPoint;
  dr_categoryVersionNumber : Z }.

Inductive CollectionLocationEdit : Type :=
  | address_only (location : ListingCollectionLocation)
  | relocated (location : ListingCollectionLocation) (point : option LocatedListingPoint)
  | cleared.

Record ListingEdit : Type := mkEdit {
  ed_content :> ListingContent;
  ed_collectionLocation : CollectionLocationEdit;
  ed_categoryVersionNumber : Z }.

Record ModerationDecision : Type := mkDecision {
  md_listingId : string;
  md_state : ModerationState;
  md_reason : option string;
  md_moderatorId : string;
  md_decidedAt : instant }.

Record CategoryOptionRecord : Type := mkOptionRecord {
  co_slug : string;
  co_name : string;
  co_attributes : list CategoryAttribute;
  co_transportOptions : list CategoryTransportOption;
  co_versionNumber : Z }.

(** ** Columns to values *)
Definition asMoney (a : Z) (c : string) : result Money :=
  match money a c with
  | Ok m => Ok m
  | Err _ => Err (ForeignError "has a replacement value this build cannot read")
  end.

Definition rate (a : option Z) (c : string) : result (option Money) :=
  match a with
  | None => Ok None
  | Some a => m ← asMoney a c; Ok (Some m)
  end.

Definition asRateCard (r : ListingRow) : result ListingRateCard :=
  d ← rate (li_dailyRateAmount r) (li_rateCurrency r);
  e ← rate (li_weekendRateAmount r) (li_rateCurrency r);
  w ← rate (li_weeklyRateAmount r) (li_rateCurrency r);
  Ok (mkRates d e w).

Definition asFeePolicy (v : VersionRow) : result CategoryFeePolicy :=
  t ← asMoney (ver_minimumBookingTotalAmount v) (ver_minimumBookingTotalCurrency v);
  f ← asMoney (ver_minimumPlatformFeeAmount v) (ver_minimumPlatformFeeCurrency v);
  Ok {| ownerCommissionBasisPoints := ver_ownerCommissionBasisPoints v;
        renterFeeBasisPoints := ver_renterFeeBasisPoints v;
        minimumBookingTotal := t;
        minimumPlatformFee := f |}.

Definition asContent (r : ListingRow) : result ListingContent :=
  value ← asMoney (li_replacementValueAmount r) (li_replacementValueCurrency r);
  card ← asRateCard r;
  Ok (mkContent (li_title r) (li_description r) value (li_attributes r) (li_transportRequirement r)
        (li_requiresTwoPersonLift r) card).

Definition display_of (m : MediaRow) : ListingImageRecord := mkImage (me_displayKey m) (me_width m) (me_height m).
Definition thumbnail_of (m : MediaRow) : ListingImageRecord :=
  mkImage (me_thumbnailKey m) (me_thumbnailWidth m) (me_thumbnailHeight m).
Definition asPublicMedia (m : MediaRow) : PublicListingMediaRecord :=
  mkPublicMedia (me_id m) (display_of m) (thumbnail_of m).

(** ** Values to columns *)
Definition rate_currency (c : ListingRateCard) : string :=
  match daily c, weekend c, weekly c with
  | Some m, _, _ | None, Some m, _ | None, None, Some m => currency m
  | None, None, None => "GBP"
  end.

(** [publishableLocationColumns] *)
Definition location_columns (location : option ListingCollectionLocation)
  : result (option string * option string) :=
  match location with
  | None => Ok (None, None)
  | Some l => o ← Postcode.outwardCode (postcode l); Ok (Some o, Some (town l))
  end.
Definition edited_location (e : CollectionLocationEdit) : option ListingCollectionLocation :=
  match e with address_only l | relocated l _ => Some l | cleared => None end.
Definition publishableLocationColumns (e : CollectionLocationEdit) : result (option string * option string) :=
  location_columns (edited_location e).

(** The columns of a listing's content, [rateColumns] included, and of its version. *)
Definition with_content (versionId : string) (c : ListingContent) (outward_town : option string * option string)
    (at_ : instant) (r : ListingRow) : ListingRow := {|
  li_id := li_id r;
  li_ownerId := li_ownerId r;
  li_categoryId := li_categoryId r;
  li_categoryVersionId := versionId;
  li_title := title c;
  li_description := description c;
  li_replacementValueAmount := amount (replacementValue c);
  li_replacementValueCurrency := currency (replacementValue c);
  li_dailyRateAmount := amount <$> daily (rates c);
  li_weekendRateAmount := amount <$> weekend (rates c);
  li_weeklyRateAmount := amount <$> weekly (rates c);
  li_rateCurrency := rate_currency (rates c);
  li_attributes := attributes c;
  li_transportRequirement := transportRequirement c;
  li_requiresTwoPersonLift := requiresTwoPersonLift c;
  li_outwardCode := fst outward_town;
  li_town := snd outward_town;
  li_status := li_status r;
  li_moderationState := li_moderationState r;
  li_moderationReason := li_moderationReason r;
  li_moderatedById := li_moderatedById r;
  li_moderatedAt := li_moderatedAt r;
  li_createdAt := li_createdAt r;
  li_updatedAt := at_ |}.

Definition with_status (s : ListingStatus) (at_ : instant) (r : ListingRow) : ListingRow := {|
  li_id := li_id r; li_ownerId := li_ownerId r; li_categoryId := li_categoryId r;
  li_categoryVersionId := li_categoryVersionId r; li_title := li_title r; li_description := li_description r;
  li_replacementValueAmount := li_replacementValueAmount r;
  li_replacementValueCurrency := li_replacementValueCurrency r;
  li_dailyRateAmount := li_dailyRateAmount r; li_weekendRateAmount := li_weekendRateAmount r;
  li_weeklyRateAmount := li_weeklyRateAmount r; li_rateCurrency := li_rateCurrency r;
  li_attributes := li_attributes r; li_transportRequirement := li_transportRequirement r;
  li_requiresTwoPersonLift := li_requiresTwoPersonLift r; li_outwardCode := li_outwardCode r;
  li_town := li_town r; li_status := s; li_moderationState := li_moderationState r;
  li_moderationReason := li_moderationReason r; li_moderatedById := li_moderatedById r;
  li_moderatedAt := li_moderatedAt r; li_createdAt := li_createdAt r; li_updatedAt := at_ |}.

Definition with_moderation (d : ModerationDecision) (at_ : instant) (r : ListingRow) : ListingRow := {|
  li_id := li_id r; li_ownerId := li_ownerId r; li_categoryId := li_categoryId r;
  li_categoryVersionId := li_categoryVersionId r; li_title := li_title r; li_description := li_description r;
  li_replacementValueAmount := li_replacementValueAmount r;
  li_replacementValueCurrency := li_replacementValueCurrency r;
  li_dailyRateAmount := li_dailyRateAmount r; li_weekendRateAmount := li_weekendRateAmount r;
  li_weeklyRateAmount := li_weeklyRateAmount r; li_rateCurrency := li_rateCurrency r;
  li_attributes := li_attributes r; li_transportRequirement := li_transportRequirement r;
  li_requiresTwoPersonLift := li_requiresTwoPersonLift r; li_outwardCode := li_outwardCode r;
  li_town := li_town r; li_status := li_status r; li_moderationState := md_state d;
  li_moderationReason := md_reason d; li_moderatedById := Some (md_moderatorId d);
  li_moderatedAt := Some (md_decidedAt d); li_createdAt := li_createdAt r; li_updatedAt := at_ |}.

(** ** Statements *)
Section Store.
Context {Ids : UuidSource} {Order : DescOrder} {Enc : FieldEncryptor}.
(** Which accounts exist. *)
Variable known : string -> bool.
(** What other connections commit between the statements of an operation. *)
Variable rival : Db -> Db.

(** The CHECKs and foreign keys of a listing. *)
Definition listing_invalid (db : Db) (r : ListingRow) : option string :=
  match listing_refusal r with
  | Some why => Some why
  | None =>
      if negb (known (li_ownerId r)) then Some "listings_ownerId_fkey"
      else if negb (has_version db (li_categoryVersionId r) (li_categoryId r))
      then Some "listings_categoryVersionId_categoryId_fkey"
      else if match li_moderatedById r with Some m => negb (known m) | None => false end
      then Some "listings_moderatedById_fkey"
      else None
  end.

Definition insert_listing (r : ListingRow) : M Db () := fun db =>
  match listing_invalid db r with
  | Some why => (db, Err (DatabaseError why))
  | None => (next (with_listings (listings db ++ [r]) db), Ok tt)
  end.

(** [updateMany]: every matching row, or none when one is refused. *)
Definition update_listings (p : ListingRow -> bool) (f : ListingRow -> ListingRow) : M Db nat := fun db =>
  match omap (fun r => if p r then listing_invalid db (f r) else None) (listings db) with
  | why :: _ => (db, Err (DatabaseError why))
  | [] => (with_listings ((fun r => if p r then f r else r) <$> listings db) db,
           Ok (length (List.filter p (listings db))))
  end.

Definition insert_location (l : LocationRow) : M Db () := fun db =>
  match location_refusal l with
  | Some why => (db, Err (DatabaseError why))
  | None =>
      if bool_decide (loc_listingId l ∈ loc_listingId <$> locations db)
      then (db, Err (DatabaseError UNIQUE_VIOLATION))
      else if negb (bool_decide (loc_listingId l ∈ li_id <$> listings db))
      then (db, Err (DatabaseError "listing_locations_listingId_fkey"))
      else (next (with_locations (locations db ++ [l]) db), Ok tt)
  end.

Definition delete_locations (p : string -> bool) : M Db () :=
  modify (fun db => with_locations (List.filter (fun l => negb (p (loc_listingId l))) (locations db)) db).

(** An update of the one row with this key; Prisma throws when there is none. *)
Definition update_location (listingId : string) (f : LocationRow -> LocationRow) : M Db () := fun db =>
  match find_by loc_listingId listingId (locations db) with
  | None => (db, Err (DatabaseError "P2025"))
  | Some l =>
      match location_refusal (f l) with
      | Some why => (db, Err (DatabaseError why))
      | None => (next (with_locations ((fun l => if bool_decide (loc_listingId l = listingId) then f l else l) <$>
                                         locations db) db), Ok tt)
      end
  end.

(** ** Reading *)
Definition joined (db : Db) (r : ListingRow) : result (VersionRow * CategoryRow) :=
  match find_by ver_id (li_categoryVersionId r) (versions db) with
  | None => Err (ForeignError "Inconsistent query result")
  | Some v =>
      match find_by cat_id (ver_categoryId v) (categories db) with
      | None => Err (ForeignError "Inconsistent query result")
      | Some c => Ok (v, c)
      end
  end.

Definition latestVersionOf (db : Db) (v : VersionRow) (c : CategoryRow) : VersionRow :=
  match latest_version (cat_id c) db with Some w => w | None => v end.

Definition location_of (db : Db) (listingId : string) : option LocationRow :=
  find_by loc_listingId listingId (locations db).

Definition toLocation (db : Db) (r : ListingRow) : result (option ListingCollectionLocation) :=
  match location_of db (li_id r) with
  | None => Ok None
  | Some l =>
      detail ← open_ (loc_encryptedDetail l) (li_id r);
      Ok (Some (mkLocation (fst detail) (snd detail) (default "" (li_town r)) (loc_postcode l)))
  end.

Definition isLocated (db : Db) (listingId : string) : bool :=
  match location_of db listingId with
  | Some l => match loc_point l with Some _ => true | None => false end
  | None => false
  end.

Definition toRecord (db : Db) (r : ListingRow) : result ListingRecord :=
  vc ← joined db r;
  let (v, c) := vc : VersionRow * CategoryRow in
  policy ← asFeePolicy (latestVersionOf db v c);
  band ← asDamageSecurity (latestVersionOf db v c);
  content ← asContent r;
  location ← toLocation db r;
  Ok {| lr_id := li_id r; lr_ownerId := li_ownerId r; lr_categorySlug := cat_slug c; lr_categoryName := ver_name v;
        lr_categoryVersionNumber := ver_versionNumber v; lr_categoryAttributes := ver_attributes v;
        lr_currentFeePolicy := policy; lr_currentDamageSecurity := band;
        lr_categoryTransportOptions := ver_transportOptions v; lr_content := content;
        lr_collectionLocation := location; lr_isLocated := isLocated db (li_id r); lr_status := li_status r;
        lr_moderationState := li_moderationState r; lr_moderationReason := li_moderationReason r;
        lr_createdAt := li_createdAt r; lr_updatedAt := li_updatedAt r |}.

Definition optionally {A B} (f : A -> result B) (x : option A) : result (option B) :=
  match x with None => Ok None | Some a => b ← f a; Ok (Some b) end.

Definition is_owned (id ownerId : string) (r : ListingRow) : bool :=
  bool_decide (li_id r = id) && bool_decide (li_ownerId r = ownerId).
Definition owned (id ownerId : string) (db : Db) : option ListingRow := List.find (is_owned id ownerId) (listings db).

Definition findOwnedBy (id ownerId : string) : M Db (option ListingRecord) := fun db =>
  (db, optionally (toRecord db) (owned id ownerId db)).
Definition existsOwnedBy (id ownerId : string) (db : Db) : bool := bool_decide (is_Some (owned id ownerId db)).
Definition ownerOf (id : string) (db : Db) : option string := li_ownerId <$> find_by li_id id (listings db).

Definition findForModeration (id : string) : M Db (option ListingRecord) := fun db =>
  (db, optionally (toRecord db) (find_by li_id id (listings db))).

Definition findFuzzOffset (id ownerId : string) (db : Db) : option StoredFuzzOffset :=
  if existsOwnedBy id ownerId db
  then l ← location_of db id;
       p ← loc_point l;
       Some (mkOffset (fuzzBearingDegrees p) (fuzzDistanceMetres p))
  else None.

Definition listOwnedBy (ownerId : string) (limit : nat) : M Db (list ListingRecord) := fun db =>
  (db, try_map (toRecord db)
         (take limit (order_desc li_createdAt
                        (List.filter (fun r => bool_decide (li_ownerId r = ownerId)) (listings db))))).

Definition listIdsOwnedBy (ownerId : string) (db : Db) : list string :=
  li_id <$> List.filter (fun r => bool_decide (li_ownerId r = ownerId)) (listings db).

(** *** What the public may see *)
Definition PUBLICLY_VISIBLE (r : ListingRow) : bool :=
  bool_decide (li_status r = PUBLISHED) && bool_decide (li_moderationState r = APPROVED).

Definition find_visible (id : string) (db : Db) : option ListingRow :=
  List.find (fun r => bool_decide (li_id r = id) && PUBLICLY_VISIBLE r) (listings db).

(** [PUBLIC_LISTING_MEDIA]: approved pictures in position order. *)
Definition media_before (a b : MediaRow) : Prop :=
  me_position a < me_position b \/
  (me_position a = me_position b /\
   (me_createdAt a < me_createdAt b \/ (me_createdAt a = me_createdAt b /\ String.le (me_id a) (me_id b)))).
#[global] Instance media_before_dec : RelDecision media_before.
Proof. intros a b. unfold media_before. apply _. Defined.
Definition approved_media (db : Db) (listingId : string) : list MediaRow :=
  merge_sort media_before
    (List.filter (fun m => bool_decide (me_listingId m = listingId) &&
                           bool_decide (me_moderationState m = APPROVED)) (media db)).

Definition asQuotable (db : Db) (r : ListingRow) : result Bookings.QuotableListing :=
  vc ← joined db r;
  let (v, c) := vc : VersionRow * CategoryRow in
  let current := latestVersionOf db v c in
  card ← asRateCard r;
  policy ← asFeePolicy current;
  band ← asDamageSecurity current;
  value ← asMoney (li_replacementValueAmount r) (li_replacementValueCurrency r);
  Ok (Bookings.mkListing (li_id r) (li_ownerId r) (li_title r) (ver_name v) card policy band value
        (ver_maximumRentalDays current) (ver_requestExpiryHours current) (ver_id current)).

Definition findQuotable (id : string) : M Db (option Bookings.QuotableListing) := fun db =>
  (db, optionally (asQuotable db) (find_visible id db)).

Definition asPublic (db : Db) (r : ListingRow) (outward town_ : string) : result PublicListingRecord :=
  vc ← joined db r;
  let (v, c) := vc : VersionRow * CategoryRow in
  let current := latestVersionOf db v c in
  policy ← asFeePolicy current;
  band ← asDamageSecurity current;
  content ← asContent r;
  Ok {| pl_id := li_id r; pl_ownerId := li_ownerId r; pl_categorySlug := cat_slug c; pl_categoryName := ver_name v;
        pl_categoryAttributes := ver_attributes v; pl_currentFeePolicy := policy; pl_currentDamageSecurity := band;
        pl_content := content; pl_outwardCode := outward; pl_town := town_;
        pl_media := asPublicMedia <$> approved_media db (li_id r) |}.

Definition findPublished (id : string) : M Db (option PublicListingRecord) := fun db =>
  (db, match find_visible id db with
       | None => Ok None
       | Some r =>
           match li_outwardCode r, li_town r with
           | Some o, Some t => p ← asPublic db r o t; Ok (Some p)
           | _, _ => Ok None
           end
       end).

Definition asSummary (db : Db) (r : ListingRow) : result (list PublicListingSummaryRecord) :=
  vc ← joined db r;
  match li_outwardCode r, li_town r with
  | Some o, Some t =>
      let (v, c) := vc : VersionRow * CategoryRow in
      policy ← asFeePolicy (latestVersionOf db v c);
      card ← asRateCard r;
      Ok [mkSummary (li_id r) (li_ownerId r) (ver_name v) policy (li_title r) card o t
            (thumbnail_of <$> head (approved_media db (li_id r)))]
  | _, _ => Ok []
  end.

Definition findPublishedSummaries (ids : list string) : M Db (list PublicListingSummaryRecord) := fun db =>
  (db, found ← try_map (asSummary db)
         (List.filter (fun r => bool_decide (li_id r ∈ ids) && PUBLICLY_VISIBLE r) (listings db));
       Ok (concat found)).

(** *** What owners may choose from *)
Definition toOption (slug : string) (v : VersionRow) : CategoryOptionRecord :=
  mkOptionRecord slug (ver_name v) (ver_attributes v) (ver_transportOptions v) (ver_versionNumber v).

Definition findOption (slug : string) (db : Db) : option CategoryOptionRecord :=
  c ← by_slug slug db; v ← latest_version (cat_id c) db; Some (toOption slug v).

Definition listOptions (limit : nat) (db : Db) : list CategoryOptionRecord :=
  omap (fun c => toOption (cat_slug c) <$> latest_version (cat_id c) db) (oldest_categories limit db).

Definition findCategoryId (slug : string) (db : Db) : option string := cat_id <$> by_slug slug db.

Definition listCategoryNames (limit : nat) (db : Db) : list (string * string) :=
  omap (fun c => (fun v => (cat_slug c, ver_name v)) <$> latest_version (cat_id c) db) (oldest_categories limit db).

(** ** Writing *)
Definition draft_row (id ownerId categoryId versionId : string) (at_ : instant) : ListingRow := {|
  li_id := id; li_ownerId := ownerId; li_categoryId := categoryId; li_categoryVersionId := versionId;
  li_title := ""; li_description := ""; li_replacementValueAmount := 0; li_replacementValueCurrency := "";
  li_dailyRateAmount := None; li_weekendRateAmount := None; li_weeklyRateAmount := None; li_rateCurrency := "GBP";
  li_attributes := ∅; li_transportRequirement := None; li_requiresTwoPersonLift := false;
  li_outwardCode := None; li_town := None; li_status := DRAFT; li_moderationState := APPROVED;
  li_moderationReason := None; li_moderatedById := None; li_moderatedAt := None;
  li_createdAt := at_; li_updatedAt := at_ |}.

(** [this.encrypt(listingId, { line1, line2 })] *)
Definition encrypt (db : Db) (listingId : string) (l : ListingCollectionLocation) : string :=
  seal (cseq db) (line1 l, line2 l) listingId.

Definition location_row (db : Db) (listingId : string) (l : ListingCollectionLocation)
    (point : option LocatedListingPoint) : LocationRow :=
  mkLocationRow listingId (postcode l) (encrypt db listingId l) point (cclock db) (cclock db).

Definition write_draft (d : ListingDraft) (v : VersionRow) : M Db ListingRow :=
  transaction
    (columns ← lift (location_columns (dr_collectionLocation d));
     r ← gets (fun db => with_content (ver_id v) (dr_content d) columns (cclock db)
                 (draft_row (uuid (cseq db)) (dr_ownerId d) (ver_categoryId v) (ver_id v) (cclock db)));
     _ ← insert_listing r;
     match dr_collectionLocation d with
     | None => mret r
     | Some l =>
         row ← gets (fun db => location_row db (li_id r) l (dr_locatedPoint d));
         _ ← insert_location row;
         mret r
     end).

Definition createDraft (d : ListingDraft) : M Db ListingRecord :=
  category ← gets (by_slug (dr_categorySlug d));
  match category with
  | None => throw (UnknownCategoryError (dr_categorySlug d))
  | Some c =>
      current ← gets (latest_version (cat_id c));
      match current with
      | None => throw (UnknownCategoryError (dr_categorySlug d))
      | Some v =>
          if negb (ver_versionNumber v =? dr_categoryVersionNumber d)
          then throw (CategoryChangedError (dr_categorySlug d) (dr_categoryVersionNumber d) (ver_versionNumber v))
          else
            _ ← modify rival;
            r ← write_draft d v;
            record ← gets (fun db => toRecord db r);
            lift record
      end
  end.

Definition with_address (db : Db) (l : ListingCollectionLocation) (point : option LocatedListingPoint)
    (row : LocationRow) : LocationRow :=
  mkLocationRow (loc_listingId row) (postcode l) (encrypt db (loc_listingId row) l) point (loc_createdAt row) (cclock db).

Definition writeLocation (listingId : string) (e : CollectionLocationEdit) : M Db () := fun db =>
  match e with
  | cleared => delete_locations (fun i => bool_decide (i = listingId)) db
  | address_only l => update_location listingId (fun row => with_address db l (loc_point row) row) db
  | relocated l point =>
      match location_of db listingId with
      | None => insert_location (location_row db listingId l point) db
      | Some _ => update_location listingId (with_address db l point) db
      end
  end.

(** The transaction of [update]: whether the listing was still there. *)
Definition write_edit (id ownerId : string) (e : ListingEdit) (v : VersionRow) : M Db bool :=
  transaction
    (columns ← lift (publishableLocationColumns (ed_collectionLocation e));
     at_ ← gets cclock;
     count ← update_listings (is_owned id ownerId) (with_content (ver_id v) (ed_content e) columns at_);
     if (count =? 0)%nat then mret false
     else _ ← writeLocation id (ed_collectionLocation e); mret true).

Definition update (id ownerId : string) (e : ListingEdit) : M Db (option ListingRecord) :=
  existing ← gets (owned id ownerId);
  match existing with
  | None => mret None
  | Some r =>
      vc ← gets (fun db => joined db r);
      vc ← lift vc;
      _ ← modify rival;
      current ← gets (latest_version (li_categoryId r));
      match current with
      | None => mret None
      | Some v =>
          if negb (ver_versionNumber v =? ed_categoryVersionNumber e)
          then throw (CategoryChangedError (cat_slug (snd (vc : VersionRow * CategoryRow)))
                        (ed_categoryVersionNumber e) (ver_versionNumber v))
          else
            _ ← modify rival;
            written ← write_edit id ownerId e v;
            if negb written then mret None
            else _ ← modify rival; findOwnedBy id ownerId
      end
  end.

Definition set_status (id ownerId : string) (s : ListingStatus) : M Db nat :=
  at_ ← gets cclock; update_listings (is_owned id ownerId) (with_status s at_).

Definition publish (id ownerId : string) : M Db (option ListingRecord) :=
  count ← set_status id ownerId PUBLISHED;
  if (count =? 0)%nat then mret None else _ ← modify rival; findOwnedBy id ownerId.

Definition pause (id ownerId : string) : M Db (option ListingRecord) :=
  count ← set_status id ownerId PAUSED;
  if (count =? 0)%nat then mret None else _ ← modify rival; findOwnedBy id ownerId.

Definition set_moderation (d : ModerationDecision) : M Db () :=
  at_ ← gets cclock;
  count ← update_listings (fun r => bool_decide (li_id r = md_listingId d)) (with_moderation d at_);
  if (count =? 0)%nat then throw (DatabaseError "P2025") else mret tt.

Definition moderate (d : ModerationDecision) : M Db (option ListingRecord) :=
  existing ← gets (fun db => find_by li_id (md_listingId d) (listings db));
  match existing with
  | None => mret None
  | Some _ =>
      _ ← modify rival;
      _ ← set_moderation d;
      _ ← modify rival;
      findForModeration (md_listingId d)
  end.

(** [deleteMany] on listings: addresses and pictures go with them, and a listing
    that a booking names, as [referenced] says, stops the deletion. *)
Definition delete_listings (referenced : string -> bool) (p : ListingRow -> bool) : M Db () := fun db =>
  let gone := li_id <$> List.filter p (listings db) in
  if existsb referenced gone then (db, Err (DatabaseError "bookings_listingId_fkey"))
  else (with_media (List.filter (fun m => bool_decide (me_listingId m ∉ gone)) (media db))
          (with_locations (List.filter (fun l => bool_decide (loc_listingId l ∉ gone)) (locations db))
             (with_listings (List.filter (fun r => negb (p r)) (listings db)) db)), Ok tt).

Definition eraseOwnedBy (referenced : string -> bool) (ownerId : string) (retained : list string) : M Db () :=
  transaction
    (_ ← delete_locations (fun i => bool_decide (i ∈ retained));
     delete_listings referenced
       (fun r => bool_decide (li_ownerId r = ownerId) && bool_decide (li_id r ∉ retained))).
End Store.
End ListingDb.
