(* ===== verification/ListingRows.v ===== *)
(** * Categories and listings: what statements do to the tables

    [step] is what one statement of a request does to the catalogue's tables, by
    whom, and with what the request has checked by then; [reach] is any number of
    them.  [catalogue_wf] is what holds of the tables at every moment: ids and slugs are
    distinct, the versions of a category are numbered from one, every version passes
    the margin rule, every listing's answers fit the version it is pinned to, and
    every stored address can be decrypted and is in the area its listing shows. *)

From Stdlib Require String.
From S2P Require Import Prelude JsNumber Text Money Ledger LedgerStore Pricing.
From S2P Require Import Columns AuditLog CoreText Answers AnswersProofs UnitEconomics CatalogueStore ListingStore.

#[local] Open Scope string_scope.
#[local] Open Scope list_scope.
#[local] Open Scope Z_scope.

Import Money Pricing Attributes Transport Publication CatalogueDb ListingDb.

(** ** What the contracts let through *)
Definition in_pounds (m : Money) : Prop := currency m = "GBP".
Definition card_in_pounds (c : ListingRateCard) : Prop :=
  forall m, daily c = Some m \/ weekend c = Some m \/ weekly c = Some m -> in_pounds m.

Definition meets_rule (policy : CategoryFeePolicy) : Prop :=
  exists verdict, MarginRule.meetsMarginRule policy = Ok verdict /\ MarginRule.meetsRule verdict = true.

Record lawful_configuration (c : CategoryConfiguration) : Prop := {
  lc_schema : lawful_schema (cc_attributes c);
  lc_policy : in_pounds (minimumBookingTotal (cc_feePolicy c)) /\ in_pounds (minimumPlatformFee (cc_feePolicy c));
  lc_band : forall p, cc_damageSecurity c = Some p -> in_pounds (excessFloor p) /\ in_pounds (recoveryCeiling p) }.

(** The content of a listing answers the questions of a version of its category. *)
Record content_fits (v : VersionRow) (c : ListingContent) : Prop := {
  cf_answers : forall a x, a ∈ ver_attributes v -> attributes c !! attr_key a = Some x -> AnswersProofs.fits (attr_type a) x;
  cf_others : forall k, is_Some (attributes c !! k) -> k ∈ attr_key <$> ver_attributes v;
  cf_transport : forall t, transportRequirement c = Some t ->
    offersTransportRequirement (ver_transportOptions v) t = true;
  cf_pounds : in_pounds (replacementValue c) /\ card_in_pounds (rates c) }.

(** ** Well-formed tables *)
Definition policy_of (v : VersionRow) : CategoryFeePolicy := {|
  ownerCommissionBasisPoints := ver_ownerCommissionBasisPoints v;
  renterFeeBasisPoints := ver_renterFeeBasisPoints v;
  minimumBookingTotal := mkMoney (ver_minimumBookingTotalAmount v) (ver_minimumBookingTotalCurrency v);
  minimumPlatformFee := mkMoney (ver_minimumPlatformFeeAmount v) (ver_minimumPlatformFeeCurrency v) |}.

Definition of_category (categoryId : string) (db : Db) : list VersionRow :=
  List.filter (fun v => bool_decide (ver_categoryId v = categoryId)) (versions db).

Record version_ok (v : VersionRow) : Prop := {
  vo_checks : version_refusal v = None;
  vo_schema : lawful_schema (ver_attributes v);
  vo_pounds : ver_minimumBookingTotalCurrency v = "GBP" /\ ver_minimumPlatformFeeCurrency v = "GBP";
  vo_band : exists band, asDamageSecurity v = Ok band;
  vo_margin : meets_rule (policy_of v) }.

Record listing_ok (db : Db) (r : ListingRow) : Prop := {
  lo_checks : listing_refusal r = None;
  lo_content : exists v c, v ∈ versions db /\ ver_id v = li_categoryVersionId r /\
    ver_categoryId v = li_categoryId r /\ asContent r = Ok c /\ content_fits v c }.

Section Rows.
Context {Ids : UuidSource} {Pg : PgTypes} {Order : DescOrder} {Enc : FieldEncryptor}.

Record location_ok (db : Db) (l : LocationRow) : Prop := {
  lk_checks : location_refusal l = None;
  lk_area : exists r o, r ∈ listings db /\ li_id r = loc_listingId l /\
    Postcode.outwardCode (loc_postcode l) = Ok o /\ li_outwardCode r = Some o /\ is_Some (li_town r);
  lk_sealed : exists n detail, loc_encryptedDetail l = seal n detail (loc_listingId l) }.

Record catalogue_wf (db : Db) : Prop := {
  wf_category_ids : NoDup (cat_id <$> categories db);
  wf_category_issued : Forall (issued (cseq db)) (cat_id <$> categories db);
  wf_slugs : NoDup (cat_slug <$> categories db);
  wf_version_ids : NoDup (ver_id <$> versions db);
  wf_version_issued : Forall (issued (cseq db)) (ver_id <$> versions db);
  wf_versions : Forall version_ok (versions db);
  wf_version_categories : Forall (fun v => ver_categoryId v ∈ cat_id <$> categories db) (versions db);
  wf_numbered : forall c, c ∈ categories db -> exists n,
    ver_versionNumber <$> of_category (cat_id c) db = Z.of_nat <$> seq 1 (S n);
  wf_listing_ids : NoDup (li_id <$> listings db);
  wf_listing_issued : Forall (issued (cseq db)) (li_id <$> listings db);
  wf_listings : Forall (listing_ok db) (listings db);
  wf_location_ids : NoDup (loc_listingId <$> locations db);
  wf_locations : Forall (location_ok db) (locations db) }.

Lemma wf_empty_catalogue (t : instant) : catalogue_wf (empty_db t).
Proof. split; cbn; try constructor. by intros c Hc%elem_of_nil. Qed.

(** ** Statements *)
Inductive party : Type := an_administrator | an_owner (ownerId : string) | a_moderator | the_system.

Inductive step : party -> Db -> Db -> Prop :=
  | s_category known slug conf author db :
      lawful_configuration conf -> meets_rule (cc_feePolicy conf) ->
      step an_administrator db (fst (CatalogueDb.create known slug conf author db))
  | s_version known categoryId n conf author db :
      lawful_configuration conf -> meets_rule (cc_feePolicy conf) ->
      (exists v, v ∈ versions db /\ ver_categoryId v = categoryId /\ ver_versionNumber v = n) ->
      step an_administrator db (fst (insert_version known categoryId (n + 1) conf author db))
  | s_draft known d v db :
      v ∈ versions db -> content_fits v (dr_content d) ->
      step (an_owner (dr_ownerId d)) db (fst (write_draft known d v db))
  | s_edit known id ownerId e v db :
      v ∈ versions db -> content_fits v (ed_content e) ->
      step (an_owner ownerId) db (fst (write_edit known id ownerId e v db))
  | s_status known id ownerId s db :
      step (an_owner ownerId) db (fst (set_status known id ownerId s db))
  | s_moderate known d db :
      step a_moderator db (fst (set_moderation known d db))
  | s_erase referenced ownerId retained db :
      (forall r, r ∈ listings db -> li_id r ∈ retained -> li_ownerId r = ownerId) ->
      step (an_owner ownerId) db (fst (eraseOwnedBy referenced ownerId retained db))
  | s_audit t db : step the_system db (with_ctrail t db)
  | s_media m db : step the_system db (with_media m db)
  | s_clock t db :
      step the_system db (mkDb (categories db) (versions db) (listings db) (locations db) (media db)
                            (ctrail db) (cseq db) t).

Definition reach (who : party -> Prop) : Db -> Db -> Prop := rtc (fun db db' => exists p, who p /\ step p db db').

#[export] Instance reach_preorder (who : party -> Prop) : PreOrder (reach who).
Proof. unfold reach. apply _. Qed.

Lemma reach_weaken (who who' : party -> Prop) (db db' : Db) :
  (forall p, who p -> who' p) -> reach who db db' -> reach who' db db'.
Proof. intros Hw. apply rtc_subrel. intros a b (p & Hp & Hs). exists p. auto. Qed.

Lemma reach_step (who : party -> Prop) (p : party) (db db' : Db) : who p -> step p db db' -> reach who db db'.
Proof. intros Hp Hs. apply rtc_once. by exists p. Qed.

(** ** Columns *)
Lemma money_pounds (z : Z) : Js.is_safe z = true -> asMoney z "GBP" = Ok (mkMoney z "GBP").
Proof. intros H. unfold asMoney, money. by rewrite H. Qed.

Lemma in_pounds_eta (m : Money) : in_pounds m -> mkMoney (amount m) "GBP" = m.
Proof. destruct m. cbn. by intros ->. Qed.

Lemma rate_stored (m : option Money) :
  (forall x, m = Some x -> in_pounds x /\ Js.is_safe (amount x) = true) -> rate (amount <$> m) "GBP" = Ok m.
Proof.
  intros H. destruct m as [x|]; [|done]. destruct (H x eq_refl) as [Hp Hs]. cbn. rewrite money_pounds by done.
  by rewrite in_pounds_eta.
Qed.

Lemma rate_currency_pounds (c : ListingRateCard) : card_in_pounds c -> rate_currency c = "GBP".
Proof.
  intros H. unfold rate_currency. destruct (daily c) eqn:D; [apply H; auto|].
  destruct (weekend c) eqn:E; [apply H; auto|]. destruct (weekly c) eqn:F; [apply H; auto|done].
Qed.

Lemma refusal_none (r : ListingRow) : listing_refusal r = None ->
  LedgerDb.fits_int4 (li_replacementValueAmount r) = true /\
  (li_outwardCode r = None <-> li_town r = None) /\
  rate_in_bounds (li_dailyRateAmount r) = true /\ rate_in_bounds (li_weekendRateAmount r) = true /\
  rate_in_bounds (li_weeklyRateAmount r) = true /\
  (li_moderationState r <> APPROVED ->
   exists why, li_moderationReason r = Some why /\ LedgerDb.btrim_empty why = false) /\
  (li_moderatedById r = None <-> li_moderatedAt r = None).
Proof.
  unfold listing_refusal. intros H.
  repeat match goal with H : (if ?b then Some _ else _) = None |- _ => destruct b eqn:?; [done|] end.
  rewrite ?negb_false_iff, ?andb_true_iff, ?andb_false_iff, ?bool_decide_eq_true, ?bool_decide_eq_false in *.
  destruct_and!. split_and!; try done. intros Hs. destruct (li_moderationReason r) as [why|]; [|naive_solver].
  exists why. split; [done|]. naive_solver.
Qed.

Lemma int4_safe (z : Z) : LedgerDb.fits_int4 z = true -> Js.is_safe z = true.
Proof. unfold LedgerDb.fits_int4. unfold Js.is_safe, Js.MAX_SAFE_INTEGER. lia. Qed.

Lemma bounded_safe (m : option Money) (x : Money) :
  rate_in_bounds (amount <$> m) = true -> m = Some x -> Js.is_safe (amount x) = true.
Proof. intros H ->. cbn in H. unfold Js.is_safe, Js.MAX_SAFE_INTEGER. lia. Qed.

(** Content is read back as it was written. *)
Lemma content_stored (versionId : string) (c : ListingContent) (columns : option string * option string)
    (at_ : instant) (r : ListingRow) :
  in_pounds (replacementValue c) -> card_in_pounds (rates c) ->
  listing_refusal (with_content versionId c columns at_ r) = None ->
  asContent (with_content versionId c columns at_ r) = Ok c.
Proof.
  intros Hv Hc (H4 & _ & Hd & He & Hw & _)%refusal_none. cbn in H4, Hd, He, Hw. unfold asContent. cbn.
  rewrite Hv, money_pounds by by apply int4_safe. unfold_result. unfold asRateCard. cbn.
  rewrite (rate_currency_pounds _ Hc), !rate_stored; cbn.
  { unfold_result. rewrite in_pounds_eta by done. by destruct c as [? ? ? ? ? ? []]. }
  all: intros x Hx; split; [apply Hc; auto|by eapply bounded_safe; [|exact Hx]].
Qed.

(** ** What the statements on listings do *)
Lemma listing_valid (known : string -> bool) (db : Db) (r : ListingRow) :
  listing_invalid known db r = None ->
  listing_refusal r = None /\ known (li_ownerId r) = true /\
  (forall m, li_moderatedById r = Some m -> known m = true) /\
  exists v, v ∈ versions db /\ ver_id v = li_categoryVersionId r /\ ver_categoryId v = li_categoryId r.
Proof.
  unfold listing_invalid. destruct (listing_refusal r) eqn:Hr; [done|]. intros H.
  repeat match goal with H : (if ?b then Some _ else _) = None |- _ => destruct b eqn:?; [done|] end.
  rewrite negb_false_iff in *. split_and!; [done|done| |].
  - intros m Hm. rewrite Hm in *. by apply negb_false_iff.
  - unfold has_version in *. apply existsb_exists in Heqb0 as (v & Hv & Hb).
    rewrite andb_true_iff, !bool_decide_eq_true in Hb. exists v. by rewrite list_elem_of_In.
Qed.

Lemma insert_listing_cases (known : string -> bool) (r : ListingRow) (db db' : Db) (x : result ()) :
  insert_listing known r db = (db', x) ->
  (db' = db /\ exists why, x = Err (DatabaseError why)) \/
  (listing_invalid known db r = None /\ db' = next (with_listings (listings db ++ [r]) db) /\ x = Ok tt).
Proof. unfold insert_listing. destruct (listing_invalid _ _ _); intros [= <- <-]; [left; eauto|by right]. Qed.

Lemma update_listings_cases (known : string -> bool) (p : ListingRow -> bool) (f : ListingRow -> ListingRow)
    (db db' : Db) (x : result nat) :
  update_listings known p f db = (db', x) ->
  (db' = db /\ exists why, x = Err (DatabaseError why)) \/
  ((forall r, r ∈ listings db -> p r = true -> listing_invalid known db (f r) = None) /\
   db' = with_listings ((fun r => if p r then f r else r) <$> listings db) db /\
   x = Ok (length (List.filter p (listings db)))).
Proof.
  unfold update_listings. destruct (omap _ _) as [|why l] eqn:E; intros [= <- <-]; [right|left; eauto].
  split; [|done]. intros r Hr Hp. destruct (listing_invalid known db (f r)) as [why|] eqn:Hi; [|done]. exfalso.
  eapply (elem_of_nil why). rewrite <- E. apply list_elem_of_omap. exists r. by rewrite Hp, Hi.
Qed.

Lemma insert_location_cases (l : LocationRow) (db db' : Db) (x : result ()) :
  insert_location l db = (db', x) ->
  (db' = db /\ exists why, x = Err (DatabaseError why)) \/
  (location_refusal l = None /\ loc_listingId l ∉ loc_listingId <$> locations db /\
   loc_listingId l ∈ li_id <$> listings db /\
   db' = next (with_locations (locations db ++ [l]) db) /\ x = Ok tt).
Proof.
  unfold insert_location. destruct (location_refusal l); [intros [= <- <-]; left; eauto|].
  case_bool_decide; [intros [= <- <-]; left; eauto|]. case_bool_decide; cbn; intros [= <- <-]; [by right|left; eauto].
Qed.

Lemma update_location_cases (i : string) (f : LocationRow -> LocationRow) (db db' : Db) (x : result ()) :
  update_location i f db = (db', x) ->
  (db' = db /\ exists why, x = Err (DatabaseError why)) \/
  (exists l, find_by loc_listingId i (locations db) = Some l /\ location_refusal (f l) = None /\
   db' = next (with_locations ((fun l => if bool_decide (loc_listingId l = i) then f l else l) <$> locations db) db) /\
   x = Ok tt).
Proof.
  unfold update_location. destruct (find_by _ _ _) as [l|]; [|intros [= <- <-]; left; eauto].
  destruct (location_refusal (f l)) eqn:E; intros [= <- <-]; [left; eauto|right; eauto].
Qed.

(** ** The tables of listings stay well formed *)
Lemma listing_ok_versions (db db' : Db) (r : ListingRow) :
  (forall v, v ∈ versions db -> v ∈ versions db') -> listing_ok db r -> listing_ok db' r.
Proof. intros Hv [? (v & c & ? & ?)]. split; [done|]. exists v, c. auto. Qed.

(** Tables that differ in their listings and addresses only. *)
Lemma wf_store (db db' : Db) :
  catalogue_wf db -> categories db' = categories db -> versions db' = versions db -> (cseq db <= cseq db')%nat ->
  NoDup (li_id <$> listings db') -> Forall (issued (cseq db')) (li_id <$> listings db') ->
  Forall (listing_ok db) (listings db') ->
  NoDup (loc_listingId <$> locations db') -> Forall (location_ok db') (locations db') -> catalogue_wf db'.
Proof.
  intros [] Hc Hv Hs Hl Hi Hok Hll Hlok.
  assert (forall l, Forall (issued (cseq db)) l -> Forall (issued (cseq db')) l) as Hmono.
  { intros l H. eapply Forall_impl; [exact H|]. intros i. by apply issued_mono. }
  split; rewrite ?Hc, ?Hv; auto.
  - unfold of_category. rewrite Hv. exact wf_numbered0.
  - eapply Forall_impl; [exact Hok|]. intros r. apply listing_ok_versions. by rewrite Hv.
Qed.

Lemma wf_same (db db' : Db) :
  catalogue_wf db -> categories db' = categories db -> versions db' = versions db -> cseq db' = cseq db ->
  listings db' = listings db -> locations db' = locations db -> catalogue_wf db'.
Proof.
  intros Hwf Hc Hv Hs Hl Hlo. apply (wf_store db); rewrite ?Hs, ?Hl, ?Hlo; try done; try apply Hwf.
  eapply Forall_impl; [apply (wf_locations _ Hwf)|]. intros l [H1 (r & o & Hr) H3]. split; [done| |done].
  exists r, o. by rewrite Hl.
Qed.

Lemma fmap_keeps {A B} (f : A -> B) (g : A -> A) (l : list A) :
  (forall x, f (g x) = f x) -> f <$> (g <$> l) = f <$> l.
Proof. intros H. induction l as [|x l IH]; cbn; [done|]. by rewrite H, <- IH. Qed.

(** A change to each listing that keeps its id and where it is. *)
Lemma wf_map_listings (g : ListingRow -> ListingRow) (db : Db) :
  catalogue_wf db -> (forall r, li_id (g r) = li_id r /\ li_outwardCode (g r) = li_outwardCode r /\ li_town (g r) = li_town r) ->
  (forall r, r ∈ listings db -> listing_ok db (g r)) -> catalogue_wf (with_listings (g <$> listings db) db).
Proof.
  intros Hwf Hg Hok.
  assert (li_id <$> (g <$> listings db) = li_id <$> listings db) as Hids.
  { apply fmap_keeps. intros r. apply Hg. }
  apply (wf_store db); cbn; rewrite ?Hids; try done; try apply Hwf.
  - apply Forall_fmap, Forall_forall. exact Hok.
  - eapply Forall_impl; [apply (wf_locations _ Hwf)|]. intros l [H1 (r & o & Hr & Hi & Ho & Hc & Ht) H3].
    split; [done| |done]. destruct (Hg r) as (Gi & Gc & Gt). exists (g r), o. cbn. rewrite Gi, Gc, Gt.
    split_and!; try done. by apply list_elem_of_fmap_2.
Qed.

Lemma listing_ok_at (db : Db) (r : ListingRow) : catalogue_wf db -> r ∈ listings db -> listing_ok db r.
Proof. intros Hwf. pose proof (wf_listings _ Hwf) as H. rewrite Forall_forall in H. auto. Qed.

(** An update of the rows that satisfy [p] which leaves content, id and area alone. *)
Lemma wf_update_listings (known : string -> bool) (p : ListingRow -> bool) (f : ListingRow -> ListingRow) (db : Db) :
  catalogue_wf db ->
  (forall r, li_id (f r) = li_id r /\ li_outwardCode (f r) = li_outwardCode r /\ li_town (f r) = li_town r) ->
  (forall r, asContent (f r) = asContent r /\ li_categoryVersionId (f r) = li_categoryVersionId r /\
     li_categoryId (f r) = li_categoryId r) ->
  catalogue_wf (fst (update_listings known p f db)).
Proof.
  intros Hwf Hf Hc. destruct (update_listings known p f db) as [db' x] eqn:E. cbn.
  apply update_listings_cases in E as [[-> _]|(Hok & -> & _)]; [done|]. apply wf_map_listings; [done| |].
  - intros r. destruct (p r); [apply Hf|done].
  - intros r Hr. pose proof (listing_ok_at db r Hwf Hr) as Hr'. destruct (p r) eqn:Hp; [|done].
    destruct (Hc r) as (H1 & H2 & H3). destruct Hr' as [_ (v & c & Hv)].
    split; [by apply (listing_valid known db), Hok|]. exists v, c. by rewrite H1, H2, H3.
Qed.

Lemma wf_set_status (known : string -> bool) (id ownerId : string) (st : ListingStatus) (db : Db) :
  catalogue_wf db -> catalogue_wf (fst (set_status known id ownerId st db)).
Proof. intros Hwf. by apply wf_update_listings. Qed.

Lemma bind_mret_fst {S A B} (m : M S A) (f : A -> M S B) (s : S) :
  (forall a s', fst (f a s') = s') -> fst (mbind f m s) = fst (m s).
Proof. intros H. rewrite bind_at. destruct (m s) as [s' [a|e]]; [apply H|done]. Qed.

Lemma wf_set_moderation (known : string -> bool) (d : ModerationDecision) (db : Db) :
  catalogue_wf db -> catalogue_wf (fst (set_moderation known d db)).
Proof.
  intros Hwf. unfold set_moderation. run_binds. rewrite <- bind_at, bind_mret_fst.
  - by apply wf_update_listings.
  - intros n db'. by destruct (n =? 0)%nat.
Qed.

(** *** Addresses *)
Lemma location_ok_listings (db db' : Db) (l : LocationRow) :
  listings db' = listings db -> location_ok db l -> location_ok db' l.
Proof. intros Hl [H1 (r & o & Hr) H3]. split; [done| |done]. exists r, o. by rewrite Hl. Qed.

(** Addresses replaced, when each is well formed. *)
Lemma wf_locations_only (db : Db) (l : list LocationRow) :
  catalogue_wf db -> NoDup (loc_listingId <$> l) -> Forall (location_ok db) l -> catalogue_wf (next (with_locations l db)).
Proof.
  intros Hwf Hn Hl. apply (wf_store db); cbn; try done; try apply Hwf; [lia| |].
  - eapply Forall_impl; [apply (wf_listing_issued _ Hwf)|]. intros i. apply issued_mono. lia.
  - eapply Forall_impl; [exact Hl|]. intros x. by apply location_ok_listings.
Qed.

Lemma wf_insert_location (row : LocationRow) (db : Db) :
  catalogue_wf db -> loc_listingId row ∉ loc_listingId <$> locations db -> location_ok db row ->
  catalogue_wf (next (with_locations (locations db ++ [row]) db)).
Proof.
  intros Hwf Hn Hok. apply wf_locations_only; [done| |].
  - rewrite fmap_app. apply NoDup_snoc; [apply Hwf|done].
  - apply Forall_app. split; [apply Hwf|by constructor].
Qed.

(** *** Drafts *)
Lemma write_draft_cases (known : string -> bool) (d : ListingDraft) (v : VersionRow) (db db' : Db) (x : result ListingRow) :
  write_draft known d v db = (db', x) ->
  (db' = db /\ exists e, x = Err e) \/
  (exists columns, location_columns (dr_collectionLocation d) = Ok columns /\
    let r := with_content (ver_id v) (dr_content d) columns (cclock db)
               (draft_row (uuid (cseq db)) (dr_ownerId d) (ver_categoryId v) (ver_id v) (cclock db)) in
    let db1 := next (with_listings (listings db ++ [r]) db) in
    listing_invalid known db r = None /\ x = Ok r /\
    match dr_collectionLocation d with
    | None => db' = db1
    | Some l => let row := location_row db1 (li_id r) l (dr_locatedPoint d) in
        location_refusal row = None /\ loc_listingId row ∉ loc_listingId <$> locations db1 /\
        db' = next (with_locations (locations db1 ++ [row]) db1)
    end).
Proof.
  unfold write_draft, transaction. run_binds. destruct (location_columns _) as [columns|e]; [|intros [= <- <-]; left; eauto].
  run_binds. destruct (insert_listing _ _ _) as [db1 x1] eqn:E.
  apply insert_listing_cases in E as [(-> & why & ->)|(Hok & -> & ->)]; [intros [= <- <-]; left; eauto|].
  destruct (dr_collectionLocation d) as [l|].
  - run_binds. destruct (insert_location _ _) as [db2 x2] eqn:E.
    apply insert_location_cases in E as [(-> & why & ->)|(Hl & Hn & _ & -> & ->)]; [intros [= <- <-]; left; eauto|].
    cbn. intros [= <- <-]. right. by exists columns.
  - intros [= <- <-]. right. by exists columns.
Qed.

Lemma wf_write_draft (known : string -> bool) (d : ListingDraft) (v : VersionRow) (db : Db) :
  catalogue_wf db -> v ∈ versions db -> content_fits v (dr_content d) -> catalogue_wf (fst (write_draft known d v db)).
Proof.
  intros Hwf Hv Hc. destruct (write_draft known d v db) as [db' x] eqn:E. cbn.
  apply write_draft_cases in E as [[-> _]|(columns & Hcol & Hok & -> & Hdb)]; [done|].
  set (r := with_content _ _ _ _ _) in *. set (db1 := next _) in *.
  destruct (listing_valid _ _ _ Hok) as (Hr & _).
  assert (listing_ok db r) as Hrok.
  { split; [done|]. exists v, (dr_content d). split_and!; try done.
    destruct (cf_pounds _ _ Hc). by apply content_stored. }
  assert (catalogue_wf db1) as Hwf1.
  { apply (wf_store db); cbn; rewrite ?fmap_app; try done; try apply Hwf; [lia| | | |].
    - apply NoDup_snoc; [apply Hwf|]. pose proof (wf_listing_issued _ Hwf) as Hi. rewrite Forall_forall in Hi.
      intros Hin. apply (issued_fresh (cseq db)), Hi, Hin.
    - apply Forall_app. split; [|by repeat constructor; exists (cseq db); split; [lia|]].
      eapply Forall_impl; [apply (wf_listing_issued _ Hwf)|]. intros i. apply issued_mono. lia.
    - apply Forall_app. split; [apply Hwf|by constructor].
    - eapply Forall_impl; [apply (wf_locations _ Hwf)|]. intros l [H1 (r' & o & Hr' & ?) H3]. split; [done| |done].
      exists r', o. split; [|done]. cbn. apply elem_of_app. by left. }
  destruct (dr_collectionLocation d) as [l|] eqn:Hl; [|by subst db'].
  cbv zeta in Hdb. destruct Hdb as (Href & Hnew & ->). set (row := location_row _ _ _ _) in *.
  assert (exists o, Postcode.outwardCode (postcode l) = Ok o /\ columns = (Some o, Some (town l))) as (o & Ho & ->).
  { unfold location_columns in Hcol. destruct (Postcode.outwardCode _) as [o|]; [|done]. injection Hcol as <-. by exists o. }
  apply wf_insert_location; [done..|]. split; [done| |by eexists _, _].
  exists r, o. cbn. split_and!; try done. apply elem_of_app. right. left.
Qed.

(** *** Edits *)
Lemma find_location (db : Db) (i : string) (l : LocationRow) :
  find_by loc_listingId i (locations db) = Some l -> l ∈ locations db /\ loc_listingId l = i.
Proof. apply find_by_Some. Qed.

Lemma filter_locations_ok (q : LocationRow -> bool) (db db' : Db) :
  catalogue_wf db -> (forall l, location_ok db l -> q l = true -> location_ok db' l) ->
  NoDup (loc_listingId <$> List.filter q (locations db)) /\ Forall (location_ok db') (List.filter q (locations db)).
Proof.
  intros Hwf Hok. split; [apply NoDup_bfilter, Hwf|]. apply Forall_forall. intros l [Hl Hq]%elem_of_bfilter.
  pose proof (wf_locations _ Hwf) as Hall. rewrite Forall_forall in Hall. auto.
Qed.

(** What [writeLocation] is about to make of the address, on a listing whose
    columns have been written. *)
Lemma wf_write_location (known : string -> bool) (i : string) (e : CollectionLocationEdit) (db1 : Db) :
  NoDup (loc_listingId <$> locations db1) ->
  (forall l, l ∈ locations db1 -> loc_listingId l <> i -> location_ok db1 l) ->
  catalogue_wf (with_locations (List.filter (fun l => negb (bool_decide (loc_listingId l = i))) (locations db1)) db1) ->
  (forall l, edited_location e = Some l -> exists r o, r ∈ listings db1 /\ li_id r = i /\
     Postcode.outwardCode (postcode l) = Ok o /\ li_outwardCode r = Some o /\ is_Some (li_town r)) ->
  forall db2 u, writeLocation i e db1 = (db2, Ok u) -> catalogue_wf db2.
Proof.
  intros Hnd Hothers Hwf Harea db2 u. unfold writeLocation.
  assert (forall row l, edited_location e = Some l -> loc_listingId row = i -> loc_postcode row = postcode l ->
    location_refusal row = None -> (exists n detail, loc_encryptedDetail row = seal n detail i) -> location_ok db1 row) as Hrow.
  { intros row l He Hi Hp Href Hs. split; [done| |by rewrite Hi].
    destruct (Harea l He) as (r & o & Hr & Hri & Ho & ?). exists r, o. by rewrite Hi, Hp. }
  assert (forall ls, NoDup (loc_listingId <$> ls) -> Forall (location_ok db1) ls -> catalogue_wf (next (with_locations ls db1))) as Hput.
  { intros ls Hls Hall. apply (wf_store _ _ Hwf); cbn; try done; try apply Hwf; [lia| |].
    - eapply Forall_impl; [apply (wf_listing_issued _ Hwf)|]. intros j. apply issued_mono. cbn. lia.
    - eapply Forall_impl; [exact Hall|]. intros x. by apply location_ok_listings. }
  assert (forall f l, edited_location e = Some l -> (forall x, loc_listingId (f x) = loc_listingId x) ->
    (forall x, loc_postcode (f x) = postcode l) ->
    (forall x, exists n detail, loc_encryptedDetail (f x) = seal n detail (loc_listingId x)) ->
    forall db3 x, update_location i f db1 = (db3, Ok x) -> catalogue_wf db3) as Hupd.
  { intros f l He Hid Hpc Hseal db3 x [[_ [? ?]]|(row & Hl & Href & -> & _)]%update_location_cases; [done|].
    apply find_location in Hl as [Hl Hi]. apply Hput.
    - rewrite fmap_keeps; [done|]. intros l'. cbn. case_bool_decide; [apply Hid|done].
    - apply Forall_fmap, Forall_forall. intros l' Hl'. cbn. case_bool_decide as Hi'; [|by apply Hothers].
      assert (l' = row) as ->.
      { pose proof (find_by_unique loc_listingId (locations db1) row Hnd Hl) as H1.
        pose proof (find_by_unique loc_listingId (locations db1) l' Hnd Hl') as H2. congruence. }
      apply (Hrow _ l); [done|by rewrite Hid|done|done|]. rewrite <- Hi'. apply Hseal. }
  destruct e as [l|l point|].
  - intros H. by eapply (Hupd _ l) in H; [|done|done|done|intros x; eexists _, _].
  - destruct (location_of db1 i) as [row|] eqn:Hl.
    + intros H. by eapply (Hupd _ l) in H; [|done|done|done|intros x; eexists _, _].
    + intros [[_ [? ?]]|(Href & Hn & _ & -> & _)]%insert_location_cases; [done|]. apply Hput.
      * rewrite fmap_app. by apply NoDup_snoc.
      * apply Forall_app. split; [|constructor; [|done]].
        -- apply Forall_forall. intros l' Hl'. apply Hothers; [done|]. intros <-.
           apply Hn. cbn. by apply (list_elem_of_fmap_2 loc_listingId).
        -- by apply (Hrow _ l); [done..|eexists _, _].
  - by intros [= <- _].
Qed.

Lemma filter_length_0 {A} (p : A -> bool) (l : list A) :
  length (List.filter p l) = 0%nat -> forall x, x ∈ l -> p x = false.
Proof.
  intros H x Hx. destruct (p x) eqn:Hp; [|done]. exfalso.
  assert (x ∈ List.filter p l) as Hin by by apply elem_of_bfilter.
  destruct (List.filter p l); [by apply elem_of_nil in Hin|done].
Qed.

(** The listing as an edit leaves it. *)
Definition edited (id ownerId : string) (e : ListingEdit) (v : VersionRow) (columns : option string * option string)
    (at_ : instant) (r : ListingRow) : ListingRow :=
  if is_owned id ownerId r then with_content (ver_id v) (ed_content e) columns at_ r else r.

Lemma with_listings_same (db : Db) (g : ListingRow -> ListingRow) :
  (forall r, r ∈ listings db -> g r = r) -> with_listings (g <$> listings db) db = db.
Proof.
  intros H. destruct db. unfold with_listings. cbn in *. f_equal.
  induction listings0 as [|r l IH]; cbn; [done|]. rewrite H by left. f_equal. apply IH. intros x Hx. apply H. by right.
Qed.

Lemma write_edit_cases (known : string -> bool) (id ownerId : string) (e : ListingEdit) (v : VersionRow)
    (db db' : Db) (x : result bool) :
  write_edit known id ownerId e v db = (db', x) ->
  (db' = db /\ ((exists err, x = Err err) \/ x = Ok false /\ forall r, r ∈ listings db -> is_owned id ownerId r = false)) \/
  (exists columns, publishableLocationColumns (ed_collectionLocation e) = Ok columns /\ x = Ok true /\
    (exists r, r ∈ listings db /\ is_owned id ownerId r = true) /\
    (forall r, r ∈ listings db -> is_owned id ownerId r = true ->
       listing_invalid known db (with_content (ver_id v) (ed_content e) columns (cclock db) r) = None) /\
    writeLocation id (ed_collectionLocation e)
      (with_listings (edited id ownerId e v columns (cclock db) <$> listings db) db) = (db', Ok tt)).
Proof.
  unfold write_edit, transaction. run_binds. destruct (publishableLocationColumns _) as [columns|err]; [|intros [= <- <-]; eauto].
  run_binds. destruct (update_listings _ _ _ _) as [db1 x1] eqn:E.
  apply update_listings_cases in E as [(-> & why & ->)|(Hok & -> & ->)]; [intros [= <- <-]; eauto|].
  destruct (Nat.eqb_spec (length (List.filter (is_owned id ownerId) (listings db))) 0) as [Hn|Hn].
  - intros [= <- <-]. left. pose proof (filter_length_0 _ _ Hn) as Hnone. split; [|auto].
    apply with_listings_same. intros r Hr. by rewrite Hnone.
  - run_binds. fold (edited id ownerId e v columns (cclock db)).
    destruct (writeLocation _ _ _) as [db2 [[]|err]] eqn:Hw; [|intros [= <- <-]; eauto].
    intros [= <- <-]. right. exists columns. split_and!; try done.
    destruct (List.filter _ _) as [|r l] eqn:Hf; [done|]. exists r. apply elem_of_bfilter. rewrite Hf. left.
Qed.

Lemma wf_write_edit (known : string -> bool) (id ownerId : string) (e : ListingEdit) (v : VersionRow) (db : Db) :
  catalogue_wf db -> v ∈ versions db -> content_fits v (ed_content e) -> catalogue_wf (fst (write_edit known id ownerId e v db)).
Proof.
  intros Hwf Hv Hc. destruct (write_edit known id ownerId e v db) as [db' x] eqn:E. cbn.
  apply write_edit_cases in E as [[-> _]|(columns & Hcol & _ & (r0 & Hr0 & Hown) & Hok & Hw)]; [done|].
  set (g := edited id ownerId e v columns (cclock db)) in *.
  assert (forall r, li_id (g r) = li_id r) as Hid by (intros r; unfold g, edited; by destruct (is_owned id ownerId r)).
  assert (forall r, r ∈ listings db -> listing_ok db (g r)) as Hg.
  { intros r Hr. unfold g, edited. destruct (is_owned id ownerId r) eqn:Ho; [|by apply listing_ok_at].
    destruct (listing_valid _ _ _ (Hok r Hr Ho)) as (Href & _ & _ & v' & Hv' & Hid' & Hcat).
    split; [done|]. exists v', (ed_content e). cbn in Hid'.
    assert (v' = v) as ->.
    { pose proof (find_by_unique ver_id (versions db) v (wf_version_ids _ Hwf) Hv) as H1.
      pose proof (find_by_unique ver_id (versions db) v' (wf_version_ids _ Hwf) Hv') as H2. congruence. }
    destruct (cf_pounds _ _ Hc). split_and!; try done. by apply content_stored. }
  assert (is_owned id ownerId r0 = true -> li_id r0 = id) as Hr0id.
  { unfold is_owned. rewrite andb_true_iff, !bool_decide_eq_true. by intros [? _]. }
  assert (forall l db2, l ∈ locations db -> loc_listingId l <> id -> listings db2 = g <$> listings db ->
    location_ok db2 l) as Hothers.
  { intros l db2 Hl Hne Hdb2. pose proof (wf_locations _ Hwf) as Hall. rewrite Forall_forall in Hall.
    destruct (Hall l Hl) as [H1 (r & o & Hr & Hi & Ho) H3]. split; [done| |done]. exists (g r), o. rewrite Hdb2.
    split; [by apply list_elem_of_fmap_2|]. rewrite Hid. split; [done|]. unfold g, edited, is_owned.
    by rewrite (bool_decide_eq_false_2 (li_id r = id)) by congruence. }
  eapply (wf_write_location known id); [| | | |exact Hw]; cbn.
  - apply Hwf.
  - intros l Hl Hne. by apply Hothers.
  - apply (wf_store db); cbn; try done; try apply Hwf.
    + rewrite fmap_keeps by done. apply Hwf.
    + rewrite fmap_keeps by done. apply Hwf.
    + apply Forall_fmap, Forall_forall. exact Hg.
    + apply NoDup_bfilter, Hwf.
    + apply Forall_forall. intros l [Hl Hn]%elem_of_bfilter. rewrite negb_true_iff, bool_decide_eq_false in Hn.
      by apply Hothers.
  - intros l Hl. unfold publishableLocationColumns in Hcol. rewrite Hl in Hcol. cbn in Hcol.
    destruct (Postcode.outwardCode (postcode l)) as [o|] eqn:Ho; [|done]. injection Hcol as <-.
    exists (g r0), o. split_and!; [by apply list_elem_of_fmap_2|rewrite Hid; auto|done|..];
      unfold g, edited; rewrite Hown; done.
Qed.

(** *** Erasure *)
Definition erasable (ownerId : string) (retained : list string) (r : ListingRow) : bool :=
  bool_decide (li_ownerId r = ownerId) && bool_decide (li_id r ∉ retained).

Lemma eraseOwnedBy_cases (referenced : string -> bool) (ownerId : string) (retained : list string) (db db' : Db)
    (x : result ()) :
  eraseOwnedBy referenced ownerId retained db = (db', x) ->
  (db' = db /\ exists err, x = Err err) \/
  (x = Ok tt /\
   let gone := li_id <$> List.filter (erasable ownerId retained) (listings db) in
   (forall i, i ∈ gone -> referenced i = false) /\
   db' = with_media (List.filter (fun m => bool_decide (me_listingId m ∉ gone)) (media db))
          (with_locations (List.filter (fun l => bool_decide (loc_listingId l ∉ gone))
             (List.filter (fun l => negb (bool_decide (loc_listingId l ∈ retained))) (locations db)))
             (with_listings (List.filter (fun r => negb (erasable ownerId retained r)) (listings db)) db))).
Proof.
  unfold eraseOwnedBy, transaction, delete_locations, delete_listings. run_binds. unfold modify. cbn.
  destruct (existsb _ _) eqn:E; intros [= <- <-]; [eauto|]. right. split; [done|]. split; [|done].
  intros i. by apply existsb_false.
Qed.

Lemma wf_eraseOwnedBy (referenced : string -> bool) (ownerId : string) (retained : list string) (db : Db) :
  catalogue_wf db -> catalogue_wf (fst (eraseOwnedBy referenced ownerId retained db)).
Proof.
  intros Hwf. destruct (eraseOwnedBy referenced ownerId retained db) as [db' x] eqn:E. cbn.
  apply eraseOwnedBy_cases in E as [[-> _]|(_ & _ & ->)]; [done|].
  set (gone := li_id <$> _) in *.
  apply (wf_store db); cbn; try done; try apply Hwf.
  - apply NoDup_bfilter, Hwf.
  - apply Forall_fmap, Forall_forall. intros r [Hr _]%elem_of_bfilter.
    pose proof (wf_listing_issued _ Hwf) as Hi. rewrite Forall_fmap, Forall_forall in Hi. by apply Hi.
  - apply Forall_forall. intros r [Hr _]%elem_of_bfilter. by apply listing_ok_at.
  - do 2 apply NoDup_bfilter. apply Hwf.
  - apply Forall_forall. intros l [[Hl _]%elem_of_bfilter Hn]%elem_of_bfilter. apply bool_decide_eq_true in Hn.
    pose proof (wf_locations _ Hwf) as Hall. rewrite Forall_forall in Hall.
    destruct (Hall l Hl) as [H1 (r & o & Hr & Hi & Ho) H3]. split; [done| |done]. exists r, o. split; [|done].
    cbn. apply elem_of_bfilter. split; [done|]. apply negb_true_iff. destruct (erasable ownerId retained r) eqn:Hp; [|done]. exfalso.
    apply Hn. rewrite <- Hi. apply list_elem_of_fmap_2. by apply elem_of_bfilter.
Qed.

(** ** Categories *)
Lemma policy_stored (v : VersionRow) :
  ver_minimumBookingTotalCurrency v = "GBP" -> ver_minimumPlatformFeeCurrency v = "GBP" ->
  asCategoryFeePolicy v = Ok (policy_of v).
Proof.
  intros Ht Hf. unfold asCategoryFeePolicy, asCurrency, policy_of. rewrite Ht, Hf.
  by rewrite bool_decide_eq_true_2 by (apply list_elem_of_singleton; done).
Qed.

(** A configuration is read back as it was written. *)
Lemma configuration_stored (id categoryId : string) (n : Z) (conf : CategoryConfiguration) (author : string) (at_ : instant) :
  lawful_configuration conf -> configuration_of (version_for id categoryId n conf author at_) = Ok conf.
Proof.
  intros [_ [Ht Hf] Hb]. unfold configuration_of. rewrite policy_stored by done. unfold_result.
  assert (asDamageSecurity (version_for id categoryId n conf author at_) = Ok (cc_damageSecurity conf)) as ->.
  { unfold asDamageSecurity. cbn. destruct (cc_damageSecurity conf) as [p|]; [|done]. cbn.
    destruct (Hb p eq_refl) as [H1 H2]. unfold asBandCurrency. rewrite H1, H2.
    rewrite bool_decide_eq_true_2 by (apply list_elem_of_singleton; done). unfold_result.
    rewrite !in_pounds_eta by done. by destruct p. }
  unfold policy_of. cbn. rewrite Ht, Hf, !in_pounds_eta by done. destruct conf as [? ? ? ? ? [] ? ? ?]. done.
Qed.

Lemma policy_of_version (id categoryId : string) (n : Z) (conf : CategoryConfiguration) (author : string) (at_ : instant) :
  policy_of (version_for id categoryId n conf author at_) = cc_feePolicy conf.
Proof. unfold policy_of. cbn. by destruct (cc_feePolicy conf) as [? ? [] []]. Qed.

Lemma version_for_ok (id categoryId : string) (n : Z) (conf : CategoryConfiguration) (author : string) (at_ : instant) :
  lawful_configuration conf -> meets_rule (cc_feePolicy conf) ->
  version_refusal (version_for id categoryId n conf author at_) = None ->
  version_ok (version_for id categoryId n conf author at_).
Proof.
  intros Hl Hm Hr. split; [done|apply Hl|apply (lc_policy _ Hl)| |by rewrite policy_of_version].
  pose proof (configuration_stored id categoryId n conf author at_ Hl) as H. unfold configuration_of in H.
  unfold_result. destruct (asCategoryFeePolicy _); [|done]. destruct (asDamageSecurity _) as [band|]; [by exists band|done].
Qed.

Lemma insert_version_cases (known : string -> bool) (categoryId : string) (n : Z) (conf : CategoryConfiguration)
    (author : string) (db db' : Db) (x : result VersionRow) :
  insert_version known categoryId n conf author db = (db', x) ->
  let v := version_for (uuid (cseq db)) categoryId n conf author (cclock db) in
  (db' = db /\ exists why, x = Err (DatabaseError why)) \/
  (x = Ok v /\ db' = next (with_categories (categories db) (versions db ++ [v]) db) /\ version_refusal v = None /\
   known author = true /\ categoryId ∈ cat_id <$> categories db /\
   forall w, w ∈ versions db -> ver_categoryId w = categoryId -> ver_versionNumber w <> n).
Proof.
  unfold insert_version. destruct (version_refusal _) eqn:Hr; [intros [= <- <-]; eauto|].
  destruct (existsb _ _) eqn:He; [intros [= <- <-]; eauto|]. case_bool_decide; [|intros [= <- <-]; eauto]. cbn [negb].
  destruct (known author) eqn:Hk; intros [= <- <-]; [right|eauto]. split_and!; try done. intros w Hw Hc Hn.
  pose proof (existsb_false _ _ w He Hw) as Hf. cbn in Hf. rewrite bool_decide_eq_true_2 in Hf by done. cbn in Hf. lia.
Qed.

Lemma of_category_snoc (i : string) (v : VersionRow) (db db' : Db) :
  versions db' = versions db ++ [v] ->
  of_category i db' = of_category i db ++ (if bool_decide (ver_categoryId v = i) then [v] else []).
Proof. intros H. unfold of_category. rewrite H, List.filter_app. cbn. by case_bool_decide. Qed.

(** Tables that gain a version. *)
Lemma wf_versions_grow (v : VersionRow) (cs : list CategoryRow) (db db' : Db) :
  catalogue_wf db -> db' = next (with_categories (categories db ++ cs) (versions db ++ [v]) db) \/
           db' = next (next (with_categories (categories db ++ cs) (versions db ++ [v]) db)) ->
  version_ok v -> ver_id v = uuid (cseq db) \/ (ver_id v = uuid (S (cseq db)) /\ cseq db' = S (S (cseq db))) ->
  NoDup (cat_id <$> categories db ++ cs) -> NoDup (cat_slug <$> categories db ++ cs) ->
  Forall (issued (cseq db')) (cat_id <$> cs) -> ver_categoryId v ∈ cat_id <$> categories db ++ cs ->
  (forall c, c ∈ categories db ++ cs -> exists n,
     ver_versionNumber <$> of_category (cat_id c) db' = Z.of_nat <$> seq 1 (S n)) ->
  catalogue_wf db'.
Proof.
  intros Hwf Hdb Hv Hid Hc Hs Hi Hcat Hnum.
  assert (categories db' = categories db ++ cs /\ versions db' = versions db ++ [v] /\ listings db' = listings db /\
    locations db' = locations db /\ (cseq db < cseq db')%nat) as (Ec & Ev & El & Elo & Eseq)
    by (destruct Hdb as [-> | ->]; cbn; split_and!; try done; lia).
  assert (forall l, Forall (issued (cseq db)) l -> Forall (issued (cseq db')) l) as Hmono.
  { intros l H. eapply Forall_impl; [exact H|]. intros i. apply issued_mono. lia. }
  split; rewrite ?Ec, ?Ev, ?El, ?Elo; try done; try apply Hwf.
  - rewrite fmap_app. apply Forall_app. split; [apply Hmono, Hwf|done].
  - rewrite fmap_app. apply NoDup_snoc; [apply Hwf|]. intros Hin.
    pose proof (wf_version_issued _ Hwf) as Hiss. rewrite Forall_forall in Hiss. specialize (Hiss _ Hin).
    destruct Hid as [Hid|[Hid _]]; rewrite Hid in Hiss; [by apply issued_fresh in Hiss|].
    apply (issued_fresh (S (cseq db))). by eapply issued_mono; [|exact Hiss]; lia.
  - rewrite fmap_app. apply Forall_app. split; [apply Hmono, Hwf|]. constructor; [|done].
    destruct Hid as [->|[-> ->]]; eexists; (split; [|done]); lia.
  - apply Forall_app. split; [apply Hwf|by constructor].
  - apply Forall_app. split; [|by constructor]. eapply Forall_impl; [apply (wf_version_categories _ Hwf)|].
    intros w Hw. cbn in *. rewrite fmap_app. apply elem_of_app. by left.
  - apply Hmono, Hwf.
  - eapply Forall_impl; [apply (wf_listings _ Hwf)|]. intros r. apply listing_ok_versions. intros w Hw. rewrite Ev.
    apply elem_of_app. by left.
  - eapply Forall_impl; [apply (wf_locations _ Hwf)|]. intros l. by apply location_ok_listings.
Qed.

Lemma numbered_next (l : list Z) (m : nat) (n : Z) :
  l = Z.of_nat <$> seq 1 (S m) -> n ∈ l -> n + 1 ∉ l -> l ++ [n + 1] = Z.of_nat <$> seq 1 (S (S m)).
Proof.
  intros -> (k & -> & Hk%list_elem_of_In%List.in_seq)%list_elem_of_fmap Hn.
  assert (k = S m) as ->.
  { destruct (decide (k = S m)); [done|]. exfalso. apply Hn. apply list_elem_of_fmap. exists (S k). split; [lia|].
    apply list_elem_of_In, List.in_seq. lia. }
  rewrite (List.seq_S (S m) 1), fmap_app. cbn [fmap list_fmap]. do 2 f_equal. lia.
Qed.

Lemma wf_insert_version (known : string -> bool) (categoryId : string) (n : Z) (conf : CategoryConfiguration)
    (author : string) (db : Db) :
  catalogue_wf db -> lawful_configuration conf -> meets_rule (cc_feePolicy conf) ->
  (exists v, v ∈ versions db /\ ver_categoryId v = categoryId /\ ver_versionNumber v = n) ->
  catalogue_wf (fst (insert_version known categoryId (n + 1) conf author db)).
Proof.
  intros Hwf Hl Hm (v0 & Hv0 & Hc0 & Hn0). destruct (insert_version _ _ _ _ _ _) as [db' x] eqn:E. cbn.
  apply insert_version_cases in E as [[-> _]|(_ & -> & Href & _ & Hcat & Hnew)]; [done|].
  set (v := version_for _ _ _ _ _ _) in *. eapply (wf_versions_grow v [] db); rewrite ?app_nil_r; try done; try apply Hwf.
  - by left.
  - by apply version_for_ok.
  - by left.
  - intros c Hc. destruct (wf_numbered _ Hwf c Hc) as [m Hnum].
    rewrite (of_category_snoc (cat_id c) v db) by done. cbn. case_bool_decide as Hi; [|exists m; by rewrite app_nil_r].
    exists (S m). rewrite fmap_app. cbn. apply numbered_next; [done| |].
    + rewrite <- Hn0. apply list_elem_of_fmap_2, elem_of_bfilter. split; [done|]. apply bool_decide_eq_true_2. congruence.
    + intros (w & Hw & [Hin Hwc%bool_decide_eq_true]%elem_of_bfilter)%list_elem_of_fmap.
      apply (Hnew w Hin); congruence.
Qed.

Lemma create_cases (known : string -> bool) (slug : string) (conf : CategoryConfiguration) (author : string)
    (db db' : Db) (x : result CategoryRecord) :
  lawful_configuration conf -> CatalogueDb.create known slug conf author db = (db', x) ->
  let c := mkCategoryRow (uuid (cseq db)) slug (cclock db) in
  let v := version_for (uuid (S (cseq db))) (cat_id c) FIRST_VERSION conf author (cclock db) in
  (db' = db /\ exists e, x = Err e /\ (is_Some (by_slug slug db) -> e = CategorySlugTakenError slug)) \/
  (db' = next (next (with_categories (categories db ++ [c]) (versions db ++ [v]) db)) /\
   by_slug slug db = None /\ version_refusal v = None /\ known author = true /\
   x = Ok (mkCategory (cat_id c) slug conf FIRST_VERSION (cclock db) (cclock db))).
Proof.
  intros Hl. unfold CatalogueDb.create, catch, transaction, insert_category. run_binds.
  case_bool_decide as Hs; [intros [= <- <-]; left; split; [done|]; eexists; split; [done|done]|].
  assert (by_slug slug db = None) as Hno by (destruct (by_slug slug db); [exfalso; apply Hs; by eexists|done]).
  run_binds. set (c := mkCategoryRow _ _ _). destruct (insert_version _ _ _ _ _ _) as [db1 x1] eqn:E.
  apply insert_version_cases in E as [[-> [why ->]]|(-> & -> & Href & Hk & _ & _)].
  - run_binds. rewrite Hno. destruct (isUniqueViolation _); intros [= <- <-]; left; (split; [done|]); eexists;
      (split; [done|]); by intros [].
  - run_binds. unfold category_record. cbn [fst snd]. rewrite configuration_stored by done. cbn. intros [= <- <-]. by right.
Qed.

Lemma wf_create (known : string -> bool) (slug : string) (conf : CategoryConfiguration) (author : string) (db : Db) :
  catalogue_wf db -> lawful_configuration conf -> meets_rule (cc_feePolicy conf) ->
  catalogue_wf (fst (CatalogueDb.create known slug conf author db)).
Proof.
  intros Hwf Hl Hm. destruct (CatalogueDb.create _ _ _ _ _) as [db' x] eqn:E. cbn.
  apply create_cases in E as [[-> _]|(-> & Hno & Href & _ & _)]; [done| |done].
  set (c := mkCategoryRow _ _ _) in *. set (v := version_for _ _ _ _ _ _) in *.
  pose proof (wf_category_issued _ Hwf) as Hiss. rewrite Forall_forall in Hiss.
  assert (cat_id c ∉ cat_id <$> categories db) as Hfresh.
  { intros Hin. apply (issued_fresh (cseq db)), Hiss, Hin. }
  assert (of_category (cat_id c) db = []) as Hempty.
  { apply filter_none. intros w Hw. apply bool_decide_eq_false_2. intros Hc. apply Hfresh. rewrite <- Hc.
    pose proof (wf_version_categories _ Hwf) as H. rewrite Forall_forall in H. by apply H. }
  eapply (wf_versions_grow v [c] db); try done.
  - by right.
  - by apply version_for_ok.
  - by right.
  - rewrite fmap_app. apply NoDup_snoc; [apply Hwf|done].
  - rewrite fmap_app. apply NoDup_snoc; [apply Hwf|]. by apply find_by_None.
  - constructor; [|done]. exists (cseq db). cbn. split; [lia|done].
  - rewrite fmap_app. apply elem_of_app. right. left.
  - intros c' [Hc'| ->%list_elem_of_singleton]%elem_of_app; rewrite (of_category_snoc _ v db) by done.
    + destruct (wf_numbered _ Hwf c' Hc') as [m Hnum]. exists m. rewrite bool_decide_eq_false_2; [by rewrite app_nil_r|].
      intros Heq. apply Hfresh. change (cat_id c) with (ver_categoryId v). rewrite Heq. by apply list_elem_of_fmap_2.
    + exists 0%nat. rewrite Hempty, bool_decide_eq_true_2 by done. done.
Qed.

(** ** Every statement keeps the tables well formed *)
Lemma wf_step (p : party) (db db' : Db) : step p db db' -> catalogue_wf db -> catalogue_wf db'.
Proof.
  intros [] Hwf.
  - by apply wf_create.
  - by apply wf_insert_version.
  - by apply wf_write_draft.
  - by apply wf_write_edit.
  - by apply wf_set_status.
  - by apply wf_set_moderation.
  - by apply wf_eraseOwnedBy.
  - by apply (wf_same db0).
  - by apply (wf_same db0).
  - by apply (wf_same db0).
Qed.

Lemma wf_reach (who : party -> Prop) (db db' : Db) : reach who db db' -> catalogue_wf db -> catalogue_wf db'.
Proof. induction 1 as [|a b c (p & _ & Hs) _ IH]; [done|]. intros Hwf. by apply IH, (wf_step p a). Qed.
End Rows.
