(* ===== verification/Cipher.v ===== *)
(** * Encrypting a column ([apps/api/src/encryption/field-encryption.ts])

    The envelope [v1:iv:tag:ciphertext] around AES-256-GCM, as the cipher of addresses
    ([FieldEncryptor]).  Node's [Buffer] and [crypto] are the class [NodeCrypto]. *)

From Stdlib Require Import Ascii.
From Stdlib Require String.
From S2P Require Import Prelude JsNumber Text Json ListingStore.

#[local] Open Scope char_scope.
#[local] Open Scope string_scope.
#[local] Open Scope list_scope.

(** The alphabet of base64, padding included. *)
Definition base64_char (c : ascii) : bool :=
  let k := code c in
  ((65 <=? k) && (k <=? 90) || (97 <=? k) && (k <=? 122) || (48 <=? k) && (k <=? 57))%Z ||
  bool_decide (c = "+"%char) || bool_decide (c = "/"%char) || bool_decide (c = "="%char).

(** [Buffer] between bytes, text and base64; [randomBytes], of which the number is the
    draw; and AES-256-GCM with additional data. *)
Class NodeCrypto : Type := {
  base64 : text -> text;
  from_base64 : text -> text;
  utf8 : string -> text;
  from_utf8 : text -> string;
  randomBytes : nat -> nat -> text;
  gcm_seal : text -> text -> text -> text -> text * text;
  gcm_open : text -> text -> text -> text -> text -> option text;
  base64_chars : forall b, forallb base64_char (base64 b) = true;
  base64_nonempty : forall b, b <> [] -> base64 b <> [];
  base64_back : forall b, from_base64 (base64 b) = b;
  utf8_back : forall s, from_utf8 (utf8 s) = s;
  randomBytes_length : forall draw n, length (randomBytes draw n) = n;
  gcm_tag : forall key iv aad plain, length (gcm_seal key iv aad plain).2 = 16;
  gcm_back : forall key iv aad plain, let '(c, t) := gcm_seal key iv aad plain in gcm_open key iv aad t c = Some plain }.

Module Encryption.
Section Encryptor.
Context {Node : NodeCrypto}.

Definition KEY_BYTES : nat := 32.
Definition IV_BYTES : nat := 12.
Definition VERSION : string := "v1".

(** Three parts of that alphabet after [v1:], of which the last may be empty. *)
Fixpoint span_base64 (l : text) : text * text :=
  match l with
  | c :: l' => if base64_char c then let '(d, r) := span_base64 l' in (c :: d, r) else ([], l)
  | [] => ([], [])
  end.
Definition colon : ascii := ":".
Definition part (l : text) : option (text * text) :=
  match span_base64 l with
  | ([], _) => None
  | (d, c :: r) => if bool_decide (c = colon) then Some (d, r) else None
  | (_, []) => None
  end.
Definition ENVELOPE (l : text) : option (text * text * text) :=
  r ← Json.strip_prefix (chars VERSION ++ [colon]) l;
  iv ← part r;
  tag ← part iv.2;
  match span_base64 tag.2 with
  | (c, []) => Some (iv.1, tag.1, c)
  | _ => None
  end.

(** [createFieldEncryptor]: the key it works with. *)
Definition createFieldEncryptor (base64Key : string) : result text :=
  let key := from_base64 (chars base64Key) in
  _ ← throw_if (negb (Nat.eqb (length key) KEY_BYTES)) (ConfigurationError "Encryption key must be 32 bytes");
  Ok key.

Definition encrypt (key : text) (draw : nat) (plaintext context : string) : string :=
  let iv := randomBytes draw IV_BYTES in
  let '(ciphertext, tag) := gcm_seal key iv (utf8 context) (utf8 plaintext) in
  str (chars VERSION ++ colon :: base64 iv ++ colon :: base64 tag ++ colon :: base64 ciphertext).

Definition decrypt (key : text) (envelope context : string) : result string :=
  match ENVELOPE (chars envelope) with
  | None => Err (DecryptionError "Stored value is not a recognised envelope")
  | Some (ivPart, tagPart, ciphertextPart) =>
      match gcm_open key (from_base64 ivPart) (utf8 context) (from_base64 tagPart) (from_base64 ciphertextPart) with
      | None => Err (DecryptionError "Stored value could not be decrypted")
      | Some plain => Ok (from_utf8 plain)
      end
  end.

(** *** [EncryptedDetail], as the stores of listings and of profiles write and read it;
    what is not of its shape is refused here, where the cast of the code trusts it. *)
Definition detail_json (detail : string * option string) : json :=
  j_object [("line1", j_string detail.1);
            ("line2", match detail.2 with Some s => j_string s | None => j_null end)].
Definition property (k : string) (v : json) : result (option json) :=
  match v with
  | j_null => Err (TypeError "Cannot read properties of null")
  | j_object entries => Ok (snd <$> List.find (fun e => bool_decide (e.1 = k)) entries)
  | _ => Ok None
  end.
Definition read_detail (v : json) : result (string * option string) :=
  line1 ← property "line1" v;
  line2 ← property "line2" v;
  match line1, line2 with
  | Some (j_string a), Some (j_string b) => Ok (a, Some b)
  | Some (j_string a), Some j_null => Ok (a, None)
  | _, _ => Err (ForeignError "is not an encrypted detail")
  end.

Definition seal_detail (key : text) (draw : nat) (detail : string * option string) (context : string) : string :=
  encrypt key draw (Json.stringify (detail_json detail)) context.
Definition open_detail (key : text) (envelope context : string) : result (string * option string) :=
  plain ← decrypt key envelope context;
  v ← Json.parse plain;
  read_detail v.

(** ** What is encrypted can be read back *)
Lemma span_base64_app (b r : text) :
  forallb base64_char b = true -> match r with c :: _ => base64_char c = false | [] => True end ->
  span_base64 (b ++ r) = (b, r).
Proof.
  intros Hb Hr. induction b as [|c b IH]; cbn in *.
  - destruct r as [|c r]; [done|]. cbn. by rewrite Hr.
  - apply andb_true_iff in Hb as [Hc Hb]. by rewrite Hc, (IH Hb).
Qed.

Lemma part_app (b r : text) : forallb base64_char b = true -> b <> [] -> part (b ++ colon :: r) = Some (b, r).
Proof.
  intros Hb Hne. unfold part. rewrite span_base64_app by done. destruct b; [done|]. by rewrite bool_decide_eq_true_2.
Qed.

Lemma long_nonempty (l : text) (n : nat) : length l = S n -> l <> [].
Proof. by destruct l. Qed.

(** What is written is an envelope of its three parts. *)
Lemma envelope_parts (key : text) (draw : nat) (plaintext context : string) :
  let iv := randomBytes draw IV_BYTES in
  let '(c, t) := gcm_seal key iv (utf8 context) (utf8 plaintext) in
  ENVELOPE (chars (encrypt key draw plaintext context)) = Some (base64 iv, base64 t, base64 c).
Proof.
  unfold encrypt. pose proof (gcm_tag key (randomBytes draw IV_BYTES) (utf8 context) (utf8 plaintext)) as Ht.
  destruct (gcm_seal _ _ _ _) as [c t]. rewrite chars_str. unfold ENVELOPE. cbn [snd] in Ht.
  change (Json.strip_prefix (chars VERSION ++ [colon]) (chars VERSION ++ colon :: ?l)) with (Some l).
  cbn [mbind option_bind]. rewrite part_app; [|apply base64_chars|].
  2: { eapply base64_nonempty, long_nonempty, randomBytes_length. }
  cbn [mbind option_bind fst snd]. rewrite part_app; [|apply base64_chars|by eapply base64_nonempty, long_nonempty].
  cbn [mbind option_bind fst snd]. 
  pose proof (span_base64_app (base64 c) [] (base64_chars c) Logic.I) as Hc. rewrite app_nil_r in Hc. by rewrite Hc.
Qed.

Lemma decrypt_encrypt (key : text) (draw : nat) (plaintext context : string) :
  decrypt key (encrypt key draw plaintext context) context = Ok plaintext.
Proof.
  pose proof (envelope_parts key draw plaintext context) as H. unfold decrypt.
  pose proof (gcm_back key (randomBytes draw IV_BYTES) (utf8 context) (utf8 plaintext)) as Hg.
  cbv zeta in H. destruct (gcm_seal _ _ _ _) as [c t]. by rewrite H, !base64_back, Hg, utf8_back.
Qed.

Lemma detail_plain (detail : string * option string) : Json.plain (detail_json detail).
Proof.
  destruct detail as [a [b|]]; (constructor; [|done]); repeat (apply Forall_cons; split); try constructor.
Qed.

Lemma open_seal_detail (key : text) (draw : nat) (detail : string * option string) (context : string) :
  open_detail key (seal_detail key draw detail context) context = Ok detail.
Proof.
  unfold open_detail, seal_detail. rewrite decrypt_encrypt. cbn [mbind result_bind].
  rewrite (Json.parse_stringify _ (detail_plain detail)). by destruct detail as [a [b|]].
Qed.

(** The cipher of addresses under a key. *)
Definition field_encryptor (key : text) : FieldEncryptor := {|
  seal := seal_detail key;
  open_ := open_detail key;
  open_seal := open_seal_detail key |}.

(** ** A ciphertext is bound to its row *)

(** AES-GCM refuses a tag that was made over other additional data. *)
Definition gcm_binds : Prop := forall key iv aad aad' plain,
  aad <> aad' -> let '(c, t) := gcm_seal key iv aad plain in gcm_open key iv aad' t c = None.

Lemma utf8_inj (s s' : string) : utf8 s = utf8 s' -> s = s'.
Proof. intros H. by rewrite <- (utf8_back s), H, utf8_back. Qed.

(** C29. An address is written as an envelope, read back from its own row as it was, and
    refused on any other: nobody's street lines can be shown as somebody else's. *)
Theorem address_bound_to_its_row (key : text) (draw : nat) (detail : string * option string) (row other : string) :
  gcm_binds -> row <> other ->
  is_Some (ENVELOPE (chars (seal_detail key draw detail row))) /\
  open_detail key (seal_detail key draw detail row) row = Ok detail /\
  open_detail key (seal_detail key draw detail row) other = Err (DecryptionError "Stored value could not be decrypted").
Proof.
  intros Hb Hne. pose proof (envelope_parts key draw (Json.stringify (detail_json detail)) row) as H.
  specialize (Hb key (randomBytes draw IV_BYTES) (utf8 row) (utf8 other) (utf8 (Json.stringify (detail_json detail)))).
  split_and!; [|apply open_seal_detail|]; unfold open_detail, decrypt, seal_detail in *; cbv zeta in H;
    destruct (gcm_seal _ _ _ _) as [c t]; rewrite H; [by eexists|].
  rewrite !base64_back, Hb; [done|]. intros E. by apply Hne, utf8_inj.
Qed.
End Encryptor.
End Encryption.
