(* ===== verification/Profiles.v ===== *)
(** * Profiles ([apps/api/src/profiles])

    [Module ProfileDb]: the tables [profiles] and [addresses] with the constraints of
    the migrations, and [prisma-profile-store.ts].  [Module Profiles]:
    [profiles.service.ts].  Which accounts are active, and the digest the audit
    stores, are the class [ProfilePorts]. *)

From Stdlib Require String.
From S2P Require Import Prelude JsNumber Text Money Ledger Columns Bookings AuditLog LocalTime CoreText Answers ListingStore.

#[local] Open Scope string_scope.
#[local] Open Scope list_scope.
#[local] Open Scope Z_scope.

Import Publication AuditDb.

Module ProfileDb.

(** ** Records *)
Record AddressDetail : Type := mkAddress {
  line1 : string; line2 : option string; town : string; postcode : string }.

Record StoredProfile : Type := mkStored {
  sp_id : string;
  sp_userId : string;
  sp_displayName : string;
  sp_phone : option string;
  sp_address : option AddressDetail;
  sp_ownerStatus : option OwnerStatus;
  sp_updatedAt : instant }.

Record ProfileChanges : Type := mkChanges {
  ch_displayName : string;
  ch_phone : option string;
  ch_address : option AddressDetail;
  ch_ownerStatus : option OwnerStatus }.

(** ** Tables *)
Record ProfileRow : Type := mkProfileRow {
  pf_id : string;
  pf_userId : string;
  pf_displayName : string;
  pf_phone : option string;
  pf_ownerStatus : option string;
  pf_createdAt : instant;
  pf_updatedAt : instant }.

Record AddressRow : Type := mkAddressRow {
  ad_id : string;
  ad_userId : string;
  ad_postcode : string;
  ad_outwardCode : string;
  ad_town : string;
  ad_encryptedDetail : string;
  ad_createdAt : instant;
  ad_updatedAt : instant }.

Record Db : Type := mkDb {
  profiles : list ProfileRow;
  addresses : list AddressRow;
  ptrail : AuditDb.Trail;
  pseq : nat;
  pclock : instant }.
Definition empty_db (t : instant) : Db := mkDb [] [] AuditDb.empty_trail 0 t.

Definition with_profiles (l : list ProfileRow) (db : Db) : Db := mkDb l (addresses db) (ptrail db) (pseq db) (pclock db).
Definition with_addresses (l : list AddressRow) (db : Db) : Db := mkDb (profiles db) l (ptrail db) (pseq db) (pclock db).
Definition with_ptrail (t : AuditDb.Trail) (db : Db) : Db := mkDb (profiles db) (addresses db) t (pseq db) (pclock db).
Definition next (db : Db) : Db := mkDb (profiles db) (addresses db) (ptrail db) (S (pseq db)) (pclock db).

(** ** [prisma-profile-store.ts] *)
Definition status_name (s : OwnerStatus) : string :=
  match s with private_owner => "private_owner" | professional_trader => "professional_trader" end.
Definition OWNER_STATUSES : list OwnerStatus := [private_owner; professional_trader].

Definition isUniqueViolation (e : error) : bool := bool_decide (e = DatabaseError "P2002").

(** [owner_status_is_known] *)
Definition status_refusal (s : option string) : bool :=
  match s with None => false | Some s => negb (bool_decide (s ∈ status_name <$> OWNER_STATUSES)) end.

Definition asOwnerStatus (value : option string) : result (option OwnerStatus) :=
  match value with
  | None => Ok None
  | Some s =>
      match List.find (fun o => bool_decide (status_name o = s)) OWNER_STATUSES with
      | Some o => Ok (Some o)
      | None => Err (ForeignError "has an owner status this build does not know")
      end
  end.

Section Store.
Context {Ids : UuidSource} {Pg : PgTypes} {Enc : FieldEncryptor}.
(** Which accounts exist. *)
Variable known : string -> bool.
(** What other connections commit between two statements. *)
Variable rival : Db -> Db.

Definition profile_of (u : string) (db : Db) : option ProfileRow := find_by pf_userId u (profiles db).
Definition address_of (u : string) (db : Db) : option AddressRow := find_by ad_userId u (addresses db).

(** The private method [decrypt]. *)
Definition decrypt (u : string) (a : AddressRow) : result AddressDetail :=
  detail ← open_ (ad_encryptedDetail a) u;
  Ok (mkAddress (fst detail) (snd detail) (ad_town a) (ad_postcode a)).

Definition toStoredProfile (p : ProfileRow) (a : option AddressRow) : result StoredProfile :=
  address ← match a with None => Ok None | Some a => d ← decrypt (pf_userId p) a; Ok (Some d) end;
  status ← asOwnerStatus (pf_ownerStatus p);
  Ok (mkStored (pf_id p) (pf_userId p) (pf_displayName p) (pf_phone p) address status (pf_updatedAt p)).

(** Two statements at once, of which either may be the first. *)
Definition find (address_first : bool) (userId : string) : M Db (option StoredProfile) :=
  u ← as_uuid userId;
  early_profile ← gets (profile_of u);
  early_address ← gets (address_of u);
  _ ← modify rival;
  late_profile ← gets (profile_of u);
  late_address ← gets (address_of u);
  let profile := if address_first then late_profile else early_profile in
  let address := if address_first then early_address else late_address in
  match profile with
  | None => mret None
  | Some p => lift (s ← toStoredProfile p address; Ok (Some s))
  end.

Definition uuid_of (s : string) : result string :=
  match uuid_in s with Some u => Ok u | None => Err (DatabaseError "22P02") end.

Definition findOwnerStatuses (userIds : list string) (db : Db) : result (gmap string OwnerStatus) :=
  us ← try_map uuid_of userIds;
  let wanted := List.filter (fun p => bool_decide (pf_userId p ∈ us)) (profiles db) in
  found ← try_map (fun p => s ← asOwnerStatus (pf_ownerStatus p); Ok (pf_userId p, s)) wanted;
  Ok (list_to_map (omap (fun e => (fun s => (fst e, s)) <$> snd e) found)).

(** [encrypt], and the columns a save writes. *)
Definition encrypt (db : Db) (u : string) (a : AddressDetail) : string := seal (pseq db) (line1 a, line2 a) u.

Definition profile_for (u : string) (c : ProfileChanges) (db : Db) : ProfileRow :=
  let stored := profile_of u db in
  mkProfileRow (match stored with Some p => pf_id p | None => uuid (pseq db) end) u
    (ch_displayName c) (ch_phone c) (status_name <$> ch_ownerStatus c)
    (match stored with Some p => pf_createdAt p | None => pclock db end) (pclock db).

(** [upsert] on a unique column is one statement, [INSERT ... ON CONFLICT DO UPDATE]. *)
Definition upsert_profile (u : string) (c : ProfileChanges) : M Db ProfileRow := fun db =>
  let row := profile_for u c db in
  if status_refusal (pf_ownerStatus row) then (db, Err (DatabaseError "owner_status_is_known"))
  else if negb (known u) then (db, Err (DatabaseError "profiles_userId_fkey"))
  else (next (with_profiles (row :: List.filter (fun p => negb (bool_decide (pf_userId p = u))) (profiles db)) db), Ok row).

Definition address_for (u : string) (postcode outward : string) (a : AddressDetail) (detail : string) (db : Db) : AddressRow :=
  let stored := address_of u db in
  mkAddressRow (match stored with Some r => ad_id r | None => uuid (pseq db) end) u postcode outward (town a) detail
    (match stored with Some r => ad_createdAt r | None => pclock db end) (pclock db).

Definition upsert_address (u : string) (postcode outward : string) (a : AddressDetail) (detail : string)
  : M Db AddressRow := fun db =>
  let row := address_for u postcode outward a detail db in
  if negb (known u) then (db, Err (DatabaseError "addresses_userId_fkey"))
  else (next (with_addresses (row :: List.filter (fun r => negb (bool_decide (ad_userId r = u))) (addresses db)) db), Ok row).

Definition delete_address (u : string) : M Db () :=
  modify (fun db => with_addresses (List.filter (fun r => negb (bool_decide (ad_userId r = u))) (addresses db)) db).
Definition delete_profile (u : string) : M Db () :=
  modify (fun db => with_profiles (List.filter (fun p => negb (bool_decide (pf_userId p = u))) (profiles db)) db).

(** The transaction of [save]: the profile, and then the address or that there is none. *)
Definition write_address (u : string) (c : ProfileChanges) (detail : option string) (written : ProfileRow)
  : M Db (ProfileRow * option AddressRow) :=
  match ch_address c, detail with
  | Some a, Some sealed =>
      parsed ← lift (Postcode.parse (postcode a));
      outward ← lift (Postcode.outwardCode parsed);
      stored ← upsert_address u parsed outward a sealed;
      mret (written, Some stored)
  | _, _ => _ ← delete_address u; mret (written, None)
  end.
Definition write_profile (u : string) (c : ProfileChanges) (detail : option string)
  : M Db (ProfileRow * option AddressRow) :=
  transaction_over rival (upsert_profile u c) (write_address u c detail).

Definition save (userId : string) (c : ProfileChanges) : M Db StoredProfile :=
  detail ← gets (fun db => encrypt db userId <$> ch_address c);
  catch
    (u ← as_uuid userId;
     saved ← write_profile u c detail;
     lift (toStoredProfile (fst saved) (snd saved)))
    (fun e => if isUniqueViolation e then throw ProfileConflictError else throw e).

Definition erase (userId : string) : M Db () :=
  u ← as_uuid userId;
  transaction_over rival (delete_address u) (fun _ => delete_profile u).
End Store.
End ProfileDb.

(** ** [profiles.service.ts] *)

(** What the audit trail digests of a profile. *)
Record AuditableProfile : Type := mkAuditableProfile {
  ap_displayName : string;
  ap_phone : option string;
  ap_address : option ProfileDb.AddressDetail;
  ap_ownerStatus : option OwnerStatus }.

Record Account : Type := mkAccount { account_id : string; account_createdAt : instant }.

Class ProfilePorts (W : Type) : Type := {
  (** which accounts exist, and [AccountLookup] *)
  account_known : W -> string -> bool;
  findActive : string -> W -> result (option Account);
  (** [StateDigest.of] *)
  digest_profile : AuditableProfile -> string }.

Module Profiles.
Import ProfileDb.

Record MyProfile : Type := mkMyProfile {
  my_displayName : string;
  my_phone : option string;
  my_address : option AddressDetail;
  my_ownerStatus : option OwnerStatus;
  my_updatedAt : string }.
Record PublicProfile : Type := mkPublicProfile {
  pub_id : string;
  pub_displayName : string;
  pub_outwardCode : option string;
  pub_town : option string;
  pub_memberSince : string }.
Record AdminProfile : Type := mkAdminProfile {
  adm_displayName : string;
  adm_hasPhone : bool;
  adm_address : option (string * string);
  adm_updatedAt : string }.

Record World {W : Type} : Type := mkWorld { pdb : Db; rest : W }.
Arguments World W : clear implicits.
Arguments mkWorld {W}.

Section Service.
Context {Ids : UuidSource} {Pg : PgTypes} {Enc : FieldEncryptor} {L : Luxon} {W : Type} {Ports : ProfilePorts W}.
(** What other requests commit while this one awaits, what others commit between two
    statements of the adapter, and which of two statements at once comes first. *)
Variable rival : World W -> World W.
Variable within : Db -> Db.
Variable address_first : bool.

Definition await : M (World W) () := modify rival.
Definition on_db {A} (m : (string -> bool) -> M Db A) : M (World W) A := fun w =>
  let (s, r) := m (account_known (rest w)) (pdb w) in (mkWorld s (rest w), r).

Definition stored_profile (userId : string) : M (World W) (option StoredProfile) :=
  on_db (fun _ => ProfileDb.find within address_first userId).

Definition auditableState (p : StoredProfile) : AuditableProfile :=
  mkAuditableProfile (sp_displayName p) (sp_phone p) (sp_address p) (sp_ownerStatus p).

Definition toMyProfile (p : StoredProfile) : MyProfile :=
  mkMyProfile (sp_displayName p) (sp_phone p) (sp_address p) (sp_ownerStatus p) (Time.toIsoUtc (sp_updatedAt p)).

(** [toISOString().slice(0, 7)] *)
Definition toMonth (t : instant) : string := str (take 7 (chars (Time.toIsoUtc t))).

Definition audit (actor : Actor) (action : AuditAction) (targetId : string) (before after : option AuditableProfile)
  : M (World W) () :=
  on_db (fun known db =>
    let (t, r) := Audit.record digest_profile (pclock db) known
      (Audit.mkChange (Some actor) action "profile" targetId before after None) (ptrail db) in
    (with_ptrail t db, r)).

Definition findMine (userId : string) : M (World W) (option MyProfile) :=
  stored ← stored_profile userId; mret (toMyProfile <$> stored).

Definition saveMine (actor : Actor) (input : ProfileChanges) : M (World W) MyProfile :=
  before ← stored_profile (actor_userId actor);
  _ ← await;
  saved ← on_db (fun known => save known within (actor_userId actor) input);
  _ ← await;
  _ ← audit actor (if bool_decide (is_Some before) then profile_updated else profile_created) (sp_id saved)
        (auditableState <$> before) (Some (auditableState saved));
  mret (toMyProfile saved).

Definition exportFor (userId : string) : M (World W) (option MyProfile) := findMine userId.

Definition adminSummaryFor (userId : string) : M (World W) (option AdminProfile) :=
  stored ← stored_profile userId;
  match stored with
  | None => mret None
  | Some p =>
      address ← lift (match sp_address p with
                      | None => Ok None
                      | Some a => o ← Postcode.outwardCode (postcode a); Ok (Some (town a, o))
                      end);
      mret (Some (mkAdminProfile (sp_displayName p) (bool_decide (is_Some (sp_phone p))) address
                    (Time.toIsoUtc (sp_updatedAt p))))
  end.

Definition eraseFor (actor : Actor) : M (World W) () :=
  before ← stored_profile (actor_userId actor);
  _ ← await;
  _ ← on_db (fun _ => erase within (actor_userId actor));
  match before with
  | None => mret tt
  | Some p => _ ← await; audit actor profile_erased (sp_id p) (Some (auditableState p)) None
  end.

Definition findOwnerStatus (userId : string) : M (World W) (option OwnerStatus) :=
  p ← stored_profile userId; mret (p ≫= sp_ownerStatus).

Definition findOwnerStatuses (userIds : list string) : M (World W) (gmap string OwnerStatus) := fun w =>
  (w, ProfileDb.findOwnerStatuses userIds (pdb w)).

Definition findPublic (userId : string) : M (World W) (option PublicProfile) :=
  account ← gets (fun w => findActive userId (rest w));
  account ← lift account;
  match account with
  | None => mret None
  | Some account =>
      _ ← await;
      stored ← stored_profile userId;
      match stored with
      | None => mret None
      | Some p =>
          outward ← lift (match sp_address p with
                          | None => Ok None
                          | Some a => o ← Postcode.outwardCode (postcode a); Ok (Some o)
                          end);
          mret (Some (mkPublicProfile (account_id account) (sp_displayName p) outward (town <$> sp_address p)
                        (toMonth (account_createdAt account))))
      end
  end.
End Service.
End Profiles.
