(* ===== verification/Listings.v ===== *)
(** * Categories and listings: the services
    ([apps/api/src/catalogue/catalogue.service.ts], [listings.service.ts], [limits.ts])

    [Module Catalogue]: creating and reconfiguring categories, under the margin rule.
    [Module Listings]: drafting, editing, publishing, pausing, moderating, finding,
    exporting and erasing listings.  What the services ask of other modules is the
    class [ListingPorts]; logging and metrics are left out. *)

From Stdlib Require String.
From S2P Require Import Prelude JsNumber Text Json Money Ledger Pricing Columns Bookings AuditLog.
From S2P Require Import LocalTime CoreText Answers UnitEconomics CatalogueStore ListingStore.

#[local] Open Scope string_scope.
#[local] Open Scope list_scope.
#[local] Open Scope Z_scope.

(** ** Other modules *)
Import Pricing Attributes Transport Publication CatalogueDb ListingDb AuditDb.

(** What the audit trail digests of a category, and of a moderation. *)
Record AuditableCategory : Type := mkAuditableCategory {
  ac_slug : string;
  ac_name : string;
  ac_riskLevel : CategoryRiskLevel;
  ac_reportableActivity : CategoryReportableActivity;
  ac_attributes : list CategoryAttribute;
  ac_transportOptions : list CategoryTransportOption;
  ac_feePolicy : CategoryFeePolicy;
  ac_damageSecurity : option DamageSecurityPolicy }.

Record AuditableModeration : Type := mkAuditableModeration {
  am_moderationState : ModerationState;
  am_moderationReason : option string }.

Record ProximitySearch : Type := mkSearch {
  originPostcode : string;
  radiusMiles : Z;
  ps_categoryId : option string;
  ps_keyword : option string;
  ps_dates : option (string * string);
  window_limit : Z;
  window_offset : Z }.

(** [None] is [NaN]. *)
Inductive DistanceBucket : Type := under_a_mile | approximate (miles : option Z).

Record ProximityMatch : Type := mkMatch { match_listingId : string; match_distance : DistanceBucket }.
Record ProximityPage : Type := mkProximityPage { matches : list ProximityMatch; pp_truncated : bool }.

Record ListingMediaImage : Type := mkMediaImage { mi_url : string; mi_width : Z; mi_height : Z }.
Record PublicListingMedia : Type := mkSigned {
  sm_id : string; sm_display : ListingMediaImage; sm_thumbnail : ListingMediaImage }.

Class ListingPorts (W : Type) : Type := {
  (** identity: which accounts exist *)
  account : W -> string -> bool;
  (** [PublicationSwitch], [OwnerStatusSource] *)
  isPublicationEnabled : W -> bool;
  findOwnerStatuses : list string -> W -> gmap string OwnerStatus;
  (** [ListingLocator], [ListingProximity]; the search reads the catalogue's tables *)
  locate : string -> M W (option LocatedListingPoint);
  relocate : string -> StoredFuzzOffset -> M W (option LocatedListingPoint);
  findWithin : Db -> ProximitySearch -> M W (option ProximityPage);
  (** [ListingImageSigner] *)
  sign : option ListingImageRecord -> M W (option ListingMediaImage);
  signAll : list PublicListingMediaRecord -> M W (list PublicListingMedia);
  (** [BookingReferences], and the foreign key of bookings *)
  findBookedListings : list string -> W -> list string;
  has_booking : W -> string -> bool;
  (** [ListingMediaEraser] *)
  eraseForListings : list string -> M W ();
  (** [StateDigest.of] *)
  digest_category : AuditableCategory -> string;
  digest_moderation : AuditableModeration -> string }.

Record World {W : Type} : Type := mkWorld { cdb : Db; rest : W }.
Arguments World W : clear implicits.
Arguments mkWorld {W}.

Section Ports.
Context {W : Type} {Ports : ListingPorts W}.

(** A statement of the catalogue's adapters, which reads the accounts it names. *)
Definition on_db {A} (m : (string -> bool) -> M Db A) : M (World W) A := fun w =>
  let (s, r) := m (account (rest w)) (cdb w) in (mkWorld s (rest w), r).
Definition on_rest {A} (m : M W A) : M (World W) A := fun w =>
  let (s, r) := m (rest w) in (mkWorld (cdb w) s, r).
Definition now (w : World W) : instant := cclock (cdb w).
End Ports.

(** ** [CatalogueService] *)
Module Catalogue.
Section Service.
Context {Ids : UuidSource} {Pg : PgTypes} {Order : DescOrder} {W : Type} {Ports : ListingPorts W}.
(** What other requests commit while this one awaits, and between the statements
    of an adapter. *)
Variable rival : World W -> World W.
Variable within : Db -> Db.

Definition await : M (World W) () := modify rival.

Definition CATEGORY_LIST_LIMIT : Z := 500.

Definition auditable (r : CategoryRecord) : AuditableCategory :=
  let c := cr_configuration r in
  mkAuditableCategory (cr_slug r) (cc_name c) (cc_riskLevel c) (cc_reportableActivity c) (cc_attributes c)
    (cc_transportOptions c) (cc_feePolicy c) (cc_damageSecurity c).

Definition refuseNegativeMargin (policy : CategoryFeePolicy) : result () :=
  verdict ← MarginRule.meetsMarginRule policy;
  if MarginRule.meetsRule verdict then Ok tt
  else Err (CategoryMarginError "does not allow to be enabled for public booking").

Definition audit (actor : Actor) (action : AuditAction) (targetId : string)
    (before after : option AuditableCategory) (reason : string) : M (World W) () :=
  _ ← await;
  on_db (fun known db =>
    let (t, r) := Audit.record digest_category (cclock db) known
      (Audit.mkChange (Some actor) action "category" targetId before after (Some reason)) (ctrail db) in
    (with_ctrail t db, r)).

Definition create (actor : Actor) (slug : string) (conf : CategoryConfiguration) (reason : string)
  : M (World W) CategoryRecord :=
  _ ← lift (refuseNegativeMargin (cc_feePolicy conf));
  created ← on_db (fun known => CatalogueDb.create known slug conf (actor_userId actor));
  _ ← audit actor category_created (cr_id created) None (Some (auditable created)) reason;
  mret created.

Definition reconfigure (actor : Actor) (slug : string) (conf : CategoryConfiguration) (reason : string)
  : M (World W) (option CategoryRecord) :=
  before ← on_db (fun _ => CatalogueDb.findBySlug slug);
  match before with
  | None => mret None
  | Some before =>
      _ ← lift (refuseNegativeMargin (cc_feePolicy conf));
      _ ← await;
      after ← on_db (fun known => addVersion known within slug conf (actor_userId actor));
      match after with
      | None => mret None
      | Some after =>
          _ ← audit actor category_reconfigured (cr_id after)
                (Some (auditable before)) (Some (auditable after)) reason;
          mret (Some after)
      end
  end.

Definition list_categories : M (World W) (list CategoryRecord) :=
  rows ← on_db (fun _ => list_ (Z.to_nat (Paging.probe CATEGORY_LIST_LIMIT)));
  mret (Paging.items (Paging.fitTo rows CATEGORY_LIST_LIMIT)).

Definition findBySlug (slug : string) : M (World W) (option CategoryRecord) :=
  on_db (fun _ => CatalogueDb.findBySlug slug).
End Service.
End Catalogue.

(** ** [ListingsService] *)
Module Listings.
Record SubmittedListingEdit : Type := mkSubmittedEdit {
  sl_title : string;
  sl_description : string;
  sl_replacementValue : Money.Money;
  sl_attributes : json;
  sl_transportRequirement : option TransportRequirement;
  sl_requiresTwoPersonLift : bool;
  sl_rates : ListingRateCard;
  sl_collectionLocation : option ListingCollectionLocation;
  sl_categoryVersionNumber : Z }.

Record SubmittedListing : Type := mkSubmitted {
  sl_ownerId : string;
  sl_categorySlug : string;
  sl_edit :> SubmittedListingEdit }.

Record PublicListingView : Type := mkView {
  vw_listing : PublicListingRecord; vw_ownerStatus : OwnerStatus; vw_media : list PublicListingMedia }.
Record NearbyListingView : Type := mkNearby {
  nb_listing : PublicListingSummaryRecord;
  nb_ownerStatus : OwnerStatus;
  nb_distance : DistanceBucket;
  nb_thumbnail : option ListingMediaImage }.
Record NearbySearchResults : Type := mkResults { results : list NearbyListingView; nr_truncated : bool }.

Record ListingSearchQuery : Type := mkQuery {
  q_postcode : string;
  q_radiusMiles : Z;
  q_category : option string;
  q_keyword : option string;
  q_dates : option (string * string);
  q_page : Z }.

Record ExportedListing : Type := mkExported {
  ex_id : string; ex_title : string; ex_createdAt : string; ex_collectionLocation : option ListingCollectionLocation }.

Definition EXPORTED_LISTING_LIMIT : Z := 1000.
Definition OWNED_LISTING_LIMIT : Z := 200.
Definition CATEGORY_LIST_LIMIT : Z := 500.
Definition SEARCH_RESULT_LIMIT : Z := 24.
Definition FIRST_SEARCH_PAGE : Z := 1.
Definition resultsToSkip (page : Z) : Z := (page - FIRST_SEARCH_PAGE) * SEARCH_RESULT_LIMIT.

Definition issue_pair (i : AttributeValueIssue) : option string * string := (issue_key i, issue_message i).
Definition blocker_pair (b : PublicationBlocker) : string * string := (field b, message b).

Definition willBeLocated (location : CollectionLocationEdit) : bool :=
  match location with
  | cleared => false
  | address_only _ => true
  | relocated _ point => match point with Some _ => true | None => false end
  end.

Definition moderationAuditable (l : ListingRecord) : AuditableModeration :=
  mkAuditableModeration (lr_moderationState l) (lr_moderationReason l).

(** What is stored of a submission whose answers were read as [values]. *)
Definition content_of (s : SubmittedListingEdit) (values : ListingAttributeValues) : ListingContent :=
  mkContent (sl_title s) (sl_description s) (sl_replacementValue s) values (sl_transportRequirement s)
    (sl_requiresTwoPersonLift s) (sl_rates s).

(** The questions of a category answered, or the error. *)
Definition read_submission (category : CategoryOptionRecord) (s : SubmittedListingEdit)
  : result ListingAttributeValues :=
  match validateAttributeValues (co_attributes category) (sl_attributes s) with
  | inl issues => Err (AttributeValuesInvalidError (issue_pair <$> issues))
  | inr values =>
      match sl_transportRequirement s with
      | Some r => if offersTransportRequirement (co_transportOptions category) r then Ok values
                  else Err TransportRequirementNotOfferedError
      | None => Ok values
      end
  end.

(** The category as the form knew it, or the error. *)
Definition same_version (slug : string) (category : option CategoryOptionRecord) (expected : Z)
  : result CategoryOptionRecord :=
  match category with
  | None => Err (UnknownCategoryError slug)
  | Some c => if co_versionNumber c =? expected then Ok c
              else Err (CategoryChangedError slug expected (co_versionNumber c))
  end.

Definition refuseIllegalTransition (t : ListingTransition) (from_ : ListingStatus) : result () :=
  match transitionRefusal t from_ with
  | Some refusal => Err (ListingTransitionRefusedError refusal)
  | None => Ok tt
  end.

(** A stored listing as [publish] judges it. *)
Definition candidate_of (l : ListingRecord) (ownerStatus : option OwnerStatus) : PublicationCandidate := {|
  c_description := description l;
  c_attributes := attributes l;
  c_categoryAttributes := lr_categoryAttributes l;
  c_categoryTransportOptions := lr_categoryTransportOptions l;
  c_transportRequirement := transportRequirement l;
  c_rates := rates l;
  c_hasCollectionLocation := match lr_collectionLocation l with Some _ => true | None => false end;
  c_isLocated := lr_isLocated l;
  c_ownerStatus := ownerStatus |}.

(** A listing as [edit] is about to leave it. *)
Definition edited_candidate (s : SubmittedListingEdit) (values : ListingAttributeValues)
    (category : CategoryOptionRecord) (location : CollectionLocationEdit) (ownerStatus : option OwnerStatus)
  : PublicationCandidate := {|
  c_description := sl_description s;
  c_attributes := values;
  c_categoryAttributes := co_attributes category;
  c_categoryTransportOptions := co_transportOptions category;
  c_transportRequirement := sl_transportRequirement s;
  c_rates := sl_rates s;
  c_hasCollectionLocation := match location with cleared => false | _ => true end;
  c_isLocated := willBeLocated location;
  c_ownerStatus := ownerStatus |}.

Section Service.
Context {Ids : UuidSource} {Pg : PgTypes} {Order : DescOrder} {Enc : FieldEncryptor} {L : Luxon}.
Context {W : Type} {Ports : ListingPorts W}.
(** What other requests commit while this one awaits, and between the statements
    of an adapter. *)
Variable rival : World W -> World W.
Variable within : Db -> Db.

Definition await : M (World W) () := modify rival.

Definition ownerStatusOf (userId : string) : M (World W) (option OwnerStatus) :=
  gets (fun w => findOwnerStatuses [userId] (rest w) !! userId).

(** *** Owners *)
Definition createDraft (submitted : SubmittedListing) : M (World W) ListingRecord :=
  option_ ← gets (fun w => findOption (sl_categorySlug submitted) (cdb w));
  category ← lift (same_version (sl_categorySlug submitted) option_ (sl_categoryVersionNumber submitted));
  values ← lift (read_submission category submitted);
  point ← match sl_collectionLocation submitted with
          | None => mret None
          | Some l => _ ← await; on_rest (locate (postcode l))
          end;
  _ ← await;
  on_db (fun known => ListingDb.createDraft known within
    (mkDraft (sl_ownerId submitted) (sl_categorySlug submitted) (content_of submitted values)
       (sl_collectionLocation submitted) point (co_versionNumber category))).

Definition editedLocation (listing : ListingRecord) (ownerId : string) (submitted : SubmittedListingEdit)
  : M (World W) CollectionLocationEdit :=
  match sl_collectionLocation submitted with
  | None => mret cleared
  | Some location =>
      if bool_decide (postcode <$> lr_collectionLocation listing = Some (postcode location)) && lr_isLocated listing
      then mret (address_only location)
      else
        _ ← await;
        offset ← gets (fun w => findFuzzOffset (lr_id listing) ownerId (cdb w));
        _ ← await;
        point ← on_rest match offset with
                        | None => locate (postcode location)
                        | Some o => relocate (postcode location) o
                        end;
        mret (relocated location point)
  end.

Definition edit (id ownerId : string) (submitted : SubmittedListingEdit) : M (World W) (option ListingRecord) :=
  listing ← on_db (fun _ => findOwnedBy id ownerId);
  match listing with
  | None => mret None
  | Some listing =>
      _ ← await;
      option_ ← gets (fun w => findOption (lr_categorySlug listing) (cdb w));
      category ← lift (same_version (lr_categorySlug listing) option_ (sl_categoryVersionNumber submitted));
      values ← lift (read_submission category submitted);
      location ← editedLocation listing ownerId submitted;
      _ ← (if bool_decide (lr_status listing = PUBLISHED) then
             _ ← await;
             status ← ownerStatusOf ownerId;
             let blockers := publicationBlockers (edited_candidate submitted values category location status) in
             lift (throw_if (negb (bool_decide (blockers = [])))
                     (PublishedListingIncompleteError (blocker_pair <$> blockers)))
           else mret tt);
      _ ← await;
      on_db (fun known => ListingDb.update known within id ownerId
        (mkEdit (content_of submitted values) location (co_versionNumber category)))
  end.

Definition findOwned (id ownerId : string) : M (World W) (option ListingRecord) :=
  on_db (fun _ => findOwnedBy id ownerId).
Definition isOwnedBy (id ownerId : string) : M (World W) bool := gets (fun w => existsOwnedBy id ownerId (cdb w)).
Definition ownerOf (id : string) : M (World W) (option string) := gets (fun w => ListingDb.ownerOf id (cdb w)).

Definition listOwned (ownerId : string) : M (World W) (Paging.Page ListingRecord) :=
  rows ← on_db (fun _ => listOwnedBy ownerId (Z.to_nat (Paging.probe OWNED_LISTING_LIMIT)));
  mret (Paging.fitTo rows OWNED_LISTING_LIMIT).

Definition isPublicationAvailable : M (World W) bool := gets (fun w => isPublicationEnabled (rest w)).

Definition categoryOptions : M (World W) (list CategoryOptionRecord) :=
  rows ← gets (fun w => listOptions (Z.to_nat (Paging.probe CATEGORY_LIST_LIMIT)) (cdb w));
  mret (Paging.items (Paging.fitTo rows CATEGORY_LIST_LIMIT)).

Definition publish (id ownerId : string) : M (World W) (option ListingRecord) :=
  enabled ← isPublicationAvailable;
  _ ← lift (throw_if (negb enabled) PublicationSuspendedError);
  _ ← await;
  listing ← on_db (fun _ => findOwnedBy id ownerId);
  match listing with
  | None => mret None
  | Some listing =>
      _ ← lift (refuseIllegalTransition t_publish (lr_status listing));
      _ ← await;
      status ← ownerStatusOf ownerId;
      let blockers := publicationBlockers (candidate_of listing status) in
      _ ← lift (throw_if (negb (bool_decide (blockers = [])))
                  (ListingNotPublishableError (blocker_pair <$> blockers)));
      _ ← await;
      on_db (fun known => ListingDb.publish known within id ownerId)
  end.

Definition pause (id ownerId : string) : M (World W) (option ListingRecord) :=
  listing ← on_db (fun _ => findOwnedBy id ownerId);
  match listing with
  | None => mret None
  | Some listing =>
      _ ← lift (refuseIllegalTransition t_pause (lr_status listing));
      _ ← await;
      on_db (fun known => ListingDb.pause known within id ownerId)
  end.

(** *** The public *)
Definition findPublic (id : string) : M (World W) (option PublicListingView) :=
  listing ← on_db (fun _ => findPublished id);
  match listing with
  | None => mret None
  | Some listing =>
      _ ← await;
      status ← ownerStatusOf (pl_ownerId listing);
      match status with
      | Some private_owner =>
          _ ← await;
          signed ← on_rest (signAll (pl_media listing));
          mret (Some (mkView listing private_owner signed))
      | _ => mret None
      end
  end.

Definition findQuotable (id : string) : M (World W) (option Bookings.QuotableListing) :=
  listing ← on_db (fun _ => ListingDb.findQuotable id);
  match listing with
  | None => mret None
  | Some listing =>
      _ ← await;
      status ← ownerStatusOf (Bookings.l_ownerId listing);
      match status with
      | Some private_owner => mret (Some listing)
      | _ => mret None
      end
  end.

Definition resolveSearchCategory (slug : string) : M (World W) string :=
  found ← gets (fun w => findCategoryId slug (cdb w));
  match found with
  | None => throw (UnknownCategoryError slug)
  | Some i => mret i
  end.

(** The loop over the matches. *)
Fixpoint nearby (summaries : list PublicListingSummaryRecord) (statuses : gmap string OwnerStatus)
    (found : list ProximityMatch) : M (World W) (list NearbyListingView) :=
  match found with
  | [] => mret []
  | m :: found' =>
      match find_by su_id (match_listingId m) (reverse summaries) with
      | None => nearby summaries statuses found'
      | Some listing =>
          match statuses !! su_ownerId listing with
          | Some private_owner =>
              _ ← await;
              picture ← on_rest (sign (su_thumbnail listing));
              views ← nearby summaries statuses found';
              mret (mkNearby listing private_owner (match_distance m) picture :: views)
          | _ => nearby summaries statuses found'
          end
      end
  end.

Definition searchNearby (search : ListingSearchQuery) : M (World W) (option NearbySearchResults) :=
  categoryId ← match q_category search with
               | None => mret None
               | Some slug => i ← resolveSearchCategory slug; mret (Some i)
               end;
  _ ← await;
  tables ← gets cdb;
  page ← on_rest (findWithin tables (mkSearch (q_postcode search) (q_radiusMiles search) categoryId (q_keyword search)
                                (q_dates search) SEARCH_RESULT_LIMIT (resultsToSkip (q_page search))));
  match page with
  | None => mret None
  | Some page =>
      _ ← await;
      summaries ← on_db (fun _ => findPublishedSummaries (match_listingId <$> matches page));
      _ ← await;
      statuses ← gets (fun w => findOwnerStatuses (remove_dups (su_ownerId <$> summaries)) (rest w));
      views ← nearby summaries statuses (matches page);
      mret (Some (mkResults views (pp_truncated page)))
  end.

Definition publicCategories : M (World W) (list (string * string)) :=
  rows ← gets (fun w => listCategoryNames (Z.to_nat (Paging.probe CATEGORY_LIST_LIMIT)) (cdb w));
  mret (Paging.items (Paging.fitTo rows CATEGORY_LIST_LIMIT)).

(** *** Moderators *)
Definition moderate (listingId : string) (state : ModerationState) (reason : option string) (actor : Actor)
  : M (World W) (option ListingRecord) :=
  let why := match reason with Some r => trim r | None => "" end in
  let given := if bool_decide (why = "") then None else Some why in
  _ ← lift (throw_if (moderationRequiresReason state && bool_decide (why = "")) ModerationReasonRequiredError);
  before ← on_db (fun _ => findForModeration listingId);
  match before with
  | None => mret None
  | Some before =>
      _ ← await;
      decidedAt ← gets now;
      after ← on_db (fun known => ListingDb.moderate known within
                (mkDecision listingId state given (actor_userId actor) decidedAt));
      match after with
      | None => mret None
      | Some after =>
          _ ← await;
          _ ← on_db (fun known db =>
                let (t, r) := Audit.record digest_moderation (cclock db) known
                  (Audit.mkChange (Some actor) listing_moderated "listing" (lr_id after)
                     (Some (moderationAuditable before)) (Some (moderationAuditable after)) given) (ctrail db) in
                (with_ctrail t db, r));
          mret (Some after)
      end
  end.

(** *** A person's data *)
Definition asExported (l : ListingRecord) : ExportedListing :=
  mkExported (lr_id l) (title l) (Time.toIsoUtc (lr_createdAt l)) (lr_collectionLocation l).

Definition exportFor (userId : string) : M (World W) (Paging.Page ExportedListing) :=
  rows ← on_db (fun _ => listOwnedBy userId (Z.to_nat (Paging.probe EXPORTED_LISTING_LIMIT)));
  let page := Paging.fitTo rows EXPORTED_LISTING_LIMIT in
  mret (Paging.mkPage (asExported <$> Paging.items page) (Paging.truncated page)).

Definition eraseFor (actor : Actor) : M (World W) () :=
  mine ← gets (fun w => listIdsOwnedBy (actor_userId actor) (cdb w));
  _ ← await;
  booked ← gets (fun w => findBookedListings mine (rest w));
  _ ← await;
  _ ← on_rest (eraseForListings mine);
  _ ← await;
  referenced ← gets (fun w => has_booking (rest w));
  on_db (fun _ => eraseOwnedBy referenced (actor_userId actor) booked).
End Service.
End Listings.
