(* ===== verification/Digest.v ===== *)
(** * What the audit keeps of a state ([apps/api/src/audit/state-digest.ts])

    [Module StateDigest]: the canonical JSON of a state and its keyed digest, and what
    the profiles module, the moderation of listings and the identity module put in.
    Node's [hkdfSync] and [createHmac] are the class [NodeHash].  Two states have the
    same digest exactly when they have the same content. *)

From Stdlib Require Import Ascii SpecFloat.
From Stdlib Require String.
From S2P Require Import Prelude JsNumber Text Json Ledger Bookings AuditLog LocalTime Answers CatalogueStore ListingStore Listings.
From S2P Require Import IdentityStore Identity Cipher Profiles.

#[local] Open Scope string_scope.
#[local] Open Scope list_scope.
#[local] Open Scope Z_scope.

(** [hkdfSync] and [createHmac(...).digest('hex')], of bytes. *)
Class NodeHash : Type := {
  hkdfSync : text -> text -> text -> text -> nat -> text;
  createHmac : text -> text -> text -> string }.

(** A value as it reaches the digest: what is not JSON among it are [undefined] and
    dates. *)
Inductive state : Type :=
  | s_undefined
  | s_null
  | s_bool (b : bool)
  | s_number (n : Js.number)
  | s_string (s : string)
  | s_date (t : instant)
  | s_array (l : list state)
  | s_object (entries : list (string * state)).

Module StateDigest.

Definition key_le (a b : string * json) : Prop := String.le a.1 b.1.
#[export] Instance key_le_dec : RelDecision key_le.
Proof. intros a b. unfold key_le. apply _. Defined.

Section Canonical.
Context {L : Luxon}.

(** [canonicalise], of which [undefined] has no JSON: a member of that value is left
    out, and [stringify] writes an item of it as [null]. *)
Fixpoint canonicalise (value : state) : option json :=
  match value with
  | s_undefined => None
  | s_null => Some j_null
  | s_bool b => Some (j_bool b)
  | s_number n => Some (j_number n)
  | s_string s => Some (j_string s)
  | s_date t => Some (j_string (Time.toIsoUtc t))
  | s_array l => Some (j_array ((fun v => match canonicalise v with Some j => j | None => j_null end) <$> l))
  | s_object entries =>
      Some (Json.object_of (merge_sort key_le (omap (fun e => (fun j => (e.1, j)) <$> canonicalise e.2) entries)))
  end.

(** [JSON.stringify(canonicalise(state)) ?? 'undefined'] *)
Definition canonical_text (v : state) : string :=
  match canonicalise v with Some j => Json.stringify j | None => "undefined" end.

Section Keyed.
Context {Node : NodeCrypto} {Hash : NodeHash}.

Definition PURPOSE : string := "audit-state-digest-v1".
Definition DIGEST : text := chars "sha256".
Definition KEY_BYTES : nat := 32.

(** [createStateDigest]: the key it works with. *)
Definition createStateDigest (masterKeyBase64 : string) : result text :=
  let master := from_base64 (chars masterKeyBase64) in
  _ ← throw_if (negb (Nat.eqb (length master) KEY_BYTES)) (ConfigurationError "Digest key must be 32 bytes");
  Ok (hkdfSync DIGEST master [] (utf8 PURPOSE) KEY_BYTES).

Definition digest_of (key : text) (v : state) : string := createHmac DIGEST key (utf8 (canonical_text v)).
End Keyed.
End Canonical.

(** ** What is put in *)
Definition or_null {A} (f : A -> state) (x : option A) : state := match x with Some a => f a | None => s_null end.

(** [auditableState] of the profiles module. *)
Definition address_state (a : ProfileDb.AddressDetail) : state :=
  s_object [("line1", s_string (ProfileDb.line1 a)); ("line2", or_null s_string (ProfileDb.line2 a));
            ("town", s_string (ProfileDb.town a)); ("postcode", s_string (ProfileDb.postcode a))].
Definition profile_state (p : AuditableProfile) : state :=
  s_object [("displayName", s_string (ap_displayName p)); ("phone", or_null s_string (ap_phone p));
            ("address", or_null address_state (ap_address p));
            ("ownerStatus", or_null (fun o => s_string (ProfileDb.status_name o)) (ap_ownerStatus p))].

(** [moderationAuditable] *)
Definition moderation_name (s : Publication.ModerationState) : string :=
  match s with Publication.APPROVED => "APPROVED" | Publication.UNDER_REVIEW => "UNDER_REVIEW" | Publication.REJECTED => "REJECTED" end.
Definition moderation_state (m : AuditableModeration) : state :=
  s_object [("moderationState", s_string (moderation_name (am_moderationState m)));
            ("moderationReason", or_null s_string (am_moderationReason m))].

(** [auditableAccount] *)
Definition account_state (a : Identity.AuditableAccount) : state :=
  s_object [("id", s_string (Identity.aud_id a)); ("email", s_string (Identity.aud_email a)); ("role", s_string (IdentityDb.role_name (Identity.aud_role a)));
            ("suspended", s_bool (Identity.aud_suspended a))].

(** ** States with the same digest *)

(** A state as the modules make them: property names, each once, and safe integers. *)
Inductive lawful : state -> Prop :=
  | lawful_undefined : lawful s_undefined
  | lawful_null : lawful s_null
  | lawful_bool (b : bool) : lawful (s_bool b)
  | lawful_number (z : Z) : Js.is_safe z = true -> lawful (s_number (Js.of_Z z))
  | lawful_string (s : string) : lawful (s_string s)
  | lawful_date (t : instant) : lawful (s_date t)
  | lawful_array (l : list state) : Forall lawful l -> lawful (s_array l)
  | lawful_object (entries : list (string * state)) :
      NoDup entries.*1 -> Forall (fun k => Json.is_index k = false) entries.*1 ->
      Forall (fun e => lawful e.2) entries -> lawful (s_object entries).

Lemma set_entry_fresh (k : string) (v : json) (l : list (string * json)) :
  k ∉ l.*1 -> Json.set_entry k v l = l ++ [(k, v)].
Proof.
  induction l as [|e l IH]; [done|]. cbn. rewrite not_elem_of_cons. intros [Hk Hl].
  rewrite bool_decide_eq_false_2 by congruence. by rewrite IH.
Qed.

Lemma set_entries_fresh (l acc : list (string * json)) :
  NoDup (acc ++ l).*1 -> fold_left (fun a e => Json.set_entry e.1 e.2 a) l acc = acc ++ l.
Proof.
  revert acc. induction l as [|e l IH]; intros acc H; cbn; [by rewrite app_nil_r|].
  assert (acc ++ e :: l = (acc ++ [e]) ++ l) as E by by rewrite <- app_assoc.
  rewrite set_entry_fresh.
  - destruct e as [k v]. cbn [fst snd]. rewrite IH; [by rewrite E|by rewrite <- E].
  - rewrite fmap_app in H. apply NoDup_app in H as (_ & H & _). intros Hin. apply (H _ Hin). by left.
Qed.

Lemma in_key_order_names (l : list (string * json)) :
  Forall (fun k => Json.is_index k = false) l.*1 -> Json.in_key_order l = l.
Proof.
  intros H. unfold Json.in_key_order. rewrite Forall_fmap in H.
  assert (List.filter (fun e => Json.is_index e.1) l = []) as ->.
  { apply filter_none. intros e He. rewrite Forall_forall in H. by apply H. }
  cbn. induction H as [|e l He _ IH]; cbn; [done|]. cbn in He. by rewrite He, IH.
Qed.

Lemma object_of_names (l : list (string * json)) :
  NoDup l.*1 -> Forall (fun k => Json.is_index k = false) l.*1 -> Json.object_of l = j_object l.
Proof.
  intros Hnd Hi. unfold Json.object_of. rewrite (set_entries_fresh l []) by done. by rewrite in_key_order_names.
Qed.

Section Same.
Context {L : Luxon}.

(** The members that have a value, in no particular order. *)
Definition members (entries : list (string * state)) : list (string * json) :=
  omap (fun e => (fun j => (e.1, j)) <$> canonicalise e.2) entries.
Definition member (k : string) (entries : list (string * state)) : option json :=
  e ← find_by fst k entries; canonicalise e.2.

Lemma members_keys (entries : list (string * state)) : (members entries).*1 `sublist_of` entries.*1.
Proof.
  unfold members. induction entries as [|[k v] l IH]; cbn; [done|]. destruct (canonicalise v); cbn; by constructor.
Qed.

Lemma members_names (entries : list (string * state)) (P : string -> Prop) :
  Forall P entries.*1 -> Forall P (members entries).*1.
Proof. rewrite !Forall_forall. intros H k Hk. by eapply H, sublist_subseteq, Hk; apply members_keys. Qed.

Lemma elem_of_members (k : string) (j : json) (entries : list (string * state)) :
  NoDup entries.*1 -> (k, j) ∈ members entries <-> member k entries = Some j.
Proof.
  intros Hnd. unfold members, member. rewrite list_elem_of_omap. split.
  - intros ([k' v] & Hin & H). cbn in H. destruct (canonicalise v) as [j'|] eqn:E; [|done]. injection H as <- <-.
    pose proof (find_by_unique fst entries (k', v) Hnd Hin) as Hf. cbn in Hf. rewrite Hf. exact E.
  - destruct (find_by fst k entries) as [[k' v]|] eqn:E; [|done]. apply find_by_Some in E as [Hin Hk]. cbn in *. subst k'.
    intros Hc. exists (k, v). split; [done|]. cbn. by rewrite Hc.
Qed.

#[local] Instance key_le_total : Total key_le.
Proof. intros a b. unfold key_le. apply (total String.le). Qed.
#[local] Instance key_le_trans : Transitive key_le.
Proof. intros a b c. unfold key_le. apply transitivity. Qed.

Lemma sorted_keys (l : list (string * json)) : (merge_sort key_le l).*1 ≡ₚ l.*1.
Proof. apply fmap_Permutation, merge_sort_Permutation. Qed.

Lemma canonical_object (entries : list (string * state)) :
  NoDup entries.*1 -> Forall (fun k => Json.is_index k = false) entries.*1 ->
  canonicalise (s_object entries) = Some (j_object (merge_sort key_le (members entries))).
Proof.
  intros Hnd Hi. cbn [canonicalise]. f_equal. apply object_of_names.
  - rewrite sorted_keys. by eapply sublist_NoDup; [|apply members_keys].
  - rewrite sorted_keys. by apply members_names.
Qed.

Lemma sorted_unique (l l' : list (string * json)) :
  NoDup l.*1 -> (forall x, x ∈ l <-> x ∈ l') -> NoDup l'.*1 -> merge_sort key_le l = merge_sort key_le l'.
Proof.
  intros Hl Hin Hl'.
  assert (l ≡ₚ l') as Hp by (apply NoDup_Permutation; [by eapply NoDup_fmap_1|by eapply NoDup_fmap_1|done]).
  apply (StronglySorted_unique_strong key_le).
  - intros [k v] [k' v'] Hx Hy H1 H2. unfold key_le in *. cbn in *.
    assert (k = k') as <- by by apply (anti_symm String.le). rewrite merge_sort_Permutation in Hx, Hy. apply Hin in Hy.
    pose proof (find_by_unique fst l _ Hl Hx) as F1. pose proof (find_by_unique fst l _ Hl Hy) as F2. cbn in *. congruence.
  - apply StronglySorted_merge_sort; apply _.
  - apply StronglySorted_merge_sort; apply _.
  - by rewrite !merge_sort_Permutation.
Qed.

(** Two objects are the same when each property has the same content, in whatever order
    they are written, one that is [undefined] being as good as none. *)
Lemma same_objects (es es' : list (string * state)) :
  lawful (s_object es) -> lawful (s_object es') ->
  canonicalise (s_object es) = canonicalise (s_object es') <-> forall k, member k es = member k es'.
Proof.
  intros H H'. inversion_clear H as [| | | | | | |? Hn Hi _]. inversion_clear H' as [| | | | | | |? Hn' Hi' _].
  rewrite !canonical_object by done. split.
  - intros [= E] k.
    assert (forall j, member k es = Some j <-> member k es' = Some j) as Hj.
    { intros j. rewrite <- !elem_of_members by done. rewrite <- (merge_sort_Permutation key_le (members es)), E.
      by rewrite merge_sort_Permutation. }
    destruct (member k es) as [j|]; [by symmetry; apply Hj|]. destruct (member k es') as [j|]; [by apply Hj|done].
  - intros E. do 2 f_equal. apply sorted_unique.
    + by eapply sublist_NoDup; [|apply members_keys].
    + intros [k j]. by rewrite !elem_of_members, E.
    + by eapply sublist_NoDup; [|apply members_keys].
Qed.

(** ** The text tells states apart *)
Lemma state_induction (P : state -> Prop) :
  P s_undefined -> P s_null -> (forall b, P (s_bool b)) -> (forall n, P (s_number n)) -> (forall s, P (s_string s)) ->
  (forall t, P (s_date t)) -> (forall l, Forall P l -> P (s_array l)) ->
  (forall es, Forall (fun e => P e.2) es -> P (s_object es)) -> forall v, P v.
Proof.
  intros H1 H2 H3 H4 H5 H6 Ha Ho. fix IH 1.
  intros [| |b|n|s|t|l|es]; [exact H1|exact H2|apply H3|apply H4|apply H5|apply H6|apply Ha|apply Ho].
  - induction l as [|x l IHl]; constructor; [apply IH|exact IHl].
  - induction es as [|x es IHl]; constructor; [apply IH|exact IHl].
Qed.

Lemma canonical_plain (v : state) (j : json) : lawful v -> canonicalise v = Some j -> Json.plain j.
Proof.
  revert j. induction v as [| |b|n|s|t|l IH|es IH] using state_induction; intros j Hl.
  1-6: inversion Hl; subst; cbn; try done; intros [= <-]; by constructor.
  - inversion_clear Hl as [| | | | | |? Hl'|]. intros [= <-]. constructor. apply Forall_fmap.
    rewrite Forall_forall in IH, Hl' |- *. intros x Hx. cbn. destruct (canonicalise x) as [j|] eqn:E; [|constructor]. by apply (IH x); auto.
  - inversion_clear Hl as [| | | | | | |? Hn Hi Hes]. rewrite canonical_object by done. intros [= <-]. constructor.
    + rewrite merge_sort_Permutation. apply Forall_forall. intros [k j] (e & He & H)%list_elem_of_omap.
      destruct (canonicalise e.2) as [j'|] eqn:E; [|done]. injection H as <- <-.
      apply (proj1 (Forall_forall _ _) IH e He); [by apply (proj1 (Forall_forall _ _) Hes e)|exact E].
    + apply object_of_names.
      * rewrite sorted_keys. by eapply sublist_NoDup; [|apply members_keys].
      * rewrite sorted_keys. by apply members_names.
Qed.

Lemma canonical_text_inj (v w : state) :
  lawful v -> lawful w -> canonical_text v = canonical_text w -> canonicalise v = canonicalise w.
Proof.
  intros Hv Hw. unfold canonical_text. pose proof (fun j => canonical_plain v j Hv) as Pv. pose proof (fun j => canonical_plain w j Hw) as Pw.
  assert (forall j, Json.plain j -> Json.stringify j <> "undefined") as Hu.
  { intros j Hj E. pose proof (Json.parse_stringify j Hj) as H. rewrite E in H. by vm_compute in H. }
  destruct (canonicalise v) as [j|], (canonicalise w) as [j'|]; intros E.
  - f_equal. apply Json.stringify_inj; auto.
  - by apply Hu in E; auto.
  - by symmetry in E; apply Hu in E; auto.
  - done.
Qed.

(** *** What the modules put in *)
Lemma address_lawful (a : ProfileDb.AddressDetail) : lawful (address_state a).
Proof.
  constructor; [by apply (bool_decide_unpack _)|by apply (bool_decide_unpack _)|].
  destruct a as [l1 [l2|] t p]; repeat (apply Forall_cons; split); by constructor.
Qed.

Lemma profile_lawful (p : AuditableProfile) : lawful (profile_state p).
Proof.
  constructor; [by apply (bool_decide_unpack _)|by apply (bool_decide_unpack _)|].
  destruct p as [n ph ad st]. repeat (apply Forall_cons; split); try apply Forall_nil_2; cbn [fst snd ap_displayName ap_phone ap_address ap_ownerStatus].
  - constructor.
  - destruct ph; constructor.
  - destruct ad; [apply address_lawful|constructor].
  - destruct st; constructor.
Qed.

Lemma moderation_lawful (m : AuditableModeration) : lawful (moderation_state m).
Proof.
  constructor; [by apply (bool_decide_unpack _)|by apply (bool_decide_unpack _)|].
  destruct m as [s [r|]]; repeat (apply Forall_cons; split); by constructor.
Qed.

Lemma account_lawful (a : Identity.AuditableAccount) : lawful (account_state a).
Proof.
  constructor; [by apply (bool_decide_unpack _)|by apply (bool_decide_unpack _)|].
  repeat (apply Forall_cons; split); by constructor.
Qed.

Lemma address_same (a b : ProfileDb.AddressDetail) : canonicalise (address_state a) = canonicalise (address_state b) -> a = b.
Proof.
  intros H. pose proof (proj1 (same_objects _ _ (address_lawful a) (address_lawful b)) H) as Hm. clear H.
  pose proof (Hm "line1") as H1. pose proof (Hm "line2") as H2. pose proof (Hm "town") as H3. pose proof (Hm "postcode") as H4.
  destruct a as [a1 [a2|] a3 a4], b as [b1 [b2|] b3 b4]; vm_compute in H1, H2, H3, H4; congruence.
Qed.

Lemma profile_same (p q : AuditableProfile) : canonicalise (profile_state p) = canonicalise (profile_state q) -> p = q.
Proof.
  intros H. pose proof (proj1 (same_objects _ _ (profile_lawful p) (profile_lawful q)) H) as Hm. clear H.
  pose proof (Hm "displayName") as H1. pose proof (Hm "phone") as H2. pose proof (Hm "address") as H3. pose proof (Hm "ownerStatus") as H4.
  destruct p as [n ph ad st], q as [n' ph' ad' st'].
  change (canonicalise (s_string n) = canonicalise (s_string n')) in H1.
  change (canonicalise (or_null s_string ph) = canonicalise (or_null s_string ph')) in H2.
  change (canonicalise (or_null address_state ad) = canonicalise (or_null address_state ad')) in H3.
  change (canonicalise (or_null (fun o => s_string (ProfileDb.status_name o)) st)
    = canonicalise (or_null (fun o => s_string (ProfileDb.status_name o)) st')) in H4.
  f_equal.
  - cbn in H1. congruence.
  - destruct ph, ph'; cbn in H2; congruence.
  - destruct ad as [a|], ad' as [b|]; cbn [or_null] in H3; [f_equal; by apply address_same|done..].
  - destruct st as [[]|], st' as [[]|]; cbn in H4; congruence.
Qed.

Lemma moderation_same (m n : AuditableModeration) : canonicalise (moderation_state m) = canonicalise (moderation_state n) -> m = n.
Proof.
  intros H. pose proof (proj1 (same_objects _ _ (moderation_lawful m) (moderation_lawful n)) H) as Hm. clear H.
  pose proof (Hm "moderationState") as H1. pose proof (Hm "moderationReason") as H2.
  destruct m as [[] [r|]], n as [[] [r'|]]; vm_compute in H1, H2; congruence.
Qed.

Lemma account_same (a b : Identity.AuditableAccount) : canonicalise (account_state a) = canonicalise (account_state b) -> a = b.
Proof.
  intros H. pose proof (proj1 (same_objects _ _ (account_lawful a) (account_lawful b)) H) as Hm. clear H.
  pose proof (Hm "id") as H1. pose proof (Hm "email") as H2. pose proof (Hm "role") as H3. pose proof (Hm "suspended") as H4.
  destruct a as [i e r s], b as [i' e' r' s']. vm_compute in H1, H2, H3, H4. destruct r, r'; congruence.
Qed.

(** ** The theorems *)
Section Theorems.
Context {Node : NodeCrypto} {Hash : NodeHash}.

(** The keyed hash does not happen to give these two texts one digest. *)
Definition no_collision (key : text) (v w : state) : Prop :=
  digest_of key v = digest_of key w -> utf8 (canonical_text v) = utf8 (canonical_text w).

Lemma digests_iff (key : text) (v w : state) :
  lawful v -> lawful w -> no_collision key v w ->
  digest_of key v = digest_of key w <-> canonicalise v = canonicalise w.
Proof.
  intros Hv Hw Hn. split.
  - intros H. apply canonical_text_inj; [done|done|]. by apply Encryption.utf8_inj, Hn.
  - intros H. unfold digest_of, canonical_text. by rewrite H.
Qed.

(** Two objects have one digest exactly when every property has the same content in both, in
    whatever order the properties were written, and a property that is undefined counts as
    absent; lists have one digest exactly when they have the same items in the same order.
    *)
Theorem same_digest_same_content (key : text) :
  (forall es es', lawful (s_object es) -> lawful (s_object es') -> no_collision key (s_object es) (s_object es') ->
    digest_of key (s_object es) = digest_of key (s_object es') <-> forall k, member k es = member k es') /\
  (forall l l', lawful (s_array l) -> lawful (s_array l') -> no_collision key (s_array l) (s_array l') ->
    digest_of key (s_array l) = digest_of key (s_array l') <->
    Forall2 (fun v w => default j_null (canonicalise v) = default j_null (canonicalise w)) l l').
Proof.
  split.
  - intros es es' H H' Hn. rewrite digests_iff by done. by apply same_objects.
  - intros l l' H H' Hn. rewrite digests_iff by done. cbn [canonicalise]. split.
    + intros [= E]. apply list_eq_Forall2 in E. by rewrite Forall2_fmap in E.
    + intros E. do 2 f_equal. apply list_eq_Forall2. by rewrite Forall2_fmap.
Qed.

(** C32. An entry of the audit shows whether anything changed: the digests before and after
    are equal exactly when the profile, the moderation or the account is as it was, unless
    the keyed hash collides on the two. *)
Theorem digests_show_changes (key : text) :
  (forall p q, no_collision key (profile_state p) (profile_state q) ->
    digest_of key (profile_state p) = digest_of key (profile_state q) <-> p = q) /\
  (forall m n, no_collision key (moderation_state m) (moderation_state n) ->
    digest_of key (moderation_state m) = digest_of key (moderation_state n) <-> m = n) /\
  (forall a b, no_collision key (account_state a) (account_state b) ->
    digest_of key (account_state a) = digest_of key (account_state b) <-> a = b).
Proof.
  split_and!.
  - intros p q Hn. rewrite (digests_iff _ _ _ (profile_lawful p) (profile_lawful q) Hn). split; [apply profile_same|by intros ->].
  - intros m n Hn. rewrite (digests_iff _ _ _ (moderation_lawful m) (moderation_lawful n) Hn). split; [apply moderation_same|by intros ->].
  - intros a b Hn. rewrite (digests_iff _ _ _ (account_lawful a) (account_lawful b) Hn). split; [apply account_same|by intros ->].
Qed.
End Theorems.
End Same.
End StateDigest.
