(* ===== verification/ListingProofs.v ===== *)
(** * Categories and listings: who changes what, and what requests do

    [step_rows]: what one statement can do to each row, by whom.  Then the requests:
    every handler of the two services, whatever its rivals commit at each await, is a
    sequence of steps of its own party and of theirs ([safely], by [safely_bind]). *)

From Stdlib Require String.
From S2P Require Import Prelude JsNumber Text Money Ledger LedgerStore Pricing.
From S2P Require Import Columns Bookings AuditLog LocalTime CoreText Answers AnswersProofs UnitEconomics.
From S2P Require Import CatalogueStore ListingStore ListingRows Listings.

#[local] Open Scope string_scope.
#[local] Open Scope list_scope.
#[local] Open Scope Z_scope.

Import Money Pricing Attributes Transport Publication CatalogueDb ListingDb AuditDb.

(** ** What a party can do to a listing *)
Definition same_identity (r r' : ListingRow) : Prop :=
  li_id r' = li_id r /\ li_ownerId r' = li_ownerId r /\ li_categoryId r' = li_categoryId r /\
  li_createdAt r' = li_createdAt r.
Definition same_moderation (r r' : ListingRow) : Prop :=
  li_moderationState r' = li_moderationState r /\ li_moderationReason r' = li_moderationReason r /\
  li_moderatedById r' = li_moderatedById r /\ li_moderatedAt r' = li_moderatedAt r.

Inductive row_step (p : party) (r : ListingRow) : ListingRow -> Prop :=
  | rs_same : row_step p r r
  | rs_owner r' : p = an_owner (li_ownerId r) -> same_identity r r' -> same_moderation r r' -> row_step p r r'
  | rs_moderator d at_ : p = a_moderator -> row_step p r (with_moderation d at_ r).

Lemma row_step_identity (p : party) (r r' : ListingRow) : row_step p r r' -> same_identity r r'.
Proof. by intros []. Qed.

Section Steps.
Context {Ids : UuidSource} {Pg : PgTypes} {Order : DescOrder} {Enc : FieldEncryptor}.

Record rows_step (p : party) (db db' : Db) : Prop := {
  st_seq : (cseq db <= cseq db')%nat;
  st_categories : categories db `prefix_of` categories db';
  st_versions : versions db `prefix_of` versions db';
  st_after : forall r', r' ∈ listings db' ->
    (exists r, r ∈ listings db /\ row_step p r r') \/
    (li_id r' = uuid (cseq db) /\ (cseq db < cseq db')%nat /\ p = an_owner (li_ownerId r') /\ li_status r' = DRAFT /\
     li_moderationState r' = APPROVED);
  st_before : forall r, r ∈ listings db ->
    (exists r', r' ∈ listings db' /\ row_step p r r') \/ p = an_owner (li_ownerId r) }.

Lemma rows_step_listings (p : party) (db db' : Db) :
  (cseq db <= cseq db')%nat -> categories db `prefix_of` categories db' -> versions db `prefix_of` versions db' ->
  listings db' = listings db -> rows_step p db db'.
Proof.
  intros Hs Hc Hv Hl. split; try done; rewrite Hl.
  - intros r Hr. left. exists r. split; [done|constructor].
  - intros r Hr. left. exists r. split; [done|constructor].
Qed.

Lemma rows_step_refl (p : party) (db : Db) : rows_step p db db.
Proof. by apply rows_step_listings. Qed.

Lemma rows_step_map (p : party) (g : ListingRow -> ListingRow) (db db' : Db) :
  (cseq db <= cseq db')%nat -> categories db' = categories db -> versions db' = versions db ->
  listings db' = g <$> listings db -> (forall r, r ∈ listings db -> row_step p r (g r)) -> rows_step p db db'.
Proof.
  intros Hs Hc Hv Hl Hg. split; rewrite ?Hc, ?Hv; try done; rewrite Hl.
  - intros r' (r & -> & Hr)%list_elem_of_fmap. left. exists r. auto.
  - intros r Hr. left. exists (g r). split; [by apply list_elem_of_fmap_2|auto].
Qed.

Lemma writeLocation_listings (i : string) (e : CollectionLocationEdit) (db : Db) :
  listings (fst (writeLocation i e db)) = listings db /\ categories (fst (writeLocation i e db)) = categories db /\
  versions (fst (writeLocation i e db)) = versions db /\ (cseq db <= cseq (fst (writeLocation i e db)))%nat.
Proof.
  unfold writeLocation, update_location, insert_location, delete_locations, modify.
  destruct e as [l|l point|]; repeat case_match; cbn; split_and!; try done; lia.
Qed.

Lemma is_owned_true (id ownerId : string) (r : ListingRow) :
  is_owned id ownerId r = true <-> li_id r = id /\ li_ownerId r = ownerId.
Proof. unfold is_owned. by rewrite andb_true_iff, !bool_decide_eq_true. Qed.

Lemma step_rows (p : party) (db db' : Db) : step p db db' -> rows_step p db db'.
Proof.
  intros [known slug conf author db0 Hl _|known i n conf author db0 _ _ _|known d v db0 _ _|known i o e v db0 _ _
    |known i o s db0|known d db0|ref o retained db0 _|t db0|m db0|t db0].
  - destruct (CatalogueDb.create _ _ _ _ _) as [db1 x] eqn:E. cbn.
    apply create_cases in E as [[-> _]|(-> & _)]; [apply rows_step_refl| |done].
    apply rows_step_listings; cbn; [lia|by apply prefix_app_r|by apply prefix_app_r|done].
  - destruct (insert_version _ _ _ _ _ _) as [db1 x] eqn:E. cbn.
    apply insert_version_cases in E as [[-> _]|(_ & -> & _)]; [apply rows_step_refl|].
    apply rows_step_listings; cbn; [lia|done|by apply prefix_app_r|done].
  - destruct (write_draft _ _ _ _) as [db1 x] eqn:E. cbn.
    apply write_draft_cases in E as [[-> _]|(columns & _ & _ & _ & Hdb)]; [apply rows_step_refl|].
    set (r := with_content _ _ _ _ _) in *.
    assert (listings db1 = listings db0 ++ [r] /\ categories db1 = categories db0 /\ versions db1 = versions db0 /\
      (cseq db0 < cseq db1)%nat) as (Hli & Hc & Hv & Hs).
    { destruct (dr_collectionLocation d); [destruct Hdb as (_ & _ & ->)|subst db1]; cbn; split_and!; try done; lia. }
    split; rewrite ?Hc, ?Hv; try done; [lia| |]; rewrite Hli.
    + intros r' [Hr'| ->%list_elem_of_singleton]%elem_of_app; [left; exists r'; split; [done|constructor]|by right].
    + intros r' Hr'. left. exists r'. split; [apply elem_of_app; by left|constructor].
  - destruct (write_edit _ _ _ _ _ _) as [db1 x] eqn:E. cbn.
    apply write_edit_cases in E as [[-> _]|(columns & _ & _ & _ & _ & Hw)]; [apply rows_step_refl|].
    pose proof (writeLocation_listings i (ed_collectionLocation e)
      (with_listings (edited i o e v columns (cclock db0) <$> listings db0) db0)) as (Hli & Hc & Hv & Hs).
    rewrite Hw in *. cbn [fst] in *. eapply rows_step_map; [exact Hs|exact Hc|exact Hv|exact Hli|].
    intros r _. unfold edited. destruct (is_owned i o r) eqn:Ho; [|constructor].
    apply is_owned_true in Ho as [_ <-]. by apply rs_owner.
  - unfold set_status. run_binds. destruct (update_listings _ _ _ _) as [db1 x] eqn:E. cbn.
    apply update_listings_cases in E as [[-> _]|(_ & -> & _)]; [apply rows_step_refl|].
    eapply rows_step_map; try done. intros r _. cbn. destruct (is_owned i o r) eqn:Ho; [|constructor].
    apply is_owned_true in Ho as [_ <-]. by apply rs_owner.
  - unfold set_moderation. run_binds. rewrite <- bind_at, bind_mret_fst by (intros n ?; by destruct (n =? 0)%nat).
    destruct (update_listings _ _ _ _) as [db1 x] eqn:E. cbn.
    apply update_listings_cases in E as [[-> _]|(_ & -> & _)]; [apply rows_step_refl|].
    eapply rows_step_map; try done. intros r _. cbn. destruct (bool_decide _); [by apply rs_moderator|constructor].
  - destruct (eraseOwnedBy _ _ _ _) as [db1 x] eqn:E. cbn.
    apply eraseOwnedBy_cases in E as [[-> _]|(_ & _ & ->)]; [apply rows_step_refl|]. split; cbn; try done.
    + intros r [Hr _]%elem_of_bfilter. left. exists r. split; [done|constructor].
    + intros r Hr. destruct (erasable o retained r) eqn:He.
      * right. unfold erasable in He. apply andb_true_iff in He as [He%bool_decide_eq_true _]. by rewrite He.
      * left. exists r. split; [|constructor]. apply elem_of_bfilter. by rewrite He.
  - by apply rows_step_listings.
  - by apply rows_step_listings.
  - by apply rows_step_listings.
Qed.

(** ** Facts no step undoes *)
Definition stable (F : Db -> Prop) : Prop := forall p db db', catalogue_wf db -> step p db db' -> F db -> F db'.

Lemma reach_kept (F : Db -> Prop) (who : party -> Prop) (db db' : Db) :
  (forall p a b, who p -> catalogue_wf a -> step p a b -> F a -> F b) ->
  catalogue_wf db -> reach who db db' -> F db -> F db'.
Proof.
  intros HF Hwf Hr. revert Hwf. induction Hr as [|a b c (p & Hp & Hs) _ IH]; [done|]. intros Hwf Ha.
  apply IH; [by eapply wf_step|by eapply HF].
Qed.

Lemma stable_reach (F : Db -> Prop) (who : party -> Prop) (db db' : Db) :
  stable F -> catalogue_wf db -> reach who db db' -> F db -> F db'.
Proof. intros HF. apply reach_kept. intros p a b _. apply HF. Qed.

Lemma stable_and (F G : Db -> Prop) : stable F -> stable G -> stable (fun db => F db /\ G db).
Proof. intros HF HG p db db' Hwf Hs [? ?]. split; [by eapply HF|by eapply HG]. Qed.

Lemma stable_ex {A} (F : A -> Db -> Prop) : (forall a, stable (F a)) -> stable (fun db => exists a, F a db).
Proof. intros HF p db db' Hwf Hs [a Ha]. exists a. by eapply HF. Qed.

Lemma stable_const (P : Prop) : stable (fun _ => P).
Proof. by intros p db db' _ _. Qed.

Lemma stable_version (v : VersionRow) : stable (fun db => v ∈ versions db).
Proof.
  intros p db db' _ Hs Hv. destruct (st_versions _ _ _ (step_rows p db db' Hs)) as [l ->]. apply elem_of_app. by left.
Qed.

Lemma stable_slug (slug : string) (c : CategoryRow) : stable (fun db => by_slug slug db = Some c).
Proof.
  intros p db db' _ Hs Hc. eapply find_by_mono; [|exact Hc]. apply (st_categories _ _ _ (step_rows p db db' Hs)).
Qed.

Definition fixed (f : ListingRow -> string) (id k : string) (db : Db) : Prop :=
  issued (cseq db) id /\ forall r, r ∈ listings db -> li_id r = id -> f r = k.

Lemma stable_fixed (f : ListingRow -> string) (id k : string) :
  (forall r r', same_identity r r' -> f r' = f r) -> stable (fixed f id k).
Proof.
  intros Hf p db db' _ Hs%step_rows [Hi Hr]. split; [by eapply issued_mono; [apply (st_seq _ _ _ Hs)|]|].
  intros r' Hr' Hid. destruct (st_after _ _ _ Hs r' Hr') as [(r & Hin & Hrs%row_step_identity)|(Hnew & _)].
  - rewrite (Hf r r' Hrs). apply Hr; [done|]. destruct Hrs as [<- _]. done.
  - exfalso. apply (issued_fresh (cseq db)). by rewrite <- Hnew, Hid.
Qed.

Lemma stable_owner (id k : string) : stable (fixed li_ownerId id k).
Proof. apply stable_fixed. by intros r r' (_ & ? & _). Qed.

Lemma stable_category (id k : string) : stable (fixed li_categoryId id k).
Proof. apply stable_fixed. by intros r r' (_ & _ & ? & _). Qed.

Lemma row_fixed (f : ListingRow -> string) (r : ListingRow) (db : Db) :
  catalogue_wf db -> r ∈ listings db -> fixed f (li_id r) (f r) db.
Proof.
  intros Hwf Hr. split.
  - pose proof (wf_listing_issued _ Hwf) as Hi. rewrite Forall_fmap, Forall_forall in Hi. by apply Hi.
  - intros r' Hr' Hid.
    pose proof (find_by_unique li_id (listings db) r (wf_listing_ids _ Hwf) Hr) as H1.
    pose proof (find_by_unique li_id (listings db) r' (wf_listing_ids _ Hwf) Hr') as H2. congruence.
Qed.

(** ** The latest version *)
Lemma latest_spec (i : string) (db : Db) (v : VersionRow) :
  latest_version i db = Some v -> v ∈ of_category i db /\
    forall w, w ∈ of_category i db -> ver_versionNumber w <= ver_versionNumber v.
Proof.
  unfold latest_version. fold (of_category i db). generalize (of_category i db). intros l. revert v.
  induction l as [|w l IH]; [done|]. cbn. intros v. destruct (foldr _ None l) as [u|] eqn:E; cbn.
  - destruct (IH u eq_refl) as [Hu Hmax]. destruct (Z.ltb_spec (ver_versionNumber w) (ver_versionNumber u)); intros [= <-].
    + split; [by right|]. intros x [->|Hx]%elem_of_cons; [lia|auto].
    + split; [by left|]. intros x [->|Hx]%elem_of_cons; [lia|]. specialize (Hmax x Hx). lia.
  - intros [= <-]. assert (l = []) as -> by (destruct l as [|x l]; [done|]; cbn in E; destruct (foldr _ _ _); cbn in E; repeat case_match; done).
    split; [by left|]. by intros x ->%list_elem_of_singleton.
Qed.

Lemma elem_of_category (i : string) (db : Db) (v : VersionRow) :
  v ∈ of_category i db <-> v ∈ versions db /\ ver_categoryId v = i.
Proof. unfold of_category. by rewrite elem_of_bfilter, bool_decide_eq_true. Qed.

Lemma latest_some (c : CategoryRow) (db : Db) :
  catalogue_wf db -> c ∈ categories db -> exists v, latest_version (cat_id c) db = Some v.
Proof.
  intros Hwf Hc. destruct (wf_numbered _ Hwf c Hc) as [n Hn]. unfold latest_version. fold (of_category (cat_id c) db).
  destruct (of_category (cat_id c) db) as [|w l]; [done|]. cbn. destruct (foldr _ None l); cbn; [|by eexists].
  destruct (_ <? _); by eexists.
Qed.

(** A category has one version of each number. *)
Lemma version_unique (v w : VersionRow) (db : Db) :
  catalogue_wf db -> v ∈ versions db -> w ∈ versions db -> ver_categoryId v = ver_categoryId w ->
  ver_versionNumber v = ver_versionNumber w -> v = w.
Proof.
  intros Hwf Hv Hw Hc Hn. pose proof (wf_version_categories _ Hwf) as Hcat. rewrite Forall_forall in Hcat.
  destruct (proj1 (list_elem_of_fmap _ _ _) (Hcat v Hv)) as (c & Ec & Hin).
  destruct (wf_numbered _ Hwf c Hin) as [n Hnum].
  assert (NoDup (ver_versionNumber <$> of_category (cat_id c) db)) as Hnd.
  { rewrite Hnum. apply NoDup_fmap_2; [apply _|apply NoDup_ListNoDup, List.seq_NoDup]. }
  assert (forall x, x ∈ versions db -> ver_categoryId x = cat_id c ->
    find_by ver_versionNumber (ver_versionNumber x) (of_category (cat_id c) db) = Some x) as Hfind.
  { intros x Hx Hxc. apply find_by_unique; [done|]. by apply elem_of_category. }
  pose proof (Hfind v Hv Ec) as H1. pose proof (Hfind w Hw (eq_trans (eq_sym Hc) Ec)) as H2. congruence.
Qed.
(** ** Every listing can be read *)
Lemma version_by_id (v : VersionRow) (db : Db) :
  catalogue_wf db -> v ∈ versions db -> find_by ver_id (ver_id v) (versions db) = Some v.
Proof. intros Hwf Hv. by apply find_by_unique; [apply Hwf|]. Qed.

Lemma policy_read (v : VersionRow) : version_ok v -> asFeePolicy v = Ok (policy_of v).
Proof.
  intros [Hr _ [Ht Hf] _ _]. unfold version_refusal in Hr.
  destruct (LedgerDb.fits_int4 (ver_versionNumber v)); [|done].
  destruct (LedgerDb.fits_int4 (ver_minimumBookingTotalAmount v)) eqn:H1; [|done].
  destruct (LedgerDb.fits_int4 (ver_minimumPlatformFeeAmount v)) eqn:H2; [|done].
  unfold asFeePolicy. rewrite Ht, Hf, !money_pounds by by apply int4_safe. unfold_result. unfold policy_of.
  by rewrite Ht, Hf.
Qed.

Lemma joined_read (db : Db) (r : ListingRow) :
  catalogue_wf db -> r ∈ listings db ->
  exists v c w, joined db r = Ok (v, c) /\ c ∈ categories db /\ v ∈ versions db /\
    latest_version (cat_id c) db = Some w /\ latestVersionOf db v c = w /\ version_ok w /\ version_ok v /\
    cat_id c = li_categoryId r /\ ver_id v = li_categoryVersionId r /\ exists k, asContent r = Ok k /\ content_fits v k.
Proof.
  intros Hwf Hr. destruct (lo_content _ _ (listing_ok_at db r Hwf Hr)) as (v & k & Hv & Hid & Hcat & Hk & Hfit).
  pose proof (wf_versions _ Hwf) as Hok. rewrite Forall_forall in Hok.
  pose proof (wf_version_categories _ Hwf) as Hcats. rewrite Forall_forall in Hcats.
  destruct (proj1 (list_elem_of_fmap _ _ _) (Hcats v Hv)) as (c & Ec & Hc).
  destruct (latest_some c db Hwf Hc) as [w Hw]. exists v, c, w. unfold joined, latestVersionOf.
  rewrite <- Hid, (version_by_id v db) by done. rewrite Ec, (find_by_unique cat_id (categories db) c) by (done || apply Hwf).
  rewrite Hw. split_and!; try done.
  - apply Hok. by apply latest_spec in Hw as [[? _]%elem_of_category _].
  - auto.
  - congruence.
  - by exists k.
Qed.

Lemma location_read (db : Db) (r : ListingRow) :
  catalogue_wf db -> exists l, toLocation db r = Ok l /\ (l = None <-> location_of db (li_id r) = None) /\
    forall x, l = Some x -> exists row n, location_of db (li_id r) = Some row /\ postcode x = loc_postcode row /\
      loc_encryptedDetail row = seal n (line1 x, line2 x) (li_id r) /\ town x = default "" (li_town r).
Proof.
  intros Hwf. unfold toLocation. destruct (location_of db (li_id r)) as [row|] eqn:E; [|by exists None].
  unfold location_of in E. apply find_by_Some in E as [Hrow Hid].
  pose proof (wf_locations _ Hwf) as Hok. rewrite Forall_forall in Hok.
  destruct (lk_sealed _ _ (Hok row Hrow)) as (n & [l1 l2] & Hs). rewrite Hid in Hs. rewrite Hs, open_seal. unfold_result.
  eexists. split; [done|]. split; [done|]. intros x [= <-]. by exists row, n.
Qed.

Lemma record_read (db : Db) (r : ListingRow) :
  catalogue_wf db -> r ∈ listings db -> exists l, toRecord db r = Ok l.
Proof.
  intros Hwf Hr. destruct (joined_read db r Hwf Hr) as (v & c & w & Hj & _ & _ & _ & Hw & Hok & _ & _ & _ & k & Hk & _).
  destruct (location_read db r Hwf) as (l & Hl & _). destruct (vo_band _ Hok) as [band Hband].
  unfold toRecord. rewrite Hj. unfold_result. rewrite Hw, policy_read, Hband, Hk, Hl by done. by eexists.
Qed.

Lemma quotable_read (db : Db) (r : ListingRow) :
  catalogue_wf db -> r ∈ listings db -> exists q, asQuotable db r = Ok q /\ Bookings.l_ownerId q = li_ownerId r.
Proof.
  intros Hwf Hr. destruct (joined_read db r Hwf Hr) as (v & c & w & Hj & _ & _ & _ & Hw & Hok & _ & _ & _ & k & Hk & _).
  destruct (vo_band _ Hok) as [band Hband]. unfold asContent in Hk. unfold asQuotable. rewrite Hj. unfold_result.
  rewrite Hw, policy_read, Hband by done. destruct (asMoney _ _); [|done]. destruct (asRateCard r); [|done]. by eexists.
Qed.

Lemma public_read (db : Db) (r : ListingRow) (o t : string) :
  catalogue_wf db -> r ∈ listings db -> exists p, asPublic db r o t = Ok p /\ pl_id p = li_id r /\ pl_ownerId p = li_ownerId r.
Proof.
  intros Hwf Hr. destruct (joined_read db r Hwf Hr) as (v & c & w & Hj & _ & _ & _ & Hw & Hok & _ & _ & _ & k & Hk & _).
  destruct (vo_band _ Hok) as [band Hband]. unfold asPublic. rewrite Hj. unfold_result.
  rewrite Hw, policy_read, Hband, Hk by done. by eexists.
Qed.

(** ** Nobody else touches an address *)
Lemma find_by_other {A} (f : A -> string) (g : A -> A) (i j : string) (l : list A) :
  (forall x, f (g x) = f x) -> i <> j ->
  find_by f j ((fun x => if bool_decide (f x = i) then g x else x) <$> l) = find_by f j l.
Proof.
  intros Hg Hij. unfold find_by. induction l as [|x l IH]; [done|]. cbn. destruct (decide (f x = i)) as [Hx|Hx].
  - rewrite (bool_decide_eq_true_2 (f x = i)), Hg, !bool_decide_eq_false_2 by congruence. exact IH.
  - rewrite (bool_decide_eq_false_2 (f x = i)) by done. by destruct (bool_decide (f x = j)).
Qed.

Lemma find_by_filter {A} (f : A -> string) (q : A -> bool) (j : string) (l : list A) :
  (forall x, x ∈ l -> f x = j -> q x = true) -> find_by f j (List.filter q l) = find_by f j l.
Proof.
  unfold find_by. induction l as [|x l IH]; intros Hq; [done|]. cbn. case_bool_decide as Hx.
  - rewrite Hq by (left || done). cbn. by rewrite bool_decide_eq_true_2.
  - destruct (q x); cbn; rewrite ?bool_decide_eq_false_2 by done; apply IH; intros y Hy; apply Hq; by right.
Qed.

Lemma writeLocation_other (i j : string) (e : CollectionLocationEdit) (db : Db) :
  i <> j -> location_of (fst (writeLocation i e db)) j = location_of db j.
Proof.
  intros Hij. unfold writeLocation. destruct e as [l|l point|].
  - unfold update_location. destruct (find_by _ _ _); [|done]. destruct (location_refusal _); [done|].
    by apply (find_by_other loc_listingId).
  - destruct (location_of db i) as [row|] eqn:E.
    + unfold update_location. destruct (find_by _ _ _); [|done]. destruct (location_refusal _); [done|].
      by apply (find_by_other loc_listingId).
    + unfold insert_location. repeat case_match; try done. unfold location_of. cbn [fst locations next with_locations]. rewrite find_by_app.
      destruct (find_by _ _ _); [done|]. unfold find_by. cbn. by rewrite bool_decide_eq_false_2.
  - apply find_by_filter. intros x _ Hx. by rewrite bool_decide_eq_false_2 by congruence.
Qed.

Lemma step_location (p : party) (db db' : Db) (r : ListingRow) :
  catalogue_wf db -> step p db db' -> r ∈ listings db -> p <> an_owner (li_ownerId r) ->
  location_of db' (li_id r) = location_of db (li_id r).
Proof.
  intros Hwf Hs Hr. revert Hs Hwf Hr. intros [known slug conf author db0 Hl _|known i n conf author db0 _ _ _
    |known d v db0 _ _|known i o e v db0 _ _|known i o s db0|known d db0|ref o retained db0 Hret|t db0|m db0|t db0] Hwf Hr Hp;
    try done.
  - destruct (CatalogueDb.create _ _ _ _ _) as [db1 x] eqn:E. by apply create_cases in E as [[-> _]|(-> & _)].
  - destruct (insert_version _ _ _ _ _ _) as [db1 x] eqn:E. by apply insert_version_cases in E as [[-> _]|(_ & -> & _)].
  - destruct (write_draft _ _ _ _) as [db1 x] eqn:E. cbn.
    apply write_draft_cases in E as [[-> _]|(columns & _ & _ & _ & Hdb)]; [done|].
    destruct (dr_collectionLocation d); [destruct Hdb as (_ & _ & ->)|by subst db1].
    unfold location_of. cbn [locations next with_locations with_listings]. rewrite find_by_app. destruct (find_by _ _ _); [done|]. unfold find_by. cbn.
    rewrite bool_decide_eq_false_2; [done|]. intros Hid. apply (issued_fresh (cseq db0)). rewrite Hid.
    apply (row_fixed li_ownerId r db0 Hwf Hr).
  - destruct (write_edit _ _ _ _ _ _) as [db1 x] eqn:E. cbn.
    apply write_edit_cases in E as [[-> _]|(columns & _ & _ & (r0 & Hr0 & [Hid Ho]%is_owned_true) & _ & Hw)]; [done|].
    pose proof (writeLocation_other i (li_id r) (ed_collectionLocation e)
      (with_listings (edited i o e v columns (cclock db0) <$> listings db0) db0)) as H. rewrite Hw in H. apply H.
    intros Hi. apply Hp. f_equal. destruct (row_fixed li_ownerId r0 db0 Hwf Hr0) as [_ Hfix].
    rewrite (Hfix r Hr); congruence.
  - unfold set_status. run_binds. destruct (update_listings _ _ _ _) as [db1 x] eqn:E.
    by apply update_listings_cases in E as [[-> _]|(_ & -> & _)].
  - unfold set_moderation. run_binds. rewrite <- bind_at, bind_mret_fst by (intros n ?; by destruct (n =? 0)%nat).
    destruct (update_listings _ _ _ _) as [db1 x] eqn:E. by apply update_listings_cases in E as [[-> _]|(_ & -> & _)].
  - destruct (eraseOwnedBy _ _ _ _) as [db1 x] eqn:E. cbn.
    apply eraseOwnedBy_cases in E as [[-> _]|(_ & _ & ->)]; [done|]. unfold location_of. cbn [locations with_media with_locations with_listings]. rewrite !find_by_filter; [done| |].
    + intros l _ Hl. apply negb_true_iff, bool_decide_eq_false_2. intros Hin. apply Hp. f_equal. symmetry.
      apply Hret; [done|congruence].
    + intros l _ Hl. apply bool_decide_eq_true_2. rewrite Hl. intros (r' & Hid & [Hr' He]%elem_of_bfilter)%list_elem_of_fmap.
      apply Hp. f_equal. unfold erasable in He. apply andb_true_iff in He as [He%bool_decide_eq_true _].
      destruct (row_fixed li_ownerId r' db0 Hwf Hr') as [_ Hfix]. rewrite (Hfix r Hr Hid). done.
Qed.
End Steps.

(** ** Triples

    [safely Pre m Post]: from well-formed tables where [Pre] holds, [m] only takes steps
    of [who], and [Post] holds of what it returns.  [view] finds the tables in the
    state. *)
Section Safe.
Context {Ids : UuidSource} {Pg : PgTypes} {Order : DescOrder} {Enc : FieldEncryptor}.
Context {S : Type} (view : S -> Db) (who : party -> Prop).

Definition safely {A} (Pre : Db -> Prop) (m : M S A) (Post : A -> Db -> Prop) : Prop :=
  forall s s' r, catalogue_wf (view s) -> Pre (view s) -> m s = (s', r) ->
    reach who (view s) (view s') /\ match r with Ok a => Post a (view s') | Err _ => True end.

Lemma safely_bind {A B} (Pre : Db -> Prop) (m : M S A) (Mid : A -> Db -> Prop) (f : A -> M S B) (Post : B -> Db -> Prop) :
  safely Pre m Mid -> (forall a, safely (Mid a) (f a) Post) -> safely Pre (mbind f m) Post.
Proof.
  intros Hm Hf s s' r Hwf Hp. rewrite bind_at. destruct (m s) as [s1 x] eqn:E.
  destruct (Hm s s1 x Hwf Hp E) as [H1 Ha]. destruct x as [a|e]; [|by intros [= <- <-]].
  intros H. destruct (Hf a s1 s' r) as [H2 Hb]; [by eapply wf_reach|done|done|]. split; [by etrans|done].
Qed.

Lemma safely_weaken {A} (Pre Pre' : Db -> Prop) (m : M S A) (Post Post' : A -> Db -> Prop) :
  safely Pre m Post -> (forall db, Pre' db -> Pre db) -> (forall a db, Post a db -> Post' a db) -> safely Pre' m Post'.
Proof.
  intros Hm Hpre Hpost s s' r Hwf Hp E. destruct (Hm s s' r Hwf (Hpre _ Hp) E) as [H1 H2].
  split; [done|]. destruct r; auto.
Qed.

Lemma safe_pre {A} (Pre Pre' : Db -> Prop) (m : M S A) (Post : A -> Db -> Prop) :
  safely Pre m Post -> (forall db, catalogue_wf db -> Pre' db -> Pre db) -> safely Pre' m Post.
Proof. intros Hm Hp s s' r Hwf Hs. apply Hm; auto. Qed.

Lemma safe_some {A X} (Pre : X -> Db -> Prop) (m : M S A) (Post : A -> Db -> Prop) :
  (forall x, safely (Pre x) m Post) -> safely (fun db => exists x, Pre x db) m Post.
Proof. intros Hm s s' r Hwf [x Hx]. by apply (Hm x). Qed.

Lemma safe_known {A} (Pre : Db -> Prop) (P : Prop) (m : M S A) (Post : A -> Db -> Prop) :
  (P -> safely Pre m Post) -> safely (fun db => Pre db /\ P) m Post.
Proof. intros Hm s s' r Hwf [Hp HP]. by apply (Hm HP). Qed.

(** A computation that leaves the tables alone. *)
Lemma safely_reads {A} (Pre : Db -> Prop) (m : M S A) :
  (forall s, view (fst (m s)) = view s) ->
  safely Pre m (fun a db => Pre db /\ exists s s', view s = db /\ view s' = db /\ m s = (s', Ok a)).
Proof.
  intros Hm s s' r _ Hp E. specialize (Hm s). rewrite E in Hm. cbn in Hm. rewrite Hm. split; [reflexivity|].
  destruct r as [a|]; [|done]. split; [done|]. by exists s, s'.
Qed.

Lemma safely_ret {A} (Pre : Db -> Prop) (a : A) (Post : A -> Db -> Prop) :
  (forall db, Pre db -> Post a db) -> safely Pre (mret a) Post.
Proof. intros H s s' r _ Hp [= <- <-]. split; [reflexivity|auto]. Qed.

Lemma safely_throw {A} (Pre : Db -> Prop) (e : error) (Post : A -> Db -> Prop) : safely Pre (throw e) Post.
Proof. intros s s' r _ _ [= <- <-]. by split. Qed.

Lemma safely_lift {A} (Pre : Db -> Prop) (x : result A) : safely Pre (lift x) (fun a db => Pre db /\ x = Ok a).
Proof. intros s s' r _ Hp [= <- <-]. split; [reflexivity|]. by destruct x. Qed.

Lemma safely_gets {A} (Pre : Db -> Prop) (f : S -> A) :
  safely Pre (gets f) (fun a db => Pre db /\ exists s, view s = db /\ a = f s).
Proof. intros s s' r _ Hp [= <- <-]. split; [reflexivity|]. split; [done|by exists s]. Qed.

Lemma safe_rival (Pre : Db -> Prop) (rival : S -> S) :
  (forall s, reach who (view s) (view (rival s))) -> stable Pre -> safely Pre (modify rival) (fun _ db => Pre db).
Proof. intros Hr HP s s' r Hwf Hp [= <- <-]. split; [done|by eapply stable_reach]. Qed.

(** A statement, or a transaction, is one step. *)
Lemma safe_step {A} (Pre : Db -> Prop) (m : M S A) :
  (forall s, Pre (view s) -> exists p, who p /\ step p (view s) (view (fst (m s)))) ->
  safely Pre m (fun _ _ => True).
Proof.
  intros Hm s s' r _ Hp E. destruct (Hm s Hp) as (p & Hw & Hs). rewrite E in Hs. split; [by eapply reach_step|].
  by destruct r.
Qed.

Lemma safely_frame {A} (Pre F : Db -> Prop) (m : M S A) (Post : A -> Db -> Prop) :
  stable F -> safely Pre m Post -> safely (fun db => Pre db /\ F db) m (fun a db => Post a db /\ F db).
Proof.
  intros HF Hm s s' r Hwf [Hp Hf] E. destruct (Hm s s' r Hwf Hp E) as [H1 H2]. split; [done|].
  destruct r; [|done]. split; [done|by eapply stable_reach].
Qed.
End Safe.

(** ** The adapters *)
Section Adapters.
Context {Ids : UuidSource} {Pg : PgTypes} {Order : DescOrder} {Enc : FieldEncryptor}.
Variable who : party -> Prop.
Variable known : string -> bool.
Variable within : Db -> Db.
Hypothesis within_ok : forall db, reach who db (within db).

Abbreviation safe := (safely Datatypes.id who).

Lemma safe_create_category (slug : string) (conf : CategoryConfiguration) (author : string) :
  who an_administrator -> lawful_configuration conf -> meets_rule (cc_feePolicy conf) ->
  safe (fun _ => True) (CatalogueDb.create known slug conf author) (fun _ _ => True).
Proof. intros Hw Hl Hm. apply safe_step. intros db _. exists an_administrator. split; [done|by apply s_category]. Qed.

Lemma safe_addVersion (slug : string) (conf : CategoryConfiguration) (author : string) :
  who an_administrator -> lawful_configuration conf -> meets_rule (cc_feePolicy conf) ->
  safe (fun _ => True) (addVersion known within slug conf author) (fun _ _ => True).
Proof.
  intros Hw Hl Hm. unfold addVersion. eapply safely_bind; [apply safely_gets|]. intros [c|]; [|by apply safely_ret].
  eapply safely_bind; [apply safely_gets|]. intros [v|]; [|by apply safely_ret].
  eapply (safely_bind _ _ _ _ (fun _ db => v ∈ versions db /\ ver_categoryId v = cat_id c)).
  - eapply safe_pre; [apply (safe_rival _ _ (fun db => v ∈ versions db /\ ver_categoryId v = cat_id c))|]; [done| |].
    + apply stable_and; [apply stable_version|apply stable_const].
    + intros db _ [_ (s & <- & Hv)]. symmetry in Hv. apply elem_of_category. by apply latest_spec.
  - intros _. eapply safely_bind; [apply safe_step|].
    + intros db [Hv Hc]. exists an_administrator. split; [done|]. apply s_version; [done..|]. by exists v.
    + intros v'. eapply safely_bind; [apply safely_lift|]. intros r. by apply safely_ret.
Qed.

(** The version whose questions [c] answers, known to be that of [slug] and [n]. *)
Definition answers_version (slug : string) (n : Z) (c : ListingContent) (db : Db) : Prop :=
  exists cat v, by_slug slug db = Some cat /\ v ∈ versions db /\ ver_categoryId v = cat_id cat /\
    ver_versionNumber v = n /\ content_fits v c.

Lemma stable_answers (slug : string) (n : Z) (c : ListingContent) : stable (answers_version slug n c).
Proof.
  apply stable_ex. intros cat. apply stable_ex. intros v. apply stable_and; [apply stable_slug|].
  apply stable_and; [apply stable_version|apply stable_const].
Qed.

Lemma safe_createDraft (d : ListingDraft) :
  who (an_owner (dr_ownerId d)) ->
  safe (answers_version (dr_categorySlug d) (dr_categoryVersionNumber d) (dr_content d))
    (ListingDb.createDraft known within d) (fun _ _ => True).
Proof.
  intros Hw s s' r Hwf (cat & v & Hslug & Hv & Hc & Hn & Hfit). unfold ListingDb.createDraft. run_binds.
  unfold Datatypes.id in *. rewrite Hslug. run_binds. destruct (latest_version (cat_id cat) s) as [w|] eqn:Hl; [|by intros [= <- <-]].
  destruct (negb _) eqn:Hne; [by intros [= <- <-]|]. apply negb_false_iff, Z.eqb_eq in Hne.
  apply latest_spec in Hl as [[Hwv Hwc]%elem_of_category _].
  assert (w = v) as -> by (apply (version_unique _ _ s); congruence). run_binds.
  assert (v ∈ versions (within s)) as Hv' by by eapply (stable_reach _ _ _ _ (stable_version v) Hwf (within_ok s)).
  destruct (write_draft known d v (within s)) as [db1 x] eqn:E.
  assert (reach who s db1) as Hr.
  { etrans; [apply within_ok|]. eapply reach_step; [exact Hw|]. replace db1 with (fst (write_draft known d v (within s))) by by rewrite E.
    by apply s_draft. }
  destruct x as [row|e]; [|by intros [= <- <-]]. run_binds. intros [= <- <-]. split; [done|by destruct (toRecord _ _)].
Qed.

Lemma safe_update (id ownerId : string) (e : ListingEdit) (v : VersionRow) :
  who (an_owner ownerId) -> ver_versionNumber v = ed_categoryVersionNumber e -> content_fits v (ed_content e) ->
  safe (fun db => v ∈ versions db /\ fixed li_categoryId id (ver_categoryId v) db)
    (ListingDb.update known within id ownerId e) (fun _ _ => True).
Proof.
  intros Hw Hn Hfit s s' r Hwf [Hv [_ Hfix]]. unfold ListingDb.update, Datatypes.id in *. run_binds.
  destruct (owned id ownerId s) as [row|] eqn:Ho; [|by intros [= <- <-]].
  apply List.find_some in Ho as [Hin [Hid _]%is_owned_true]. rewrite <- list_elem_of_In in Hin.
  run_binds. destruct (joined s row) as [vc|]; [|by intros [= <- <-]]. run_binds. pose proof (within_ok s) as Hr1.
  assert (catalogue_wf (within s)) as Hwf1 by by eapply wf_reach.
  assert (v ∈ versions (within s)) as Hv1 by by eapply (stable_reach _ _ _ _ (stable_version v) Hwf Hr1).
  destruct (latest_version _ (within s)) as [w|] eqn:Hl; [|by intros [= <- <-]].
  destruct (negb _) eqn:Hne; [by intros [= <- <-]|]. apply negb_false_iff, Z.eqb_eq in Hne.
  apply latest_spec in Hl as [[Hwv Hwc]%elem_of_category _]. rewrite (Hfix row Hin Hid) in Hwc.
  assert (w = v) as -> by (apply (version_unique _ _ (within s)); congruence). run_binds.
  pose proof (within_ok (within s)) as Hr2.
  assert (v ∈ versions (within (within s))) as Hv2 by by eapply (stable_reach _ _ _ _ (stable_version v) Hwf1 Hr2).
  destruct (write_edit _ _ _ _ _ _) as [db1 x] eqn:E.
  assert (reach who s db1) as Hr.
  { etrans; [exact Hr1|]. etrans; [exact Hr2|]. eapply reach_step; [exact Hw|].
    replace db1 with (fst (write_edit known id ownerId e v (within (within s)))) by by rewrite E. by apply s_edit. }
  destruct x as [[]|err]; try by intros [= <- <-]. cbn [negb]. run_binds. unfold findOwnedBy. intros [= <- <-].
  split; [by etrans; [exact Hr|]|by destruct (optionally _ _)].
Qed.

Lemma safe_find {A} (f : Db -> result A) : safe (fun _ => True) (fun db => (db, f db)) (fun _ _ => True).
Proof. intros s s' r _ _ [= <- <-]. split; [reflexivity|by destruct (f s)]. Qed.

Lemma safe_set_and_find (id ownerId : string) (st : ListingStatus) :
  who (an_owner ownerId) ->
  safe (fun _ => True)
    (count ← set_status known id ownerId st;
     if (count =? 0)%nat then mret None else _ ← modify within; findOwnedBy id ownerId) (fun _ _ => True).
Proof.
  intros Hw. eapply safely_bind; [apply safe_step|].
  - intros db _. exists (an_owner ownerId). split; [done|by apply s_status].
  - intros n. destruct (n =? 0)%nat; [by apply safely_ret|]. eapply safely_bind; [by apply safe_rival|].
    intros []. apply safe_find.
Qed.

Lemma safe_moderate (d : ModerationDecision) :
  who a_moderator -> safe (fun _ => True) (ListingDb.moderate known within d) (fun _ _ => True).
Proof.
  intros Hw. unfold ListingDb.moderate. eapply safely_bind; [apply safely_gets|]. intros [r|]; [|by apply safely_ret].
  eapply safely_bind; [eapply safe_pre; [by apply (safe_rival _ _ (fun _ => True))|done]|]. intros [].
  eapply safely_bind; [apply safe_step|].
  - intros db _. exists a_moderator. split; [done|by apply s_moderate].
  - intros []. eapply safely_bind; [by apply safe_rival|]. intros []. apply safe_find.
Qed.

Lemma safe_erase (referenced : string -> bool) (ownerId : string) (retained : list string) :
  who (an_owner ownerId) ->
  safe (fun db => Forall (fun i => fixed li_ownerId i ownerId db) retained) (eraseOwnedBy referenced ownerId retained)
    (fun _ _ => True).
Proof.
  intros Hw. apply safe_step. intros db Hall. exists (an_owner ownerId). split; [done|]. apply s_erase.
  intros r Hr Hin. rewrite Forall_forall in Hall. by apply (Hall _ Hin).
Qed.
End Adapters.

(** ** The handlers *)
Section Handlers.
Context {Ids : UuidSource} {Pg : PgTypes} {Order : DescOrder} {Enc : FieldEncryptor} {L : Luxon}.
Context {W : Type} {Ports : ListingPorts W}.
Variable who : party -> Prop.
Variable rival : World W -> World W.
Variable within : Db -> Db.
Hypothesis rival_ok : forall w, reach who (cdb w) (cdb (rival w)).
Hypothesis within_ok : forall db, reach who db (within db).
(** A listing that is booked is one of those asked about. *)
Hypothesis booked_asked : forall ids (w : W), findBookedListings ids w ⊆ ids.

Abbreviation safe := (safely (@cdb W) who).

Lemma safe_on_db {A} (Pre : Db -> Prop) (m : (string -> bool) -> M Db A) (Post : A -> Db -> Prop) :
  (forall known, safely Datatypes.id who Pre (m known) Post) -> safe Pre (on_db m) Post.
Proof.
  intros Hm w w' r Hwf Hp. unfold on_db. destruct (m _ (cdb w)) as [db x] eqn:E. intros [= <- <-].
  by apply (Hm _ _ _ _ Hwf Hp E).
Qed.

Lemma safe_on_rest {A} (Pre : Db -> Prop) (m : M W A) : safe Pre (on_rest m) (fun _ db => Pre db).
Proof.
  intros w w' r _ Hp. unfold on_rest. destruct (m (rest w)) as [s x]. intros [= <- <-].
  split; [reflexivity|]. by destruct x.
Qed.

Lemma safely_await (Pre : Db -> Prop) : stable Pre -> safe Pre (modify rival) (fun _ db => Pre db).
Proof. intros H. by apply safe_rival. Qed.

Lemma safe_audit (f : instant -> (string -> bool) -> AuditDb.Trail -> AuditDb.Trail * result ()) :
  who the_system ->
  safe (fun _ => True) (on_db (fun known db => let (t, r) := f (cclock db) known (ctrail db) in (with_ctrail t db, r)))
    (fun _ _ => True).
Proof.
  intros Hw. apply safe_on_db. intros known. apply safe_step. intros db _. exists the_system. split; [done|].
  unfold Datatypes.id. destruct (f _ _ _) as [t r]. apply s_audit.
Qed.

Lemma margin_refused (policy : CategoryFeePolicy) :
  Catalogue.refuseNegativeMargin policy = Ok tt <-> meets_rule policy.
Proof.
  unfold Catalogue.refuseNegativeMargin, meets_rule. unfold_result. destruct (MarginRule.meetsMarginRule policy) as [v|e].
  - destruct (MarginRule.meetsRule v) eqn:E; split; [by exists v|done|done|]. intros (v' & [= <-] & Hv). congruence.
  - split; [done|]. by intros (? & ? & _).
Qed.

(** *** Categories *)
Lemma safe_category_audit (a : Actor) (action : AuditDb.AuditAction) (i : string) (b c : option AuditableCategory) (why : string) :
  who the_system -> safe (fun _ => True) (Catalogue.audit rival a action i b c why) (fun _ _ => True).
Proof.
  intros Hw. unfold Catalogue.audit. eapply safely_bind; [by apply safely_await|]. intros [].
  by apply (safe_audit (fun at_ known => Audit.record digest_category at_ known _)).
Qed.

Lemma safe_create (a : Actor) (slug : string) (conf : CategoryConfiguration) (why : string) :
  who the_system -> who an_administrator -> lawful_configuration conf ->
  safe (fun _ => True) (Catalogue.create rival a slug conf why) (fun _ _ => True).
Proof.
  intros Hs Hw Hl. unfold Catalogue.create. eapply safely_bind; [apply safely_lift|]. intros [].
  apply safe_known. intros Hm%margin_refused. eapply safely_bind.
  - apply safe_on_db. intros known. by apply safe_create_category.
  - intros c. eapply safely_bind; [by apply safe_category_audit|]. intros []. by apply safely_ret.
Qed.

Lemma safe_reconfigure (a : Actor) (slug : string) (conf : CategoryConfiguration) (why : string) :
  who the_system -> who an_administrator -> lawful_configuration conf ->
  safe (fun _ => True) (Catalogue.reconfigure rival within a slug conf why) (fun _ _ => True).
Proof.
  intros Hs Hw Hl. unfold Catalogue.reconfigure. eapply safely_bind; [apply safe_on_db; intros known; apply safe_find|].
  intros [before|]; [|by apply safely_ret]. eapply safely_bind; [apply safely_lift|]. intros [].
  apply safe_known. intros Hm%margin_refused.
  apply (safely_bind cdb who _ _ (fun _ _ => True)); [eapply safe_pre; [by apply (safely_await (fun _ => True))|done]|]. intros _.
  eapply safely_bind; [apply safe_on_db; intros known; by apply safe_addVersion|]. intros [after|]; [|by apply safely_ret].
  eapply safely_bind; [by apply safe_category_audit|]. intros []. by apply safely_ret.
Qed.

(** *** Drafts and edits *)
Definition lawful_submission (s : Listings.SubmittedListingEdit) : Prop :=
  in_pounds (Listings.sl_replacementValue s) /\ card_in_pounds (Listings.sl_rates s).

Lemma values_fit (v : VersionRow) (s : Listings.SubmittedListingEdit) (slug : string) (values : ListingAttributeValues) :
  version_ok v -> lawful_submission s -> Listings.read_submission (toOption slug v) s = Ok values ->
  content_fits v (Listings.content_of s values).
Proof.
  intros Hv [Hs1 Hs2] Hr. unfold Listings.read_submission, toOption in Hr. cbn [co_attributes co_transportOptions] in Hr.
  destruct (validateAttributeValues _ _) as [issues|values'] eqn:E; [done|].
  assert (values' = values /\ forall t, Listings.sl_transportRequirement s = Some t ->
    offersTransportRequirement (ver_transportOptions v) t = true) as [-> Ht].
  { destruct (Listings.sl_transportRequirement s) as [t|]; [|by injection Hr].
    destruct (offersTransportRequirement _ t) eqn:Ho; [|done]. injection Hr. split; [done|]. by intros ? [= <-]. }
  destruct (Listings.sl_attributes s) as [| | | | |entries]; try done.
  pose proof (answers_accepted (ver_attributes v) entries (ls_keys _ (vo_schema _ Hv))) as H. rewrite E in H.
  destruct H as (_ & _ & Hans & Hother). split; cbn; try done.
  - intros a x Ha Hx. specialize (Hans a Ha). destruct (answer_to a entries) as [[|y]|]; [done| |congruence].
    destruct Hans as [Hy Hfits]. congruence.
  - intros k [x Hk]. destruct (decide (k ∈ attr_key <$> ver_attributes v)); [done|]. by rewrite Hother in Hk.
Qed.

Lemma version_ok_at (v : VersionRow) (db : Db) : catalogue_wf db -> v ∈ versions db -> version_ok v.
Proof. intros Hwf Hv. pose proof (wf_versions _ Hwf) as H. rewrite Forall_forall in H. auto. Qed.

(** A form that was read against the category as its sender knew it. *)
Lemma form_read (db : Db) (slug : string) (s : Listings.SubmittedListingEdit) (n : Z) (category : CategoryOptionRecord)
    (values : ListingAttributeValues) :
  catalogue_wf db -> lawful_submission s -> Listings.same_version slug (findOption slug db) n = Ok category ->
  Listings.read_submission category s = Ok values ->
  answers_version slug (co_versionNumber category) (Listings.content_of s values) db.
Proof.
  intros Hwf Hs Hsame Hread. unfold Listings.same_version in Hsame. unfold findOption, mbind, option_bind in Hsame.
  destruct (by_slug slug db) as [c|] eqn:Hc; [|done].
  destruct (latest_version (cat_id c) db) as [v|] eqn:Hl; [|done]. destruct (_ =? n); [|done]. injection Hsame as <-.
  apply latest_spec in Hl as [[Hv Hcat]%elem_of_category _]. exists c, v. split_and!; try done.
  eapply values_fit; [by eapply version_ok_at|done|done].
Qed.

Lemma safe_draft (s : Listings.SubmittedListing) :
  who (an_owner (Listings.sl_ownerId s)) -> lawful_submission (Listings.sl_edit s) ->
  safe (fun _ => True) (Listings.createDraft rival within s) (fun _ _ => True).
Proof.
  intros Hw Hs. unfold Listings.createDraft. eapply safely_bind; [apply safely_gets|]. intros o.
  eapply safely_bind; [apply safely_lift|]. intros category. eapply safely_bind; [apply safely_lift|]. intros values.
  set (F := answers_version (Listings.sl_categorySlug s) (co_versionNumber category) (Listings.content_of (Listings.sl_edit s) values)).
  assert (stable F) as HF by apply stable_answers.
  eapply (safe_pre _ _ F).
  - apply (safely_bind _ _ _ _ (fun _ => F)).
    + destruct (Listings.sl_collectionLocation (Listings.sl_edit s)); [|by apply safely_ret].
      eapply safely_bind; [by apply safely_await|]. intros []. apply safe_on_rest.
    + intros point. eapply safely_bind; [by apply safely_await|]. intros []. apply safe_on_db. intros known.
      by apply (safe_createDraft _ known within within_ok (mkDraft _ _ _ _ _ _)).
  - intros db Hwf [[[_ (w & <- & ->)] Hsame] Hread]. by eapply form_read.
Qed.

(** The listing read was pinned to a version of the category it shows. *)
Definition pinned (id : string) (slug : string) (db : Db) : Prop :=
  exists c, by_slug slug db = Some c /\ fixed li_categoryId id (cat_id c) db.

Lemma stable_pinned (id slug : string) : stable (pinned id slug).
Proof. apply stable_ex. intros c. apply stable_and; [apply stable_slug|apply stable_category]. Qed.

Lemma record_row (db : Db) (r : ListingRow) (l : ListingRecord) :
  catalogue_wf db -> r ∈ listings db -> toRecord db r = Ok l ->
  exists v c, v ∈ versions db /\ ver_id v = li_categoryVersionId r /\ ver_categoryId v = li_categoryId r /\
    c ∈ categories db /\ cat_id c = li_categoryId r /\
    lr_id l = li_id r /\ lr_ownerId l = li_ownerId r /\ lr_categorySlug l = cat_slug c /\
    lr_categoryVersionNumber l = ver_versionNumber v /\ lr_categoryAttributes l = ver_attributes v /\
    lr_categoryTransportOptions l = ver_transportOptions v /\ asContent r = Ok (lr_content l) /\
    toLocation db r = Ok (lr_collectionLocation l) /\ lr_isLocated l = isLocated db (li_id r) /\
    lr_status l = li_status r /\ lr_moderationState l = li_moderationState r /\
    lr_moderationReason l = li_moderationReason r /\ lr_createdAt l = li_createdAt r.
Proof.
  intros Hwf Hr. unfold toRecord, joined. destruct (find_by ver_id _ _) as [v|] eqn:Hv; [|done].
  apply find_by_Some in Hv as [Hv Hvid]. destruct (find_by cat_id _ _) as [c|] eqn:Hc; [|done].
  apply find_by_Some in Hc as [Hc Hcid]. unfold_result. destruct (asFeePolicy _) as [p|]; [|done].
  destruct (asDamageSecurity _) as [b|]; [|done]. destruct (asContent r) as [k|] eqn:Hk; [|done].
  destruct (toLocation db r) as [lo|] eqn:Hlo; [|done]. intros [= <-]. cbn.
  destruct (lo_content _ _ (listing_ok_at db r Hwf Hr)) as (v' & _ & Hv' & Hid' & Hcat & _).
  assert (v' = v) as ->.
  { pose proof (find_by_unique ver_id (versions db) v (wf_version_ids _ Hwf) Hv) as H1.
    pose proof (find_by_unique ver_id (versions db) v' (wf_version_ids _ Hwf) Hv') as H2. congruence. }
  exists v, c. split_and!; try done. congruence.
Qed.

Lemma slug_of (c : CategoryRow) (db : Db) : catalogue_wf db -> c ∈ categories db -> by_slug (cat_slug c) db = Some c.
Proof. intros Hwf Hc. by apply find_by_unique; [apply Hwf|]. Qed.

Lemma owned_row (id ownerId : string) (db : Db) (r : ListingRow) :
  owned id ownerId db = Some r -> r ∈ listings db /\ li_id r = id /\ li_ownerId r = ownerId.
Proof. intros [H1 H2%is_owned_true]%List.find_some. by rewrite list_elem_of_In. Qed.

Lemma safe_edited_location (F : Db -> Prop) (l : ListingRecord) (ownerId : string) (s : Listings.SubmittedListingEdit) :
  stable F -> safe F (Listings.editedLocation rival l ownerId s) (fun _ => F).
Proof.
  intros HF. unfold Listings.editedLocation. destruct (Listings.sl_collectionLocation s); [|by apply safely_ret].
  destruct (_ && _); [by apply safely_ret|]. eapply safely_bind; [by apply safely_await|]. intros [].
  eapply safely_bind; [apply safely_gets|]. intros offset.
  eapply safely_bind; [eapply safe_pre; [by apply safely_await|by intros db _ [? _]]|]. intros [].
  eapply safely_bind; [apply safe_on_rest|]. intros point. by apply safely_ret.
Qed.

Lemma safe_edit (id ownerId : string) (s : Listings.SubmittedListingEdit) :
  who (an_owner ownerId) -> lawful_submission s ->
  safe (fun _ => True) (Listings.edit rival within id ownerId s) (fun _ _ => True).
Proof.
  intros Hw Hs. unfold Listings.edit.
  apply (safely_bind _ _ _ _ (fun l db => match l with Some l => pinned id (lr_categorySlug l) db | None => True end)).
  { apply safe_on_db. intros known db db' r Hwf _ [= <- <-]. split; [reflexivity|]. unfold Datatypes.id in *.
    destruct (owned id ownerId db) as [row|] eqn:Ho; [|done]. cbn. apply owned_row in Ho as (Hr & Hid & _).
    destruct (toRecord db row) as [l|] eqn:E; [|done]. cbn.
    apply record_row in E as (v & c & _ & _ & _ & Hc & Hcid & _ & _ & Hslug & _); [|done|done].
    exists c. rewrite Hslug. split; [by apply slug_of|]. rewrite Hcid, <- Hid. by apply row_fixed. }
  intros [l|]; [|by apply safely_ret]. pose proof (stable_pinned id (lr_categorySlug l)) as HP.
  eapply safely_bind; [by apply safely_await|]. intros []. eapply safely_bind; [apply safely_gets|]. intros o.
  eapply safely_bind; [apply safely_lift|]. intros category. eapply safely_bind; [apply safely_lift|]. intros values.
  set (F := fun db => pinned id (lr_categorySlug l) db /\
    answers_version (lr_categorySlug l) (co_versionNumber category) (Listings.content_of s values) db).
  assert (stable F) as HF by (apply stable_and; [done|apply stable_answers]).
  eapply (safe_pre _ _ F); [|intros db Hwf [[[Hp (w & <- & ->)] Hsame] Hread]; split; [done|by eapply form_read]].
  eapply safely_bind; [by apply safe_edited_location|]. intros location. apply (safely_bind _ _ _ _ (fun _ => F)).
  { case_bool_decide; [|by apply safely_ret]. eapply safely_bind; [by apply safely_await|]. intros [].
    eapply safely_bind; [apply safely_gets|]. intros status. eapply safely_weaken; [apply safely_lift|by intros db [? _]|].
    by intros [] db [? _]. }
  intros []. eapply safely_bind; [by apply safely_await|]. intros []. apply safe_on_db. intros known.
  set (e := mkEdit _ _ _). eapply (safe_pre _ _ (fun db => exists v, (v ∈ versions db /\
    fixed li_categoryId id (ver_categoryId v) db) /\ (ver_versionNumber v = ed_categoryVersionNumber e /\
    content_fits v (ed_content e)))).
  - apply safe_some. intros v. apply safe_known. intros [Hn Hfit]. by apply safe_update.
  - intros db _ [(c & Hc & Hfix) (c' & v & Hc' & Hv & Hcat & Hn & Hfit)]. exists v. split_and!; try done.
    rewrite Hcat. congruence.
Qed.

(** *** The other handlers *)
Lemma safe_T {A} (Pre : Db -> Prop) (m : M (World W) A) (Post : A -> Db -> Prop) :
  safe (fun _ => True) m Post -> safe Pre m Post.
Proof. intros H. by eapply safe_pre. Qed.

Lemma safe_pause_T : safe (fun _ => True) (modify rival) (fun _ _ => True).
Proof. by apply (safely_await (fun _ => True)). Qed.

Lemma safe_read {A} (f : Db -> result A) : safe (fun _ => True) (on_db (fun _ db => (db, f db))) (fun _ _ => True).
Proof. apply safe_on_db. intros known. apply safe_find. Qed.

Lemma safe_gets_T {A} (f : World W -> A) : safe (fun _ => True) (gets f) (fun _ _ => True).
Proof. eapply safely_weaken; [apply (safely_gets cdb who (fun _ => True))|done|]. by intros. Qed.

Lemma safe_lift_T {A} (x : result A) : safe (fun _ => True) (lift x) (fun _ _ => True).
Proof. eapply safely_weaken; [apply (safely_lift cdb who (fun _ => True))|done|]. by intros. Qed.

Lemma safe_bind_T {A B} (m : M (World W) A) (f : A -> M (World W) B) :
  safe (fun _ => True) m (fun _ _ => True) -> (forall a, safe (fun _ => True) (f a) (fun _ _ => True)) ->
  safe (fun _ => True) (mbind f m) (fun _ _ => True).
Proof. intros Hm Hf. by apply (safely_bind _ _ _ _ (fun _ _ => True)). Qed.
End Handlers.

#[export] Hint Resolve safe_pause_T safe_read safe_gets_T safe_lift_T safe_on_rest : listings.

Section Requests.
Context {Ids : UuidSource} {Pg : PgTypes} {Order : DescOrder} {Enc : FieldEncryptor} {L : Luxon}.
Context {W : Type} {Ports : ListingPorts W}.
Variable who : party -> Prop.
Variable rival : World W -> World W.
Variable within : Db -> Db.
Hypothesis rival_ok : forall w, reach who (cdb w) (cdb (rival w)).
Hypothesis within_ok : forall db, reach who db (within db).
Hypothesis booked_asked : forall ids (w : W), findBookedListings ids w ⊆ ids.

Abbreviation safe := (safely (@cdb W) who).
Abbreviation T := (fun _ : Db => True).
Abbreviation T' := (fun _ (_ : Db) => True).

Lemma safe_publish (id ownerId : string) :
  who (an_owner ownerId) -> safe T (Listings.publish rival within id ownerId) T'.
Proof.
  intros Hw. unfold Listings.publish, Listings.isPublicationAvailable, Listings.ownerStatusOf, Listings.await, findOwnedBy.
  do 4 (apply safe_bind_T; [eauto with listings|intros ?]). case_match; [|by apply safely_ret].
  do 5 (apply safe_bind_T; [eauto with listings|intros ?]).
  apply safe_on_db. intros known. by apply safe_set_and_find.
Qed.

Lemma safe_pause (id ownerId : string) :
  who (an_owner ownerId) -> safe T (Listings.pause rival within id ownerId) T'.
Proof.
  intros Hw. unfold Listings.pause, Listings.await, findOwnedBy.
  apply safe_bind_T; [eauto with listings|]. intros [l|]; [|by apply safely_ret].
  do 2 (apply safe_bind_T; [eauto with listings|intros ?]).
  apply safe_on_db. intros known. by apply safe_set_and_find.
Qed.

Lemma safe_moderation (id : string) (st : ModerationState) (why : option string) (a : Actor) :
  who a_moderator -> who the_system -> safe T (Listings.moderate rival within id st why a) T'.
Proof.
  intros Hw Hs. unfold Listings.moderate, Listings.await, findForModeration.
  apply safe_bind_T; [eauto with listings|]. intros [].
  apply safe_bind_T; [eauto with listings|]. intros [before|]; [|by apply safely_ret].
  do 2 (apply safe_bind_T; [eauto with listings|intros ?]).
  apply safe_bind_T; [apply safe_on_db; intros known; by apply safe_moderate|]. intros [after|]; [|by apply safely_ret].
  apply safe_bind_T; [eauto with listings|]. intros [].
  apply safe_bind_T; [|intros []; by apply safely_ret].
  by apply (safe_audit _ (fun at_ known => Audit.record digest_moderation at_ known _)).
Qed.

Lemma safe_eraseFor (a : Actor) :
  who (an_owner (actor_userId a)) -> safe T (Listings.eraseFor rival a) T'.
Proof.
  intros Hw. unfold Listings.eraseFor, Listings.await. set (o := actor_userId a).
  set (F := fun (mine : list string) db => Forall (fun i => fixed li_ownerId i o db) mine).
  assert (forall mine, stable (F mine)) as HF.
  { intros mine p db db' Hwf Hs Hall. eapply Forall_impl; [exact Hall|]. intros i Hi. exact (stable_owner i o p db db' Hwf Hs Hi). }
  eapply (safely_bind _ _ _ _ F).
  { intros w w' r Hwf _ [= <- <-]. split; [reflexivity|].
    apply Forall_forall. intros i (r & -> & [Hr Ho]%elem_of_bfilter)%list_elem_of_fmap. apply bool_decide_eq_true in Ho.
    rewrite <- Ho. by apply row_fixed. }
  intros mine. eapply safely_bind; [by apply safely_await|]. intros []. eapply safely_bind; [apply safely_gets|]. intros booked.
  eapply (safe_pre _ _ (F booked)).
  2:{ intros db _ [Hall (w & _ & ->)]. unfold F in *. rewrite Forall_forall in *. intros i Hi. apply Hall. exact (booked_asked mine (rest w) i Hi). }
  eapply safely_bind; [by apply safely_await|]. intros []. eapply safely_bind; [apply safe_on_rest|]. intros [].
  eapply safely_bind; [by apply safely_await|]. intros []. eapply safely_bind; [apply safely_gets|]. intros referenced.
  apply safe_on_db. intros known. eapply safe_pre; [by apply safe_erase|]. by intros db _ [? _].
Qed.
End Requests.
