(* ===== verification/ListingTheorems.v ===== *)
(** * Categories and listings: under any interleaving

    The theorems quantify over schedules: any sequence of requests to the two
    services, at each of whose awaits, and between whose statements, any other
    requests of the parties allowed may commit. *)

From Stdlib Require String.
From S2P Require Import Prelude JsNumber Text Money Ledger LedgerStore Pricing.
From S2P Require Import Columns Bookings AuditLog LocalTime CoreText Answers AnswersProofs UnitEconomics.
From S2P Require Import CatalogueStore ListingStore ListingRows Listings ListingProofs.

#[local] Open Scope string_scope.
#[local] Open Scope list_scope.
#[local] Open Scope Z_scope.

Import Money Pricing Attributes Transport Publication CatalogueDb ListingDb AuditDb.

(** ** Requests *)
Inductive request : Type :=
  | RCreate (actor : Actor) (slug : string) (conf : CategoryConfiguration) (why : string)
  | RReconfigure (actor : Actor) (slug : string) (conf : CategoryConfiguration) (why : string)
  | RDraft (s : Listings.SubmittedListing)
  | REdit (id ownerId : string) (s : Listings.SubmittedListingEdit)
  | RPublish (id ownerId : string)
  | RPause (id ownerId : string)
  | RModerate (id : string) (state : ModerationState) (why : option string) (actor : Actor)
  | RErase (actor : Actor).

(** What the request schemas let through. *)
Definition lawful (q : request) : Prop :=
  match q with
  | RCreate _ _ conf _ | RReconfigure _ _ conf _ => lawful_configuration conf
  | RDraft s => lawful_submission (Listings.sl_edit s)
  | REdit _ _ s => lawful_submission s
  | _ => True
  end.

Definition author (q : request) : party :=
  match q with
  | RCreate _ _ _ _ | RReconfigure _ _ _ _ => an_administrator
  | RDraft s => an_owner (Listings.sl_ownerId s)
  | REdit _ o _ | RPublish _ o | RPause _ o => an_owner o
  | RModerate _ _ _ _ => a_moderator
  | RErase a => an_owner (actor_userId a)
  end.

Section Schedules.
Context {Ids : UuidSource} {Pg : PgTypes} {Order : DescOrder} {Enc : FieldEncryptor} {L : Luxon}.
Context {W : Type} {Ports : ListingPorts W}.
Hypothesis booked_asked : forall ids (w : W), findBookedListings ids w ⊆ ids.

(** A request, and what others commit while it is served. *)
Record turn : Type := mkTurn {
  turn_rival : World W -> World W;
  turn_within : Db -> Db;
  turn_request : request }.

Definition serve (t : turn) (w : World W) : World W :=
  let rival := turn_rival t in let within := turn_within t in
  match turn_request t with
  | RCreate a slug conf why => fst (Catalogue.create rival a slug conf why w)
  | RReconfigure a slug conf why => fst (Catalogue.reconfigure rival within a slug conf why w)
  | RDraft s => fst (Listings.createDraft rival within s w)
  | REdit id o s => fst (Listings.edit rival within id o s w)
  | RPublish id o => fst (Listings.publish rival within id o w)
  | RPause id o => fst (Listings.pause rival within id o w)
  | RModerate id state why a => fst (Listings.moderate rival within id state why a w)
  | RErase a => fst (Listings.eraseFor rival a w)
  end.

Definition schedule (ts : list turn) (w : World W) : World W := fold_left (fun w t => serve t w) ts w.

(** A turn of [who], and of nobody else. *)
Record turn_of (who : party -> Prop) (t : turn) : Prop := {
  to_author : who (author (turn_request t));
  to_lawful : lawful (turn_request t);
  to_rival : forall w, reach who (cdb w) (cdb (turn_rival t w));
  to_within : forall db, reach who db (turn_within t db) }.

Lemma safe_run {A} (who : party -> Prop) (m : M (World W) A) (w : World W) :
  safely (@cdb W) who (fun _ => True) m (fun _ _ => True) -> catalogue_wf (cdb w) -> reach who (cdb w) (cdb (fst (m w))).
Proof. intros Hm Hwf. destruct (m w) as [w' r] eqn:E. by apply (Hm w w' r). Qed.

Lemma serve_reach (who : party -> Prop) (t : turn) (w : World W) :
  who the_system -> turn_of who t -> catalogue_wf (cdb w) -> reach who (cdb w) (cdb (serve t w)).
Proof.
  intros Hsys [Ha Hl Hr Hi] Hwf. unfold serve.
  destruct (turn_request t) as [a slug conf why|a slug conf why|s|id o s|id o|id o|id st why a|a]; cbn in *;
    apply safe_run; try done.
  - by apply safe_create.
  - by apply safe_reconfigure.
  - by apply safe_draft.
  - by apply safe_edit.
  - by apply safe_publish.
  - by apply safe_pause.
  - by apply safe_moderation.
  - by apply safe_eraseFor.
Qed.

Lemma schedule_reach (who : party -> Prop) (ts : list turn) (w : World W) :
  who the_system -> Forall (turn_of who) ts -> catalogue_wf (cdb w) -> reach who (cdb w) (cdb (schedule ts w)).
Proof.
  intros Hsys Hts. revert w. induction Hts as [|t ts Ht _ IH]; intros w Hwf; [reflexivity|]. cbn.
  pose proof (serve_reach who t w Hsys Ht Hwf) as H1. etrans; [exact H1|]. apply IH. by eapply wf_reach.
Qed.

(** ** The theorems *)
(** C12. Under any interleaving of requests the tables of the catalogue stay well formed:
    slugs and ids are distinct, versions are numbered from one and pass the margin rule,
    every listing's answers fit the version it is pinned to, and every address can be
    decrypted and lies in the area its listing shows. *)
Theorem listings_stay_lawful (ts : list turn) (w : World W) :
  catalogue_wf (cdb w) -> Forall (turn_of (fun _ => True)) ts -> catalogue_wf (cdb (schedule ts w)).
Proof. intros Hwf Hts. by eapply wf_reach; [apply (schedule_reach (fun _ => True))|]. Qed.

(** C10. A listing that a moderator hid stays hidden, for the reason recorded, and out of
    sight of the public and of anybody who would book it, after any schedule of requests by
    everybody but moderators, disturbed at every await and between all statements by others
    of their requests. *)
Theorem hidden_until_moderated (ts : list turn) (w : World W) (r : ListingRow) (rival : World W -> World W) :
  catalogue_wf (cdb w) -> Forall (turn_of (fun p => p <> a_moderator)) ts ->
  r ∈ listings (cdb w) -> li_moderationState r <> APPROVED ->
  let w' := schedule ts w in
  (exists why, li_moderationReason r = Some why /\ LedgerDb.btrim_empty why = false) /\
  (forall r', r' ∈ listings (cdb w') -> li_id r' = li_id r -> same_moderation r r') /\
  snd (Listings.findPublic rival (li_id r) w') = Ok None /\
  snd (Listings.findQuotable rival (li_id r) w') = Ok None.
Proof.
  intros Hwf Hts Hr Hh w'.
  assert (forall r', r' ∈ listings (cdb w') -> li_id r' = li_id r -> same_moderation r r') as Hkeep.
  { set (F := fun db => issued (cseq db) (li_id r) /\
      forall r', r' ∈ listings db -> li_id r' = li_id r -> same_moderation r r').
    assert (F (cdb w')) as [_ H]; [|exact H].
    eapply (reach_kept F (fun p => p <> a_moderator)); [|exact Hwf|by apply schedule_reach|].
    - intros p a b Hp Hwfa Hs%step_rows [Hi Hall]. split; [by eapply issued_mono; [apply (st_seq _ _ _ Hs)|]|].
      intros r' Hr' Hid. destruct (st_after _ _ _ Hs r' Hr') as [(x & Hx & Hrow)|(Hnew & _)].
      + destruct Hrow as [|y _ (Hy & _) (H1 & H2 & H3 & H4)|]; [by apply Hall| |done].
        destruct (Hall x Hx) as (G1 & G2 & G3 & G4); [congruence|]. unfold same_moderation. split_and!; congruence.
      + exfalso. apply (issued_fresh (cseq a)). by rewrite <- Hnew, Hid.
    - destruct (row_fixed li_ownerId r (cdb w) Hwf Hr) as [Hi _]. split; [done|]. intros r' Hr' Hid.
      pose proof (find_by_unique li_id _ r (wf_listing_ids _ Hwf) Hr) as H1.
      pose proof (find_by_unique li_id _ r' (wf_listing_ids _ Hwf) Hr') as H2.
      assert (r' = r) as -> by congruence. done. }
  assert (find_visible (li_id r) (cdb w') = None) as Hnone.
  { destruct (find_visible (li_id r) (cdb w')) as [r'|] eqn:E; [|done]. exfalso.
    apply List.find_some in E as [Hin [Hid [_ Ha]%andb_true_iff]%andb_true_iff]. rewrite <- list_elem_of_In in Hin.
    rewrite !bool_decide_eq_true in *. destruct (Hkeep r' Hin Hid) as [Hs _]. congruence. }
  split; [|split; [exact Hkeep|]].
  - pose proof (lo_checks _ _ (listing_ok_at _ _ Hwf Hr)) as (_ & _ & _ & _ & _ & H & _)%refusal_none. auto.
  - unfold Listings.findPublic, Listings.findQuotable, findPublished, findQuotable, on_db. run_binds.
    by rewrite Hnone.
Qed.

(** A listing as it was, but for what moderators did to it. *)
Definition moderated_only (r r' : ListingRow) : Prop := r' = r \/ exists d at_, r' = with_moderation d at_ r.

(** C11. After any schedule of requests by anybody but its owner, disturbed everywhere by
    others, a listing is still there with its address and the category version it was
    answered against, and is unchanged but for what moderators did to it. *)
Theorem only_the_owner_changes (ts : list turn) (w : World W) (r : ListingRow) :
  catalogue_wf (cdb w) -> Forall (turn_of (fun p => p <> an_owner (li_ownerId r))) ts -> r ∈ listings (cdb w) ->
  let w' := schedule ts w in
  (exists r', r' ∈ listings (cdb w') /\ moderated_only r r') /\
  location_of (cdb w') (li_id r) = location_of (cdb w) (li_id r) /\
  (forall v, v ∈ versions (cdb w) -> ver_id v = li_categoryVersionId r -> v ∈ versions (cdb w')).
Proof.
  intros Hwf Hts Hr w'. set (place := location_of (cdb w) (li_id r)).
  set (F := fun db => (exists r', r' ∈ listings db /\ moderated_only r r') /\ location_of db (li_id r) = place /\
     forall v, v ∈ versions (cdb w) -> v ∈ versions db).
  assert (F (cdb w')) as (H1 & H2 & H3); [|by auto].
  eapply (reach_kept F (fun p => p <> an_owner (li_ownerId r))); [|exact Hwf|by apply schedule_reach|].
  - intros p a b Hp Hwfa Hs ((r' & Hr' & Hm) & Hl & Hv).
    assert (li_id r' = li_id r /\ li_ownerId r' = li_ownerId r) as [Hid Ho] by (destruct Hm as [->|(d & t & ->)]; done).
    pose proof (step_rows _ _ _ Hs) as Hrows. split_and!.
    + destruct (st_before _ _ _ Hrows r' Hr') as [(x & Hx & Hrow)|Hown]; [|congruence].
      exists x. split; [done|]. destruct Hrow as [|y Hown _ _|d t _]; [done|congruence|]. right. exists d, t.
      by destruct Hm as [->|(d' & t' & ->)].
    + rewrite <- Hid, (step_location p a b r') by (done || congruence). by rewrite Hid.
    + intros v Hvw. by apply (stable_version v p a b Hwfa Hs), Hv.
  - split; [|by split]. exists r. split; [done|by left].
Qed.

(** Under any interleaving, categories and their versions are only ever added, each version
    numbered one more than the last, and every one of them passes the margin rule. *)
Theorem versions_append_only (ts : list turn) (w : World W) :
  catalogue_wf (cdb w) -> Forall (turn_of (fun _ => True)) ts ->
  let db' := cdb (schedule ts w) in
  categories (cdb w) `prefix_of` categories db' /\ versions (cdb w) `prefix_of` versions db' /\
  (forall c, c ∈ categories db' -> exists n,
     ver_versionNumber <$> of_category (cat_id c) db' = Z.of_nat <$> seq 1 (S n)) /\
  (forall v, v ∈ versions db' -> meets_rule (policy_of v)).
Proof.
  intros Hwf Hts db'.
  assert (reach (fun _ => True) (cdb w) db') as Hr by by apply schedule_reach.
  assert (catalogue_wf db') as Hwf' by by eapply wf_reach.
  assert (categories (cdb w) `prefix_of` categories db' /\ versions (cdb w) `prefix_of` versions db') as [Hc Hv].
  { eapply (reach_kept (fun db => categories (cdb w) `prefix_of` categories db /\ versions (cdb w) `prefix_of` versions db)
      (fun _ => True)); [|exact Hwf|exact Hr|done].
    intros p a b _ _ Hs%step_rows [H1 H2]. split; [by etrans; [exact H1|apply (st_categories _ _ _ Hs)]|].
    by etrans; [exact H2|apply (st_versions _ _ _ Hs)]. }
  split_and!; [done|done|apply Hwf'|]. intros v Hin. by apply (vo_margin _ (version_ok_at v db' Hwf' Hin)).
Qed.

(** ** What the public finds *)
Lemma find_visible_iff (db : Db) (id : string) (r : ListingRow) :
  catalogue_wf db -> find_visible id db = Some r <->
  r ∈ listings db /\ li_id r = id /\ isPubliclyVisible (li_status r) (li_moderationState r) = true.
Proof.
  intros Hwf. split.
  - intros [Hin [Hid Hv]%andb_true_iff]%List.find_some. rewrite bool_decide_eq_true in Hid. by rewrite list_elem_of_In.
  - intros (Hin & Hid & Hv). unfold find_visible. destruct (List.find _ _) as [r'|] eqn:E.
    + apply List.find_some in E as [Hin' [Hid' _]%andb_true_iff]. rewrite <- list_elem_of_In in Hin'.
      rewrite bool_decide_eq_true in Hid'. f_equal.
      pose proof (find_by_unique li_id _ r (wf_listing_ids _ Hwf) Hin) as H1.
      pose proof (find_by_unique li_id _ r' (wf_listing_ids _ Hwf) Hin') as H2. congruence.
    + exfalso. apply List.find_none with (x := r) in E; [|by apply list_elem_of_In].
      rewrite bool_decide_eq_true_2 in E by done. cbn in E. unfold isPubliclyVisible in Hv. unfold PUBLICLY_VISIBLE in E. congruence.
Qed.

(** A listing can be booked exactly when it is published, not hidden by a moderator, and its
    owner is, by the time that is looked up, a private individual. *)
Theorem bookable_iff (rival : World W -> World W) (w : World W) (id : string) :
  catalogue_wf (cdb w) ->
  let owner_now o := findOwnerStatuses [o] (rest (rival w)) !! o in
  (exists q, snd (Listings.findQuotable rival id w) = Ok (Some q)) <->
  (exists r, r ∈ listings (cdb w) /\ li_id r = id /\ li_status r = PUBLISHED /\ li_moderationState r = APPROVED /\
     owner_now (li_ownerId r) = Some private_owner).
Proof.
  intros Hwf owner_now. unfold Listings.findQuotable, findQuotable, on_db. run_binds. destruct w as [db s]. cbn in *.
  destruct (find_visible id db) as [r|] eqn:E.
  - pose proof (proj1 (find_visible_iff _ _ _ Hwf) E) as (Hin & Hid & Hv).
    destruct (quotable_read db r Hwf Hin) as (q & Hq & Ho). cbn. rewrite Hq. cbn [mbind result_bind]. unfold Listings.await. run_binds.
    unfold isPubliclyVisible in Hv. rewrite andb_true_iff, !bool_decide_eq_true in Hv. destruct Hv as [Hp Ha].
    unfold Listings.ownerStatusOf. cbn [gets]. rewrite Ho. fold (owner_now (li_ownerId r)). split.
    + intros [q' Hq']. exists r. split_and!; try done. by destruct (owner_now (li_ownerId r)) as [[]|].
    + intros (r' & Hin' & Hid' & _ & _ & Hown). exists q.
      assert (li_ownerId r' = li_ownerId r) as Heq.
      { destruct (row_fixed li_ownerId r db Hwf Hin) as [_ Hfix]. apply Hfix; [done|congruence]. }
      rewrite Heq in Hown. by rewrite Hown.
  - split; [by intros [q [=]]|]. intros (r & Hin & Hid & Hp & Ha & _). exfalso.
    assert (find_visible id db = Some r) as H; [|congruence]. apply find_visible_iff; [done|]. split_and!; try done.
    unfold isPubliclyVisible. by rewrite Hp, Ha.
Qed.
End Schedules.
Arguments turn W : clear implicits.
