(* ===== verification/ListingOutcomes.v ===== *)
(** * Categories and listings: what each request does, undisturbed

    A request that nobody overtakes, on every branch: publishing, drafting, editing,
    moderating and erasing.  [referenced] says that the accounts the rows name exist,
    as the foreign keys keep it: accounts are marked as deleted, never removed. *)

From Stdlib Require String.
From S2P Require Import Prelude JsNumber Text Money Ledger LedgerStore Pricing.
From S2P Require Import Columns Bookings AuditLog LocalTime CoreText Answers AnswersProofs UnitEconomics.
From S2P Require Import CatalogueStore ListingStore ListingRows Listings ListingProofs LedgerTheorems.

#[local] Open Scope string_scope.
#[local] Open Scope list_scope.
#[local] Open Scope Z_scope.

Import Money Pricing Attributes Transport Publication CatalogueDb ListingDb AuditDb.

#[local] Arguments findOwnedBy : simpl never.
#[local] Arguments find_by : simpl never.
#[local] Arguments on_db : simpl never.
#[local] Arguments on_rest : simpl never.

Section Outcomes.
Context {Ids : UuidSource} {Pg : PgTypes} {Order : DescOrder} {Enc : FieldEncryptor} {L : Luxon}.
Context {W : Type} {Ports : ListingPorts W}.

(** ** Rows and what is read of them *)
Definition names_known (known : string -> bool) (r : ListingRow) : Prop :=
  known (li_ownerId r) = true /\ forall m, li_moderatedById r = Some m -> known m = true.

Definition referenced (w : World W) : Prop :=
  forall r, r ∈ listings (cdb w) -> names_known (account (rest w)) r.

Lemma has_version_in (v : VersionRow) (db : Db) :
  v ∈ versions db -> has_version db (ver_id v) (ver_categoryId v) = true.
Proof. intros Hv. apply existsb_exists. exists v. rewrite <- list_elem_of_In. by rewrite !bool_decide_eq_true_2. Qed.

(** A row that keeps its content, and the CHECKs, can be stored. *)
Lemma row_storable (known : string -> bool) (db : Db) (r r' : ListingRow) :
  catalogue_wf db -> r ∈ listings db -> li_categoryVersionId r' = li_categoryVersionId r ->
  li_categoryId r' = li_categoryId r -> listing_refusal r' = None -> names_known known r' ->
  listing_invalid known db r' = None.
Proof.
  intros Hwf Hr Hv Hc Hok [Ho Hm]. unfold listing_invalid. rewrite Hok, Ho, Hv, Hc. cbn.
  destruct (lo_content _ _ (listing_ok_at db r Hwf Hr)) as (v & c & Hin & Hid & Hcat & _).
  rewrite <- Hid, <- Hcat, (has_version_in v db Hin). cbn. destruct (li_moderatedById r') as [m|]; [|done]. by rewrite (Hm m eq_refl).
Qed.

Lemma found_unique (q : ListingRow -> bool) (db : Db) (r : ListingRow) :
  catalogue_wf db -> r ∈ listings db -> q r = true -> (forall x, q x = true -> li_id x = li_id r) ->
  forall x, x ∈ listings db -> q x = true -> x = r.
Proof.
  intros Hwf Hr Hq Hid x Hx Hqx. pose proof (find_by_unique li_id _ r (wf_listing_ids _ Hwf) Hr) as H1.
  pose proof (find_by_unique li_id _ x (wf_listing_ids _ Hwf) Hx) as H2. rewrite (Hid x Hqx) in H2. congruence.
Qed.

(** The one row that [q] picks, changed. *)
Definition changed (r r' : ListingRow) (db : Db) : Db :=
  with_listings ((fun x => if bool_decide (li_id x = li_id r) then r' else x) <$> listings db) db.

Lemma update_one (known : string -> bool) (q : ListingRow -> bool) (f : ListingRow -> ListingRow) (db : Db)
    (r : ListingRow) :
  catalogue_wf db -> r ∈ listings db -> q r = true -> (forall x, q x = true -> li_id x = li_id r) ->
  listing_invalid known db (f r) = None ->
  update_listings known q f db = (changed r (f r) db, Ok 1%nat).
Proof.
  intros Hwf Hr Hq Hid Hok.
  assert (forall x, x ∈ listings db -> q x = bool_decide (li_id x = li_id r)) as Hsame.
  { intros x Hx. destruct (q x) eqn:E; [by rewrite bool_decide_eq_true_2 by auto|]. symmetry.
    apply bool_decide_eq_false_2. intros Hxr.
    pose proof (find_by_unique li_id _ r (wf_listing_ids _ Hwf) Hr) as H1.
    pose proof (find_by_unique li_id _ x (wf_listing_ids _ Hwf) Hx) as H2. rewrite Hxr in H2. congruence. }
  unfold update_listings.
  assert (omap (fun x => if q x then listing_invalid known db (f x) else None) (listings db) = []) as ->.
  { apply elem_of_nil_inv. intros why (x & Hx & Hw)%list_elem_of_omap. destruct (q x) eqn:E; [|done].
    rewrite (found_unique q db r Hwf Hr Hq Hid x Hx E) in Hw. congruence. }
  f_equal; [|f_equal].
  - unfold changed. f_equal. apply list_fmap_ext. intros i x Hx%list_elem_of_lookup_2. rewrite (Hsame x Hx).
    case_bool_decide as Hb; [|done]. f_equal. apply (found_unique q db r Hwf Hr Hq Hid); [done|]. rewrite (Hsame x Hx). by apply bool_decide_eq_true_2.
  - rewrite (List.filter_ext_in _ (fun x => bool_decide (li_id x = li_id r))).
    + by rewrite (filter_by_unique li_id) by (done || apply Hwf).
    + intros x Hx. apply Hsame. by apply list_elem_of_In.
Qed.

Lemma find_changed (q : ListingRow -> bool) (r r' : ListingRow) (db : Db) :
  li_id r' = li_id r -> (forall x, q x = true -> li_id x = li_id r) -> r ∈ listings db -> q r' = true ->
  List.find q (listings (changed r r' db)) = Some r'.
Proof.
  intros Hid Hq Hr Hq'. cbn. induction (listings db) as [|x l IH]; [by apply elem_of_nil in Hr|]. cbn.
  case_bool_decide as Hx; [by rewrite Hq'|]. destruct (q x) eqn:E; [by apply Hq in E|].
  apply IH. apply elem_of_cons in Hr as [->|]; done.
Qed.

Lemma record_state (db : Db) (r : ListingRow) (l : ListingRecord) :
  toRecord db r = Ok l -> lr_status l = li_status r /\ lr_moderationState l = li_moderationState r /\
    lr_moderationReason l = li_moderationReason r.
Proof.
  unfold toRecord. destruct (joined db r) as [[v c]|]; [|done]. unfold_result. destruct (asFeePolicy _); [|done].
  destruct (asDamageSecurity _); [|done]. destruct (asContent r); [|done]. destruct (toLocation db r); [|done].
  by intros [= <-].
Qed.

(** What is read of a row, when only its state changes. *)
Definition as_of (s : ListingStatus) (m : ModerationState) (why : option string) (at_ : instant) (l : ListingRecord)
  : ListingRecord := {|
  lr_id := lr_id l; lr_ownerId := lr_ownerId l; lr_categorySlug := lr_categorySlug l;
  lr_categoryName := lr_categoryName l; lr_categoryVersionNumber := lr_categoryVersionNumber l;
  lr_categoryAttributes := lr_categoryAttributes l; lr_currentFeePolicy := lr_currentFeePolicy l;
  lr_currentDamageSecurity := lr_currentDamageSecurity l;
  lr_categoryTransportOptions := lr_categoryTransportOptions l; lr_content := lr_content l;
  lr_collectionLocation := lr_collectionLocation l; lr_isLocated := lr_isLocated l; lr_status := s;
  lr_moderationState := m; lr_moderationReason := why; lr_createdAt := lr_createdAt l; lr_updatedAt := at_ |}.

Lemma toRecord_as_of (db db' : Db) (r r' : ListingRow) (l : ListingRecord) :
  versions db' = versions db -> categories db' = categories db -> locations db' = locations db ->
  (exists s at_, r' = with_status s at_ r) \/ (exists d at_, r' = with_moderation d at_ r) ->
  toRecord db r = Ok l ->
  toRecord db' r' = Ok (as_of (li_status r') (li_moderationState r') (li_moderationReason r') (li_updatedAt r') l).
Proof.
  intros Hv Hc Hl Hr. unfold toRecord.
  assert (joined db' r' = joined db r) as -> by (unfold joined; rewrite Hv, Hc; by destruct Hr as [(?&?&->)|(?&?&->)]).
  assert (forall v c, latestVersionOf db' v c = latestVersionOf db v c) as Hlat.
  { intros v c. unfold latestVersionOf, latest_version. by rewrite Hv. }
  assert (asContent r' = asContent r) as -> by (by destruct Hr as [(?&?&->)|(?&?&->)]).
  assert (toLocation db' r' = toLocation db r) as ->.
  { unfold toLocation, location_of. rewrite Hl. by destruct Hr as [(?&?&->)|(?&?&->)]. }
  assert (li_id r' = li_id r /\ li_ownerId r' = li_ownerId r /\ li_createdAt r' = li_createdAt r) as (-> & -> & ->)
    by (by destruct Hr as [(?&?&->)|(?&?&->)]).
  unfold isLocated, location_of. rewrite Hl. destruct (joined db r) as [[v c]|]; [|done]. unfold_result. rewrite Hlat.
  destruct (asFeePolicy _); [|done]. destruct (asDamageSecurity _); [|done]. destruct (asContent r); [|done].
  destruct (toLocation db r); [|done]. by intros [= <-].
Qed.

(** ** Publishing and pausing *)
Lemma set_status_run (known : string -> bool) (s : ListingStatus) (db : Db) (r : ListingRow) :
  catalogue_wf db -> r ∈ listings db -> names_known known r ->
  set_status known (li_id r) (li_ownerId r) s db = (changed r (with_status s (cclock db) r) db, Ok 1%nat).
Proof.
  intros Hwf Hr Hn. unfold set_status. run_binds. apply (update_one known _ (with_status s (cclock db))); try done.
  - by apply is_owned_true.
  - by intros x [? _]%is_owned_true.
  - apply (row_storable known db r); try done. exact (lo_checks _ _ (listing_ok_at db r Hwf Hr)).
Qed.

Lemma set_and_find (known : string -> bool) (s : ListingStatus) (db : Db) (r : ListingRow) (l : ListingRecord) :
  catalogue_wf db -> r ∈ listings db -> names_known known r -> toRecord db r = Ok l ->
  (count ← set_status known (li_id r) (li_ownerId r) s;
   if (count =? 0)%nat then mret None else _ ← modify Datatypes.id; findOwnedBy (li_id r) (li_ownerId r)) db
  = (changed r (with_status s (cclock db) r) db,
     Ok (Some (as_of s (lr_moderationState l) (lr_moderationReason l) (cclock db) l))).
Proof.
  intros Hwf Hr Hn Hl. rewrite bind_at, set_status_run by done. cbn [Nat.eqb]. run_binds.
  unfold findOwnedBy, owned, Datatypes.id.
  rewrite (find_changed _ r); [|done|by intros x [? _]%is_owned_true|done|by apply is_owned_true]. cbn [optionally].
  rewrite (toRecord_as_of db _ r _ l) by (done || by left; eexists _, _). cbn.
  by destruct (record_state db r l Hl) as (_ & -> & ->).
Qed.
(** The listing's owner, looked up now. *)
Definition owner_status (o : string) (w : World W) : option OwnerStatus := findOwnerStatuses [o] (rest w) !! o.

Lemma owner_status_at (o : string) (w : World W) : Listings.ownerStatusOf o w = (w, Ok (owner_status o w)).
Proof. done. Qed.

Definition republished (s : ListingStatus) (r : ListingRow) (w : World W) : World W :=
  mkWorld (changed r (with_status s (cclock (cdb w)) r) (cdb w)) (rest w).
Definition restated (s : ListingStatus) (l : ListingRecord) (w : World W) : ListingRecord :=
  as_of s (lr_moderationState l) (lr_moderationReason l) (cclock (cdb w)) l.

Lemma owned_none (id o : string) (db : Db) : owned id o db = None -> snd (findOwnedBy id o db) = Ok None.
Proof. intros H. unfold findOwnedBy. by rewrite H. Qed.

Lemma owned_some (id o : string) (db : Db) (r : ListingRow) :
  catalogue_wf db -> owned id o db = Some r -> exists l, findOwnedBy id o db = (db, Ok (Some l)) /\ toRecord db r = Ok l.
Proof.
  intros Hwf H. destruct (owned_row _ _ _ _ H) as (Hr & _ & _). destruct (record_read db r Hwf Hr) as [l Hl].
  exists l. split; [|done]. unfold findOwnedBy. by rewrite H; cbn; rewrite Hl.
Qed.

(** An owner's listing, and what is read of it. *)
Record mine (id o : string) (db : Db) (r : ListingRow) (l : ListingRecord) : Prop := {
  mi_stored : r ∈ listings db;
  mi_id : li_id r = id;
  mi_owner : li_ownerId r = o;
  mi_read : toRecord db r = Ok l }.

Lemma findOwned_outcomes (id o : string) (db : Db) :
  catalogue_wf db ->
  (exists r l, mine id o db r l /\ findOwnedBy id o db = (db, Ok (Some l))) \/
  ((forall r, r ∈ listings db -> li_id r = id -> li_ownerId r <> o) /\ findOwnedBy id o db = (db, Ok None)).
Proof.
  intros Hwf. unfold findOwnedBy. destruct (owned id o db) as [r|] eqn:E.
  - left. destruct (owned_row _ _ _ _ E) as (Hr & Hi & Ho). destruct (record_read db r Hwf Hr) as [l Hl].
    exists r, l. cbn. by rewrite Hl.
  - right. split; [|done]. intros r Hr Hi Ho. apply List.find_none with (x := r) in E; [|by apply list_elem_of_In].
    assert (is_owned id o r = true) by by apply is_owned_true. congruence.
Qed.

Lemma on_read {A} (m : M Db A) (db : Db) (k : W) (x : result A) :
  m db = (db, x) -> on_db (fun _ => m) (mkWorld db k) = (mkWorld db k, x).
Proof. unfold on_db. cbn. by intros ->. Qed.

(** What publishing asks of a listing. *)
Record ready (w : World W) (o : string) (l : ListingRecord) : Prop := {
  re_enabled : isPublicationEnabled (rest w) = true;
  re_complete : complete (Listings.candidate_of l (owner_status o w));
  re_private : owner_status o w = Some private_owner }.

Lemma mine_unique (id o : string) (db : Db) (r r' : ListingRow) (l l' : ListingRecord) :
  catalogue_wf db -> mine id o db r l -> mine id o db r' l' -> r' = r /\ l' = l.
Proof.
  intros Hwf [Hr Hi _ Hl] [Hr' Hi' _ Hl'].
  pose proof (find_by_unique li_id _ r (wf_listing_ids _ Hwf) Hr) as H1.
  pose proof (find_by_unique li_id _ r' (wf_listing_ids _ Hwf) Hr') as H2.
  assert (r' = r) as -> by congruence. split; [done|congruence].
Qed.

Lemma find_visible_changed (r r' : ListingRow) (db : Db) :
  catalogue_wf db -> r ∈ listings db -> li_id r' = li_id r ->
  find_visible (li_id r) (changed r r' db) = if PUBLICLY_VISIBLE r' then Some r' else None.
Proof.
  intros Hwf Hr Hid. unfold find_visible. destruct (PUBLICLY_VISIBLE r') eqn:Hv.
  - apply find_changed; [done| |done|by rewrite Hid, bool_decide_eq_true_2, Hv].
    by intros x [Hx%bool_decide_eq_true _]%andb_true_iff.
  - destruct (List.find _ _) as [x|] eqn:E; [|done]. exfalso. apply List.find_some in E as [Hx [Hi Hxv]%andb_true_iff].
    apply bool_decide_eq_true in Hi. rewrite <- list_elem_of_In in Hx. cbn in Hx.
    apply list_elem_of_fmap in Hx as (y & -> & _). case_bool_decide; [congruence|done].
Qed.

(** C28. Publishing, in lawful tables whose accounts exist and where nothing else happens
    meanwhile, answers on every branch: refused while publication is switched off; nothing
    for a listing that is not the owner's; refused, from whatever status, while something is
    missing, naming exactly the fields that are missing; and otherwise the listing is
    published, whatever its status was, nothing else changes, and the public sees it unless
    a moderator hid it. *)
Theorem publish_outcomes (id o : string) (w : World W) :
  catalogue_wf (cdb w) -> referenced w ->
  let '(w', x) := Listings.publish Datatypes.id Datatypes.id id o w in
  match x with
  | Ok (Some l') => exists r l, mine id o (cdb w) r l /\ ready w o l /\
      w' = republished PUBLISHED r w /\ mine id o (cdb w') (with_status PUBLISHED (cclock (cdb w)) r) l' /\
      l' = restated PUBLISHED l w /\
      (is_Some (find_visible id (cdb w')) <-> li_moderationState r = APPROVED)
  | Ok None => w' = w /\ forall r, r ∈ listings (cdb w) -> li_id r = id -> li_ownerId r <> o
  | Err e => w' = w /\
      (if isPublicationEnabled (rest w)
       then exists r l blockers, mine id o (cdb w) r l /\ ~ ready w o l /\
         e = ListingNotPublishableError blockers /\ blockers <> [] /\
         forall f, f ∈ fst <$> blockers <-> missing (Listings.candidate_of l (owner_status o w)) f
       else e = PublicationSuspendedError)
  end.
Proof.
  intros Hwf Href. destruct w as [db k]. unfold Listings.publish, Listings.isPublicationAvailable, Listings.await. cbn in *.
  run_binds. cbn. destruct (isPublicationEnabled k) eqn:Hon; cbn; [|done].
  destruct (findOwned_outcomes id o db Hwf) as [(r & l & Hm & Hfind)|[Hno Hfind]]; rewrite (on_read _ _ _ _ Hfind);
    [|done].
  pose proof Hm as [Hr Hi Ho Hl].
  assert (lr_status l = li_status r) as Hst by apply (record_state db r l Hl).
  run_binds. unfold Listings.refuseIllegalTransition, transitionRefusal. cbn [lift].
  assert (canTransition t_publish (lr_status l) = true) as -> by (by destruct (lr_status l)).
  run_binds. unfold Datatypes.id at 1. rewrite owner_status_at.
  pose proof (publishable_iff (Listings.candidate_of l (owner_status o (mkWorld db k)))) as Hp.
  case_bool_decide as Hb; cbn [negb throw_if lift].
  - run_binds. unfold on_db, ListingDb.publish. cbn [cdb rest Datatypes.id]. rewrite <- Hi, <- Ho.
    rewrite (set_and_find (account k) PUBLISHED db r l Hwf Hr (Href r Hr) Hl). cbv beta iota.
    apply Hp in Hb as [Hc Hpriv]. exists r, l. rewrite Hi, Ho. split_and!; [done| |done| |done|].
    + by split; rewrite ?Ho.
    + split; [|done|done|].
      * cbn. apply list_elem_of_fmap. exists r. by rewrite bool_decide_eq_true_2.
      * rewrite (toRecord_as_of db _ r _ l) by (done || by left; eexists _, _).
        unfold restated. by destruct (record_state db r l Hl) as (_ & -> & ->).
    + rewrite <- Hi. unfold republished. cbn [cdb]. rewrite find_visible_changed by done.
      unfold PUBLICLY_VISIBLE. rewrite bool_decide_eq_true_2 by done. cbn. by case_bool_decide; split.
  - split; [done|]. exists r, l. eexists. split; [done|]. split; [|split; [done|split]].
    + intros [_ Hc Hpriv]. apply Hb, Hp. by split.
    + intros E. apply Hb. by apply fmap_nil_inv in E.
    + intros f. rewrite <- blockers_missing, <- list_fmap_compose. done.
Qed.

(** ** Drafting *)

(** What the request schema and the columns ask of a submission. *)
Record fits_columns (s : Listings.SubmittedListingEdit) : Prop := {
  fc_pounds : lawful_submission s;
  fc_value : LedgerDb.fits_int4 (amount (Listings.sl_replacementValue s)) = true;
  fc_rates : let c := Listings.sl_rates s in
    rate_in_bounds (amount <$> daily c) && rate_in_bounds (amount <$> weekend c) && rate_in_bounds (amount <$> weekly c) = true;
  fc_daily : daily (Listings.sl_rates s) = None -> weekend (Listings.sl_rates s) = None /\ weekly (Listings.sl_rates s) = None;
  fc_postcode : forall l, Listings.sl_collectionLocation s = Some l -> Postcode.isValid (postcode l) = true }.

Definition lawful_point (p : option LocatedListingPoint) : Prop :=
  forall x, p = Some x -> 0 <= fuzzBearingDegrees x < 360 /\ 500 <= fuzzDistanceMetres x.

(** What the locator promises: an answer, with an offset the table takes where the
    offset handed to it was one, and no account the fewer. *)
Record sound_locator : Prop := {
  sl_locate : forall p k, exists k' x, locate p k = (k', Ok x) /\ lawful_point x /\
    forall i, account k i = true -> account k' i = true;
  sl_relocate : forall p o k, 0 <= bearingDegrees o < 360 /\ 500 <= distanceMetres o ->
    exists k' x, relocate p o k = (k', Ok x) /\ lawful_point x /\ forall i, account k i = true -> account k' i = true }.

Lemma outwardCode_valid (p : string) : Postcode.isValid p = true -> exists o, Postcode.outwardCode p = Ok o.
Proof. intros H. unfold Postcode.outwardCode. rewrite Postcode.parse_spec, H. by eexists. Qed.

Lemma location_columns_ok (l : option ListingCollectionLocation) :
  (forall x, l = Some x -> Postcode.isValid (postcode x) = true) ->
  exists o, location_columns l = Ok (o, town <$> l) /\ (o = None <-> l = None).
Proof.
  intros H. destruct l as [x|]; [|by exists None]. destruct (outwardCode_valid _ (H x eq_refl)) as [o Ho].
  exists (Some o). cbn. by rewrite Ho.
Qed.

Lemma lawful_point_stored (l : LocationRow) : lawful_point (loc_point l) -> location_refusal l = None.
Proof.
  intros H. unfold location_refusal. destruct (loc_point l) as [x|]; [|done]. specialize (H x eq_refl).
  assert ((0 <=? fuzzBearingDegrees x) && (fuzzBearingDegrees x <? 360) && (500 <=? fuzzDistanceMetres x) = true) as ->
    by lia. done.
Qed.

(** The CHECKs of a row whose content is a submission's. *)
Lemma content_row_stored (s : Listings.SubmittedListingEdit) (values : ListingAttributeValues) (versionId : string)
    (o t : option string) (at_ : instant) (r : ListingRow) :
  fits_columns s -> (o = None <-> t = None) ->
  (li_moderationState r <> APPROVED -> exists why, li_moderationReason r = Some why /\ LedgerDb.btrim_empty why = false) ->
  (li_moderatedById r = None <-> li_moderatedAt r = None) ->
  listing_refusal (with_content versionId (Listings.content_of s values) (o, t) at_ r) = None.
Proof.
  intros [_ Hv Hr Hd _] Hot Hm Hby. unfold listing_refusal. cbn -[LedgerDb.fits_int4 rate_in_bounds].
  cbv zeta in Hr. rewrite Hv, Hr. rewrite !(bool_decide_eq_true_2 (_ <-> _)) by done. cbn -[rate_in_bounds].
  assert (bool_decide (amount <$> daily (Listings.sl_rates s) = None) &&
    negb (bool_decide (amount <$> weekend (Listings.sl_rates s) = None) &&
          bool_decide (amount <$> weekly (Listings.sl_rates s) = None)) = false) as ->.
  { destruct (daily (Listings.sl_rates s)); [done|]. destruct Hd as [-> ->]; done. }
  case_bool_decide as Ha; cbn; [|done]. destruct (Hm Ha) as (why & -> & Hw). by rewrite Hw.
Qed.

Lemma fresh_id (db : Db) :
  catalogue_wf db ->
  uuid (cseq db) ∉ li_id <$> listings db /\ find_by loc_listingId (uuid (cseq db)) (locations db) = None.
Proof.
  intros Hwf. assert (uuid (cseq db) ∉ li_id <$> listings db) as Hfresh.
  { intros Hin. pose proof (wf_listing_issued _ Hwf) as Hi. rewrite Forall_forall in Hi. by apply (issued_fresh (cseq db)), Hi. }
  split; [done|]. apply find_by_None. intros (l & Hl & Hin)%list_elem_of_fmap. pose proof (wf_locations _ Hwf) as Hlo.
  rewrite Forall_forall in Hlo. destruct (lk_area _ _ (Hlo l Hin)) as (x & _ & Hx & Hxi & _).
  apply Hfresh. rewrite Hl, <- Hxi. by apply list_elem_of_fmap_2.
Qed.

(** The draft that a submission makes. *)
Lemma write_draft_run (known : string -> bool) (slug o : string) (s : Listings.SubmittedListingEdit)
    (values : ListingAttributeValues) (point : option LocatedListingPoint) (n : Z) (v : VersionRow) (db : Db) :
  catalogue_wf db -> v ∈ versions db -> content_fits v (Listings.content_of s values) -> known o = true ->
  fits_columns s -> lawful_point point ->
  let d := mkDraft o slug (Listings.content_of s values) (Listings.sl_collectionLocation s) point n in
  exists r db', write_draft known d v db = (db', Ok r) /\ catalogue_wf db' /\ listings db' = listings db ++ [r] /\
    versions db' = versions db /\ categories db' = categories db /\
    li_id r = uuid (cseq db) /\ li_ownerId r = o /\ li_categoryVersionId r = ver_id v /\ li_status r = DRAFT /\
    li_moderationState r = APPROVED /\ asContent r = Ok (Listings.content_of s values) /\
    toLocation db' r = Ok (Listings.sl_collectionLocation s) /\
    isLocated db' (li_id r) = bool_decide (is_Some (Listings.sl_collectionLocation s) /\ is_Some point).
Proof.
  intros Hwf Hv Hc Ho Hs Hp d.
  pose proof (wf_write_draft known d v db Hwf Hv Hc) as Hwf'.
  destruct (location_columns_ok (dr_collectionLocation d) (fc_postcode _ Hs)) as (oc & Hcol & Hoc).
  set (r := with_content (ver_id v) (dr_content d) (oc, town <$> dr_collectionLocation d) (cclock db)
              (draft_row (uuid (cseq db)) (dr_ownerId d) (ver_categoryId v) (ver_id v) (cclock db))).
  assert (listing_refusal r = None) as Hr.
  { apply content_row_stored; [done| |by intros []|done]. rewrite Hoc. by destruct (dr_collectionLocation d). }
  assert (listing_invalid known db r = None) as Hok.
  { unfold listing_invalid. rewrite Hr. cbn. by rewrite Ho, (has_version_in v db Hv). }
  assert (asContent r = Ok (Listings.content_of s values)) as Hcontent.
  { destruct (fc_pounds _ Hs). by apply content_stored. }
  destruct (fresh_id db Hwf) as [Hfresh Hnoloc].
  revert Hwf'. unfold write_draft, transaction. run_binds. rewrite Hcol. run_binds. fold r. unfold insert_listing. rewrite Hok.
  cbn [dr_collectionLocation d]. destruct (Listings.sl_collectionLocation s) as [l|] eqn:El.
  - run_binds. unfold insert_location. rewrite lawful_point_stored by done. cbn [loc_listingId location_row].
    rewrite bool_decide_eq_false_2 by (by apply find_by_None). rewrite bool_decide_eq_true_2 by (cbn; rewrite fmap_app; apply elem_of_app; right; left).
    cbn [negb]. run_binds. cbn [fst]. intros Hwf'. eexists r, _. split; [done|]. split_and!; try done.
    + unfold toLocation, location_of. cbn. rewrite find_by_app, Hnoloc. unfold find_by. cbn. rewrite bool_decide_eq_true_2 by done. cbn.
      unfold encrypt. rewrite open_seal. unfold_result. cbn. by destruct l.
    + unfold isLocated, location_of. cbn. rewrite find_by_app, Hnoloc. unfold find_by. cbn. rewrite bool_decide_eq_true_2 by done. cbn.
      destruct point; symmetry; [apply bool_decide_eq_true_2|apply bool_decide_eq_false_2]; [by split; eexists|by intros [_ [? [=]]]].
  - run_binds. cbn [fst]. intros Hwf'. eexists r, _. split; [done|]. split_and!; try done.
    + unfold toLocation, location_of. cbn. by rewrite Hnoloc.
    + unfold isLocated, location_of. cbn. by rewrite Hnoloc.
Qed.

(** A submission judged against the category as it stands: the answers, or why not. *)
Definition judged (slug : string) (s : Listings.SubmittedListingEdit) (db : Db) : result ListingAttributeValues :=
  category ← Listings.same_version slug (findOption slug db) (Listings.sl_categoryVersionNumber s);
  Listings.read_submission category s.

Lemma judged_ok (slug : string) (s : Listings.SubmittedListingEdit) (db : Db) (values : ListingAttributeValues) :
  catalogue_wf db -> lawful_submission s -> judged slug s db = Ok values ->
  exists c v, by_slug slug db = Some c /\ latest_version (cat_id c) db = Some v /\ v ∈ versions db /\
    ver_categoryId v = cat_id c /\ ver_versionNumber v = Listings.sl_categoryVersionNumber s /\
    Listings.same_version slug (findOption slug db) (Listings.sl_categoryVersionNumber s) = Ok (toOption slug v) /\
    Listings.read_submission (toOption slug v) s = Ok values /\ content_fits v (Listings.content_of s values).
Proof.
  intros Hwf Hs. unfold judged, Listings.same_version, findOption, mbind, option_bind.
  destruct (by_slug slug db) as [c|]; [|done]. destruct (latest_version (cat_id c) db) as [v|] eqn:Hl; [|done].
  cbn [co_versionNumber toOption]. destruct (Z.eqb_spec (ver_versionNumber v) (Listings.sl_categoryVersionNumber s)) as [Hn|]; [|done].
  cbn. intros Hread. pose proof (latest_spec _ _ _ Hl) as [[Hv Hcat]%elem_of_category _].
  exists c, v. split_and!; try done. eapply values_fit; [by eapply version_ok_at|done|done].
Qed.

Lemma createDraft_run (known : string -> bool) (slug o : string) (s : Listings.SubmittedListingEdit)
    (values : ListingAttributeValues) (point : option LocatedListingPoint) (c : CategoryRow) (v : VersionRow) (db : Db) :
  catalogue_wf db -> by_slug slug db = Some c -> latest_version (cat_id c) db = Some v ->
  content_fits v (Listings.content_of s values) -> known o = true -> fits_columns s -> lawful_point point ->
  exists r l db', ListingDb.createDraft known Datatypes.id
      (mkDraft o slug (Listings.content_of s values) (Listings.sl_collectionLocation s) point (ver_versionNumber v)) db
      = (db', Ok l) /\
    listings db' = listings db ++ [r] /\ mine (uuid (cseq db)) o db' r l /\
    lr_content l = Listings.content_of s values /\ lr_collectionLocation l = Listings.sl_collectionLocation s /\
    lr_categorySlug l = slug /\ lr_categoryVersionNumber l = ver_versionNumber v /\
    lr_status l = DRAFT /\ lr_moderationState l = APPROVED.
Proof.
  intros Hwf Hc Hl Hfit Ho Hs Hp. pose proof (latest_spec _ _ _ Hl) as [[Hv Hcat]%elem_of_category _].
  destruct (write_draft_run known slug o s values point (ver_versionNumber v) v db Hwf Hv Hfit Ho Hs Hp)
    as (r & db' & Hrun & Hwf' & Hls & Hvs & Hcs & Hid & Hown & Hvid & Hst & Hm & Hcont & Hplace & _).
  assert (r ∈ listings db') as Hr by (rewrite Hls; apply elem_of_app; right; by left).
  destruct (record_read db' r Hwf' Hr) as [l Hread]. exists r, l, db'.
  destruct (record_row db' r l Hwf' Hr Hread)
    as (v' & c' & Hv' & Hvid' & Hvcat' & Hc' & Hcid' & _ & _ & Hslug & Hnum & _ & _ & Hc2 & Hp2 & _ & Hs2 & Hm2 & _).
  assert (v' = v) as ->.
  { rewrite Hvs in Hv'. pose proof (version_by_id v db Hwf Hv). pose proof (version_by_id v' db Hwf Hv'). congruence. }
  assert (cat_slug c' = slug) as Hsl.
  { rewrite Hcs in Hc'. unfold by_slug in Hc. apply find_by_Some in Hc as [Hcin <-]. f_equal.
    pose proof (find_by_unique cat_id _ c (wf_category_ids _ Hwf) Hcin) as H1.
    pose proof (find_by_unique cat_id _ c' (wf_category_ids _ Hwf) Hc') as H2. congruence. }
  split_and!; try congruence; [|by split].
  unfold ListingDb.createDraft. run_binds. cbn [dr_categorySlug dr_categoryVersionNumber]. rewrite Hc. run_binds.
  rewrite Hl, Z.eqb_refl. cbn [negb]. run_binds. unfold Datatypes.id. rewrite Hrun. run_binds. by rewrite Hread.
Qed.

Lemma locate_run (place : option ListingCollectionLocation) (db : Db) (k : W) :
  sound_locator -> exists k' point,
  (match place with
   | None => mret None
   | Some l => _ ← Listings.await Datatypes.id; on_rest (locate (postcode l))
   end) (mkWorld db k) = (mkWorld db k', Ok point) /\ lawful_point point /\
  forall i, account k i = true -> account k' i = true.
Proof.
  intros [Hloc _]. destruct place as [l|]; [|exists k, None; by split_and!].
  destruct (Hloc (postcode l) k) as (k' & point & Hrun & Hp & Hk). exists k', point. split; [|done].
  unfold Listings.await. run_binds. unfold on_rest, Datatypes.id. cbn [rest cdb]. by rewrite Hrun.
Qed.

(** A draft is stored exactly when the submission fits the category as it stands:
    one new listing, its content, questions and address as submitted, the address
    encrypted and read back.  Otherwise nothing is written, and the error says why. *)
Theorem draft_outcomes (s : Listings.SubmittedListing) (w : World W) :
  catalogue_wf (cdb w) -> account (rest w) (Listings.sl_ownerId s) = true -> fits_columns (Listings.sl_edit s) -> sound_locator ->
  let '(w', x) := Listings.createDraft Datatypes.id Datatypes.id s w in
  match x with
  | Ok l => exists r values, judged (Listings.sl_categorySlug s) (Listings.sl_edit s) (cdb w) = Ok values /\
      listings (cdb w') = listings (cdb w) ++ [r] /\ mine (uuid (cseq (cdb w))) (Listings.sl_ownerId s) (cdb w') r l /\
      lr_content l = Listings.content_of (Listings.sl_edit s) values /\ lr_collectionLocation l = Listings.sl_collectionLocation (Listings.sl_edit s) /\
      lr_categorySlug l = Listings.sl_categorySlug s /\
      lr_categoryVersionNumber l = Listings.sl_categoryVersionNumber (Listings.sl_edit s) /\
      lr_status l = DRAFT /\ lr_moderationState l = APPROVED
  | Err e => cdb w' = cdb w /\ judged (Listings.sl_categorySlug s) (Listings.sl_edit s) (cdb w) = Err e
  end.
Proof.
  intros Hwf Ho Hs Hloc. destruct w as [db k]. cbn [cdb rest] in *. destruct s as [o slug s]. cbn [Listings.sl_ownerId
    Listings.sl_categorySlug Listings.sl_edit] in *.
  unfold Listings.createDraft. run_binds. cbn [Listings.sl_categorySlug Listings.sl_edit Listings.sl_ownerId cdb].
  destruct (judged slug s db) as [values|e] eqn:Hj.
  - destruct (judged_ok slug s db values Hwf (fc_pounds _ Hs) Hj) as (c & v & Hc & Hl & Hv & Hcat & Hn & Hsame & Hread & Hfit).
    rewrite Hsame. run_binds. rewrite Hread. run_binds.
    destruct (locate_run (Listings.sl_collectionLocation s) db k Hloc) as (k' & point & -> & Hp & Hk). run_binds.
    unfold Listings.await. run_binds. unfold on_db, Datatypes.id at 1. cbn [modify cdb rest co_versionNumber toOption].
    destruct (createDraft_run (account k') slug o s values point c v db Hwf Hc Hl Hfit (Hk _ Ho) Hs Hp)
      as (r & l & db' & -> & H). exists r, values. cbn [cdb]. destruct H as (? & ? & ? & ? & ? & Hcv & ? & ?).
    split_and!; try done. by rewrite Hcv.
  - unfold judged in Hj. destruct (Listings.same_version slug _ _) as [category|e']; [|by injection Hj as <-].
    run_binds. change (Listings.read_submission category s = Err e) in Hj. by rewrite Hj.
Qed.

(** ** Editing *)

(** What an edit needs of the address it replaces. *)
Definition placeable (i : string) (e : CollectionLocationEdit) (db : Db) : Prop :=
  match e with
  | address_only _ => is_Some (location_of db i)
  | relocated _ p => lawful_point p
  | cleared => True
  end.

Definition point_after (i : string) (e : CollectionLocationEdit) (db : Db) : option LocatedListingPoint :=
  match e with
  | address_only _ => row ← location_of db i; loc_point row
  | relocated _ p => p
  | cleared => None
  end.

Lemma find_by_update (i : string) (g : LocationRow -> LocationRow) (row : LocationRow) (l : list LocationRow) :
  find_by loc_listingId i l = Some row -> (forall x, loc_listingId (g x) = loc_listingId x) ->
  find_by loc_listingId i ((fun x => if bool_decide (loc_listingId x = i) then g x else x) <$> l) = Some (g row).
Proof.
  intros H Hg. unfold find_by in *. induction l as [|x l IH]; [done|]. cbn in *.
  destruct (bool_decide (loc_listingId x = i)) eqn:E; [by injection H as ->; rewrite Hg, E|]. rewrite E. by apply IH.
Qed.

Lemma location_row_ok (db : Db) (i : string) (row : LocationRow) :
  catalogue_wf db -> location_of db i = Some row -> location_refusal row = None /\ loc_listingId row = i.
Proof.
  intros Hwf H. apply find_location in H as [Hin Hid]. pose proof (wf_locations _ Hwf) as Hok. rewrite Forall_forall in Hok.
  split; [apply (lk_checks _ _ (Hok row Hin))|done].
Qed.

Lemma writeLocation_run (i : string) (e : CollectionLocationEdit) (db : Db) :
  i ∈ li_id <$> listings db -> (forall row, location_of db i = Some row -> location_refusal row = None /\ loc_listingId row = i) ->
  placeable i e db ->
  exists db', writeLocation i e db = (db', Ok tt) /\
    match edited_location e with
    | None => location_of db' i = None
    | Some l => exists row n, location_of db' i = Some row /\ loc_postcode row = postcode l /\
        loc_encryptedDetail row = seal n (line1 l, line2 l) i /\ loc_point row = point_after i e db
    end.
Proof.
  intros Hi Hold He. destruct e as [l|l p|]; cbn [edited_location].
  - destruct He as [row Hrow]. destruct (Hold row Hrow) as [Hok Hid]. unfold location_of in *.
    cbn [writeLocation]. unfold update_location. rewrite Hrow.
    assert (location_refusal (with_address db l (loc_point row) row) = None) as -> by done.
    eexists. split; [done|]. cbn. unfold location_of. rewrite Hrow. exists (with_address db l (loc_point row) row), (cseq db).
    cbn. split_and!; [by apply (find_by_update i (fun x => with_address db l (loc_point x) x))|done|by rewrite Hid|done].
  - cbn [placeable writeLocation] in *. unfold location_of in *. destruct (find_by loc_listingId i (locations db)) as [row|] eqn:Hrow.
    + destruct (Hold row eq_refl) as [Hok Hid]. unfold update_location. rewrite Hrow.
      rewrite (lawful_point_stored (with_address db l p row)) by done. eexists. split; [done|]. cbn.
      exists (with_address db l p row), (cseq db). cbn.
      split_and!; [by apply (find_by_update i (with_address db l p))|done|by rewrite Hid|done].
    + unfold insert_location. rewrite lawful_point_stored by done. cbn [loc_listingId location_row].
      rewrite bool_decide_eq_false_2 by (by apply find_by_None). rewrite bool_decide_eq_true_2 by done. cbn [negb].
      eexists. split; [done|]. cbn. exists (location_row db i l p), (cseq db). cbn. rewrite find_by_app, Hrow. unfold find_by. cbn.
      rewrite bool_decide_eq_true_2 by done. by split_and!.
  - eexists. split; [done|]. cbn. unfold location_of. apply find_by_None. intros (x & Hx & Hin)%list_elem_of_fmap.
    apply elem_of_bfilter in Hin as [_ Hn]. by rewrite bool_decide_eq_true_2 in Hn.
Qed.

Lemma mine_owned (id o : string) (db : Db) (r : ListingRow) (l : ListingRecord) :
  catalogue_wf db -> mine id o db r l -> owned id o db = Some r.
Proof.
  intros Hwf Hm. pose proof Hm as [Hr Hi Ho Hl]. destruct (owned id o db) as [x|] eqn:E.
  - destruct (owned_row _ _ _ _ E) as (Hx & Hxi & Hxo).
    pose proof (find_by_unique li_id _ r (wf_listing_ids _ Hwf) Hr) as H1.
    pose proof (find_by_unique li_id _ x (wf_listing_ids _ Hwf) Hx) as H2. congruence.
  - apply List.find_none with (x := r) in E; [|by apply list_elem_of_In].
    assert (is_owned id o r = true) by by apply is_owned_true. congruence.
Qed.

(** What an edit leaves of a row that is not its own. *)
Record apart (id : string) (db db' : Db) : Prop := {
  ap_rows : forall x, li_id x <> id -> x ∈ listings db' <-> x ∈ listings db;
  ap_places : forall j, j <> id -> location_of db' j = location_of db j }.

Lemma changed_apart (r r' : ListingRow) (db db' : Db) (x : ListingRow) :
  li_id r' = li_id r -> listings db' = listings (changed r r' db) -> li_id x <> li_id r ->
  x ∈ listings db' <-> x ∈ listings db.
Proof.
  intros Hid -> Hx. cbn. rewrite list_elem_of_fmap. split.
  - intros (y & -> & Hy). case_bool_decide; [congruence|done].
  - intros Hin. exists x. by rewrite bool_decide_eq_false_2.
Qed.

Lemma write_edit_run (known : string -> bool) (s : Listings.SubmittedListingEdit) (values : ListingAttributeValues)
    (e : CollectionLocationEdit) (n : Z) (v : VersionRow) (r : ListingRow) (db : Db) :
  catalogue_wf db -> r ∈ listings db -> names_known known r -> v ∈ versions db -> ver_categoryId v = li_categoryId r ->
  content_fits v (Listings.content_of s values) -> fits_columns s ->
  edited_location e = Listings.sl_collectionLocation s -> placeable (li_id r) e db ->
  exists columns db', let r' := with_content (ver_id v) (Listings.content_of s values) columns (cclock db) r in
    write_edit known (li_id r) (li_ownerId r) (mkEdit (Listings.content_of s values) e n) v db = (db', Ok true) /\
    catalogue_wf db' /\ listings db' = listings (changed r r' db) /\ versions db' = versions db /\
    (forall j, j <> li_id r -> location_of db' j = location_of db j) /\
    toLocation db' r' = Ok (Listings.sl_collectionLocation s) /\
    isLocated db' (li_id r) = bool_decide (is_Some (point_after (li_id r) e db)).
Proof.
  intros Hwf Hr Hn Hv Hcat Hfit Hs He Hp.
  pose proof (wf_write_edit known (li_id r) (li_ownerId r) (mkEdit (Listings.content_of s values) e n) v db Hwf Hv Hfit) as Hwf'.
  assert (forall x, edited_location e = Some x -> Postcode.isValid (postcode x) = true) as Hpc
    by (rewrite He; apply (fc_postcode _ Hs)).
  destruct (location_columns_ok _ Hpc) as (oc & Hcol & Hoc).
  set (r' := with_content (ver_id v) (Listings.content_of s values) (oc, town <$> edited_location e) (cclock db) r).
  pose proof (refusal_none r (lo_checks _ _ (listing_ok_at db r Hwf Hr))) as (_ & _ & _ & _ & _ & Hmod & Hby).
  assert (listing_invalid known db r' = None) as Hok.
  { unfold listing_invalid. unfold r' at 1. rewrite content_row_stored by (done || rewrite Hoc; by destruct (edited_location e)).
    cbn. rewrite <- Hcat, (has_version_in v db Hv). destruct Hn as [-> Hmk]. cbn.
    destruct (li_moderatedById r) as [m|]; [|done]. by rewrite (Hmk m eq_refl). }
  pose proof (update_one known (is_owned (li_id r) (li_ownerId r))
    (with_content (ver_id v) (Listings.content_of s values) (oc, town <$> edited_location e) (cclock db)) db r Hwf Hr) as Hup.
  destruct (writeLocation_run (li_id r) e (changed r r' db)) as (db' & Hw & Hplace); [| |done|].
  { cbn. apply list_elem_of_fmap. exists r'. split; [done|]. apply list_elem_of_fmap. exists r.
    by rewrite bool_decide_eq_true_2. }
  { intros row Hrow. apply (location_row_ok db (li_id r) row Hwf Hrow). }
  pose proof (writeLocation_listings (li_id r) e (changed r r' db)) as Hsame. rewrite Hw in Hsame. cbn [fst] in Hsame.
  destruct Hsame as (Hls & _ & Hvs & _).
  assert (forall j, j <> li_id r -> location_of db' j = location_of db j) as Hothers.
  { intros j Hj. pose proof (writeLocation_other (li_id r) j e (changed r r' db)) as H. rewrite Hw in H. apply H. congruence. }
  exists (oc, town <$> edited_location e), db'. fold r'. cbv zeta.
  revert Hwf'. unfold write_edit, transaction. run_binds. unfold publishableLocationColumns. cbn [ed_collectionLocation ed_content].
  rewrite Hcol. run_binds. fold r' in Hup. rewrite Hup; [|by apply is_owned_true|by intros x [? _]%is_owned_true|done].
  cbn [Nat.eqb]. run_binds. rewrite Hw. run_binds. cbn [fst]. intros Hwf'. split_and!; try done.
  - unfold toLocation. cbn [li_id li_town with_content r']. rewrite <- He. destruct (edited_location e) as [x|].
    + destruct Hplace as (row & m & -> & Hpost & -> & _). rewrite open_seal. unfold_result. cbn. rewrite Hpost. by destruct x.
    + by rewrite Hplace.
  - unfold isLocated. destruct (edited_location e) as [x|] eqn:Ee.
    + destruct Hplace as (row & m & -> & _ & _ & ->). change (point_after (li_id r) e (changed r r' db)) with (point_after (li_id r) e db).
      by destruct (point_after _ _ _).
    + rewrite Hplace. by destruct e.
Qed.

(** A listing as an edit leaves it. *)
Record edited_to (s : Listings.SubmittedListingEdit) (values : ListingAttributeValues) (v : VersionRow)
    (l l' : ListingRecord) : Prop := {
  et_content : lr_content l' = Listings.content_of s values;
  et_place : lr_collectionLocation l' = Listings.sl_collectionLocation s;
  et_questions : lr_categoryAttributes l' = ver_attributes v /\ lr_categoryTransportOptions l' = ver_transportOptions v;
  et_version : lr_categoryVersionNumber l' = Listings.sl_categoryVersionNumber s;
  et_status : lr_status l' = lr_status l;
  et_moderation : lr_moderationState l' = lr_moderationState l /\ lr_moderationReason l' = lr_moderationReason l;
  et_creation : lr_createdAt l' = lr_createdAt l }.

Lemma listing_update_run (known : string -> bool) (id o : string) (s : Listings.SubmittedListingEdit)
    (values : ListingAttributeValues) (e : CollectionLocationEdit) (v : VersionRow) (r : ListingRow) (l : ListingRecord) (db : Db) :
  catalogue_wf db -> mine id o db r l -> names_known known r -> latest_version (li_categoryId r) db = Some v ->
  ver_versionNumber v = Listings.sl_categoryVersionNumber s ->
  content_fits v (Listings.content_of s values) -> fits_columns s ->
  edited_location e = Listings.sl_collectionLocation s -> placeable id e db ->
  exists r' l' db', ListingDb.update known Datatypes.id id o (mkEdit (Listings.content_of s values) e (ver_versionNumber v)) db
      = (db', Ok (Some l')) /\
    catalogue_wf db' /\ mine id o db' r' l' /\ edited_to s values v l l' /\ apart id db db' /\
    lr_isLocated l' = bool_decide (is_Some (point_after id e db)).
Proof.
  intros Hwf Hm Hn Hl Hnum Hfit Hs He Hp. pose proof (mine_owned id o db r l Hwf Hm) as Hown.
  destruct Hm as [Hr <- <- Hread]. pose proof (latest_spec _ _ _ Hl) as [[Hv Hcat]%elem_of_category _].
  destruct (write_edit_run known s values e (ver_versionNumber v) v r db Hwf Hr Hn Hv Hcat Hfit Hs He Hp)
    as (columns & db' & Hw & Hwf' & Hls & Hvs & Hothers & Hplace & Hloc).
  set (r' := with_content (ver_id v) (Listings.content_of s values) columns (cclock db) r) in *.
  assert (r' ∈ listings db') as Hr'.
  { rewrite Hls. cbn. apply list_elem_of_fmap. exists r. by rewrite bool_decide_eq_true_2. }
  destruct (record_read db' r' Hwf' Hr') as [l' Hread']. exists r', l', db'.
  destruct (record_row db' r' l' Hwf' Hr' Hread')
    as (v' & c' & Hv' & Hvid' & _ & _ & _ & _ & _ & _ & Hnum' & Hat & Htr & Hc' & Hp' & Hi' & Hs' & Hm' & Hmr' & Hcr').
  destruct (record_row db r l Hwf Hr Hread) as (_ & _ & _ & _ & _ & _ & _ & _ & _ & _ & _ & _ & _ & _ & _ & _ & Hs0 & Hm0 & Hmr0 & Hcr0).
  assert (v' = v) as ->.
  { rewrite Hvs in Hv'. pose proof (version_by_id v db Hwf Hv). pose proof (version_by_id v' db Hwf Hv'). cbn in *. congruence. }
  assert (asContent r' = Ok (Listings.content_of s values)) as Hcontent.
  { destruct (fc_pounds _ Hs). apply content_stored; [done|done|]. exact (lo_checks _ _ (listing_ok_at db' r' Hwf' Hr')). }
  split_and!; [|done|by split| | |].
  - unfold ListingDb.update. run_binds. rewrite Hown. run_binds.
    destruct (joined_read db r Hwf Hr) as (v0 & c0 & _ & -> & _). cbn [lift]. run_binds. unfold Datatypes.id. rewrite Hl.
    cbn [ed_categoryVersionNumber]. rewrite Z.eqb_refl. cbn [negb]. run_binds. rewrite Hw. cbn [negb]. run_binds.
    unfold findOwnedBy, owned. rewrite Hls, (find_changed _ r r').
    + cbn [optionally]. by rewrite Hread'.
    + done.
    + by intros x [? _]%is_owned_true.
    + done.
    + by apply is_owned_true.
  - cbn [r' li_status li_moderationState li_moderationReason li_createdAt with_content] in *. split; try congruence; split; congruence.
  - split; [intros x Hx; by apply (changed_apart r r')|done].
  - by rewrite Hi', <- Hloc.
Qed.

Lemma stored_offset (i o : string) (db : Db) (off : StoredFuzzOffset) :
  catalogue_wf db -> findFuzzOffset i o db = Some off -> 0 <= bearingDegrees off < 360 /\ 500 <= distanceMetres off.
Proof.
  intros Hwf. unfold findFuzzOffset. destruct (existsOwnedBy i o db); [|done].
  destruct (location_of db i) as [row|] eqn:Hl; [|done]. cbn. destruct (location_row_ok db i row Hwf Hl) as [Hok _].
  unfold location_refusal in Hok. destruct (loc_point row) as [x|]; [|done]. cbn. intros [= <-]. cbn.
  destruct ((0 <=? fuzzBearingDegrees x) && (fuzzBearingDegrees x <? 360) && (500 <=? fuzzDistanceMetres x)) eqn:E; [lia|done].
Qed.

Lemma edited_location_run (id o : string) (s : Listings.SubmittedListingEdit) (db : Db) (k : W) (r : ListingRow)
    (l : ListingRecord) :
  catalogue_wf db -> sound_locator -> mine id o db r l ->
  exists k' e, Listings.editedLocation Datatypes.id l o s (mkWorld db k) = (mkWorld db k', Ok e) /\
    edited_location e = Listings.sl_collectionLocation s /\ placeable id e db /\
    Listings.willBeLocated e = bool_decide (is_Some (point_after id e db)) /\
    forall i, account k i = true -> account k' i = true.
Proof.
  intros Hwf [Hlo Hre] [Hr <- _ Hl].
  destruct (record_row db r l Hwf Hr Hl) as (_ & _ & _ & _ & _ & _ & _ & Hid & _ & _ & _ & _ & _ & _ & _ & Hloc & _).
  unfold Listings.editedLocation. destruct (Listings.sl_collectionLocation s) as [x|]; [|by exists k, cleared].
  destruct (_ && lr_isLocated l) eqn:E.
  - exists k, (address_only x). apply andb_true_iff in E as [_ E]. rewrite Hloc in E. unfold isLocated in E.
    cbn. destruct (location_of db (li_id r)) as [row|]; [|done]. cbn.
    destruct (loc_point row) as [pt|]; [|done]. by split_and!; [| |by eexists| |].
  - unfold Listings.await. run_binds. unfold Datatypes.id. run_binds. unfold on_rest. cbn [cdb rest].
    destruct (findFuzzOffset (lr_id l) o db) as [off|] eqn:Eoff.
    + destruct (Hre (postcode x) off k) as (k' & pt & -> & Hp & Hk); [by eapply stored_offset|]. exists k', (relocated x pt). cbn.
      split_and!; try done. by destruct pt.
    + destruct (Hlo (postcode x) k) as (k' & pt & -> & Hp & Hk). exists k', (relocated x pt). cbn.
      split_and!; try done. by destruct pt.
Qed.

Lemma edited_candidate_of (s : Listings.SubmittedListingEdit) (values : ListingAttributeValues) (v : VersionRow)
    (slug : string) (e : CollectionLocationEdit) (l l' : ListingRecord) (st : option OwnerStatus) :
  edited_to s values v l l' -> edited_location e = Listings.sl_collectionLocation s ->
  lr_isLocated l' = Listings.willBeLocated e ->
  Listings.edited_candidate s values (toOption slug v) e st = Listings.candidate_of l' st.
Proof.
  intros [Hc Hp [Hq Ht] _ _ _ _] He Hloc. unfold Listings.edited_candidate, Listings.candidate_of.
  rewrite Hc, Hp, Hq, Ht, Hloc, <- He. by destruct e.
Qed.

(** An edit, undisturbed, is stored exactly when it fits the category as it stands and,
    where the listing is published, leaves it complete: content and address become what was
    submitted, everything else of the listing, and every other listing, stays. Otherwise
    nothing is written, and the error says why. *)
Theorem edit_outcomes (id o : string) (s : Listings.SubmittedListingEdit) (w : World W) :
  catalogue_wf (cdb w) -> referenced w -> fits_columns s -> sound_locator ->
  let '(w', x) := Listings.edit Datatypes.id Datatypes.id id o s w in
  match x with
  | Ok (Some l') => exists r l r' v values, mine id o (cdb w) r l /\
      judged (lr_categorySlug l) s (cdb w) = Ok values /\ latest_version (li_categoryId r) (cdb w) = Some v /\
      mine id o (cdb w') r' l' /\ edited_to s values v l l' /\ apart id (cdb w) (cdb w') /\
      (lr_status l = PUBLISHED -> complete (Listings.candidate_of l' (owner_status o w')) /\
         owner_status o w' = Some private_owner)
  | Ok None => w' = w /\ forall r, r ∈ listings (cdb w) -> li_id r = id -> li_ownerId r <> o
  | Err e => cdb w' = cdb w /\ exists r l, mine id o (cdb w) r l /\
      (judged (lr_categorySlug l) s (cdb w) = Err e \/
       lr_status l = PUBLISHED /\ exists blockers, e = PublishedListingIncompleteError blockers /\ blockers <> [])
  end.
Proof.
  intros Hwf Href Hs Hloc. destruct w as [db k]. unfold Listings.edit. cbn [cdb rest] in *. run_binds.
  destruct (findOwned_outcomes id o db Hwf) as [(r & l & Hm & Hfind)|[Hno Hfind]]; rewrite (on_read _ _ _ _ Hfind);
    [|done].
  unfold Listings.await. run_binds. unfold Datatypes.id at 1. cbn [cdb].
  set (slug := lr_categorySlug l). destruct (judged slug s db) as [values|err] eqn:Hj.
  2: { assert (exists r l, mine id o db r l /\ (judged (lr_categorySlug l) s db = Err err \/ lr_status l = PUBLISHED /\
         exists blockers, err = PublishedListingIncompleteError blockers /\ blockers <> [])) as Hwhy
         by (exists r, l; by split; [|left]).
       unfold judged in Hj. destruct (Listings.same_version slug _ _) as [category|e']; [|by injection Hj as <-].
       run_binds. change (Listings.read_submission category s = Err err) in Hj. by rewrite Hj. }
  destruct (judged_ok slug s db values Hwf (fc_pounds _ Hs) Hj) as (c & v & Hc & Hl & Hv & Hcat & Hn & Hsame & Hread & Hfit).
  assert (cat_id c = li_categoryId r) as Hcid.
  { destruct Hm as [Hr _ _ Hrd]. destruct (record_row db r l Hwf Hr Hrd) as (_ & c' & _ & _ & _ & Hc' & <- & _ & _ & Hsl & _).
    pose proof (slug_of c' db Hwf Hc') as H. rewrite <- Hsl in H. fold slug in H. congruence. }
  rewrite Hcid in Hl. rewrite Hsame. run_binds. rewrite Hread. run_binds. unfold Datatypes.id at 2.
  destruct (edited_location_run id o s db k r l Hwf Hloc Hm) as (k' & e & -> & He & Hp & Hwill & Hk). run_binds.
  assert (names_known (account k') r) as Hnk.
  { destruct Hm as [Hr _ _ _]. destruct (Href r Hr) as [H1 H2]. split; [by apply Hk|]. intros m Hmm. by apply Hk, H2. }
  destruct (listing_update_run (account k') id o s values e v r l db Hwf Hm Hnk Hl Hn Hfit Hs He Hp)
    as (r' & l' & db' & Hup & Hwf' & Hm' & Het & Hap & Hiso).
  rewrite <- Hwill in Hiso. pose proof (edited_candidate_of s values v slug e l l' (owner_status o (mkWorld db k')) Het He Hiso) as Hcand.
  pose proof (publishable_iff (Listings.candidate_of l' (owner_status o (mkWorld db k')))) as Hpub.
  destruct (bool_decide_reflect (lr_status l = PUBLISHED)) as [Hst|Hst]; run_binds.
  - unfold Datatypes.id at 1. rewrite owner_status_at, Hcand.
    destruct (bool_decide_reflect (publicationBlockers (Listings.candidate_of l' (owner_status o (mkWorld db k'))) = []))
      as [Hb|Hb]; cbn [negb throw_if lift].
    + apply Hpub in Hb as [Hcomp Hpriv]. run_binds. cbn [modify]. change (Datatypes.id ?x) with x. unfold on_db. cbn [cdb rest co_versionNumber toOption].
      rewrite Hup. exists r, l, r', v, values. by split_and!.
    + split; [done|]. exists r, l. split; [done|]. right. split; [done|]. eexists. split; [done|].
      intros E. apply Hb. by apply fmap_nil_inv in E.
  - cbn [modify]. change (Datatypes.id ?x) with x. unfold on_db. cbn [cdb rest co_versionNumber toOption]. rewrite Hup.
    exists r, l, r', v, values. by split_and!.
Qed.

(** ** Moderating *)

(** An actor the audit table takes. *)
Record auditable_actor (k : W) (a : Actor) : Prop := {
  aa_known : account k (actor_userId a) = true;
  aa_id : uuid_in (actor_userId a) = Some (actor_userId a);
  aa_ip : forall ip, actor_ipAddress a = Some ip -> inet_in ip = true }.

(** A trail with one more entry. *)
Definition remembered (a : Actor) (target : string) (b c : AuditableModeration) (why : option string) (db : Db) : Db :=
  with_ctrail (mkTrail (entries (ctrail db) ++ [mkAuditRow (uuid (eseq (ctrail db)))
    (mkEntry (Some (actor_userId a)) listing_moderated "listing" target
       (Some (digest_moderation b)) (Some (digest_moderation c))
       (actor_ipAddress a) (actor_sessionId a) why) (cclock db)]) (S (eseq (ctrail db)))) db.

Lemma record_run (a : Actor) (target : string) (b c : AuditableModeration) (why : option string) (db : Db) (k : W) :
  auditable_actor k a -> uuid_in target = Some target ->
  (let (t, r) := Audit.record digest_moderation (cclock db) (account k)
     (Audit.mkChange (Some a) listing_moderated "listing" target (Some b) (Some c) why) (ctrail db) in
   (with_ctrail t db, r)) = (remembered a target b c why db, Ok tt).
Proof.
  intros [Hk Hid Hip] Ht. unfold Audit.record, AuditDb.record, as_uuid_opt, as_uuid. cbn.
  rewrite Hid. unfold_M. rewrite Ht. unfold_M.
  destruct (actor_ipAddress a) as [ip|] eqn:He; [rewrite (Hip ip) by done|]; cbn; rewrite Hk; cbn; unfold remembered; by rewrite ?He.
Qed.

Lemma own_uuid (db : Db) (r : ListingRow) : catalogue_wf db -> r ∈ listings db -> uuid_in (li_id r) = Some (li_id r).
Proof.
  intros Hwf Hr. pose proof (wf_listing_issued _ Hwf) as H. rewrite Forall_fmap, Forall_forall in H.
  destruct (H r Hr) as (n & _ & ->). apply uuid_in_out.
Qed.

(** The reason as it is kept. *)
Definition given (reason : option string) : option string :=
  match reason with
  | Some r => if bool_decide (trim r = "") then None else Some (trim r)
  | None => None
  end.

Lemma given_kept (reason : option string) (why : string) : given reason = Some why -> LedgerDb.btrim_empty why = false.
Proof.
  destruct reason as [r|]; [|done]. cbn. case_bool_decide as H; [done|]. intros [= <-]. apply trim_blank.
  unfold trim in *. rewrite chars_str, trim_trim. exact H.
Qed.

Lemma set_moderation_run (known : string -> bool) (db : Db) (r : ListingRow) (d : ModerationDecision) :
  catalogue_wf db -> r ∈ listings db -> li_id r = md_listingId d -> known (li_ownerId r) = true ->
  known (md_moderatorId d) = true ->
  (md_state d <> APPROVED -> exists why, md_reason d = Some why /\ LedgerDb.btrim_empty why = false) ->
  set_moderation known d db = (changed r (with_moderation d (cclock db) r) db, Ok tt).
Proof.
  intros Hwf Hr Hid Ho Hm Hwhy. unfold set_moderation. run_binds.
  rewrite (update_one known _ (with_moderation d (cclock db)) db r Hwf Hr); [done|by apply bool_decide_eq_true_2| |].
  - intros x Hx%bool_decide_eq_true. congruence.
  - apply (row_storable known db r); try done; [|split; [done|by intros m [= <-]]].
    pose proof (lo_checks _ _ (listing_ok_at db r Hwf Hr)) as Hok. revert Hok. unfold listing_refusal. cbn.
    repeat (case_match; [done|]). intros _.
    destruct (bool_decide_reflect (md_state d <> APPROVED)) as [Hs|Hs]; [|done]. by destruct (Hwhy Hs) as (why & -> & ->).
Qed.

Lemma moderate_run (known : string -> bool) (db : Db) (r : ListingRow) (l : ListingRecord) (d : ModerationDecision) :
  catalogue_wf db -> r ∈ listings db -> toRecord db r = Ok l -> li_id r = md_listingId d -> known (li_ownerId r) = true ->
  known (md_moderatorId d) = true ->
  (md_state d <> APPROVED -> exists why, md_reason d = Some why /\ LedgerDb.btrim_empty why = false) ->
  let db' := changed r (with_moderation d (cclock db) r) db in
  let l' := as_of (lr_status l) (md_state d) (md_reason d) (cclock db) l in
  ListingDb.moderate known Datatypes.id d db = (db', Ok (Some l')) /\ toRecord db' (with_moderation d (cclock db) r) = Ok l'.
Proof.
  intros Hwf Hr Hl Hid Ho Hm Hwhy db' l'.
  assert (toRecord db' (with_moderation d (cclock db) r) = Ok l') as Hl'.
  { rewrite (toRecord_as_of db db' r _ l); [|done|done|done|by right; eexists _, _|done]. cbn.
    unfold l'. by destruct (record_state db r l Hl) as (-> & _ & _). }
  split; [|done]. unfold ListingDb.moderate. run_binds.
  pose proof (find_by_unique li_id _ r (wf_listing_ids _ Hwf) Hr) as Hfind. rewrite Hid in Hfind. rewrite Hfind. run_binds.
  change (Datatypes.id ?x) with x. rewrite (set_moderation_run known db r d) by done. run_binds. change (Datatypes.id ?x) with x.
  unfold findForModeration, find_by. rewrite <- Hid, (find_changed _ r (with_moderation d (cclock db) r)).
  - cbn [optionally]. fold db'. by rewrite Hl'.
  - done.
  - by intros x Hx%bool_decide_eq_true.
  - done.
  - by apply bool_decide_eq_true_2.
Qed.

(** A moderator's decision is stored, with who took it, when and why, and recorded in
    the audit trail; hiding a listing without a reason is refused, and a refusal writes
    nothing. *)
Theorem moderate_outcomes (id : string) (state : ModerationState) (reason : option string) (a : Actor) (w : World W) :
  catalogue_wf (cdb w) -> referenced w -> auditable_actor (rest w) a ->
  let '(w', x) := Listings.moderate Datatypes.id Datatypes.id id state reason a w in
  match x with
  | Ok (Some l') => exists r l, r ∈ listings (cdb w) /\ li_id r = id /\ toRecord (cdb w) r = Ok l /\
      (state <> APPROVED -> is_Some (given reason)) /\
      let at_ := cclock (cdb w) in
      let r' := with_moderation (mkDecision id state (given reason) (actor_userId a) at_) at_ r in
      l' = as_of (lr_status l) state (given reason) at_ l /\ toRecord (cdb w') r' = Ok l' /\
      w' = mkWorld (remembered a id (Listings.moderationAuditable l) (Listings.moderationAuditable l') (given reason)
                      (changed r r' (cdb w))) (rest w)
  | Ok None => w' = w /\ id ∉ li_id <$> listings (cdb w)
  | Err e => w' = w /\ state <> APPROVED /\ given reason = None /\ e = ModerationReasonRequiredError
  end.
Proof.
  intros Hwf Href Ha. destruct w as [db k]. cbn [cdb rest] in *. unfold Listings.moderate. cbv zeta. run_binds.
  set (why := match reason with Some r => trim r | None => "" end).
  assert ((if bool_decide (why = "") then None else Some why) = given reason) as -> by (by destruct reason).
  assert (moderationRequiresReason state && bool_decide (why = "") =
    bool_decide (state <> APPROVED /\ given reason = None)) as ->.
  { unfold moderationRequiresReason, given, why. destruct reason as [r|]; cbn.
    - destruct (bool_decide_reflect (trim r = "")) as [E|E].
      + rewrite andb_true_r. apply bool_decide_ext. naive_solver.
      + rewrite andb_false_r. symmetry. apply bool_decide_eq_false_2. naive_solver.
    - by destruct state. }
  case_bool_decide as Hwhy; cbn [throw_if lift]; [by destruct Hwhy|]. run_binds.
  destruct (find_by li_id id (listings db)) as [r|] eqn:Hr.
  2: { rewrite (on_read _ _ _ (Ok None)) by (by unfold findForModeration; rewrite Hr). cbn. split; [done|].
       by apply find_by_None. }
  pose proof (find_by_Some _ _ _ _ Hr) as [Hin Hid]. destruct (record_read db r Hwf Hin) as [l Hl].
  rewrite (on_read _ _ _ (Ok (Some l))) by (unfold findForModeration; rewrite Hr; cbn; by rewrite Hl). run_binds.
  unfold Listings.await. cbn [modify]. run_binds. change (Datatypes.id ?x) with x. unfold now. cbn [cdb].
  set (d := mkDecision id state (given reason) (actor_userId a) (cclock db)).
  assert (state <> APPROVED -> is_Some (given reason)) as Hgiven.
  { intros Hs. destruct (given reason); [by eexists|]. by destruct Hwhy. }
  destruct (moderate_run (account k) db r l d Hwf Hin Hl Hid (proj1 (Href r Hin)) (aa_known _ _ Ha)) as [Hrun Hl'].
  { intros Hs. destruct (Hgiven Hs) as [why' E]. exists why'. split; [exact E|]. by eapply given_kept. }
  set (l' := as_of _ _ _ _ _) in *. set (db' := changed _ _ _) in *.
  assert (on_db (fun known => ListingDb.moderate known Datatypes.id d) (mkWorld db k) = (mkWorld db' k, Ok (Some l'))) as ->
    by (unfold on_db; cbn [cdb rest]; by rewrite Hrun).
  run_binds. change (Datatypes.id ?x) with x. unfold on_db. cbn [cdb rest].
  assert (lr_id l' = id) as ->.
  { destruct (record_row db r l Hwf Hin Hl) as (_ & _ & _ & _ & _ & _ & _ & H & _). cbn. congruence. }
  rewrite record_run; [|done|rewrite <- Hid; by apply (own_uuid db)]. run_binds.
  exists r, l. by split_and!.
Qed.

(** ** Erasing *)

(** What bookings promise: they name exactly the booked listings among those asked
    about, and erasing pictures changes none of it. *)
Record honest_bookings : Prop := {
  hb_named : forall ids k i, i ∈ findBookedListings ids k <-> i ∈ ids /\ has_booking k i = true;
  hb_pictures : forall ids k i, has_booking (fst (eraseForListings ids k)) i = has_booking k i }.

Lemma erase_run (known_booked : string -> bool) (o : string) (retained : list string) (db : Db) :
  (forall i, i ∈ listIdsOwnedBy o db -> i ∉ retained -> known_booked i = false) ->
  exists db', eraseOwnedBy known_booked o retained db = (db', Ok tt).
Proof.
  intros H. unfold eraseOwnedBy, transaction, delete_locations. run_binds. unfold delete_listings. cbn [listings with_locations].
  rewrite existsb_none; [by eexists|]. apply Forall_forall. intros i Hi. apply list_elem_of_fmap in Hi as (r & -> & Hr).
  apply elem_of_bfilter in Hr as [Hr [Ho Hn]%andb_true_iff]. rewrite bool_decide_eq_true in Ho, Hn.
  apply H; [|done]. apply list_elem_of_fmap. exists r. split; [done|]. apply elem_of_bfilter. by rewrite bool_decide_eq_true_2.
Qed.

Lemma elem_of_mine (o i : string) (db : Db) :
  i ∈ listIdsOwnedBy o db <-> exists r, r ∈ listings db /\ li_id r = i /\ li_ownerId r = o.
Proof.
  unfold listIdsOwnedBy. rewrite list_elem_of_fmap. split.
  - intros (r & -> & [Hr Ho%bool_decide_eq_true]%elem_of_bfilter). eauto.
  - intros (r & Hr & <- & Ho). exists r. split; [done|]. apply elem_of_bfilter. by rewrite bool_decide_eq_true_2.
Qed.

Lemma row_mine (o : string) (r : ListingRow) (db : Db) :
  catalogue_wf db -> r ∈ listings db -> li_id r ∈ listIdsOwnedBy o db <-> li_ownerId r = o.
Proof.
  intros Hwf Hr. rewrite elem_of_mine. split; [|by intros H; exists r].
  intros (x & Hx & Hi & Ho). rewrite <- Ho. destruct (row_fixed li_ownerId r db Hwf Hr) as [_ Hf]. symmetry. by apply Hf.
Qed.

(** The rows that go. *)
Lemma elem_of_gone (o i : string) (retained : list string) (db : Db) :
  i ∈ li_id <$> List.filter (erasable o retained) (listings db) <-> i ∈ listIdsOwnedBy o db /\ i ∉ retained.
Proof.
  rewrite elem_of_mine, list_elem_of_fmap. unfold erasable. split.
  - intros (r & -> & [Hr [Ho Hn]%andb_true_iff]%elem_of_bfilter). rewrite bool_decide_eq_true in Ho, Hn. eauto.
  - intros [(r & Hr & <- & Ho) Hn]. exists r. split; [done|]. apply elem_of_bfilter. by rewrite !bool_decide_eq_true_2.
Qed.

(** Erasing an owner's listings, undisturbed, removes those that no booking names with their
    pictures and addresses, keeps the booked ones without their addresses, and leaves
    everybody else's as they were. *)
Theorem erase_outcomes (a : Actor) (w : World W) :
  catalogue_wf (cdb w) -> honest_bookings ->
  let o := actor_userId a in
  let '(w', x) := Listings.eraseFor Datatypes.id a w in
  let '(k', erased) := eraseForListings (listIdsOwnedBy o (cdb w)) (rest w) in
  x = erased /\ rest w' = k' /\
  match x with
  | Err _ => cdb w' = cdb w
  | Ok _ =>
      (forall r, r ∈ listings (cdb w') <->
         r ∈ listings (cdb w) /\ (li_ownerId r = o -> has_booking (rest w) (li_id r) = true)) /\
      (forall r, r ∈ listings (cdb w) ->
         location_of (cdb w') (li_id r) =
           if bool_decide (li_ownerId r = o) then None else location_of (cdb w) (li_id r)) /\
      (forall m, m ∈ media (cdb w') <-> m ∈ media (cdb w) /\
         (me_listingId m ∈ listIdsOwnedBy o (cdb w) -> has_booking (rest w) (me_listingId m) = true))
  end.
Proof.
  intros Hwf [Hnamed Hpics] o. destruct w as [db k]. unfold Listings.eraseFor, Listings.await. cbn [cdb rest].
  run_binds. change (Datatypes.id (mkWorld db k)) with (mkWorld db k). cbn [cdb rest]. fold o. set (ids := listIdsOwnedBy o db).
  pose proof (Hpics ids k) as Hkeep. unfold on_rest at 1. cbn [Datatypes.id cdb rest].
  destruct (eraseForListings ids k) as [k' [[]|e]] eqn:Ek; [|done]. cbn [fst] in Hkeep.
  run_binds. unfold on_db. cbn [Datatypes.id cdb rest]. set (retained := findBookedListings ids k).
  assert (forall i, i ∈ retained <-> i ∈ ids /\ has_booking k i = true) as Hret by (intros i; apply Hnamed).
  destruct (erase_run (has_booking k') o retained db) as [db' Hrun].
  { intros i Hi Hn. rewrite Hkeep. destruct (has_booking k i) eqn:E; [|done]. exfalso. by apply Hn, Hret. }
  rewrite Hrun. apply eraseOwnedBy_cases in Hrun as [[_ [? [=]]]|(_ & _ & ->)]. split_and!; [done|done|..].
  - intros r. cbn. rewrite elem_of_bfilter, negb_true_iff. split.
    + intros [Hr Hk]. split; [done|]. intros Ho. pose proof (proj2 (row_mine o r db Hwf Hr) Ho) as Hin.
      unfold erasable in Hk. rewrite bool_decide_eq_true_2 in Hk by done. apply bool_decide_eq_false, dec_stable in Hk. by apply Hret in Hk as [_ ?].
    + intros [Hr Hb]. split; [done|]. unfold erasable. destruct (bool_decide_reflect (li_ownerId r = o)) as [Ho|]; [|done].
      apply bool_decide_eq_false_2. intros Hn. apply Hn, Hret. split; [by apply row_mine|by apply Hb].
  - intros r Hr. cbn. unfold location_of. cbn [locations with_locations with_media with_listings].
    destruct (bool_decide_reflect (li_ownerId r = o)) as [Ho|Ho].
    + apply find_by_None. intros (l & Hl & Hin)%list_elem_of_fmap.
      apply elem_of_bfilter in Hin as [[_ Hn1]%elem_of_bfilter Hn2]. apply bool_decide_eq_true in Hn2.
      rewrite negb_true_iff, bool_decide_eq_false in Hn1. apply Hn2, elem_of_gone. rewrite <- Hl in *. split; [by apply row_mine|done].
    + assert (li_id r ∉ ids) as Hno by (intros H; by apply Ho, (row_mine o r db Hwf Hr)).
      rewrite !find_by_filter; [done| |].
      * intros l _ ->. rewrite bool_decide_eq_false_2; [done|]. by intros [? _]%Hret.
      * intros l _ ->. apply bool_decide_eq_true_2. by intros [? _]%elem_of_gone.
  - intros m. cbn. rewrite elem_of_bfilter, bool_decide_eq_true, elem_of_gone, Hret.
    destruct (has_booking k (me_listingId m)); naive_solver.
Qed.
End Outcomes.
