(* ===== verification/Search.v ===== *)
(** * Search and location ([apps/api/src/search-location])

    [Module Distance]: [distance-bucket.ts].  [Module Fuzz]: [fuzz.ts].  [Module
    Location]: [geocode-quietly.ts] and [location.service.ts].  [Module
    ListingSearch]: the statement of [prisma-listing-search.ts] over the tables of
    listings and of bookings.  The geocoder, the random source, the functions of
    [Math] that the language leaves to the implementation, PostGIS and Postgres's
    text search are classes; logging and metrics are left out. *)

From Stdlib Require String.
From Stdlib Require Import SpecFloat.
From S2P Require Import Prelude JsNumber Text Money Ledger Columns BookingState BookingStore Bookings LocalTime.
From S2P Require Import Answers CatalogueStore ListingStore Listings.

#[local] Open Scope string_scope.
#[local] Open Scope list_scope.
#[local] Open Scope Z_scope.

Import CatalogueDb.

(** ** [distance-bucket.ts] *)
Module Distance.
Definition METRES_PER_MILE : Js.number := Js.decimal 1609344 3.
Definition milesToMetres (miles : Z) : Js.number := Js.mul (Js.of_Z miles) METRES_PER_MILE.
Definition bucketDistance (metres : Js.number) : DistanceBucket :=
  let miles := Js.div metres METRES_PER_MILE in
  if Js.ltb miles (Js.of_Z 1) then under_a_mile else approximate (Js.round miles).
End Distance.

(** ** [fuzz.ts] *)

(** The functions of [Math] whose result the language leaves to the implementation. *)
Class Trigonometry : Type := {
  sin : Js.number -> Js.number;
  cos : Js.number -> Js.number;
  asin : Js.number -> Js.number;
  atan2 : Js.number -> Js.number -> Js.number }.

(** [node:crypto]'s [randomInt]: its second argument is excluded. *)
Class RandomSource (S : Type) : Type := {
  randomInt : Z -> Z -> M S Z;
  randomInt_range : forall a b s, a < b -> exists s' z, randomInt a b s = (s', Ok z) /\ a <= z < b }.

Module Fuzz.
Definition MINIMUM_FUZZ_METRES : Z := 500.
Definition MAXIMUM_FUZZ_METRES : Z := 1000.
Definition EARTH_RADIUS_METRES : Js.number := Js.decimal 63710088 1.
Definition DEGREES : Js.number := Js.div Js.PI (Js.of_Z 180).

Record Point : Type := mkGeoPoint { pt_latitude : Js.number; pt_longitude : Js.number }.

Definition createFuzzOffset {S} `{RandomSource S} : M S StoredFuzzOffset :=
  bearing ← randomInt 0 360;
  distance ← randomInt MINIMUM_FUZZ_METRES (MAXIMUM_FUZZ_METRES + 1);
  mret (mkOffset bearing distance).

Definition normaliseLongitude (degrees : Js.number) : Js.number :=
  Js.sub (Js.rem (Js.add (Js.rem (Js.add degrees (Js.of_Z 180)) (Js.of_Z 360)) (Js.of_Z 360)) (Js.of_Z 360))
    (Js.of_Z 180).

Definition applyFuzzOffset `{Trigonometry} (point : Point) (offset : StoredFuzzOffset) : Point :=
  let angular := Js.div (Js.of_Z (distanceMetres offset)) EARTH_RADIUS_METRES in
  let bearing := Js.mul (Js.of_Z (bearingDegrees offset)) DEGREES in
  let latitude := Js.mul (pt_latitude point) DEGREES in
  let longitude := Js.mul (pt_longitude point) DEGREES in
  let sinLatitude := Js.add (Js.mul (sin latitude) (cos angular))
                       (Js.mul (Js.mul (cos latitude) (sin angular)) (cos bearing)) in
  let fuzzedLatitude := asin sinLatitude in
  let fuzzedLongitude :=
    Js.add longitude (atan2 (Js.mul (Js.mul (sin bearing) (sin angular)) (cos latitude))
                        (Js.sub (cos angular) (Js.mul (sin latitude) sinLatitude))) in
  mkGeoPoint (Js.div fuzzedLatitude DEGREES) (normaliseLongitude (Js.div fuzzedLongitude DEGREES)).
End Fuzz.

(** ** [geocode-quietly.ts], [location.service.ts] *)
Class PostcodeGeocoder (S : Type) : Type := { geocode : string -> M S (option Fuzz.Point) }.

Module Location.
Import Fuzz.
Section Service.
Context {S : Type} {Geocoder : PostcodeGeocoder S} {Random : RandomSource S} {Trig : Trigonometry}.

Definition geocodeQuietly (postcode : string) : M S (option Point) :=
  catch (geocode postcode)
    (fun e => match e with GeocoderUnavailableError _ => mret None | _ => throw e end).

(** [fuzzedAt] *)
Definition fuzzedAt (located : Point) (offset : StoredFuzzOffset) : LocatedListingPoint :=
  let fuzzed := applyFuzzOffset located offset in
  mkPoint (pt_latitude located) (pt_longitude located) (bearingDegrees offset) (distanceMetres offset)
    (pt_latitude fuzzed) (pt_longitude fuzzed).

Definition locate (postcode : string) : M S (option LocatedListingPoint) :=
  located ← geocodeQuietly postcode;
  match located with
  | None => mret None
  | Some p => offset ← createFuzzOffset; mret (Some (fuzzedAt p offset))
  end.

Definition relocate (postcode : string) (offset : StoredFuzzOffset) : M S (option LocatedListingPoint) :=
  located ← geocodeQuietly postcode;
  match located with
  | None => mret None
  | Some p => mret (Some (fuzzedAt p offset))
  end.
End Service.
End Location.

(** ** [prisma-listing-search.ts] *)

(** PostGIS: [ST_MakePoint] takes the longitude first. *)
Class PostGIS : Type := {
  geography : Type;
  st_makepoint : Js.number -> Js.number -> geography;
  st_distance : geography -> geography -> Js.number;
  st_dwithin : geography -> geography -> Js.number -> bool }.

(** [listings_search_document()] of a title and a description, matched against
    [websearch_to_tsquery('english', keyword)]. *)
Class TextSearch : Type := { document_matches : string -> string -> string -> bool }.

Module ListingSearch.
Import Distance Fuzz Location Publication ListingDb.

Record DistanceRow : Type := mkDistanceRow { dr_listingId : string; dr_metres : Js.number }.

(** [ORDER BY "metres" ASC, l."id" ASC]: Postgres puts [NaN] last. *)
Definition float8_le (x y : Js.number) : bool :=
  match SFcompare x y with
  | Some Gt => false
  | Some _ => true
  | None => match y with S754_nan => true | _ => false end
  end.
Definition nearer (a b : DistanceRow) : Prop :=
  float8_le (dr_metres a) (dr_metres b) = true /\
  (float8_le (dr_metres b) (dr_metres a) = true -> String.le (dr_listingId a) (dr_listingId b)).
#[global] Instance nearer_dec : RelDecision nearer.
Proof. intros a b. unfold nearer. apply _. Defined.

(** The tables the statement reads. *)
Record Tables : Type := mkTables { t_catalogue : CatalogueDb.Db; t_bookings : BookingDb.Db }.

Section Search.
Context {Ids : UuidSource} {Pg : PgTypes} {Gis : PostGIS} {Words : TextSearch} {L : Luxon}.

(** [listing_locations_fuzzed_point()] *)
Definition fuzzedPoint (l : LocationRow) : option geography :=
  p ← loc_point l; Some (st_makepoint (fuzzedLongitude p) (fuzzedLatitude p)).
Definition origin_point (p : Point) : geography := st_makepoint (pt_longitude p) (pt_latitude p).

Definition inCategory (categoryId : option string) (r : ListingRow) : bool :=
  match categoryId with Some c => bool_decide (li_categoryId r = c) | None => true end.
Definition matchesKeyword (keyword : option string) (r : ListingRow) : bool :=
  match keyword with Some k => document_matches (li_title r) (li_description r) k | None => true end.

(** [period && tstzrange(start, end, '[)')], where an empty range meets none. *)
Definition range_meets (p : LocalPeriod.LocalPeriod) (start_ end_ : instant) : bool :=
  (LocalPeriod.p_startAt p <? LocalPeriod.p_endAt p) &&
  BookingDb.overlaps (LocalPeriod.p_startAt p) (LocalPeriod.p_endAt p) start_ end_.

Definition freeForDates (books : BookingDb.Db) (period : option LocalPeriod.LocalPeriod) (r : ListingRow) : bool :=
  match period with
  | None => true
  | Some p =>
      negb (existsb (fun b => bool_decide (BookingDb.block_listingId b = li_id r) &&
                              range_meets p (BookingDb.block_startAt b) (BookingDb.block_endAt b))
              (BookingDb.blocks books)) &&
      negb (existsb (fun k => bool_decide (BookingDb.row_listingId k = li_id r) &&
                              BookingState.occupiesCalendar (BookingDb.row_state k) &&
                              range_meets p (BookingDb.row_startAt k) (BookingDb.row_endAt k))
              (BookingDb.bookings books))
  end.

(** One row of the join, and what the statement makes of it. *)
Definition distance_row (books : BookingDb.Db) (db : Db) (origin : Point) (radius : Js.number)
    (categoryId keyword : option string) (period : option LocalPeriod.LocalPeriod) (loc : LocationRow)
  : option DistanceRow :=
  r ← find_by li_id (loc_listingId loc) (listings db);
  p ← fuzzedPoint loc;
  if PUBLICLY_VISIBLE r && inCategory categoryId r && matchesKeyword keyword r && freeForDates books period r &&
     st_dwithin p (origin_point origin) radius
  then Some (mkDistanceRow (li_id r) (st_distance p (origin_point origin)))
  else None.

Definition ranked (t : Tables) (origin : Point) (radius : Js.number) (categoryId keyword : option string)
    (period : option LocalPeriod.LocalPeriod) : list DistanceRow :=
  merge_sort nearer
    (omap (distance_row (t_bookings t) (t_catalogue t) origin radius categoryId keyword period)
       (locations (t_catalogue t))).

Definition toNearbyListing (r : DistanceRow) : ProximityMatch :=
  mkMatch (dr_listingId r) (bucketDistance (dr_metres r)).

(** [tstzrange] raises where its bounds are the wrong way round. *)
Definition tstzrange (period : option LocalPeriod.LocalPeriod) : result () :=
  match period with
  | Some p => throw_if (LocalPeriod.p_endAt p <? LocalPeriod.p_startAt p) (DatabaseError "22000")
  | None => Ok tt
  end.

Context {S : Type} {Geocoder : PostcodeGeocoder S}.
Variable tables : S -> Tables.

Definition findWithin (search : ProximitySearch) : M S (option ProximityPage) :=
  origin ← geocodeQuietly (originPostcode search);
  match origin with
  | None => mret None
  | Some origin =>
      let radiusMetres := milesToMetres (radiusMiles search) in
      period ← lift match ps_dates search with
                    | None => Ok None
                    | Some (from_, to_) => p ← LocalPeriod.periodFromLocalDates from_ to_; Ok (Some p)
                    end;
      categoryId ← as_uuid_opt (ps_categoryId search);
      _ ← lift (tstzrange period);
      rows ← gets (fun s => take (Z.to_nat (Paging.probe (window_limit search)))
                             (drop (Z.to_nat (window_offset search))
                                (ranked (tables s) origin radiusMetres categoryId (ps_keyword search) period)));
      let page := Paging.fitTo rows (window_limit search) in
      mret (Some (mkProximityPage (toNearbyListing <$> Paging.items page) (Paging.truncated page)))
  end.
End Search.
End ListingSearch.

(** ** [main.ts]: what search, location and booking answer for the catalogue *)
Section Composition.
Context {Ids : UuidSource} {Pg : PgTypes} {Gis : PostGIS} {Words : TextSearch} {L : Luxon}.
Context {W : Type} {Geocoder : PostcodeGeocoder W} {Random : RandomSource W} {Trig : Trigonometry}.
(** The other ports, and where the tables of bookings are. *)
Variable others : ListingPorts W.
Variable books : W -> BookingDb.Db.

Definition composed : ListingPorts W := {|
  account := account;
  isPublicationEnabled := isPublicationEnabled;
  findOwnerStatuses := findOwnerStatuses;
  locate := Location.locate;
  relocate := Location.relocate;
  findWithin db := ListingSearch.findWithin (fun w => ListingSearch.mkTables db (books w));
  sign := sign;
  signAll := signAll;
  findBookedListings ids w := elements (BookingDb.findBookedListings ids (books w));
  has_booking w i := existsb (fun b => bool_decide (BookingDb.row_listingId b = i)) (BookingDb.bookings (books w));
  eraseForListings := eraseForListings;
  digest_category := digest_category;
  digest_moderation := digest_moderation |}.
End Composition.
