(* ===== verification/Geocoder.v ===== *)
(** * Placing a postcode ([apps/api/src/search-location/postcodes-io-geocoder.ts])

    The adapter over [fetch], an instance of the [PostcodeGeocoder] that search and
    location ask. *)

From Stdlib Require Import SpecFloat.
From Stdlib Require String.
From S2P Require Import Prelude JsNumber Text Json Http Cipher Search.

#[local] Open Scope string_scope.
#[local] Open Scope list_scope.
#[local] Open Scope Z_scope.

Module PostcodesIo.
Import Fuzz.

Record GeocodedPostcode : Type := mkGeocoded { gp_postcode : string; gp_latitude : Js.number; gp_longitude : Js.number }.

Definition POSTCODES_IO_BASE_URL : string := "https://api.postcodes.io".
Definition GEOCODER_TIMEOUT_MS : Z := 2500.

Definition unavailable {A} (why : string) : result A := Err (GeocoderUnavailableError why).

(** A member of what [typeof] calls an object; an array has none of these. *)
Definition field (k : string) (v : json) : option json :=
  match v with j_object entries => snd <$> List.find (fun e => bool_decide (e.1 = k)) entries | _ => None end.

(** [read] *)
Definition read (raw : string) : result GeocodedPostcode :=
  match Json.parse raw with
  | Err _ => unavailable "The geocoder returned unreadable JSON"
  | Ok body =>
      result ← Encryption.property "result" body;
      match result with
      | Some ((j_object _ | j_array _) as found) =>
          match field "postcode" found, field "latitude" found, field "longitude" found with
          | Some (j_string postcode), Some (j_number latitude), Some (j_number longitude) =>
              if Js.is_finite latitude && Js.is_finite longitude then Ok (mkGeocoded postcode latitude longitude)
              else unavailable "The geocoder returned a result with no usable coordinates"
          | _, _, _ => unavailable "The geocoder returned a result with no usable coordinates"
          end
      | _ => unavailable "The geocoder returned no result"
      end
  end.

Section Adapter.
Context {S : Type} {Net : Fetch S}.
Variable baseUrl : string.

Definition url_of (postcode : string) : string :=
  baseUrl +:+ "/postcodes/" +:+ Uri.encodeURIComponent postcode.

Definition locate (postcode : string) : M S (option GeocodedPostcode) :=
  response ← catch (fetch (mkRequest "GET" (url_of postcode) [] [] GEOCODER_TIMEOUT_MS))
    (fun e => throw (GeocoderUnavailableError
       (if isTimeout e then "The geocoder did not respond in time" else "The geocoder could not be reached")));
  if response_status response =? 404 then mret None
  else if negb (response_status response =? 200) then throw (GeocoderUnavailableError "The geocoder answered")
  else raw ← lift (response_text response); found ← lift (read raw); mret (Some found).

(** The point of it, which is what [LocationService] keeps. *)
#[export] Instance geocoder : PostcodeGeocoder S := {|
  geocode postcode := (fun found => (fun g => mkGeoPoint (gp_latitude g) (gp_longitude g)) <$> found) <$> locate postcode |}.

(** ** What it answers *)

(** A body that names a place. *)
Definition names_place (raw : string) (g : GeocodedPostcode) : Prop :=
  exists body found, Json.parse raw = Ok body /\ field "result" body = Some found /\
    field "postcode" found = Some (j_string (gp_postcode g)) /\
    field "latitude" found = Some (j_number (gp_latitude g)) /\
    field "longitude" found = Some (j_number (gp_longitude g)) /\
    Js.is_finite (gp_latitude g) = true /\ Js.is_finite (gp_longitude g) = true.

Lemma property_field (k : string) (v x : json) : Encryption.property k v = Ok (Some x) <-> field k v = Some x.
Proof. destruct v; cbn; split; congruence. Qed.

Lemma read_ok (raw : string) (g : GeocodedPostcode) : read raw = Ok g <-> names_place raw g.
Proof.
  unfold read, names_place. split.
  - intros H. destruct (Json.parse raw) as [body|]; [|done]. exists body. unfold_result.
    destruct (Encryption.property "result" body) as [[found|]|] eqn:Hp; [|done..]. apply property_field in Hp.
    exists found. rewrite Hp. destruct found; try done; cbn [field] in *;
      repeat (case_match; try done); simplify_eq; cbn [gp_postcode gp_latitude gp_longitude];
      rewrite ?andb_true_iff in *; destruct_and?; split_and!; congruence || done.
  - intros (body & found & -> & Hr%property_field & H1 & H2 & H3 & H4 & H5).
    unfold_result. rewrite Hr. destruct found; try done. rewrite H1, H2, H3, H4, H5. by destruct g.
Qed.

Lemma read_error (raw : string) (e : error) :
  read raw = Err e -> (exists why, e = GeocoderUnavailableError why) \/ Json.parse raw = Ok j_null.
Proof.
  unfold read, unavailable. destruct (Json.parse raw) as [body|]; [|intros [= <-]; by left; eexists]. unfold_result.
  destruct body; [by right|..]; cbn [Encryption.property]; intros H; left; repeat (case_match; try done); simplify_eq; by eexists.
Qed.

(** What the provider says, as the adapter hears it. *)
Definition heard (postcode : string) (k : S) : S * result FetchResponse :=
  fetch (mkRequest "GET" (url_of postcode) [] [] GEOCODER_TIMEOUT_MS) k.

(** C36. The geocoder answers a place exactly when the provider answers 200 with a body that
    names one, with finite coordinates, and no place exactly when the provider answers 404.
    Otherwise it throws, and what it throws is that the geocoder is unavailable, save in two
    cases: the body of a 200 fails while it is read, or is the JSON null. *)
Theorem geocoder_outcomes (postcode : string) (k : S) :
  let '(k', answer) := heard postcode k in
  fst (locate postcode k) = k' /\
  (forall g, snd (locate postcode k) = Ok (Some g) <->
    exists raw, answer = Ok (mkResponse 200 (Ok raw)) /\ names_place raw g) /\
  (snd (locate postcode k) = Ok None <-> exists body, answer = Ok (mkResponse 404 body)) /\
  (forall e, snd (locate postcode k) = Err e ->
    (exists why, e = GeocoderUnavailableError why) \/
    answer = Ok (mkResponse 200 (Err e)) \/
    exists raw, answer = Ok (mkResponse 200 (Ok raw)) /\ Json.parse raw = Ok j_null).
Proof.
  unfold heard, locate. destruct (fetch _ k) as [k' [[status body]|e]] eqn:E; rewrite !bind_at; unfold catch; rewrite E.
  - cbn [response_status response_text]. destruct (Z.eqb_spec status 404) as [->|H4]; [|destruct (Z.eqb_spec status 200) as [->|H2]]; cbn [negb].
    + split_and!; [done|by intros g; split; [|intros (raw & [=] & _)]|split; [intros _; by eexists|done]|done].
    + destruct body as [raw|e]; run_binds.
      * destruct (read raw) as [g'|e] eqn:Hr; run_binds; cbn [fst snd]; split_and!; try done.
        -- intros g. split; [intros [= <-]; exists raw; split; [done|by apply read_ok]|].
           intros (r & [= <-] & H%read_ok). congruence.
        -- by split; [|intros (b & [=])].
        -- intros g. split; [done|]. intros (r & [= <-] & H%read_ok). congruence.
        -- by split; [|intros (b & [=])].
        -- intros e' [= <-]. apply read_error in Hr as [Hr|Hr]; [by left|]. right. right. by exists raw.
      * cbn [fst snd]. split_and!; [done|by intros g; split; [|intros (raw & [=] & _)]|by split; [|intros (b & [=])]|].
        intros e' [= <-]. right. by left.
    + cbn [fst snd]. split_and!; [done| | |intros e' [= <-]; left; by eexists].
      * intros g. split; [done|]. by intros (raw & [= ->] & _).
      * split; [done|]. by intros (b & [= ->]).
  - cbn [fst snd]. split_and!; [done|by intros g; split; [|intros (raw & [=] & _)]|by split; [|intros (b & [=])]|].
    intros e' [= <-]. left. by eexists.
Qed.
End Adapter.
End PostcodesIo.
