(* ===== verification/Media.v ===== *)
(** * Pictures of listings ([apps/api/src/catalogue], [listing-media.*], [prepare-image.ts],
    the object stores)

    [Module PrepareImage]: what is refused and what is made of an upload, over [sharp] as
    a class.  [Module MediaDb]: [prisma-listing-media-store.ts] over the table of
    [CatalogueDb].  [Module ObjectStores]: the store in memory, and R2 over [fetch].
    [Module ListingMedia]: [listing-media.service.ts] and [listing-image-signer.ts]. *)

From Stdlib Require Import Ascii.
From Stdlib Require String.
From S2P Require Import Prelude JsNumber Text Http Ledger LedgerStore Columns Answers CatalogueStore ListingStore Listings.

#[local] Open Scope string_scope.
#[local] Open Scope list_scope.
#[local] Open Scope Z_scope.

Import Publication CatalogueDb ListingDb.

(** ** [prepare-image.ts] *)
Record ImageMetadata : Type := mkMetadata { meta_format : option string; meta_width : option Z; meta_height : option Z }.
Record ImageRendition : Type := mkRendition { rn_bytes : text; rn_width : Z; rn_height : Z; rn_byteSize : Z }.

(** [sharp]: reading a header, and rotating, fitting inside a square without enlarging,
    and writing WebP; and the digest of [node:crypto]. *)
Class ImageLibrary : Type := {
  metadata : text -> result ImageMetadata;
  render : text -> Z -> Z -> result (text * (Z * Z));
  sha256_hex : text -> string }.

Module PrepareImage.
Definition ACCEPTED_INPUT_FORMATS : list string := ["jpeg"; "png"; "webp"; "gif"; "heif"; "tiff"].
Definition MAX_INPUT_BYTES : Z := 15 * 1024 * 1024.
Definition MAX_INPUT_PIXELS : Z := 50000000.
Definition DISPLAY_MAX_EDGE : Z := 1600.
Definition THUMBNAIL_MAX_EDGE : Z := 400.
Definition OUTPUT_CONTENT_TYPE : string := "image/webp".
Definition DISPLAY_QUALITY : Z := 82.
Definition THUMBNAIL_QUALITY : Z := 75.

Record PreparedImage : Type := mkPrepared {
  pr_contentType : string;
  pr_display : ImageRendition;
  pr_thumbnail : ImageRendition;
  pr_sha256 : string;
  pr_sourceFormat : string }.

Section Prepare.
Context {Sharp : ImageLibrary}.

Definition readFormat (input : text) : result string :=
  match metadata input with
  | Err _ => Err (ImageRejectedError "not-an-image")
  | Ok meta =>
      match meta_format meta with
      | None => Err (ImageRejectedError "unsupported-format")
      | Some format =>
          if bool_decide (format ∉ ACCEPTED_INPUT_FORMATS) then Err (ImageRejectedError "unsupported-format")
          else match meta_width meta, meta_height meta with
               | Some width, Some height =>
                   if (width <? 1) || (height <? 1) then Err (ImageRejectedError "not-an-image")
                   else if MAX_INPUT_PIXELS <? width * height then Err (ImageRejectedError "too-many-pixels")
                   else Ok format
               | _, _ => Err (ImageRejectedError "not-an-image")
               end
      end
  end.

Definition encode (input : text) (maxEdge quality : Z) : result ImageRendition :=
  match render input maxEdge quality with
  | Err _ => Err (ImageRejectedError "not-an-image")
  | Ok (data, (width, height)) => Ok (mkRendition data width height (Z.of_nat (length data)))
  end.

Definition prepareImage (input : text) : result PreparedImage :=
  if MAX_INPUT_BYTES <? Z.of_nat (length input) then Err (ImageRejectedError "too-many-bytes")
  else if Z.of_nat (length input) =? 0 then Err (ImageRejectedError "not-an-image")
  else
    format ← readFormat input;
    display ← encode input DISPLAY_MAX_EDGE DISPLAY_QUALITY;
    thumbnail ← encode input THUMBNAIL_MAX_EDGE THUMBNAIL_QUALITY;
    Ok (mkPrepared OUTPUT_CONTENT_TYPE display thumbnail (sha256_hex (rn_bytes display)) format).
End Prepare.
End PrepareImage.

(** ** [listing-media-store.ts], [prisma-listing-media-store.ts] *)
Record NewListingMedia : Type := mkNewMedia {
  nm_listingId : string;
  nm_displayKey : string;
  nm_thumbnailKey : string;
  nm_contentType : string;
  nm_byteSize : Z;
  nm_width : Z;
  nm_height : Z;
  nm_thumbnailWidth : Z;
  nm_thumbnailHeight : Z;
  nm_sha256 : string }.

Module MediaDb.
Section Tables.
Context {Ids : UuidSource}.

Definition of_listing (listingId : string) (m : MediaRow) : bool := bool_decide (me_listingId m = listingId).

(** [inOwnersOrder] is [media_before]. *)
Definition listFor (listingId : string) (db : Db) : list MediaRow :=
  merge_sort media_before (List.filter (of_listing listingId) (media db)).
Definition listForListings (ids : list string) (db : Db) : list MediaRow :=
  merge_sort media_before (List.filter (fun m => bool_decide (me_listingId m ∈ ids)) (media db)).

(** The highest position there is, and one past it. *)
Definition next_position (listingId : string) (db : Db) : Z :=
  fold_right (fun m p => Z.max (me_position m + 1) p) 0 (List.filter (of_listing listingId) (media db)).

(** The [INTEGER] columns and [listing_media_listingId_fkey]. *)
Definition media_refusal (m : MediaRow) (db : Db) : bool :=
  negb (forallb LedgerDb.fits_int4 [me_position m; me_byteSize m; me_width m; me_height m; me_thumbnailWidth m; me_thumbnailHeight m]) ||
  bool_decide (me_listingId m ∉ li_id <$> listings db).

Definition row_of (position : Z) (n : NewListingMedia) (db : Db) : MediaRow :=
  mkMediaRow (uuid (cseq db)) (nm_listingId n) position (nm_displayKey n) (nm_thumbnailKey n) (nm_contentType n)
    (nm_byteSize n) (nm_width n) (nm_height n) (nm_thumbnailWidth n) (nm_thumbnailHeight n) (nm_sha256 n)
    APPROVED (cclock db).
Definition insert_media (position : Z) (n : NewListingMedia) : M Db MediaRow := fun db =>
  let row := row_of position n db in
  if media_refusal row db then (db, Err (DatabaseError "listing_media"))
  else (next (with_media (media db ++ [row]) db), Ok row).

Definition delete_row (id : string) : M Db () := fun db =>
  match find_by me_id id (media db) with
  | None => (db, Err (DatabaseError "P2025"))
  | Some _ => (with_media (List.filter (fun m => negb (bool_decide (me_id m = id))) (media db)) db, Ok tt)
  end.

Definition row_of_listing (listingId mediaId : string) (db : Db) : option MediaRow :=
  List.find (fun m => bool_decide (me_id m = mediaId) && of_listing listingId m) (media db).

Definition with_position (p : Z) (m : MediaRow) : MediaRow :=
  mkMediaRow (me_id m) (me_listingId m) p (me_displayKey m) (me_thumbnailKey m) (me_contentType m) (me_byteSize m)
    (me_width m) (me_height m) (me_thumbnailWidth m) (me_thumbnailHeight m) (me_sha256 m) (me_moderationState m)
    (me_createdAt m).

(** One [updateMany] per id, in one transaction. *)
Definition place (listingId : string) (p : Z) (id : string) : M Db () :=
  modify (fun db => with_media
    ((fun m => if bool_decide (me_id m = id) && of_listing listingId m then with_position p m else m) <$> media db) db).
Definition deleteFor (ids : list string) : M Db () :=
  modify (fun db => with_media (List.filter (fun m => bool_decide (me_listingId m ∉ ids)) (media db)) db).
End Tables.

(** The operations of several statements, in a state of which the tables are a part, and
    where other requests commit between two statements.  No statement after a write can
    fail, so that neither transaction has anything to undo. *)
Section Store.
Context {Ids : UuidSource} {T : Type}.
Variable on : forall A, M Db A -> M T A.
Variable rival : T -> T.

Definition append (n : NewListingMedia) : M T MediaRow :=
  position ← on _ (gets (next_position (nm_listingId n)));
  _ ← modify rival;
  on _ (insert_media position n).

Definition remove (listingId mediaId : string) : M T (option MediaRow) :=
  row ← on _ (gets (row_of_listing listingId mediaId));
  match row with
  | None => mret None
  | Some row => _ ← modify rival; _ ← on _ (delete_row (me_id row)); mret (Some row)
  end.

Fixpoint place_from (listingId : string) (p : Z) (ids : list string) : M T () :=
  match ids with
  | [] => mret tt
  | id :: ids' => _ ← on _ (place listingId p id); _ ← modify rival; place_from listingId (p + 1) ids'
  end.
Definition reorder (listingId : string) (mediaIds : list string) : M T () := place_from listingId 0 mediaIds.
End Store.
End MediaDb.

(** ** [object-store.ts], [memory-object-store.ts], [r2-object-store.ts] *)
Class ObjectStore (S : Type) : Type := {
  put : string -> text -> string -> M S ();
  delete : string -> M S ();
  signedUrl : string -> Z -> M S string }.

Definition SIGNED_URL_TTL_SECONDS : Z := 15 * 60.

Module ObjectStores.
(** [MemoryObjectStore] *)
Definition Heap : Type := gmap string (text * string).
Definition memory : ObjectStore Heap := {|
  put key bytes contentType := modify (fun objects => <[key := (bytes, contentType)]> objects);
  delete key := modify (fun objects => base.delete key objects);
  signedUrl key ttlSeconds :=
    mret ("https://object-store.invalid/" +:+ key +:+ "?expires=" +:+ str (digits_of ttlSeconds)) |}.
#[export] Existing Instance memory.

(** [AwsClient] of aws4fetch, which signs or throws, and the [URL] of the language. *)
Record SignRequest : Type := mkSign {
  sg_url : string; sg_method : string; sg_headers : list (string * string); sg_body : text; sg_query : bool }.
Class AwsClient : Type := {
  aws_sign : SignRequest -> result (string * list (string * string));
  with_search_param : string -> string -> string -> string;
  sha256 : text -> string }.

Section R2.
Context {S : Type} {Net : Fetch S} {Aws : AwsClient}.
Variable endpoint bucket : string.

Definition OBJECT_STORE_PUT_TIMEOUT_MS : Z := 10000.
Definition OBJECT_STORE_DELETE_TIMEOUT_MS : Z := 5000.

(** [split('/')] *)
Fixpoint segments (l : text) : list text :=
  match l with
  | [] => [[]]
  | c :: l' =>
      if bool_decide (c = "/"%char) then [] :: segments l'
      else match segments l' with s :: r => (c :: s) :: r | [] => [[c]] end
  end.
Fixpoint joined_by (c : ascii) (l : list text) : text :=
  match l with
  | [] => []
  | [x] => x
  | x :: l' => x ++ c :: joined_by c l'
  end.
Definition urlFor (key : string) : string :=
  endpoint +:+ "/" +:+ bucket +:+ "/" +:+ str (joined_by "/"%char (Uri.encode <$> segments (chars key))).

Definition send (signed : string * list (string * string)) (method : string) (body : text) (timeoutMs : Z) : M S () :=
  response ← catch (fetch (mkRequest method signed.1 signed.2 body timeoutMs))
    (fun e => throw (ObjectStoreUnavailableError
       (if isTimeout e then "The object store did not respond in time" else "The object store could not be reached")));
  if response_ok response then mret tt else throw (ObjectStoreUnavailableError "The object store answered").

Definition r2 : ObjectStore S := {|
  put key bytes contentType :=
    signed ← lift (aws_sign (mkSign (urlFor key) "PUT"
                     [("content-type", contentType); ("x-amz-content-sha256", sha256 bytes)] bytes false));
    send signed "PUT" bytes OBJECT_STORE_PUT_TIMEOUT_MS;
  delete key :=
    signed ← lift (aws_sign (mkSign (urlFor key) "DELETE" [] [] false));
    send signed "DELETE" [] OBJECT_STORE_DELETE_TIMEOUT_MS;
  signedUrl key ttlSeconds :=
    signed ← lift (aws_sign (mkSign (with_search_param (urlFor key) "X-Amz-Expires" (str (digits_of ttlSeconds)))
                     "GET" [] [] true));
    mret signed.1 |}.
End R2.
End ObjectStores.

(** ** [listing-media.service.ts] *)
Module ListingMedia.
Import PrepareImage MediaDb.

Definition LISTING_MEDIA_LIMIT : nat := 10.

(** [OwnerListingMedia] *)
Record OwnerListingMedia : Type := mkOwnerMedia {
  om_id : string; om_position : Z; om_display : ListingMediaImage; om_thumbnail : ListingMediaImage }.

Definition objectKey (listingId mediaId rendition : string) : string :=
  "listings/" +:+ listingId +:+ "/" +:+ mediaId +:+ "/" +:+ rendition +:+ ".webp".

Record World {S : Type} : Type := mkWorld { cdb : Db; objects : S }.
Arguments World S : clear implicits.
Arguments mkWorld {S}.

Section Service.
Context {Ids : UuidSource} {Sharp : ImageLibrary} {S : Type} {Store : ObjectStore S}.
(** What other requests commit while this one awaits, and between the statements of the
    adapter. *)
Variable rival : World S -> World S.

Definition await : M (World S) () := modify rival.
Definition on_db {A} (m : M Db A) : M (World S) A := fun w =>
  let (s, r) := m (cdb w) in (mkWorld s (objects w), r).
Definition on_store {A} (m : M S A) : M (World S) A := fun w =>
  let (s, r) := m (objects w) in (mkWorld (cdb w) s, r).
(** [randomUUID] *)
Definition randomUUID : M (World S) string := on_db (fun db => (next db, Ok (uuid (cseq db)))).

Definition signOne (key : string) (width height : Z) : M (World S) ListingMediaImage :=
  url ← on_store (signedUrl key SIGNED_URL_TTL_SECONDS);
  mret (mkMediaImage url width height).
Definition sign_media (m : MediaRow) : M (World S) OwnerListingMedia :=
  display ← signOne (me_displayKey m) (me_width m) (me_height m);
  thumbnail ← signOne (me_thumbnailKey m) (me_thumbnailWidth m) (me_thumbnailHeight m);
  mret (mkOwnerMedia (me_id m) (me_position m) display thumbnail).
Fixpoint sign (l : list MediaRow) : M (World S) (list OwnerListingMedia) :=
  match l with
  | [] => mret []
  | m :: l' => x ← sign_media m; xs ← sign l'; mret (x :: xs)
  end.

Definition listFor (listingId ownerId : string) : M (World S) (option (list OwnerListingMedia)) :=
  mine ← gets (fun w => existsOwnedBy listingId ownerId (cdb w));
  if negb mine then mret None
  else
    _ ← await;
    rows ← gets (fun w => MediaDb.listFor listingId (cdb w));
    signed ← sign rows;
    mret (Some signed).

Definition refuse {A} (reason : string) : M (World S) A := throw (ListingMediaRefusedError reason).

(** [prepareImage(bytes).catch(...)] *)
Definition prepared_or_refused (bytes : text) : M (World S) PreparedImage :=
  match prepareImage bytes with
  | Ok p => mret p
  | Err (ImageRejectedError reason) => refuse reason
  | Err e => throw e
  end.

Definition store_both (displayKey thumbnailKey : string) (p : PreparedImage) : M (World S) () :=
  catch
    (_ ← on_store (put displayKey (rn_bytes (pr_display p)) (pr_contentType p));
     _ ← await;
     on_store (put thumbnailKey (rn_bytes (pr_thumbnail p)) (pr_contentType p)))
    (fun e => match e with ObjectStoreUnavailableError _ => refuse "storage-unavailable" | _ => throw e end).

Definition new_media (listingId displayKey thumbnailKey : string) (p : PreparedImage) : NewListingMedia :=
  mkNewMedia listingId displayKey thumbnailKey (pr_contentType p) (rn_byteSize (pr_display p)) (rn_width (pr_display p))
    (rn_height (pr_display p)) (rn_width (pr_thumbnail p)) (rn_height (pr_thumbnail p)) (pr_sha256 p).

Definition add (listingId ownerId : string) (bytes : text) : M (World S) (option OwnerListingMedia) :=
  mine ← gets (fun w => existsOwnedBy listingId ownerId (cdb w));
  if negb mine then mret None
  else
    _ ← await;
    existing ← gets (fun w => MediaDb.listFor listingId (cdb w));
    if (LISTING_MEDIA_LIMIT <=? length existing)%nat then refuse "too-many-photographs"
    else
      _ ← await;
      p ← prepared_or_refused bytes;
      _ ← await;
      mediaId ← randomUUID;
      let displayKey := objectKey listingId mediaId "display" in
      let thumbnailKey := objectKey listingId mediaId "thumbnail" in
      _ ← store_both displayKey thumbnailKey p;
      _ ← await;
      row ← MediaDb.append (@on_db) rival (new_media listingId displayKey thumbnailKey p);
      signed ← sign_media row;
      mret (Some signed).

(** Key by key; what will not go is only logged. *)
Definition discard_key (key : string) : M (World S) () := catch (on_store (delete key)) (fun _ => mret tt).
Fixpoint discard (l : list MediaRow) : M (World S) () :=
  match l with
  | [] => mret tt
  | m :: l' =>
      _ ← discard_key (me_displayKey m);
      _ ← await;
      _ ← discard_key (me_thumbnailKey m);
      _ ← await;
      discard l'
  end.

Definition remove (listingId ownerId mediaId : string) : M (World S) (option bool) :=
  mine ← gets (fun w => existsOwnedBy listingId ownerId (cdb w));
  if negb mine then mret None
  else
    _ ← await;
    removed ← MediaDb.remove (@on_db) rival listingId mediaId;
    match removed with
    | None => mret (Some false)
    | Some m => _ ← await; _ ← discard [m]; mret (Some true)
    end.

(** [new Set] of each, and the sets the same. *)
Definition sameSet (existing mediaIds : list string) : bool :=
  bool_decide (NoDup mediaIds) && Nat.eqb (length (remove_dups existing)) (length (remove_dups mediaIds)) &&
  forallb (fun i => bool_decide (i ∈ mediaIds)) existing.

Definition reorder (listingId ownerId : string) (mediaIds : list string) : M (World S) (option (list OwnerListingMedia)) :=
  mine ← gets (fun w => existsOwnedBy listingId ownerId (cdb w));
  if negb mine then mret None
  else
    _ ← await;
    existing ← gets (fun w => MediaDb.listFor listingId (cdb w));
    if negb (sameSet (me_id <$> existing) mediaIds) then throw (ListingMediaRefusedError "not-an-image")
    else
      _ ← await;
      _ ← MediaDb.reorder (@on_db) rival listingId mediaIds;
      _ ← await;
      rows ← gets (fun w => MediaDb.listFor listingId (cdb w));
      signed ← sign rows;
      mret (Some signed).

Definition eraseForListings (listingIds : list string) : M (World S) () :=
  found ← gets (fun w => listForListings listingIds (cdb w));
  match found with
  | [] => mret tt
  | _ => _ ← await; _ ← discard found; on_db (deleteFor listingIds)
  end.
End Service.

(** [ListingImageSigner], which answers ports of the listings. *)
Section Signer.
Context {S : Type} {Store : ObjectStore S}.
Definition sign_image (image : ListingImageRecord) : M S ListingMediaImage :=
  url ← signedUrl (img_key image) SIGNED_URL_TTL_SECONDS;
  mret (mkMediaImage url (img_width image) (img_height image)).
Definition signer_sign (image : option ListingImageRecord) : M S (option ListingMediaImage) :=
  match image with None => mret None | Some i => x ← sign_image i; mret (Some x) end.
Fixpoint signer_signAll (media : list PublicListingMediaRecord) : M S (list PublicListingMedia) :=
  match media with
  | [] => mret []
  | item :: media' =>
      display ← sign_image (pm_display item);
      thumbnail ← sign_image (pm_thumbnail item);
      rest ← signer_signAll media';
      mret (mkSigned (pm_id item) display thumbnail :: rest)
  end.
End Signer.
End ListingMedia.
