(* ===== verification/Flags.v ===== *)
(** * Feature flags ([apps/api/src/feature-flags], [packages/contracts/src/feature-flags.ts])

    The vocabulary; [Module FlagDb], the table of overrides and
    [prisma-flag-store.ts]; [Module FeatureFlags], [feature-flags.service.ts] over any
    store ([Class FlagStore]), with the cache each process keeps. *)

From Stdlib Require String.
From S2P Require Import Prelude Text Ledger Columns AuditLog LocalTime.

#[local] Open Scope string_scope.
#[local] Open Scope list_scope.
#[local] Open Scope Z_scope.

Import AuditDb.

(** ** The vocabulary *)
Record FeatureFlagDeclaration : Type := mkDeclaration {
  fd_key : string; fd_label : string; fd_gates : string; fd_defaultEnabled : bool }.

Definition FEATURE_FLAGS : list FeatureFlagDeclaration :=
  [mkDeclaration "listing.publication" "Publishing listings"
     ("Owners publishing a listing. Turning this off leaves existing published " +:+
      "listings exactly as they are and refuses new publications — the emergency " +:+
      "stop for when something is going live that should not be.")
     true;
   mkDeclaration "booking.payment" "Paying for bookings"
     ("Renters paying for an accepted booking. It is OFF because there is no " +:+
      "payment provider yet — slice 5.2e builds the Stripe adapter and needs a " +:+
      "Stripe account. Turning it on before that adapter exists makes every " +:+
      "payment attempt fail loudly rather than charging anybody. Nothing else in " +:+
      "the product depends on it: a booking can still be requested, accepted, " +:+
      "declined and expired with this off.")
     false].

Definition FEATURE_FLAG_KEYS : list string := fd_key <$> FEATURE_FLAGS.
Definition isFeatureFlagKey (value : string) : bool := bool_decide (value ∈ FEATURE_FLAG_KEYS).
Definition featureFlagDeclaration (key : string) : option FeatureFlagDeclaration :=
  find_by fd_key key FEATURE_FLAGS.

Inductive FeatureFlagSource : Type := from_default | from_override.

Record AdminFeatureFlag : Type := mkAdminFlag {
  af_key : string;
  af_label : string;
  af_gates : string;
  af_enabled : bool;
  af_defaultEnabled : bool;
  af_source : FeatureFlagSource;
  af_changedAt : option string;
  af_changedById : option string }.

(** ** [flag-store.ts] *)
Record FeatureFlagOverrideRecord : Type := mkOverride {
  fo_id : string; fo_key : string; fo_enabled : bool; fo_changedById : string; fo_changedAt : instant }.

(** What the audit trail digests. *)
Record AuditableFlag : Type := mkAuditableFlag { au_key : string; au_enabled : bool; au_source : FeatureFlagSource }.

(** The store, the trail and the clock that the service is given. *)
Class FlagStore (S : Type) : Type := {
  listOverrides : M S (list FeatureFlagOverrideRecord);
  set_override : string -> bool -> string -> M S FeatureFlagOverrideRecord;
  now : S -> instant;
  record_change : Audit.RecordChange AuditableFlag -> M S () }.

(** ** [prisma-flag-store.ts] *)
Module FlagDb.

Record OverrideRow : Type := mkOverrideRow {
  ov_id : string;
  ov_key : string;
  ov_enabled : bool;
  ov_changedById : string;
  ov_createdAt : instant;
  ov_updatedAt : instant }.

(** The table, the audit trail, the accounts that exist, the clock, and the source of
    ids. *)
Record Db : Type := mkDb {
  overrides : list OverrideRow;
  ftrail : Trail;
  accounts : list string;
  fclock : instant;
  fseq : nat }.

Definition toRecord (r : OverrideRow) : FeatureFlagOverrideRecord :=
  mkOverride (ov_id r) (ov_key r) (ov_enabled r) (ov_changedById r) (ov_updatedAt r).

Section Tables.
Context {Ids : UuidSource} {Pg : PgTypes}.
(** The collation of the database. *)
Context (collate : relation string) `{Collate : !RelDecision collate}.
(** [StateDigest.of] *)
Variable digest_flag : AuditableFlag -> string.

Definition by_key (a b : OverrideRow) : Prop := collate (ov_key a) (ov_key b).
#[local] Instance by_key_dec : RelDecision by_key.
Proof using Collate. intros a b. unfold by_key. apply _. Defined.

Definition list_overrides (db : Db) : list FeatureFlagOverrideRecord := toRecord <$> merge_sort by_key (overrides db).

(** [INSERT ... ON CONFLICT ("key") DO UPDATE], with the foreign key of [changedById]. *)
Definition switched (enabled : bool) (changedById : string) (at_ : instant) (r : OverrideRow) : OverrideRow :=
  mkOverrideRow (ov_id r) (ov_key r) enabled changedById (ov_createdAt r) at_.
Definition upsert (key : string) (enabled : bool) (changedById : string) : M Db FeatureFlagOverrideRecord := fun db =>
  match as_uuid changedById tt with
  | (_, Err e) => (db, Err e)
  | (_, Ok u) =>
      if bool_decide (u ∉ accounts db) then (db, Err (DatabaseError "feature_flag_overrides_changedById_fkey"))
      else match find_by ov_key key (overrides db) with
           | Some r =>
               let r' := switched enabled u (fclock db) r in
               (mkDb ((fun x => if bool_decide (ov_key x = key) then switched enabled u (fclock db) x else x) <$> overrides db)
                  (ftrail db) (accounts db) (fclock db) (fseq db), Ok (toRecord r'))
           | None =>
               let r := mkOverrideRow (uuid (fseq db)) key enabled u (fclock db) (fclock db) in
               (mkDb (overrides db ++ [r]) (ftrail db) (accounts db) (fclock db) (S (fseq db)), Ok (toRecord r))
           end
  end.

Definition audit_change (c : Audit.RecordChange AuditableFlag) : M Db () := fun db =>
  let (t, r) := Audit.record digest_flag (fclock db) (fun u => bool_decide (u ∈ accounts db)) c (ftrail db) in
  (mkDb (overrides db) t (accounts db) (fclock db) (fseq db), r).

Definition prisma : FlagStore Db := {|
  listOverrides := gets list_overrides;
  set_override := upsert;
  now := fclock;
  record_change := audit_change |}.
End Tables.
End FlagDb.

(** ** [feature-flags.service.ts] *)
Module FeatureFlags.

Definition FLAG_CACHE_TTL_MS : Z := 10000.

Record Snapshot : Type := mkSnapshot { taken_at : instant; snap : gmap string bool }.
Record World {S : Type} : Type := mkWorld { store : S; cache : option Snapshot }.
Arguments World S : clear implicits.
Arguments mkWorld {S}.

Section Service.
Context {L : Luxon} {S : Type} {Store : FlagStore S}.
(** What other requests do, here and in other processes, while this one awaits. *)
Variable rival : World S -> World S.

Definition await : M (World S) () := modify rival.
Definition on_store {A} (m : M S A) : M (World S) A := fun w =>
  let (s, r) := m (store w) in (mkWorld s (cache w), r).
Definition set_cache (c : option Snapshot) : M (World S) () := modify (fun w => mkWorld (store w) c).

Definition auditable (flag : AdminFeatureFlag) : AuditableFlag :=
  mkAuditableFlag (af_key flag) (af_enabled flag) (af_source flag).

(** The store is asked, and answers, at moments of its own. *)
Definition readThrough : M (World S) (list FeatureFlagOverrideRecord) :=
  _ ← await;
  rows ← on_store listOverrides;
  _ ← await;
  mret (List.filter (fun row => isFeatureFlagKey (fo_key row)) rows).

(** [new Map(rows.map(...))]: the last row of a key. *)
Definition by_last_key (rows : list FeatureFlagOverrideRecord) (key : string) : option FeatureFlagOverrideRecord :=
  find_by fo_key key (rev rows).
Definition as_map (rows : list FeatureFlagOverrideRecord) : gmap string bool :=
  list_to_map ((fun row => (fo_key row, fo_enabled row)) <$> rev rows).

Definition refreshed : M (World S) (gmap string bool) :=
  rows ← readThrough;
  at_ ← gets (fun w => now (store w));
  _ ← set_cache (Some (mkSnapshot at_ (as_map rows)));
  mret (as_map rows).
Definition overrides : M (World S) (gmap string bool) :=
  cached ← gets cache;
  at_ ← gets (fun w => now (store w));
  match cached with
  | Some c => if at_ - taken_at c <? FLAG_CACHE_TTL_MS then mret (snap c) else refreshed
  | None => refreshed
  end.

Definition isEnabled (key : string) : M (World S) bool :=
  match featureFlagDeclaration key with
  | None => mret false
  | Some declaration =>
      catch (held ← overrides; mret (default (fd_defaultEnabled declaration) (held !! key)))
        (fun _ => mret (fd_defaultEnabled declaration))
  end.

Definition shown (rows : list FeatureFlagOverrideRecord) (declaration : FeatureFlagDeclaration) : AdminFeatureFlag :=
  let override := by_last_key rows (fd_key declaration) in
  mkAdminFlag (fd_key declaration) (fd_label declaration) (fd_gates declaration)
    (default (fd_defaultEnabled declaration) (fo_enabled <$> override)) (fd_defaultEnabled declaration)
    (match override with None => from_default | Some _ => from_override end)
    ((fun row => Time.toIsoUtc (fo_changedAt row)) <$> override) (fo_changedById <$> override).
Definition list_ : M (World S) (list AdminFeatureFlag) :=
  rows ← readThrough; mret (shown rows <$> FEATURE_FLAGS).

Definition set (actor : Actor) (key : string) (enabled : bool) (reason : string) : M (World S) (option AdminFeatureFlag) :=
  if negb (isFeatureFlagKey key) then mret None
  else
    flags ← list_;
    match find_by af_key key flags with
    | None => mret None
    | Some before =>
        _ ← await;
        row ← on_store (set_override key enabled (actor_userId actor));
        _ ← await;
        _ ← set_cache None;
        flags' ← list_;
        match find_by af_key key flags' with
        | None => mret None
        | Some after =>
            _ ← await;
            _ ← on_store (record_change (Audit.mkChange (Some actor) feature_flag_changed "feature_flag" (fo_id row)
                             (Some (auditable before)) (Some (auditable after)) (Some reason)));
            _ ← await;
            mret (Some after)
        end
    end.
End Service.
End FeatureFlags.
