(* ===== verification/RateLimit.v ===== *)
(** * Rate limits ([apps/api/src/rate-limiting])

    [policy.ts]; [redis-rate-limiter.ts] over a client that counts
    ([Class CountingClient]), as a whole ([consume]) and statement by statement
    ([advance]), so that many requests can be interleaved; [rate-limit.guard.ts] over
    any limiter ([Class RateLimiter]). *)

From Stdlib Require Import SpecFloat.
From Stdlib Require String.
From S2P Require Import Prelude JsNumber Text Json.

#[local] Open Scope string_scope.
#[local] Open Scope list_scope.
#[local] Open Scope Z_scope.

(** ** [rate-limiter.ts] *)
Inductive RateLimitTier : Type := tier_read | tier_write.
Definition tier_name (t : RateLimitTier) : string := match t with tier_read => "read" | tier_write => "write" end.

Inductive OnStoreFailure : Type := allow | refuse.

Record RateLimitPolicy : Type := mkPolicy {
  rl_tier : RateLimitTier; rl_limit : number; rl_windowSeconds : Z; rl_onStoreFailure : OnStoreFailure }.

Record RateLimitDecision : Type := mkDecision {
  rd_allowed : bool; rd_limit : number; rd_remaining : number; rd_resetInSeconds : number }.

Class RateLimiter (S : Type) : Type := { consume_key : string -> RateLimitPolicy -> M S RateLimitDecision }.

Definition accountRateLimitKey (tier : RateLimitTier) (accountId : string) : string :=
  "ratelimit:" +:+ tier_name tier +:+ ":account:" +:+ accountId.

(** ** [policy.ts] *)
Module Policy.
Definition DEFAULT_LIMITS (t : RateLimitTier) : Z := match t with tier_read => 300 | tier_write => 60 end.
Definition RATE_LIMIT_WINDOW_SECONDS : Z := 60.

(** [Number.isInteger] *)
Definition is_integer (x : number) : bool :=
  match Js.floor x, Js.ceil x with Some a, Some b => a =? b | _, _ => false end.

Definition build (overrides : RateLimitTier -> option number) (tier : RateLimitTier) : result RateLimitPolicy :=
  match overrides tier with
  | Some override =>
      if negb (is_integer override) || Js.ltb override (Js.of_Z 1)
      then Err (ForeignError "Rate limit must be a whole number of requests above zero")
      else Ok (mkPolicy tier override RATE_LIMIT_WINDOW_SECONDS allow)
  | None => Ok (mkPolicy tier (Js.of_Z (DEFAULT_LIMITS tier)) RATE_LIMIT_WINDOW_SECONDS allow)
  end.

Definition resolvePolicies (overrides : RateLimitTier -> option number) : result (RateLimitTier -> RateLimitPolicy) :=
  read ← build overrides tier_read;
  write ← build overrides tier_write;
  Ok (fun t => match t with tier_read => read | tier_write => write end).
End Policy.

(** ** [redis-rate-limiter.ts] *)

(** [INCR], [EXPIRE key seconds NX] and [TTL]. *)
Class CountingClient (S : Type) : Type := {
  incr : string -> M S number;
  expire : string -> Z -> M S number;
  ttl : string -> M S number }.

Module RedisRateLimiter.
Section Limiter.
Context {S : Type} {Client : CountingClient S}.

(** [Math.max(0, x)] *)
Definition max_0 (x : number) : number :=
  match x with
  | S754_nan => S754_nan
  | _ => if Js.ltb (S754_zero false) x then x else S754_zero false
  end.

Definition decision (policy : RateLimitPolicy) (count reset : number) : result RateLimitDecision :=
  if negb (Js.is_finite count) then Err (ForeignError "unexpected reply from INCR")
  else Ok (mkDecision (Js.leb count (rl_limit policy)) (rl_limit policy) (max_0 (Js.sub (rl_limit policy) count))
             (if Js.is_finite reset && Js.ltb (S754_zero false) reset then reset else Js.of_Z (rl_windowSeconds policy))).

(** [rival] is what other requests do between two commands. *)
Definition consume (rival : S -> S) (key : string) (policy : RateLimitPolicy) : M S RateLimitDecision :=
  count ← incr key;
  _ ← modify rival;
  _ ← expire key (rl_windowSeconds policy);
  _ ← modify rival;
  reset ← ttl key;
  lift (decision policy count reset).

#[local] Instance redis (rival : S -> S) : RateLimiter S := {| consume_key := consume rival |}.

(** *** Statement by statement

    What a call has done: nothing yet, counted, marked with an expiry, or answered; the
    count it was given stays in its frame. *)
Inductive progress : Type :=
  | waiting
  | counted_ (count : number)
  | marked (count : number)
  | finished (count : option number) (answer : result RateLimitDecision).

Definition advance (key : string) (policy : RateLimitPolicy) (p : progress) (s : S) : S * progress :=
  match p with
  | waiting =>
      match incr key s with (s', Ok c) => (s', counted_ c) | (s', Err e) => (s', finished None (Err e)) end
  | counted_ c =>
      match expire key (rl_windowSeconds policy) s with
      | (s', Ok _) => (s', marked c) | (s', Err e) => (s', finished (Some c) (Err e)) end
  | marked c =>
      match ttl key s with
      | (s', Ok reset) => (s', finished (Some c) (decision policy c reset))
      | (s', Err e) => (s', finished (Some c) (Err e)) end
  | finished _ _ => (s, p)
  end.

(** A call with nobody else at work is its three statements. *)
Lemma consume_advances (key : string) (policy : RateLimitPolicy) (s : S) :
  let '(s1, p1) := advance key policy waiting s in
  let '(s2, p2) := advance key policy p1 s1 in
  let '(s3, p3) := advance key policy p2 s2 in
  exists c, p3 = finished c (snd (consume Datatypes.id key policy s)) /\ s3 = fst (consume Datatypes.id key policy s).
Proof.
  unfold advance, consume. run_binds. destruct (incr key s) as [s1 [c|e]]; [|by eexists]. run_binds. unfold Datatypes.id.
  destruct (expire _ _ s1) as [s2 [x|e]]; [|by eexists]. run_binds. destruct (ttl key s2) as [s3 [l|e]]; by eexists.
Qed.
End Limiter.
End RedisRateLimiter.

(** ** [rate-limit.guard.ts] *)
Module RateLimitGuard.
(** The counter, and the [Retry-After] of the reply. *)
Record World {S : Type} : Type := mkWorld { counter : S; retryAfter : option string }.
Arguments World S : clear implicits.
Arguments mkWorld {S}.

(** [String(x)] *)
Definition to_string (x : number) : string :=
  match x with
  | S754_nan => "NaN"
  | S754_infinity false => "Infinity"
  | S754_infinity true => "-Infinity"
  | _ => str (Json.number_text x)
  end.

(** [Math.max(1, Math.ceil(x))] *)
Definition retryAfterSeconds (resetInSeconds : number) : number :=
  match Js.ceil resetInSeconds with
  | Some z => Js.of_Z (Z.max 1 z)
  | None => match resetInSeconds with S754_infinity true => Js.of_Z 1 | x => x end
  end.

Section Guard.
Context {S : Type} {Limiter : RateLimiter S}.
Variable policies : RateLimitTier -> RateLimitPolicy.

Definition on_counter {A} (m : M S A) : M (World S) A := fun w =>
  let (s, r) := m (counter w) in (mkWorld s (retryAfter w), r).

(** The tier of the route, and the account of the request. *)
Definition canActivate (tier : option RateLimitTier) (accountId : option string) : M (World S) bool :=
  match tier, accountId with
  | None, _ => mret true
  | Some _, None => mret true
  | Some tier, Some accountId =>
      let policy := policies tier in
      found ← catch (d ← on_counter (consume_key (accountRateLimitKey tier accountId) policy); mret (Some d)) (fun _ => mret None);
      match found with
      | None =>
          match rl_onStoreFailure policy with
          | allow => mret true
          | refuse => throw (HttpException 503)
          end
      | Some d =>
          if rd_allowed d then mret true
          else
            _ ← modify (fun w => mkWorld (counter w) (Some (to_string (retryAfterSeconds (rd_resetInSeconds d)))));
            throw (HttpException 429)
      end
  end.
End Guard.
End RateLimitGuard.
