(* ===== verification/Worker.v ===== *)
(** * The worker ([apps/worker/src]) and the routes it triggers

    [Module Correlation], the ids that follow a job; [Module Jobs], routing a job to its
    handler ([processor.ts], [envelope.ts], [heartbeat.handler.ts]); [Module Triggers],
    the two handlers that call the API ([internal-trigger.ts],
    [expire-requests.handler.ts], [reconcile-payments.handler.ts]); [Module
    InternalRoutes], the guard and the controllers that answer them; [Module Schedules],
    [schedule-health.ts] and [drain.ts].  The queue is BullMQ's. *)

From Stdlib Require Import Ascii SpecFloat.
From Stdlib Require String.
From S2P Require Import Prelude JsNumber Text Json Http Ledger Cipher BookingStore Bookings Payments PaymentIntent.

#[local] Open Scope string_scope.
#[local] Open Scope list_scope.
#[local] Open Scope Z_scope.

(** ** [packages/observability/src/correlation.ts] *)
Module Correlation.
Definition correlation_char (c : ascii) : bool :=
  let k := code c in
  (65 <=? k) && (k <=? 90) || (97 <=? k) && (k <=? 122) || is_digit c || bool_decide (c = "_"%char) || bool_decide (c = "-"%char).

Definition sanitiseCorrelationId (value : option json) : option string :=
  match value with
  | Some (j_string value) =>
      let trimmed := trim_chars (chars value) in
      if (length trimmed =? 0)%nat || (128 <? length trimmed)%nat then None
      else if forallb correlation_char trimmed then Some (str trimmed) else None
  | _ => None
  end.

Record RequestContext : Type := mkContext { correlationId : string; requestId : option string; userId : option string }.
End Correlation.

(** ** [queues.ts] *)
Module Queues.
Definition MAINTENANCE_QUEUE : string := "maintenance".
Definition HEARTBEAT_JOB : string := "heartbeat".
Definition EXPIRE_REQUESTS_JOB : string := "expire-requests".
Definition EXPIRE_REQUESTS_SCHEDULER : string := "expire-requests-every-15-minutes".
Definition EXPIRE_REQUESTS_EVERY_MS : Z := 15 * 60 * 1000.
Definition RECONCILE_PAYMENTS_JOB : string := "reconcile-payments".
Definition RECONCILE_PAYMENTS_SCHEDULER : string := "reconcile-payments-every-30-minutes".
Definition RECONCILE_PAYMENTS_EVERY_MS : Z := 30 * 60 * 1000.
End Queues.

(** ** [schedule-health.ts], [drain.ts] *)
Module Schedules.
Definition scheduleIsRegistered (schedules : list string) (expectedKey : string) : bool :=
  existsb (fun key => bool_decide (key = expectedKey)) schedules.
Definition allSchedulesRegistered (schedules expectedKeys : list string) : bool :=
  forallb (scheduleIsRegistered schedules) expectedKeys.

Inductive BackendConnectionStatus : Type := initializing | ready | closing | closed.
Definition hasNothingToDrain (s : BackendConnectionStatus) : bool := match s with ready => false | _ => true end.
End Schedules.

(** ** The process *)
Inductive LogLevel : Type := level_debug | level_info | level_warn | level_error.
(** A line: the id of the context it was written in, and the count it carries. *)
Record LogLine : Type := mkLine { ll_correlationId : option string; ll_level : LogLevel; ll_message : string; ll_count : option number }.

Inductive MetricJobName : Type := job_heartbeat | job_expire_requests | job_unknown.
Inductive JobOutcome : Type := job_completed | job_failed.
#[global] Instance JobOutcome_eq_dec : EqDecision JobOutcome.
Proof. solve_decision. Defined.
Record QueueJobSample : Type := mkSample { qs_queue : string; qs_jobName : MetricJobName; qs_outcome : JobOutcome }.

(** Everything else ([S]), the context in force, what was logged and recorded, and the
    source of ids. *)
Record World {S : Type} : Type := mkWorld {
  outside : S;
  context : option Correlation.RequestContext;
  log : list LogLine;
  samples : list QueueJobSample;
  wseq : nat }.
Arguments World S : clear implicits.
Arguments mkWorld {S}.

Section Process.
Context {Ids : UuidSource} {S : Type}.

Definition on_outside {A} (m : M S A) : M (World S) A := fun w =>
  let (s, r) := m (outside w) in (mkWorld s (context w) (log w) (samples w) (wseq w), r).
Definition write (level : LogLevel) (message : string) (count : option number) : M (World S) () := modify (fun w =>
  mkWorld (outside w) (context w)
    (log w ++ [mkLine (Correlation.correlationId <$> context w) level message count]) (samples w) (wseq w)).
Definition recordQueueJob (sample : QueueJobSample) : M (World S) () := modify (fun w =>
  mkWorld (outside w) (context w) (log w) (samples w ++ [sample]) (wseq w)).
(** [newCorrelationId] *)
Definition newCorrelationId : M (World S) string := fun w =>
  (mkWorld (outside w) (context w) (log w) (samples w) (Datatypes.S (wseq w)), Ok (uuid (wseq w))).
(** [AsyncLocalStorage.run]: the context holds while [fn] runs, and no longer. *)
Definition runWithContext {A} (c : Correlation.RequestContext) (fn : M (World S) A) : M (World S) A := fun w =>
  let (w', r) := fn (mkWorld (outside w) (Some c) (log w) (samples w) (wseq w)) in
  (mkWorld (outside w') (context w) (log w') (samples w') (wseq w'), r).
End Process.

(** ** [envelope.ts], [processor.ts], [heartbeat.handler.ts] *)
Module Jobs.
Import Correlation.

Section Jobs.
Context {Ids : UuidSource} {S : Type}.

Definition JobHandler : Type := json -> M (World S) ().

(** A member of a value that may be [undefined], as [data?.correlationId] reads it. *)
Definition optional_member (k : string) (v : option json) : result (option json) :=
  match v with None => Ok None | Some v => Encryption.property k v end.

(** [{ correlationId, payload }] *)
Definition envelope (payload : json) : M (World S) json :=
  current ← gets (fun w => correlationId <$> context w);
  id ← match current with Some id => mret id | None => newCorrelationId end;
  mret (j_object [("correlationId", j_string id); ("payload", payload)]).

Definition runInJobContext {A} (id : option json) (fn : M (World S) A) : M (World S) A :=
  correlation ← match sanitiseCorrelationId id with Some c => mret c | None => newCorrelationId end;
  request ← newCorrelationId;
  runWithContext (mkContext correlation (Some request) None) fn.

Definition labelFor (name : string) : MetricJobName :=
  if bool_decide (name = "heartbeat") then job_heartbeat
  else if bool_decide (name = "expire-requests") then job_expire_requests
  else job_unknown.

Definition recorded (name : string) (outcome : JobOutcome) : M (World S) () :=
  recordQueueJob (mkSample Queues.MAINTENANCE_QUEUE (labelFor name) outcome).

(** [handlers] has no inherited name of a job. *)
Definition process (handlers : string -> option JobHandler) (name : string) (data : json) : M (World S) () :=
  id ← lift (match data with j_null => Ok None | v => Encryption.property "correlationId" v end);
  runInJobContext id
    match handlers name with
    | None => _ ← recorded name job_failed; throw (ForeignError "no handler registered for job")
    | Some handler =>
        _ ← catch (handler data) (fun e => _ ← recorded name job_failed; throw e);
        recorded name job_completed
    end.

(** [createHeartbeatHandler] *)
Definition heartbeat : JobHandler := fun data =>
  payload ← lift (Encryption.property "payload" data);
  source ← lift (match payload with None | Some j_null => Ok None | Some v => Encryption.property "source" v end);
  match source with
  | Some (j_string source) =>
      if (String.length source =? 0)%nat then throw (ForeignError "heartbeat payload is missing a source")
      else write level_info "heartbeat" None
  | _ => throw (ForeignError "heartbeat payload is missing a source")
  end.
End Jobs.
End Jobs.

(** ** [internal-trigger.ts] and the handlers that use it *)
Module Triggers.
Import Jobs.

Definition INTERNAL_TRIGGER_HEADER : string := "x-internal-trigger".
Definition TRIGGER_TIMEOUT_MS : Z := 30000.
Definition EXPIRE_REQUESTS_PATH : string := "/internal/bookings/expire-requests".
Definition RECONCILE_PAYMENTS_PATH : string := "/internal/payments/reconcile".

Section Triggers.
Context {S : Type} {Net : Fetch S}.
(** [new URL(path, base).toString()] *)
Variable url_in : string -> string -> string.
Variable apiBaseUrl secret : string.

(** The answer, as [response.json()] reads it. *)
Definition createInternalTrigger (path describedAs : string) : M (World S) json :=
  response ← catch
    (on_outside (fetch (mkRequest "POST" (url_in path apiBaseUrl) [(INTERNAL_TRIGGER_HEADER, secret)] [] TRIGGER_TIMEOUT_MS)))
    (fun _ =>
       _ ← write level_error (describedAs +:+ " could not reach the API") None;
       throw (ForeignError "failed to reach the API"));
  if negb (response_ok response) then
    _ ← write level_error (describedAs +:+ " was refused") (Some (Js.of_Z (response_status response)));
    throw (ForeignError "the API returned")
  else
    body ← lift (response_text response);
    lift (Json.parse body).

(** [typeof x === 'number' ? x : 0] *)
Definition numberOr (v : option json) : number := match v with Some (j_number n) => n | _ => S754_zero false end.
(** [x === 0] *)
Definition is_zero (x : number) : bool := match x with S754_zero _ => true | _ => false end.
Definition is_true (v : option json) : bool := match v with Some (j_bool true) => true | _ => false end.

(** [createExpireRequestsHandler] *)
Definition expire_requests : JobHandler (S := S) := fun _ =>
  result ← createInternalTrigger EXPIRE_REQUESTS_PATH "expiry trigger";
  expired ← lift (numberOr <$> Encryption.property "expired" result);
  if is_zero expired then write level_debug "expiry sweep found nothing" None
  else
    _ ← write level_info "expiry sweep expired requests" (Some expired);
    reachedLimit ← lift (Encryption.property "reachedLimit" result);
    if is_true reachedLimit then write level_warn "expiry sweep filled its batch; more may remain" (Some expired)
    else mret tt.

(** [createReconcilePaymentsHandler] *)
Definition reconcile_payments : JobHandler (S := S) := fun _ =>
  result ← createInternalTrigger RECONCILE_PAYMENTS_PATH "reconciliation trigger";
  examined ← lift (numberOr <$> Encryption.property "examined" result);
  unreconcilable ← lift (numberOr <$> Encryption.property "unreconcilable" result);
  _ ← (if Js.ltb (S754_zero false) unreconcilable
       then write level_warn "payment attempts could not be reconciled at all" (Some unreconcilable) else mret tt);
  if is_zero examined then write level_debug "reconciliation sweep found nothing to examine" None
  else
    _ ← write level_info "reconciliation sweep examined stale payment attempts" (Some examined);
    reachedLimit ← lift (Encryption.property "reachedLimit" result);
    if is_true reachedLimit then write level_warn "reconciliation sweep filled its batch; more may remain" (Some examined)
    else mret tt.

(** The handlers of [main.ts]. *)
Definition handlers {Ids : UuidSource} (name : string) : option (JobHandler (S := S)) :=
  if bool_decide (name = Queues.HEARTBEAT_JOB) then Some heartbeat
  else if bool_decide (name = Queues.EXPIRE_REQUESTS_JOB) then Some expire_requests
  else if bool_decide (name = Queues.RECONCILE_PAYMENTS_JOB) then Some reconcile_payments
  else None.
End Triggers.
End Triggers.

(** ** [internal-trigger.guard.ts] and the controllers behind it *)
Module InternalRoutes.
Definition INTERNAL_TRIGGER_HEADER : string := "x-internal-trigger".
Definition EXPIRE_REQUESTS_ROUTE : string := "/internal/bookings/expire-requests".
Definition RECONCILE_PAYMENTS_ROUTE : string := "/internal/payments/reconcile".

(** [Buffer.from(s, 'utf8')] *)
Definition utf8_of (s : string) : list Z := List.flat_map Uri.utf8_bytes (chars s).

(** [canActivate]: the secret is compared as bytes, lengths first. *)
Definition canActivate (secret : string) (presented : option string) : result bool :=
  match presented with
  | None => Err UnauthorizedException
  | Some presented =>
      let offered := utf8_of presented in let expected := utf8_of secret in
      if negb (length offered =? length expected)%nat || negb (bool_decide (offered = expected)) then Err UnauthorizedException
      else Ok true
  end.

Definition count_of (n : nat) : json := j_number (Js.of_Z (Z.of_nat n)).

(** [RequestExpiryController.expireRequests] *)
Definition expireRequests {W : Type} (within : BookingDb.Db -> BookingDb.Db) (victim : nat -> bool) : M (Bookings.World W) json :=
  swept ← Bookings.sweep within victim;
  mret (j_object
    [("expired", count_of (length (BookingDb.expired swept)));
     ("bookingIds", j_array ((fun r => j_string (BookingDb.row_id r)) <$> BookingDb.expired swept));
     ("reachedLimit", j_bool (BookingDb.expiry_reachedLimit swept))]).

(** [ReconciliationController.reconcile] *)
Definition reconcile {Ids : UuidSource} {P : Type} {Provider : PaymentIntent.PaymentProvider P}
    (findFeePolicy : string -> option Pricing.Pricing.CategoryFeePolicy) (rival : Payments.World P -> Payments.World P) : M (Payments.World P) json :=
  swept ← Reconciliation.sweep findFeePolicy rival;
  mret (j_object
    [("examined", count_of (Reconciliation.examined swept));
     ("settled", count_of (Reconciliation.settled swept));
     ("stillPending", count_of (Reconciliation.stillPending swept));
     ("unreconcilable", count_of (Reconciliation.unreconcilable swept));
     ("reachedLimit", j_bool (Reconciliation.reachedLimit swept))]).

(** What a route behind the guard answers, as the framework makes it of what the handler
    returns or throws: the headers are those of the request. *)
Definition answered {S : Type} (secret : string) (handler : M S json) (req : FetchRequest) : M S FetchResponse := fun s =>
  match canActivate secret (snd <$> List.find (fun h => bool_decide (fst h = INTERNAL_TRIGGER_HEADER)) (req_headers req)) with
  | Err _ => (s, Ok (mkResponse 401 (Ok "")))
  | Ok _ =>
      match handler s with
      | (s', Ok body) => (s', Ok (mkResponse 200 (Ok (Json.stringify body))))
      | (s', Err _) => (s', Ok (mkResponse 500 (Ok "")))
      end
  end.

(** What the network does with a call: the answer comes back; or the call fails, before the
    API has it (no such host, a refused connection, the time limit) or after (a connection
    that breaks, the time limit again, which the API does not hear of). *)
Inductive Delivery : Type := delivered | never_arrives (e : error) | answer_lost (e : error).

(** The headers as the API reads them: [header_value] is none of a value that [fetch]
    refuses to send. *)
Definition sent (header_value : string -> option string) (req : FetchRequest) : option FetchRequest :=
  headers ← mapM (fun h => pair (fst h) <$> header_value (snd h)) (req_headers req);
  Some (mkRequest (req_method req) (req_url req) headers (req_body req) (req_timeoutMs req)).

(** The API as the worker reaches it, when only the route of the expiry sweep is asked. *)
Definition api {W : Type} (url_in : string -> string -> string) (apiBaseUrl secret : string)
    (header_value : string -> option string) (network : Delivery)
    (within : BookingDb.Db -> BookingDb.Db) (victim : nat -> bool) : Fetch (Bookings.World W) := {|
  fetch req := fun w =>
    match sent header_value req, network with
    | None, _ => (w, Err (ForeignError "invalid header value"))
    | Some _, never_arrives e => (w, Err e)
    | Some req, _ =>
        let '(w', response) :=
          (if bool_decide (req_method req = "POST" /\ req_url req = url_in EXPIRE_REQUESTS_ROUTE apiBaseUrl)
           then answered secret (expireRequests within victim) req
           else mret (mkResponse 404 (Ok ""))) w in
        (w', match network with answer_lost e => Err e | _ => response end)
    end |}.

Lemma utf8_byte_inj (c : ascii) (l : list Z) (d : ascii) (l' : list Z) :
  Uri.utf8_bytes c ++ l = Uri.utf8_bytes d ++ l' -> c = d /\ l = l'.
Proof.
  assert (forall e, 0 <= code e <= 255) as Hr by (intros e; destruct e as [[] [] [] [] [] [] [] []]; vm_compute; split; discriminate).
  assert (forall e e', code e = code e' -> e = e') as Hi.
  { intros e e' H. rewrite <- (ascii_N_embedding e), <- (ascii_N_embedding e'). f_equal. unfold code in H. lia. }
  pose proof (Hr c). pose proof (Hr d). unfold Uri.utf8_bytes.
  pose proof (Z.div_mod (code c) 64 ltac:(lia)). pose proof (Z.mod_pos_bound (code c) 64 ltac:(lia)).
  pose proof (Z.div_mod (code d) 64 ltac:(lia)). pose proof (Z.mod_pos_bound (code d) 64 ltac:(lia)).
  destruct (Z.ltb_spec (code c) 128), (Z.ltb_spec (code d) 128); cbn; intros [=]; subst; try lia; (split; [apply Hi; lia|done]).
Qed.

Lemma utf8_of_inj (s s' : string) : utf8_of s = utf8_of s' -> s = s'.
Proof.
  intros H. apply chars_inj. revert H. unfold utf8_of. generalize (chars s) (chars s'). clear s s'. intros l.
  induction l as [|c l IH]; intros [|d l'] H; [done| | |].
  - exfalso. cbn in H. unfold Uri.utf8_bytes in H. destruct (_ <? _) in H; done.
  - exfalso. cbn in H. unfold Uri.utf8_bytes in H. destruct (_ <? _) in H; done.
  - cbn in H. apply utf8_byte_inj in H as [-> H]. f_equal. by apply IH.
Qed.

Lemma canActivate_iff (secret : string) (presented : option string) :
  canActivate secret presented = if bool_decide (presented = Some secret) then Ok true else Err UnauthorizedException.
Proof.
  unfold canActivate. destruct presented as [p|]; [|by rewrite bool_decide_eq_false_2].
  destruct (decide (p = secret)) as [->|Hne].
  - by rewrite Nat.eqb_refl, !bool_decide_eq_true_2.
  - rewrite (bool_decide_eq_false_2 (utf8_of p = utf8_of secret)) by (intros E; by apply utf8_of_inj in E).
    rewrite (bool_decide_eq_false_2 (Some p = Some secret)) by congruence. by rewrite orb_true_r.
Qed.
End InternalRoutes.
