(* ===== verification/Logging.v ===== *)
(** * What reaches the log ([packages/observability/src/redaction.ts], [logger.ts], [error-tracking.ts])

    Values as they lie in memory, objects by reference, so that a cycle is a cycle.
    [Module Redaction]: the two expressions that find credentials in text, the names of
    members that are never shown, and [redact].  [Module Logger]: a line of the log, and
    the tracker of errors that writes to it.  [Module Hiding]: what differs only in
    secrets is logged alike; redacting returns, whatever the references; logging does
    not throw.  A value with a [toJSON] or a getter of its own is left out. *)

From Stdlib Require Import Ascii.
From Stdlib Require String.
From S2P Require Import Prelude JsNumber Text Json Columns Worker.

#[local] Open Scope string_scope.
#[local] Open Scope list_scope.
#[local] Open Scope Z_scope.

(** ** Values *)

(** What [redact] passes on as it is. *)
Inductive prim : Type :=
  | p_undefined
  | p_function
  | p_bigint (n : Z)
  | p_null
  | p_bool (b : bool)
  | p_number (n : Js.number).

Inductive value : Type :=
  | v_prim (p : prim)
  | v_string (s : string)
  | v_ref (a : N).

(** An [Error], an array, and any other object: its own entries, in order. *)
Inductive object : Type :=
  | o_error (name message : string) (stack : option string) (cause : value)
  | o_array (items : list value)
  | o_record (entries : list (string * value)).

Definition heap : Type := gmap N object.

(** What [redact] builds, which is new throughout. *)
Inductive shown : Type :=
  | t_prim (p : prim)
  | t_string (s : string)
  | t_array (items : list shown)
  | t_object (entries : list (string * shown)).

(** ** [redaction.ts] *)
Module Redaction.

Definition REDACTED : string := "[redacted]".

Definition SENSITIVE_KEY_PATTERNS : list string :=
  ["password"; "passwd"; "secret"; "token"; "apikey"; "api_key"; "authorization"; "auth"; "cookie"; "session";
   "credential"; "privatekey"; "private_key"; "x-internal-trigger";
   "cardnumber"; "card_number"; "cvv"; "cvc"; "pan"; "iban"; "sortcode"; "sort_code"; "accountnumber"; "account_number";
   "nationalinsurance"; "national_insurance"; "nino"; "taxidentifier"; "tax_identifier"; "dateofbirth"; "date_of_birth";
   "dob"; "passportnumber"; "passport_number";
   "latitude"; "longitude"; "coordinates"; "addressline"; "address_line"].

(** [String.prototype.includes] *)
Definition starts_with (p l : text) : bool := match Json.strip_prefix p l with Some _ => true | None => false end.
Fixpoint includes (p l : text) : bool :=
  starts_with p l || match l with [] => false | _ :: l' => includes p l' end.

Definition is_dash (c : ascii) : bool := bool_decide (c ∈ ["-"; "_"]%char).
Definition isSensitiveKey (key : string) : bool :=
  let normalised := List.filter (fun c => negb (is_dash c || is_space c)) (chars (lower key)) in
  existsb (fun pattern => includes (List.filter (fun c => negb (is_dash c)) (chars pattern)) normalised) SENSITIVE_KEY_PATTERNS.

(** *** The two expressions

    In both, what one repetition takes cannot begin what follows it, so that taking the
    most is the only way to match. *)
Fixpoint span (p : ascii -> bool) (l : text) : text * text :=
  match l with
  | c :: l' => if p c then let (a, b) := span p l' in (c :: a, b) else ([], l)
  | [] => ([], [])
  end.

Definition is_letter (c : ascii) : bool :=
  (65 <=? code c) && (code c <=? 90) || (97 <=? code c) && (code c <=? 122).
(** [\w] *)
Definition is_word (c : ascii) : bool := is_letter c || is_digit c || bool_decide (c = "_"%char).
(** [\b], before a character of a word. *)
Definition at_word (prev : option ascii) : bool := match prev with Some c => negb (is_word c) | None => true end.

Definition scheme_char (c : ascii) : bool := is_letter c || is_digit c || bool_decide (c ∈ ["+"; "."; "-"]%char).
Definition user_char (c : ascii) : bool := negb (bool_decide (c ∈ [":"; "/"; "@"]%char) || is_space c).
Definition password_char (c : ascii) : bool := negb (bool_decide (c = "@"%char) || is_space c).

Definition slashes : text := chars "://".
Definition redacted : text := chars REDACTED.

(** [URL_CREDENTIAL_PATTERN]: what is put in place of a match, and what is left after. *)
Definition url_credential (prev : option ascii) (l : text) : option (text * text) :=
  if negb (at_word prev && match l with c :: _ => is_letter c | [] => false end) then None
  else
    let (scheme, r1) := span scheme_char l in
    r2 ← Json.strip_prefix slashes r1;
    let (user, r3) := span user_char r2 in
    r4 ← Json.strip_prefix [":"%char] r3;
    let (password, r5) := span password_char r4 in
    rest ← Json.strip_prefix ["@"%char] r5;
    if bool_decide (user = []) || bool_decide (password = []) then None
    else Some (scheme ++ slashes ++ user ++ ":"%char :: redacted ++ ["@"%char], rest).

Definition token_char (c : ascii) : bool := is_word c || bool_decide (c ∈ ["-"; "."; "~"; "+"; "/"]%char).
Definition is_equals (c : ascii) : bool := bool_decide (c = "="%char).

(** A word in any case: as it is written, and what follows. *)
Definition any_case (word : string) (l : text) : option (text * text) :=
  let written := take (String.length word) l in
  if bool_decide (lower_char <$> written = chars word) then Some (written, drop (String.length word) l) else None.
(** [BEARER_PATTERN] *)
Definition bearer (prev : option ascii) (l : text) : option (text * text) :=
  if negb (at_word prev) then None
  else
    '(scheme, r1) ← match any_case "bearer" l with Some x => Some x | None => any_case "basic" l end;
    let (spaces, r2) := span is_space r1 in
    let (token, r3) := span token_char r2 in
    if bool_decide (spaces = []) || bool_decide (token = []) then None
    else Some (scheme ++ " "%char :: redacted, snd (span is_equals r3)).

(** [String.prototype.replace] with a global expression: [skip] counts what is left of
    the last match. *)
Fixpoint replaced (m : option ascii -> text -> option (text * text)) (skip : nat) (prev : option ascii) (l : text) : text :=
  match l with
  | [] => []
  | c :: l' =>
      match skip with
      | S skip' => replaced m skip' (Some c) l'
      | O => match m prev l with
             | Some (out, rest) => out ++ replaced m (length l' - length rest) (Some c) l'
             | None => c :: replaced m 0 (Some c) l'
             end
      end
  end.

Definition redact_text (l : text) : text := replaced bearer 0 None (replaced url_credential 0 None l).
Definition redactString (value : string) : string := str (redact_text (chars value)).

(** *** [redact]

    [seen] is threaded through, as the one [WeakSet] of a call is. *)
Section Traverse.
Context {A B S : Type} (f : S -> A -> option (B * S)).
Fixpoint traverse (s : S) (l : list A) : option (list B * S) :=
  match l with
  | [] => Some ([], s)
  | x :: l' => '(y, s1) ← f s x; '(ys, s2) ← traverse s1 l'; Some (y :: ys, s2)
  end.
End Traverse.

(** A member; an assignment to [__proto__] makes none. *)
Definition redact_entry (redact : gset N -> value -> option (shown * gset N)) (seen : gset N) (e : string * value) :
    option ((string * shown) * gset N) :=
  if isSensitiveKey e.1 then Some ((e.1, t_string REDACTED), seen)
  else '(t, seen') ← redact seen e.2; Some ((e.1, t), seen').
Definition own (entries : list (string * shown)) : list (string * shown) :=
  List.filter (fun e => negb (bool_decide (e.1 = "__proto__"))) entries.

Definition redact_entries (redact : gset N -> value -> option (shown * gset N)) (seen : gset N) (entries : list (string * value)) :
    option (list (string * shown) * gset N) :=
  '(l, seen') ← traverse (redact_entry redact) seen entries; Some (own l, seen').

Definition redact_object (redact : gset N -> value -> option (shown * gset N)) (seen : gset N) (o : object) : option (shown * gset N) :=
  match o with
  | o_error name message stack cause =>
      let described := [("name", t_string name); ("message", t_string (redactString message));
                        ("stack", match stack with
                                  | Some s => if bool_decide (s = "") then t_prim p_undefined else t_string (redactString s)
                                  | None => t_prim p_undefined
                                  end)] in
      match cause with
      | v_prim p_undefined => Some (t_object described, seen)
      | _ => '(t, seen') ← redact seen cause; Some (t_object (described ++ [("cause", t)]), seen')
      end
  | o_array items => '(l, seen') ← traverse redact seen items; Some (t_array l, seen')
  | o_record entries => '(l, seen') ← redact_entries redact seen entries; Some (t_object l, seen')
  end.

Fixpoint redact_at (fuel : nat) (h : heap) (seen : gset N) (v : value) : option (shown * gset N) :=
  match v with
  | v_prim p => Some (t_prim p, seen)
  | v_string s => Some (t_string (redactString s), seen)
  | v_ref a =>
      if bool_decide (a ∈ seen) then Some (t_string "[circular]", seen)
      else match fuel with
           | O => None
           | S fuel' => redact_object (redact_at fuel' h) ({[a]} ∪ seen) (default (o_record []) (h !! a))
           end
  end.

(** An object more than there are. *)
Definition redact (h : heap) (v : value) : option shown := fst <$> redact_at (S (size h)) h ∅ v.
End Redaction.

(** ** [logger.ts] and [error-tracking.ts] *)
Module Logger.
Import Redaction Correlation.

Definition level_name (l : LogLevel) : string :=
  match l with level_debug => "debug" | level_info => "info" | level_warn => "warn" | level_error => "error" end.
Definition LEVEL_RANK (l : LogLevel) : Z :=
  match l with level_debug => 10 | level_info => 20 | level_warn => 30 | level_error => 40 end.

(** *** Spreading members into an object

    The last value of a name, in the first place it had; indices come before names. *)
Section Members.
Context {A : Type}.
Fixpoint set_member (k : string) (v : A) (l : list (string * A)) : list (string * A) :=
  match l with
  | [] => [(k, v)]
  | e :: l' => if bool_decide (e.1 = k) then (k, v) :: l' else e :: set_member k v l'
  end.
Fixpoint place (e : string * A) (l : list (string * A)) : list (string * A) :=
  match l with
  | [] => [e]
  | x :: l' => if number_of (chars e.1) <=? number_of (chars x.1) then e :: l else x :: place e l'
  end.
Definition key_order (l : list (string * A)) : list (string * A) :=
  foldr place [] (List.filter (fun e => Json.is_index e.1) l) ++ List.filter (fun e => negb (Json.is_index e.1)) l.
Definition spread (a b : list (string * A)) : list (string * A) :=
  key_order (fold_left (fun l e => set_member e.1 e.2 l) b a).
End Members.

(** *** [JSON.stringify] *)
Fixpoint has_bigint (t : shown) : bool :=
  match t with
  | t_prim (p_bigint _) => true
  | t_prim _ | t_string _ => false
  | t_array l => existsb has_bigint l
  | t_object l => existsb (fun e => has_bigint e.2) l
  end.
(** What is left out of an object is [null] in an array. *)
Fixpoint json_of (t : shown) : option json :=
  match t with
  | t_prim p_null => Some j_null
  | t_prim (p_bool b) => Some (j_bool b)
  | t_prim (p_number n) => Some (j_number n)
  | t_prim _ => None
  | t_string s => Some (j_string s)
  | t_array l => Some (j_array ((fun x => default j_null (json_of x)) <$> l))
  | t_object l => Some (j_object (omap (fun e => (fun j => (e.1, j)) <$> json_of e.2) l))
  end.
Definition stringify (t : list (string * shown)) : result string :=
  if has_bigint (t_object t) then Err (ForeignError "TypeError")
  else Ok (Json.stringify (default j_null (json_of (t_object t)))).

(** *** A line *)
Record LoggerOptions : Type := mkOptions {
  lo_level : option LogLevel; lo_service : string; lo_base : list (string * value) }.

(** An object that spreads into a line is new, so nothing refers to it. *)
Definition redact_fields (h : heap) (fields : list (string * value)) : list (string * shown) :=
  default [] (fst <$> redact_entries (redact_at (S (size h)) h) ∅ fields).

Definition given (k : string) (v : option string) : list (string * shown) :=
  match v with Some s => [(k, t_string s)] | None => [] end.

Definition held (k : string) (l : list (string * shown)) : shown :=
  default (t_prim p_undefined) (snd <$> List.find (fun e => bool_decide (e.1 = k)) l).
Definition fallback (record : list (string * shown)) : list (string * shown) :=
  ((fun k => (k, held k record)) <$> ["time"; "level"; "service"; "message"; "correlationId"]) ++
  [("logError", t_string "fields could not be serialised")].

Definition record_of (options : LoggerOptions) (time : string) (context : option RequestContext) (level : LogLevel) (message : string)
    (redacted : list (string * shown)) : list (string * shown) :=
  spread ([("time", t_string time); ("level", t_string (level_name level));
           ("service", t_string (lo_service options)); ("message", t_string message)] ++
          given "correlationId" (correlationId <$> context) ++
          given "requestId" (context ≫= requestId) ++ given "userId" (context ≫= userId)) redacted.

(** [emit]: what the sink is given, if anything, at the time [time]. *)
Definition emit (options : LoggerOptions) (time : string) (context : option RequestContext) (h : heap)
    (level : LogLevel) (message : string) (fields : list (string * value)) : result (option string) :=
  if LEVEL_RANK level <? LEVEL_RANK (default level_info (lo_level options)) then Ok None
  else
    let record := record_of options time context level message (redact_fields h (spread (lo_base options) fields)) in
    match stringify record with
    | Ok line => Ok (Some line)
    | Err _ => Some <$> stringify (fallback record)
    end.

Definition child (options : LoggerOptions) (fields : list (string * value)) : LoggerOptions :=
  mkOptions (lo_level options) (lo_service options) (spread (lo_base options) fields).

(** *** [createNoopErrorTracker], [installProcessHandlers] *)
Definition maybe (s : option string) : value := match s with Some s => v_string s | None => v_prim p_undefined end.
Section Tracker.
Variables (options : LoggerOptions) (time : string) (context : option RequestContext) (h : heap).
Definition captureException (error : value) (operation severity : option string) (extra : list (string * value)) : result (option string) :=
  emit options time context h level_error "exception captured"
    (spread [("error", error); ("operation", maybe operation); ("severity", v_string (default "error" severity))] extra).
Definition captureMessage (message : string) (operation severity : option string) (extra : list (string * value)) : result (option string) :=
  emit options time context h level_warn "message captured"
    (spread [("capturedMessage", v_string message); ("operation", maybe operation); ("severity", v_string (default "warning" severity))] extra).

(** What [onFatal] is told after. *)
Definition onUnhandledRejection (reason : value) : result (list (option string)) :=
  a ← emit options time context h level_error "unhandled promise rejection" [("error", reason)];
  b ← captureException reason (Some "unhandledRejection") (Some "fatal") [];
  Ok [a; b].
Definition onUncaughtException (error : value) : result (list (option string)) :=
  a ← emit options time context h level_error "uncaught exception" [("error", error)];
  b ← captureException error (Some "uncaughtException") (Some "fatal") [];
  Ok [a; b].
End Tracker.
End Logger.

(** ** Credentials in text *)
Module Hiding.
Import Redaction.

Lemma strip_prefix_app (p l b : text) : (forall c, head b = Some c -> c ∉ p) ->
  Json.strip_prefix p (l ++ b) = (fun r => r ++ b) <$> Json.strip_prefix p l.
Proof.
  intros Hb. revert l. induction p as [|x p IH]; intros l; [by destruct l|]. destruct l as [|y l]; cbn.
  - destruct b as [|y b]; [done|]. cbn. destruct (ascii_dec x y) as [->|]; [|done]. exfalso. by apply (Hb y); [|left].
  - destruct (ascii_dec x y); [|done]. apply IH. intros c Hc Hin. apply (Hb c Hc). by right.
Qed.

Lemma strip_prefix_Some (p l r : text) : Json.strip_prefix p l = Some r -> l = p ++ r.
Proof.
  revert l. induction p as [|x p IH]; intros [|y l]; cbn; try congruence. destruct (ascii_dec x y) as [->|]; [|done].
  intros H. by rewrite (IH _ H).
Qed.

Lemma span_spec (p : ascii -> bool) (l a b : text) : span p l = (a, b) -> l = a ++ b /\ forallb p a = true.
Proof.
  revert a b. induction l as [|c l IH]; intros a b; cbn; [by intros [= <- <-]|]. destruct (p c) eqn:Hc; [|by intros [= <- <-]].
  destruct (span p l) as [x y]. intros [= <- <-]. destruct (IH x y eq_refl) as [-> H]. cbn. by rewrite Hc, H.
Qed.

(** A run over two pieces stops in the first or takes it whole. *)
Lemma span_app (p : ascii -> bool) (a b : text) :
  span p (a ++ b) = (a ++ fst (span p b), snd (span p b)) /\ span p a = (a, []) \/
  exists x c y, span p a = (x, c :: y) /\ p c = false /\ span p (a ++ b) = (x, c :: y ++ b).
Proof.
  induction a as [|c a IH]; cbn; [left; by destruct (span p b)|]. destruct (p c) eqn:Hc; [|right; by exists [], c, a].
  destruct IH as [[-> ->]|(x & d & y & -> & Hd & ->)]; [by left|right; by exists (c :: x), d, y].
Qed.

Lemma span_run (p : ascii -> bool) (a b : text) : forallb p a = true -> (forall c, head b = Some c -> p c = false) -> span p (a ++ b) = (a, b).
Proof.
  intros Ha Hb. induction a as [|c a IH]; cbn in *.
  - destruct b as [|c b]; [done|]. cbn. by rewrite (Hb c).
  - apply andb_true_iff in Ha as [-> Ha]. by rewrite (IH Ha).
Qed.

(** *** What a replacement leaves *)
Definition consumes (m : option ascii -> text -> option (text * text)) : Prop :=
  forall prev l out rest, m prev l = Some (out, rest) -> exists c x, l = c :: x ++ rest.

Section Replaced.
Variable m : option ascii -> text -> option (text * text).
Hypothesis forwards : consumes m.

Lemma replaced_skip (a l : text) (prev : option ascii) :
  replaced m (length a) prev (a ++ l) = replaced m 0 (match last a with Some c => Some c | None => prev end) l.
Proof.
  revert prev. induction a as [|c a IH]; intros prev; [done|]. cbn [length app replaced]. rewrite IH.
  rewrite last_cons. by destruct (last a).
Qed.

Lemma replaced_match (prev : option ascii) (c : ascii) (x rest out : text) : m prev (c :: x ++ rest) = Some (out, rest) ->
  replaced m 0 prev (c :: x ++ rest) = out ++ replaced m 0 (match last x with Some d => Some d | None => Some c end) rest.
Proof.
  intros H. cbn [replaced]. rewrite H. f_equal. rewrite length_app. replace (length x + length rest - length rest)%nat with (length x) by lia.
  apply replaced_skip.
Qed.

Lemma replaced_none (prev : option ascii) (c : ascii) (l : text) : m prev (c :: l) = None -> replaced m 0 prev (c :: l) = c :: replaced m 0 (Some c) l.
Proof. intros H. cbn [replaced]. by rewrite H. Qed.

(** Where no match goes past [c]. *)
Lemma replaced_apart (c : ascii) (b : text) :
  (forall prev, m prev [] = None) ->
  (forall prev a, m prev (a ++ c :: b) = (fun o => (o.1, o.2 ++ c :: b)) <$> m prev a) ->
  forall prev a, replaced m 0 prev (a ++ c :: b) = replaced m 0 prev a ++ c :: replaced m 0 (Some c) b.
Proof.
  intros Hnil Hm prev a. remember (length a) as n eqn:Hn. revert prev a Hn. induction (lt_wf n) as [n _ IH]. intros prev a ->.
  destruct a as [|d a].
  - cbn [app]. rewrite replaced_none; [done|]. pose proof (Hm prev []) as H. cbn [app] in H. by rewrite H, Hnil.
  - pose proof (Hm prev (d :: a)) as H. cbn [app] in *. destruct (m prev (d :: a)) as [[out rest]|] eqn:E; cbn in H.
    + destruct (forwards _ _ _ _ E) as (d' & x & [= <- ->]). rewrite <- app_assoc in H |- *.
      rewrite (replaced_match _ _ _ _ _ H), (replaced_match _ _ _ _ _ E), <- app_assoc. f_equal. eapply IH; [|done]. cbn. rewrite length_app. lia.
    + rewrite (replaced_none _ _ _ H), (replaced_none _ _ _ E). cbn. f_equal. eapply IH; [|done]. cbn. lia.
Qed.

(** Where no match that begins in [l] looks past its end. *)
Lemma replaced_cut (c : ascii) (b : text) :
  (forall prev l, last l = Some c -> m prev (l ++ b) = (fun o => (o.1, o.2 ++ b)) <$> m prev l) ->
  forall prev l, last l = Some c -> replaced m 0 prev (l ++ b) = replaced m 0 prev l ++ replaced m 0 (Some c) b.
Proof.
  intros Hm prev l. remember (length l) as n eqn:Hn. revert prev l Hn. induction (lt_wf n) as [n _ IH]. intros prev l -> Hl.
  destruct l as [|d l]; [done|]. pose proof (Hm prev _ Hl) as H. destruct (m prev (d :: l)) as [[out rest]|] eqn:E; cbn [fmap option_fmap option_map fst snd] in H.
  - destruct (forwards _ _ _ _ E) as (d' & x & [= <- ->]). change ((d :: x ++ rest) ++ b) with (d :: (x ++ rest) ++ b) in H |- *.
    rewrite <- app_assoc in H |- *. rewrite (replaced_match _ _ _ _ _ H), (replaced_match _ _ _ _ _ E), <- app_assoc. f_equal.
    destruct rest as [|e rest].
    + cbn [app replaced]. rewrite app_nil_r, last_cons in Hl. by destruct (last x); injection Hl as ->.
    + eapply IH; [|done|]; [cbn; rewrite length_app; cbn; lia|]. change (d :: x ++ e :: rest) with ((d :: x) ++ e :: rest) in Hl. by rewrite last_app_cons in Hl.
  - rewrite (replaced_none _ _ _ E). change ((d :: l) ++ b) with (d :: (l ++ b)) in H |- *. rewrite (replaced_none _ _ _ H). cbn. f_equal. destruct l as [|e l]; [by injection Hl as ->|].
    eapply IH; [|done|done]. cbn. lia.
Qed.
End Replaced.

(** *** A password in an address *)
Lemma bind_Some_eq {A B} (f : A -> option B) (a : A) : mbind f (Some a) = f a.
Proof. done. Qed.
Lemma bind_None_eq {A B} (f : A -> option B) : mbind f None = None.
Proof. done. Qed.

Lemma url_forwards : consumes url_credential.
Proof.
  intros prev l out rest. unfold url_credential. destruct (negb _) eqn:Hc; [done|].
  destruct (span scheme_char l) as [scheme r1] eqn:E1. destruct (Json.strip_prefix slashes r1) as [r2|] eqn:E2; [|done].
  rewrite bind_Some_eq. destruct (span user_char r2) as [user r3] eqn:E3. destruct (Json.strip_prefix [":"%char] r3) as [r4|] eqn:E4; [|done].
  rewrite bind_Some_eq. destruct (span password_char r4) as [pw r5] eqn:E5. destruct (Json.strip_prefix ["@"%char] r5) as [r6|] eqn:E6; [|done].
  rewrite bind_Some_eq. destruct (_ || _); [done|]. intros [= _ <-].
  apply span_spec in E1 as [-> _], E3 as [-> _], E5 as [-> _]. apply strip_prefix_Some in E2 as ->, E4 as ->, E6 as ->.
  destruct scheme as [|c scheme].
  - cbn in Hc. by rewrite andb_false_r in Hc.
  - exists c, (scheme ++ slashes ++ user ++ ":"%char :: pw ++ ["@"%char]). cbn. by rewrite <- ?app_assoc; cbn; rewrite <- ?app_assoc; cbn; rewrite <- ?app_assoc.
Qed.

(** Nothing of a match is white space. *)
Lemma url_space (c : ascii) (b : text) : is_space c = true -> forall prev a,
  url_credential prev (a ++ c :: b) = (fun o => (o.1, o.2 ++ c :: b)) <$> url_credential prev a.
Proof.
  intros Hc prev a.
  assert (scheme_char c = false /\ user_char c = false /\ password_char c = false /\ is_letter c = false) as (H1 & H2 & H3 & H4)
    by (clear -Hc; destruct c as [[] [] [] [] [] [] [] []]; vm_compute in Hc |- *; done).
  assert (forall p, c ∉ p -> forall l, Json.strip_prefix p (l ++ c :: b) = (fun r => r ++ c :: b) <$> Json.strip_prefix p l) as Hs
    by (intros p Hp l; apply strip_prefix_app; cbn; by intros d [= <-]).
  assert (c ∉ slashes /\ c ∉ [":"%char] /\ c ∉ ["@"%char]) as (Hs1 & Hs2 & Hs3)
    by (clear -Hc; destruct c as [[] [] [] [] [] [] [] []]; vm_compute in Hc; try discriminate Hc; split_and!; by apply (bool_decide_unpack _)).
  assert (forall p l, p c = false -> span p (l ++ c :: b) = (fst (span p l), snd (span p l) ++ c :: b)) as Hspan.
  { intros p l Hp. destruct (span_app p l (c :: b)) as [[-> ->]|(x & d & y & -> & _ & ->)]; [cbn; rewrite Hp; by rewrite app_nil_r|done]. }
  unfold url_credential. destruct a as [|a0 a]; [cbn [app]; by rewrite H4, andb_false_r|].
  change ((a0 :: a) ++ c :: b) with (a0 :: (a ++ c :: b)) at 1. cbv match. destruct (negb _); [done|].
  rewrite Hspan by done. destruct (span scheme_char (a0 :: a)) as [scheme r1]. cbn [fst snd]. rewrite Hs by done.
  destruct (Json.strip_prefix slashes r1) as [r2|]; [|done]. cbn [fmap option_fmap option_map]. rewrite !bind_Some_eq.
  rewrite Hspan by done. destruct (span user_char r2) as [user r3]. cbn [fst snd]. rewrite Hs by done.
  destruct (Json.strip_prefix _ r3) as [r4|]; [|done]. cbn [fmap option_fmap option_map]. rewrite !bind_Some_eq.
  rewrite Hspan by done. destruct (span password_char r4) as [pw r5]. cbn [fst snd]. rewrite Hs by done.
  destruct (Json.strip_prefix _ r5) as [r6|]; [|done]. cbn [fmap option_fmap option_map]. rewrite !bind_Some_eq. by destruct (_ || _).
Qed.

Definition passes (p : ascii -> bool) (l : text) : Prop := forallb p l = true /\ l <> [].

Section Password.
Variables scheme user rest : text.
Hypothesis scheme_runs : forallb scheme_char scheme = true.
Hypothesis scheme_starts : exists c s, scheme = c :: s /\ is_letter c = true.
Hypothesis user_runs : passes user_char user.

(** The address, from its scheme on. *)
Definition address (pw : text) : text := scheme ++ slashes ++ user ++ ":"%char :: pw ++ "@"%char :: rest.

Lemma scheme_user : forallb user_char scheme = true.
Proof.
  revert scheme_runs. clear. induction scheme as [|c s IH]; [done|]. cbn [forallb]. intros [Hc Hs]%andb_true_iff. apply andb_true_iff. split; [|auto].
  clear -Hc. destruct c as [[] [] [] [] [] [] [] []]; vm_compute in Hc |- *; done.
Qed.
Lemma user_password (l : text) : forallb user_char l = true -> forallb password_char l = true.
Proof.
  induction l as [|c s IH]; [done|]. cbn [forallb]. intros [Hc Hs]%andb_true_iff. apply andb_true_iff. split; [|auto].
  clear -Hc. destruct c as [[] [] [] [] [] [] [] []]; vm_compute in Hc |- *; done.
Qed.

Lemma address_scheme (pw : text) : span scheme_char (address pw) = (scheme, slashes ++ user ++ ":"%char :: pw ++ "@"%char :: rest).
Proof. apply span_run; [done|]. by intros c [= <-]. Qed.
Lemma address_user (pw : text) : span user_char (address pw) = (scheme, slashes ++ user ++ ":"%char :: pw ++ "@"%char :: rest).
Proof. apply span_run; [apply scheme_user|]. by intros c [= <-]. Qed.
Lemma user_of (pw : text) : span user_char (user ++ ":"%char :: pw ++ "@"%char :: rest) = (user, ":"%char :: pw ++ "@"%char :: rest).
Proof. apply span_run; [apply user_runs|]. by intros c [= <-]. Qed.
Lemma password_of (a pw : text) : forallb password_char a = true -> forallb password_char pw = true ->
  span password_char (a ++ pw ++ "@"%char :: rest) = (a ++ pw, "@"%char :: rest).
Proof. intros Ha Hpw. rewrite app_assoc. apply span_run; [by rewrite forallb_app, Ha, Hpw|]. by intros c [= <-]. Qed.

(** Everything but the password, up to it. *)
Definition before_password : text := scheme ++ slashes ++ user ++ [":"%char].
Lemma address_eq (pw : text) : address pw = before_password ++ pw ++ "@"%char :: rest.
Proof. unfold address, before_password. by rewrite <- !app_assoc. Qed.
Lemma before_runs : forallb password_char before_password = true.
Proof.
  unfold before_password. rewrite !forallb_app, (user_password _ scheme_user), (user_password user) by apply user_runs. done.
Qed.

Lemma address_strip (p l pw : text) : p = slashes \/ p = [":"%char] \/ p = ["@"%char] ->
  Json.strip_prefix p (l ++ address pw) = (fun r => r ++ address pw) <$> Json.strip_prefix p l.
Proof.
  intros Hp. apply strip_prefix_app. unfold address. destruct scheme_starts as (c & s & -> & Hc). cbn [app head]. intros d [= <-] Hin.
  clear -Hp Hc Hin. destruct c as [[] [] [] [] [] [] [] []]; vm_compute in Hc; try discriminate Hc;
    destruct Hp as [->|[->| ->]]; revert Hin; by apply (bool_decide_unpack _).
Qed.

Lemma span_over (p : ascii -> bool) (a b : text) :
  span p (a ++ b) = match span p a with (x, []) => (x ++ fst (span p b), snd (span p b)) | (x, y) => (x, y ++ b) end.
Proof. by destruct (span_app p a b) as [[-> ->]|(x & c & y & -> & _ & ->)]. Qed.

(** From where the password is looked for. *)
Lemma password_reaches (l : text) (pw : text) : passes password_char pw ->
  let '(w, r) := span password_char (l ++ address pw) in
  w <> [] /\ Json.strip_prefix ["@"%char] r = Some rest /\ span password_char l = (l, []) \/
  exists r', span password_char l = (w, r') /\ r' <> [] /\ r = r' ++ address pw.
Proof.
  intros [Hpw Hne]. rewrite span_over. destruct (span password_char l) as [w r'] eqn:E. destruct r' as [|c r'].
  - left. rewrite address_eq. pose proof (password_of before_password pw before_runs Hpw) as H. rewrite H. cbn [fst snd].
    apply span_spec in E as [-> _]. rewrite app_nil_r. split_and!; [|done|done]. destruct pw; [done|]. intros H0. by destruct w, before_password.
  - right. by exists (c :: r').
Qed.

Definition reaches (prev : option ascii) (pre : text) : Prop :=
  (forall pw, passes password_char pw -> url_credential prev (pre ++ address pw) = None) \/
  (exists out x p, pre = x ++ "@"%char :: p /\
     forall pw, passes password_char pw -> url_credential prev (pre ++ address pw) = Some (out, p ++ address pw)) \/
  (exists out, forall pw, passes password_char pw -> url_credential prev (pre ++ address pw) = Some (out, rest)).

(** The same from where the user is looked for. *)
Lemma user_reaches (prev : option ascii) (l x r2 : text) : l = x ++ slashes ++ r2 ->
  (forall pw, url_credential prev (l ++ address pw) =
     let (user', r3) := span user_char (r2 ++ address pw) in
     r4 ← Json.strip_prefix [":"%char] r3;
     let (password, r5) := span password_char r4 in
     rest' ← Json.strip_prefix ["@"%char] r5;
     if bool_decide (user' = []) || bool_decide (password = []) then None
     else Some (x ++ slashes ++ user' ++ ":"%char :: redacted ++ ["@"%char], rest')) ->
  reaches prev l.
Proof.
  intros El Hurl. unfold reaches. destruct (span user_char r2) as [u r3] eqn:E3. destruct r3 as [|d r3].
  - (* the user runs into the scheme of the address *)
    right. right. eexists. intros pw Hpw. rewrite Hurl, span_over, E3, address_user. cbn [fst snd].
    change (Json.strip_prefix [":"%char] (slashes ++ ?v)) with (Some (chars "//" ++ v)). rewrite bind_Some_eq.
    assert (forallb password_char (chars "//" ++ user ++ [":"%char]) = true) as Hrun
      by (rewrite !forallb_app, (user_password user) by apply user_runs; done).
    replace (chars "//" ++ user ++ ":"%char :: pw ++ "@"%char :: rest) with ((chars "//" ++ user ++ [":"%char]) ++ pw ++ "@"%char :: rest)
      by (rewrite <- !app_assoc; done).
    rewrite (password_of _ _ Hrun) by apply Hpw. change (Json.strip_prefix ["@"%char] ("@"%char :: ?v)) with (Some v). rewrite bind_Some_eq.
    rewrite !bool_decide_eq_false_2; [reflexivity|by destruct user|].
    destruct scheme_starts as (c & s & -> & _). by destruct u.
  - destruct (Json.strip_prefix [":"%char] (d :: r3)) as [r4|] eqn:E4.
    2:{ left. intros pw _. by rewrite Hurl, span_over, E3, address_strip, E4 by auto. }
    destruct (decide (u = [])) as [->|Hu].
    { left. intros pw _. rewrite Hurl, span_over, E3, address_strip, E4 by auto. cbn [fmap option_fmap option_map]. rewrite bind_Some_eq.
      destruct (span password_char _) as [w r5]. destruct (Json.strip_prefix _ r5); [|done]. rewrite bind_Some_eq. by rewrite bool_decide_eq_true_2. }
    assert (forall pw, url_credential prev (l ++ address pw) =
              let (w, r5) := span password_char (r4 ++ address pw) in
              rest' ← Json.strip_prefix ["@"%char] r5;
              if bool_decide (w = []) then None else Some (x ++ slashes ++ u ++ ":"%char :: redacted ++ ["@"%char], rest')) as Hurl'.
    { intros pw. rewrite Hurl, span_over, E3, address_strip, E4 by auto. cbn [fmap option_fmap option_map]. rewrite bind_Some_eq.
      by rewrite (bool_decide_eq_false_2 (u = [])). }
    destruct (span password_char r4) as [w r5] eqn:E5. destruct r5 as [|e r5].
    + right. right. eexists. intros pw Hpw. rewrite Hurl'. pose proof (password_reaches r4 pw Hpw) as H.
      destruct (span password_char (r4 ++ address pw)) as [w' r']. destruct H as [(Hw & -> & _)|(r0 & H & Hr & _)]; [|congruence].
      rewrite bind_Some_eq. by rewrite bool_decide_eq_false_2.
    + destruct (Json.strip_prefix ["@"%char] (e :: r5)) as [r6|] eqn:E6.
      2:{ left. intros pw _. by rewrite Hurl', span_over, E5, address_strip, E6 by auto. }
      destruct (decide (w = [])) as [->|Hw].
      { left. intros pw _. rewrite Hurl', span_over, E5, address_strip, E6 by auto. done. }
      right. left. exists (x ++ slashes ++ u ++ ":"%char :: redacted ++ ["@"%char]), (x ++ slashes ++ u ++ ":"%char :: w), r6. split.
      * apply span_spec in E3 as [E3 _], E5 as [E5 _]. apply strip_prefix_Some in E4, E6. rewrite El, E3, E4, E5, E6. cbn.
        rewrite <- ?app_assoc. cbn. rewrite <- ?app_assoc. cbn. by rewrite <- ?app_assoc.
      * intros pw _. rewrite Hurl', span_over, E5, address_strip, E6 by auto. cbn [fmap option_fmap option_map]. rewrite bind_Some_eq.
        by rewrite bool_decide_eq_false_2.
Qed.

(** A match that begins before the address ends before it, or takes it up to the end
    of its password, or there is none; which of these it is, and what it puts in
    place, is the same whatever the password. *)
Lemma url_reaches (prev : option ascii) (pre : text) : pre <> [] ->
  reaches prev pre.
Proof.
  intros Hpre. destruct pre as [|c0 pre]; [done|]. clear Hpre.
  destruct (at_word prev && is_letter c0) eqn:Hc; [|left; intros pw _; unfold url_credential; cbn [app]; by rewrite Hc].
  assert (forall pw, at_word prev && match (c0 :: pre) ++ address pw with c :: _ => is_letter c | [] => false end = true) as Hhead by (intros pw; exact Hc).
  set (l := c0 :: pre) in *. clearbody l.
  destruct (span scheme_char l) as [x r] eqn:E1. destruct r as [|d r].
  - (* the scheme runs into that of the address *)
    right. right. eexists. intros pw Hpw. unfold url_credential. rewrite Hhead. cbn [negb]. rewrite span_over, E1, address_scheme. cbn [fst snd].
    change (Json.strip_prefix slashes (slashes ++ ?u)) with (Some u). rewrite bind_Some_eq, user_of.
    change (Json.strip_prefix [":"%char] (":"%char :: ?u)) with (Some u). rewrite bind_Some_eq.
    pose proof (password_of [] pw eq_refl (proj1 Hpw)) as H. cbn [app] in H. rewrite H.
    change (Json.strip_prefix ["@"%char] ("@"%char :: ?u)) with (Some u). rewrite bind_Some_eq.
    rewrite !bool_decide_eq_false_2 by (apply Hpw || apply user_runs). done.
  - destruct (Json.strip_prefix slashes (d :: r)) as [r2|] eqn:E2.
    2:{ left. intros pw Hpw. unfold url_credential. rewrite Hhead. cbn [negb]. rewrite span_over, E1, address_strip, E2 by auto. done. }
    assert (l = x ++ slashes ++ r2) as El by (apply span_spec in E1 as [-> _]; by rewrite (strip_prefix_Some _ _ _ E2)).
    assert (forall pw, url_credential prev (l ++ address pw) =
              let (user', r3) := span user_char (r2 ++ address pw) in
              r4 ← Json.strip_prefix [":"%char] r3;
              let (password, r5) := span password_char r4 in
              rest' ← Json.strip_prefix ["@"%char] r5;
              if bool_decide (user' = []) || bool_decide (password = []) then None
              else Some (x ++ slashes ++ user' ++ ":"%char :: redacted ++ ["@"%char], rest')) as Hurl.
    { intros pw. unfold url_credential. rewrite Hhead. cbn [negb]. rewrite span_over, E1, address_strip, E2 by auto. done. }
    apply (user_reaches prev l x r2 El Hurl).
Qed.

Lemma url_here (prev : option ascii) (pw : text) : at_word prev = true -> passes password_char pw ->
  url_credential prev (address pw) = Some (scheme ++ slashes ++ user ++ ":"%char :: redacted ++ ["@"%char], rest).
Proof.
  intros Hp Hpw. unfold url_credential. rewrite address_scheme, Hp.
  assert (match address pw with c :: _ => is_letter c | [] => false end = true) as ->
    by (destruct scheme_starts as (c & s & E & Hc); unfold address; by rewrite E).
  cbn [andb negb]. change (Json.strip_prefix slashes (slashes ++ ?u)) with (Some u). rewrite bind_Some_eq, user_of.
  change (Json.strip_prefix [":"%char] (":"%char :: ?u)) with (Some u). rewrite bind_Some_eq.
  pose proof (password_of [] pw eq_refl (proj1 Hpw)) as H. cbn [app] in H. rewrite H.
  change (Json.strip_prefix ["@"%char] ("@"%char :: ?u)) with (Some u). rewrite bind_Some_eq.
  rewrite !bool_decide_eq_false_2 by (apply Hpw || apply user_runs). done.
Qed.
End Password.

(** *** What is hidden *)

(** Whether a word can begin after [l], which comes after [prev]. *)
Definition word_may_begin (prev : option ascii) (l : text) : Prop :=
  at_word (match last l with Some c => Some c | None => prev end) = true.

Lemma password_hidden (scheme user rest pw pw' : text) :
  forallb scheme_char scheme = true -> (exists c s, scheme = c :: s /\ is_letter c = true) -> passes user_char user ->
  passes password_char pw -> passes password_char pw' ->
  forall prev pre, word_may_begin prev pre ->
    replaced url_credential 0 prev (pre ++ address scheme user rest pw) = replaced url_credential 0 prev (pre ++ address scheme user rest pw').
Proof.
  intros Hs Hs0 Hu Hpw Hpw' prev pre. remember (length pre) as n eqn:Hn. revert prev pre Hn.
  induction (lt_wf n) as [n _ IH]. intros prev pre -> Hbegin.
  assert (forall out p, url_credential prev (pre ++ address scheme user rest p) = Some (out, rest) ->
            replaced url_credential 0 prev (pre ++ address scheme user rest p) = out ++ replaced url_credential 0 (Some "@"%char) rest) as Hend.
  { intros out p H. destruct (url_forwards _ _ _ _ H) as (c & x & E). rewrite E in H |- *.
    assert (last (c :: x) = Some "@"%char) as Hl.
    { unfold address in E. rewrite (app_assoc pre), (app_assoc _ slashes), (app_assoc _ user) in E.
      change (":"%char :: p ++ "@"%char :: rest) with ([":"%char] ++ p ++ ["@"%char] ++ rest) in E. rewrite !app_assoc in E.
      change (c :: x ++ rest) with ((c :: x) ++ rest) in E. apply app_inv_tail in E. by rewrite <- E, last_snoc. }
    rewrite (replaced_match _ _ _ _ _ _ H). rewrite last_cons in Hl. by destruct (last x); injection Hl as ->. }
  destruct pre as [|c pre].
  - assert (forall p, passes password_char p -> url_credential prev ([] ++ address scheme user rest p) =
              Some (scheme ++ slashes ++ user ++ ":"%char :: redacted ++ ["@"%char], rest)) as H by (intros p; by apply url_here).
    by rewrite (Hend _ _ (H pw Hpw)), (Hend _ _ (H pw' Hpw')).
  - destruct (url_reaches scheme user rest Hs Hs0 Hu prev (c :: pre)) as [H|[(out & x & p & E & H)|(out & H)]]; [done| | |].
    + pose proof (H pw Hpw) as H1. pose proof (H pw' Hpw') as H2. cbn [app] in H1, H2 |- *.
      rewrite (replaced_none _ _ _ _ H1), (replaced_none _ _ _ _ H2). f_equal. eapply (IH (length pre)); [cbn; lia|done|].
      unfold word_may_begin in *. rewrite last_cons in Hbegin. by destruct (last pre).
    + pose proof (H pw Hpw) as H1. pose proof (H pw' Hpw') as H2. rewrite E in H1, H2 |- *. clear Hend H.
      assert (forall q, url_credential prev ((x ++ "@"%char :: p) ++ address scheme user rest q) = Some (out, p ++ address scheme user rest q) ->
                replaced url_credential 0 prev ((x ++ "@"%char :: p) ++ address scheme user rest q) =
                out ++ replaced url_credential 0 (Some "@"%char) (p ++ address scheme user rest q)) as Hout.
      { intros q Hq. replace ((x ++ "@"%char :: p) ++ address scheme user rest q) with ((x ++ ["@"%char]) ++ p ++ address scheme user rest q) in Hq |- *
          by (by rewrite <- !app_assoc).
        destruct (x ++ ["@"%char]) as [|d y] eqn:Ey; [by destruct x|]. cbn [app] in Hq |- *. rewrite (replaced_match _ _ _ _ _ _ Hq).
        assert (last (d :: y) = Some "@"%char) as Hl by (by rewrite <- Ey, last_snoc). rewrite last_cons in Hl. by destruct (last y); injection Hl as ->. }
      rewrite (Hout pw H1), (Hout pw' H2). f_equal. eapply (IH (length p)); [|done|].
      * assert (length (c :: pre) = length (x ++ "@"%char :: p)) as -> by (by rewrite E). rewrite length_app. cbn. lia.
      * unfold word_may_begin in *. rewrite E, last_app_cons in Hbegin. rewrite last_cons in Hbegin. by destruct (last p).
    + by rewrite (Hend _ _ (H pw Hpw)), (Hend _ _ (H pw' Hpw')).
Qed.

(** *** A token after its scheme *)
Lemma any_case_spec (word : string) (l a r : text) : any_case word l = Some (a, r) -> l = a ++ r /\ lower_char <$> a = chars word.
Proof.
  unfold any_case. case_bool_decide as H; [|done]. intros [= <- <-]. split; [by rewrite firstn_skipn|done].
Qed.

Lemma any_case_app (word : string) (a b : text) : lower_char <$> a = chars word -> any_case word (a ++ b) = Some (a, b).
Proof.
  intros H. assert (length a = String.length word) as Hl.
  { rewrite <- (length_fmap lower_char), H. unfold chars. clear. by induction word as [|c w IH]; cbn; [|rewrite IH]. }
  unfold any_case. by rewrite <- Hl, take_app_length, drop_app_length, bool_decide_eq_true_2.
Qed.

Lemma bearer_forwards : consumes bearer.
Proof.
  intros prev l out rest. unfold bearer. destruct (negb _); [done|].
  destruct (match any_case "bearer" l with Some x => Some x | None => any_case "basic" l end) as [[scheme r1]|] eqn:E1; [|done].
  rewrite bind_Some_eq. destruct (span is_space r1) as [sp r2] eqn:E2. destruct (span token_char r2) as [token r3] eqn:E3.
  destruct (_ || _); [done|]. intros [= _ <-]. destruct (span is_equals r3) as [eqs r4] eqn:E4. cbn [snd].
  apply span_spec in E2 as [-> _], E3 as [-> _], E4 as [-> _].
  assert (exists w, l = scheme ++ sp ++ token ++ eqs ++ r4 /\ lower_char <$> scheme = chars w /\ (w = "bearer" \/ w = "basic")) as (w & -> & Hw & Hw').
  { destruct (any_case "bearer" l) as [[a r]|] eqn:E; [injection E1 as -> ->; apply any_case_spec in E as [-> E]; eauto|].
    apply any_case_spec in E1 as [-> E1]. eauto. }
  destruct scheme as [|c scheme]; [by destruct Hw' as [->| ->]|].
  exists c, (scheme ++ sp ++ token ++ eqs). cbn. by rewrite <- !app_assoc.
Qed.

(** No match of either goes past a character that is in none of its parts. *)
Lemma any_case_cut (word : string) (c : ascii) (b : text) : lower_char c ∉ chars word -> forall a,
  any_case word (a ++ c :: b) = (fun o => (o.1, o.2 ++ c :: b)) <$> any_case word a.
Proof.
  intros Hc a. unfold any_case. set (n := String.length word).
  assert (length (chars word) = n) as Hl by (unfold n, chars; clear; by induction word as [|d w IH]; cbn; [|rewrite IH]).
  destruct (decide (n <= length a)%nat) as [Hn|Hn].
  - rewrite take_app_le, drop_app_le by done. by case_bool_decide.
  - rewrite (bool_decide_eq_false_2 (lower_char <$> take n (a ++ c :: b) = _)).
    + rewrite bool_decide_eq_false_2; [done|]. intros H. apply (f_equal length) in H. rewrite length_fmap, length_take, Hl in H. lia.
    + intros H. apply Hc. rewrite <- H. apply list_elem_of_fmap_2. rewrite take_app_ge by lia.
      apply elem_of_app. right. destruct (n - length a)%nat eqn:E; [lia|]. by left.
Qed.

(** What cannot be inside a token or its scheme. *)
Definition outside (c : ascii) : Prop := is_space c = false /\ token_char c = false.
Lemma outside_words (c : ascii) : token_char c = false -> lower_char c ∉ chars "bearer" /\ lower_char c ∉ chars "basic".
Proof. destruct c as [[] [] [] [] [] [] [] []]; intros H; vm_compute in H; try discriminate H; split; by apply (bool_decide_unpack _). Qed.

(** A match that begins before such a character does not depend on what comes after it. *)
Lemma bearer_cut (c : ascii) (b : text) : outside c -> (forall d, head b = Some d -> is_equals d = false) ->
  forall prev a, bearer prev (a ++ c :: b) = (fun o => (o.1, o.2 ++ b)) <$> bearer prev (a ++ [c]).
Proof.
  intros [Hsp Htok] Hb prev a. destruct (outside_words c Htok) as [H1 H2].
  assert (forall p l r, p c = false -> span p (l ++ c :: r) = (fst (span p l), snd (span p l) ++ c :: r)) as Hspan.
  { intros p l r Hp. rewrite span_over. destruct (span p l) as [x y]. destruct y; [|done]. cbn [span]. rewrite Hp. cbn. by rewrite app_nil_r. }
  assert (forall l, snd (span is_equals (l ++ c :: b)) = snd (span is_equals (l ++ [c])) ++ b) as Heqs.
  { intros l. rewrite (span_over _ l (c :: b)), (span_over _ l [c]). destruct (span is_equals l) as [x y]. destruct y; [|cbn; by rewrite <- app_assoc].
    cbn [span snd fst]. destruct (is_equals c); [|done]. destruct b as [|d b]; [done|]. cbn [span]. by rewrite (Hb d). }
  unfold bearer. destruct (negb _); [done|]. rewrite !any_case_cut by done.
  destruct (any_case "bearer" a) as [[scheme r1]|]; [|destruct (any_case "basic" a) as [[scheme r1]|]; [|done]];
    cbn [fmap option_fmap option_map fst snd]; rewrite !bind_Some_eq, !(Hspan is_space) by done;
    destruct (span is_space r1) as [sp r2]; cbn [fst snd]; rewrite !(Hspan token_char) by done;
    destruct (span token_char r2) as [token r3]; cbn [fst snd]; rewrite Heqs; by destruct (_ || _).
Qed.

Lemma strip_prefix_snoc (p l : text) (c : ascii) :
  Json.strip_prefix p (l ++ [c]) = (fun r => r ++ [c]) <$> Json.strip_prefix p l \/
  Json.strip_prefix p l = None /\ Json.strip_prefix p (l ++ [c]) = Some [].
Proof.
  revert l. induction p as [|x p IH]; intros l; [by destruct l; left|]. destruct l as [|y l]; cbn.
  - destruct (ascii_dec x c) as [->|]; [|by left]. destruct p; [by right|by left].
  - destruct (ascii_dec x y); [|by left]. apply IH.
Qed.

(** An address ends with an at sign. *)
Lemma url_snoc (c : ascii) : c <> "@"%char -> forall prev a,
  url_credential prev (a ++ [c]) = (fun o => (o.1, o.2 ++ [c])) <$> url_credential prev a.
Proof.
  intros Hat prev a.
  assert (forall p, span p [c] = ([c], []) \/ span p [c] = ([], [c])) as Hlast by (intros p; cbn; destruct (p c); auto).
  assert (Json.strip_prefix slashes [] = None /\ Json.strip_prefix slashes [c] = None) as [Hs0 Hs1]
    by (split; [done|]; clear; destruct c as [[] [] [] [] [] [] [] []]; by vm_compute).
  unfold url_credential. destruct a as [|a0 a].
  { cbn [app]. rewrite andb_false_r. cbn [negb fmap option_fmap option_map]. destruct (negb (at_word prev && is_letter c)); [done|].
    destruct (Hlast scheme_char) as [->| ->]; [by rewrite Hs0|by rewrite Hs1]. }
  change ((a0 :: a) ++ [c]) with (a0 :: (a ++ [c])) at 1. cbv match. destruct (negb _); [done|].
  rewrite span_over. destruct (span scheme_char (a0 :: a)) as [scheme r1]. destruct r1 as [|d1 r1].
  { destruct (Hlast scheme_char) as [->| ->]; cbn [fst snd]; by rewrite ?Hs0, ?Hs1. }
  destruct (strip_prefix_snoc slashes (d1 :: r1) c) as [->|[-> ->]]; [|done].
  destruct (Json.strip_prefix slashes (d1 :: r1)) as [r2|]; [|done]. cbn [fmap option_fmap option_map]. rewrite !bind_Some_eq, span_over.
  destruct (span user_char r2) as [user r3]. destruct r3 as [|d3 r3].
  { destruct (Hlast user_char) as [->| ->]; cbn [fst snd Json.strip_prefix]; [done|]. by destruct (ascii_dec ":" c). }
  cbn [app Json.strip_prefix]. destruct (ascii_dec ":" d3); [|done]. rewrite !bind_Some_eq, span_over.
  destruct (span password_char r3) as [w r5]. destruct r5 as [|d5 r5].
  { destruct (Hlast password_char) as [->| ->]; cbn [fst snd Json.strip_prefix]; [done|]. by destruct (ascii_dec "@" c); subst. }
  cbn [app Json.strip_prefix]. destruct (ascii_dec "@" d5); [|done]. rewrite !bind_Some_eq. by destruct (_ || _).
Qed.

Lemma url_no_end (l : text) : "@"%char ∉ l -> forall prev a,
  replaced url_credential 0 prev (a ++ l) = replaced url_credential 0 prev a ++ l.
Proof.
  intros Hl prev a. assert (forall prev, url_credential prev [] = None) as Hnil by (intros p; unfold url_credential; by rewrite andb_false_r).
  induction l as [|c l IH] using rev_ind; [by rewrite !app_nil_r|]. rewrite elem_of_app, list_elem_of_singleton in Hl.
  rewrite app_assoc, (replaced_apart url_credential url_forwards c [] Hnil (url_snoc c ltac:(naive_solver))).
  cbn [replaced]. rewrite IH by naive_solver. by rewrite <- app_assoc.
Qed.

(** What may come after a token: neither more of it nor what makes it a scheme. *)
Definition ended (l : text) : Prop :=
  match l with [] => True | c :: _ => token_char c = false /\ is_equals c = false /\ c <> ":"%char end.

Lemma ended_apart (c : ascii) : token_char c = false -> scheme_char c = false /\ is_letter c = false.
Proof. destruct c as [[] [] [] [] [] [] [] []]; intros H; vm_compute in H; try discriminate H; by vm_compute. Qed.

Lemma slashes_start (c : ascii) (l : text) : c <> ":"%char -> Json.strip_prefix slashes (c :: l) = None.
Proof.
  intros Hc. change (Json.strip_prefix slashes (c :: l)) with (if ascii_dec ":" c then Json.strip_prefix (chars "//") l else None).
  by destruct (ascii_dec ":" c); subst.
Qed.

(** Without a colon there is no address. *)
Lemma url_needs_colon (prev : option ascii) (l rest : text) : ":"%char ∉ l -> ended rest ->
  replaced url_credential 0 prev (l ++ rest) = l ++ replaced url_credential 0 (match last l with Some c => Some c | None => prev end) rest.
Proof.
  intros Hl Hrest. revert prev Hl. induction l as [|c l IH]; intros prev; [done|]. intros Hn. cbn [app]. rewrite replaced_none.
  - rewrite IH by (intros H; apply Hn; by right). cbn [app]. f_equal. f_equal. rewrite last_cons. by destruct (last l).
  - unfold url_credential. destruct (negb _); [done|]. change (c :: l ++ rest) with ((c :: l) ++ rest). rewrite span_over.
    destruct (span scheme_char (c :: l)) as [x r] eqn:E. apply span_spec in E as [E _]. destruct r as [|d r].
    + assert (span scheme_char rest = ([], rest)) as ->.
      { destruct rest as [|d rest]; [done|]. cbn. by destruct Hrest as ((-> & _)%ended_apart & _). }
      cbn [fst snd]. destruct rest as [|d rest]; [done|]. destruct Hrest as (_ & _ & Hd). by rewrite slashes_start.
    + cbn [app]. rewrite slashes_start; [done|]. intros ->. apply Hn. rewrite E. apply elem_of_app. right. by left.
Qed.

Lemma replaced_ended (prev prev' : option ascii) (l : text) : ended l -> replaced url_credential 0 prev l = replaced url_credential 0 prev' l.
Proof.
  intros Hl. destruct l as [|c l]; [done|]. destruct Hl as ([_ Hc]%ended_apart & _).
  rewrite !replaced_none; [done|..]; unfold url_credential; by rewrite Hc, andb_false_r.
Qed.

Lemma token_no_colon (p : ascii -> bool) (l : text) : p ":"%char = false -> forallb p l = true -> ":"%char ∉ l.
Proof. intros Hp Hl Hin. rewrite forallb_forall in Hl. apply list_elem_of_In, Hl in Hin. congruence. Qed.

Lemma space_apart (c : ascii) : is_space c = true -> token_char c = false /\ is_equals c = false /\ is_letter c = false.
Proof. destruct c as [[] [] [] [] [] [] [] []]; intros H; vm_compute in H; try discriminate H; by vm_compute. Qed.

(** No scheme begins but with a letter. *)
Lemma bearer_starts (prev : option ascii) (l : text) : (forall c, head l = Some c -> is_letter c = false) -> bearer prev l = None.
Proof.
  intros Hl. unfold bearer. destruct (negb _); [done|].
  assert (forall w d s, chars w = d :: s -> is_letter d = true -> any_case w l = None) as H.
  { intros w d s Hw Hd. destruct (any_case w l) as [[a r]|] eqn:E; [|done]. apply any_case_spec in E as [-> E2]. rewrite Hw in E2.
    destruct a as [|x a]; [done|]. injection E2 as E2 _. exfalso. specialize (Hl x eq_refl). clear -Hl Hd E2. subst d.
    destruct x as [[] [] [] [] [] [] [] []]; vm_compute in Hl; try discriminate Hl; vm_compute in Hd; discriminate Hd. }
  by rewrite (H "bearer" "b"%char (chars "earer")), (H "basic" "b"%char (chars "asic")).
Qed.

Lemma bearer_ended (prev prev' : option ascii) (l : text) : ended l -> replaced bearer 0 prev l = replaced bearer 0 prev' l.
Proof.
  intros Hl. destruct l as [|c l]; [done|]. destruct Hl as ([_ Hc]%ended_apart & _).
  rewrite !replaced_none; [done|..]; apply bearer_starts; by intros d [= <-].
Qed.

Lemma bearer_spaces (prev : option ascii) (sp l : text) : forallb is_space sp = true ->
  replaced bearer 0 prev (sp ++ l) = sp ++ replaced bearer 0 (match last sp with Some c => Some c | None => prev end) l.
Proof.
  revert prev. induction sp as [|c sp IH]; intros prev; [done|]. cbn [forallb]. intros [Hc Hsp]%andb_true_iff. cbn [app]. rewrite replaced_none.
  - rewrite IH by done. rewrite last_cons. by destruct (last sp).
  - apply bearer_starts. intros d [= <-]. by apply space_apart in Hc as (_ & _ & ->).
Qed.

(** Where a word begins whatever is before: at the start, or, white space aside, after
    what cannot be inside a token nor ends an address. *)
Definition led (pre : text) : Prop :=
  exists p sp, pre = p ++ sp /\ forallb is_space sp = true /\ forall c, last p = Some c -> outside c /\ c <> "@"%char.

Lemma space_at (sp : text) (c : ascii) : c = "@"%char \/ is_letter c = true -> forallb is_space sp = true -> c ∉ sp.
Proof.
  intros Hc Hsp Hin. rewrite forallb_forall in Hsp. apply list_elem_of_In, Hsp in Hin. destruct Hc as [->|Hc]; [by vm_compute in Hin|].
  apply space_apart in Hin as (_ & _ & Hin). congruence.
Qed.

Lemma led_url (pre : text) : led pre -> led (replaced url_credential 0 None pre).
Proof.
  intros (p & sp & -> & Hsp & Hp). rewrite url_no_end by (apply space_at; auto). exists (replaced url_credential 0 None p), sp.
  split_and!; [done|done|]. destruct p as [|c p _] using rev_ind; [done|]. rewrite last_snoc in Hp. destruct (Hp c eq_refl) as [Ho Hc].
  rewrite url_no_end by (rewrite list_elem_of_singleton; naive_solver). rewrite last_snoc. by intros d [= <-].
Qed.

Lemma led_bearer (pre l : text) : led pre -> (forall c, head l = Some c -> is_equals c = false) ->
  exists prev, at_word prev = true /\ replaced bearer 0 None (pre ++ l) = replaced bearer 0 None pre ++ replaced bearer 0 prev l.
Proof.
  intros (p & sp & -> & Hsp & Hp) Hl.
  assert (forall prev, at_word prev = true -> at_word (match last sp with Some c => Some c | None => prev end) = true) as Hlast.
  { intros prev Hprev. destruct (last sp) as [c|] eqn:E; [|done]. apply last_Some in E as [sp' ->]. rewrite forallb_app in Hsp.
    apply andb_true_iff in Hsp as [_ [Hc _]%andb_true_iff]. apply space_apart in Hc as (Hc & _). cbn. unfold token_char in Hc.
    by destruct (is_word c). }
  destruct p as [|c p _] using rev_ind.
  - cbn [app]. eexists. split; [by apply (Hlast None)|]. rewrite bearer_spaces by done. f_equal.
    pose proof (bearer_spaces None sp [] Hsp) as H. rewrite app_nil_r in H. cbn in H. by rewrite H, app_nil_r.
  - rewrite last_snoc in Hp. destruct (Hp c eq_refl) as [Ho _].
    assert (at_word (Some c) = true) as Hc by (destruct Ho as [_ Ho]; unfold token_char in Ho; cbn; by destruct (is_word c)).
    assert (forall b, (forall d, head b = Some d -> is_equals d = false) ->
      replaced bearer 0 None ((p ++ [c]) ++ b) = replaced bearer 0 None (p ++ [c]) ++ replaced bearer 0 (Some c) b) as Hcut.
    { intros b Hb. apply (replaced_cut bearer bearer_forwards); [|by rewrite last_snoc]. intros prev a [a' ->]%last_Some.
      rewrite <- app_assoc. by apply bearer_cut. }
    assert (forall b, (forall d, head b = Some d -> is_equals d = false) -> forall d, head (sp ++ b) = Some d -> is_equals d = false) as Hhead.
    { intros b Hb d. destruct sp as [|s sp]; [apply Hb|]. intros [= <-]. apply andb_true_iff in Hsp as [Hs _]. by apply space_apart in Hs as (_ & -> & _). }
    eexists. split; [by apply (Hlast (Some c))|]. rewrite <- (app_assoc (p ++ [c])), (Hcut (sp ++ l)) by by apply Hhead.
    pose proof (Hhead [] ltac:(by intros d [=])) as Hsp0. rewrite app_nil_r in Hsp0. rewrite (Hcut sp Hsp0), (bearer_spaces (Some c) sp l Hsp). pose proof (bearer_spaces (Some c) sp [] Hsp) as H. rewrite app_nil_r in H. cbn in H. by rewrite H, app_nil_r, app_assoc.
Qed.

Definition scheme_word (word : text) : Prop := lower_char <$> word = chars "bearer" \/ lower_char <$> word = chars "basic".

Lemma scheme_letters (word : text) : scheme_word word -> forall c, c ∈ word -> is_letter c = true.
Proof.
  intros Hw c Hc. assert (is_letter (lower_char c) = true) as H.
  { assert (lower_char c ∈ lower_char <$> word) as Hin by by apply list_elem_of_fmap_2.
    assert (forall w, forallb is_letter w = true -> lower_char c ∈ w -> is_letter (lower_char c) = true) as Hall
      by (intros w Hf Hi; rewrite forallb_forall in Hf; by apply Hf, list_elem_of_In).
    destruct Hw as [E|E]; rewrite E in Hin; eapply Hall; try exact Hin; by vm_compute. }
  revert H. clear. destruct c as [[] [] [] [] [] [] [] []]; intros H; vm_compute in H |- *; done.
Qed.

Section Token.
Variables word sp tok eqs rest : text.
Hypothesis word_scheme : scheme_word word.
Hypothesis sp_spaces : passes is_space sp.
Hypothesis tok_token : passes token_char tok.
Hypothesis eqs_equals : forallb is_equals eqs = true.

Lemma bearer_here (prev : option ascii) (r : text) : at_word prev = true -> ended r ->
  bearer prev (word ++ sp ++ tok ++ eqs ++ r) = Some (word ++ " "%char :: redacted, r).
Proof.
  intros Hprev Hr. destruct sp_spaces as [Hsp Hsp0], tok_token as [Htok Hne]. unfold bearer. rewrite Hprev. cbn [negb].
  set (l := sp ++ tok ++ eqs ++ r).
  assert (match any_case "bearer" (word ++ l) with Some x => Some x | None => any_case "basic" (word ++ l) end = Some (word, l)) as ->.
  { destruct word_scheme as [Hw|Hw]; [by rewrite (any_case_app "bearer")|]. rewrite (any_case_app "basic") by done.
    destruct (any_case "bearer" _) as [[a b]|] eqn:E; [|done]. apply any_case_spec in E as [E1 E2]. exfalso.
    destruct word as [|w1 [|w2 word']]; try done. destruct a as [|a1 [|a2 a]]; try done. injection E1 as _ <- _. injection Hw as _ Hw _. injection E2 as _ E2 _. congruence. }
  rewrite bind_Some_eq. unfold l. rewrite span_run; [|done|].
  2:{ intros c Hc. destruct tok as [|t tok']; [done|]. injection Hc as <-. cbn [forallb] in Htok. apply andb_true_iff in Htok as [Ht _].
      destruct (is_space t) eqn:E; [|done]. apply space_apart in E as [E _]. congruence. }
  rewrite span_run; [|done|].
  2:{ intros c Hc. destruct eqs as [|e eqs']; cbn [app head] in Hc.
      - destruct r as [|c' r']; [done|]. injection Hc as ->. by destruct Hr.
      - injection Hc as <-. pose proof eqs_equals as He. cbn [forallb] in He. apply andb_true_iff in He as [He _]. unfold is_equals in He.
        by apply bool_decide_eq_true in He as ->. }
  rewrite span_run; [|done|intros c Hc; destruct r as [|c' r']; [done|]; injection Hc as ->; by destruct Hr as (_ & ? & _)].
  rewrite (bool_decide_eq_false_2 (sp = [])), (bool_decide_eq_false_2 (tok = [])) by done. done.
Qed.

Lemma no_colon : ":"%char ∉ sp ++ tok ++ eqs.
Proof.
  rewrite !elem_of_app. intros [H|[H|H]]; revert H; [apply (token_no_colon is_space)|apply (token_no_colon token_char)|by apply (token_no_colon is_equals)].
  all: apply sp_spaces || apply tok_token || reflexivity.
Qed.

Lemma token_redacted (pre : text) : led pre -> ended rest ->
  redact_text (pre ++ word ++ sp ++ tok ++ eqs ++ rest) =
  replaced bearer 0 None (replaced url_credential 0 None pre) ++ word ++ " "%char :: redacted ++
  replaced bearer 0 None (replaced url_credential 0 None rest).
Proof.
  intros Hled Hrest. unfold redact_text. set (R := replaced url_credential 0 None rest).
  assert (ended R) as HR.
  { unfold R. destruct rest as [|c r]; [done|]. rewrite replaced_none; [done|]. unfold url_credential.
    destruct Hrest as ([_ Hc]%ended_apart & _). by rewrite Hc. }
  assert (replaced url_credential 0 None (pre ++ word ++ sp ++ tok ++ eqs ++ rest) =
          replaced url_credential 0 None pre ++ word ++ sp ++ tok ++ eqs ++ R) as ->.
  { pose proof no_colon as Hcolon. destruct sp_spaces as [Hsp Hne]. destruct sp as [|s sp']; [done|]. pose proof Hsp as [Hs _]%andb_true_iff.
    rewrite (app_assoc pre). cbn [app]. rewrite (replaced_apart url_credential url_forwards s).
    2:{ intros prev. unfold url_credential. by rewrite andb_false_r. }
    2:{ intros prev a. by apply url_space. }
    rewrite url_no_end.
    2:{ intros H%(scheme_letters _ word_scheme). by vm_compute in H. }
    replace (sp' ++ tok ++ eqs ++ rest) with ((sp' ++ tok ++ eqs) ++ rest) by by rewrite <- !app_assoc.
    rewrite url_needs_colon; [|intros H; apply Hcolon; by right|done].
    rewrite (replaced_ended _ None rest) by done. fold R. by rewrite <- !app_assoc. }
  destruct (led_bearer _ (word ++ sp ++ tok ++ eqs ++ R) (led_url pre Hled)) as (prev & Hprev & ->).
  { intros c Hc. assert (is_letter c = true) as H.
    { apply (scheme_letters _ word_scheme). pose proof word_scheme as H. destruct word as [|w word']; [by destruct H|]. injection Hc as ->. by left. }
    unfold is_equals. apply bool_decide_eq_false. intros ->. by vm_compute in H. }
  f_equal. pose proof (bearer_here prev R Hprev HR) as Hhere.
  destruct (bearer_forwards _ _ _ _ Hhere) as (c & x & E). rewrite E in Hhere |- *. rewrite (replaced_match _ _ _ _ _ _ Hhere), (bearer_ended _ None R HR).
  by rewrite <- app_assoc.
Qed.
End Token.

(** *** Texts that differ in what is hidden *)
Inductive twin_text : text -> text -> Prop :=
  | tt_same (l : text) : twin_text l l
  | tt_password (pre scheme user rest pw pw' : text) :
      word_may_begin None pre ->
      forallb scheme_char scheme = true -> (exists c s, scheme = c :: s /\ is_letter c = true) -> passes user_char user ->
      passes password_char pw -> passes password_char pw' ->
      twin_text (pre ++ address scheme user rest pw) (pre ++ address scheme user rest pw')
  | tt_token (pre word sp tok eqs tok' eqs' rest : text) :
      led pre -> scheme_word word -> passes is_space sp ->
      passes token_char tok -> passes token_char tok' -> forallb is_equals eqs = true -> forallb is_equals eqs' = true -> ended rest ->
      twin_text (pre ++ word ++ sp ++ tok ++ eqs ++ rest) (pre ++ word ++ sp ++ tok' ++ eqs' ++ rest)
  | tt_turn (a b c : text) : twin_text a b -> twin_text b c -> twin_text a c.

Lemma twins_redact_alike (a b : text) : twin_text a b -> redact_text a = redact_text b.
Proof.
  induction 1 as [| | |a b c _ IH1 _ IH2]; [done| |by rewrite !token_redacted|congruence].
  unfold redact_text. f_equal. by apply password_hidden.
Qed.
Lemma twins_empty_alike (a b : text) : twin_text a b -> a = [] <-> b = [].
Proof.
  induction 1 as [l|pre scheme user rest pw pw' _ _ (c & s & -> & _)|pre word sp tok eqs tok' eqs' rest _ Hw|a b c _ IH1 _ IH2]; [done| | |by rewrite IH1].
  - split; intros He; exfalso; by destruct pre.
  - assert (word <> []) as Hne by (intros ->; by destruct Hw). split; intros He; exfalso; by destruct pre, word.
Qed.

Definition twin_string (s s' : string) : Prop := twin_text (chars s) (chars s').
Lemma twin_strings_redact (s s' : string) : twin_string s s' -> redactString s = redactString s'.
Proof. intros H. unfold redactString. by rewrite (twins_redact_alike _ _ H). Qed.
Lemma twin_strings_empty (s s' : string) : twin_string s s' -> bool_decide (s = "") = bool_decide (s' = "").
Proof.
  intros H%twins_empty_alike. apply bool_decide_ext. destruct s, s'; cbn in H; naive_solver.
Qed.

(** *** Values that differ in what is hidden

    [visible] holds of the objects that are the same object on both sides. *)
Section Twins.
Variable visible : N -> Prop.

Inductive twin_value : value -> value -> Prop :=
  | tv_prim (p : prim) : twin_value (v_prim p) (v_prim p)
  | tv_string (s s' : string) : twin_string s s' -> twin_value (v_string s) (v_string s')
  | tv_ref (a : N) : visible a -> twin_value (v_ref a) (v_ref a).

(** Members of one name: of a sensitive name, whatever they are. *)
Definition twin_entry (e e' : string * value) : Prop :=
  e.1 = e'.1 /\ (isSensitiveKey e.1 = true \/ twin_value e.2 e'.2).

Inductive twin_object : object -> object -> Prop :=
  | to_error name message message' stack stack' cause cause' :
      twin_string message message' -> option_Forall2 twin_string stack stack' -> twin_value cause cause' ->
      twin_object (o_error name message stack cause) (o_error name message' stack' cause')
  | to_array items items' : Forall2 twin_value items items' -> twin_object (o_array items) (o_array items')
  | to_record entries entries' : Forall2 twin_entry entries entries' -> twin_object (o_record entries) (o_record entries').

Definition twin_heap (h h' : heap) : Prop :=
  forall a, visible a -> twin_object (default (o_record []) (h !! a)) (default (o_record []) (h' !! a)).

Definition walk : Type := gset N -> value -> option (shown * gset N).
Definition agree (f f' : walk) : Prop :=
  forall seen v v' r r', twin_value v v' -> f seen v = Some r -> f' seen v' = Some r' -> r = r'.

Lemma traverse_agree {A B S} (R : A -> A -> Prop) (f f' : S -> A -> option (B * S)) :
  (forall s x x' r r', R x x' -> f s x = Some r -> f' s x' = Some r' -> r = r') ->
  forall l l', Forall2 R l l' -> forall s r r', traverse f s l = Some r -> traverse f' s l' = Some r' -> r = r'.
Proof.
  intros Hf. induction 1 as [|x x' l l' Hx _ IH]; intros s r r'; cbn [traverse]; [by intros [= <-] [= <-]|].
  destruct (f s x) as [[y s1]|] eqn:E; [|done]. destruct (f' s x') as [[y' s1']|] eqn:E'; [|done].
  pose proof (Hf _ _ _ _ _ Hx E E') as [= <- <-]. rewrite !bind_Some_eq.
  destruct (traverse f s1 l) as [[ys s2]|] eqn:E1; [|done]. destruct (traverse f' s1 l') as [[ys' s2']|] eqn:E2; [|done].
  pose proof (IH _ _ _ E1 E2) as [= <- <-]. by intros [= <-] [= <-].
Qed.

Lemma entry_agree (f f' : walk) : agree f f' -> forall s e e' r r', twin_entry e e' ->
  redact_entry f s e = Some r -> redact_entry f' s e' = Some r' -> r = r'.
Proof.
  intros Hf s [k v] [k' v'] r r' [Hk Hv]. cbn [fst snd] in *. subst k'. unfold redact_entry. cbn [fst snd].
  destruct (isSensitiveKey k); [by intros [= <-] [= <-]|]. destruct Hv as [Hv|Hv]; [done|].
  destruct (f s v) as [[t s1]|] eqn:E; [|done]. destruct (f' s v') as [[t' s1']|] eqn:E'; [|done].
  pose proof (Hf _ _ _ _ _ Hv E E') as [= <- <-]. by intros [= <-] [= <-].
Qed.

Lemma entries_agree (f f' : walk) : agree f f' -> forall l l', Forall2 twin_entry l l' -> forall s r r',
  redact_entries f s l = Some r -> redact_entries f' s l' = Some r' -> r = r'.
Proof.
  intros Hf l l' Hl s r r'. unfold redact_entries. destruct (traverse _ s l) as [[x s1]|] eqn:E; [|done].
  destruct (traverse (redact_entry f') s l') as [[x' s1']|] eqn:E'; [|done].
  pose proof (traverse_agree _ _ _ (entry_agree f f' Hf) _ _ Hl _ _ _ E E') as [= <- <-]. by intros [= <-] [= <-].
Qed.

Lemma object_agree (f f' : walk) : agree f f' -> forall o o', twin_object o o' -> forall s r r',
  redact_object f s o = Some r -> redact_object f' s o' = Some r' -> r = r'.
Proof.
  intros Hf o o' Ho s r r'. destruct Ho as [name message message' stack stack' cause cause' Hm Hs Hc|items items' Hl|l l' Hl]; cbn [redact_object].
  - rewrite (twin_strings_redact _ _ Hm).
    assert (match stack with Some s0 => if bool_decide (s0 = "") then t_prim p_undefined else t_string (redactString s0) | None => t_prim p_undefined end =
            match stack' with Some s0 => if bool_decide (s0 = "") then t_prim p_undefined else t_string (redactString s0) | None => t_prim p_undefined end) as ->.
    { destruct Hs as [x y H|]; [|done]. by rewrite (twin_strings_empty _ _ H), (twin_strings_redact _ _ H). }
    destruct (f s cause) as [[t s1]|] eqn:E; destruct (f' s cause') as [[t' s1']|] eqn:E'; try (by destruct Hc as [[]| |]; intros; simplify_eq).
    pose proof (Hf _ _ _ _ _ Hc E E') as [= <- <-]. destruct Hc as [[]| |]; intros; by simplify_eq.
  - destruct (traverse f s items) as [[x s1]|] eqn:E; [|done]. destruct (traverse f' s items') as [[x' s1']|] eqn:E'; [|done].
    pose proof (traverse_agree _ _ _ Hf _ _ Hl _ _ _ E E') as [= <- <-]. by intros [= <-] [= <-].
  - destruct (redact_entries f s l) as [[x s1]|] eqn:E; [|done]. destruct (redact_entries f' s l') as [[x' s1']|] eqn:E'; [|done].
    pose proof (entries_agree f f' Hf _ _ Hl _ _ _ E E') as [= <- <-]. by intros [= <-] [= <-].
Qed.

(** Whatever the fuel of either. *)
Lemma redact_agree (h h' : heap) : twin_heap h h' -> forall n n', agree (redact_at n h) (redact_at n' h').
Proof.
  intros Hh n. induction n as [|n IH]; intros n' seen v v' r r' Hv; destruct Hv as [p|s s' Hs|a Ha]; destruct n' as [|n']; cbn [redact_at];
    try (by intros [= <-] [= <-]); try (rewrite (twin_strings_redact _ _ Hs); by intros [= <-] [= <-]);
    case_bool_decide; try (by intros [= <-] [= <-]); try done.
  apply object_agree; [apply IH|by apply Hh].
Qed.
End Twins.

(** *** [redact] returns *)
Section Returns.
Variable h : heap.
Definition unseen (seen : gset N) : nat := size (dom h ∖ seen).

Lemma unseen_add (seen : gset N) (a : N) : a ∈ dom h -> a ∉ seen -> (unseen ({[a]} ∪ seen) < unseen seen)%nat.
Proof. intros Ha Hs. unfold unseen. apply subset_size. set_solver. Qed.
Lemma unseen_mono (seen seen' : gset N) : seen ⊆ seen' -> (unseen seen' <= unseen seen)%nat.
Proof. intros H. unfold unseen. apply subseteq_size. set_solver. Qed.

(** A walk that returns wherever as much was seen, and sees no less after. *)
Definition returns_from (seen0 : gset N) (f : walk) : Prop :=
  forall seen v, seen0 ⊆ seen -> exists t seen', f seen v = Some (t, seen') /\ seen ⊆ seen'.

Lemma traverse_returns {A B} (seen0 : gset N) (f : gset N -> A -> option (B * gset N)) :
  (forall seen x, seen0 ⊆ seen -> exists t seen', f seen x = Some (t, seen') /\ seen ⊆ seen') ->
  forall l seen, seen0 ⊆ seen -> exists ts seen', traverse f seen l = Some (ts, seen') /\ seen ⊆ seen'.
Proof.
  intros Hf. induction l as [|x l IH]; intros seen Hs; cbn [traverse]; [by do 2 eexists|].
  destruct (Hf seen x Hs) as (t & s1 & -> & H1). rewrite bind_Some_eq. destruct (IH s1) as (ts & s2 & -> & H2); [set_solver|].
  rewrite bind_Some_eq. do 2 eexists. split; [done|set_solver].
Qed.

Lemma entries_return (seen0 : gset N) (f : walk) : returns_from seen0 f -> forall l seen, seen0 ⊆ seen ->
  exists ts seen', redact_entries f seen l = Some (ts, seen') /\ seen ⊆ seen'.
Proof.
  intros Hf l seen Hs. unfold redact_entries. destruct (traverse_returns seen0 (redact_entry f)) with (l := l) (seen := seen) as (ts & s1 & -> & H1); [|done|].
  - intros s [k v] H. unfold redact_entry. cbn [fst snd]. destruct (isSensitiveKey k); [by do 2 eexists|].
    destruct (Hf s v H) as (t & s' & -> & H'). by do 2 eexists.
  - by do 2 eexists.
Qed.

Lemma object_returns (seen : gset N) (f : walk) (o : object) : returns_from seen f ->
  exists t seen', redact_object f seen o = Some (t, seen') /\ seen ⊆ seen'.
Proof.
  intros Hf. destruct o as [name message stack cause|items|entries]; cbn [redact_object].
  - destruct (Hf seen cause) as (t & s & E & Hs); [done|]. rewrite E, bind_Some_eq. destruct cause as [[]| |]; by do 2 eexists.
  - destruct (traverse_returns seen f Hf items seen) as (ts & s & -> & Hs); [done|]. by do 2 eexists.
  - destruct (entries_return seen f Hf entries seen) as (ts & s & -> & Hs); [done|]. by do 2 eexists.
Qed.

Lemma redact_at_returns (fuel : nat) (seen0 : gset N) : (unseen seen0 < fuel)%nat -> returns_from seen0 (redact_at fuel h).
Proof.
  revert seen0. induction fuel as [|fuel IH]; intros seen0 Hfuel; [lia|]. intros seen v Hs.
  destruct v as [p|s|a]; cbn [redact_at]; [by do 2 eexists..|]. case_bool_decide as Ha; [by do 2 eexists|].
  pose proof (unseen_mono _ _ Hs) as Hle. destruct (h !! a) as [o|] eqn:E.
  - change (default (o_record []) (Some o)) with o. destruct (object_returns ({[a]} ∪ seen) (redact_at fuel h) o) as (t & s' & -> & H').
    + apply IH. pose proof (unseen_add seen a ltac:(by apply elem_of_dom_2 in E) Ha). lia.
    + do 2 eexists. split; [done|set_solver].
  - do 2 eexists. split; [done|set_solver].
Qed.

Lemma enough (seen : gset N) : (unseen seen < S (size h))%nat.
Proof. unfold unseen. pose proof (size_dom (D := gset N) h). pose proof (subseteq_size (dom h ∖ seen) (dom h) ltac:(set_solver)). unfold heap in *. lia. Qed.

(** Redacting returns, whatever refers to what: a cycle does not go round, and however much
    more fuel is given the answer is the same. *)
Theorem redact_returns (v : value) : exists t, redact h v = Some t /\
  forall fuel r, redact_at fuel h ∅ v = Some r -> fst r = t.
Proof.
  destruct (redact_at_returns (S (size h)) ∅ (enough ∅) ∅ v) as (t & s & E & _); [done|].
  exists t. unfold redact. rewrite E. split; [done|]. intros fuel r Hr.
  assert (twin_value (fun _ => True) v v) as Hv by (destruct v; [apply tv_prim|apply tv_string, tt_same|by apply tv_ref]).
  assert (twin_heap (fun _ => True) h h) as Hh.
  { intros a _. assert (forall w, twin_value (fun _ => True) w w) as Hw by (intros w; destruct w; [apply tv_prim|apply tv_string, tt_same|by apply tv_ref]).
    destruct (default _ _) as [name message stack cause|items|entries]; constructor; try done; try apply tt_same.
    - destruct stack; constructor. apply tt_same.
    - by apply Forall_Forall2_diag, Forall_true.
    - apply Forall_Forall2_diag, Forall_true. intros e. split; [done|by right]. }
  by pose proof (redact_agree _ h h Hh fuel (S (size h)) ∅ v v r _ Hv Hr E) as ->.
Qed.
End Returns.

(** *** Lines that differ in nothing *)
Section Lines.
Import Logger.
Variable visible : N -> Prop.

Lemma set_member_twins (k : string) (v v' : value) (l l' : list (string * value)) :
  twin_entry visible (k, v) (k, v') -> Forall2 (twin_entry visible) l l' ->
  Forall2 (twin_entry visible) (set_member k v l) (set_member k v' l').
Proof.
  intros Hv. induction 1 as [|e e' l l' He Hl IH]; cbn [set_member]; [by constructor|].
  destruct He as [Hk He]. rewrite <- Hk. case_bool_decide; apply Forall2_cons; (split; [first [exact Hv|by split]|done]).
Qed.

Lemma filter_twins (p : string -> bool) (l l' : list (string * value)) : Forall2 (twin_entry visible) l l' ->
  Forall2 (twin_entry visible) (List.filter (fun e => p e.1) l) (List.filter (fun e => p e.1) l').
Proof.
  induction 1 as [|e e' l l' [Hk He] Hl IH]; cbn [List.filter]; [done|]. rewrite <- Hk. destruct (p e.1); [|done]. by apply Forall2_cons.
Qed.

Lemma place_twins (e e' : string * value) (l l' : list (string * value)) : twin_entry visible e e' ->
  Forall2 (twin_entry visible) l l' -> Forall2 (twin_entry visible) (place e l) (place e' l').
Proof.
  intros He. induction 1 as [|x x' l l' Hx Hl IH]; cbn [place]; [by constructor|].
  destruct He as [Hk He], Hx as [Hk' Hx]. rewrite <- Hk, <- Hk'. destruct (_ <=? _); repeat (apply Forall2_cons; split; try done).
Qed.

Lemma spread_twins (a a' b b' : list (string * value)) : Forall2 (twin_entry visible) a a' -> Forall2 (twin_entry visible) b b' ->
  Forall2 (twin_entry visible) (spread a b) (spread a' b').
Proof.
  intros Ha Hb. unfold spread. set (f := fold_left _ b a). set (f' := fold_left _ b' a').
  assert (Forall2 (twin_entry visible) f f') as Hf.
  { unfold f, f'. clear f f'. revert a a' Ha. induction Hb as [|[k v] [k' v'] b b' [Hk He] Hb IH]; intros a a' Ha; [done|]. cbn [fst] in Hk. subst k'.
    cbn [fold_left fst snd]. apply IH, set_member_twins; [by split|done]. }
  clearbody f f'. unfold key_order. apply Forall2_app; [|by apply filter_twins with (p := fun k => negb (Json.is_index k))].
  induction (filter_twins Json.is_index f f' Hf) as [|e e' l l' He Hl IH]; [done|]. by apply place_twins.
Qed.

Lemma fields_agree (h h' : heap) (l l' : list (string * value)) : twin_heap visible h h' -> Forall2 (twin_entry visible) l l' ->
  redact_fields h l = redact_fields h' l'.
Proof.
  intros Hh Hl. unfold redact_fields.
  destruct (entries_return ∅ _ (redact_at_returns h _ ∅ (enough h ∅)) l ∅) as (ts & s & E & _); [done|].
  destruct (entries_return ∅ _ (redact_at_returns h' _ ∅ (enough h' ∅)) l' ∅) as (ts' & s' & E' & _); [done|].
  rewrite E, E'. by pose proof (entries_agree visible _ _ (redact_agree visible h h' Hh _ _) _ _ Hl _ _ _ E E') as [= -> ->].
Qed.

(** C19. Secrets stay out of the fields of a log line: two loggings of the same message,
    with the same members and errors of the same names, write the same line when they differ
    only in what is stored under sensitive names, however deep and whatever refers to what;
    in the password of an address that begins a word, where a user name comes before it; and
    in the token after Bearer or Basic, in any case, where that begins the string or
    follows, white space aside, a character other than @ that no token holds, and where what
    follows the token is neither = nor a colon. The message itself is written as it is. *)
Theorem secrets_stay_out (level : option LogLevel) (service time message : string) (context : option Correlation.RequestContext)
    (base base' fields fields' : list (string * value)) (h h' : heap) (at_ : LogLevel) :
  twin_heap visible h h' -> Forall2 (twin_entry visible) base base' -> Forall2 (twin_entry visible) fields fields' ->
  emit (mkOptions level service base) time context h at_ message fields =
  emit (mkOptions level service base') time context h' at_ message fields'.
Proof.
  intros Hh Hb Hf. unfold emit, record_of. cbn [lo_level lo_service lo_base].
  by rewrite (fields_agree h h' _ _ Hh (spread_twins _ _ _ _ Hb Hf)).
Qed.
End Lines.

(** *** A logger does not throw *)
Section Emitted.
Import Logger.

Definition named {A} (k : string) (l : list (string * A)) : option (string * A) := List.find (fun e => bool_decide (e.1 = k)) l.

Lemma named_none {A} (k : string) (l : list (string * A)) : k ∉ l.*1 -> named k l = None.
Proof.
  induction l as [|e l IH]; [done|]. cbn. rewrite not_elem_of_cons. intros [Hk Hl]. rewrite bool_decide_eq_false_2 by congruence. by apply IH.
Qed.
Lemma named_app {A} (k : string) (l l' : list (string * A)) : named k l = None -> named k (l ++ l') = named k l'.
Proof. induction l as [|e l IH]; [done|]. cbn. by destruct (bool_decide _). Qed.

Lemma set_member_other {A} (k j : string) (v : A) (l : list (string * A)) : j <> k -> named k (set_member j v l) = named k l.
Proof.
  intros Hj. induction l as [|e l IH]; cbn.
  - by rewrite bool_decide_eq_false_2.
  - case_bool_decide as He; cbn; [by rewrite !bool_decide_eq_false_2 by congruence|]. by destruct (bool_decide _).
Qed.

Lemma place_names {A} (e : string * A) (l : list (string * A)) (k : string) : k ∈ (place e l).*1 -> k = e.1 \/ k ∈ l.*1.
Proof.
  induction l as [|x l IH]; cbn [place]; [by rewrite list_fmap_singleton, list_elem_of_singleton; left|].
  destruct (_ <=? _); cbn; rewrite ?elem_of_cons; [by intros [|[|]]; auto|]. intros [|H]; [auto|]. destruct (IH H); auto.
Qed.

Lemma key_order_named {A} (k : string) (l : list (string * A)) : Json.is_index k = false -> named k (key_order l) = named k l.
Proof.
  intros Hk. unfold key_order. rewrite named_app.
  - induction l as [|e l IH]; [done|]. cbn [List.filter]. destruct (Json.is_index e.1) eqn:E; cbn.
    + rewrite bool_decide_eq_false_2 by congruence. exact IH.
    + destruct (bool_decide _); [done|]. exact IH.
  - apply named_none. intros Hin.
    assert (forall l : list (string * A), Forall (fun e => Json.is_index e.1 = true) l -> k ∈ (foldr place [] l).*1 -> Json.is_index k = true) as H.
    { clear. induction 1 as [|e l He _ IH]; cbn; [by intros H%elem_of_nil|]. intros [->|H]%place_names; auto. }
    enough (Json.is_index k = true) by congruence. eapply H; [|exact Hin].
    apply Forall_forall. intros e He. by apply list_elem_of_In, List.filter_In in He as [_ He].
Qed.

Lemma spread_named {A} (k : string) (a b : list (string * A)) : Json.is_index k = false -> k ∉ b.*1 -> named k (spread a b) = named k a.
Proof.
  intros Hk Hb. unfold spread. rewrite key_order_named by done. revert a. induction b as [|e b IH]; intros a; [done|]. cbn [fold_left].
  cbn in Hb. rewrite not_elem_of_cons in Hb. destruct Hb as [He Hb]. rewrite IH by done. by apply set_member_other.
Qed.

Lemma traverse_names (f : walk) (l : list (string * value)) : forall s ts s', traverse (redact_entry f) s l = Some (ts, s') -> ts.*1 = l.*1.
Proof.
  induction l as [|[k v] l IH]; intros s ts s'; cbn [traverse]; [by intros [= <- _]|].
  destruct (redact_entry f s (k, v)) as [[[k' t] s1]|] eqn:E; [|done]. rewrite bind_Some_eq.
  destruct (traverse _ s1 l) as [[ts' s2]|] eqn:E'; [|done]. intros [= <- _]. cbn. rewrite (IH _ _ _ E'). f_equal.
  unfold redact_entry in E. cbn [fst snd] in E. destruct (isSensitiveKey k); [by injection E as -> _ _|]. destruct (f s v) as [[t' s3]|]; [|done].
  by injection E as -> _ _.
Qed.

Lemma redacted_names (h : heap) (l : list (string * value)) (k : string) : k ∈ (redact_fields h l).*1 -> k ∈ l.*1.
Proof.
  unfold redact_fields, redact_entries. destruct (traverse _ ∅ l) as [[ts s]|] eqn:E; [|by intros H%elem_of_nil].
  apply traverse_names in E. rewrite bind_Some_eq. change (k ∈ (own ts).*1 -> k ∈ l.*1). rewrite <- E. unfold own.
  rewrite !list_elem_of_fmap. intros (e & -> & He). exists e. split; [done|]. apply list_elem_of_In, List.filter_In in He as [He _]. by apply list_elem_of_In.
Qed.

Definition RESERVED : list string := ["time"; "level"; "service"; "message"; "correlationId"].

(** Logging does not throw unless a field takes the name of one of the five the fallback
    repeats, and writes a line exactly when its level is at or above the logger's. *)
Theorem logging_returns (options : LoggerOptions) (time message : string) (context : option Correlation.RequestContext)
    (h : heap) (at_ : LogLevel) (fields : list (string * value)) :
  (forall k, k ∈ RESERVED -> k ∉ (spread (lo_base options) fields).*1) ->
  exists line, emit options time context h at_ message fields = Ok line /\
    (line = None <-> LEVEL_RANK at_ < LEVEL_RANK (default level_info (lo_level options))).
Proof.
  intros Hfree. unfold emit. destruct (Z.ltb_spec (LEVEL_RANK at_) (LEVEL_RANK (default level_info (lo_level options)))) as [Hlt|Hge].
  { by exists None. }
  set (record := record_of _ _ _ _ _ _). destruct (stringify record) as [line|e] eqn:E.
  { exists (Some line). split; [done|]. split; [done|lia]. }
  assert (forall k, k ∈ RESERVED -> has_bigint (held k record) = false) as Hheld.
  { intros k Hk. unfold held. fold (named k record). unfold record, record_of.
    assert (k ∉ (redact_fields h (spread (lo_base options) fields)).*1) as Hn by (intros H; by apply (Hfree k Hk), (redacted_names h)).
    assert (Json.is_index k = false) as Hi.
    { unfold RESERVED in Hk. repeat (apply elem_of_cons in Hk as [->|Hk]; [vm_compute; reflexivity|]). by apply elem_of_nil in Hk. }
    rewrite spread_named by done. unfold RESERVED in Hk.
    repeat (apply elem_of_cons in Hk as [->|Hk]; [destruct context as [[c [r|] [u|]]|]; vm_compute; reflexivity|]). by apply elem_of_nil in Hk. }
  assert (has_bigint (t_object (fallback record)) = false) as Hfb.
  { unfold fallback. cbn [has_bigint fmap list_fmap app existsb snd]. rewrite !Hheld; [done|by repeat (first [by left|right])..]. }
  unfold stringify. rewrite Hfb. eexists. split; [reflexivity|]. split; [done|lia].
Qed.
End Emitted.
End Hiding.
