(* ===== verification/SearchQuery.v ===== *)
(** * A search as a link ([packages/contracts/src/search.ts])

    The radii and the pages; [listingSearchQueryString], which writes a search as a
    query; and the schema that reads one, parameter by parameter, each given once.  How
    a server splits a query into parameters is the class [QueryParser]. *)

From Stdlib Require Import Ascii SpecFloat.
From Stdlib Require String.
From S2P Require Import Prelude JsNumber Text Json Http LocalTime CoreText Listings.

#[local] Open Scope string_scope.
#[local] Open Scope list_scope.
#[local] Open Scope Z_scope.

(** ** [Number(s)] *)
Module Number_.
Definition digit_in (base : Z) (c : ascii) : option Z :=
  match Uri.hex_value c with Some d => if d <? base then Some d else None | None => None end.
Fixpoint digits_in (base : Z) (acc : Z) (l : text) : option Z :=
  match l with
  | [] => Some acc
  | c :: l' => d ← digit_in base c; digits_in base (acc * base + d) l'
  end.
(** [0x], [0o] and [0b], with digits. *)
Definition radix_literal (l : text) : option number :=
  match l with
  | c :: p :: l' =>
      if negb (bool_decide (c = "0"%char)) || bool_decide (l' = []) then None
      else
        let base := if bool_decide (p ∈ ["x"; "X"]%char) then 16 else if bool_decide (p ∈ ["o"; "O"]%char) then 8
                    else if bool_decide (p ∈ ["b"; "B"]%char) then 2 else 0 in
        Js.of_Z <$> digits_in base 0 l'
  | _ => None
  end.

Definition exponent (l : text) : option Z :=
  match l with
  | [] => Some 0
  | c :: l' =>
      if negb (bool_decide (c ∈ ["e"; "E"]%char)) then None
      else
        let (sign, digits) := match l' with
                              | "-"%char :: d => (-1, d)
                              | "+"%char :: d => (1, d)
                              | d => (1, d)
                              end in
        match span_digits digits with
        | (d, []) => if bool_decide (d = []) then None else Some (sign * number_of d)
        | _ => None
        end
  end.
(** A decimal literal, without its sign. *)
Definition decimal_literal (s : bool) (l : text) : option number :=
  let (whole, r) := span_digits l in
  let (fraction, r') := match r with "."%char :: r1 => span_digits r1 | _ => ([], r) end in
  if bool_decide (whole ++ fraction = []) then None
  else (fun e => Json.of_decimal s (number_of (whole ++ fraction)) (e - Z.of_nat (length fraction))) <$> exponent r'.

Definition signed_literal (l : text) : option number :=
  let (s, r) := match l with "-"%char :: r => (true, r) | "+"%char :: r => (false, r) | r => (false, r) end in
  if bool_decide (r = chars "Infinity") then Some (S754_infinity s) else decimal_literal s r.

Definition number_of_string (s : string) : number :=
  let l := trim_chars (chars s) in
  match l with
  | [] => S754_zero false
  | _ => match radix_literal l with
         | Some n => n
         | None => default S754_nan (signed_literal l)
         end
  end.
End Number_.

(** ** Splitting a query *)
Definition pair_text (p : string * text) : text := chars p.1 ++ "="%char :: p.2.
Fixpoint joined_pairs (l : list (string * text)) : text :=
  match l with
  | [] => []
  | [p] => pair_text p
  | p :: l' => pair_text p ++ "&"%char :: joined_pairs l'
  end.

(** A server gives each parameter of a query its percent-decoded value. *)
Class QueryParser : Type := {
  parse_query : text -> string -> option string;
  parse_query_pairs : forall (l : list (string * text)) (k : string) (t v : text),
    NoDup (fst <$> l) -> Forall (fun p => forallb Uri.unreserved (chars p.1) = true /\ forallb Uri.query_char p.2 = true) l ->
    (k, t) ∈ l -> Uri.decode t = Some v -> parse_query (joined_pairs l) k = Some (str v);
  parse_query_absent : forall (l : list (string * text)) (k : string),
    Forall (fun p => forallb Uri.unreserved (chars p.1) = true /\ forallb Uri.query_char p.2 = true) l ->
    forallb Uri.unreserved (chars k) = true -> k ∉ fst <$> l -> parse_query (joined_pairs l) k = None }.

Module SearchQuery.
Import Listings.

Definition SEARCH_RADII_MILES : list Z := [5; 10; 20; 50; 100].
Definition DEFAULT_SEARCH_RADIUS_MILES : Z := 5.
(** [indexOf] is -1 for what is not there. *)
Definition index_of (x : Z) (l : list Z) : Z := match list_find (x =.) l with Some (i, _) => Z.of_nat i | None => -1 end.
Definition widerRadius (radius : Z) : option Z := SEARCH_RADII_MILES !! Z.to_nat (index_of radius SEARCH_RADII_MILES + 1).

Definition SEARCH_PAGE_SIZE : Z := 24.
Definition MAX_SEARCH_PAGE : Z := 20.
Definition nextSearchPage (page : Z) : option Z := if MAX_SEARCH_PAGE <=? page then None else Some (page + 1).
Definition previousSearchPage (page : Z) : option Z := if page <=? FIRST_SEARCH_PAGE then None else Some (page - 1).

(** *** Writing *)
Definition encoded (s : string) : text := Uri.encode (chars s).
Definition parts (search : ListingSearchQuery) : list (string * text) :=
  [("postcode", encoded (q_postcode search)); ("radiusMiles", digits_of (q_radiusMiles search))] ++
  match q_keyword search with Some k => [("keyword", encoded k)] | None => [] end ++
  match q_category search with Some c => [("category", encoded c)] | None => [] end ++
  (if q_page search =? FIRST_SEARCH_PAGE then [] else [("page", digits_of (q_page search))]) ++
  match q_dates search with
  | Some (from_, to_) => [("availableFrom", chars from_); ("availableTo", chars to_)]
  | None => []
  end.
Definition listingSearchQueryString (search : ListingSearchQuery) : text := joined_pairs (parts search).
Definition PUBLIC_LISTING_SEARCH_ROUTE : string := "/public/listings".
Definition publicListingSearchPath (search : ListingSearchQuery) : text :=
  chars PUBLIC_LISTING_SEARCH_ROUTE ++ "?"%char :: listingSearchQueryString search.

(** *** Reading *)
Section Reading.
Context {L : Luxon}.

Definition refused {A} : result A := Err (ForeignError "The search request did not match the expected contract").
Definition blank (s : string) : bool := bool_decide (trim_chars (chars s) = []).

Definition postcodeSchema (given : option string) : result string :=
  match given with
  | None => refused
  | Some s => if Postcode.isValid (trim s) then Postcode.parse (trim s) else refused
  end.

(** [z.coerce.number] and a whole number out of a list. *)
Definition whole_among (choices : list Z) (s : string) : result Z :=
  match List.find (fun z => bool_decide (Number_.number_of_string s = Js.of_Z z)) choices with
  | Some z => Ok z
  | None => refused
  end.
Definition searchRadiusMilesSchema (given : option string) : result Z :=
  match given with None => Ok DEFAULT_SEARCH_RADIUS_MILES | Some s => whole_among SEARCH_RADII_MILES s end.
Definition searchPageSchema (given : option string) : result Z :=
  match given with None => Ok FIRST_SEARCH_PAGE | Some s => whole_among (seqZ FIRST_SEARCH_PAGE MAX_SEARCH_PAGE) s end.

Definition MIN_CATEGORY_SLUG_LENGTH : nat := 2.
Definition MAX_CATEGORY_SLUG_LENGTH : nat := 64.
Definition slug_char (c : ascii) : bool := is_digit c || (97 <=? code c) && (code c <=? 122).
(** [/^[a-z0-9]+(?:-[a-z0-9]+)*$/]: [inside] says that the last character was not a dash. *)
Fixpoint slug_from (inside : bool) (l : text) : bool :=
  match l with
  | [] => inside
  | c :: l' => if slug_char c then slug_from true l' else bool_decide (c = "-"%char) && inside && slug_from false l'
  end.
Definition CATEGORY_SLUG_PATTERN (l : text) : bool := slug_from false l.
Definition searchCategorySchema (given : option string) : result (option string) :=
  match given with
  | None => Ok None
  | Some s =>
      if blank s then Ok None
      else if (MIN_CATEGORY_SLUG_LENGTH <=? length (chars s))%nat && (length (chars s) <=? MAX_CATEGORY_SLUG_LENGTH)%nat &&
              CATEGORY_SLUG_PATTERN (chars s)
           then Ok (Some s) else refused
  end.

Definition MAX_SEARCH_KEYWORD_LENGTH : nat := 100.
Definition searchKeywordSchema (given : option string) : result (option string) :=
  match given with
  | None => Ok None
  | Some s =>
      if blank s then Ok None
      else if (length (chars (trim s)) <=? MAX_SEARCH_KEYWORD_LENGTH)%nat then Ok (Some (trim s)) else refused
  end.

Definition calendarDateSchema (s : string) : result string :=
  match Time.startOfLocalDay (trim s) PLATFORM_TIMEZONE with Ok _ => Ok (trim s) | Err _ => refused end.
Definition optional_date (given : option string) : result (option string) :=
  match given with
  | None => Ok None
  | Some s => if blank s then Ok None else Some <$> calendarDateSchema s
  end.
Definition searchDatesSchema (availableFrom availableTo : option string) : result (option (string * string)) :=
  from_ ← optional_date availableFrom;
  to_ ← optional_date availableTo;
  match from_, to_ with
  | None, None => Ok None
  | Some f, Some t =>
      if String.ltb t f then refused
      else
        s ← Time.startOfLocalDay f PLATFORM_TIMEZONE;
        e ← Time.startOfLocalDay t PLATFORM_TIMEZONE;
        days ← Time.rentalDayCount s e PLATFORM_TIMEZONE;
        if RentalPeriod.MAX_MAXIMUM_RENTAL_DAYS <? days + 1 then refused else Ok (Some (f, t))
  | _, _ => refused
  end.

Definition parseListingSearchQuery (raw : string -> option string) : result ListingSearchQuery :=
  postcode ← postcodeSchema (raw "postcode");
  radiusMiles ← searchRadiusMilesSchema (raw "radiusMiles");
  page ← searchPageSchema (raw "page");
  category ← searchCategorySchema (raw "category");
  keyword ← searchKeywordSchema (raw "keyword");
  dates ← searchDatesSchema (raw "availableFrom") (raw "availableTo");
  Ok (mkQuery postcode radiusMiles category keyword dates page).
End Reading.

(** ** A link that was written is read back *)
Section Links.
Context {L : Luxon} {Server : QueryParser}.
(** A date of the calendar is written in digits and dashes. *)
Hypothesis dates_plain : forall d, is_date d -> forallb Uri.unreserved (chars (toISODate d)) = true.

Lemma decode_unreserved (l : text) : forallb Uri.unreserved l = true -> Uri.decode l = Some l /\ forallb Uri.query_char l = true.
Proof.
  induction l as [|c l IH]; [done|]. cbn [forallb]. intros [Hc Hl]%andb_true_iff. destruct (IH Hl) as [IH1 IH2].
  assert (Uri.encoded_char c = [c]) as E by (unfold Uri.encoded_char; by rewrite Hc).
  split; [|unfold Uri.query_char at 1; by rewrite Hc, IH2].
  pose proof (Uri.decode_char c l) as H. rewrite E, IH1 in H. exact H.
Qed.

Lemma decode_encoded (s : string) : Uri.decode (encoded s) = Some (chars s) /\ forallb Uri.query_char (encoded s) = true.
Proof. split; [apply Uri.decode_encode|apply Uri.encode_query]. Qed.

(** *** What the schemas accept, they accept again *)
Lemma strip_trim (s : string) : Postcode.strip (trim s) = Postcode.strip s.
Proof.
  unfold Postcode.strip, trim. rewrite chars_str. f_equal. set (p := fun c => negb (is_space c)).
  assert (forall l, List.filter p (drop_while is_space l) = List.filter p l) as Hd.
  { induction l as [|c l IH]; [done|]. cbn [drop_while List.filter]. destruct (is_space c) eqn:E; [|done].
    assert (p c = false) as -> by (unfold p; by rewrite E). done. }
  assert (forall l, List.filter p (reverse l) = reverse (List.filter p l)) as Hr.
  { induction l as [|c l IH]; [done|]. rewrite reverse_cons, List.filter_app, IH. cbn [List.filter]. destruct (p c); [by rewrite reverse_cons|by rewrite app_nil_r]. }
  unfold trim_chars. by rewrite Hr, Hd, Hr, Hd, reverse_involutive.
Qed.

Lemma postcode_again (given : option string) (p : string) : postcodeSchema given = Ok p -> postcodeSchema (Some p) = Ok p.
Proof.
  destruct given as [s|]; [|done]. cbn. destruct (Postcode.isValid (trim s)); [|done]. intros H.
  destruct (Postcode.postcode_canonical _ _ H) as (H1 & H2 & _).
  assert (Postcode.isValid (trim p) = true) as -> by (unfold Postcode.isValid; by rewrite strip_trim).
  revert H1. unfold Postcode.parse. by rewrite strip_trim.
Qed.

Lemma radius_again (given : option string) (r : Z) : searchRadiusMilesSchema given = Ok r ->
  searchRadiusMilesSchema (Some (str (digits_of r))) = Ok r.
Proof.
  intros H. assert (r ∈ SEARCH_RADII_MILES) as Hr.
  { destruct given as [s|]; cbn in H; [|injection H as <-; by left]. unfold whole_among in H.
    destruct (List.find _ SEARCH_RADII_MILES) as [z|] eqn:E; [|done]. injection H as <-. apply List.find_some in E as [E _]. by apply list_elem_of_In. }
  repeat (apply elem_of_cons in Hr as [->|Hr]; [vm_compute; reflexivity|]). by apply elem_of_nil in Hr.
Qed.

Lemma page_again (given : option string) (n : Z) : searchPageSchema given = Ok n -> searchPageSchema (Some (str (digits_of n))) = Ok n.
Proof.
  intros H. assert (n ∈ seqZ FIRST_SEARCH_PAGE MAX_SEARCH_PAGE) as Hn.
  { destruct given as [s|]; cbn in H; [|injection H as <-; by left]. unfold whole_among in H.
    destruct (List.find _ (seqZ _ _)) as [z|] eqn:E; [|done]. injection H as <-. apply List.find_some in E as [E _]. by apply list_elem_of_In. }
  change (seqZ FIRST_SEARCH_PAGE MAX_SEARCH_PAGE) with (seqZ 1 20) in Hn. vm_compute in Hn.
  repeat (apply elem_of_cons in Hn as [->|Hn]; [vm_compute; reflexivity|]). by apply elem_of_nil in Hn.
Qed.

Lemma category_again (given : option string) (c : option string) : searchCategorySchema given = Ok c -> searchCategorySchema c = Ok c.
Proof.
  destruct given as [s|]; cbn; [|by intros [= <-]]. destruct (blank s) eqn:Hb; [by intros [= <-]|].
  destruct (_ && _ && _) eqn:E; [|done]. intros [= <-]. cbn. by rewrite Hb, E.
Qed.

Lemma trim_twice (s : string) : trim (trim s) = trim s.
Proof. unfold trim. by rewrite chars_str, trim_trim. Qed.
Lemma blank_trim (s : string) : blank (trim s) = blank s.
Proof. unfold blank, trim. by rewrite chars_str, trim_trim. Qed.

Lemma keyword_again (given : option string) (k : option string) : searchKeywordSchema given = Ok k -> searchKeywordSchema k = Ok k.
Proof.
  destruct given as [s|]; cbn; [|by intros [= <-]]. destruct (blank s) eqn:Hb; [by intros [= <-]|].
  destruct (_ <=? _)%nat eqn:E; [|done]. intros [= <-]. cbn. by rewrite blank_trim, Hb, trim_twice, E.
Qed.

Lemma accepted_plain (s : string) (t : Ledger.instant) : Time.startOfLocalDay s PLATFORM_TIMEZONE = Ok t -> forallb Uri.unreserved (chars s) = true.
Proof.
  unfold Time.startOfLocalDay, Time.parse_date. rewrite platform_valid. cbn [negb].
  destruct (fromFormat s) as [d|] eqn:E; [|done]. apply fromFormat_sound in E as [Hd <-]. intros _. by apply dates_plain.
Qed.

Lemma date_again (given : option string) (d : string) : optional_date given = Ok (Some d) ->
  optional_date (Some d) = Ok (Some d) /\ forallb Uri.unreserved (chars d) = true.
Proof.
  destruct given as [s|]; cbn; [|done]. destruct (blank s) eqn:Hb; [done|]. unfold calendarDateSchema.
  destruct (Time.startOfLocalDay (trim s) PLATFORM_TIMEZONE) as [t|] eqn:E; [|done]. intros [= <-].
  split; [|by apply (accepted_plain _ t)]. cbn. by rewrite blank_trim, Hb, trim_twice, E.
Qed.

Lemma dates_again (from_ to_ : option string) (x : option (string * string)) : searchDatesSchema from_ to_ = Ok x ->
  searchDatesSchema (fst <$> x) (snd <$> x) = Ok x /\
  match x with Some (f, t) => forallb Uri.unreserved (chars f) = true /\ forallb Uri.unreserved (chars t) = true | None => True end.
Proof.
  unfold searchDatesSchema. unfold_result. destruct (optional_date from_) as [[f|]|] eqn:Hf; [| |done];
    destruct (optional_date to_) as [[t|]|] eqn:Ht; try done; [|by intros [= <-]].
  apply date_again in Hf as [Hf Hf'], Ht as [Ht Ht'].
  destruct (String.ltb t f) eqn:E1; [done|]. destruct (Time.startOfLocalDay f PLATFORM_TIMEZONE) as [s|] eqn:E2; [|done].
  destruct (Time.startOfLocalDay t PLATFORM_TIMEZONE) as [e|] eqn:E3; [|done].
  destruct (Time.rentalDayCount s e PLATFORM_TIMEZONE) as [n|] eqn:E4; [|done]. destruct (_ <? _) eqn:E5; [done|]. intros [= <-].
  split; [|done]. cbn [fmap option_fmap option_map fst snd]. by rewrite Hf, Ht, E1, E2, E3, E4, E5.
Qed.

(** *** The parameters of a link *)
Definition plain_pair (p : string * text) : Prop := forallb Uri.unreserved (chars p.1) = true /\ forallb Uri.query_char p.2 = true.

Lemma digits_plain (n : Z) : 0 <= n -> forallb Uri.unreserved (digits_of n) = true.
Proof.
  intros Hn. destruct (digits_of_spec n Hn) as [Hd _]. apply forallb_forall. intros c Hc. unfold all_digits in Hd. rewrite Forall_forall in Hd.
  apply list_elem_of_In, Hd in Hc. unfold Uri.unreserved. rewrite Hc. by rewrite !orb_true_r.
Qed.

Definition date_plain (x : option (string * string)) : Prop :=
  match x with Some (f, t) => forallb Uri.unreserved (chars f) = true /\ forallb Uri.unreserved (chars t) = true | None => True end.

Lemma parts_plain (q : ListingSearchQuery) : 0 <= q_radiusMiles q -> 0 <= q_page q -> date_plain (q_dates q) ->
  Forall plain_pair (parts q) /\ NoDup (fst <$> parts q).
Proof.
  intros Hr Hp Hd.
  assert (forall s, forallb Uri.query_char (encoded s) = true) as He by (intros s; apply decode_encoded).
  assert (forall n, 0 <= n -> forallb Uri.query_char (digits_of n) = true) as Hn by (intros n H; by apply decode_unreserved, digits_plain).
  unfold parts. destruct (q_keyword q), (q_category q), (q_page q =? FIRST_SEARCH_PAGE), (q_dates q) as [[f t]|];
    (split; [repeat (apply Forall_cons; split); try apply Forall_nil_2; (split; [reflexivity|cbn [snd]; auto; try (apply decode_unreserved; apply Hd)])
            |apply (bool_decide_unpack _); vm_compute; exact I]).
Qed.

Lemma among_elem (choices : list Z) (s : string) (z : Z) : whole_among choices s = Ok z -> z ∈ choices.
Proof.
  unfold whole_among. destruct (List.find _ choices) as [x|] eqn:E; [|done]. intros [= <-]. apply List.find_some in E as [E _]. by apply list_elem_of_In.
Qed.

(** What the server makes of a link. *)
Lemma parameters (q : ListingSearchQuery) : 0 <= q_radiusMiles q -> 0 <= q_page q -> date_plain (q_dates q) ->
  let read := parse_query (listingSearchQueryString q) in
  read "postcode" = Some (q_postcode q) /\ read "radiusMiles" = Some (str (digits_of (q_radiusMiles q))) /\
  read "keyword" = q_keyword q /\ read "category" = q_category q /\
  read "page" = (if q_page q =? FIRST_SEARCH_PAGE then None else Some (str (digits_of (q_page q)))) /\
  read "availableFrom" = fst <$> q_dates q /\ read "availableTo" = snd <$> q_dates q.
Proof.
  intros Hr Hp Hd read. destruct (parts_plain q Hr Hp Hd) as [Hplain Hnd].
  assert (forall k t v, (k, t) ∈ parts q -> Uri.decode t = Some v -> read k = Some (str v)) as Hget
    by (intros k t v; by apply parse_query_pairs).
  assert (forall k, forallb Uri.unreserved (chars k) = true -> k ∉ fst <$> parts q -> read k = None) as Hnone by (intros k; by apply parse_query_absent).
  assert (forall k s, (k, encoded s) ∈ parts q -> read k = Some s) as Henc.
  { intros k s Hin. rewrite <- (str_chars s). apply (Hget k (encoded s)); [done|apply decode_encoded]. }
  assert (forall k n, 0 <= n -> (k, digits_of n) ∈ parts q -> read k = Some (str (digits_of n))) as Hdig.
  { intros k n Hn Hin. apply (Hget k (digits_of n)); [done|]. by apply decode_unreserved, digits_plain. }
  assert (forall k s, forallb Uri.unreserved (chars s) = true -> (k, chars s) ∈ parts q -> read k = Some s) as Hraw.
  { intros k s Hs Hin. rewrite <- (str_chars s). apply (Hget k (chars s)); [done|by apply decode_unreserved]. }
  unfold parts in *. destruct (q_keyword q) as [w|], (q_category q) as [c|], (q_page q =? FIRST_SEARCH_PAGE), (q_dates q) as [[f t]|];
    cbn [app fmap option_fmap option_map fst snd date_plain] in *; split_and!;
    first [apply Hnone; [reflexivity|apply (bool_decide_unpack _); vm_compute; exact I]
          |apply Hdig; [done|]; by repeat (first [by left|right])
          |apply Henc; by repeat (first [by left|right])
          |apply Hraw; [apply Hd|]; by repeat (first [by left|right])].
Qed.

(** C31. Every search that was understood, written as a link and read by the API, is the
    same search: postcode, radius, words, category, dates and page. *)
Theorem search_link_reads_back (raw : string -> option string) (q : ListingSearchQuery) :
  parseListingSearchQuery raw = Ok q ->
  parseListingSearchQuery (parse_query (listingSearchQueryString q)) = Ok q.
Proof.
  unfold parseListingSearchQuery at 1. unfold_result.
  destruct (postcodeSchema (raw "postcode")) as [p|] eqn:H1; [|done]. destruct (searchRadiusMilesSchema (raw "radiusMiles")) as [r|] eqn:H2; [|done].
  destruct (searchPageSchema (raw "page")) as [n|] eqn:H3; [|done]. destruct (searchCategorySchema (raw "category")) as [c|] eqn:H4; [|done].
  destruct (searchKeywordSchema (raw "keyword")) as [k|] eqn:H5; [|done].
  destruct (searchDatesSchema (raw "availableFrom") (raw "availableTo")) as [x|] eqn:H6; [|done]. intros [= <-].
  apply postcode_again in H1. apply radius_again in H2. apply page_again in H3. apply category_again in H4. apply keyword_again in H5.
  apply dates_again in H6 as [H6 H7].
  assert (0 <= r) as Hr by (apply among_elem in H2; unfold SEARCH_RADII_MILES in H2; set_solver by lia).
  assert (0 <= n) as Hn by (apply among_elem, elem_of_seqZ in H3; unfold FIRST_SEARCH_PAGE in H3; lia).
  unfold parseListingSearchQuery. unfold_result.
  destruct (parameters (mkQuery p r c k x n) Hr Hn H7) as (-> & -> & -> & -> & -> & -> & ->).
  cbn [q_postcode q_radiusMiles q_category q_keyword q_dates q_page].
  change (searchDatesSchema (fst <$> x) (snd <$> x) = Ok x) in H6. rewrite H1, H2, H4, H5, H6. destruct (Z.eqb_spec n FIRST_SEARCH_PAGE) as [->|Hne]; [done|]. by rewrite H3.
Qed.
End Links.
End SearchQuery.
