(* ===== verification/SearchTheorems.v ===== *)
(** * Search: pages, privacy, and what a searcher can book

    A search's pages are consecutive slices of one ranking, which holds exactly what
    is publicly visible, fits the filters, is free for the dates as availability says,
    and is near by the point that is published; nothing that is answered depends on
    where a listing really is. *)

From Stdlib Require String.
From Stdlib Require Import SpecFloat.
From S2P Require Import Prelude JsNumber Text Money Ledger Columns BookingState BookingStore Bookings LocalTime.
From S2P Require Import Answers CatalogueStore ListingStore ListingRows Listings ListingProofs Search.

#[local] Open Scope string_scope.
#[local] Open Scope list_scope.
#[local] Open Scope Z_scope.

Import CatalogueDb ListingDb Publication Distance Fuzz Location ListingSearch.
Import LocalPeriod (mkPeriod, p_startAt, p_endAt, periodFromLocalDates).

(** ** The order of the results *)

(** Where a number stands in the order of Postgres. *)
Definition rank (x : Js.number) : Z * Z * Z :=
  match x with
  | S754_infinity true => (-2, 0, 0)
  | S754_finite true m e => (-1, - e, Z.neg m)
  | S754_zero _ => (0, 0, 0)
  | S754_finite false m e => (1, e, Z.pos m)
  | S754_infinity false => (2, 0, 0)
  | S754_nan => (3, 0, 0)
  end.
Definition rank_le (a b : Z * Z * Z) : Prop :=
  let '(a1, a2, a3) := a in let '(b1, b2, b3) := b in
  a1 < b1 \/ a1 = b1 /\ (a2 < b2 \/ a2 = b2 /\ a3 <= b3).

Lemma float8_le_rank (x y : Js.number) : float8_le x y = true <-> rank_le (rank x) (rank y).
Proof.
  unfold float8_le, rank_le, rank.
  destruct x as [s|s| |s m e], y as [t|t| |t n f]; try destruct s; try destruct t; cbn; try (split; intros; lia || done);
    destruct (Z.compare_spec e f) as [->| |]; try (split; intros; lia || done);
    change (Pos.compare_cont Eq m n) with (Pos.compare m n); destruct (Pos.compare_spec m n) as [->| |]; cbn;
    split; intros; lia || done.
Qed.

Lemma float8_le_total (x y : Js.number) : float8_le x y = true \/ float8_le y x = true.
Proof.
  rewrite !float8_le_rank. unfold rank_le. destruct (rank x) as [[? ?] ?], (rank y) as [[? ?] ?]. lia.
Qed.

Lemma float8_le_trans (x y z : Js.number) : float8_le x y = true -> float8_le y z = true -> float8_le x z = true.
Proof.
  rewrite !float8_le_rank. unfold rank_le. destruct (rank x) as [[? ?] ?], (rank y) as [[? ?] ?], (rank z) as [[? ?] ?]. lia.
Qed.

#[export] Instance nearer_total : Total nearer.
Proof.
  intros a b. unfold nearer. destruct (float8_le_total (dr_metres a) (dr_metres b)) as [H|H];
    destruct (total String.le (dr_listingId a) (dr_listingId b)) as [Hi|Hi]; rewrite ?H;
    [left; by split| | |right; by split].
  - destruct (float8_le (dr_metres b) (dr_metres a)) eqn:E; [right; by split|left; by split].
  - destruct (float8_le (dr_metres a) (dr_metres b)) eqn:E; [left; by split|right; by split].
Qed.

#[export] Instance nearer_trans : Transitive nearer.
Proof.
  intros a b c [Hab Hi] [Hbc Hj]. split; [by eapply float8_le_trans|]. intros Hca.
  etrans; [apply Hi|apply Hj]; eapply float8_le_trans; eassumption.
Qed.

(** ** What a search finds *)
Section Finding.
Context {Ids : UuidSource} {Pg : PgTypes} {Order : DescOrder} {Enc : FieldEncryptor}.
Context {Gis : PostGIS} {Words : TextSearch} {L : Luxon}.

(** What somebody asks for, and from where. *)
Record question : Type := mkQuestion {
  qu_origin : Point; qu_radius : Js.number; qu_category : option string; qu_keyword : option string;
  qu_period : option LocalPeriod.LocalPeriod }.

(** A listing that answers it: visible, fitting the filters, free for the dates as
    availability says, and within the radius by the point that is published. *)
Record answers (t : Tables) (q : question) (d : DistanceRow) (r : ListingRow) (g : geography) : Prop := {
  an_row : r ∈ listings (t_catalogue t);
  an_id : li_id r = dr_listingId d;
  an_visible : isPubliclyVisible (li_status r) (li_moderationState r) = true;
  an_category : forall c, qu_category q = Some c -> li_categoryId r = c;
  an_keyword : forall k, qu_keyword q = Some k -> document_matches (li_title r) (li_description r) k = true;
  an_free : forall p, qu_period q = Some p ->
    BookingDb.reasonUnavailable (li_id r) (p_startAt p) (p_endAt p) (t_bookings t) = None;
  an_published : exists l, location_of (t_catalogue t) (li_id r) = Some l /\ fuzzedPoint l = Some g;
  an_near : st_dwithin g (origin_point (qu_origin q)) (qu_radius q) = true;
  an_metres : dr_metres d = st_distance g (origin_point (qu_origin q)) }.

Definition forward (q : question) : Prop := forall p, qu_period q = Some p -> p_startAt p < p_endAt p.

Lemma free_for_dates (books : BookingDb.Db) (p : LocalPeriod.LocalPeriod) (r : ListingRow) :
  p_startAt p < p_endAt p ->
  freeForDates books (Some p) r = true <->
  BookingDb.reasonUnavailable (li_id r) (p_startAt p) (p_endAt p) books = None.
Proof.
  intros Hp. unfold freeForDates, BookingDb.reasonUnavailable, range_meets.
  assert ((p_startAt p <? p_endAt p) = true) as -> by lia. cbn. unfold BookingDb.occupying.
  destruct (existsb _ (BookingDb.blocks books)); cbn; [by split|].
  by destruct (existsb _ (BookingDb.bookings books)); cbn; split.
Qed.

Lemma distance_row_spec (t : Tables) (q : question) (loc : LocationRow) (d : DistanceRow) :
  catalogue_wf (t_catalogue t) -> forward q -> loc ∈ locations (t_catalogue t) ->
  distance_row (t_bookings t) (t_catalogue t) (qu_origin q) (qu_radius q) (qu_category q) (qu_keyword q) (qu_period q) loc = Some d
  <-> loc_listingId loc = dr_listingId d /\ exists r g, answers t q d r g.
Proof.
  intros Hwf Hf Hloc. unfold distance_row.
  pose proof (find_by_unique loc_listingId _ loc (wf_location_ids _ Hwf) Hloc) as Hfind.
  split.
  - destruct (find_by li_id _ _) as [r|] eqn:Hr; [|done]. apply find_by_Some in Hr as [Hr Hid]. cbn.
    destruct (fuzzedPoint loc) as [g|] eqn:Hg; [|done]. cbn. destruct (_ && _) eqn:E; [|done]. intros [= <-]. cbn.
    rewrite !andb_true_iff in E. destruct E as [[[[Hv Hc] Hk] Hfree] Hn]. split; [congruence|]. exists r, g.
    split; try done.
    + intros c Hc'. rewrite Hc' in Hc. by apply bool_decide_eq_true in Hc.
    + intros k Hk'. by rewrite Hk' in Hk.
    + intros p Hp. rewrite Hp in Hfree. apply free_for_dates; [by apply Hf|done].
    + exists loc. split; [|done]. unfold location_of. by rewrite Hid.
  - intros (Hid & r & g & [Hr Hri Hv Hc Hk Hfree (l & Hl & Hg) Hn Hm]).
    pose proof (find_by_unique li_id _ r (wf_listing_ids _ Hwf) Hr) as Hfr. rewrite Hid, <- Hri, Hfr. cbn.
    assert (l = loc) as -> by (unfold location_of in Hl; rewrite Hri, <- Hid in Hl; congruence).
    rewrite Hg. cbn. change (PUBLICLY_VISIBLE r) with (isPubliclyVisible (li_status r) (li_moderationState r)).
    assert (inCategory (qu_category q) r = true) as ->.
    { unfold inCategory. destruct (qu_category q) as [c|]; [|done]. by apply bool_decide_eq_true_2, Hc. }
    assert (matchesKeyword (qu_keyword q) r = true) as -> by (unfold matchesKeyword; destruct (qu_keyword q); auto).
    assert (freeForDates (t_bookings t) (qu_period q) r = true) as ->.
    { destruct (qu_period q) as [p|] eqn:Ep; [|done]. apply free_for_dates; [by apply Hf|by apply Hfree]. }
    rewrite Hv, Hn. cbn. destruct d as [i m]. cbn in *. by rewrite Hri, Hm.
Qed.

Definition ranking (t : Tables) (q : question) : list DistanceRow :=
  ranked t (qu_origin q) (qu_radius q) (qu_category q) (qu_keyword q) (qu_period q).

Lemma omap_sublist_keys {A B} (f : A -> option B) (ka : A -> string) (kb : B -> string) (l : list A) :
  (forall x y, x ∈ l -> f x = Some y -> kb y = ka x) -> kb <$> omap f l `sublist_of` ka <$> l.
Proof.
  induction l as [|x l IH]; intros H; cbn; [constructor|].
  assert (kb <$> omap f l `sublist_of` ka <$> l) as Hl by (apply IH; intros y z Hy; apply H; by right).
  destruct (f x) as [y|] eqn:E; cbn; [|by apply sublist_cons].
  rewrite (H x y) by (by left || done). by apply sublist_skip.
Qed.

(** The ranking holds exactly the answers, each once, nearest first. *)
Lemma ranking_spec (t : Tables) (q : question) :
  catalogue_wf (t_catalogue t) -> forward q ->
  (forall d, d ∈ ranking t q <-> exists r g, answers t q d r g) /\
  NoDup (dr_listingId <$> ranking t q) /\ StronglySorted nearer (ranking t q).
Proof.
  intros Hwf Hf. unfold ranking, ranked. set (f := distance_row _ _ _ _ _ _ _).
  pose proof (merge_sort_Permutation nearer (omap f (locations (t_catalogue t)))) as Hperm. split_and!.
  - intros d. rewrite Hperm, list_elem_of_omap. split.
    + intros (loc & Hloc & Hd). by apply (distance_row_spec t q loc d) in Hd as [_ ?].
    + intros (r & g & Ha). pose proof Ha as [_ Hid _ _ _ _ (l & Hl & _) _ _]. apply find_by_Some in Hl as [Hin Hl].
      exists l. split; [done|]. apply (distance_row_spec t q l d Hwf Hf Hin). split; [congruence|eauto].
  - rewrite Hperm. eapply sublist_NoDup; [exact (wf_location_ids _ Hwf)|]. apply omap_sublist_keys.
    intros loc d Hloc Hd. by apply (distance_row_spec t q loc d Hwf Hf Hloc) in Hd as [-> _].
  - apply StronglySorted_merge_sort; apply _.
Qed.
End Finding.

(** ** Pages *)
Section Pages.
Context {Ids : UuidSource} {Pg : PgTypes} {Order : DescOrder} {Enc : FieldEncryptor}.
Context {Gis : PostGIS} {Words : TextSearch} {L : Luxon}.
Context {S : Type} {Geocoder : PostcodeGeocoder S}.
Variable tables : S -> Tables.

(** The dates asked for are in order, as the request schema has them, and are instants. *)
Definition dates_of (search : ProximitySearch) : result (option LocalPeriod.LocalPeriod) :=
  match ps_dates search with
  | None => Ok None
  | Some (from_, to_) => p ← periodFromLocalDates from_ to_; Ok (Some p)
  end.

(** A search that the tables can answer, as this question. *)
Record asks (search : ProximitySearch) (origin : Point) (q : question) : Prop := {
  as_origin : qu_origin q = origin;
  as_radius : qu_radius q = milesToMetres (radiusMiles search);
  as_category : match ps_categoryId search with
                | None => qu_category q = None
                | Some c => exists u, uuid_in c = Some u /\ qu_category q = Some u
                end;
  as_keyword : qu_keyword q = ps_keyword search;
  as_dates : dates_of search = Ok (qu_period q);
  as_forward : forward q }.

Lemma findWithin_run (search : ProximitySearch) (origin : Point) (q : question) (s s' : S) :
  geocodeQuietly (originPostcode search) s = (s', Ok (Some origin)) -> asks search origin q ->
  findWithin tables search s =
  (s', let rows := take (Z.to_nat (Paging.probe (window_limit search)))
                     (drop (Z.to_nat (window_offset search)) (ranking (tables s') q)) in
       let page := Paging.fitTo rows (window_limit search) in
       Ok (Some (mkProximityPage (toNearbyListing <$> Paging.items page) (Paging.truncated page)))).
Proof.
  intros Hg [<- Hr Hc Hk Hd Hf]. unfold findWithin. rewrite (bind_run _ _ _ _ _ Hg).
  fold (dates_of search). rewrite Hd. run_binds.
  assert (as_uuid_opt (S := S) (ps_categoryId search) s' = (s', Ok (qu_category q))) as Hcat.
  { unfold as_uuid_opt, as_uuid. destruct (ps_categoryId search) as [c|]; [|by rewrite Hc].
    destruct Hc as (u & Hu & ->). by rewrite Hu. }
  rewrite Hcat.
  assert (tstzrange (qu_period q) = Ok tt) as ->.
  { unfold tstzrange. destruct (qu_period q) as [p|] eqn:Ep; [|done]. specialize (Hf p Ep).
    unfold throw_if. by destruct (Z.ltb_spec (p_endAt p) (p_startAt p)); [lia|]. }
  run_binds. unfold ranking. by rewrite Hr, Hk.
Qed.

Lemma category_inv (i c : option string) (s s' : S) :
  as_uuid_opt i s = (s', Ok c) ->
  s' = s /\ match i with None => c = None | Some x => exists u, uuid_in x = Some u /\ c = Some u end.
Proof.
  unfold as_uuid_opt, as_uuid. destruct i as [x|]; [|by intros [= <- <-]].
  destruct (uuid_in x) as [u|]; [|done]. intros [= <- <-]. split; [done|by exists u].
Qed.

(** What is answered is a slice of the ranking. *)
Lemma findWithin_inv (search : ProximitySearch) (s s' : S) (page : ProximityPage) :
  (forall p, dates_of search = Ok (Some p) -> p_startAt p < p_endAt p) ->
  findWithin tables search s = (s', Ok (Some page)) ->
  exists origin q, geocodeQuietly (originPostcode search) s = (s', Ok (Some origin)) /\ asks search origin q /\
    matches page = toNearbyListing <$> take (Z.to_nat (window_limit search))
                     (drop (Z.to_nat (window_offset search)) (ranking (tables s') q)).
Proof.
  intros Hp. unfold findWithin. rewrite bind_at. destruct (geocodeQuietly _ s) as [s1 [[origin|]|e]]; [|done..].
  fold (dates_of search). destruct (dates_of search) as [period|e] eqn:Ed; [|done]. run_binds.
  destruct (as_uuid_opt (ps_categoryId search) s1) as [s2 [c|e]] eqn:Ec; [|done].
  apply category_inv in Ec as [-> Hc].
  destruct (tstzrange period) as [[]|e]; [|done]. run_binds. intros [= <- <-].
  exists origin, (mkQuestion origin (milesToMetres (radiusMiles search)) c (ps_keyword search) period).
  split; [done|]. split.
  - split; try done. intros p Hq. cbn in Hq. apply Hp. by rewrite Hq.
  - cbn. f_equal. rewrite take_take. f_equal. unfold Paging.probe. lia.
Qed.

(** The [i]th page of a search, counted from zero. *)
Definition turn_to (i : nat) (search : ProximitySearch) : ProximitySearch :=
  mkSearch (originPostcode search) (radiusMiles search) (ps_categoryId search) (ps_keyword search) (ps_dates search)
    (window_limit search) (Z.of_nat i * window_limit search).

Definition slice (n i : nat) (l : list DistanceRow) : list DistanceRow := take n (drop (i * n) l).

Lemma fit_slice {T} (n : Z) (l : list T) :
  0 <= n ->
  Paging.items (Paging.fitTo (take (Z.to_nat (Paging.probe n)) l) n) = take (Z.to_nat n) l /\
  Paging.truncated (Paging.fitTo (take (Z.to_nat (Paging.probe n)) l) n) = bool_decide (Z.to_nat n < length l)%nat.
Proof.
  intros Hn. unfold Paging.fitTo, Paging.probe. cbn [Paging.items Paging.truncated]. rewrite take_take, length_take. split; [f_equal; lia|].
  case_bool_decide; [apply Z.ltb_lt|apply Z.ltb_ge]; lia.
Qed.

Lemma concat_slices (n k : nat) (l : list DistanceRow) :
  concat ((fun i => slice n i l) <$> seq 0 k) = take (k * n) l.
Proof.
  induction k as [|k IH]; [done|]. rewrite seq_S, fmap_app, concat_app, IH. cbn. rewrite app_nil_r. unfold slice.
  rewrite take_take_drop. f_equal. lia.
Qed.

(** C33. The pages of a search, read one after another while nothing changes, are
    consecutive slices of one ranking of exactly the listings that are visible, fit the
    filters, are free for the dates as availability says and are near by the point that is
    published: each once, nearest first. A page says it is the last exactly when nothing
    comes after it. *)
Theorem search_pages_partition (search : ProximitySearch) (origin : Point) (q : question) (s : S) :
  catalogue_wf (t_catalogue (tables s)) -> geocodeQuietly (originPostcode search) s = (s, Ok (Some origin)) ->
  asks search origin q -> 1 <= window_limit search ->
  exists ranked_ : list DistanceRow,
    (forall d, d ∈ ranked_ <-> exists r g, answers (tables s) q d r g) /\
    NoDup (dr_listingId <$> ranked_) /\ StronglySorted nearer ranked_ /\
    forall k : nat, exists pages : list ProximityPage,
      length pages = k /\
      concat (matches <$> pages) = toNearbyListing <$> take (k * Z.to_nat (window_limit search)) ranked_ /\
      forall i page, pages !! i = Some page ->
        findWithin tables (turn_to i search) s = (s, Ok (Some page)) /\
        (pp_truncated page = false <-> (length ranked_ <= (i + 1) * Z.to_nat (window_limit search))%nat).
Proof.
  intros Hwf Hg Hq Hn. pose proof (ranking_spec (tables s) q Hwf (as_forward _ _ _ Hq)) as (H1 & H2 & H3).
  exists (ranking (tables s) q). split_and!; [done..|]. intros k. set (n := Z.to_nat (window_limit search)).
  set (page := fun i => mkProximityPage (toNearbyListing <$> slice n i (ranking (tables s) q))
                          (bool_decide (n < length (drop (i * n) (ranking (tables s) q)))%nat)).
  exists (page <$> seq 0 k). split_and!; [by rewrite length_fmap, length_seq| |].
  - rewrite <- concat_slices, <- list_fmap_compose.
    generalize (seq 0 k). intros l. induction l as [|i l IH]; cbn; [done|]. by rewrite fmap_app, IH.
  - intros i p Hi. rewrite list_lookup_fmap in Hi. destruct (seq 0 k !! i) as [j|] eqn:Ej; [|done].
    apply lookup_seq in Ej as [-> _]. cbn in Hi. injection Hi as <-. split.
    + rewrite (findWithin_run (turn_to i search) origin q s s Hg); [|by destruct Hq; split].
      cbn [window_limit window_offset turn_to]. unfold page. cbv zeta.
      destruct (fit_slice (window_limit search) (drop (Z.to_nat (Z.of_nat i * window_limit search)) (ranking (tables s) q)))
        as [-> ->]; [lia|]. unfold slice, n. by replace (Z.to_nat (Z.of_nat i * window_limit search)) with
          (i * Z.to_nat (window_limit search))%nat by lia.
    + unfold page. cbn [pp_truncated]. rewrite bool_decide_eq_false, length_drop. lia.
Qed.
End Pages.

(** ** What nobody is told *)
Section Privacy.
Context {Ids : UuidSource} {Pg : PgTypes} {Order : DescOrder} {Enc : FieldEncryptor}.
Context {Gis : PostGIS} {Words : TextSearch} {L : Luxon}.
Context {W : Type} {Geocoder : PostcodeGeocoder W} {Random : RandomSource W} {Trig : Trigonometry}.
Variable others : ListingPorts W.
Variable books : W -> BookingDb.Db.

#[local] Instance ports : ListingPorts W := composed others books.

(** All that is published of where a listing is: a displaced point. *)
Definition published (l : LocationRow) : string * option (Js.number * Js.number) :=
  (loc_listingId l, (fun p => (fuzzedLatitude p, fuzzedLongitude p)) <$> loc_point l).

(** Tables that differ in nothing but postcodes, street lines, true positions and offsets. *)
Definition alike (db db' : Db) : Prop :=
  with_locations [] db = with_locations [] db' /\ published <$> locations db = published <$> locations db'.
Definition alike_worlds (w w' : World W) : Prop := alike (cdb w) (cdb w') /\ rest w = rest w'.

#[local] Instance alike_equivalence : Equivalence alike.
Proof.
  split.
  - by intros db.
  - by intros db db' [H1 H2].
  - intros a b c [H1 H2] [H3 H4]. split; congruence.
Qed.
#[local] Instance alike_worlds_equivalence : Equivalence alike_worlds.
Proof.
  split.
  - by intros w.
  - intros w w' [H1 H2]. by split.
  - intros a b c [H1 H2] [H3 H4]. split; [by etrans|congruence].
Qed.

(** [hides m]: alike worlds get the same answer, and stay alike. *)
Definition hides {A} (m : M (World W) A) : Prop :=
  forall w w', alike_worlds w w' -> snd (m w) = snd (m w') /\ alike_worlds (fst (m w)) (fst (m w')).

Lemma hides_bind {A B} (m : M (World W) A) (f : A -> M (World W) B) :
  hides m -> (forall a, hides (f a)) -> hides (mbind f m).
Proof.
  intros Hm Hf w w' Hw. rewrite !bind_at. destruct (Hm w w' Hw) as [H1 H2].
  destruct (m w) as [w1 x], (m w') as [w1' x']; cbn in *; subst x'. destruct x as [a|e]; [by apply Hf|done].
Qed.

Lemma hides_pure {A} (x : result A) : hides (lift x).
Proof. by intros w w' Hw. Qed.

Lemma hides_gets {A} (f : World W -> A) : (forall w w', alike_worlds w w' -> f w = f w') -> hides (gets f).
Proof. intros H w w' Hw. cbn. by rewrite (H w w' Hw). Qed.

Lemma hides_rest {A} (m : M W A) : hides (on_rest m).
Proof. intros [db k] [db' k'] [H1 H2]. cbn in *. subst k'. unfold on_rest. cbn. by destruct (m k). Qed.

(** A statement that names no column of the locations. *)
Lemma hides_read {A} (f : Db -> result A) :
  (forall db, f (with_locations [] db) = f db) -> hides (on_db (fun _ db => (db, f db))).
Proof.
  intros Hf [db k] [db' k'] [H1 H2]. cbn in *. destruct H1 as [H1 H3]. unfold on_db. cbn. split; [|by split].
  by rewrite <- (Hf db), <- (Hf db'), H1.
Qed.

(** A port that is handed the tables, and answers by what is published. *)
Lemma hides_tables {A B} (m : Db -> M W A) (f : A -> M (World W) B) :
  (forall db db' k, alike db db' -> m db k = m db' k) -> (forall a, hides (f a)) ->
  hides (tables ← gets cdb; a ← on_rest (m tables); f a).
Proof.
  intros Hm Hf [db k] [db' k'] [H1 H2]. cbn in H1, H2. subst k'. run_binds. unfold on_rest. cbn [cdb rest].
  rewrite (Hm db db' k H1). destruct (m db' k) as [k1 [a|e]]; [by apply Hf|by split].
Qed.

Variable rival : World W -> World W.
Hypothesis rival_blind : Proper (alike_worlds ==> alike_worlds) rival.

Lemma hides_await : hides (Listings.await rival).
Proof. intros w w' Hw. split; [done|]. by apply rival_blind. Qed.

(** The ranking is made of the points that are published. *)
Lemma ranked_alike (db db' : Db) (b : BookingDb.Db) (origin : Point) (radius : Js.number) (c kw : option string)
    (period : option LocalPeriod.LocalPeriod) :
  alike db db' -> ranked (mkTables db b) origin radius c kw period = ranked (mkTables db' b) origin radius c kw period.
Proof.
  intros [H1 H2]. unfold ranked. cbn. f_equal.
  assert (listings db = listings db') as Hl by (change (listings (with_locations [] db) = listings (with_locations [] db')); by rewrite H1).
  unfold distance_row. rewrite Hl. revert H2. generalize (locations db) (locations db').
  induction l as [|x l IH]; intros [|x' l'] H; try done. cbn in H. injection H as Hid Hp H. cbn.
  assert (fuzzedPoint x = fuzzedPoint x') as Hf.
  { unfold fuzzedPoint. destruct (loc_point x), (loc_point x'); cbn in Hp; [|done..]. injection Hp as Hlat Hlong. cbn. by rewrite Hlat, Hlong. }
  rewrite Hid, Hf, (IH l' H). done.
Qed.

Lemma findWithin_alike (db db' : Db) (q : ProximitySearch) (k : W) :
  alike db db' -> Listings.findWithin db q k = Listings.findWithin db' q k.
Proof.
  intros H. cbn [Listings.findWithin ports composed]. unfold ListingSearch.findWithin. run_binds.
  destruct (geocodeQuietly _ k) as [k1 [[origin|]|e]]; [|done..]. run_binds.
  destruct (match ps_dates q with Some _ => _ | None => _ end) as [period|e]; [|done]. run_binds.
  destruct (as_uuid_opt _ k1) as [k2 [c|e]]; [|done]. run_binds. destruct (tstzrange period); [|done].
  run_binds. by rewrite (ranked_alike db db' _ _ _ _ _ _ H).
Qed.

Lemma hides_nearby (summaries : list PublicListingSummaryRecord) (statuses : gmap string OwnerStatus)
    (found : list ProximityMatch) : hides (Listings.nearby rival summaries statuses found).
Proof.
  induction found as [|m found IH]; cbn; [by apply (hides_pure (Ok []))|].
  destruct (find_by _ _ _) as [l|]; [|done]. destruct (_ !! _) as [[]|]; [|done..].
  apply hides_bind; [apply hides_await|]. intros []. apply hides_bind; [apply hides_rest|]. intros picture.
  apply hides_bind; [done|]. intros views. by apply (hides_pure (Ok _)).
Qed.

Lemma hides_search (q : Listings.ListingSearchQuery) : hides (Listings.searchNearby rival q).
Proof.
  unfold Listings.searchNearby. apply hides_bind.
  { destruct (Listings.q_category q) as [slug|]; [|by apply (hides_pure (Ok None))]. unfold Listings.resolveSearchCategory.
    apply hides_bind; [|intros i; by apply (hides_pure (Ok _))]. apply hides_bind.
    - apply hides_gets. intros w w' [[H1 _] _].
      change (findCategoryId slug (with_locations [] (cdb w)) = findCategoryId slug (with_locations [] (cdb w'))).
      by rewrite H1.
    - intros [i|]; [by apply (hides_pure (Ok _))|by apply (hides_pure (Err _))]. }
  intros categoryId. apply hides_bind; [apply hides_await|]. intros [].
  apply hides_tables; [intros db db' k; apply findWithin_alike|].
  intros [page|]; [|by apply (hides_pure (Ok None))].
  apply hides_bind; [apply hides_await|]. intros []. apply hides_bind; [by apply hides_read|]. intros summaries.
  apply hides_bind; [apply hides_await|]. intros [].
  apply hides_bind; [apply hides_gets; by intros w w' [_ ->]|]. intros statuses.
  apply hides_bind; [apply hides_nearby|]. intros views. by apply (hides_pure (Ok _)).
Qed.

Lemma hides_status (o : string) : hides (Listings.ownerStatusOf o).
Proof. apply hides_gets. by intros w w' [_ ->]. Qed.

Lemma hides_public (id : string) : hides (Listings.findPublic rival id).
Proof.
  unfold Listings.findPublic. apply hides_bind; [by apply hides_read|].
  intros [l|]; [|by apply (hides_pure (Ok None))]. apply hides_bind; [apply hides_await|]. intros [].
  apply hides_bind; [apply hides_status|]. intros [[]|]; [|by apply (hides_pure (Ok None))..].
  apply hides_bind; [apply hides_await|]. intros []. apply hides_bind; [apply hides_rest|]. intros signed.
  by apply (hides_pure (Ok _)).
Qed.

Lemma hides_quotable (id : string) : hides (Listings.findQuotable rival id).
Proof.
  unfold Listings.findQuotable. apply hides_bind; [by apply hides_read|].
  intros [l|]; [|by apply (hides_pure (Ok None))]. apply hides_bind; [apply hides_await|]. intros [].
  apply hides_bind; [apply hides_status|]. intros [[]|]; by first [apply (hides_pure (Ok None))|apply (hides_pure (Ok (Some l)))].
Qed.

(** C13. Where a listing really is cannot be told from anything the public is answered: two
    catalogues that agree on what is published, and differ in postcodes, street lines, true
    positions and the offsets that displace them, answer every search, page and quotation
    alike, whatever else commits meanwhile without reading those columns. *)
Theorem address_stays_private (w w' : World W) (q : Listings.ListingSearchQuery) (id : string) :
  alike_worlds w w' ->
  snd (Listings.searchNearby rival q w) = snd (Listings.searchNearby rival q w') /\
  snd (Listings.findPublic rival id w) = snd (Listings.findPublic rival id w') /\
  snd (Listings.findQuotable rival id w) = snd (Listings.findQuotable rival id w').
Proof.
  intros Hw. split_and!; [by apply hides_search|by apply hides_public|by apply hides_quotable].
Qed.
End Privacy.
