(* ===== verification/LocationTheorems.v ===== *)
(** * Location, composed with the catalogue

    The catalogue with its ports answered as [main.ts] answers them: the points that
    are published are always the true ones displaced, and what a search shows can be
    booked. *)

From Stdlib Require String.
From S2P Require Import Prelude JsNumber Text Money Ledger LedgerStore Pricing Columns BookingState BookingStore Bookings.
From S2P Require Import AuditLog LocalTime CoreText Answers UnitEconomics CatalogueStore ListingStore ListingRows.
From S2P Require Import Listings ListingProofs ListingTheorems ListingOutcomes Search SearchTheorems.

#[local] Open Scope string_scope.
#[local] Open Scope list_scope.
#[local] Open Scope Z_scope.

Import Money Pricing Attributes Transport Publication CatalogueDb ListingDb AuditDb Distance Fuzz Location ListingSearch.
Import LocalPeriod (p_startAt, p_endAt).

(** Statement after statement; what is left are the writes of locations. *)
Ltac guarding :=
  repeat match goal with
  | |- guards _ (mbind _ (gets ?f)) _ =>
      eapply (guards_bind _ _ _ (fun x => exists s, x = f s));
        [apply guards_gets; intros s _; by exists s|intros ? [? ->]]
  | |- guards _ (mbind _ _) _ => eapply (guards_bind _ _ _ (fun _ => True)); [|intros ? _]
  | |- guards _ (match ?x with _ => _ end) _ => destruct x
  | |- guards _ (if ?x then _ else _) _ => destruct x
  | |- guards _ (lift _) _ => by intros ? ?
  | |- guards _ (gets _) _ => by intros ? ?
  | |- _ => by eauto with guards
  | |- guards _ (transaction _) _ => apply guards_transaction
  end.

#[local] Arguments applyFuzzOffset : simpl never.
#[local] Arguments on_db : simpl never.
#[local] Arguments on_rest : simpl never.

Section Composed.
Context {Ids : UuidSource} {Pg : PgTypes} {Order : DescOrder} {Enc : FieldEncryptor}.
Context {Gis : PostGIS} {Words : TextSearch} {L : Luxon}.
Context {W : Type} {Geocoder : PostcodeGeocoder W} {Random : RandomSource W} {Trig : Trigonometry}.
Variable others : ListingPorts W.
Variable books : W -> BookingDb.Db.

#[local] Instance ports : ListingPorts W := composed others books.

(** ** Points *)
Definition drawable (o : StoredFuzzOffset) : Prop :=
  0 <= bearingDegrees o < 360 /\ MINIMUM_FUZZ_METRES <= distanceMetres o <= MAXIMUM_FUZZ_METRES.

(** A stored point is the true one, displaced by the offset stored with it. *)
Definition displaced (p : LocatedListingPoint) : Prop :=
  drawable (mkOffset (fuzzBearingDegrees p) (fuzzDistanceMetres p)) /\
  mkGeoPoint (fuzzedLatitude p) (fuzzedLongitude p) =
    applyFuzzOffset (mkGeoPoint (latitude p) (longitude p)) (mkOffset (fuzzBearingDegrees p) (fuzzDistanceMetres p)).
Definition displaced_if (p : option LocatedListingPoint) : Prop := forall x, p = Some x -> displaced x.

Lemma fuzzedAt_displaced (p : Point) (o : StoredFuzzOffset) : drawable o -> displaced (fuzzedAt p o).
Proof. intros Ho. destruct p as [x y], o as [b d]. split; [done|]. unfold fuzzedAt. cbn. by destruct (applyFuzzOffset _ _). Qed.

Definition anywhere (w : W) : Prop := True.

Lemma draws_drawable : guards anywhere createFuzzOffset drawable.
Proof.
  intros s _. split; [done|]. intros o. unfold createFuzzOffset. run_binds.
  destruct (randomInt_range 0 360 s) as (s1 & b & -> & Hb); [lia|]. run_binds.
  destruct (randomInt_range MINIMUM_FUZZ_METRES (MAXIMUM_FUZZ_METRES + 1) s1) as (s2 & d & -> & Hd);
    [unfold MINIMUM_FUZZ_METRES, MAXIMUM_FUZZ_METRES; lia|].
  run_binds. intros [= <-]. unfold drawable. cbn. lia.
Qed.

Lemma locates_displaced (p : string) : guards anywhere (Listings.locate p) displaced_if.
Proof.
  change (Listings.locate p) with (Location.locate p). unfold Location.locate. apply (guards_bind _ _ _ (fun _ => True)); [by intros s _|].
  intros [x|] _; [|by apply guards_ret].
  eapply guards_bind; [apply draws_drawable|]. intros o Ho. apply guards_ret. intros ? [= <-]. by apply fuzzedAt_displaced.
Qed.

Lemma relocates_displaced (p : string) (o : StoredFuzzOffset) : drawable o -> guards anywhere (Listings.relocate p o) displaced_if.
Proof.
  intros Ho. change (Listings.relocate p o) with (Location.relocate p o). unfold Location.relocate.
  apply (guards_bind _ _ _ (fun _ => True)); [by intros s _|]. intros [x|] _; apply guards_ret; [|done].
  intros ? [= <-]. by apply fuzzedAt_displaced.
Qed.

(** ** The table of locations *)
Definition all_displaced (db : Db) : Prop := forall l, l ∈ locations db -> displaced_if (loc_point l).
Abbreviation safe_db m := (guards all_displaced m (fun _ => True)).

Lemma keeps_displaced {A} (m : M Db A) : keeps locations m -> safe_db m.
Proof. intros Hm db Hdb. split; [|done]. unfold all_displaced. by rewrite Hm. Qed.

Lemma displaced_insert (l : LocationRow) : displaced_if (loc_point l) -> safe_db (insert_location l).
Proof.
  intros Hl db Hdb. unfold insert_location. repeat case_match; try done. split; [|done]. cbn.
  intros x [Hx| ->%list_elem_of_singleton]%elem_of_app; [by apply Hdb|done].
Qed.

Lemma displaced_update (i : string) (f : LocationRow -> LocationRow) :
  (forall l, displaced_if (loc_point l) -> displaced_if (loc_point (f l))) -> safe_db (update_location i f).
Proof.
  intros Hf db Hdb. unfold update_location. repeat case_match; try done. split; [|done]. cbn.
  intros x (y & -> & Hy)%list_elem_of_fmap. case_bool_decide; [apply Hf|]; by apply Hdb.
Qed.

Lemma displaced_filter (p : LocationRow -> bool) (db db' : Db) :
  all_displaced db -> locations db' = List.filter p (locations db) -> all_displaced db'.
Proof. intros Hdb E x. rewrite E. intros [Hx _]%elem_of_bfilter. by apply Hdb. Qed.

Lemma displaced_delete (p : string -> bool) : safe_db (delete_locations p).
Proof. apply guards_modify. intros db Hdb. by eapply displaced_filter. Qed.

(** ** The adapters *)
Section Adapters.
Variable known : string -> bool.
Variable within : Db -> Db.
Hypothesis within_ok : forall db, all_displaced db -> all_displaced (within db).

Lemma displaced_within : safe_db (modify within).
Proof. by apply guards_modify. Qed.

Lemma displaced_listings (p : ListingRow -> bool) (f : ListingRow -> ListingRow) : safe_db (update_listings known p f).
Proof. apply keeps_displaced. intros db. unfold update_listings. by case_match. Qed.

Lemma displaced_row (r : ListingRow) : safe_db (insert_listing known r).
Proof. apply keeps_displaced. intros db. unfold insert_listing. by case_match. Qed.

Definition edit_displaced (e : CollectionLocationEdit) : Prop :=
  match e with relocated _ p => displaced_if p | _ => True end.

#[local] Hint Resolve displaced_within displaced_listings displaced_row : guards.

Lemma displaced_write (i : string) (e : CollectionLocationEdit) : edit_displaced e -> safe_db (writeLocation i e).
Proof.
  intros He db Hdb. destruct e as [l|l p|]; cbn [writeLocation].
  - by apply displaced_update.
  - destruct (location_of db i); [by apply displaced_update|by apply displaced_insert].
  - by apply displaced_delete.
Qed.
Lemma displaced_write_draft (d : ListingDraft) (v : VersionRow) :
  displaced_if (dr_locatedPoint d) -> safe_db (write_draft known d v).
Proof.
  intros Hd. unfold write_draft. apply guards_transaction. guarding. by apply displaced_insert.
Qed.

Lemma displaced_draft (d : ListingDraft) :
  displaced_if (dr_locatedPoint d) -> safe_db (ListingDb.createDraft known within d).
Proof. intros Hd. unfold ListingDb.createDraft. guarding. by apply displaced_write_draft. Qed.

Lemma displaced_edit (i o : string) (e : ListingEdit) :
  edit_displaced (ed_collectionLocation e) -> safe_db (ListingDb.update known within i o e).
Proof. intros He. unfold ListingDb.update, write_edit, findOwnedBy. guarding. by apply displaced_write. Qed.

Lemma displaced_publish (i o : string) : safe_db (ListingDb.publish known within i o).
Proof. unfold ListingDb.publish, set_status, findOwnedBy. guarding. Qed.

Lemma displaced_pause (i o : string) : safe_db (ListingDb.pause known within i o).
Proof. unfold ListingDb.pause, set_status, findOwnedBy. guarding. Qed.

Lemma displaced_moderation (d : ModerationDecision) : safe_db (ListingDb.moderate known within d).
Proof. unfold ListingDb.moderate, set_moderation, findForModeration. guarding. Qed.

Lemma displaced_erase (referenced : string -> bool) (o : string) (kept : list string) :
  safe_db (eraseOwnedBy referenced o kept).
Proof.
  unfold eraseOwnedBy. guarding; [apply displaced_delete|]. intros db Hdb. unfold delete_listings.
  case_match; [done|]. split; [|done]. by eapply displaced_filter.
Qed.
End Adapters.

(** ** The requests *)
Definition all_displaced_in (w : World W) : Prop := all_displaced (cdb w).
Abbreviation safe m := (guards all_displaced_in m (fun _ => True)).

Lemma displaced_on_db {A} (m : (string -> bool) -> M Db A) : (forall known, safe_db (m known)) -> safe (on_db m).
Proof.
  intros Hm w Hw. unfold on_db. specialize (Hm (account (rest w)) (cdb w) Hw). by destruct (m _ (cdb w)).
Qed.

Lemma displaced_on_rest {A} (m : M W A) (Q : A -> Prop) :
  guards anywhere m Q -> guards all_displaced_in (on_rest m) Q.
Proof. intros Hm w Hw. unfold on_rest. specialize (Hm (rest w) Logic.I). by destruct (m (rest w)) as [k x], Hm. Qed.

Lemma displaced_read {A} (f : (string -> bool) -> Db -> result A) : safe (on_db (fun known db => (db, f known db))).
Proof. apply displaced_on_db. intros known. apply guards_read. Qed.

Lemma displaced_audit (f : instant -> (string -> bool) -> AuditDb.Trail -> AuditDb.Trail * result ()) :
  safe (on_db (fun known db => let (t, r) := f (cclock db) known (ctrail db) in (with_ctrail t db, r))).
Proof.
  apply displaced_on_db. intros known. apply keeps_displaced. intros db. by destruct (f _ _ _).
Qed.

Section Requests.
Variable rival : World W -> World W.
Variable within : Db -> Db.
Hypothesis rival_ok : forall w, all_displaced_in w -> all_displaced_in (rival w).
Hypothesis within_ok : forall db, all_displaced db -> all_displaced (within db).

Lemma displaced_await : safe (modify rival).
Proof. by apply guards_modify. Qed.
#[local] Hint Resolve displaced_await displaced_read : guards.

Lemma displaced_elsewhere {A} (m : M W A) : safe (on_rest m).
Proof. apply displaced_on_rest. by intros k _. Qed.
#[local] Hint Resolve displaced_elsewhere : guards.

Lemma displaced_category_audit (a : Actor) (action : AuditDb.AuditAction) (i : string)
    (b c : option AuditableCategory) (why : string) : safe (Catalogue.audit rival a action i b c why).
Proof.
  unfold Catalogue.audit, Catalogue.await. guarding.
  apply (displaced_audit (fun at_ known => Audit.record digest_category at_ known _)).
Qed.
#[local] Hint Resolve displaced_category_audit : guards.

Lemma displaced_RCreate (a : Actor) (slug : string) (conf : CategoryConfiguration) (why : string) :
  safe (Catalogue.create rival a slug conf why).
Proof.
  unfold Catalogue.create. guarding. apply displaced_on_db. intros known. apply keeps_displaced. intros db.
  unfold CatalogueDb.create, insert_category, insert_version. unfold_M. by repeat case_match; simplify_eq.
Qed.

Lemma displaced_RReconfigure (a : Actor) (slug : string) (conf : CategoryConfiguration) (why : string) :
  safe (Catalogue.reconfigure rival within a slug conf why).
Proof.
  unfold Catalogue.reconfigure, findBySlug. guarding. apply displaced_on_db. intros known. unfold addVersion. guarding.
  apply keeps_displaced. intros db. unfold insert_version. by repeat case_match.
Qed.

Lemma displaced_RDraft (s : Listings.SubmittedListing) : safe (Listings.createDraft rival within s).
Proof.
  unfold Listings.createDraft, Listings.await. do 3 (apply (guards_bind _ _ _ (fun _ => True)); [by intros w Hw|]; intros ? _).
  apply (guards_bind _ _ _ displaced_if).
  - destruct (Listings.sl_collectionLocation _) as [l|]; [|by apply guards_ret]. guarding.
    apply displaced_on_rest, locates_displaced.
  - intros point Hp. guarding. apply displaced_on_db. intros known. by apply displaced_draft.
Qed.

Lemma offsets_drawable (i o : string) (w : World W) (x : StoredFuzzOffset) :
  all_displaced_in w -> findFuzzOffset i o (cdb w) = Some x -> drawable x.
Proof.
  intros Hw. unfold findFuzzOffset. case_match; [|done]. unfold location_of.
  destruct (find_by loc_listingId i _) as [l|] eqn:Hl; [|done]. cbn. apply find_by_Some in Hl as [Hl _].
  destruct (loc_point l) as [p|] eqn:Hp; [|done]. intros [= <-]. apply (Hw l Hl p Hp).
Qed.

Lemma displaced_location (l : ListingRecord) (o : string) (s : Listings.SubmittedListingEdit) :
  guards all_displaced_in (Listings.editedLocation rival l o s) edit_displaced.
Proof.
  unfold Listings.editedLocation, Listings.await. destruct (Listings.sl_collectionLocation s) as [place|]; [|by apply guards_ret].
  destruct (_ && _); [by apply guards_ret|]. eapply guards_bind; [apply displaced_await|]. intros _ _.
  apply (guards_bind _ _ _ (fun x => forall y, x = Some y -> drawable y)).
  { apply guards_gets. intros w Hw y. by apply offsets_drawable. }
  intros offset Ho. eapply guards_bind; [apply displaced_await|]. intros _ _.
  apply (guards_bind _ _ _ displaced_if).
  - apply displaced_on_rest. destruct offset as [x|]; [by apply relocates_displaced, Ho|apply locates_displaced].
  - intros p Hp. by apply guards_ret.
Qed.

Lemma displaced_REdit (i o : string) (s : Listings.SubmittedListingEdit) : safe (Listings.edit rival within i o s).
Proof.
  unfold Listings.edit, Listings.await, findOwnedBy. eapply guards_bind; [apply displaced_read|]. intros [l|] _; [|by apply guards_ret].
  eapply guards_bind; [apply displaced_await|]. intros _ _.
  do 3 (apply (guards_bind _ _ _ (fun _ => True)); [by intros w Hw|]; intros ? _).
  eapply guards_bind; [apply displaced_location|]. intros e He. guarding.
  apply displaced_on_db; intros known; by apply displaced_edit.
Qed.

Lemma displaced_RPublish (i o : string) : safe (Listings.publish rival within i o).
Proof.
  unfold Listings.publish, Listings.await, Listings.isPublicationAvailable, findOwnedBy. guarding.
  apply displaced_on_db. intros known. by apply displaced_publish.
Qed.

Lemma displaced_RPause (i o : string) : safe (Listings.pause rival within i o).
Proof.
  unfold Listings.pause, Listings.await, findOwnedBy. guarding.
  apply displaced_on_db. intros known. by apply displaced_pause.
Qed.

Lemma displaced_RModerate (i : string) (st : ModerationState) (why : option string) (a : Actor) :
  safe (Listings.moderate rival within i st why a).
Proof.
  unfold Listings.moderate, Listings.await, findForModeration. guarding.
  - apply displaced_on_db. intros known. by apply displaced_moderation.
  - apply (displaced_audit (fun at_ known => Audit.record digest_moderation at_ known _)).
Qed.

Lemma displaced_RErase (a : Actor) : safe (Listings.eraseFor rival a).
Proof.
  unfold Listings.eraseFor, Listings.await. guarding. apply displaced_on_db. intros known. apply displaced_erase.
Qed.
End Requests.

Lemma displaced_serve (t : turn W) (w : World W) :
  (forall w, all_displaced_in w -> all_displaced_in (turn_rival t w)) ->
  (forall db, all_displaced db -> all_displaced (turn_within t db)) ->
  all_displaced_in w -> all_displaced_in (serve t w).
Proof.
  intros Hr Hi Hw. unfold serve. destruct (turn_request t) as [a slug conf why|a slug conf why|s|i o s|i o|i o|i st why a|a].
  - by apply displaced_RCreate.
  - by apply displaced_RReconfigure.
  - by apply displaced_RDraft.
  - by apply displaced_REdit.
  - by apply displaced_RPublish.
  - by apply displaced_RPause.
  - by apply displaced_RModerate.
  - by apply displaced_RErase.
Qed.

(** Requests one after another, each disturbed at its awaits, and between its
    statements, by such requests in turn. *)
Inductive undertaken : (World W -> World W) -> Prop :=
  | un_idle : undertaken Datatypes.id
  | un_turn (t : turn W) (inside onwards : World W -> World W) :
      undertaken (turn_rival t) -> undertaken inside ->
      (forall db, exists k, turn_within t db = cdb (inside (mkWorld db k))) ->
      undertaken onwards -> undertaken (fun w => onwards (serve t w)).

(** C14. Whatever is asked for, and however the requests interleave, no listing ever has a
    point that is not its true one displaced by its own offset, 500 to 1000 metres in some
    direction, drawn for it and stored with it. *)
Theorem points_are_displaced (f : World W -> World W) (w : World W) :
  undertaken f -> (forall l p, l ∈ locations (cdb w) -> loc_point l = Some p -> displaced p) ->
  forall l p, l ∈ locations (cdb (f w)) -> loc_point l = Some p -> displaced p.
Proof.
  intros Hf Hd. assert (all_displaced_in w) as H by (intros l Hl p Hp; by apply (Hd l p)). clear Hd.
  cut (all_displaced_in (f w)); [intros Hd l p Hl Hp; by apply (Hd l Hl p Hp)|].
  revert w H. induction Hf as [|t inside onwards _ IHr _ IHi Hin _ IHo]; intros w Hw; [done|].
  apply IHo, displaced_serve; [exact IHr| |exact Hw]. intros db Hdb. destruct (Hin db) as [k ->]. by apply IHi.
Qed.

(** ** The promises of the location service *)

(** The geocoder answers or says that it cannot, and like the random source leaves
    the accounts alone. *)
Record sound_geocoder : Prop := {
  sg_answers : forall p k, match snd (geocode p k) with Ok _ => True | Err e => exists m, e = GeocoderUnavailableError m end;
  sg_accounts : forall p k, account (fst (geocode p k)) = account k;
  sg_random : forall a b k, account (fst (randomInt a b k)) = account k }.

Lemma quietly_answers (p : string) (k : W) :
  sound_geocoder -> exists x, geocodeQuietly p k = (fst (geocode p k), Ok x).
Proof.
  intros Hg. pose proof (sg_answers Hg p k) as H. unfold geocodeQuietly, catch.
  destruct (geocode p k) as [k' [x|e]]; cbn in *; [by exists x|]. destruct H as [m ->]. by exists None.
Qed.

Lemma draws (k : W) :
  sound_geocoder -> exists k' o, createFuzzOffset k = (k', Ok o) /\ account k' = account k.
Proof.
  intros Hg. unfold createFuzzOffset. run_binds.
  destruct (randomInt_range 0 360 k) as (k1 & b & H1 & _); [lia|]. rewrite H1. run_binds.
  destruct (randomInt_range MINIMUM_FUZZ_METRES (MAXIMUM_FUZZ_METRES + 1) k1) as (k2 & d & H2 & _);
    [unfold MINIMUM_FUZZ_METRES, MAXIMUM_FUZZ_METRES; lia|].
  rewrite H2. run_binds. do 2 eexists. split; [done|].
  pose proof (sg_random Hg 0 360 k) as E1. pose proof (sg_random Hg MINIMUM_FUZZ_METRES (MAXIMUM_FUZZ_METRES + 1) k1) as E2.
  rewrite H1 in E1. rewrite H2 in E2. cbn in *. congruence.
Qed.

Lemma displaced_lawful (x : option LocatedListingPoint) : displaced_if x -> lawful_point x.
Proof.
  intros H p Hp. destruct (H p Hp) as [[Hb Hd] _]. cbn in *. unfold MINIMUM_FUZZ_METRES in *. lia.
Qed.

(** Search and location keep what the catalogue's port asks of them: they always answer,
    a silent geocoder included, with a point the table takes, and lose no account. *)
Theorem location_keeps_the_port : sound_geocoder -> sound_locator (W := W).
Proof.
  intros Hg. split.
  - intros p k. destruct (quietly_answers p k Hg) as [[x|] Hx].
    + destruct (draws (fst (geocode p k)) Hg) as (k' & o & Ho & Ha).
      assert (Listings.locate p k = (k', Ok (Some (fuzzedAt x o)))) as Hrun.
      { change (Listings.locate p) with (Location.locate p). unfold Location.locate. rewrite (bind_run _ _ _ _ _ Hx), (bind_run _ _ _ _ _ Ho). done. }
      exists k', (Some (fuzzedAt x o)). split; [done|]. split; [|intros i; rewrite Ha; by rewrite (sg_accounts Hg)].
      apply displaced_lawful. apply (locates_displaced p k Logic.I). by rewrite Hrun.
    + exists (fst (geocode p k)), None. change (Listings.locate p) with (Location.locate p). unfold Location.locate.
      rewrite (bind_run _ _ _ _ _ Hx). split; [done|]. split; [done|]. by rewrite (sg_accounts Hg).
  - intros p o k [Hb Hd]. destruct (quietly_answers p k Hg) as [x Hx].
    exists (fst (geocode p k)), ((fun p => fuzzedAt p o) <$> x). change (Listings.relocate p o) with (Location.relocate p o). unfold Location.relocate.
    rewrite (bind_run _ _ _ _ _ Hx). split; [by destruct x|]. rewrite (sg_accounts Hg). split; [|done].
    intros y Hy. destruct x; [|done]. injection Hy as <-. cbn. lia.
Qed.

(** ** What a searcher can book *)

(** Asking for many owners answers as asking for one; the geocoder changes neither
    how owners list nor what is booked. *)
Record settled : Prop := {
  se_statuses : forall ids i (k : W) s, findOwnerStatuses ids k !! i = Some s -> findOwnerStatuses [i] k !! i = Some s;
  se_geocode : forall p k, let k' := fst (geocode p k) in
    books k' = books k /\ forall ids, findOwnerStatuses ids k' = findOwnerStatuses ids k }.

Abbreviation calm := Datatypes.id.

Lemma quietly_same (p : string) (k : W) : fst (geocodeQuietly p k) = fst (geocode p k).
Proof. unfold geocodeQuietly, catch. by destruct (geocode p k) as [k' [x|[]]]. Qed.

(** What is shown was matched, is summarised, and its owner is a private one. *)
Lemma nearby_inv (summaries : list PublicListingSummaryRecord) (statuses : gmap string OwnerStatus)
    (found : list ProximityMatch) (w w' : World W) (views : list Listings.NearbyListingView) :
  Listings.nearby calm summaries statuses found w = (w', Ok views) ->
  cdb w' = cdb w /\ (su_id ∘ Listings.nb_listing <$> views) `sublist_of` (match_listingId <$> found) /\
  forall v, v ∈ views -> Listings.nb_listing v ∈ summaries /\
    statuses !! su_ownerId (Listings.nb_listing v) = Some private_owner.
Proof.
  revert w w' views. induction found as [|m found IH]; intros w w' views; cbn [Listings.nearby].
  { intros [= <- <-]. split_and!; [done|done|]. by intros v ?%elem_of_nil. }
  assert (forall w' views, Listings.nearby calm summaries statuses found w = (w', Ok views) ->
    cdb w' = cdb w /\ (su_id ∘ Listings.nb_listing <$> views) `sublist_of` (match_listingId <$> (m :: found)) /\
    forall v, v ∈ views -> Listings.nb_listing v ∈ summaries /\
      statuses !! su_ownerId (Listings.nb_listing v) = Some private_owner) as Hskip.
  { intros w1 l H. destruct (IH w w1 l H) as (H1 & H2 & H3). split_and!; [done|by apply sublist_cons|done]. }
  destruct (find_by _ _ _) as [l|] eqn:Hl; [|by apply Hskip].
  destruct (statuses !! su_ownerId l) as [[]|] eqn:Ho; [|by apply Hskip..].
  apply find_by_Some in Hl as [Hl Hid]. rewrite elem_of_reverse in Hl.
  unfold Listings.await. run_binds. unfold on_rest at 1. destruct (sign _ _) as [k1 [picture|e]]; [|done]. run_binds.
  destruct (Listings.nearby calm summaries statuses found (mkWorld (cdb (calm w)) k1)) as [w1 [l'|e]] eqn:E; [|done].
  intros [= <- <-]. destruct (IH _ _ _ E) as (H1 & H2 & H3). cbn in H1. split_and!; [done| |].
  - cbn. rewrite Hid. by apply sublist_skip.
  - intros v [-> |Hv]%elem_of_cons; [done|by apply H3].
Qed.

Lemma try_map_inv {A B} (f : A -> result B) (l : list A) (ys : list B) (y : B) :
  try_map f l = Ok ys -> y ∈ ys -> exists x, x ∈ l /\ f x = Ok y.
Proof.
  revert ys. induction l as [|x l IH]; intros ys; cbn; [by intros [= <-] ?%elem_of_nil|]. unfold_result.
  destruct (f x) as [z|] eqn:Ex; [|done]. destruct (try_map f l) as [zs|]; [|done]. intros [= <-] [-> |Hy]%elem_of_cons.
  - exists x. split; [by left|done].
  - destruct (IH zs eq_refl Hy) as (x' & Hx & E). exists x'. split; [by right|done].
Qed.

(** What a search shows of a listing is what a quote is made from. *)
Record same_offer (m : PublicListingSummaryRecord) (l : Bookings.QuotableListing) : Prop := {
  so_id : Bookings.l_id l = su_id m;
  so_owner : Bookings.l_ownerId l = su_ownerId m;
  so_title : Bookings.l_title l = su_title m;
  so_rates : Bookings.l_rates l = su_rates m;
  so_policy : Bookings.l_currentFeePolicy l = su_currentFeePolicy m }.

(** A summary is of a row that the public may see, and that is quoted as it is shown. *)
Lemma summaries_inv (ids : list string) (db db' : Db) (found : list PublicListingSummaryRecord)
    (m : PublicListingSummaryRecord) :
  findPublishedSummaries ids db = (db', Ok found) -> m ∈ found ->
  exists r, r ∈ listings db /\ li_id r = su_id m /\ li_ownerId r = su_ownerId m /\ su_id m ∈ ids /\
    isPubliclyVisible (li_status r) (li_moderationState r) = true /\
    forall l, asQuotable db r = Ok l -> same_offer m l.
Proof.
  unfold findPublishedSummaries. destruct (try_map _ _) as [l|] eqn:E; [|done]. intros [= _ <-] Hm.
  apply list_elem_of_In, in_concat in Hm as (ms & Hms%list_elem_of_In & Hm%list_elem_of_In).
  destruct (try_map_inv _ _ _ _ E Hms) as (r & [Hr Hv]%elem_of_bfilter & Hs). rewrite andb_true_iff, bool_decide_eq_true in Hv.
  destruct Hv as [Hid Hv]. exists r. unfold asQuotable, asSummary in *. destruct (joined db r) as [[v c]|]; [|done]. unfold_result.
  destruct (li_outwardCode r), (li_town r); try (injection Hs as <-; by apply elem_of_nil in Hm).
  destruct (asFeePolicy _); [|done]. destruct (asRateCard r); [|done]. injection Hs as <-.
  apply list_elem_of_singleton in Hm as ->. split_and!; [done..|]. intros q Hq.
  destruct (asDamageSecurity _); [|done]. destruct (asMoney _ _); [|done]. by injection Hq as <-.
Qed.

Lemma visible_quotable (w : World W) (r : ListingRow) :
  catalogue_wf (cdb w) -> r ∈ listings (cdb w) -> isPubliclyVisible (li_status r) (li_moderationState r) = true ->
  findOwnerStatuses [li_ownerId r] (rest w) !! li_ownerId r = Some private_owner ->
  exists q, asQuotable (cdb w) r = Ok q /\ snd (Listings.findQuotable calm (li_id r) w) = Ok (Some q).
Proof.
  intros Hwf Hr Hv Ho. destruct (quotable_read _ r Hwf Hr) as (q & Hq & Howner). exists q. split; [done|].
  unfold Listings.findQuotable, ListingDb.findQuotable, on_db. run_binds.
  rewrite (proj2 (find_visible_iff _ _ r Hwf)) by done. cbn. rewrite Hq. cbn. unfold Listings.ownerStatusOf.
  cbn. rewrite Howner. destruct w as [db k]. cbn in *.
  unfold Listings.await. run_binds. cbn. by rewrite Ho.
Qed.

(** C34. What a search shows is what a quote is made from: where nothing else happens
    meanwhile, with dates that lie the right way round, and with owners listed alike whether
    looked up one by one or together, every listing on the page is shown once, is found by
    the lookup that quoting starts with, with the owner, title, rates and fee policy it was
    shown with, and for the dates searched availability finds nothing against it. One shown
    without a price is still refused a quote. *)
Theorem searched_is_bookable (q : Listings.ListingSearchQuery) (w w' : World W) (found : Listings.NearbySearchResults) :
  catalogue_wf (cdb w) -> settled ->
  (forall a b p, Listings.q_dates q = Some (a, b) -> LocalPeriod.periodFromLocalDates a b = Ok p -> p_startAt p < p_endAt p) ->
  Listings.searchNearby calm q w = (w', Ok (Some found)) ->
  cdb w' = cdb w /\ NoDup (su_id ∘ Listings.nb_listing <$> Listings.results found) /\
  Z.of_nat (length (Listings.results found)) <= Listings.SEARCH_RESULT_LIMIT /\
  forall v, v ∈ Listings.results found ->
    let id := su_id (Listings.nb_listing v) in
    (exists listing, snd (Listings.findQuotable calm id w) = Ok (Some listing) /\ same_offer (Listings.nb_listing v) listing) /\
    forall a b p, Listings.q_dates q = Some (a, b) -> LocalPeriod.periodFromLocalDates a b = Ok p ->
      BookingDb.reasonUnavailable id (p_startAt p) (p_endAt p) (books (rest w)) = None.
Proof.
  intros Hwf Hset Hdates. unfold Listings.searchNearby. rewrite bind_at.
  assert (exists c, (match Listings.q_category q with
    | None => mret None
    | Some slug => i ← Listings.resolveSearchCategory slug; mret (Some i) end) w = (w, c)) as [c ->].
  { destruct (Listings.q_category q) as [slug|]; [|by eexists]. unfold Listings.resolveSearchCategory. run_binds.
    destruct (findCategoryId slug (cdb w)); by eexists. }
  destruct c as [c|e]; [|done]. unfold Listings.await. run_binds. destruct w as [db k].
  unfold on_rest at 1. change (Datatypes.id ?x) with x. cbn [cdb rest].
  set (search := mkSearch _ _ _ _ _ _ _).
  destruct (Listings.findWithin db search k) as [k1 [[page|]|e]] eqn:Ef; [|done..]. run_binds.
  apply (findWithin_inv (fun w => mkTables db (books w))) in Ef as (origin & qu & Hgeo & Hasks & Hpage).
  2: { intros p. unfold dates_of. cbn. destruct (Listings.q_dates q) as [[a b]|] eqn:Eq; [|done]. unfold_result.
       destruct (LocalPeriod.periodFromLocalDates a b) as [p'|] eqn:Ep; [|done]. intros [= <-]. by eapply Hdates. }
  pose proof (ranking_spec (mkTables db (books k1)) qu Hwf (as_forward _ _ _ Hasks)) as (Hin & Hnodup & _).
  destruct (se_geocode Hset (originPostcode search) k) as [Hbooks Hst].
  assert (fst (geocode (originPostcode search) k) = k1) as Hk1 by (rewrite <- quietly_same; by rewrite Hgeo).
  rewrite Hk1 in Hbooks, Hst.
  assert (NoDup (match_listingId <$> matches page) /\ (length (matches page) <= Z.to_nat Listings.SEARCH_RESULT_LIMIT)%nat /\
    forall m, m ∈ matches page -> exists d, d ∈ ranking (mkTables db (books k1)) qu /\ match_listingId m = dr_listingId d)
    as (Hm1 & Hm2 & Hm3).
  { rewrite Hpage. split_and!.
    - rewrite <- list_fmap_compose. change (match_listingId ∘ toNearbyListing) with dr_listingId.
      eapply sublist_NoDup; [exact Hnodup|]. apply fmap_sublist. etrans; [apply sublist_take|apply sublist_drop].
    - rewrite length_fmap, length_take. cbn [window_limit search]. lia.
    - intros m (d & -> & Hd)%list_elem_of_fmap. exists d. split; [|done].
      eapply elem_of_submseteq; [exact Hd|]. apply sublist_submseteq. etrans; [apply sublist_take|apply sublist_drop]. }
  change (calm (mkWorld db k1)) with (mkWorld db k1). unfold on_db. cbn [cdb rest].
  destruct (findPublishedSummaries (match_listingId <$> matches page) db) as [db' [summaries|e]] eqn:Es; [|done].
  assert (db' = db) as -> by (unfold findPublishedSummaries in Es; by injection Es).
  run_binds. change (calm (mkWorld db k1)) with (mkWorld db k1). cbn [rest].
  destruct (Listings.nearby calm summaries _ (matches page) _) as [w1 [views|e]] eqn:En; [|done]. intros [= <- <-].
  apply nearby_inv in En as (H1 & H2 & H3). cbn in H1. cbn [Listings.results]. split_and!; [done| | |].
  - by eapply sublist_NoDup.
  - apply sublist_length in H2. rewrite !length_fmap in H2.
    change (Z.of_nat (length views) <= 24). change (Z.to_nat Listings.SEARCH_RESULT_LIMIT) with 24%nat in Hm2. lia.
  - intros v Hv. destruct (H3 v Hv) as [Hs Ho]. destruct (summaries_inv _ _ _ _ _ Es Hs) as (r & Hr & Hid & Hown & Hids & Hvis & Hoffer).
    cbn zeta. rewrite <- Hid. split.
    + destruct (visible_quotable (mkWorld db k) r) as (l & Hl & Hq); [done..| |exists l; split; [done|by apply Hoffer]].
      cbn [rest]. rewrite Hown. rewrite <- Hst. by eapply (se_statuses Hset).
    + intros a b p Hq Hp. rewrite Hid. apply list_elem_of_fmap in Hids as (m & -> & Hm). destruct (Hm3 m Hm) as (d & Hd & ->).
      apply Hin in Hd as (r' & g & Ha). rewrite <- (an_id _ _ _ _ _ Ha), <- Hbooks. apply (an_free _ _ _ _ _ Ha).
      pose proof (as_dates _ _ _ Hasks) as Had. unfold dates_of in Had. cbn in Had. rewrite Hq, Hp in Had. by injection Had.
Qed.
End Composed.
