(* ===== verification/ProfileTheorems.v ===== *)
(** * Profiles: what is kept, who changes it, and who sees what

    [profiles_wf] is what holds of the two tables at every moment.  The theorems are
    about requests undisturbed ([saved_is_read_back], [erased_is_gone]), under any
    interleaving ([profiles_belong_to_their_owner]), and about what the answers to
    strangers and to support depend on. *)

From Stdlib Require String.
From S2P Require Import Prelude JsNumber Text Money Ledger Columns Bookings AuditLog LocalTime CoreText Answers ListingStore.
From S2P Require Import ListingProofs Cipher Profiles.

#[local] Open Scope string_scope.
#[local] Open Scope list_scope.
#[local] Open Scope Z_scope.

Import Publication AuditDb ProfileDb Profiles.

(** ** Rows by user *)
Definition replace {A} (key : A -> string) (x : A) (l : list A) : list A :=
  x :: List.filter (fun y => negb (bool_decide (key y = key x))) l.
Definition without {A} (key : A -> string) (u : string) (l : list A) : list A :=
  List.filter (fun y => negb (bool_decide (key y = u))) l.

Section Rows.
Context {A : Type} (key : A -> string).

Lemma without_keys (u : string) (l : list A) : u ∉ key <$> without key u l.
Proof.
  intros (x & -> & [_ Hx]%elem_of_bfilter)%list_elem_of_fmap. by rewrite bool_decide_eq_true_2 in Hx.
Qed.

Lemma without_sublist (u : string) (l : list A) : without key u l `sublist_of` l.
Proof. apply bfilter_sublist. Qed.

Lemma NoDup_without (u : string) (l : list A) : NoDup (key <$> l) -> NoDup (key <$> without key u l).
Proof. intros H. eapply sublist_NoDup; [exact H|]. by apply fmap_sublist, without_sublist. Qed.

Lemma NoDup_replace (x : A) (l : list A) : NoDup (key <$> l) -> NoDup (key <$> replace key x l).
Proof. intros H. unfold replace. cbn. constructor; [apply (without_keys (key x))|by apply (NoDup_without (key x))]. Qed.

Lemma Forall_without (P : A -> Prop) (u : string) (l : list A) : Forall P l -> Forall P (without key u l).
Proof. rewrite !Forall_forall. intros H x [Hx _]%elem_of_bfilter. auto. Qed.

Lemma find_without (u : string) (l : list A) : find_by key u (without key u l) = None.
Proof. apply find_by_None, without_keys. Qed.

Lemma find_without_other (u v : string) (l : list A) : u <> v -> find_by key v (without key u l) = find_by key v l.
Proof. intros Hne. apply (find_by_filter key). intros x _ Hx. by rewrite bool_decide_eq_false_2 by congruence. Qed.

Lemma find_replace (x : A) (l : list A) : find_by key (key x) (replace key x l) = Some x.
Proof. unfold find_by, replace. cbn. by rewrite bool_decide_eq_true_2. Qed.

Lemma find_replace_other (x : A) (v : string) (l : list A) :
  key x <> v -> find_by key v (replace key x l) = find_by key v l.
Proof.
  intros Hne. unfold find_by, replace. cbn. rewrite bool_decide_eq_false_2 by done.
  by apply (find_without_other (key x) v).
Qed.
End Rows.

Section Theorems.
Context {Ids : UuidSource} {Pg : PgTypes} {Enc : FieldEncryptor} {L : Luxon} {W : Type} {Ports : ProfilePorts W}.

(** An id as the database spells it, which is what a session holds. *)
Definition canonical (u : string) : Prop := uuid_in u = Some u.

(** ** Well-formed tables *)
Record profile_ok (p : ProfileRow) : Prop := {
  po_id : canonical (pf_id p);
  po_user : canonical (pf_userId p);
  po_status : status_refusal (pf_ownerStatus p) = false }.

(** An address has one postcode, in one spelling, of which the outward code that stands
    beside it is the beginning; and its street lines are readable on this row. *)
Record address_ok (a : AddressRow) : Prop := {
  ao_postcode : Postcode.parse (ad_postcode a) = Ok (ad_postcode a);
  ao_outward : Postcode.outwardCode (ad_postcode a) = Ok (ad_outwardCode a);
  ao_sealed : exists n detail, ad_encryptedDetail a = seal n detail (ad_userId a) }.

Record profiles_wf (db : Db) : Prop := {
  wf_one_profile : NoDup (pf_userId <$> profiles db);
  wf_one_address : NoDup (ad_userId <$> addresses db);
  wf_profiles : Forall profile_ok (profiles db);
  wf_addresses : Forall address_ok (addresses db) }.

Lemma wf_no_profiles (t : instant) : profiles_wf (empty_db t).
Proof. by split; constructor. Qed.

(** ** Every row can be read *)
Lemma status_named (s : OwnerStatus) : asOwnerStatus (Some (status_name s)) = Ok (Some s).
Proof. by destruct s. Qed.

Lemma status_read (s : option string) : status_refusal s = false -> exists o, asOwnerStatus s = Ok o.
Proof.
  destruct s as [s|]; [|by eexists]. unfold status_refusal. intros H. apply negb_false_iff, bool_decide_eq_true in H.
  apply list_elem_of_fmap in H as (o & -> & _). exists (Some o). apply status_named.
Qed.

Lemma address_read (a : AddressRow) :
  address_ok a -> exists detail, open_ (ad_encryptedDetail a) (ad_userId a) = Ok detail /\
    ProfileDb.decrypt (ad_userId a) a = Ok (mkAddress detail.1 detail.2 (ad_town a) (ad_postcode a)).
Proof.
  intros [_ _ (n & d & E)]. exists d. unfold ProfileDb.decrypt. rewrite E, open_seal. by split.
Qed.

Lemma profile_in (u : string) (db : Db) (p : ProfileRow) :
  profiles_wf db -> profile_of u db = Some p -> profile_ok p /\ pf_userId p = u.
Proof.
  intros Hwf [Hp Hu]%find_by_Some. split; [|done]. pose proof (wf_profiles _ Hwf) as H. rewrite Forall_forall in H. auto.
Qed.

Lemma address_in (u : string) (db : Db) (a : AddressRow) :
  profiles_wf db -> address_of u db = Some a -> address_ok a /\ ad_userId a = u.
Proof.
  intros Hwf [Hp Hu]%find_by_Some. split; [|done]. pose proof (wf_addresses _ Hwf) as H. rewrite Forall_forall in H. auto.
Qed.

(** What is stored of a user, as the module reads it. *)
Definition reads_as (p : ProfileRow) (a : option AddressRow) (s : StoredProfile) : Prop :=
  sp_id s = pf_id p /\ sp_userId s = pf_userId p /\ sp_displayName s = pf_displayName p /\ sp_phone s = pf_phone p /\
  sp_updatedAt s = pf_updatedAt p /\ asOwnerStatus (pf_ownerStatus p) = Ok (sp_ownerStatus s) /\
  match a with
  | None => sp_address s = None
  | Some a => exists d, open_ (ad_encryptedDetail a) (ad_userId a) = Ok d /\
      sp_address s = Some (mkAddress d.1 d.2 (ad_town a) (ad_postcode a))
  end.

Lemma stored_reads (p : ProfileRow) (a : option AddressRow) :
  profile_ok p -> (forall r, a = Some r -> address_ok r /\ ad_userId r = pf_userId p) ->
  exists s, toStoredProfile p a = Ok s /\ reads_as p a s.
Proof.
  intros Hp Ha. unfold toStoredProfile, reads_as. destruct (status_read _ (po_status _ Hp)) as [o Ho]. rewrite Ho.
  destruct a as [r|]; unfold_result.
  - destruct (Ha r eq_refl) as [Hr <-]. destruct (address_read r Hr) as (d & Hd & Hr'). unfold_result.
    unfold ProfileDb.decrypt in *. unfold_result. rewrite Hd in *. unfold_result. eexists. split; [done|]. cbn. split_and!; try done.
    by exists d.
  - eexists. split; [done|]. by cbn.
Qed.

Lemma parsed_postcode (raw p : string) :
  Postcode.parse raw = Ok p -> Postcode.parse p = Ok p /\ exists o, Postcode.outwardCode p = Ok o.
Proof. intros (H1 & _ & (o & _ & Ho & _) & _)%Postcode.postcode_canonical. eauto. Qed.

(** ** One owner *)
Section Owners.
(** Whose requests these are. *)
Variable who : string -> Prop.
(** What was stored at the start. *)
Variable db0 : Db.

Record others_kept (db : Db) : Prop := {
  ok_wf : profiles_wf db;
  ok_kept : forall u, ~ who u -> profile_of u db = profile_of u db0 /\ address_of u db = address_of u db0 }.

Lemma kept_upsert_profile (known : string -> bool) (u : string) (c : ProfileChanges) :
  who u -> canonical u -> guards others_kept (upsert_profile known u c) (fun r => profile_ok r /\ pf_userId r = u).
Proof.
  intros Hu Hc db [Hwf Hk]. unfold upsert_profile.
  destruct (status_refusal _) eqn:Hs; [by split; [split|]|]. destruct (negb (known u)); [by split; [split|]|].
  assert (profile_ok (profile_for u c db)) as Hp.
  { split; [|done|exact Hs]. unfold canonical, profile_for; cbn. destruct (profile_of u db) as [p|] eqn:Hp; [|apply uuid_in_out].
    destruct (profile_in _ _ _ Hwf Hp) as [Hp' _]. apply Hp'. }
  split; [|by intros ? [= <-]]. cbn [fst].
  change (_ :: List.filter _ (profiles db)) with (replace pf_userId (profile_for u c db) (profiles db)).
  destruct Hwf as [H1 H2 H3 H4]. split; [split|]; try done.
  - by apply (NoDup_replace pf_userId).
  - constructor; [done|]. by apply (Forall_without pf_userId _ u).
  - intros v Hv. destruct (Hk v Hv) as [<- <-]. split; [|done]. apply (find_replace_other pf_userId). cbn. by intros ->.
Qed.

Lemma kept_upsert_address (known : string -> bool) (u p o : string) (a : AddressDetail) (sealed : string) :
  who u -> Postcode.parse p = Ok p -> Postcode.outwardCode p = Ok o -> (exists n d, sealed = seal n d u) ->
  guards others_kept (upsert_address known u p o a sealed) (fun r => address_ok r /\ ad_userId r = u).
Proof.
  intros Hu Hp Ho Hs db [Hwf Hk]. unfold upsert_address. destruct (negb (known u)); [by split; [split|]|].
  assert (address_ok (address_for u p o a sealed db)) as Ha by by split.
  split; [|by intros ? [= <-]]. cbn [fst].
  change (_ :: List.filter _ (addresses db)) with (replace ad_userId (address_for u p o a sealed db) (addresses db)).
  destruct Hwf as [H1 H2 H3 H4]. split; [split|]; try done.
  - by apply (NoDup_replace ad_userId).
  - constructor; [done|]. by apply (Forall_without ad_userId _ u).
  - intros v Hv. destruct (Hk v Hv) as [<- <-]. split; [done|]. apply (find_replace_other ad_userId). cbn. by intros ->.
Qed.

Lemma kept_delete_address (u : string) : who u -> guards others_kept (delete_address u) (fun _ => True).
Proof.
  intros Hu. apply guards_modify. intros db [[H1 H2 H3 H4] Hk]. split; [split|]; try done.
  - by apply (NoDup_without ad_userId).
  - by apply (Forall_without ad_userId).
  - intros v Hv. destruct (Hk v Hv) as [<- <-]. split; [done|]. apply (find_without_other ad_userId). by intros ->.
Qed.

Lemma kept_delete_profile (u : string) : who u -> guards others_kept (delete_profile u) (fun _ => True).
Proof.
  intros Hu. apply guards_modify. intros db [[H1 H2 H3 H4] Hk]. split; [split|]; try done.
  - by apply (NoDup_without pf_userId).
  - by apply (Forall_without pf_userId).
  - intros v Hv. destruct (Hk v Hv) as [<- <-]. split; [|done]. apply (find_without_other pf_userId). by intros ->.
Qed.

Section Adapters.
Variable known : string -> bool.
Variable within : Db -> Db.
Hypothesis within_ok : forall db, others_kept db -> others_kept (within db).

Lemma kept_within : guards others_kept (modify within) (fun _ => True).
Proof. by apply guards_modify. Qed.

Lemma kept_uuid {A} (u : string) (k : string -> M Db A) (Q : A -> Prop) :
  canonical u -> guards others_kept (k u) Q -> guards others_kept (v ← as_uuid u; k v) Q.
Proof. intros Hu Hk. unfold as_uuid. rewrite Hu. exact Hk. Qed.

Lemma kept_write (u : string) (c : ProfileChanges) (sealed : option string) :
  who u -> canonical u -> (forall s, sealed = Some s -> exists n d, s = seal n d u) ->
  guards others_kept (write_profile known within u c sealed) (fun _ => True).
Proof.
  intros Hu Hc Hs. unfold write_profile. eapply guards_transaction_over; [done|by apply kept_upsert_profile|]. intros row _. unfold write_address.
  destruct (ch_address c) as [a|], sealed as [s|];
    try (eapply guards_bind; [by apply kept_delete_address|]; intros _ _; by apply guards_ret).
  eapply guards_bind; [apply guards_lift|]. intros p Hp.
  eapply guards_bind; [apply guards_lift|]. intros o Ho. destruct (parsed_postcode _ _ Hp) as [Hpp _].
  eapply guards_bind; [by apply kept_upsert_address; [| | |apply Hs]|]. intros r _. by apply guards_ret.
Qed.

Lemma kept_save (u : string) (c : ProfileChanges) :
  who u -> canonical u -> guards others_kept (save known within u c) (fun _ => True).
Proof.
  intros Hu Hc db Hdb. split; [|done]. unfold save. run_binds. unfold catch, as_uuid. rewrite Hc. run_binds.
  pose proof (kept_write u c (encrypt db u <$> ch_address c) Hu Hc
    ltac:(intros s; destruct (ch_address c); [intros [= <-]; by do 2 eexists|done]) db Hdb) as [H _].
  destruct (write_profile known within u c _ db) as [db' [[p a]|e]]; cbn in *.
  - unfold lift, throw. by repeat case_match; simplify_eq.
  - by case_match.
Qed.

Lemma kept_erase (u : string) : who u -> canonical u -> guards others_kept (erase within u) (fun _ => True).
Proof.
  intros Hu Hc. unfold erase. apply kept_uuid; [done|].
  eapply guards_transaction_over; [done|by apply kept_delete_address|]. intros _ _. by apply kept_delete_profile.
Qed.

Lemma kept_find (first : bool) (u : string) : canonical u -> guards others_kept (ProfileDb.find within first u) (fun _ => True).
Proof.
  intros Hc. unfold ProfileDb.find. apply kept_uuid; [done|].
  do 2 (eapply (guards_bind _ _ _ (fun _ => True)); [by intros db Hdb|]; intros ? _).
  eapply guards_bind; [apply kept_within|]. intros _ _.
  do 2 (eapply (guards_bind _ _ _ (fun _ => True)); [by intros db Hdb|]; intros ? _). cbv zeta.
  destruct (if first then _ else _); [|by apply guards_ret]. by intros db Hdb.
Qed.
End Adapters.

(** *** The requests *)
Definition kept_in (w : World W) : Prop := others_kept (pdb w).
Abbreviation keeping m := (guards kept_in m (fun _ => True)).

Lemma kept_on_db {A} (m : (string -> bool) -> M Db A) :
  (forall known, guards others_kept (m known) (fun _ => True)) -> keeping (on_db m).
Proof.
  intros Hm w Hw. unfold on_db. specialize (Hm (account_known (rest w)) (pdb w) Hw). by destruct (m _ (pdb w)).
Qed.

Lemma kept_audit (a : Actor) (act : AuditAction) (i : string) (b c : option AuditableProfile) : keeping (Profiles.audit a act i b c).
Proof.
  apply kept_on_db. intros known db [[H1 H2 H3 H4] Hk]. by destruct (Audit.record _ _ _ _ _) as [t r].
Qed.

Section Requests.
Variable rival : World W -> World W.
Variable within : Db -> Db.
Hypothesis rival_ok : forall w, kept_in w -> kept_in (rival w).
Hypothesis within_ok : forall db, others_kept db -> others_kept (within db).

Lemma kept_await : keeping (Profiles.await rival).
Proof. by apply guards_modify. Qed.

Lemma kept_stored (first : bool) (u : string) : canonical u -> keeping (stored_profile within first u).
Proof. intros Hc. apply kept_on_db. intros known. by apply kept_find. Qed.

Lemma kept_saveMine (first : bool) (a : Actor) (c : ProfileChanges) :
  who (actor_userId a) -> canonical (actor_userId a) -> keeping (saveMine rival within first a c).
Proof.
  intros Hu Hc. unfold saveMine. eapply guards_bind; [by apply kept_stored|]. intros before _.
  eapply guards_bind; [apply kept_await|]. intros _ _.
  eapply guards_bind; [apply kept_on_db; intros known; by apply kept_save|]. intros saved _.
  eapply guards_bind; [apply kept_await|]. intros _ _.
  eapply guards_bind; [apply kept_audit|]. intros _ _. by apply guards_ret.
Qed.

Lemma kept_eraseFor (first : bool) (a : Actor) :
  who (actor_userId a) -> canonical (actor_userId a) -> keeping (eraseFor rival within first a).
Proof.
  intros Hu Hc. unfold eraseFor. eapply guards_bind; [by apply kept_stored|]. intros before _.
  eapply guards_bind; [apply kept_await|]. intros _ _.
  eapply guards_bind; [apply kept_on_db; intros known; by apply kept_erase|]. intros [] _.
  destruct before; [|by apply guards_ret]. eapply guards_bind; [apply kept_await|]. intros _ _. apply kept_audit.
Qed.
End Requests.
End Owners.

(** ** Any interleaving *)
Inductive request : Type := RSave (actor : Actor) (input : ProfileChanges) | RErase (actor : Actor).
Definition requester (q : request) : string := match q with RSave a _ | RErase a => actor_userId a end.

Record turn : Type := mkTurn {
  turn_rival : World W -> World W;
  turn_within : Db -> Db;
  turn_first : bool;
  turn_request : request }.

Definition serve (t : turn) (w : World W) : World W :=
  match turn_request t with
  | RSave a c => fst (saveMine (turn_rival t) (turn_within t) (turn_first t) a c w)
  | RErase a => fst (eraseFor (turn_rival t) (turn_within t) (turn_first t) a w)
  end.

(** Requests of [who], in sessions, one after another, each disturbed at its awaits and
    between its statements by such requests in turn; [elsewhere] is anything that leaves
    the two tables alone. *)
Inductive undertaken (who : string -> Prop) : (World W -> World W) -> Prop :=
  | un_idle : undertaken who Datatypes.id
  | un_elsewhere (f : World W -> World W) :
      (forall w, profiles (pdb (f w)) = profiles (pdb w) /\ addresses (pdb (f w)) = addresses (pdb w)) -> undertaken who f
  | un_turn (t : turn) (inside onwards : World W -> World W) :
      who (requester (turn_request t)) -> canonical (requester (turn_request t)) ->
      undertaken who (turn_rival t) -> undertaken who inside ->
      (forall db, exists k, turn_within t db = pdb (inside (mkWorld db k))) ->
      undertaken who onwards -> undertaken who (fun w => onwards (serve t w)).

Lemma undertaken_kept (who : string -> Prop) (db0 : Db) (f : World W -> World W) (w : World W) :
  undertaken who f -> kept_in who db0 w -> kept_in who db0 (f w).
Proof.
  intros Hf. revert w. induction Hf as [|f Hf|t inside onwards Hu Hc _ IHr _ IHi Hin _ IHo]; intros w Hw; [done| |].
  - destruct (Hf w) as [Hp Ha], Hw as [[H1 H2 H3 H4] Hk]. unfold kept_in, profile_of, address_of in *.
    split; [split|]; rewrite ?Hp, ?Ha; try done. intros u Hu. unfold profile_of, address_of. rewrite Hp, Ha. by apply Hk.
  - assert (forall db, others_kept who db0 db -> others_kept who db0 (turn_within t db)) as Hi.
    { intros db Hdb. destruct (Hin db) as [k ->]. by apply (IHi (mkWorld db k)). }
    apply IHo. unfold serve. destruct (turn_request t) as [a c|a]; [by apply kept_saveMine|by apply kept_eraseFor].
Qed.

(** C16. However requests to save and to erase profiles interleave, the tables stay well
    formed: one profile and one address a user, every status one that is known, every
    postcode in its one spelling beside its own outward code, every address readable on its
    row; and what is stored of somebody who asked for nothing stays as it was. *)
Theorem profiles_belong_to_their_owner (who : string -> Prop) (f : World W -> World W) (w : World W) :
  undertaken who f -> profiles_wf (pdb w) ->
  profiles_wf (pdb (f w)) /\
  forall u, ~ who u -> profile_of u (pdb (f w)) = profile_of u (pdb w) /\ address_of u (pdb (f w)) = address_of u (pdb w).
Proof. intros Hf Hwf. by destruct (undertaken_kept who (pdb w) f w Hf) as [H1 H2]; [split|]. Qed.

(** ** Undisturbed *)
Definition calm : World W -> World W := Datatypes.id.
Definition still : Db -> Db := Datatypes.id.

(** An actor the audit table takes, in a session. *)
Record admitted (k : W) (a : Actor) : Prop := {
  ad_known : account_known k (actor_userId a) = true;
  ad_canonical : canonical (actor_userId a);
  ad_ip : forall ip, actor_ipAddress a = Some ip -> inet_in ip = true }.

Definition reading (u : string) (db : Db) : result (option StoredProfile) :=
  match profile_of u db with
  | None => Ok None
  | Some p => s ← toStoredProfile p (address_of u db); Ok (Some s)
  end.

Lemma find_run (first : bool) (u : string) (db : Db) :
  canonical u -> ProfileDb.find still first u db = (db, reading u db).
Proof.
  intros Hc. unfold ProfileDb.find, as_uuid. rewrite Hc. run_binds. cbn [modify].
  change (still db) with db. unfold reading. destruct first; by destruct (profile_of u db).
Qed.

Lemma stored_run (first : bool) (u : string) (w : World W) :
  canonical u -> stored_profile still first u w = (w, reading u (pdb w)).
Proof. intros Hc. unfold stored_profile, on_db. rewrite find_run by done. by destruct w. Qed.

Lemma reading_wf (u : string) (db : Db) :
  profiles_wf db -> match profile_of u db with
                    | None => reading u db = Ok None
                    | Some p => exists s, reading u db = Ok (Some s) /\ reads_as p (address_of u db) s
                    end.
Proof.
  intros Hwf. unfold reading. destruct (profile_of u db) as [p|] eqn:Hp; [|done].
  destruct (profile_in _ _ _ Hwf Hp) as [Hok Hu].
  destruct (stored_reads p (address_of u db) Hok) as (s & -> & Hs); [|by exists s].
  intros r Hr. destruct (address_in _ _ _ Hwf Hr). split; [done|congruence].
Qed.

(** The trail with one more entry. *)
Definition noted (a : Actor) (act : AuditAction) (target : string) (b c : option AuditableProfile) (db : Db) : Db :=
  with_ptrail (mkTrail (entries (ptrail db) ++ [mkAuditRow (uuid (eseq (ptrail db)))
    (mkEntry (Some (actor_userId a)) act "profile" target (digest_profile <$> b) (digest_profile <$> c)
       (actor_ipAddress a) (actor_sessionId a) None) (pclock db)]) (S (eseq (ptrail db)))) db.

Lemma profile_audit_run (a : Actor) (act : AuditAction) (target : string) (b c : option AuditableProfile) (db : Db) (k : W) :
  admitted k a -> canonical target ->
  Profiles.audit a act target b c (mkWorld db k) = (mkWorld (noted a act target b c db) k, Ok tt).
Proof.
  intros [Hk Hid Hip] Ht. unfold Profiles.audit, on_db, Audit.record, AuditDb.record, as_uuid_opt, as_uuid. cbn.
  rewrite Hid. unfold_M. rewrite Ht. unfold_M.
  destruct (actor_ipAddress a) as [ip|] eqn:He; [rewrite (Hip ip) by done|]; cbn; rewrite Hk; cbn; unfold noted; by rewrite ?He.
Qed.

(** *** Saving *)
Definition address_saved (c : ProfileChanges) : result (option AddressDetail) :=
  match ch_address c with
  | None => Ok None
  | Some a => p ← Postcode.parse (postcode a); Ok (Some (mkAddress (line1 a) (line2 a) (town a) p))
  end.

Lemma parse_error (raw : string) (e : error) : Postcode.parse raw = Err e -> isUniqueViolation e = false.
Proof. rewrite Postcode.parse_spec. destruct (Postcode.isValid raw); [done|]. by intros [= <-]. Qed.

Lemma status_saved (c : ProfileChanges) : status_refusal (status_name <$> ch_ownerStatus c) = false.
Proof. by destruct (ch_ownerStatus c) as [[]|]. Qed.

Lemma upsert_profile_run (known : string -> bool) (u : string) (c : ProfileChanges) (db : Db) :
  known u = true -> upsert_profile known u c db =
    (next (with_profiles (replace pf_userId (profile_for u c db) (profiles db)) db), Ok (profile_for u c db)).
Proof. intros Hk. unfold upsert_profile. cbn. by rewrite status_saved, Hk. Qed.

Lemma save_refused (known : string -> bool) (u : string) (c : ProfileChanges) (db : Db) (e : error) :
  known u = true -> canonical u -> address_saved c = Err e -> save known still u c db = (db, Err e).
Proof.
  intros Hk Hc He. unfold save, catch, as_uuid. rewrite Hc. run_binds. unfold write_profile, transaction_over, write_address.
  rewrite upsert_profile_run by done. unfold address_saved in He.
  destruct (ch_address c) as [a|]; [|done]. cbn [fmap option_fmap option_map]. run_binds.
  destruct (Postcode.parse (postcode a)) as [p|e'] eqn:Hp; [done|]. injection He as ->.
  cbn. by rewrite (parse_error _ _ Hp).
Qed.

(** What a save leaves in the tables. *)
Record saved_as (u : string) (c : ProfileChanges) (a : option AddressDetail) (db db' : Db) (s : StoredProfile) : Prop := {
  sv_profile : s = mkStored (match profile_of u db with Some p => pf_id p | None => uuid (pseq db) end) u
                     (ch_displayName c) (ch_phone c) a (ch_ownerStatus c) (pclock db);
  sv_read : reading u db' = Ok (Some s);
  sv_trail : ptrail db' = ptrail db;
  sv_clock : pclock db' = pclock db }.

Lemma status_of (o : option OwnerStatus) : asOwnerStatus (status_name <$> o) = Ok o.
Proof. by destruct o as [[]|]. Qed.

Lemma save_done (known : string -> bool) (u : string) (c : ProfileChanges) (db : Db) (a : option AddressDetail) :
  known u = true -> canonical u -> address_saved c = Ok a ->
  exists db' s, save known still u c db = (db', Ok s) /\ saved_as u c a db db' s.
Proof.
  intros Hk Hc Ha. unfold save, catch, as_uuid. rewrite Hc. run_binds. unfold write_profile, transaction_over, write_address.
  rewrite upsert_profile_run by done.
  set (db1 := next _). change (still db1) with db1.
  assert (profile_of u db1 = Some (profile_for u c db)) as Hp1.
  { apply (find_replace pf_userId (profile_for u c db)). }
  assert (pclock db1 = pclock db /\ ptrail db1 = ptrail db) as [Hc1 Ht1] by done.
  unfold address_saved in Ha. destruct (ch_address c) as [x|]; cbn [fmap option_fmap option_map].
  - destruct (Postcode.parse (postcode x)) as [p|e] eqn:Hp; [|done]. injection Ha as <-. run_binds.
    destruct (parsed_postcode _ _ Hp) as (_ & o & Ho). rewrite Ho. run_binds. unfold upsert_address. rewrite Hk. cbn [negb].
    set (row := address_for u p o x (encrypt db u x) db1). set (db2 := next _). run_binds. cbn [fst snd].
    assert (toStoredProfile (profile_for u c db) (Some row) = Ok (mkStored (pf_id (profile_for u c db)) u (ch_displayName c)
      (ch_phone c) (Some (mkAddress (line1 x) (line2 x) (town x) p)) (ch_ownerStatus c) (pclock db))) as E.
    { unfold toStoredProfile, ProfileDb.decrypt. cbn [ad_encryptedDetail pf_userId profile_for row address_for].
      unfold encrypt. rewrite open_seal. change (pf_ownerStatus _) with (status_name <$> ch_ownerStatus c).
      by rewrite status_of. }
    rewrite E. cbn [lift]. eexists db2, _. split; [done|]. split; try done.
    unfold reading. change (profile_of u db2) with (profile_of u db1). rewrite Hp1.
    replace (address_of u db2) with (Some row) by (symmetry; apply (find_replace ad_userId row)). by rewrite E.
  - injection Ha as <-. run_binds. unfold delete_address. cbn [modify]. set (db2 := with_addresses _ _). run_binds. cbn [fst snd].
    assert (toStoredProfile (profile_for u c db) None = Ok (mkStored (pf_id (profile_for u c db)) u (ch_displayName c)
      (ch_phone c) None (ch_ownerStatus c) (pclock db))) as E.
    { unfold toStoredProfile. change (pf_ownerStatus _) with (status_name <$> ch_ownerStatus c). by rewrite status_of. }
    rewrite E. cbn [lift]. eexists db2, _. split; [done|]. split; try done.
    unfold reading. change (profile_of u db2) with (profile_of u db1). rewrite Hp1.
    replace (address_of u db2) with (@None AddressRow) by (symmetry; apply (find_without ad_userId u)). by rewrite E.
Qed.

Lemma kept_self (u : string) (db : Db) : profiles_wf db -> others_kept (eq u) db db.
Proof. by split. Qed.

(** C18. A save that is not disturbed either refuses the postcode and leaves everything as
    it was, or returns the profile as it was given, its postcode in the one spelling, which
    is what every later reading returns; nobody else's rows move, and the trail has one more
    entry, of a creation exactly when there was no profile, with the digests of what was
    there and of what is. *)
Theorem saved_is_read_back (first : bool) (a : Actor) (c : ProfileChanges) (db : Db) (k : W) :
  profiles_wf db -> admitted k a ->
  let u := actor_userId a in
  match address_saved c with
  | Err e => saveMine calm still first a c (mkWorld db k) = (mkWorld db k, Err e)
  | Ok address =>
      exists db' mine before,
        saveMine calm still first a c (mkWorld db k) = (mkWorld db' k, Ok mine) /\
        mine = mkMyProfile (ch_displayName c) (ch_phone c) address (ch_ownerStatus c) (Time.toIsoUtc (pclock db)) /\
        findMine still first u (mkWorld db' k) = (mkWorld db' k, Ok (Some mine)) /\
        (forall v, v <> u -> profile_of v db' = profile_of v db /\ address_of v db' = address_of v db) /\
        reading u db = Ok before /\
        exists target, ptrail db' = ptrail (noted a
          (match profile_of u db with Some _ => profile_updated | None => profile_created end) target
          (auditableState <$> before)
          (Some (mkAuditableProfile (ch_displayName c) (ch_phone c) address (ch_ownerStatus c))) db)
  end.
Proof.
  intros Hwf Ha u. pose proof Ha as [Hk Hc _]. fold u in Hk, Hc.
  pose proof (reading_wf u db Hwf) as Hr. unfold saveMine. run_binds. rewrite stored_run by done. fold u. cbn [pdb].
  assert (exists before, reading u db = Ok before /\ (is_Some before <-> is_Some (profile_of u db))) as (before & Hb & Hi).
  { destruct (profile_of u db); [destruct Hr as (s & -> & _)|rewrite Hr]; eexists; (split; [done|]);
      split; intros [? ?]; try done; by eexists. }
  clear Hr. rewrite Hb. run_binds. unfold Profiles.await. cbn [modify].
  destruct (address_saved c) as [address|e] eqn:Hs; unfold on_db; cbn [pdb rest calm Datatypes.id].
  - destruct (save_done (account_known k) u c db address Hk Hc Hs) as (db1 & s & Hsave & [Hp Hread Ht Hcl]).
    change (calm (mkWorld db k)) with (mkWorld db k). run_binds. cbn [pdb rest]. rewrite Hsave. run_binds. cbn [modify].
    change (calm (mkWorld db1 k)) with (mkWorld db1 k).
    assert (canonical (sp_id s)) as Hid.
    { rewrite Hp. cbn. destruct (profile_of u db) as [p|] eqn:Hpr; [|apply uuid_in_out].
      destruct (profile_in _ _ _ Hwf Hpr) as [Hok _]. apply Hok. }
    rewrite profile_audit_run by done. run_binds. do 3 eexists. split; [done|]. split; [by rewrite Hp|]. split.
    { unfold findMine. rewrite bind_at, stored_run by done. change (reading u (pdb _)) with (reading u db1).
      by rewrite Hread. }
    split; [|split; [reflexivity|]].
    { pose proof (kept_save (eq u) db (account_known k) still (fun _ H => H) u c eq_refl Hc db (kept_self u db Hwf)) as [H _].
      rewrite Hsave in H. intros v Hv. apply (ok_kept _ _ _ H). congruence. }
    exists (sp_id s). unfold noted. cbn [ptrail with_ptrail]. rewrite Ht, Hcl. f_equal. f_equal. f_equal. f_equal. f_equal; [|by rewrite Hp].
    destruct (profile_of u db) as [p|]; case_bool_decide as Hd; try done; exfalso.
    + apply Hd, Hi. by eexists.
    + apply Hi in Hd as [? ?]. done.
  - change (calm (mkWorld db k)) with (mkWorld db k). run_binds. cbn [pdb rest]. by rewrite (save_refused _ _ _ _ _ Hk Hc Hs).
Qed.

(** *** Erasing *)
Lemma on_db_bind {A B} (m : (string -> bool) -> M Db A) (f : A -> M (World W) B) (db : Db) (k : W) :
  mbind f (on_db m) (mkWorld db k) =
    match m (account_known k) db with
    | (s, Ok a) => f a (mkWorld s k)
    | (s, Err e) => (mkWorld s k, Err e)
    end.
Proof. rewrite bind_at. unfold on_db. cbn [pdb rest]. by destruct (m _ db) as [s [x|e]]. Qed.

Lemma profile_erase_run (u : string) (db : Db) :
  canonical u -> erase still u db =
    (with_profiles (without pf_userId u (profiles db)) (with_addresses (without ad_userId u (addresses db)) db), Ok tt).
Proof. intros Hc. unfold erase, as_uuid. by rewrite Hc. Qed.

(** An erasure that is not disturbed leaves no row of the user, and everybody else's; it is
    recorded exactly when there was a profile; and asking again changes nothing. *)
Theorem erased_is_gone (first : bool) (a : Actor) (db : Db) (k : W) :
  profiles_wf db -> admitted k a ->
  let u := actor_userId a in
  exists db', eraseFor calm still first a (mkWorld db k) = (mkWorld db' k, Ok tt) /\
    u ∉ pf_userId <$> profiles db' /\ u ∉ ad_userId <$> addresses db' /\
    findMine still first u (mkWorld db' k) = (mkWorld db' k, Ok None) /\
    (forall v, v <> u -> profile_of v db' = profile_of v db /\ address_of v db' = address_of v db) /\
    match profile_of u db with
    | None => ptrail db' = ptrail db
    | Some p => exists s, reading u db = Ok (Some s) /\
        ptrail db' = ptrail (noted a profile_erased (pf_id p) (Some (auditableState s)) None db)
    end /\
    eraseFor calm still first a (mkWorld db' k) = (mkWorld db' k, Ok tt).
Proof.
  intros Hwf Ha u. pose proof Ha as [Hk Hc _]. fold u in Hk, Hc.
  set (gone := fun d => with_profiles (without pf_userId u (profiles d)) (with_addresses (without ad_userId u (addresses d)) d)).
  assert (forall d, profile_of u (gone d) = None /\ address_of u (gone d) = None) as Hgone.
  { intros d. split; [apply (find_without pf_userId)|apply (find_without ad_userId)]. }
  assert (forall d t, reading u (with_ptrail t (gone d)) = Ok None) as Hread.
  { intros d t. unfold reading. change (profile_of u (with_ptrail t (gone d))) with (profile_of u (gone d)). by rewrite (proj1 (Hgone d)). }
  assert (forall d t, with_ptrail t (gone (with_ptrail t (gone d))) = with_ptrail t (gone d)) as Htwice.
  { intros d t. unfold gone, with_ptrail, with_profiles, with_addresses. cbn. f_equal; unfold without; induction (_ d) as [|x l IH]; cbn;
      try done; destruct (bool_decide _) eqn:E; cbn; rewrite ?E; cbn; by rewrite ?IH. }
  assert (forall d t, eraseFor calm still first a (mkWorld (with_ptrail t (gone d)) k) = (mkWorld (with_ptrail t (gone d)) k, Ok tt)) as Hagain.
  { intros d t. unfold eraseFor. run_binds. rewrite stored_run by done. fold u. cbn [pdb]. rewrite Hread. run_binds.
    unfold Profiles.await. cbn [modify]. change (calm ?w) with w. rewrite on_db_bind, profile_erase_run by done. run_binds.
    do 2 f_equal. exact (Htwice d t). }
  assert (forall d t v, v <> u -> profile_of v (with_ptrail t (gone d)) = profile_of v d /\ address_of v (with_ptrail t (gone d)) = address_of v d) as Hothers.
  { intros d t v Hv. split; [apply (find_without_other pf_userId)|apply (find_without_other ad_userId)]; congruence. }
  pose proof (reading_wf u db Hwf) as Hr.
  destruct (profile_of u db) as [p|] eqn:Hp; [destruct Hr as (s & Hs & Hreads)|].
  - exists (with_ptrail (ptrail (noted a profile_erased (pf_id p) (Some (auditableState s)) None db)) (gone db)).
    split_and!; try done.
    + unfold eraseFor. run_binds. rewrite stored_run by done. fold u. cbn [pdb]. rewrite Hs. run_binds.
      unfold Profiles.await. cbn [modify]. change (calm ?w) with w. rewrite on_db_bind, profile_erase_run by done. run_binds. cbn [modify].
      change (calm ?w) with w. destruct Hreads as (-> & _). destruct (profile_in _ _ _ Hwf Hp) as [[Hi _ _] _]. by rewrite profile_audit_run by done.
    + apply (without_keys pf_userId).
    + apply (without_keys ad_userId).
    + unfold findMine. rewrite bind_at, stored_run by done. cbn [pdb]. by rewrite Hread.
    + intros v Hv. by apply Hothers.
    + by exists s.
  - exists (with_ptrail (ptrail db) (gone db)). split_and!; try done.
    + unfold eraseFor. run_binds. rewrite stored_run by done. fold u. cbn [pdb]. rewrite Hr. run_binds.
      unfold Profiles.await. cbn [modify]. change (calm ?w) with w. by rewrite on_db_bind, profile_erase_run by done.
    + apply (without_keys pf_userId).
    + apply (without_keys ad_userId).
    + unfold findMine. rewrite bind_at, stored_run by done. cbn [pdb]. by rewrite Hread.
    + intros v Hv. by apply Hothers.
Qed.

(** ** What is shown *)
Section Shown.
Variable rival : World W -> World W.
Variable within : Db -> Db.
Hypothesis rival_ok : forall w, profiles_wf (pdb w) -> profiles_wf (pdb (rival w)).
Hypothesis within_ok : forall db, profiles_wf db -> profiles_wf (within db).

(** The two rows that a reading sees, of two statements at once. *)
Definition seen (first : bool) (u : string) (db : Db) : option (ProfileRow * option AddressRow) :=
  (fun p => (p, address_of u (if first then db else within db))) <$> profile_of u (if first then within db else db).

Lemma stored_seen (first : bool) (u : string) (w : World W) :
  canonical u -> profiles_wf (pdb w) ->
  match seen first u (pdb w) with
  | None => snd (stored_profile within first u w) = Ok None
  | Some (p, a) => exists s, snd (stored_profile within first u w) = Ok (Some s) /\ reads_as p a s /\
      pf_userId p = u /\ (forall r, a = Some r -> address_ok r)
  end.
Proof.
  intros Hc Hwf. unfold stored_profile, on_db, ProfileDb.find, as_uuid, seen. rewrite Hc. run_binds. cbn [modify].
  pose proof (within_ok _ Hwf) as Hwf'.
  set (pd := if first then within (pdb w) else pdb w). set (ad := if first then pdb w else within (pdb w)).
  assert ((if first then profile_of u (within (pdb w)) else profile_of u (pdb w)) = profile_of u pd) as -> by by destruct first.
  assert ((if first then address_of u (pdb w) else address_of u (within (pdb w))) = address_of u ad) as -> by by destruct first.
  assert (profiles_wf pd) as Hp by by destruct first. assert (profiles_wf ad) as Ha by by destruct first.
  destruct (profile_of u pd) as [p|] eqn:E; [|done]. cbn [fmap option_fmap option_map].
  destruct (profile_in _ _ _ Hp E) as [Hok Hu]. pose proof (fun r => address_in u ad r Ha) as Hin.
  destruct (stored_reads p (address_of u ad) Hok) as (s & Hs & Hreads); [intros r Ha0; destruct (Hin r Ha0); split; congruence|].
  exists s. unfold lift. cbn [snd]. rewrite Hs. split_and!; try done. intros r Ha0. by apply Hin.
Qed.

Lemma outward_seen (p : ProfileRow) (a : option AddressRow) (s : StoredProfile) :
  reads_as p a s -> (forall r, a = Some r -> address_ok r) ->
  match sp_address s, a with
  | None, None => True
  | Some d, Some r => Postcode.outwardCode (postcode d) = Ok (ad_outwardCode r) /\ town d = ad_town r
  | _, _ => False
  end.
Proof.
  intros (_ & _ & _ & _ & _ & _ & H) Ha. destruct a as [r|]; [|by rewrite H]. destruct H as (d & _ & ->). cbn.
  split; [apply (Ha r eq_refl)|done].
Qed.

(** C15. A stranger is shown the name, the outward code and the town that are stored, the
    month the account was made, and nothing else: whatever else is stored, the phone, the
    street and the rest of the postcode among it, the answer is the same. Support is shown
    besides whether there is a phone, and when the profile was saved. *)
Theorem strangers_see_the_area (first : bool) (u : string) (w : World W) :
  profiles_wf (pdb w) -> canonical u ->
  snd (Profiles.findPublic rival within first u w) =
    (account ← findActive u (rest w);
     Ok (account ≫= (fun account =>
       (fun '(p, a) => mkPublicProfile (account_id account) (pf_displayName p) (ad_outwardCode <$> a) (ad_town <$> a)
                         (toMonth (account_createdAt account))) <$> seen first u (pdb (rival w))))) /\
  snd (Profiles.adminSummaryFor within first u w) =
    Ok ((fun '(p, a) => mkAdminProfile (pf_displayName p) (bool_decide (is_Some (pf_phone p)))
                          ((fun a => (ad_town a, ad_outwardCode a)) <$> a) (Time.toIsoUtc (pf_updatedAt p)))
          <$> seen first u (pdb w)).
Proof.
  intros Hwf Hc. split.
  - unfold Profiles.findPublic, Profiles.await. run_binds. destruct (findActive u (rest w)) as [[account|]|e]; try done.
    run_binds. cbn [modify]. pose proof (stored_seen first u (rival w) Hc (rival_ok w Hwf)) as H.
    destruct (stored_profile within first u (rival w)) as [w' x]. cbn [snd] in H. cbn [mbind result_bind option_bind].
    destruct (seen first u (pdb (rival w))) as [[p a]|]; [|by subst].
    destruct H as (s & -> & Hs & _ & Ha). pose proof (outward_seen p a s Hs Ha) as Ho. run_binds.
    destruct Hs as (_ & _ & -> & _). destruct (sp_address s) as [d|], a as [r|]; try done. destruct Ho as [-> Ht].
    cbn. by rewrite Ht.
  - unfold Profiles.adminSummaryFor. rewrite bind_at. pose proof (stored_seen first u w Hc Hwf) as H.
    destruct (stored_profile within first u w) as [w' x]. cbn [snd] in H.
    destruct (seen first u (pdb w)) as [[p a]|]; [|by subst].
    destruct H as (s & -> & Hs & _ & Ha). pose proof (outward_seen p a s Hs Ha) as Ho. run_binds.
    destruct Hs as (_ & _ & -> & -> & -> & _). destruct (sp_address s) as [d|], a as [r|]; try done. destruct Ho as [-> Ht].
    cbn. by rewrite Ht.
Qed.
End Shown.

(** ** Statuses *)
Lemma uuids_of (us : list string) : Forall canonical us -> try_map uuid_of us = Ok us.
Proof.
  intros H. rewrite <- (list_fmap_id us) at 2. apply try_map_ok. eapply Forall_impl; [exact H|].
  intros u Hu. unfold uuid_of. by rewrite Hu.
Qed.

Lemma statuses_found (l : list ProfileRow) (u : string) :
  NoDup (pf_userId <$> l) ->
  list_to_map (M := gmap string OwnerStatus) (omap (fun e => (fun s => (fst e, s)) <$> snd e)
    ((fun p => (pf_userId p, match asOwnerStatus (pf_ownerStatus p) with Ok s => s | Err _ => None end)) <$> l)) !! u
  = (p ← find_by pf_userId u l; match asOwnerStatus (pf_ownerStatus p) with Ok s => s | Err _ => None end).
Proof.
  unfold find_by. induction l as [|p l IH]; intros Hnd; cbn; [done|]. apply NoDup_cons in Hnd as [Hp Hnd].
  specialize (IH Hnd). destruct (decide (pf_userId p = u)) as [Hu|Hu].
  - rewrite bool_decide_eq_true_2 by done. cbn. destruct (match asOwnerStatus _ with Ok s => s | Err _ => None end) as [s|]; cbn.
    + rewrite Hu. apply lookup_insert_eq.
    + rewrite IH. assert (find_by pf_userId u l = None) as E by (apply find_by_None; by rewrite <- Hu).
      unfold find_by in E. by rewrite E.
  - rewrite bool_decide_eq_false_2 by done. destruct (match asOwnerStatus (pf_ownerStatus p) with Ok s => s | Err _ => None end) as [s|]; cbn; [|exact IH].
    by rewrite lookup_insert_ne.
Qed.

(** Asking for the statuses of many people at once answers each as asking for one does;
    whoever has none, or was not asked about, is not in the answer. *)
Theorem statuses_agree (first : bool) (us : list string) (w : World W) :
  profiles_wf (pdb w) -> Forall canonical us ->
  exists statuses, Profiles.findOwnerStatuses us w = (w, Ok statuses) /\
    forall u, canonical u -> exists status,
      findOwnerStatus still first u w = (w, Ok status) /\
      statuses !! u = if bool_decide (u ∈ us) then status else None.
Proof.
  intros Hwf Hus. unfold Profiles.findOwnerStatuses, ProfileDb.findOwnerStatuses. rewrite uuids_of by done.
  cbn [mbind result_bind]. set (mine := fun p => bool_decide (pf_userId p ∈ us)).
  set (read := fun p => (pf_userId p, match asOwnerStatus (pf_ownerStatus p) with Ok s => s | Err _ => None end)).
  assert (Forall (fun p => (s ← asOwnerStatus (pf_ownerStatus p); Ok (pf_userId p, s)) = Ok (read p)) (List.filter mine (profiles (pdb w)))) as Hread.
  { apply Forall_forall. intros p [Hp _]%elem_of_bfilter. pose proof (wf_profiles _ Hwf) as H. rewrite Forall_forall in H.
    destruct (status_read _ (po_status _ (H p Hp))) as [o Ho]. unfold read. by rewrite Ho. }
  rewrite (try_map_ok _ _ _ Hread). cbn [mbind result_bind]. eexists. split; [done|]. intros u Hu.
  exists (p ← profile_of u (pdb w); match asOwnerStatus (pf_ownerStatus p) with Ok s => s | Err _ => None end). split.
  - unfold findOwnerStatus. rewrite bind_at, stored_run by done. pose proof (reading_wf u (pdb w) Hwf) as H.
    destruct (profile_of u (pdb w)) as [p|]; [destruct H as (s & -> & Hs)|by rewrite H]. run_binds.
    destruct Hs as (_ & _ & _ & _ & _ & Hs & _). cbn. by rewrite Hs.
  - unfold read. rewrite statuses_found.
    + case_bool_decide as Hin.
      * f_equal. apply (find_by_filter pf_userId). intros x _ Hx. unfold mine. rewrite Hx. by apply bool_decide_eq_true_2.
      * replace (find_by _ _ _) with (@None ProfileRow); [done|]. symmetry. apply find_by_None.
        intros (x & -> & [_ Hx]%elem_of_bfilter)%list_elem_of_fmap. by apply bool_decide_eq_true in Hx.
    + eapply sublist_NoDup; [apply (wf_one_profile _ Hwf)|]. apply fmap_sublist, bfilter_sublist.
Qed.
End Theorems.
