(* ===== verification/MediaTheorems.v ===== *)
(** * Pictures: what is accepted, their order, and that none is ever broken

    The bytes of a picture and its row are in two places that cannot be written at once.
    [pictures_stay_whole]: under any interleaving of uploads, removals, reorderings and
    erasures, every row of a listing that nobody erases has both its objects. *)

From Stdlib Require Import Ascii.
From Stdlib Require String.
From S2P Require Import Prelude JsNumber Text Http Ledger LedgerStore Columns Answers CatalogueStore ListingStore Listings Media.

#[local] Open Scope string_scope.
#[local] Open Scope list_scope.
#[local] Open Scope Z_scope.

Import Publication CatalogueDb ListingDb PrepareImage MediaDb ListingMedia.

(** ** Keys *)
Lemma split_slash (a b x y : text) :
  "/"%char ∉ a -> "/"%char ∉ b -> a ++ "/"%char :: x = b ++ "/"%char :: y -> a = b /\ x = y.
Proof.
  revert b. induction a as [|c a IH]; intros [|d b] Ha Hb E; cbn in E.
  - by injection E.
  - injection E as <- _. exfalso. apply Hb. by left.
  - injection E as -> _. exfalso. apply Ha. by left.
  - injection E as <- E. apply not_elem_of_cons in Ha as [_ Ha]. apply not_elem_of_cons in Hb as [_ Hb].
    destruct (IH b Ha Hb E) as [-> ->]. done.
Qed.

Lemma split_last_slash (x y a b : text) :
  "/"%char ∉ a -> "/"%char ∉ b -> x ++ "/"%char :: a = y ++ "/"%char :: b -> x = y /\ a = b.
Proof.
  intros Ha Hb E. apply (f_equal reverse) in E. rewrite !reverse_app, !reverse_cons, <- !app_assoc in E.
  apply split_slash in E as [E1 E2]; [|by rewrite elem_of_reverse..].
  by apply (inj reverse) in E1, E2.
Qed.

Lemma chars_key (l i r : string) :
  chars (objectKey l i r) =
    ((chars "listings/" ++ chars l) ++ "/"%char :: chars i) ++ "/"%char :: (chars r ++ chars ".webp").
Proof. unfold objectKey. rewrite !chars_append, <- !app_assoc. done. Qed.

Lemma objectKey_inj (l l' i i' r r' : string) :
  "/"%char ∉ chars i -> "/"%char ∉ chars i' -> "/"%char ∉ chars r -> "/"%char ∉ chars r' ->
  objectKey l i r = objectKey l' i' r' -> l = l' /\ i = i' /\ r = r'.
Proof.
  intros Hi Hi' Hr Hr' E. apply (f_equal chars) in E. rewrite !chars_key in E.
  assert ("/"%char ∉ chars ".webp") as Hw by by apply (bool_decide_unpack _).
  apply split_last_slash in E as [E E1]; [|rewrite elem_of_app; tauto..].
  apply split_last_slash in E as [E E2]; [|done..]. apply app_inv_head in E. apply app_inv_tail in E1.
  split_and!; by apply chars_inj.
Qed.

(** ** Object stores *)

(** What a store of objects promises: what is put is there, until it is deleted, and
    nothing else moves. *)
Class SoundStore {S : Type} (Store : ObjectStore S) : Type := {
  holds : S -> string -> Prop;
  put_there : forall key bytes kind s, snd (put key bytes kind s) = Ok tt -> holds (fst (put key bytes kind s)) key;
  put_keeps : forall key bytes kind s k, holds s k -> holds (fst (put key bytes kind s)) k;
  delete_keeps : forall key s k, k <> key -> holds s k -> holds (fst (delete key s)) k;
  signedUrl_keeps : forall key ttl s k, holds s k -> holds (fst (signedUrl key ttl s)) k }.

#[export, program] Instance memory_sound : SoundStore ObjectStores.memory := {| holds s k := is_Some ((s : ObjectStores.Heap) !! k) |}.
Next Obligation. intros key b kd s _. exists (b, kd). exact (lookup_insert_eq (M := gmap string) s key (b, kd)). Qed.
Next Obligation.
  intros key b kd s k H. cbn. destruct (decide (k = key)) as [->|Hne].
  - exists (b, kd). exact (lookup_insert_eq (M := gmap string) s key (b, kd)).
  - destruct H as [x Hx]. exists x. exact (eq_trans (lookup_insert_ne (M := gmap string) s key k (b, kd) (not_eq_sym Hne)) Hx).
Qed.
Next Obligation.
  intros key s k Hk [x Hx]. exists x. exact (eq_trans (lookup_delete_ne (M := gmap string) s key k (not_eq_sym Hk)) Hx).
Qed.
Next Obligation. by intros. Qed.

(** ** Whole pictures *)
Section Whole.
Context {Ids : UuidSource} {Sharp : ImageLibrary} {S : Type} {Store : ObjectStore S} {Sound : SoundStore Store}.
Hypothesis uuid_segment : forall n, "/"%char ∉ chars (uuid n).
(** The listings whose pictures somebody erases. *)
Variable erased : string -> Prop.

Definition RENDITIONS : list string := ["display"; "thumbnail"].

(** The picture that was given the number [n]. *)
Definition numbered (m : MediaRow) (n : nat) : Prop :=
  me_displayKey m = objectKey (me_listingId m) (uuid n) "display" /\
  me_thumbnailKey m = objectKey (me_listingId m) (uuid n) "thumbnail".

Record pictures_wf (w : World S) : Prop := {
  pw_numbered : forall m, m ∈ media (cdb w) -> exists n, (n < cseq (cdb w))%nat /\ numbered m n;
  pw_distinct : NoDup (me_displayKey <$> media (cdb w));
  pw_listing : forall a b n, a ∈ media (cdb w) -> b ∈ media (cdb w) -> numbered a n -> numbered b n ->
    me_listingId a = me_listingId b;
  pw_whole : forall m, m ∈ media (cdb w) -> ~ erased (me_listingId m) ->
    holds (objects w) (me_displayKey m) /\ holds (objects w) (me_thumbnailKey m) }.

Lemma rendition_segment (r : string) : r ∈ RENDITIONS -> "/"%char ∉ chars r.
Proof. intros [->|[->|[]%elem_of_nil]%elem_of_cons]%elem_of_cons; by apply (bool_decide_unpack _). Qed.

Lemma key_number (l l' r r' : string) (n n' : nat) :
  r ∈ RENDITIONS -> r' ∈ RENDITIONS -> objectKey l (uuid n) r = objectKey l' (uuid n') r' -> n = n'.
Proof.
  intros Hr Hr' E. apply objectKey_inj in E as (_ & E & _); auto using rendition_segment. by apply (inj uuid) in E.
Qed.

Lemma numbered_unique (m m' : MediaRow) (n n' : nat) :
  numbered m n -> numbered m' n' -> me_displayKey m = me_displayKey m' -> n = n'.
Proof. intros [E _] [E' _] H. rewrite E, E' in H. eapply key_number, H; left. Qed.

(** *** What a request may rely on

    [known m P]: any row with the number [m] has an id and a listing as [P] says.
    [mine n]: the number was drawn here, and no row has it.  [mine_there k]: the object
    [k], of such a number, is in the store. *)
Section Relied.
Variable known : nat -> (string -> string -> Prop) -> Prop.
Variable mine : nat -> Prop.
Variable mine_there : string -> Prop.

Record relied (w : World S) : Prop := {
  re_wf : pictures_wf w;
  re_known : forall m P, known m P -> (m < cseq (cdb w))%nat /\ ~ mine m /\
    forall row, row ∈ media (cdb w) -> numbered row m -> P (me_id row) (me_listingId row);
  re_mine : forall n, mine n -> (n < cseq (cdb w))%nat /\ forall row, row ∈ media (cdb w) -> ~ numbered row n;
  re_there : forall k, mine_there k -> holds (objects w) k /\
    exists l n r, r ∈ RENDITIONS /\ mine n /\ k = objectKey l (uuid n) r }.

(** Statements that only move rows about, or away. *)
Definition moved (m m' : MediaRow) : Prop :=
  me_id m' = me_id m /\ me_listingId m' = me_listingId m /\ me_displayKey m' = me_displayKey m /\ me_thumbnailKey m' = me_thumbnailKey m.

Lemma numbered_moved (m m' : MediaRow) (n : nat) : moved m m' -> numbered m' n -> numbered m n.
Proof. intros (_ & E1 & E2 & E3) [H1 H2]. unfold numbered. by rewrite <- E1, <- E2, <- E3. Qed.

Lemma relied_rows (w : World S) (db' : Db) :
  relied w -> (cseq (cdb w) <= cseq db')%nat ->
  (forall m', m' ∈ media db' -> exists m, m ∈ media (cdb w) /\ moved m m') ->
  NoDup (me_displayKey <$> media db') -> relied (mkWorld db' (objects w)).
Proof.
  intros [[H1 H2 Hli H3] Hk Hm Ht] Hs Hrows Hnd. split; [split|..]; cbn [cdb objects].
  - intros m' Hm'. destruct (Hrows m' Hm') as (m & Hin & Hmv). destruct (H1 m Hin) as (n & Hn & Hnum).
    exists n. split; [lia|]. destruct Hmv as (_ & E1 & E2 & E3), Hnum as [N1 N2]. split; congruence.
  - done.
  - intros a' b' n Ha Hb Hna Hnb. destruct (Hrows a' Ha) as (a & Hina & Hma), (Hrows b' Hb) as (b & Hinb & Hmb).
    pose proof (Hli a b n Hina Hinb (numbered_moved _ _ _ Hma Hna) (numbered_moved _ _ _ Hmb Hnb)).
    destruct Hma as (_ & -> & _), Hmb as (_ & -> & _). done.
  - intros m' Hm' He. destruct (Hrows m' Hm') as (m & Hin & _ & E1 & E2 & E3). rewrite E2, E3. apply H3; congruence.
  - intros m P HP. destruct (Hk m P HP) as (Hlt & Hmine & Hr). split_and!; [lia|done|].
    intros row' Hrow' Hnum. destruct (Hrows row' Hrow') as (row & Hin & Hmv). pose proof (numbered_moved _ _ _ Hmv Hnum) as Hn.
    destruct Hmv as (E0 & E1 & _). rewrite E0, E1. by apply Hr.
  - intros n Hn. destruct (Hm n Hn) as [Hlt Hr]. split; [lia|]. intros row' Hrow' Hnum.
    destruct (Hrows row' Hrow') as (row & Hin & Hmv). by eapply Hr, numbered_moved.
  - done.
Qed.

Lemma relied_store (w : World S) (s' : S) (gone : string -> Prop) :
  relied w -> (forall k, holds (objects w) k -> ~ gone k -> holds s' k) ->
  (forall k, gone k -> exists l m r P, r ∈ RENDITIONS /\ known m P /\ (forall i l', P i l' -> erased l') /\ k = objectKey l (uuid m) r) ->
  relied (mkWorld (cdb w) s').
Proof.
  intros [[H1 H2 Hli H3] Hk Hm Ht] Hs Hg. split; [split|..]; cbn [cdb objects]; try done.
  - assert (forall m row r, row ∈ media (cdb w) -> ~ erased (me_listingId row) -> numbered row m -> r ∈ RENDITIONS ->
      ~ gone (objectKey (me_listingId row) (uuid m) r)) as Hno.
    { intros m row r Hrow He Hnum Hr Hgone. destruct (Hg _ Hgone) as (l & m' & r' & P & Hr' & HP & Her & E).
      apply key_number in E as <-; [|done..]. destruct (Hk m P HP) as (_ & _ & Hall). apply He. by eapply Her, Hall. }
    intros row Hrow He. destruct (H1 row Hrow) as (n & _ & Hnum), (H3 row Hrow He) as [Hd Hth]. pose proof Hnum as [E1 E2].
    split; (apply Hs; [done|]); rewrite ?E1, ?E2; apply (Hno n); try done; [left|right; left].
  - intros k Hk'. destruct (Ht k Hk') as (Hh & l & n & r & Hr & Hn & E). split; [|by exists l, n, r].
    apply Hs; [done|]. intros Hgone. destruct (Hg _ Hgone) as (l' & m & r' & P & Hr' & HP & _ & E').
    rewrite E in E'. apply key_number in E' as <-; [|done..]. by destruct (Hk n P HP) as (_ & Hmine & _).
Qed.
End Relied.

(** *** Step by step *)
Definition steps {A} (P : World S -> Prop) (m : M (World S) A) (Q : A -> World S -> Prop) (R : World S -> Prop) : Prop :=
  forall w, P w -> match m w with (w', Ok a) => Q a w' | (w', Err _) => R w' end.

Lemma steps_bind {A B} (P : World S -> Prop) (m : M (World S) A) (f : A -> M (World S) B)
    (Q : A -> World S -> Prop) (R : B -> World S -> Prop) (Z : World S -> Prop) :
  steps P m Q Z -> (forall a, steps (Q a) (f a) R Z) -> steps P (mbind f m) R Z.
Proof. intros Hm Hf w Hw. specialize (Hm w Hw). rewrite bind_at. destruct (m w) as [w' [a|e]]; [by apply Hf|done]. Qed.

Lemma steps_weaken {A} (P P' : World S -> Prop) (m : M (World S) A) (Q Q' : A -> World S -> Prop) (Z Z' : World S -> Prop) :
  steps P' m Q' Z' -> (forall w, P w -> P' w) -> (forall a w, Q' a w -> Q a w) -> (forall w, Z' w -> Z w) -> steps P m Q Z.
Proof. intros Hm HP HQ HZ w Hw. specialize (Hm w (HP w Hw)). destruct (m w) as [w' [a|e]]; auto. Qed.

Lemma steps_escape {A} (P : World S -> Prop) (m : M (World S) A) (Q : A -> World S -> Prop) (Z Z' : World S -> Prop) :
  (forall w, Z w -> Z' w) -> steps P m Q Z -> steps P m Q Z'.
Proof. intros HZ Hm. by apply (steps_weaken P P m Q Q Z' Z). Qed.

Lemma steps_ret {A} (P : World S -> Prop) (a : A) (Q : A -> World S -> Prop) (Z : World S -> Prop) :
  (forall w, P w -> Q a w) -> steps P (mret a) Q Z.
Proof. intros H w Hw. by apply H. Qed.

Lemma steps_throw {A} (P : World S -> Prop) (e : error) (Q : A -> World S -> Prop) : steps P (throw e) Q P.
Proof. by intros w Hw. Qed.

Lemma steps_gets {A} (P : World S -> Prop) (f : World S -> A) (Z : World S -> Prop) :
  steps P (gets f) (fun a w => P w /\ a = f w) Z.
Proof. by intros w Hw. Qed.

Section Requests.
Variable rival : World S -> World S.
Hypothesis rival_relied : forall known mine there w, relied known mine there w -> relied known mine there (rival w).

Section Steps.
Variable known : nat -> (string -> string -> Prop) -> Prop.
Variable mine : nat -> Prop.
Variable there : string -> Prop.
Abbreviation base := (relied known mine there).
Definition also (n : nat) (N : nat -> Prop) (x : nat) : Prop := N x \/ x = n.
Definition with_key (k : string) (H : string -> Prop) (x : string) : Prop := H x \/ x = k.
Definition with_fact (m : nat) (P : string -> string -> Prop) (K : nat -> (string -> string -> Prop) -> Prop)
    (x : nat) (Q : string -> string -> Prop) : Prop := K x Q \/ (x = m /\ Q = P).

Lemma step_await : steps base (ListingMedia.await rival) (fun _ => base) base.
Proof. intros w Hw. by apply rival_relied. Qed.

Lemma step_draw : steps base (randomUUID (S := S)) (fun i w => exists n, i = uuid n /\ ~ mine n /\ relied known (also n mine) there w) base.
Proof.
  intros w [Hwf Hk Hm Ht]. unfold randomUUID, on_db. cbn. exists (cseq (cdb w)).
  assert (forall row, row ∈ media (cdb w) -> ~ numbered row (cseq (cdb w))) as Hfresh.
  { intros row Hrow Hnum. destruct (pw_numbered _ Hwf row Hrow) as (n & Hn & Hnum').
    pose proof (numbered_unique _ _ _ _ Hnum Hnum' eq_refl). lia. }
  split; [done|]. split; [intros Hmine; destruct (Hm _ Hmine); lia|]. destruct Hwf as [H1 H2 Hli H3]. split; [split|..]; cbn; try done.
  - intros m Hin. destruct (H1 m Hin) as (n & Hn & Hnum). exists n. split; [lia|done].
  - intros m P HP. destruct (Hk m P HP) as (Hlt & Hno & Hall). split_and!; [lia| |done].
    intros [Hmine|E]; [done|lia].
  - intros n [Hn| ->]; [destruct (Hm n Hn); split; [lia|done]|]. split; [lia|done].
  - intros k Hk'. destruct (Ht k Hk') as (Hh & l & n & r & Hr & Hn & E). split; [done|]. exists l, n, r. by split_and!; [|left|].
Qed.

(** Only the store moves, and keeps what it has. *)
Lemma step_keeping {A} (m : M S A) :
  (forall s k, holds s k -> holds (fst (m s)) k) -> steps base (on_store m) (fun _ => base) base.
Proof.
  intros Hm w Hw. unfold on_store. specialize (Hm (objects w)). destruct (m (objects w)) as [s' [a|e]]; cbn in *;
    (apply (relied_store _ _ _ w s' (fun _ => False) Hw); [intros k Hk _; by apply Hm|done]).
Qed.

Lemma step_put (l : string) (n : nat) (r : string) (bytes : text) (kind : string) :
  r ∈ RENDITIONS -> mine n ->
  steps base (on_store (put (objectKey l (uuid n) r) bytes kind))
    (fun _ => relied known mine (with_key (objectKey l (uuid n) r) there)) base.
Proof.
  intros Hr Hn w Hw. pose proof (step_keeping (put (objectKey l (uuid n) r) bytes kind) (put_keeps _ bytes kind) w Hw) as H.
  pose proof (put_there (objectKey l (uuid n) r) bytes kind (objects w)) as Hp. unfold on_store in *.
  destruct (put _ _ _ (objects w)) as [s' [[]|e]]; cbn in *; [|done].
  destruct H as [Hwf Hk Hm Ht]. split; try done. intros k [Hk'| ->]; [by apply Ht|]. split; [by apply Hp|]. by exists l, n, r.
Qed.

Lemma step_delete (l : string) (m : nat) (r : string) (P : string -> string -> Prop) :
  r ∈ RENDITIONS -> known m P -> (forall i l', P i l' -> erased l') ->
  steps base (discard_key (objectKey l (uuid m) r)) (fun _ => base) base.
Proof.
  intros Hr HP He w Hw. unfold discard_key, catch, on_store.
  assert (base (mkWorld (cdb w) (fst (delete (objectKey l (uuid m) r) (objects w))))) as H.
  { apply (relied_store _ _ _ w _ (fun k => k = objectKey l (uuid m) r) Hw).
    - intros k Hk Hne. by apply delete_keeps.
    - intros k ->. by exists l, m, r, P. }
  by destruct (delete _ (objects w)) as [s' [[]|e]].
Qed.

(** *** Rows *)
Lemma step_table {A} (m : M Db A) :
  (forall w, pictures_wf w -> (cseq (cdb w) <= cseq (fst (m (cdb w))))%nat /\
    (forall m', m' ∈ media (fst (m (cdb w))) -> exists row, row ∈ media (cdb w) /\ moved row m') /\
    NoDup (me_displayKey <$> media (fst (m (cdb w))))) ->
  steps base (on_db m) (fun _ => base) base.
Proof.
  intros Hm w Hw. destruct (Hm w (re_wf _ _ _ _ Hw)) as (H1 & H2 & H3). pose proof (relied_rows _ _ _ w _ Hw H1 H2 H3) as H.
  unfold on_db. by destruct (m (cdb w)) as [db' [a|e]].
Qed.

Lemma moved_refl (m : MediaRow) : moved m m.
Proof. done. Qed.

Lemma step_read {A} (f : Db -> A) : steps base (on_db (gets f)) (fun _ => base) base.
Proof. apply step_table. intros w Hwf. cbn. split_and!; [lia|intros m Hm; by exists m|apply Hwf]. Qed.

Lemma NoDup_filter_keys (p : MediaRow -> bool) (l : list MediaRow) :
  NoDup (me_displayKey <$> l) -> NoDup (me_displayKey <$> List.filter p l).
Proof.
  intros H. eapply sublist_NoDup; [exact H|]. apply fmap_sublist, bfilter_sublist.
Qed.

Lemma step_filter (p : MediaRow -> bool) :
  steps base (on_db (modify (fun db => with_media (List.filter p (media db)) db))) (fun _ => base) base.
Proof.
  apply step_table. intros w Hwf. cbn. split_and!; [lia| |by apply NoDup_filter_keys, Hwf].
  intros m [Hm _]%elem_of_bfilter. by exists m.
Qed.

Lemma step_place (l : string) (p : Z) (i : string) : steps base (on_db (place l p i)) (fun _ => base) base.
Proof.
  apply step_table. intros w Hwf. cbn. split_and!; [lia| |].
  - intros m' (m & -> & Hm)%list_elem_of_fmap. exists m. split; [done|]. by case_match.
  - replace (me_displayKey <$> _) with (me_displayKey <$> media (cdb w)); [apply Hwf|].
    rewrite <- list_fmap_compose. apply list_fmap_ext. intros j m _. cbn. by case_match.
Qed.

Lemma step_reorder (l : string) (ids : list string) (p : Z) :
  steps base (place_from (@ListingMedia.on_db S) rival l p ids) (fun _ => base) base.
Proof.
  revert p. induction ids as [|i ids IH]; intros p; cbn [place_from]; [by apply steps_ret|].
  eapply steps_bind; [apply step_place|]. intros ?. eapply steps_bind; [apply step_await|]. intros ?. apply IH.
Qed.

(** *** Reading and signing *)
Lemma step_signOne (k : string) (x y : Z) : steps base (signOne k x y) (fun _ => base) base.
Proof.
  unfold signOne. eapply steps_bind; [apply step_keeping; intros; by apply signedUrl_keeps|]. intros ?. by apply steps_ret.
Qed.

Lemma step_sign_media (m : MediaRow) : steps base (sign_media m) (fun _ => base) base.
Proof.
  unfold sign_media. eapply steps_bind; [apply step_signOne|]. intros ?. eapply steps_bind; [apply step_signOne|].
  intros ?. by apply steps_ret.
Qed.

Lemma step_sign (l : list MediaRow) : steps base (sign l) (fun _ => base) base.
Proof.
  induction l as [|m l IH]; cbn [sign]; [by apply steps_ret|]. eapply steps_bind; [apply step_sign_media|]. intros ?.
  eapply steps_bind; [apply IH|]. intros ?. by apply steps_ret.
Qed.

Lemma step_gets {A} (f : World S -> A) : steps base (gets f) (fun _ => base) base.
Proof. eapply steps_weaken; [apply (steps_gets base)|done|by intros ? ? []|by intros ? H; exact H]. Qed.

Lemma step_lister (l o : string) : steps base (ListingMedia.listFor rival l o) (fun _ => base) base.
Proof.
  unfold ListingMedia.listFor. eapply steps_bind; [apply step_gets|]. intros b. destruct (negb b); [by apply steps_ret|].
  eapply steps_bind; [apply step_await|]. intros ?. eapply steps_bind; [apply step_gets|]. intros ?.
  eapply steps_bind; [apply step_sign|]. intros ?. by apply steps_ret.
Qed.

Lemma step_reordering (l o : string) (ids : list string) : steps base (ListingMedia.reorder rival l o ids) (fun _ => base) base.
Proof.
  unfold ListingMedia.reorder, MediaDb.reorder. eapply steps_bind; [apply step_gets|]. intros b.
  destruct (negb b); [by apply steps_ret|]. eapply steps_bind; [apply step_await|]. intros ?.
  eapply steps_bind; [apply step_gets|]. intros existing. destruct (negb _); [apply steps_throw|].
  eapply steps_bind; [apply step_await|]. intros ?. eapply steps_bind; [apply step_reorder|]. intros ?.
  eapply steps_bind; [apply step_await|]. intros ?. eapply steps_bind; [apply step_gets|]. intros ?.
  eapply steps_bind; [apply step_sign|]. intros ?. by apply steps_ret.
Qed.
End Steps.

(** *** Weakening what is relied on *)
Lemma relied_weaken (K K' : nat -> (string -> string -> Prop) -> Prop) (N N' : nat -> Prop) (H H' : string -> Prop) (w : World S) :
  relied K' N' H' w -> (forall m P, K m P -> K' m P) -> (forall n, N n -> N' n) -> (forall k, H k -> H' k) ->
  (forall k, H k -> exists l n r, r ∈ RENDITIONS /\ N n /\ k = objectKey l (uuid n) r) -> relied K N H w.
Proof.
  intros [Hwf Hk Hm Ht] HK HN HH Hkeys. split; [done|..].
  - intros m P HP. destruct (Hk m P (HK m P HP)) as (H1 & H2 & H3). split_and!; [done| |done]. intros Hn. by apply H2, HN.
  - intros n Hn. by apply Hm, HN.
  - intros k Hk'. split; [by apply Ht, HH|by apply Hkeys].
Qed.

(** *** Adding *)
Section Adding.
Variable known : nat -> (string -> string -> Prop) -> Prop.
Variable mine : nat -> Prop.
Variable there : string -> Prop.
Abbreviation base := (relied known mine there).
Hypothesis there_mine : forall k, there k -> exists l n r, r ∈ RENDITIONS /\ mine n /\ k = objectKey l (uuid n) r.

Lemma back_to_base (n : nat) (H' : string -> Prop) (w : World S) :
  relied known (also n mine) H' w -> (forall k, there k -> H' k) -> base w.
Proof. intros Hw HH. apply (relied_weaken _ _ _ _ _ _ _ Hw); try done. intros x Hx. by left. Qed.

(** The row of a picture whose objects are there. *)
Lemma step_insert (p : Z) (l : string) (n : nat) (prepared : PreparedImage) :
  ~ mine n ->
  let d := objectKey l (uuid n) "display" in let t := objectKey l (uuid n) "thumbnail" in
  steps (relied known (also n mine) (with_key t (with_key d there)))
    (ListingMedia.on_db (insert_media p (new_media l d t prepared))) (fun _ => base) base.
Proof.
  intros Hn d t w Hw. assert (base w) as Hbase by (apply (back_to_base n _ w Hw); intros k Hk; left; by left).
  unfold ListingMedia.on_db, insert_media. destruct (media_refusal _ _); [by destruct w|]. cbn.
  destruct Hw as [[H1 H2 Hli H3] Hk Hm Ht]. pose proof Hbase as [_ _ Hm0 Ht0].
  destruct (Hm n) as [Hlt Hnone]; [by right|]. set (row := row_of p (new_media l d t prepared) (cdb w)).
  assert (numbered row n) as Hnum by done.
  split; [split|..]; cbn [cdb objects media next with_media cseq].
  - intros m [Hin| ->%list_elem_of_singleton]%elem_of_app; [destruct (H1 m Hin) as (x & Hx & Hnx); exists x|exists n]; (split; [lia|done]).
  - rewrite fmap_app. apply NoDup_app. split_and!; [done| |by apply NoDup_singleton].
    intros k (m & -> & Hin)%list_elem_of_fmap E%list_elem_of_singleton. destruct (H1 m Hin) as (x & _ & Hx).
    pose proof (numbered_unique _ _ _ _ Hx Hnum E) as ->. by apply (Hnone m).
  - intros a b x [Ha| ->%list_elem_of_singleton]%elem_of_app [Hb| ->%list_elem_of_singleton]%elem_of_app Hna Hnb; [by eapply Hli| | |done].
    + rewrite (numbered_unique row row _ _ Hnb Hnum eq_refl) in Hna. by destruct (Hnone a).
    + rewrite (numbered_unique row row _ _ Hna Hnum eq_refl) in Hnb. by destruct (Hnone b).
  - intros m [Hin| ->%list_elem_of_singleton]%elem_of_app He; [by apply H3|].
    split; [apply (Ht d); left; by right|apply (Ht t); by right].
  - intros m P HP. destruct (Hk m P HP) as (Hm1 & Hm2 & Hall). split_and!; [lia|intros Hmine; apply Hm2; by left|].
    intros r [Hin| ->%list_elem_of_singleton]%elem_of_app Hr; [by apply Hall|].
    exfalso. apply Hm2. right. by apply (numbered_unique row row).
  - intros x Hx. destruct (Hm0 x Hx) as [Hx1 Hx2]. split; [lia|].
    intros r [Hin| ->%list_elem_of_singleton]%elem_of_app Hr; [by eapply Hx2|]. apply Hn.
    by rewrite <- (numbered_unique row row _ _ Hr Hnum eq_refl).
  - done.
Qed.

Lemma step_adding (l o : string) (bytes : text) : steps base (ListingMedia.add rival l o bytes) (fun _ => base) base.
Proof.
  unfold ListingMedia.add, MediaDb.append. eapply steps_bind; [apply step_gets|]. intros b.
  destruct (negb b); [by apply steps_ret|]. eapply steps_bind; [apply step_await|]. intros ?.
  eapply steps_bind; [apply step_gets|]. intros existing. destruct (_ <=? _)%nat; [apply steps_throw|].
  eapply steps_bind; [apply step_await|]. intros ?.
  eapply (steps_bind _ _ _ (fun _ => base)).
  { unfold prepared_or_refused. destruct (prepareImage bytes) as [p|e]; [by apply steps_ret|]. destruct e; apply steps_throw. }
  intros p. eapply steps_bind; [apply step_await|]. intros ?. eapply steps_bind; [apply step_draw|].
  intros i w (n & -> & Hn & Hw). revert w Hw.
  set (d := objectKey l (uuid n) "display"). set (t := objectKey l (uuid n) "thumbnail").
  change (steps (relied known (also n mine) there)
    (_ ← store_both rival d t p; _ ← ListingMedia.await rival;
     row ← (position ← ListingMedia.on_db (gets (next_position l)); _ ← modify rival;
            ListingMedia.on_db (insert_media position (new_media l d t p)));
     signed ← sign_media row; mret (Some signed)) (fun _ => base) base).
  assert (forall w, relied known (also n mine) there w -> base w) as B0 by (intros w Hw; by apply (back_to_base n _ w Hw)).
  assert (forall w, relied known (also n mine) (with_key d there) w -> base w) as B1
    by (intros w Hw; apply (back_to_base n _ w Hw); intros k Hk; by left).
  assert (forall w, relied known (also n mine) (with_key t (with_key d there)) w -> base w) as B2
    by (intros w Hw; apply (back_to_base n _ w Hw); intros k Hk; left; by left).
  apply (steps_bind _ _ _ (fun _ => relied known (also n mine) (with_key t (with_key d there)))).
  { unfold store_both, catch.
    assert (steps (relied known (also n mine) there)
      (_ ← on_store (put d (rn_bytes (pr_display p)) (pr_contentType p)); _ ← ListingMedia.await rival;
       on_store (put t (rn_bytes (pr_thumbnail p)) (pr_contentType p)))
      (fun _ => relied known (also n mine) (with_key t (with_key d there))) base) as Hputs.
    { eapply (steps_bind _ _ _ (fun _ => relied known (also n mine) (with_key d there))).
      { apply (steps_escape _ _ _ _ _ B0), (step_put known (also n mine) there l n "display"); [left|by right]. }
      intros ?. eapply (steps_bind _ _ _ (fun _ => relied known (also n mine) (with_key d there))).
      { apply (steps_escape _ _ _ _ _ B1), step_await. }
      intros ?. apply (steps_escape _ _ _ _ _ B1), (step_put known (also n mine) (with_key d there) l n "thumbnail");
        [right; left|by right]. }
    intros w Hw. specialize (Hputs w Hw). cbv beta in *.
    match type of Hputs with match ?x with _ => _ end => destruct x as [w' [[]|e]] end; [done|]. by destruct e. }
  intros ?. eapply (steps_bind _ _ _ (fun _ => relied known (also n mine) (with_key t (with_key d there)))).
  { apply (steps_escape _ _ _ _ _ B2), step_await. }
  intros ?. eapply (steps_bind _ _ _ (fun _ => base)).
  { eapply (steps_bind _ _ _ (fun _ => relied known (also n mine) (with_key t (with_key d there)))).
    { apply (steps_escape _ _ _ _ _ B2), step_read. }
    intros position. eapply (steps_bind _ _ _ (fun _ => relied known (also n mine) (with_key t (with_key d there)))).
    { apply (steps_escape _ _ _ _ _ B2), step_await. }
    intros ?. by apply step_insert. }
  intros row. eapply steps_bind; [apply step_sign_media|]. intros ?. by apply steps_ret.
Qed.
End Adding.

(** *** Removing and erasing *)
Section Removing.
Variable known : nat -> (string -> string -> Prop) -> Prop.
Variable mine : nat -> Prop.
Variable there : string -> Prop.
Abbreviation base := (relied known mine there).

(** Facts of rows that were read. *)
Definition with_facts (F : nat -> Prop) (P : string -> string -> Prop) (m : nat) (Q : string -> string -> Prop) : Prop :=
  known m Q \/ (F m /\ Q = P).

Lemma forget (F : nat -> Prop) (P : string -> string -> Prop) (w : World S) : relied (with_facts F P) mine there w -> base w.
Proof.
  intros Hw. apply (relied_weaken _ _ _ _ _ _ _ Hw); try done; [by left|]. intros k Hk. by apply (re_there _ _ _ _ Hw).
Qed.

Lemma learn (F : nat -> Prop) (P : string -> string -> Prop) (w : World S) :
  base w ->
  (forall n, F n -> (exists row, row ∈ media (cdb w) /\ numbered row n) /\
    forall row, row ∈ media (cdb w) -> numbered row n -> P (me_id row) (me_listingId row)) ->
  relied (with_facts F P) mine there w.
Proof.
  intros [Hwf Hk Hm Ht] HF. split; try done. intros n Q [HQ|[Hn ->]]; [by apply Hk|].
  destruct (HF n Hn) as [(row & Hrow & Hnum) Hall]. destruct (pw_numbered _ Hwf row Hrow) as (n' & Hlt & Hnum').
  pose proof (numbered_unique _ _ _ _ Hnum Hnum' eq_refl) as ->. split_and!; [done| |done].
  intros Hmine. by destruct (Hm n' Hmine) as [_ Hno]; apply (Hno row).
Qed.

Lemma same_row (w : World S) (a b : MediaRow) (n : nat) :
  pictures_wf w -> a ∈ media (cdb w) -> b ∈ media (cdb w) -> numbered a n -> numbered b n -> a = b.
Proof.
  intros Hwf Ha Hb Hna Hnb. pose proof (pw_listing _ Hwf a b n Ha Hb Hna Hnb) as El. destruct Hna as [Ea _], Hnb as [Eb _].
  pose proof (find_by_unique me_displayKey _ a (pw_distinct _ Hwf) Ha) as H1.
  pose proof (find_by_unique me_displayKey _ b (pw_distinct _ Hwf) Hb) as H2.
  assert (me_displayKey a = me_displayKey b) as E by congruence. rewrite E in H1. congruence.
Qed.

(** The keys of a row. *)
Lemma step_discard (F : nat -> Prop) (P : string -> string -> Prop) (rows : list MediaRow) :
  (forall i l, P i l -> erased l) -> (forall row, row ∈ rows -> exists n, F n /\ numbered row n) ->
  steps (relied (with_facts F P) mine there) (discard rival rows) (fun _ => relied (with_facts F P) mine there)
    (relied (with_facts F P) mine there).
Proof.
  intros HP. induction rows as [|m rows IH]; intros Hrows; cbn [discard]; [by apply steps_ret|].
  destruct (Hrows m) as (n & Hn & E1 & E2); [by left|]. rewrite E1, E2.
  eapply steps_bind; [apply (step_delete _ _ _ _ n "display" P); [by left|right; by split|done]|]. intros ?.
  eapply steps_bind; [apply step_await|]. intros ?.
  eapply steps_bind; [apply (step_delete _ _ _ _ n "thumbnail" P); [right; by left|right; by split|done]|]. intros ?.
  eapply steps_bind; [apply step_await|]. intros ?. apply IH. intros row Hrow. apply Hrows. by right.
Qed.

(** Between the reading of a row and its deletion, no other row has its number and not
    its id; and after that, none has its number. *)
Lemma step_delete_row (n : nat) (i : string) :
  steps (relied (with_facts (eq n) (fun j _ => j = i)) mine there) (ListingMedia.on_db (delete_row i))
    (fun _ => relied (with_facts (eq n) (fun _ _ => False)) mine there) base.
Proof.
  intros w Hw. unfold ListingMedia.on_db, delete_row. destruct (find_by me_id i (media (cdb w))); [|apply forget in Hw; by destruct w].
  pose proof (step_filter _ mine there (fun m => negb (bool_decide (me_id m = i))) w Hw) as H. cbn in *.
  pose proof (forget _ _ _ H) as Hb. destruct Hb as [Hwf Hk Hm Ht]. split; try done.
  intros x Q [HQ|[<- ->]]; [by apply Hk|]. destruct (re_known _ _ _ _ H n (fun j _ => j = i)) as (H1 & H2 & H3); [right; by split|].
  split_and!; [done|done|]. intros row Hrow Hnum. specialize (H3 row Hrow Hnum). cbn in Hrow, H3.
  apply elem_of_bfilter in Hrow as [_ Hrow]. by rewrite bool_decide_eq_true_2 in Hrow.
Qed.

Lemma step_removing (l o i : string) : steps base (ListingMedia.remove rival l o i) (fun _ => base) base.
Proof.
  unfold ListingMedia.remove, MediaDb.remove. eapply steps_bind; [apply step_gets|]. intros b.
  destruct (negb b); [by apply steps_ret|]. eapply steps_bind; [apply step_await|]. intros ?.
  set (found := fun (P : MediaRow -> string -> string -> Prop) (m : option MediaRow) w => match m with
    | None => base w
    | Some m => exists n, numbered m n /\ relied (with_facts (eq n) (P m)) mine there w end).
  apply (steps_bind _ _ _ (found (fun _ _ _ => False))).
  - apply (steps_bind _ _ _ (found (fun m j _ => j = me_id m))).
    { intros w Hw. unfold ListingMedia.on_db, gets. cbn. assert (mkWorld (cdb w) (objects w) = w) as -> by by destruct w.
      destruct (row_of_listing l i (cdb w)) as [m|] eqn:Hm; [|done]. apply List.find_some in Hm as [Hin _].
      apply list_elem_of_In in Hin. pose proof (re_wf _ _ _ _ Hw) as Hwf. destruct (pw_numbered _ Hwf m Hin) as (n & _ & Hn).
      exists n. split; [done|]. apply learn; [done|]. intros n' <-. split; [by exists m|]. intros row Hrow Hnum.
      by rewrite (same_row w row m n). }
    intros [m|]; [|by apply steps_ret]. intros w (n & Hn & Hw). revert w Hw.
    change (steps (relied (with_facts (eq n) (fun j _ => j = me_id m)) mine there)
      (_ ← modify rival; _ ← ListingMedia.on_db (delete_row (me_id m)); mret (Some m)) (found (fun _ _ _ => False)) base).
    eapply steps_bind; [apply (steps_escape _ _ _ _ _ (forget (eq n) (fun j _ => j = me_id m))), step_await|]. intros ?.
    eapply steps_bind; [apply step_delete_row|]. intros ?. apply steps_ret. intros w Hw. by exists n.
  - intros [m|]; [|by apply steps_ret]. intros w (n & Hn & Hw). revert w Hw.
    change (steps (relied (with_facts (eq n) (fun _ _ => False)) mine there)
      (_ ← ListingMedia.await rival; _ ← discard rival [m]; mret (Some true)) (fun _ => base) base).
    eapply steps_bind; [apply (steps_escape _ _ _ _ _ (forget (eq n) (fun _ _ => False))), step_await|]. intros ?.
    eapply steps_bind.
    { apply (steps_escape _ _ _ _ _ (forget (eq n) (fun _ _ => False))), step_discard; [done|]. intros row ->%list_elem_of_singleton. by exists n. }
    intros ?. apply steps_ret. intros w Hw. by eapply forget.
Qed.

Lemma step_erasing (ids : list string) : (forall i, i ∈ ids -> erased i) ->
  steps base (ListingMedia.eraseForListings rival ids) (fun _ => base) base.
Proof.
  intros Hids. unfold ListingMedia.eraseForListings.
  set (F := fun (rows : list MediaRow) n => exists row, row ∈ rows /\ numbered row n).
  set (P := fun (_ l : string) => erased l).
  apply (steps_bind _ _ _ (fun rows w => relied (with_facts (F rows) P) mine there w /\ forall row, row ∈ rows -> exists n, numbered row n)).
  - intros w Hw. unfold gets. pose proof (re_wf _ _ _ _ Hw) as Hwf.
    assert (forall row, row ∈ listForListings ids (cdb w) -> row ∈ media (cdb w) /\ me_listingId row ∈ ids) as Hin.
    { intros row. unfold listForListings. rewrite merge_sort_Permutation. intros [H1 H2]%elem_of_bfilter.
      by apply bool_decide_eq_true in H2. }
    split.
    + apply learn; [done|]. intros n (row & Hrow & Hn). destruct (Hin row Hrow) as [Hr Hid]. split; [by exists row|].
      intros row' Hrow' Hn'. rewrite (same_row w row' row n) by done. by apply Hids.
    + intros row Hrow. destruct (Hin row Hrow) as [Hr _]. destruct (pw_numbered _ Hwf row Hr) as (n & _ & Hn). by exists n.
  - intros rows w [Hw Hrows]. revert w Hw.
    change (steps (relied (with_facts (F rows) P) mine there)
      (match rows with [] => mret tt | _ => _ ← ListingMedia.await rival; _ ← discard rival rows; ListingMedia.on_db (deleteFor ids) end)
      (fun _ => base) base).
    destruct rows as [|row rows]; [apply steps_ret; intros w Hw; by eapply forget|]. set (all := row :: rows) in *.
    eapply steps_bind; [apply (steps_escape _ _ _ _ _ (forget (F all) P)), step_await|]. intros ?.
    eapply steps_bind.
    { apply (steps_escape _ _ _ _ _ (forget (F all) P)), step_discard; [done|]. intros r Hr. destruct (Hrows r Hr) as [n Hn].
      exists n. split; [by exists r|done]. }
    intros ?. eapply steps_weaken; [apply step_filter|intros w Hw; by eapply forget|done|done].
Qed.
End Removing.
End Requests.

(** ** Any interleaving *)
Inductive picture_request : Type :=
  | PList (listingId ownerId : string)
  | PAdd (listingId ownerId : string) (bytes : text)
  | PRemove (listingId ownerId mediaId : string)
  | PReorder (listingId ownerId : string) (mediaIds : list string)
  | PErase (listingIds : list string).

Definition picture_serve (rival : World S -> World S) (q : picture_request) (w : World S) : World S :=
  match q with
  | PList l o => fst (ListingMedia.listFor rival l o w)
  | PAdd l o b => fst (ListingMedia.add rival l o b w)
  | PRemove l o i => fst (ListingMedia.remove rival l o i w)
  | PReorder l o ids => fst (ListingMedia.reorder rival l o ids w)
  | PErase ids => fst (ListingMedia.eraseForListings rival ids w)
  end.

(** Requests one after another, each disturbed at every await and between its statements
    by such requests in turn; [elsewhere] is anything that only lets rows of the table go
    (with their listing) and draws numbers. *)
Inductive pictured : (World S -> World S) -> Prop :=
  | pd_idle : pictured Datatypes.id
  | pd_elsewhere (f : World S -> World S) :
      (forall w, objects (f w) = objects w /\ (cseq (cdb w) <= cseq (cdb (f w)))%nat /\
        media (cdb (f w)) `sublist_of` media (cdb w)) -> pictured f
  | pd_turn (q : picture_request) (inside onwards : World S -> World S) :
      (forall ids, q = PErase ids -> forall i, i ∈ ids -> erased i) ->
      pictured inside -> pictured onwards -> pictured (fun w => onwards (picture_serve inside q w)).

Lemma steps_fst {A} (P : World S -> Prop) (m : M (World S) A) (w : World S) : steps P m (fun _ => P) P -> P w -> P (fst (m w)).
Proof. intros Hm Hw. specialize (Hm w Hw). by destruct (m w) as [w' [a|e]]. Qed.

Lemma pictured_relied (f : World S -> World S) : pictured f ->
  forall known mine there w, relied known mine there w -> relied known mine there (f w).
Proof.
  induction 1 as [|f Hf|q inside onwards He _ IHi _ IHo]; intros known mine there w Hw; [done| |].
  - destruct (Hf w) as (Ho & Hs & Hm). pose proof (relied_rows known mine there w (cdb (f w)) Hw Hs) as H.
    rewrite <- Ho in H. destruct (f w) as [db s]. cbn in *. apply H.
    + intros m Hin. exists m. split; [|done]. by eapply sublist_subseteq.
    + eapply sublist_NoDup; [apply (pw_distinct _ (re_wf _ _ _ _ Hw))|]. by apply fmap_sublist.
  - apply IHo. destruct q as [l o|l o b|l o i|l o ids|ids]; cbn [picture_serve]; apply (steps_fst (relied known mine there)); try done.
    + by apply step_lister.
    + apply step_adding; [done|]. intros k Hk. by apply (re_there _ _ _ _ Hw).
    + by apply step_removing.
    + by apply step_reordering.
    + apply step_erasing; [done|]. by eapply He.
Qed.

(** C17. However uploads, removals, reorderings and erasures interleave, no picture is
    broken: every row of a listing whose pictures nobody erases has both its objects in the
    store, under keys of its own, whatever a store that is sound may refuse on the way. *)
Theorem pictures_stay_whole (f : World S -> World S) (w : World S) :
  pictured f -> pictures_wf w -> pictures_wf (f w).
Proof.
  intros Hf Hwf. apply (re_wf (fun _ _ => False) (fun _ => False) (fun _ => False)). apply pictured_relied; [done|]. by split.
Qed.
End Whole.

(** ** Order *)
Fixpoint place_of (i : string) (p : Z) (ids : list string) : option Z :=
  match ids with
  | [] => None
  | j :: ids' => if bool_decide (i = j) then Some p else place_of i (p + 1) ids'
  end.

Lemma place_of_none (i : string) (p : Z) (ids : list string) : place_of i p ids = None <-> i ∉ ids.
Proof.
  revert p. induction ids as [|j ids IH]; intros p; cbn; [split; [by intros _ ?%elem_of_nil|done]|].
  rewrite not_elem_of_cons. case_bool_decide as E; [by split; [|intros [? _]]|]. rewrite IH. tauto.
Qed.

Lemma place_of_range (i : string) (p q : Z) (ids : list string) : place_of i p ids = Some q -> p <= q.
Proof.
  revert p. induction ids as [|j ids IH]; intros p; cbn; [done|]. case_bool_decide; [intros [= <-]; lia|].
  intros Hq%IH. lia.
Qed.

Lemma place_of_inj (i j : string) (p q : Z) (ids : list string) : place_of i p ids = Some q -> place_of j p ids = Some q -> i = j.
Proof.
  revert p. induction ids as [|k ids IH]; intros p; cbn; [done|].
  case_bool_decide as Hi; case_bool_decide as Hj; [congruence| | |by apply IH].
  - intros [= <-] H%place_of_range. lia.
  - intros H%place_of_range [= <-]. lia.
Qed.

Definition no_later (p : Z) (ids : list string) (i j : string) : Prop :=
  forall a b, place_of i p ids = Some a -> place_of j p ids = Some b -> a <= b.

Lemma sorted_weaken {A} (R R' : A -> A -> Prop) (l : list A) :
  (forall x y, x ∈ l -> y ∈ l -> R x y -> R' x y) -> StronglySorted R l -> StronglySorted R' l.
Proof.
  intros H Hl. induction Hl as [|x l Hl IH Hx]; constructor.
  - apply IH. intros a b Ha Hb. apply H; by right.
  - rewrite Forall_forall in Hx |- *. intros y Hy. apply H; [by left|by right|by apply Hx].
Qed.

Lemma ids_in_order (p : Z) (ids : list string) : NoDup ids -> StronglySorted (no_later p ids) ids.
Proof.
  intros Hnd. revert p. induction Hnd as [|i ids Hi _ IH]; intros p; constructor.
  - apply (sorted_weaken (no_later (p + 1) ids)); [|apply IH]. intros x y Hx Hy H a b. cbn.
    rewrite !bool_decide_eq_false_2 by (intros ->; done). apply H.
  - apply Forall_forall. intros y Hy a b. cbn. rewrite bool_decide_eq_true_2 by done. intros [= <-].
    case_bool_decide; [intros [= <-]; lia|intros Hb%place_of_range; lia].
Qed.

Lemma places_count (p : Z) (ids : list string) (f : string -> option Z) :
  NoDup ids -> (forall i, i ∈ ids -> f i = place_of i p ids) -> f <$> ids = Some <$> seqZ p (Z.of_nat (length ids)).
Proof.
  intros Hnd. revert p. induction Hnd as [|i ids Hi _ IH]; intros p Hf; [done|].
  rewrite length_cons, Nat2Z.inj_succ, seqZ_cons by lia. cbn. f_equal.
  - rewrite Hf by left. cbn. by rewrite bool_decide_eq_true_2.
  - replace (Z.pred (Z.succ _)) with (Z.of_nat (length ids)) by lia. replace (Z.succ p) with (p + 1) by lia.
    apply IH. intros j Hj. rewrite Hf by by right. cbn. by rewrite bool_decide_eq_false_2 by (intros ->; done).
Qed.

#[local] Instance media_before_total : Total media_before.
Proof.
  intros a b. unfold media_before.
  destruct (Z.lt_trichotomy (me_position a) (me_position b)) as [H|[E|H]]; [by left; left| |by right; left].
  destruct (Z.lt_trichotomy (me_createdAt a) (me_createdAt b)) as [H|[E'|H]]; [left|destruct (total String.le (me_id a) (me_id b)) as [Hs|Hs]; [left|right]|right];
    right; (split; [lia|]); try (by left); right; by split.
Qed.
#[local] Instance media_before_trans : Transitive media_before.
Proof.
  intros a b c. unfold media_before. intros [H|(E & [H|(E1 & H)])] [H'|(E' & [H'|(E1' & H')])]; try lia.
  all: right; split; [lia|]; try lia. right. split; [lia|]. by etrans.
Qed.

Section Order.
Context {Ids : UuidSource} {S : Type} {Store : ObjectStore S}.
(** A store that signs, whatever it signs. *)
Hypothesis signs : forall k ttl s, exists url, signedUrl k ttl s = (s, Ok url).

Definition calm : World S -> World S := Datatypes.id.

Definition placed (l : string) (p : Z) (ids : list string) (m : MediaRow) : MediaRow :=
  if of_listing l m then match place_of (me_id m) p ids with Some q => with_position q m | None => m end else m.

Lemma placed_row (l : string) (p : Z) (ids : list string) (m : MediaRow) :
  me_id (placed l p ids m) = me_id m /\ me_listingId (placed l p ids m) = me_listingId m /\
  of_listing l (placed l p ids m) = of_listing l m.
Proof. unfold placed, of_listing. by repeat case_match. Qed.

Lemma on_db_run {A} (m : M Db A) (db : Db) (s : S) :
  ListingMedia.on_db m (mkWorld db s) = (mkWorld (fst (m db)) s, snd (m db)).
Proof. unfold ListingMedia.on_db. cbn. by destruct (m db). Qed.

Lemma place_from_run (l : string) (p : Z) (ids : list string) (db : Db) (s : S) :
  NoDup ids -> place_from (@ListingMedia.on_db S) calm l p ids (mkWorld db s) =
    (mkWorld (with_media (placed l p ids <$> media db) db) s, Ok tt).
Proof.
  intros Hnd. revert p db. induction Hnd as [|i ids Hi Hnd IH]; intros p db; cbn [place_from].
  - replace (placed l p [] <$> media db) with (media db); [by destruct db|].
    rewrite <- list_fmap_id at 1. apply list_fmap_ext. intros j m _. unfold placed. cbn. by case_match.
  - run_binds. rewrite on_db_run. cbn [place fst snd modify]. run_binds. change (calm ?w) with w. rewrite IH.
    cbn [media with_media]. replace (placed l (p + 1) ids <$> _) with (placed l p (i :: ids) <$> media db); [done|].
    rewrite <- list_fmap_compose. apply list_fmap_ext. intros j m _. cbn. symmetry.
    unfold placed. cbn [place_of]. destruct (of_listing l m) eqn:Hl; rewrite ?andb_true_r, ?andb_false_r.
    + case_bool_decide as E.
      * change (of_listing l (with_position p m)) with (of_listing l m). cbn [me_id with_position].
        rewrite Hl, (proj2 (place_of_none (me_id m) (p + 1) ids)) by by rewrite E. done.
      * by rewrite Hl.
    + by rewrite Hl.
Qed.

Lemma filter_mapped {A} (p : A -> bool) (f : A -> A) (l : list A) :
  (forall x, p (f x) = p x) -> List.filter p (f <$> l) = f <$> List.filter p l.
Proof. intros Hf. induction l as [|x l IH]; [done|]. cbn. rewrite Hf. destruct (p x); [cbn; by f_equal|exact IH]. Qed.

Lemma sign_media_run (m : MediaRow) (w : World S) : exists out,
  sign_media m w = (w, Ok out) /\ om_id out = me_id m /\ om_position out = me_position m.
Proof.
  destruct w as [db s]. unfold sign_media, signOne. run_binds. unfold on_store. cbn [cdb objects].
  destruct (signs (me_displayKey m) SIGNED_URL_TTL_SECONDS s) as [u ->]. run_binds.
  destruct (signs (me_thumbnailKey m) SIGNED_URL_TTL_SECONDS s) as [v E]. cbn [cdb objects]. rewrite E. run_binds. by eexists.
Qed.

Lemma sign_run (l : list MediaRow) (w : World S) : exists out,
  sign l w = (w, Ok out) /\ om_id <$> out = me_id <$> l /\ om_position <$> out = me_position <$> l.
Proof.
  induction l as [|m l (out & Ho & H1 & H2)]; cbn [sign]; [by eexists|]. run_binds.
  destruct (sign_media_run m w) as (x & -> & Hx1 & Hx2). run_binds. rewrite Ho. run_binds. eexists. split; [done|].
  cbn. by rewrite H1, H2, Hx1, Hx2.
Qed.

Lemma sameSet_permutation (existing ids : list string) : NoDup existing -> sameSet existing ids = true -> NoDup ids /\ existing ≡ₚ ids.
Proof.
  intros Hnd H. apply andb_true_iff in H as [H Hall]. apply andb_true_iff in H as [Hids Hlen].
  apply bool_decide_eq_true in Hids. apply Nat.eqb_eq in Hlen. split; [done|].
  assert (forall l : list string, NoDup l -> remove_dups l = l) as Hrd.
  { induction 1 as [|x l Hx _ IH]; cbn; [done|]. case_decide; [done|by rewrite IH]. }
  rewrite !Hrd in Hlen by done. apply submseteq_length_Permutation; [|lia]. apply NoDup_submseteq; [done|].
  intros x Hx. rewrite forallb_forall in Hall. apply list_elem_of_In, Hall, bool_decide_eq_true in Hx. done.
Qed.

(** C35. Putting pictures in order, undisturbed: an order that names each of the listing's
    pictures once is what the owner then sees, numbered from zero, and nobody else's
    pictures move; any other order is refused and changes nothing. *)
Theorem reordered_as_asked (l o : string) (ids : list string) (db : Db) (s : S) :
  NoDup (me_id <$> media db) -> existsOwnedBy l o db = true ->
  if sameSet (me_id <$> MediaDb.listFor l db) ids then
    exists db' out, ListingMedia.reorder calm l o ids (mkWorld db s) = (mkWorld db' s, Ok (Some out)) /\
      om_id <$> out = ids /\ om_position <$> out = seqZ 0 (Z.of_nat (length ids)) /\
      (exists out', ListingMedia.listFor calm l o (mkWorld db' s) = (mkWorld db' s, Ok (Some out')) /\ om_id <$> out' = ids) /\
      forall l', l' <> l -> MediaDb.listFor l' db' = MediaDb.listFor l' db
  else ListingMedia.reorder calm l o ids (mkWorld db s) = (mkWorld db s, Err (ListingMediaRefusedError "not-an-image")).
Proof.
  intros Hnd Ho. unfold ListingMedia.reorder, ListingMedia.listFor, ListingMedia.await, MediaDb.reorder. run_binds. cbn [cdb]. rewrite Ho. cbn [negb]. run_binds.
  cbn [modify]. change (calm ?w) with w. cbn [cdb].
  destruct (sameSet _ ids) eqn:Hs; cbn [negb]; [|done]. run_binds. cbn [modify]. change (calm ?w) with w.
  assert (NoDup (me_id <$> MediaDb.listFor l db)) as Hme.
  { unfold MediaDb.listFor. rewrite merge_sort_Permutation. eapply sublist_NoDup; [exact Hnd|]. apply fmap_sublist, bfilter_sublist. }
  destruct (sameSet_permutation _ _ Hme Hs) as [Hids Hperm]. rewrite place_from_run by done. run_binds. cbn [modify]. change (calm ?w) with w.
  set (db' := with_media _ db). cbn [cdb].
  assert (List.filter (of_listing l) (media db') = placed l 0 ids <$> List.filter (of_listing l) (media db)) as Hf.
  { apply filter_mapped. intros x. apply placed_row. }
  assert (forall m, m ∈ MediaDb.listFor l db' -> place_of (me_id m) 0 ids = Some (me_position m)) as Hpos.
  { intros m. unfold MediaDb.listFor. rewrite merge_sort_Permutation, Hf. intros (x & -> & Hx)%list_elem_of_fmap.
    destruct (placed_row l 0 ids x) as (-> & _). assert (me_id x ∈ ids) as Hin.
    { rewrite <- Hperm. apply list_elem_of_fmap. exists x. split; [done|]. unfold MediaDb.listFor. by rewrite merge_sort_Permutation. }
    apply elem_of_bfilter in Hx as [_ Hl]. unfold placed. rewrite Hl. destruct (place_of (me_id x) 0 ids) as [q|] eqn:Hq; [done|].
    by apply place_of_none in Hq. }
  assert (me_id <$> MediaDb.listFor l db' = ids) as Hord.
  { apply (StronglySorted_unique_strong (no_later 0 ids)).
    - intros i j (m & -> & Hm)%list_elem_of_fmap Hj H1 H2. destruct (place_of j 0 ids) as [b|] eqn:Hb; [|by apply place_of_none in Hb].
      apply (place_of_inj _ _ 0 b ids); [|done]. rewrite (Hpos m Hm). f_equal.
      pose proof (H1 _ _ (Hpos m Hm) Hb). pose proof (H2 _ _ Hb (Hpos m Hm)). lia.
    - apply (StronglySorted_fmap me_id (fun x y => no_later 0 ids (me_id x) (me_id y))); [done|].
      apply (sorted_weaken media_before); [|apply StronglySorted_merge_sort; apply _].
      intros x y Hx Hy Hxy a b. rewrite (Hpos x Hx), (Hpos y Hy). intros [= <-] [= <-]. unfold media_before in Hxy. lia.
    - by apply ids_in_order.
    - rewrite <- Hperm. unfold MediaDb.listFor. rewrite !merge_sort_Permutation, Hf, <- list_fmap_compose.
      replace (me_id ∘ placed l 0 ids <$> List.filter (of_listing l) (media db)) with (me_id <$> List.filter (of_listing l) (media db)); [done|].
      apply list_fmap_ext. intros j m _. cbn. symmetry. apply placed_row. }
  destruct (sign_run (MediaDb.listFor l db') (mkWorld db' s)) as (out & -> & H1 & H2). run_binds.
  exists db', out. split_and!; [done|congruence| | |].
  - apply (inj (fmap Some)). rewrite <- (places_count 0 ids (fun i => place_of i 0 ids)) by done. rewrite H2, <- Hord, <- !list_fmap_compose.
    rewrite Hord. apply list_fmap_ext. intros j m Hm. cbn. symmetry. apply Hpos. by eapply list_elem_of_lookup_2.
  - unfold ListingMedia.listFor. run_binds. cbn [cdb].
    change (existsOwnedBy l o db') with (existsOwnedBy l o db). rewrite Ho. cbn [negb]. unfold ListingMedia.await. run_binds. cbn [modify].
    change (calm ?w) with w. cbn [cdb].
    destruct (sign_run (MediaDb.listFor l db') (mkWorld db' s)) as (out' & E & H1' & H2').
    exists out'. rewrite E. run_binds. split; [done|congruence].
  - intros l' Hl'. unfold MediaDb.listFor, db'. cbn [media with_media]. rewrite filter_mapped.
    + f_equal. rewrite <- list_fmap_id. apply list_fmap_ext. intros j x Hx. apply list_elem_of_lookup_2, elem_of_bfilter in Hx as [_ Hx].
      unfold placed, of_listing in *. apply bool_decide_eq_true in Hx. by rewrite bool_decide_eq_false_2 by congruence.
    + intros x. unfold of_listing. by destruct (placed_row l 0 ids x) as (_ & -> & _).
Qed.
End Order.

(** ** What is accepted *)
Section Accepted.
Context {Sharp : ImageLibrary}.

Lemma readFormat_ok (input : text) (f : string) :
  readFormat input = Ok f <->
  exists w h, metadata input = Ok (mkMetadata (Some f) (Some w) (Some h)) /\ f ∈ ACCEPTED_INPUT_FORMATS /\
    1 <= w /\ 1 <= h /\ w * h <= MAX_INPUT_PIXELS.
Proof.
  unfold readFormat. split.
  - destruct (metadata input) as [[[f'|] [w|] [h|]]|]; cbn; try done; try (case_bool_decide as Hf; [done|done]).
    case_bool_decide as Hf; [done|]. destruct (_ || _) eqn:E; [done|]. destruct (MAX_INPUT_PIXELS <? _) eqn:E'; [done|]. intros [= <-].
    apply orb_false_iff in E as [E1 E2]. exists w, h. split; [done|]. split; [by destruct (decide (f' ∈ ACCEPTED_INPUT_FORMATS))|]. lia.
  - intros (w & h & -> & Hf & Hw & Hh & Hp). cbn. rewrite bool_decide_eq_false_2 by (intros H; by apply H).
    assert ((w <? 1) || (h <? 1) = false) as -> by lia. by assert ((MAX_INPUT_PIXELS <? w * h) = false) as -> by lia.
Qed.

Lemma encode_ok (input : text) (edge quality : Z) (r : ImageRendition) :
  encode input edge quality = Ok r <->
  render input edge quality = Ok (rn_bytes r, (rn_width r, rn_height r)) /\ rn_byteSize r = Z.of_nat (length (rn_bytes r)).
Proof.
  unfold encode. destruct (render input edge quality) as [[d [w h]]|]; split; try done.
  - by intros [= <-].
  - intros [[= -> -> ->] E]. destruct r. cbn in *. by rewrite E.
  - by intros [[=] _].
Qed.

(** An upload is accepted exactly when it has between one byte and fifteen megabytes, its
    header names a format that is accepted and a size of at most fifty million pixels, and
    both renditions can be made; what is kept are the renditions, never the upload.
    Otherwise it is refused for a reason out of four, and never fails in any other way. *)
Theorem image_accepted_iff (input : text) :
  (forall p, prepareImage input = Ok p <->
    0 < Z.of_nat (length input) <= MAX_INPUT_BYTES /\
    (exists w h, metadata input = Ok (mkMetadata (Some (pr_sourceFormat p)) (Some w) (Some h)) /\
       pr_sourceFormat p ∈ ACCEPTED_INPUT_FORMATS /\ 1 <= w /\ 1 <= h /\ w * h <= MAX_INPUT_PIXELS) /\
    render input 1600 82 = Ok (rn_bytes (pr_display p), (rn_width (pr_display p), rn_height (pr_display p))) /\
    render input 400 75 = Ok (rn_bytes (pr_thumbnail p), (rn_width (pr_thumbnail p), rn_height (pr_thumbnail p))) /\
    rn_byteSize (pr_display p) = Z.of_nat (length (rn_bytes (pr_display p))) /\
    rn_byteSize (pr_thumbnail p) = Z.of_nat (length (rn_bytes (pr_thumbnail p))) /\
    pr_contentType p = "image/webp" /\ pr_sha256 p = sha256_hex (rn_bytes (pr_display p))) /\
  (forall e, prepareImage input = Err e ->
    exists reason, e = ImageRejectedError reason /\
      reason ∈ ["too-many-bytes"; "too-many-pixels"; "unsupported-format"; "not-an-image"]).
Proof.
  unfold prepareImage. split.
  - intros p. destruct (Z.ltb_spec MAX_INPUT_BYTES (Z.of_nat (length input))) as [H|H]; [split; [done|lia]|].
    destruct (Z.eqb_spec (Z.of_nat (length input)) 0) as [H0|H0]; [split; [done|lia]|]. split.
    + unfold_result. destruct (readFormat input) as [f|] eqn:Hf; [|done].
      destruct (encode input DISPLAY_MAX_EDGE _) as [d|] eqn:Hd; [|done]. destruct (encode input THUMBNAIL_MAX_EDGE _) as [t|] eqn:Ht; [|done].
      intros [= <-]. apply readFormat_ok in Hf. apply encode_ok in Hd as [Hd Hd']. apply encode_ok in Ht as [Ht Ht']. cbn.
      split_and!; try done; lia.
    + intros (_ & Hf%readFormat_ok & Hd & Ht & Hd' & Ht' & Hc & Hs). unfold_result. rewrite Hf.
      rewrite (proj2 (encode_ok input DISPLAY_MAX_EDGE DISPLAY_QUALITY (pr_display p)) (conj Hd Hd')).
      rewrite (proj2 (encode_ok input THUMBNAIL_MAX_EDGE THUMBNAIL_QUALITY (pr_thumbnail p)) (conj Ht Ht')).
      destruct p. cbn in *. by subst.
  - assert (forall r, r ∈ ["too-many-bytes"; "too-many-pixels"; "unsupported-format"; "not-an-image"] ->
      exists reason, ImageRejectedError r = ImageRejectedError reason /\
        reason ∈ ["too-many-bytes"; "too-many-pixels"; "unsupported-format"; "not-an-image"]) as R by (intros r Hr; by exists r).
    assert (forall edge q e, encode input edge q = Err e -> e = ImageRejectedError "not-an-image") as Henc.
    { intros edge q e. unfold encode. destruct (render input edge q) as [[d [w h]]|]; [done|]. by intros [= <-]. }
    intros e. destruct (_ <? _); [intros [= <-]; apply R; set_solver|]. destruct (_ =? 0); [intros [= <-]; apply R; set_solver|].
    unfold_result. destruct (readFormat input) as [f|e'] eqn:Hf.
    + destruct (encode input DISPLAY_MAX_EDGE _) as [d|] eqn:Hd; [|intros [= <-]; apply Henc in Hd as ->; apply R; set_solver].
      destruct (encode input THUMBNAIL_MAX_EDGE _) as [t|] eqn:Ht; [done|]. intros [= <-]. apply Henc in Ht as ->. apply R. set_solver.
    + intros [= <-]. unfold readFormat in Hf. repeat (case_match; try done); simplify_eq; apply R; set_solver.
Qed.
End Accepted.

(** ** Erasing *)
Section Erasing.
Context {Ids : UuidSource} {S : Type} {Store : ObjectStore S}.

Lemma discard_run (rows : list MediaRow) (db : Db) (s : S) : exists s',
  discard calm rows (mkWorld db s) = (mkWorld db s', Ok tt).
Proof.
  assert (forall k s, exists s', discard_key k (mkWorld db s) = (mkWorld db s', Ok tt)) as Hk.
  { intros k s0. unfold discard_key, catch, on_store. cbn [cdb objects]. destruct (delete k s0) as [s' [[]|e]]; by exists s'. }
  revert s. induction rows as [|m rows IH]; intros s; cbn [discard]; [by exists s|].
  destruct (Hk (me_displayKey m) s) as [s1 H1]. rewrite (bind_run _ _ _ _ _ H1). unfold ListingMedia.await. run_binds. cbn [modify].
  change (calm ?w) with w. destruct (Hk (me_thumbnailKey m) s1) as [s2 H2]. rewrite H2. run_binds. cbn [modify]. change (calm ?w) with w. apply IH.
Qed.

(** Erasing the pictures of listings, undisturbed, never fails, whatever the store does:
    afterwards no row of theirs is left, everybody else's rows are as they were, and erasing
    again does nothing at all. *)
Theorem erasing_pictures_finishes (ids : list string) (db : Db) (s : S) :
  exists db' s', ListingMedia.eraseForListings calm ids (mkWorld db s) = (mkWorld db' s', Ok tt) /\
    (forall m, m ∈ media db' <-> m ∈ media db /\ me_listingId m ∉ ids) /\
    with_media (media db) db' = db /\
    ListingMedia.eraseForListings calm ids (mkWorld db' s') = (mkWorld db' s', Ok tt).
Proof.
  assert (forall d, (forall m, m ∈ media d -> me_listingId m ∉ ids) -> forall s0,
    ListingMedia.eraseForListings calm ids (mkWorld d s0) = (mkWorld d s0, Ok tt)) as Hnone.
  { intros d Hd s0. unfold ListingMedia.eraseForListings. run_binds. cbn [cdb].
    destruct (listForListings ids d) as [|m l] eqn:E; [done|]. exfalso.
    assert (m ∈ listForListings ids d) as Hm by (rewrite E; by left). unfold listForListings in Hm.
    rewrite merge_sort_Permutation in Hm. apply elem_of_bfilter in Hm as [Hm Hi]. apply bool_decide_eq_true in Hi. by apply (Hd m). }
  unfold ListingMedia.eraseForListings at 1. run_binds. cbn [cdb]. destruct (listForListings ids db) as [|m l] eqn:E.
  - exists db, s. assert (forall m, m ∈ media db -> me_listingId m ∉ ids) as Hd.
    { intros m Hm Hi. assert (m ∈ listForListings ids db) as H; [|rewrite E in H; by apply elem_of_nil in H].
      unfold listForListings. rewrite merge_sort_Permutation. apply elem_of_bfilter. by rewrite bool_decide_eq_true_2. }
    split_and!; [done| |by destruct db|by apply Hnone]. intros m. split; [|by intros []]. intros Hm. split; [done|by apply Hd].
  - unfold ListingMedia.await. run_binds. cbn [modify]. change (calm ?w) with w. destruct (discard_run (m :: l) db s) as [s' ->]. run_binds.
    rewrite on_db_run. cbn [deleteFor modify fst snd]. exists (with_media (List.filter (fun m => bool_decide (me_listingId m ∉ ids)) (media db)) db), s'.
    split_and!; [done| |by destruct db|].
    + intros x. cbn. rewrite elem_of_bfilter. by rewrite bool_decide_eq_true.
    + apply Hnone. intros x. cbn. intros [_ Hx]%elem_of_bfilter. by apply bool_decide_eq_true in Hx.
Qed.
End Erasing.
