(* ===== verification/FlagTheorems.v ===== *)
(** * Feature flags: a switch takes effect

    Caches of ten seconds stand between a switch and what it gates.  Over any store
    that keeps its promises ([LawfulFlags]): in the process that switched, every later
    read sees the switch, unless a read that asked before the switch comes back after it;
    ten seconds after the last of those has come back, every read in every process does. *)

From S2P Require Import Prelude Text Ledger Columns AuditLog LocalTime Flags.

#[local] Open Scope string_scope.
#[local] Open Scope list_scope.
#[local] Open Scope Z_scope.

Import AuditDb FeatureFlags.

(** What a store of overrides promises: its answers are what it holds, a switch is held
    from then on, and nothing else changes what is held. *)
Class LawfulFlags {S : Type} (Store : FlagStore S) : Type := {
  flags_wf : S -> Prop;
  held : S -> string -> option bool;
  list_reads : forall s, flags_wf s ->
    flags_wf (fst (listOverrides s)) /\ now s <= now (fst (listOverrides s)) /\
    (forall k, held (fst (listOverrides s)) k = held s k) /\
    forall rows, snd (listOverrides s) = Ok rows -> forall k, fo_enabled <$> by_last_key rows k = held s k;
  set_holds : forall k e by_ s, flags_wf s ->
    flags_wf (fst (set_override k e by_ s)) /\ now s <= now (fst (set_override k e by_ s)) /\
    (forall k', k' <> k -> held (fst (set_override k e by_ s)) k' = held s k') /\
    (forall row, snd (set_override k e by_ s) = Ok row -> held (fst (set_override k e by_ s)) k = Some e);
  record_keeps : forall c s, flags_wf s ->
    flags_wf (fst (record_change c s)) /\ now s <= now (fst (record_change c s)) /\
    forall k, held (fst (record_change c s)) k = held s k }.

Lemma as_map_last (rows : list FeatureFlagOverrideRecord) (k : string) : as_map rows !! k = fo_enabled <$> by_last_key rows k.
Proof.
  unfold as_map, by_last_key, find_by. induction (rev rows) as [|r l IH]; [done|]. cbn.
  destruct (decide (fo_key r = k)) as [->|Hne].
  - by rewrite lookup_insert_eq, bool_decide_eq_true_2.
  - rewrite lookup_insert_ne, bool_decide_eq_false_2 by done. apply IH.
Qed.

Lemma by_last_key_known (rows : list FeatureFlagOverrideRecord) (k : string) : isFeatureFlagKey k = true ->
  by_last_key (List.filter (fun row => isFeatureFlagKey (fo_key row)) rows) k = by_last_key rows k.
Proof.
  intros Hk. unfold by_last_key, find_by. induction rows as [|r rows IH]; [done|]. cbn.
  assert (forall (l : list FeatureFlagOverrideRecord) p x, List.find p (l ++ [x]) = match List.find p l with Some y => Some y | None => if p x then Some x else None end) as Hf.
  { intros l p x. induction l as [|y l IHl]; cbn; [done|]. by destruct (p y). }
  destruct (isFeatureFlagKey (fo_key r)) eqn:E; cbn; rewrite !Hf, IH; [done|].
  destruct (List.find _ (rev rows)); [done|]. case_bool_decide as Hr; [congruence|done].
Qed.

(** ** Whoever else is at work *)
Section Switched.
Context {L : Luxon} {S : Type} {Store : FlagStore S} {Laws : LawfulFlags Store}.
(** The flag that is watched. *)
Variable key : string.

Inductive flag_request : Type :=
  | FIsEnabled (k : string)
  | FList
  | FSet (actor : Actor) (k : string) (enabled : bool) (reason : string).

Definition flag_serve (rival : World S -> World S) (q : flag_request) (w : World S) : World S :=
  match q with
  | FIsEnabled k => fst (isEnabled rival k w)
  | FList => fst (list_ rival w)
  | FSet a k e why => fst (set rival a k e why w)
  end.

(** Requests in turn, each disturbed at every await by such requests in turn; what other
    processes do to the store; and the ends of requests that began at any earlier moment: a
    read that comes back, and keeps what it was told as of now, and a switch that drops the
    cache.  Anything but a switch of [key].  [told] says what the reads that come back may
    have been told about [key]. *)
Section Flagged.
Variable told : option bool -> Prop.
Inductive flagged : (World S -> World S) -> Prop :=
  | fd_idle : flagged Datatypes.id
  | fd_lands (m : gmap string bool) : told (m !! key) ->
      flagged (fun w => mkWorld (store w) (Some (mkSnapshot (now (store w)) m)))
  | fd_drops : flagged (fun w => mkWorld (store w) None)
  | fd_after (f g : World S -> World S) : flagged f -> flagged g -> flagged (fun w => g (f w))
  | fd_elsewhere (f : S -> S) :
      (forall s, flags_wf s -> flags_wf (f s) /\ now s <= now (f s) /\ held (f s) key = held s key) ->
      flagged (fun w => mkWorld (f (store w)) (cache w))
  | fd_turn (q : flag_request) (inside onwards : World S -> World S) :
      (forall a k e why, q = FSet a k e why -> k <> key) ->
      flagged inside -> flagged onwards -> flagged (fun w => onwards (flag_serve inside q w)).
End Flagged.

Hypothesis key_known : isFeatureFlagKey key = true.

Section Kept.
(** What is held, since when, and what may be in the cache. *)
Variable v : option bool.
Variable since : instant.
Variable may : Snapshot -> Prop.
Hypothesis may_agree : forall c, snap c !! key = v -> may c.

Record kept (w : World S) : Prop := {
  kp_wf : flags_wf (store w);
  kp_held : held (store w) key = v;
  kp_since : since <= now (store w);
  kp_cache : forall c, cache w = Some c -> may c }.

Section Steps.
Variable rival : World S -> World S.
Hypothesis rival_keeps : forall w, kept w -> kept (rival w).

Lemma flags_kept_await : guards kept (await rival) (fun _ => True).
Proof. intros w Hw. split; [by apply rival_keeps|done]. Qed.

Lemma kept_store {A} (m : M S A) (Q : A -> Prop) :
  (forall s, flags_wf s -> held s key = v -> flags_wf (fst (m s)) /\ now s <= now (fst (m s)) /\ held (fst (m s)) key = held s key /\
    forall a, snd (m s) = Ok a -> Q a) -> guards kept (on_store m) Q.
Proof.
  intros Hm [s c] [Hwf Hh Hs Hc]. cbn in *. unfold on_store. cbn. destruct (Hm s Hwf Hh) as (H1 & H2 & H3 & H4).
  destruct (m s) as [s' r]. cbn in *. split; [|by apply H4]. split; cbn; [done|congruence|lia|done].
Qed.

Lemma kept_gets {A} (f : World S -> A) : guards kept (gets f) (fun _ => True).
Proof. by apply guards_gets. Qed.

Lemma kept_cache (c : option Snapshot) : (forall x, c = Some x -> may x) -> guards kept (set_cache c) (fun _ => True).
Proof. intros Hc. apply guards_modify. by intros w []. Qed.

Lemma kept_read : guards kept (readThrough rival) (fun rows => fo_enabled <$> by_last_key rows key = v).
Proof.
  unfold readThrough. eapply guards_bind; [apply flags_kept_await|]. intros _ _.
  eapply (guards_bind _ _ _ (fun rows => fo_enabled <$> by_last_key rows key = v)).
  { apply kept_store. intros s Hwf Hh. destruct (list_reads s Hwf) as (H1 & H2 & H3 & H4). split_and!; try done.
    intros rows Hr. rewrite (H4 rows Hr). congruence. }
  intros rows Hrows. eapply guards_bind; [apply flags_kept_await|]. intros _ _. apply guards_ret. by rewrite by_last_key_known.
Qed.

Lemma kept_refreshed : guards kept (refreshed rival) (fun m => m !! key = v).
Proof.
  unfold refreshed. eapply guards_bind; [apply kept_read|]. intros rows Hrows. eapply guards_bind; [apply kept_gets|]. intros t _.
  assert (as_map rows !! key = v) as Hm by (by rewrite as_map_last). eapply guards_bind; [|intros _ _; by apply guards_ret].
  apply kept_cache. intros x [= <-]. by apply may_agree.
Qed.

Lemma kept_overrides : guards kept (overrides rival) (fun _ => True).
Proof.
  unfold overrides. eapply guards_bind; [apply kept_gets|]. intros c _. eapply guards_bind; [apply kept_gets|]. intros t _.
  assert (guards kept (refreshed rival) (fun _ => True)) as Hr by (eapply guards_weaken; [apply kept_refreshed|done]).
  destruct c as [c|]; [|done]. destruct (_ <? _); [by apply guards_ret|done].
Qed.

Lemma kept_isEnabled (k : string) : guards kept (isEnabled rival k) (fun _ => True).
Proof.
  unfold isEnabled. destruct (featureFlagDeclaration k) as [d|]; [|by apply guards_ret].
  apply guards_catch; [|intros e; by apply guards_ret].
  eapply guards_bind; [apply kept_overrides|]. intros m _. by apply guards_ret.
Qed.

Lemma kept_list : guards kept (list_ rival) (fun _ => True).
Proof. unfold list_. eapply guards_bind; [apply kept_read|]. intros rows _. by apply guards_ret. Qed.

Lemma kept_record (c : Audit.RecordChange AuditableFlag) : guards kept (on_store (record_change c)) (fun _ => True).
Proof. apply kept_store. intros s Hwf _. by destruct (record_keeps c s Hwf) as (H1 & H2 & H3). Qed.

(** What [set] does once the switch is in the store. *)
Definition set_rest (actor : Actor) (k reason : string) (before : AdminFeatureFlag) (row : FeatureFlagOverrideRecord)
  : M (World S) (option AdminFeatureFlag) :=
  flags' ← list_ rival;
  match find_by af_key k flags' with
  | None => mret None
  | Some after =>
      _ ← await rival;
      _ ← on_store (record_change (Audit.mkChange (Some actor) feature_flag_changed "feature_flag" (fo_id row)
                       (Some (auditable before)) (Some (auditable after)) (Some reason)));
      _ ← await rival;
      mret (Some after)
  end.

Lemma kept_rest (actor : Actor) (k reason : string) (before : AdminFeatureFlag) (row : FeatureFlagOverrideRecord) :
  guards kept (set_rest actor k reason before row) (fun _ => True).
Proof.
  unfold set_rest. eapply guards_bind; [apply kept_list|]. intros flags' _. destruct (find_by af_key k flags') as [after|]; [|by apply guards_ret].
  eapply guards_bind; [apply flags_kept_await|]. intros _ _. eapply guards_bind; [apply kept_record|]. intros _ _.
  eapply guards_bind; [apply flags_kept_await|]. intros _ _. by apply guards_ret.
Qed.

Lemma kept_set (actor : Actor) (k : string) (e : bool) (reason : string) : k <> key ->
  guards kept (set rival actor k e reason) (fun _ => True).
Proof.
  intros Hk. unfold set. destruct (isFeatureFlagKey k); [|by apply guards_ret]. cbn [negb].
  eapply guards_bind; [apply kept_list|]. intros flags _. destruct (find_by af_key k flags) as [before|]; [|by apply guards_ret].
  eapply guards_bind; [apply flags_kept_await|]. intros _ _.
  eapply (guards_bind _ _ _ (fun _ => True)).
  { apply kept_store. intros s Hwf _. destruct (set_holds k e (actor_userId actor) s Hwf) as (H1 & H2 & H3 & _).
    split_and!; [done|done|by apply H3|done]. }
  intros row _. eapply guards_bind; [apply flags_kept_await|]. intros _ _.
  eapply guards_bind; [by apply kept_cache|]. intros _ _. apply kept_rest.
Qed.
End Steps.

Lemma flagged_kept (told : option bool -> Prop) (f : World S -> World S) : (forall m t, told (m !! key) -> may (mkSnapshot t m)) ->
  flagged told f -> forall w, kept w -> kept (f w).
Proof.
  intros Htold. induction 1 as [|m Hm| |f g _ IHf _ IHg|f Hf|q inside onwards Hq _ IHi _ IHo]; intros w Hw; [done| | |by apply IHg, IHf| |].
  - destruct Hw as [Hwf Hh Hs Hc]. split; cbn; [done..|]. intros c [= <-]. by apply Htold.
  - destruct Hw as [Hwf Hh Hs Hc]. by split.
  - destruct w as [s c], Hw as [Hwf Hh Hs Hc]. cbn in *. destruct (Hf s Hwf) as (H1 & H2 & H3). split; cbn; [done|congruence|lia|done].
  - apply IHo. destruct q as [k| |a k e why]; cbn [flag_serve].
    + by apply kept_isEnabled.
    + by apply kept_list.
    + apply kept_set; [done|by eapply Hq|done].
Qed.
End Kept.

(** ** What a read answers *)
Section Answers.
Variable v : option bool.
Variable declaration : FeatureFlagDeclaration.
Hypothesis declared : featureFlagDeclaration key = Some declaration.
Hypothesis answers : forall s, flags_wf s -> exists rows, snd (listOverrides s) = Ok rows.

Lemma guards_Ok {A} (I : World S -> Prop) (m : M (World S) A) (Q : A -> Prop) (w : World S) (a : A) :
  guards I m Q -> I w -> snd (m w) = Ok a -> Q a.
Proof. intros Hm Hw Ha. by apply (Hm w Hw). Qed.

Lemma refreshed_answers (since : instant) (may : Snapshot -> Prop) (rival : World S -> World S) (w : World S) :
  (forall w, kept v since may w -> kept v since may (rival w)) -> kept v since may w -> exists m, snd (refreshed rival w) = Ok m.
Proof.
  intros Hr Hw. unfold refreshed, readThrough, await. run_binds. pose proof (Hr w Hw) as [Hwf _ _ _].
  destruct (rival w) as [s c]. cbn in *. unfold on_store. cbn [store cache]. destruct (answers s Hwf) as [rows E].
  destruct (listOverrides s) as [s' r]. cbn in E. subst r. run_binds. by eexists.
Qed.

Lemma isEnabled_answers (since : instant) (may : Snapshot -> Prop) (rival : World S -> World S) (w : World S) :
  (forall c, snap c !! key = v -> may c) ->
  flagged (fun x => x = v) rival -> kept v since may w ->
  (forall c, cache w = Some c -> snap c !! key = v \/ FLAG_CACHE_TTL_MS <= now (store w) - taken_at c) ->
  snd (isEnabled rival key w) = Ok (default (fd_defaultEnabled declaration) v).
Proof.
  intros Hmay Hrival Hw Hc. unfold isEnabled. rewrite declared.
  assert (exists m, snd (overrides rival w) = Ok m /\ m !! key = v) as (m & Hm & Hv).
  { assert (exists m, snd (refreshed rival w) = Ok m /\ m !! key = v) as Hfresh.
    { pose proof (flagged_kept v since may Hmay _ rival (fun m t Hm => Hmay (mkSnapshot t m) Hm) Hrival) as Hr.
      destruct (refreshed_answers since may rival w Hr Hw) as [m Hm]. exists m. split; [done|].
      exact (guards_Ok _ _ _ w m (kept_refreshed v since may Hmay rival Hr) Hw Hm). }
    unfold overrides. run_binds. destruct (cache w) as [c|] eqn:E; [|done]. destruct (Z.ltb_spec (now (store w) - taken_at c) FLAG_CACHE_TTL_MS) as [H|H]; [|done].
    exists (snap c). split; [done|]. destruct (Hc c eq_refl) as [?|?]; [done|lia]. }
  unfold catch. run_binds. destruct (overrides rival w) as [w' r]. cbn in Hm. subst r. cbn. by rewrite Hv.
Qed.
End Answers.

(** After a switch. *)
Lemma set_is_kept (told : option bool -> Prop) (may : Snapshot -> Prop) (rival : World S -> World S) (actor : Actor) (enabled : bool)
    (reason : string) (w w' : World S) (flag : AdminFeatureFlag) :
  (forall c, snap c !! key = Some enabled -> may c) -> (forall m t, told (m !! key) -> may (mkSnapshot t m)) ->
  flagged told rival -> flags_wf (store w) -> set rival actor key enabled reason w = (w', Ok (Some flag)) ->
  kept (Some enabled) (now (store w)) may w'.
Proof.
  intros Hmay Htold Hrival Hwf. set (start := now (store w)). unfold set. rewrite key_known. cbn [negb].
  pose proof (fun v => flagged_kept v start (fun _ => True) (fun _ _ => I) told rival (fun _ _ _ => I) Hrival) as Hr.
  assert (kept (held (store w) key) start (fun _ => True) w) as Hw by (by split).
  intros (w1 & flags & E & H)%bind_ok. pose proof (proj1 (kept_list _ _ _ rival (Hr _) w Hw)) as Hw1. rewrite E in Hw1. cbn in Hw1. clear E.
  destruct (find_by af_key key flags) as [before|]; [|done].
  apply bind_ok in H as (w2 & [] & E & H). injection E as <-. apply Hr in Hw1.
  apply bind_ok in H as (w3 & row & E & H). unfold on_store in E.
  destruct (rival w1) as [s2 c2], Hw1 as [Hwf2 _ Hs2 _]. cbn in *.
  destruct (set_holds key enabled (actor_userId actor) s2 Hwf2) as (Hwf3 & Hn3 & _ & Hh3).
  destruct (set_override key enabled (actor_userId actor) s2) as [s3 r3]. cbn in *. injection E as <- ->.
  assert (kept (Some enabled) start (fun _ => True) (mkWorld s3 c2)) as Hw3 by (split; cbn; [done|by eapply Hh3|lia|done]).
  apply bind_ok in H as (w4 & [] & E & H). injection E as <-. apply Hr in Hw3 as [Hwf4 Hh4 Hs4 _].
  apply bind_ok in H as (w5 & [] & E & H). injection E as <-.
  assert (kept (Some enabled) start may (mkWorld (store (rival (mkWorld s3 c2))) None)) as Hw5 by (by split).
  pose proof (flagged_kept (Some enabled) start may Hmay told rival Htold Hrival) as Hr5.
  change (set_rest rival actor key reason before row (mkWorld (store (rival (mkWorld s3 c2))) None) = (w', Ok (Some flag))) in H.
  pose proof (proj1 (kept_rest _ _ _ rival Hr5 actor key reason before row _ Hw5)) as Hend. by rewrite H in Hend.
Qed.

(** C20. Once a switch has answered, and while the table can be read and nobody switches
    that flag again: every later read in the same process is the new value at once, as long
    as no read of the flags that was in flight across the switch comes back with the old
    one; and whatever is in flight, and whatever any process had kept until then, every read
    is the new value from ten seconds after the last such read has come back. In between
    come other requests, each with more of them at its awaits, reads and switches begun
    earlier that end now, and what other processes do to the table. *)
Theorem switch_takes_effect (rival : World S -> World S) (actor : Actor) (enabled : bool) (reason : string)
    (w w' : World S) (flag : AdminFeatureFlag) :
  (forall s, flags_wf s -> exists rows, snd (listOverrides s) = Ok rows) ->
  flags_wf (store w) -> set rival actor key enabled reason w = (w', Ok (Some flag)) ->
  let new := fun x => x = Some enabled in
  (flagged new rival -> forall later rival', flagged new later -> flagged new rival' ->
     snd (isEnabled rival' key (later w')) = Ok enabled) /\
  (flagged (fun _ => True) rival -> forall landing, flagged (fun _ => True) landing ->
     let landed := store (landing w') in
     forall (kept : option Snapshot), (forall c, kept = Some c -> taken_at c <= now landed) ->
     forall later rival', flagged new later -> flagged new rival' ->
     now landed + FLAG_CACHE_TTL_MS <= now (store (later (mkWorld landed kept))) ->
     snd (isEnabled rival' key (later (mkWorld landed kept))) = Ok enabled).
Proof.
  intros Hans Hwf Hset new.
  assert (exists d, featureFlagDeclaration key = Some d) as [d Hd].
  { destruct (featureFlagDeclaration key) as [d|] eqn:E; [by exists d|]. apply find_by_None in E. by apply bool_decide_eq_true in key_known. }
  split.
  - intros Hrival later rival' Hlater Hrival'. set (may := fun c => snap c !! key = Some enabled).
    assert (forall m t, new (m !! key) -> may (mkSnapshot t m)) as Hnew by done.
    pose proof (set_is_kept new may _ _ _ _ _ _ _ (fun _ H => H) Hnew Hrival Hwf Hset) as Hw'.
    apply (isEnabled_answers (Some enabled) d Hd Hans (now (store w)) may); try done.
    + by apply (flagged_kept _ _ _ (fun _ H => H) new later Hnew).
    + intros c Hc. left. by apply (kp_cache _ _ _ _ (flagged_kept _ _ _ (fun _ H => H) new later Hnew Hlater w' Hw')).
  - intros Hrival landing Hlanding landed cached Hcached later rival' Hlater Hrival' Hlong.
    pose proof (set_is_kept (fun _ => True) (fun _ => True) _ _ _ _ _ _ _ (fun _ _ => I) (fun _ _ _ => I) Hrival Hwf Hset) as Hw'.
    apply (flagged_kept _ _ _ (fun _ _ => I) (fun _ => True) landing (fun _ _ _ => I) Hlanding) in Hw'.
    set (may := fun c : Snapshot => snap c !! key = Some enabled \/ taken_at c <= now landed).
    assert (kept (Some enabled) (now (store w)) may (mkWorld landed cached)) as H0.
    { destruct Hw' as [H1 H2 H3 _]. split; cbn; [done|done|done|]. intros c Hc. right. by apply Hcached. }
    assert (forall m t, new (m !! key) -> may (mkSnapshot t m)) as Hnew by (intros m t Hm; by left).
    pose proof (flagged_kept _ _ may (fun c Hc => or_introl Hc) new later Hnew Hlater _ H0) as H1.
    apply (isEnabled_answers (Some enabled) d Hd Hans (now (store w)) may); [by left|done|done|].
    intros c Hc. destruct (kp_cache _ _ _ _ H1 c Hc) as [?|?]; [by left|right; lia].
Qed.
End Switched.

(** ** Never an error *)

(** Asking whether a flag is on never fails, whatever the store does and whoever else is at
    work; where the store gives no answer and nothing fresh is kept, the answer is the
    declared default. *)
Theorem flag_reads_never_fail {L : Luxon} {S : Type} {Store : FlagStore S} (rival : World S -> World S) (key : string) (w : World S) :
  (exists b, snd (isEnabled rival key w) = Ok b) /\
  forall d, featureFlagDeclaration key = Some d -> (forall s, exists e, snd (listOverrides s) = Err e) ->
    (forall c, cache w = Some c -> FLAG_CACHE_TTL_MS <= now (store w) - taken_at c) ->
    snd (isEnabled rival key w) = Ok (fd_defaultEnabled d).
Proof.
  split.
  - unfold isEnabled. destruct (featureFlagDeclaration key) as [d|]; [|by exists false].
    unfold catch. destruct ((m ← overrides rival; mret (default (fd_defaultEnabled d) (m !! key))) w) as [w' [b|e]]; cbn; by eexists.
  - intros d Hd Hdown Hc. unfold isEnabled. rewrite Hd.
    assert (exists e, snd (refreshed rival w) = Err e) as [e He].
    { unfold refreshed, readThrough, await. run_binds. destruct (rival w) as [s c]. unfold on_store. cbn [store cache].
      destruct (Hdown s) as [e He]. destruct (listOverrides s) as [s' r]. cbn in He. subst r. by exists e. }
    assert (snd (overrides rival w) = Err e) as Ho.
    { unfold overrides. run_binds. destruct (cache w) as [c|] eqn:E; [|done].
      destruct (Z.ltb_spec (now (store w) - taken_at c) FLAG_CACHE_TTL_MS) as [H|H]; [|done]. specialize (Hc c eq_refl). lia. }
    unfold catch. run_binds. destruct (overrides rival w) as [w' r]. cbn in Ho. by subst r.
Qed.

(** ** The table keeps the promises *)
Section Table.
Context {Ids : UuidSource} {Pg : PgTypes} (collate : relation string) `{Collate : !RelDecision collate}.
Variable digest_flag : AuditableFlag -> string.
Notation table := (FlagDb.prisma collate digest_flag).

Lemma find_by_permutation {A K : Type} `{EqDecision K} (f : A -> K) (k : K) (l l' : list A) :
  NoDup (f <$> l) -> l ≡ₚ l' -> find_by f k l = find_by f k l'.
Proof.
  intros Hnd Hp. assert (NoDup (f <$> l')) as Hnd' by (by rewrite <- Hp).
  destruct (find_by f k l) as [x|] eqn:E.
  - apply find_by_Some in E as [Hx <-]. symmetry. apply find_by_unique; [done|by rewrite <- Hp].
  - symmetry. apply find_by_None in E. apply find_by_None. by rewrite <- Hp.
Qed.

Lemma find_by_fmap {A B K : Type} `{EqDecision K} (g : A -> B) (f : B -> K) (k : K) (l : list A) :
  find_by f k (g <$> l) = g <$> find_by (fun x => f (g x)) k l.
Proof. unfold find_by. induction l as [|x l IH]; cbn; [done|]. by destruct (bool_decide _). Qed.

Lemma find_by_ext {A K : Type} `{EqDecision K} (f g : A -> K) (k : K) (l : list A) :
  (forall x, f x = g x) -> find_by f k l = find_by g k l.
Proof. intros H. unfold find_by. induction l as [|x l IH]; cbn; [done|]. by rewrite H, IH. Qed.

Definition held_in (db : FlagDb.Db) (k : string) : option bool := FlagDb.ov_enabled <$> find_by FlagDb.ov_key k (FlagDb.overrides db).

Lemma listed (db : FlagDb.Db) (k : string) : NoDup (FlagDb.ov_key <$> FlagDb.overrides db) ->
  fo_enabled <$> by_last_key (FlagDb.list_overrides collate db) k = held_in db k.
Proof.
  intros Hnd. assert (rev (FlagDb.list_overrides collate db) ≡ₚ FlagDb.toRecord <$> FlagDb.overrides db) as Hp.
  { rewrite <- Permutation_rev. unfold FlagDb.list_overrides. by rewrite merge_sort_Permutation. }
  assert (NoDup (fo_key <$> rev (FlagDb.list_overrides collate db))) as Hnd'.
  { rewrite Hp, <- list_fmap_compose. exact Hnd. }
  unfold by_last_key, held_in. rewrite (find_by_permutation fo_key k _ _ Hnd' Hp), find_by_fmap, <- option_fmap_compose. done.
Qed.

Lemma upsert_holds (k : string) (e : bool) (by_ : string) (db : FlagDb.Db) : NoDup (FlagDb.ov_key <$> FlagDb.overrides db) ->
  NoDup (FlagDb.ov_key <$> FlagDb.overrides (fst (FlagDb.upsert k e by_ db))) /\
  FlagDb.fclock (fst (FlagDb.upsert k e by_ db)) = FlagDb.fclock db /\
  (forall k', k' <> k -> held_in (fst (FlagDb.upsert k e by_ db)) k' = held_in db k') /\
  (forall row, snd (FlagDb.upsert k e by_ db) = Ok row -> held_in (fst (FlagDb.upsert k e by_ db)) k = Some e).
Proof.
  intros Hnd. unfold FlagDb.upsert. destruct (as_uuid by_ tt) as [_ [u|]]; [|done]. case_bool_decide as Hu; [done|].
  destruct (find_by FlagDb.ov_key k (FlagDb.overrides db)) as [r|] eqn:E; cbn [fst snd FlagDb.overrides FlagDb.fclock]; unfold held_in; cbn [FlagDb.overrides].
  - set (g := fun x => if bool_decide (FlagDb.ov_key x = k) then FlagDb.switched e u (FlagDb.fclock db) x else x).
    assert (forall x, FlagDb.ov_key (g x) = FlagDb.ov_key x) as Hg by (intros x; unfold g; by case_bool_decide).
    assert (forall k', find_by FlagDb.ov_key k' (g <$> FlagDb.overrides db) = g <$> find_by FlagDb.ov_key k' (FlagDb.overrides db)) as Hf.
    { intros k'. rewrite find_by_fmap. f_equal. by apply find_by_ext. }
    split_and!; [|done| |].
    + replace (FlagDb.ov_key <$> (g <$> FlagDb.overrides db)) with (FlagDb.ov_key <$> FlagDb.overrides db); [done|].
      rewrite <- list_fmap_compose. apply list_fmap_ext. intros i x _. symmetry. apply Hg.
    + intros k' Hk'. rewrite Hf. destruct (find_by FlagDb.ov_key k' _) as [x|] eqn:E'; [|done]. apply find_by_Some in E' as [_ Hx].
      cbn. unfold g. by rewrite bool_decide_eq_false_2 by congruence.
    + intros row _. rewrite Hf, E. cbn. apply find_by_Some in E as [_ Hr]. unfold g. by rewrite bool_decide_eq_true_2.
  - split_and!; [|done| |].
    + rewrite fmap_app. apply NoDup_app. split_and!; [done| |apply NoDup_singleton]. intros x Hx. cbn. rewrite list_elem_of_singleton. intros ->.
      by apply find_by_None in E.
    + intros k' Hk'. rewrite find_by_app. destruct (find_by FlagDb.ov_key k' _); [done|]. unfold find_by. cbn. by rewrite bool_decide_eq_false_2.
    + intros row _. rewrite find_by_app, E. unfold find_by. cbn. by rewrite bool_decide_eq_true_2.
Qed.

Lemma audit_keeps_overrides (c : Audit.RecordChange AuditableFlag) (db : FlagDb.Db) :
  FlagDb.overrides (fst (FlagDb.audit_change digest_flag c db)) = FlagDb.overrides db /\
  FlagDb.fclock (fst (FlagDb.audit_change digest_flag c db)) = FlagDb.fclock db.
Proof. unfold FlagDb.audit_change. by destruct (Audit.record _ _ _ _ _). Qed.

#[program] Definition table_lawful : LawfulFlags table := {|
  flags_wf db := NoDup (FlagDb.ov_key <$> FlagDb.overrides db);
  held := held_in |}.
Next Obligation. intros db Hnd. split_and!; [done|cbn; lia|done|]. intros rows [= <-] k. by apply listed. Qed.
Next Obligation.
  intros k e by_ db Hnd. destruct (upsert_holds k e by_ db Hnd) as (H1 & H2 & H3 & H4).
  split_and!; [done| |done|done]. cbn. rewrite H2. lia.
Qed.
Next Obligation.
  intros c db Hnd. destruct (audit_keeps_overrides c db) as [H1 H2]. cbn. unfold held_in. rewrite H1, H2. by split_and!; [|lia|].
Qed.
End Table.
