(* ===== verification/RateLimitTheorems.v ===== *)
(** * Rate limits: an allowance is kept, and nobody is locked out

    [allowance_is_kept]: however the commands of many requests interleave, one window
    lets through its limit, and the requests whose commands failed, and no more.
    [limit_refusals]: what the guard answers. *)

From Stdlib Require Import SpecFloat.
From S2P Require Import Prelude JsNumber Text Json RateLimit.

#[local] Open Scope string_scope.
#[local] Open Scope list_scope.
#[local] Open Scope Z_scope.

Import RedisRateLimiter RateLimitGuard.

(** What the commands do to a key, where they answer: [counted] is 0 where there is no
    key, and [expiring] says whether the key will go.  (An expiry that is not after now
    removes the key, so the promises of [EXPIRE] are for a positive number of seconds.) *)
Class RedisCommands {S : Type} (Client : CountingClient S) : Type := {
  counted : S -> string -> Z;
  expiring : S -> string -> bool;
  counted_nonneg : forall s k, 0 <= counted s k;
  incr_counts : forall k s, counted s k <= counted (fst (incr k s)) k <= counted s k + 1;
  incr_answers : forall k s c, snd (incr k s) = Ok c ->
    counted (fst (incr k s)) k = counted s k + 1 /\ c = Js.of_Z (counted s k + 1);
  incr_expiry : forall k s, expiring s k = true -> expiring (fst (incr k s)) k = true;
  expire_counts : forall k n s, 0 < n -> counted (fst (expire k n s)) k = counted s k;
  expire_marks : forall k n s x, 0 < n -> snd (expire k n s) = Ok x -> 0 < counted s k -> expiring (fst (expire k n s)) k = true;
  ttl_keeps : forall k s, counted (fst (ttl k s)) k = counted s k /\ expiring (fst (ttl k s)) k = expiring s k }.

(** ** One window *)
Section Window.
Context {S : Type} {Client : CountingClient S} {Redis : RedisCommands Client}.
Variable key : string.
Variable policy : RateLimitPolicy.
Hypothesis window_positive : 0 < rl_windowSeconds policy.

(** A call arrives, a call executes its next statement, or anything else happens that
    does not end the window of [key]. *)
Inductive moves : S * list progress -> S * list progress -> Prop :=
  | mv_arrives s ps : moves (s, ps) (s, ps ++ [waiting])
  | mv_advances s ps i p : ps !! i = Some p ->
      moves (s, ps) (fst (advance key policy p s), <[i := snd (advance key policy p s)]> ps)
  | mv_elsewhere s ps s' : counted s key <= counted s' key -> moves (s, ps) (s', ps).

Definition count_of (p : progress) : option number :=
  match p with waiting => None | counted_ c | marked c => Some c | finished c _ => c end.

(** The limiter allowed the call. *)
Definition granted (p : progress) : bool :=
  match p with finished _ (Ok d) => rd_allowed d | _ => false end.

Definition framed (p : progress) : Prop :=
  match p with finished c (Ok d) => exists n, c = Some n /\ rd_allowed d = Js.leb n (rl_limit policy) | _ => True end.

(** The counts given out since [c0] are distinct. *)
Definition ticketed (c0 : Z) (w : S * list progress) : Prop :=
  Forall framed (snd w) /\ c0 <= counted (fst w) key /\
  exists ts, omap count_of (snd w) ≡ₚ Js.of_Z <$> ts /\ NoDup ts /\ Forall (fun t => c0 < t <= counted (fst w) key) ts.

Lemma advance_count (p : progress) (s : S) :
  counted s key <= counted (fst (advance key policy p s)) key /\
  ((count_of (snd (advance key policy p s)) = count_of p) \/
   (count_of p = None /\ counted (fst (advance key policy p s)) key = counted s key + 1 /\
    count_of (snd (advance key policy p s)) = Some (Js.of_Z (counted s key + 1)))).
Proof.
  destruct p as [|c|c|c r]; cbn [advance].
  - pose proof (incr_counts key s) as Hc. pose proof (incr_answers key s) as Ha.
    destruct (incr key s) as [s' [c|e]]; cbn in *; [|by split; [lia|left]].
    destruct (Ha c eq_refl) as [Hs ->]. split; [lia|]. by right.
  - pose proof (expire_counts key (rl_windowSeconds policy) s window_positive) as He.
    destruct (expire key (rl_windowSeconds policy) s) as [s' [x|e]]; cbn in *; (split; [lia|by left]).
  - pose proof (ttl_keeps key s) as [He _]. destruct (ttl key s) as [s' [x|e]]; cbn in *; (split; [lia|by left]).
  - split; [cbn; lia|by left].
Qed.

Lemma advance_framed (p : progress) (s : S) : framed p -> framed (snd (advance key policy p s)).
Proof.
  intros Hp. destruct p as [|c|c|c r]; cbn [advance]; [by destruct (incr key s) as [s' []]|by destruct (expire _ _ s) as [s' []]| |done].
  destruct (ttl key s) as [s' [x|e]]; [|done]. cbn. unfold decision. destruct (negb _); [done|]. by exists c.
Qed.

Lemma omap_middle {A B} (f : A -> option B) (l : list A) (i : nat) (x y : A) : l !! i = Some x ->
  omap f (<[i := y]> l) ≡ₚ match f y with Some b => [b] | None => [] end ++ omap f (take i l ++ drop (Datatypes.S i) l) /\
  omap f l ≡ₚ match f x with Some b => [b] | None => [] end ++ omap f (take i l ++ drop (Datatypes.S i) l).
Proof.
  intros Hi. rewrite (insert_take_drop l i y) by (by eapply lookup_lt_Some).
  assert (omap f l = omap f (take i l ++ x :: drop (Datatypes.S i) l)) as -> by (by rewrite take_drop_middle).
  rewrite !omap_app. cbn. split; destruct (f _); cbn; by rewrite <- ?Permutation_middle.
Qed.

Lemma moves_ticketed (c0 : Z) (w w' : S * list progress) : moves w w' -> ticketed c0 w -> ticketed c0 w'.
Proof.
  intros Hm (Hf & Hc & ts & Hts & Hnd & Hr). destruct Hm as [s ps|s ps i p Hi|s ps s' Hs]; unfold ticketed; cbn [fst snd] in *.
  - split_and!; [apply Forall_app; split; [done|by apply Forall_singleton]|done|]. exists ts. split_and!; [|done|done]. by rewrite omap_app, app_nil_r.
  - destruct (advance_count p s) as [Hle Hcount]. pose proof (advance_framed p s (proj1 (Forall_lookup _ _) Hf i p Hi)) as Hp.
    set (s' := fst (advance key policy p s)) in *. set (p' := snd (advance key policy p s)) in *.
    destruct (omap_middle count_of ps i p p' Hi) as [H1 H2].
    split_and!; [by apply Forall_insert|cbn; lia|]. destruct Hcount as [E|(E & Hs & E')].
    + exists ts. split_and!; [|done|]; [by rewrite H1, E, <- H2|]. eapply Forall_impl; [exact Hr|]. cbn. lia.
    + exists (counted s key + 1 :: ts). split_and!.
      * rewrite H1, E'. cbn. f_equiv. rewrite E in H2. cbn in H2. by rewrite <- H2.
      * apply NoDup_cons. split; [|done]. intros Hin. rewrite Forall_forall in Hr. apply Hr in Hin. lia.
      * apply Forall_cons. split; [lia|]. eapply Forall_impl; [exact Hr|]. cbn. lia.
  - split_and!; [done|lia|]. exists ts. split_and!; [done|done|]. eapply Forall_impl; [exact Hr|]. cbn. lia.
Qed.

Lemma bounded_distinct (ts : list Z) (lo hi : Z) : NoDup ts -> Forall (fun t => lo < t <= hi) ts -> Z.of_nat (length ts) <= Z.max 0 (hi - lo).
Proof.
  intros Hnd Hr. assert (length ts <= length (seqZ (lo + 1) (hi - lo)))%nat as H.
  { apply submseteq_length, NoDup_submseteq; [done|]. intros t Ht. rewrite Forall_forall in Hr. apply Hr in Ht. apply elem_of_seqZ. lia. }
  rewrite length_seqZ in H. lia.
Qed.

(** Calls that were let through hold distinct counts that are in the limit. *)
Lemma granted_tickets (c0 l : Z) (ps : list progress) (ts : list Z) :
  rl_limit policy = Js.of_Z l -> 0 <= l <= Js.MAX_SAFE_INTEGER -> Forall framed ps ->
  omap count_of ps ≡ₚ Js.of_Z <$> ts -> NoDup ts -> Forall (fun t => 0 <= t <= Js.MAX_SAFE_INTEGER) ts ->
  Z.of_nat (length (List.filter granted ps)) <= Z.of_nat (length (List.filter (fun t => t <=? l) ts)).
Proof.
  intros Hl Hl' Hf Hts Hnd Hr.
  assert (length (List.filter granted ps) <= length (List.filter (fun c => Js.leb c (Js.of_Z l)) (omap count_of ps)))%nat as H1.
  { clear Hts. induction Hf as [|p ps Hp _ IH]; [done|]. cbn [List.filter omap list_omap].
    destruct (granted p) eqn:Hg.
    - destruct p as [|c|c|c [d|e]]; try done. destruct Hp as (n & -> & Hd). cbn in Hg. cbn [count_of List.filter]. rewrite <- Hl, <- Hd, Hg. cbn. rewrite Hl. lia.
    - destruct (count_of p); cbn [List.filter]; [destruct (Js.leb _ _); cbn|]; lia. }
  assert (forall a b, a ≡ₚ b -> length (List.filter (fun c => Js.leb c (Js.of_Z l)) a) = length (List.filter (fun c => Js.leb c (Js.of_Z l)) b)) as Hp.
  { induction 1 as [|x a b _ IH|x y a|a b c _ IH1 _ IH2]; cbn; [done| | |congruence]; repeat destruct (Js.leb _ _); cbn; lia. }
  rewrite (Hp _ _ Hts) in H1.
  assert (length (List.filter (fun c => Js.leb c (Js.of_Z l)) (Js.of_Z <$> ts)) = length (List.filter (fun t => t <=? l) ts)) as H2; [|lia].
  clear Hts H1 Hnd. induction Hr as [|t ts Ht _ IH]; cbn; [done|]. rewrite Js.leb_exact by lia. destruct (t <=? l); cbn; lia.
Qed.

(** The counts of the calls that were answered. *)
Lemma answered_counts (l : Z) (s s' : S) (ps : list progress) :
  rl_limit policy = Js.of_Z l -> 0 <= l <= Js.MAX_SAFE_INTEGER ->
  rtc moves (s, []) (s', ps) -> counted s' key <= Js.MAX_SAFE_INTEGER ->
  Z.of_nat (length (List.filter granted ps)) <= Z.max 0 (l - counted s key) /\
  (counted s' key <= l -> forall c d, finished c (Ok d) ∈ ps -> rd_allowed d = true).
Proof.
  intros Hl Hl' Hrun Hsafe. assert (ticketed (counted s key) (s', ps)) as (Hf & Hc & ts & Hts & Hnd & Hr).
  { assert (ticketed (counted s key) (s, [])) as H0 by (split_and!; [done|cbn; lia|exists []; split_and!; [done|by apply NoDup_nil|by apply Forall_nil]]).
    remember (s, []) as w eqn:E. clear E. remember (s', ps) as w' eqn:E. clear E Hsafe. revert H0.
    induction Hrun as [|x y z Hxy _ IH]; [done|]. intros Hx. apply IH. by eapply moves_ticketed. }
  cbn [fst snd] in *. pose proof (counted_nonneg s key) as H0.
  assert (Forall (fun t => 0 <= t <= Js.MAX_SAFE_INTEGER) ts) as Hs by (eapply Forall_impl; [exact Hr|]; cbn; lia).
  split.
  - pose proof (granted_tickets (counted s key) l ps ts Hl Hl' Hf Hts Hnd Hs) as Hg.
    assert (Forall (fun t => counted s key < t <= l) (List.filter (fun t => t <=? l) ts)) as Hr'.
    { apply Forall_forall. intros t [Ht Htl]%elem_of_bfilter. rewrite Forall_forall in Hr. apply Hr in Ht. lia. }
    pose proof (bounded_distinct _ _ _ (sublist_NoDup _ _ Hnd (bfilter_sublist _ ts)) Hr'). lia.
  - intros Hle c d Hin. rewrite Forall_forall in Hf. destruct (Hf _ Hin) as (n & -> & ->).
    assert (n ∈ omap count_of ps) as Hn by (apply list_elem_of_omap; by eexists). rewrite Hts in Hn.
    apply list_elem_of_fmap in Hn as (t & -> & Ht). rewrite Forall_forall in Hr, Hs. pose proof (Hr t Ht). pose proof (Hs t Ht).
    rewrite Hl, Js.leb_exact by lia. lia.
Qed.

(** ** Nobody is locked out *)

(** A use that is answered leaves the counter with an expiry, whatever other requests do
    between the commands, so nobody is locked out for good. *)
Theorem no_lasting_lockout (rival : S -> S) (s : S) (d : RateLimitDecision) :
  (forall s, 0 < counted s key -> 0 < counted (rival s) key /\ (expiring s key = true -> expiring (rival s) key = true)) ->
  snd (consume rival key policy s) = Ok d -> expiring (fst (consume rival key policy s)) key = true.
Proof.
  intros Hrival. unfold consume. run_binds. pose proof (incr_answers key s) as Hi. destruct (incr key s) as [s1 [c|e]]; [|done]. run_binds.
  cbn in Hi. destruct (Hi c eq_refl) as [Hc _]. pose proof (counted_nonneg s key). destruct (Hrival s1) as [H1 _]; [lia|].
  pose proof (fun x => expire_marks key (rl_windowSeconds policy) (rival s1) x window_positive) as He.
  pose proof (expire_counts key (rl_windowSeconds policy) (rival s1) window_positive) as Hk.
  destruct (expire key (rl_windowSeconds policy) (rival s1)) as [s2 [x|e]]; [|done]. run_binds. cbn in He, Hk.
  destruct (Hrival s2) as [_ H2]; [by rewrite Hk|]. pose proof (ttl_keeps key (rival s2)) as [_ Ht].
  destruct (ttl key (rival s2)) as [s3 [r|e]]; [|done]. run_binds. cbn in *. intros _. rewrite Ht. apply H2. by eapply He.
Qed.
End Window.

(** ** One account's window *)

Lemma policies_allow (overrides : RateLimitTier -> option number) (policies : RateLimitTier -> RateLimitPolicy) (t : RateLimitTier) :
  Policy.resolvePolicies overrides = Ok policies ->
  rl_onStoreFailure (policies t) = allow /\ rl_windowSeconds (policies t) = Policy.RATE_LIMIT_WINDOW_SECONDS /\
  match overrides t with
  | Some n => rl_limit (policies t) = n /\ Policy.is_integer n = true /\ Js.ltb n (Js.of_Z 1) = false
  | None => rl_limit (policies t) = Js.of_Z (Policy.DEFAULT_LIMITS t)
  end.
Proof.
  unfold Policy.resolvePolicies. unfold_result.
  destruct (Policy.build overrides tier_read) as [a|] eqn:Ha; [|done]. destruct (Policy.build overrides tier_write) as [b|] eqn:Hb; [|done].
  intros [= <-]. assert (forall t p, Policy.build overrides t = Ok p -> rl_onStoreFailure p = allow /\ rl_windowSeconds p = Policy.RATE_LIMIT_WINDOW_SECONDS /\
    match overrides t with Some n => rl_limit p = n /\ Policy.is_integer n = true /\ Js.ltb n (Js.of_Z 1) = false
    | None => rl_limit p = Js.of_Z (Policy.DEFAULT_LIMITS t) end) as H.
  { clear. intros t p. unfold Policy.build. destruct (overrides t) as [n|]; [|by intros [= <-]].
    destruct (negb (Policy.is_integer n)) eqn:E1; [done|]. destruct (Js.ltb n (Js.of_Z 1)) eqn:E2; [done|]. cbn [orb]. intros [= <-].
    split_and!; try done. by apply negb_false_iff in E1. }
  destruct t; [by apply H in Ha|by apply H in Hb].
Qed.

Section Account.
Context {S : Type} {Client : CountingClient S} {Redis : RedisCommands Client}.
Variable overrides : RateLimitTier -> option number.
Variable policies : RateLimitTier -> RateLimitPolicy.
Hypothesis resolved : Policy.resolvePolicies overrides = Ok policies.
Variable tier : RateLimitTier.
Variable account : string.

(** A limiter that answers [r]. *)
#[local] Instance answering (r : result RateLimitDecision) : RateLimiter () := {| consume_key _ _ s := (s, r) |}.

(** What the guard of the route answers a call that has finished. *)
Definition guard_says (p : progress) : option (result bool) :=
  match p with
  | finished _ r => Some (snd (canActivate (Limiter := answering r) policies (Some tier) (Some account) (mkWorld () None)))
  | _ => None
  end.
Definition let_through (p : progress) : bool := match guard_says p with Some (Ok b) => b | _ => false end.
(** One of its commands failed. *)
Definition broken (p : progress) : bool := match p with finished _ (Err _) => true | _ => false end.

Lemma guard_says_answer (c : option number) (r : result RateLimitDecision) :
  guard_says (finished c r) = Some match r with Ok d => if rd_allowed d then Ok true else Err (HttpException 429) | Err _ => Ok true end.
Proof.
  destruct (policies_allow _ _ tier resolved) as (Hf & _). unfold guard_says, canActivate, catch, on_counter. f_equal.
  destruct r as [d|e]; cbn; run_binds; cbn; [destruct (rd_allowed d); reflexivity|rewrite Hf; reflexivity].
Qed.

Lemma let_through_eq (p : progress) : let_through p = granted p || broken p.
Proof. destruct p as [|c|c|c r]; [done..|]. unfold let_through. rewrite guard_says_answer. by destruct r as [[[] ???]|e]. Qed.

(** C21. For a limit that is a whole number, and however the statements of any number of
    requests of one account interleave, and whichever of them a failing store breaks off,
    the guard lets through, in one window, at most what was left of the limit and one more
    for each request the store broke off; it lets through every one of those, as its policy
    says; and it answers 429 only when the count has passed the limit. *)
Theorem allowance_is_kept (l : Z) (s s' : S) (ps : list progress) :
  let key := accountRateLimitKey tier account in
  rl_limit (policies tier) = Js.of_Z l -> 0 <= l <= Js.MAX_SAFE_INTEGER ->
  rtc (moves key (policies tier)) (s, []) (s', ps) -> counted s' key <= Js.MAX_SAFE_INTEGER ->
  Z.of_nat (length (List.filter let_through ps)) <= Z.max 0 (l - counted s key) + Z.of_nat (length (List.filter broken ps)) /\
  (forall p, p ∈ ps -> broken p = true -> let_through p = true) /\
  (forall c d, finished c (Ok d) ∈ ps -> let_through (finished c (Ok d)) = false ->
     guard_says (finished c (Ok d)) = Some (Err (HttpException 429)) /\ l < counted s' key).
Proof.
  intros key Hl Hl' Hrun Hsafe. destruct (policies_allow _ _ tier resolved) as (_ & Hw & _).
  assert (0 < rl_windowSeconds (policies tier)) as Hpos by (rewrite Hw; reflexivity).
  destruct (answered_counts key (policies tier) Hpos l s s' ps Hl Hl' Hrun Hsafe) as [Hn Hok]. split_and!.
  - assert (length (List.filter let_through ps) <= length (List.filter granted ps) + length (List.filter broken ps))%nat; [|lia].
    clear -resolved. induction ps as [|p ps IH]; cbn; [lia|]. rewrite let_through_eq. destruct (granted p), (broken p); cbn; lia.
  - intros p _ Hb. by rewrite let_through_eq, Hb, orb_true_r.
  - intros c d Hin Hlet. rewrite let_through_eq in Hlet. cbn in Hlet. rewrite orb_false_r in Hlet. rewrite guard_says_answer, Hlet. split; [done|].
    destruct (Z.lt_ge_cases l (counted s' key)) as [?|Hle]; [done|]. by rewrite (Hok Hle c d Hin) in Hlet.
Qed.
End Account.

(** ** What the guard answers *)
Section Refusals.
Context {S : Type} {Client : CountingClient S}.
Variable rival : S -> S.
#[local] Existing Instance redis.

Lemma decision_waits (policy : RateLimitPolicy) (c r : number) (d : RateLimitDecision) :
  rl_windowSeconds policy = Policy.RATE_LIMIT_WINDOW_SECONDS -> decision policy c r = Ok d ->
  exists z, 1 <= z /\ retryAfterSeconds (rd_resetInSeconds d) = Js.of_Z z.
Proof.
  intros Hw. unfold decision. destruct (negb _); [done|]. intros [= <-]. cbn [rd_resetInSeconds]. rewrite Hw.
  destruct (Js.is_finite r && _) eqn:E.
  - apply andb_true_iff in E as [E _]. unfold retryAfterSeconds. destruct r; try done; cbn [Js.ceil]; eexists; (split; [|reflexivity]); lia.
  - exists 60. split; [lia|]. vm_compute. reflexivity.
Qed.

(** The guard lets a request through, or refuses it with 429 and a Retry-After of at least a
    second, the latter only when the counter answered that the limit is passed; a counter
    that fails lets everything through. *)
Theorem limit_refusals (overrides : RateLimitTier -> option number) (policies : RateLimitTier -> RateLimitPolicy)
    (tier : option RateLimitTier) (accountId : option string) (w : World S) :
  Policy.resolvePolicies overrides = Ok policies ->
  let '(w', answer) := canActivate (Limiter := redis rival) policies tier accountId w in
  (answer = Ok true /\ retryAfter w' = retryAfter w) \/
  (answer = Err (HttpException 429) /\
   exists t a d z, tier = Some t /\ accountId = Some a /\
     snd (consume rival (accountRateLimitKey t a) (policies t) (counter w)) = Ok d /\ rd_allowed d = false /\
     1 <= z /\ retryAfter w' = Some (to_string (Js.of_Z z))).
Proof.
  intros Hp. unfold canActivate. destruct tier as [t|]; [|by left]. destruct accountId as [a|]; [|by left].
  destruct (policies_allow _ _ t Hp) as (Hf & Hw & _). run_binds. unfold catch, on_counter. rewrite !bind_at. cbn [consume_key redis].
  destruct (consume rival (accountRateLimitKey t a) (policies t) (counter w)) as [s r] eqn:E. destruct r as [d|e]; run_binds.
  - destruct (rd_allowed d) eqn:Hd; [by left|]. run_binds. right. split; [done|].
    assert (exists z, 1 <= z /\ retryAfterSeconds (rd_resetInSeconds d) = Js.of_Z z) as (z & Hz & Hr).
    { revert E. unfold consume. run_binds. destruct (incr _ _) as [s1 [c|]]; [|done]. run_binds. destruct (expire _ _ _) as [s2 [x|]]; [|done].
      run_binds. destruct (ttl _ _) as [s3 [y|]]; [|done]. run_binds. intros [= _ H]. by eapply decision_waits. }
    exists t, a, d, z. rewrite E, Hr. by split_and!.
  - rewrite Hf. by left.
Qed.
End Refusals.
