(* ===== verification/WorkerTheorems.v ===== *)
(** * A scheduled job runs its sweep

    From a job in the queue, over HTTP and past the guard, to the sweep of the API, and
    back to what the worker logs and counts. *)

From Stdlib Require Import Ascii SpecFloat.
From Stdlib Require String.
From S2P Require Import Prelude JsNumber Text Json Http Ledger Cipher BookingStore Bookings Worker.

#[local] Open Scope string_scope.
#[local] Open Scope list_scope.
#[local] Open Scope Z_scope.

Import Jobs Triggers InternalRoutes.

(** What a job leaves behind in the process. *)
Definition logged {S} (w w' : World S) (lines : list LogLine) (outcome : JobOutcome) (name : MetricJobName) : Prop :=
  log w' = log w ++ lines /\ samples w' = samples w ++ [mkSample Queues.MAINTENANCE_QUEUE name outcome] /\ context w' = context w.

Lemma counts_are_numbers (n : nat) : Js.is_safe (Z.of_nat n) = true ->
  is_zero (Js.of_Z (Z.of_nat n)) = (n =? 0)%nat.
Proof.
  intros Hn. destruct n as [|n]; [done|]. unfold Js.is_safe in Hn. apply Z.leb_le in Hn. rewrite Z.abs_eq in Hn by lia.
  destruct (Z.of_nat (Datatypes.S n)) as [|p|p] eqn:E; [lia| |lia].
  by destruct (Js.of_Z_full p (Js.safe_full p Hn)) as (q & -> & _).
Qed.

Lemma swept_is_plain (n : nat) (ids : list string) (b : bool) : Js.is_safe (Z.of_nat n) = true ->
  Json.plain (j_object [("expired", count_of n); ("bookingIds", j_array (j_string <$> ids)); ("reachedLimit", j_bool b)]).
Proof.
  intros Hn. constructor; [|reflexivity]. repeat (apply Forall_cons; split); try apply Forall_nil_2; cbn.
  - by constructor.
  - constructor. apply Forall_forall. intros x (i & -> & _)%list_elem_of_fmap. constructor.
  - constructor.
Qed.

(** ** The whole way *)
Section Whole.
Context {Ids : UuidSource} {W : Type}.
Variable url_in : string -> string -> string.
Variable apiBaseUrl secret their_secret : string.
Variable header_value : string -> option string.
Variable network : Delivery.
Variable within : BookingDb.Db -> BookingDb.Db.
Variable victim : nat -> bool.
#[local] Instance reached : Fetch (Bookings.World W) := api url_in apiBaseUrl their_secret header_value network within victim.

Notation sweep := (Bookings.sweep within victim).

Definition expiry_lines (cid : string) (swept : BookingDb.ExpirySweepResult) : list LogLine :=
  let n := Js.of_Z (Z.of_nat (length (BookingDb.expired swept))) in
  if (length (BookingDb.expired swept) =? 0)%nat then [mkLine (Some cid) level_debug "expiry sweep found nothing" None]
  else mkLine (Some cid) level_info "expiry sweep expired requests" (Some n) ::
       (if BookingDb.expiry_reachedLimit swept
        then [mkLine (Some cid) level_warn "expiry sweep filled its batch; more may remain" (Some n)] else []).

(** Whether the API has the call, and whether it lets it past the guard. *)
Definition arrives : bool :=
  match header_value secret, network with Some _, (delivered | answer_lost _) => true | _, _ => false end.
Definition recognised : bool := bool_decide (header_value secret = Some their_secret).

(** What the trigger hears. *)
Lemma trigger_heard (w : World (Bookings.World W)) :
  exists e,
  fetch (mkRequest "POST" (url_in EXPIRE_REQUESTS_PATH apiBaseUrl) [(Triggers.INTERNAL_TRIGGER_HEADER, secret)] [] TRIGGER_TIMEOUT_MS) (outside w) =
  if arrives then
    let '(s', response) :=
      (if recognised then
         match expireRequests within victim (outside w) with
         | (s', Ok body) => (s', mkResponse 200 (Ok (Json.stringify body)))
         | (s', Err _) => (s', mkResponse 500 (Ok ""))
         end
       else (outside w, mkResponse 401 (Ok ""))) in
    (s', match network with delivered => Ok response | _ => Err e end)
  else (outside w, Err e).
Proof.
  unfold arrives, recognised. cbn [fetch reached api]. unfold sent. cbn [req_headers mapM fst snd].
  destruct (header_value secret) as [presented|]; [|by eexists].
  cbn [fmap option_fmap option_map mbind option_bind req_method req_url req_headers req_body req_timeoutMs mret option_ret].
  rewrite (bool_decide_eq_true_2 (_ /\ _)) by done. unfold answered. cbn [req_headers List.find fst snd].
  rewrite (bool_decide_eq_true_2 (Triggers.INTERNAL_TRIGGER_HEADER = _)) by done. cbn [fmap option_fmap option_map snd]. rewrite canActivate_iff.
  destruct network as [|e|e]; [exists (ForeignError "")|by exists e|exists e];
    (case_bool_decide; [destruct (expireRequests within victim (outside w)) as [s' [b|x]]|]; done).
Qed.

(** The lines of a job that fails. *)
Definition refused_lines (cid : option string) (status : Z) : list LogLine :=
  [mkLine cid level_error "expiry trigger was refused" (Some (Js.of_Z status))].
Definition unreached_lines (cid : option string) : list LogLine :=
  [mkLine cid level_error "expiry trigger could not reach the API" None].

Definition swept_body (swept : BookingDb.ExpirySweepResult) : json :=
  j_object [("expired", count_of (length (BookingDb.expired swept)));
            ("bookingIds", j_array ((fun r => j_string (BookingDb.row_id r)) <$> BookingDb.expired swept));
            ("reachedLimit", j_bool (BookingDb.expiry_reachedLimit swept))].

Lemma body_read (swept : BookingDb.ExpirySweepResult) : Js.is_safe (Z.of_nat (length (BookingDb.expired swept))) = true ->
  Json.parse (Json.stringify (swept_body swept)) = Ok (swept_body swept).
Proof.
  intros Hn. apply Json.parse_stringify. unfold swept_body.
  rewrite (list_fmap_compose BookingDb.row_id j_string). by apply swept_is_plain.
Qed.

Lemma body_expired (swept : BookingDb.ExpirySweepResult) :
  numberOr <$> Encryption.property "expired" (swept_body swept) = Ok (Js.of_Z (Z.of_nat (length (BookingDb.expired swept)))).
Proof. reflexivity. Qed.
Lemma body_limit (swept : BookingDb.ExpirySweepResult) :
  Encryption.property "reachedLimit" (swept_body swept) = Ok (Some (j_bool (BookingDb.expiry_reachedLimit swept))).
Proof. reflexivity. Qed.

Notation trigger := (createInternalTrigger url_in apiBaseUrl secret EXPIRE_REQUESTS_PATH "expiry trigger").

Lemma attempt_fails {A} (k : nat) (m : M BookingDb.Db A) (db : BookingDb.Db) (e : error) :
  snd (BookingDb.attempt_at within victim k m db) = Err e -> fst (BookingDb.attempt_at within victim k m db) = within db.
Proof. unfold BookingDb.attempt_at, transaction. destruct (victim k); [done|]. by destruct (m (within db)) as [db' []]. Qed.

(** A sweep that fails leaves what others did at the time. *)
Lemma failed_sweep (w : Bookings.World W) (e : error) : snd (sweep w) = Err e ->
  fst (sweep w) = Bookings.mkWorld (within (Bookings.bdb w)) (Bookings.rest w).
Proof.
  unfold Bookings.sweep. change (lift (BookingState.BookingState.assertTransition BookingState.BookingState.REQUESTED BookingState.BookingState.EXPIRED)) with (fun w : Bookings.World W => (w, Ok BookingState.BookingState.EXPIRED)).
  unfold Bookings.on_bookings. run_binds. unfold BookingDb.expireRequests.
  destruct (BookingDb.row_id <$> _) as [|i l]; [done|].
  match goal with |- context [BookingDb.attempt_at within victim 1 ?m ?db] => pose proof (attempt_fails 1 m db) as H;
    destruct (BookingDb.attempt_at within victim 1 m db) as [db' [x|e']] end; cbn in *; [done|]. intros _. by rewrite (H e' eq_refl).
Qed.

(** What the trigger leaves, and what it logs and answers. *)
Definition left_behind (w : Bookings.World W) : Bookings.World W :=
  if arrives && recognised then
    match sweep w with
    | (w', Ok _) => w'
    | (_, Err _) => Bookings.mkWorld (within (Bookings.bdb w)) (Bookings.rest w)
    end
  else w.
Inductive Heard : Type := heard_swept (swept : BookingDb.ExpirySweepResult) | heard_status (status : Z) | heard_nothing.
Definition heard (w : Bookings.World W) : Heard :=
  match arrives, network with
  | true, delivered =>
      if recognised then match snd (sweep w) with Ok swept => heard_swept swept | Err _ => heard_status 500 end else heard_status 401
  | _, _ => heard_nothing
  end.
Definition heard_lines (cid : string) (h : Heard) : list LogLine :=
  match h with
  | heard_swept swept => expiry_lines cid swept
  | heard_status status => refused_lines (Some cid) status
  | heard_nothing => unreached_lines (Some cid)
  end.

Lemma trigger_run (w : World (Bookings.World W)) :
  (forall swept, snd (sweep (outside w)) = Ok swept -> Js.is_safe (Z.of_nat (length (BookingDb.expired swept))) = true) ->
  let after lines := mkWorld (left_behind (outside w)) (context w) (log w ++ lines) (samples w) (wseq w) in
  let cid := Correlation.correlationId <$> context w in
  trigger w =
    match heard (outside w) with
    | heard_swept swept => (after [], Ok (swept_body swept))
    | heard_status status => (after (refused_lines cid status), Err (ForeignError "the API returned"))
    | heard_nothing => (after (unreached_lines cid), Err (ForeignError "failed to reach the API"))
    end.
Proof.
  intros Hsafe after cid. unfold createInternalTrigger. rewrite bind_at. unfold catch, on_outside. destruct (trigger_heard w) as [e ->].
  pose proof (failed_sweep (outside w)) as Hf. unfold after, cid, heard, left_behind. destruct arrives; [|by destruct network].
  unfold expireRequests. rewrite bind_at. destruct recognised; [|by destruct network].
  destruct (sweep (outside w)) as [s' [swept|x]]; cbn [fst snd andb] in *.
  - rewrite mret_at. fold (swept_body swept). destruct network; [|done..].
    change (negb (response_ok _)) with false. cbv iota. rewrite bind_at. cbn [response_text lift]. unfold lift.
    by rewrite (body_read swept (Hsafe swept eq_refl)), app_nil_r.
  - rewrite (Hf x eq_refl). by destruct network.
Qed.

Lemma handler_run (w : World (Bookings.World W)) (data : json) (cid : string) :
  Correlation.correlationId <$> context w = Some cid ->
  (forall swept, snd (sweep (outside w)) = Ok swept -> Js.is_safe (Z.of_nat (length (BookingDb.expired swept))) = true) ->
  exists r,
    expire_requests url_in apiBaseUrl secret data w =
      (mkWorld (left_behind (outside w)) (context w) (log w ++ heard_lines cid (heard (outside w))) (samples w) (wseq w), r) /\
    match heard (outside w) with heard_swept _ => r = Ok tt | _ => exists e, r = Err e end.
Proof.
  intros Hcid Hsafe. pose proof (trigger_run w Hsafe) as Ht. unfold expire_requests. rewrite bind_at. rewrite Hcid in Ht. rewrite Ht.
  destruct (heard (outside w)) as [swept| |] eqn:Hh; [|eexists; split; [reflexivity|by eexists]..].
  assert (Js.is_safe (Z.of_nat (length (BookingDb.expired swept))) = true) as Hn.
  { apply Hsafe. revert Hh. unfold heard. destruct arrives; [|done]. destruct network; [|done..]. destruct recognised; [|done].
    destruct (snd (sweep (outside w))); [|done]. by intros [= ->]. }
  exists (Ok tt). split; [|done]. cbn [heard_lines]. unfold expiry_lines.
  rewrite bind_at, (body_expired swept). unfold lift. rewrite (counts_are_numbers _ Hn), app_nil_r.
  destruct (length (BookingDb.expired swept) =? 0)%nat; [unfold write, modify; cbn; by rewrite Hcid|].
  unfold write. run_binds. cbn [context log samples wseq outside]. rewrite (body_limit swept), Hcid. cbn [is_true].
  destruct (BookingDb.expiry_reachedLimit swept); [|done]. unfold modify. cbn [context log samples wseq outside]. by rewrite Hcid, <- app_assoc.
Qed.

Definition carried (data : json) : option json :=
  match data with j_null => None | v => match Encryption.property "correlationId" v with Ok x => x | Err _ => None end end.

Lemma carried_read (data : json) :
  match data with j_null => Ok None | v => Encryption.property "correlationId" v end = Ok (carried data).
Proof. by destruct data. Qed.

(** C30. A job of the expiry sweep, from the queue through the worker, HTTP, the guard and
    the controller, does to the bookings what the sweep of the service does, and nothing
    where the secret is not the API's, where the request never arrives, or where the sweep
    fails, when only what others committed meanwhile stays. It succeeds exactly when it
    arrives, the secret is the API's, the sweep answers and its answer gets back; where only
    the answer is lost the sweep is done and the job fails. It logs what was expired, or why
    it failed, under the job's own correlation id, and is measured once. *)
Theorem expiry_job_runs_the_sweep (data : json) (w : World (Bookings.World W)) :
  (forall swept, snd (sweep (outside w)) = Ok swept -> Js.is_safe (Z.of_nat (length (BookingDb.expired swept))) = true) ->
  exists w' r cid,
    process (handlers url_in apiBaseUrl secret) Queues.EXPIRE_REQUESTS_JOB data w = (w', r) /\
    (forall c, Correlation.sanitiseCorrelationId (carried data) = Some c -> cid = c) /\
    match header_value secret, network with
    | None, _ | Some _, never_arrives _ =>
        (exists e, r = Err e) /\ outside w' = outside w /\ logged w w' (unreached_lines (Some cid)) job_failed job_expire_requests
    | Some presented, answer_lost _ =>
        (exists e, r = Err e) /\ outside w' = (if bool_decide (presented = their_secret) then fst (sweep (outside w)) else outside w) /\
        logged w w' (unreached_lines (Some cid)) job_failed job_expire_requests
    | Some presented, delivered =>
        if bool_decide (presented = their_secret) then
          match sweep (outside w) with
          | (s', Ok swept) => r = Ok tt /\ outside w' = s' /\ logged w w' (expiry_lines cid swept) job_completed job_expire_requests
          | (_, Err _) =>
              (exists e, r = Err e) /\
              outside w' = Bookings.mkWorld (within (Bookings.bdb (outside w))) (Bookings.rest (outside w)) /\
              logged w w' (refused_lines (Some cid) 500) job_failed job_expire_requests
          end
        else (exists e, r = Err e) /\ outside w' = outside w /\ logged w w' (refused_lines (Some cid) 401) job_failed job_expire_requests
    end.
Proof.
  intros Hsafe. unfold process. rewrite bind_at, carried_read. cbn [lift]. unfold lift, runInJobContext. rewrite bind_at.
  assert (exists cid n, match Correlation.sanitiseCorrelationId (carried data) with Some c => mret c | None => newCorrelationId end w =
      (mkWorld (outside w) (context w) (log w) (samples w) n, Ok cid) /\
      forall c, Correlation.sanitiseCorrelationId (carried data) = Some c -> cid = c) as (cid & n & -> & Hcid).
  { destruct w. destruct (Correlation.sanitiseCorrelationId (carried data)) as [c|]; do 2 eexists; (split; [reflexivity|]); congruence. }
  rewrite bind_at. unfold newCorrelationId. cbn [outside context log samples wseq]. unfold runWithContext. cbn [outside context log samples wseq].
  set (ctx := Correlation.mkContext cid (Some (uuid n)) None). set (w0 := mkWorld (outside w) (Some ctx) (log w) (samples w) (Datatypes.S n)).
  change (handlers url_in apiBaseUrl secret Queues.EXPIRE_REQUESTS_JOB) with (Some (expire_requests url_in apiBaseUrl secret)). cbv iota beta.
  destruct (handler_run w0 data cid eq_refl Hsafe) as (r & Hrun & Hout). rewrite bind_at. unfold catch. rewrite Hrun.
  unfold recorded, recordQueueJob, logged. change (labelFor Queues.EXPIRE_REQUESTS_JOB) with job_expire_requests.
  change (outside w0) with (outside w) in *. cbn [outside context log samples wseq] in *.
  pose proof (failed_sweep (outside w)) as Hf. unfold left_behind, heard, arrives, recognised, heard_lines in *.
  destruct (header_value secret) as [presented|]; [destruct network as [|e|e]|]; cbn [andb] in *;
    rewrite ?(bool_decide_ext (Some presented = Some their_secret) (presented = their_secret)) in * by (split; congruence);
    try (destruct (bool_decide (presented = their_secret)); [destruct (sweep (outside w)) as [s' [swept|x]]|]); cbn [fst snd andb] in *;
    try (rewrite (Hf _ eq_refl)); [subst r; unfold modify; cbn [outside context log samples wseq]; do 3 eexists; by split_and!|..];
    destruct Hout as [e' ->]; rewrite bind_at; unfold modify, throw; cbn [outside context log samples wseq]; do 3 eexists;
    (split; [reflexivity|]); (split; [exact Hcid|]); (split; [by eexists|]); by split_and!.
Qed.
End Whole.
