(* ===== verification/Examples.v ===== *)
(** * Concrete runs

    A provider that answers from a script, a catalogue of two overlapping quotes,
    and runs of the composed system over them: every theorem with hypotheses is
    applied here at inputs where they hold, and the races the stores lose are
    shown. *)

From S2P Require Import Prelude JsNumber Text Money Ledger LedgerStore LedgerProofs.
From S2P Require Import LedgerTheorems Pricing PricingProofs HireSettlement PaymentIntent.
From S2P Require Import IntentStore IntentProofs Payments PaymentsProofs PaymentsTheorems.
From S2P Require Import PaymentsRace BookingState BookingStore BookingProofs Bookings.
From S2P Require Import BookingTheorems BookingHistory BookingOutcomes System.

#[local] Open Scope string_scope.
#[local] Open Scope list_scope.
#[local] Open Scope Z_scope.

Import Money (mkMoney).

(** ** The composed world *)
Module World.
Import BookingState BookingDb Bookings Composition.
Import PaymentIntent (PaymentAttempt).

Definition hour : Z := 3600000.

Definition quote (i : string) (from_ to_ : Z) : QuoteRecord :=
  mkQuote i (mkNewQuote "l1" "renter" from_ to_ "Europe/London" "SW1A 1AA" (mkMoney 2000 "GBP") (mkMoney 160 "GBP")
    (mkMoney 2160 "GBP") false [Pricing.mkLine Pricing.day 1 (mkMoney 2000 "GBP") (mkMoney 2000 "GBP")] (Some (Pricing.mkExcess (mkMoney 5000 "GBP") Pricing.by_floor)) "v1" (100 * hour)) 0.

(** "q1" and "q2" overlap; "q3" follows "q1". *)
Definition quotes : list QuoteRecord :=
  [quote "q1" (200 * hour) (224 * hour); quote "q2" (210 * hour) (234 * hour);
   quote "q3" (224 * hour) (248 * hour)].

Definition find_quote (q u : string) (_ : bool) : option QuoteRecord := find_by q_id q quotes.

Definition drill : QuotableListing :=
  mkListing "l1" "owner" "Drill" "Tools" (Pricing.mkRates (Some (mkMoney 2000 "GBP")) None None) example_policy
    None (mkMoney 9000 "GBP") 28 24 "v1".

#[global, program] Instance catalogue : Catalogue bool := {|
  quoteFor := find_quote;
  quotable := fun l _ => if decide (l = "l1") then Some drill else None;
  payment_flag := fun on => on |}.
Next Obligation.
  intros q u c x Hx. apply find_by_Some in Hx as [Hx _]. unfold quotes in Hx.
  repeat (apply elem_of_cons in Hx as [-> | Hx]; [by apply (bool_decide_unpack _)|]).
  by apply not_elem_of_nil in Hx.
Qed.

#[global] Existing Instance scripted.
#[global] Instance ports : BookingPorts (System (list PaymentAttempt) bool) :=
  booking_ports example_policies (fun _ => true) Datatypes.id.

Definition ownerOf (l : string) : option string := if decide (l = "l1") then Some "owner" else None.
Definition acceptable (_ _ _ : instant) : result () := Ok tt.

Definition turns : Type := list (turn (W := System (list PaymentAttempt) bool)).

Definition world (ts : turns) (script : list PaymentIntent.PaymentAttemptStatus)
  : Bookings.World (System (list PaymentAttempt) bool) :=
  run ownerOf acceptable ts (opening 0 (mkSystem (empty_world 0 (answer <$> script)) true)).

(** Three requests, of which one is accepted and paid for, one declined by that,
    and one accepted. *)
Definition asked_turns : turns :=
  [calm (RRequest "renter" "q1"); calm (RRequest "other" "q2"); calm (RRequest "third" "q3")].
Definition accepted_turns : turns := asked_turns ++ [calm (RAccept "0" "owner")].
Definition paid_turns : turns := accepted_turns ++ [calm (RPay "0" "renter"); calm (RAccept "2" "owner")].

Definition asked_world := world asked_turns [].
Definition accepted_world := world accepted_turns [PaymentIntent.reported_succeeded].
Definition paid_world := world paid_turns [PaymentIntent.reported_succeeded].

Lemma paid_states : (fun r => (row_id r, row_state r)) <$> bookings (bdb paid_world) =
  [("0", RESERVED); ("1", DECLINED); ("2", ACCEPTED)].
Proof. by vm_compute. Qed.

(** ** Races the booking store loses

    [accept] and [decline] read a request, check it, and then update it by its id
    alone: whatever a rival committed in between is overwritten, and its history
    no longer follows the table. *)
Definition story (i : string) (db : Db) : list (option BookingState * option BookingState) :=
  (fun e => (fromState e, toState e)) <$> history_of i db.

Lemma overtaken_decline_undoes_acceptance :
  let w := world [calm (RRequest "renter" "q1");
                  mkTurn (RDecline "0" "owner") [] [KAccept "0" "owner" 0] undisturbed] [] in
  row_state <$> bookings (bdb w) = [DECLINED] /\
  story "0" (bdb w) = [(None, Some REQUESTED); (Some REQUESTED, Some ACCEPTED); (Some REQUESTED, Some DECLINED)].
Proof. by vm_compute. Qed.

Lemma overtaken_accept_undoes_decline :
  let w := world [calm (RRequest "renter" "q1");
                  mkTurn (RAccept "0" "owner") [] [KDecline "0" "owner" 0] undisturbed] [] in
  row_state <$> bookings (bdb w) = [ACCEPTED] /\
  story "0" (bdb w) = [(None, Some REQUESTED); (Some REQUESTED, Some DECLINED); (Some REQUESTED, Some ACCEPTED)].
Proof. by vm_compute. Qed.
End World.

(** ** Bookings *)
Module BookingWitnesses.
Import BookingState BookingDb Bookings Composition World.

Ltac in_table n := apply (list_elem_of_lookup_2 _ n); vm_compute; reflexivity.

Lemma no_double_booking_witness :
  exists r r', bookings (bdb paid_world) !! 0%nat = Some r /\ bookings (bdb paid_world) !! 2%nat = Some r' /\
    (r = r' \/ row_endAt r <= row_startAt r' \/ row_endAt r' <= row_startAt r).
Proof.
  eexists _, _. split; [vm_compute; reflexivity|]. split; [vm_compute; reflexivity|].
  apply (no_double_booking ownerOf acceptable paid_turns 0
           (mkSystem (empty_world 0 (answer <$> [PaymentIntent.reported_succeeded])) true));
    [in_table 0%nat|in_table 2%nat|reflexivity..].
Defined.

Lemma reserved_booking_is_paid_for_witness :
  exists r, bookings (bdb paid_world) !! 0%nat = Some r /\ row_state r = RESERVED /\
    exists k, with_key (PaymentIntent.hireCaptureKey (row_id r)) (books paid_world) = [k].
Proof.
  eexists. split; [vm_compute; reflexivity|]. split; [reflexivity|].
  edestruct (reserved_booking_is_paid_for example_policies (fun _ => true) Datatypes.id good_world_rival_id
           ownerOf acceptable paid_turns 0 0 (answer <$> [PaymentIntent.reported_succeeded]) true)
    as (k & Hk & _).
  - repeat (constructor; [by split_and!|]). constructor.
  - in_table 0%nat.
  - reflexivity.
  - by exists k.
Defined.

Lemma history_explains_state_witness :
  exists r, bookings (bdb paid_world) !! 1%nat = Some r /\
    explains (written (row_id r) (bdb paid_world)) (row_state r).
Proof.
  eexists. split; [vm_compute; reflexivity|].
  apply (history_explains_state ownerOf acceptable paid_turns 0
           (mkSystem (empty_world 0 (answer <$> [PaymentIntent.reported_succeeded])) true)).
  - repeat (constructor; [reflexivity|]). constructor.
  - in_table 1%nat.
Defined.

Lemma terms_never_change_witness :
  exists r s u, bookings (bdb asked_world) !! 1%nat = Some r /\
    by_id (row_id r) (bdb (run ownerOf acceptable [calm (RAccept "0" "owner")] asked_world)) =
      Some (with_state s u r).
Proof.
  edestruct (terms_never_change ownerOf acceptable asked_turns [calm (RAccept "0" "owner")] 0
    (mkSystem (empty_world 0 (answer <$> [])) true)) as (s & u & H & _).
  - in_table 1%nat.
  - eexists _, s, u. split; [|exact H]. vm_compute; reflexivity.
Defined.

Lemma world_bwf (ts : turns) (script : list PaymentIntent.PaymentAttemptStatus) : bwf (bdb (world ts script)).
Proof. apply run_sound, bwf_empty. Qed.

Lemma accept_resolves_requests_witness :
  exists b rec, bookings (bdb asked_world) !! 0%nat = Some b /\
    BookingDb.accept ownerOf Datatypes.id (fun k => Nat.eqb k 1) (row_id b) "owner" 0 (bdb asked_world) =
      (mkDb (resolved b 0 <$> bookings (bdb asked_world))
         (events (bdb asked_world) ++ acceptance_events b "owner" (bdb asked_world))
         (blocks (bdb asked_world)) (bseq (bdb asked_world)) 0,
       Ok (Some (mkAcceptance rec ["1"]))).
Proof.
  eexists _, _. split; [vm_compute; reflexivity|]. etrans.
  - eapply accept_resolves_requests with (rec := _).
    + apply world_bwf.
    + in_table 0%nat.
    + vm_compute. reflexivity.
  - vm_compute. reflexivity.
Defined.

Lemma pay_outcomes_witness :
  exists b db' x back, bookings (bdb accepted_world) !! 0%nat = Some b /\
    moves b RESERVED (bdb accepted_world) db' /\
    pay ownerOf Datatypes.id Datatypes.id undisturbed (row_id b) (row_renterId b) accepted_world =
      (mkWorld db' x, Ok (Some (mkPayment back (mkChargeResult c_succeeded None None)))).
Proof.
  assert (exists b rec, bookings (bdb accepted_world) !! 0%nat = Some b /\ toRecord b = Ok rec /\
            b ∈ bookings (bdb accepted_world) /\ ownerOf (row_listingId b) = Some "owner" /\
            row_state b = ACCEPTED /\
            exists x, Bookings.chargeForHire (charge_of b "owner") (rest accepted_world) =
                        (x, Ok (mkChargeResult c_succeeded None None)))
    as (b & rec & Hb & Hrec & Hin & Ho & Hs & x & Hc).
  { eexists _, _. split; [vm_compute; reflexivity|]. split; [vm_compute; reflexivity|].
    split; [in_table 0%nat|]. do 2 (split; [reflexivity|]). eexists. vm_compute. reflexivity. }
  pose proof (pay_outcomes ownerOf b (row_renterId b) accepted_world rec (world_bwf _ _) Hin Hrec) as H.
  change (Bookings.isPaymentEnabled (rest accepted_world)) with true in H. rewrite bool_decide_eq_true_2, Hs, Ho in H by reflexivity.
  change (bool_decide (ACCEPTED ∈ PAYABLE_STATES)) with true in H. cbn [negb] in H. destruct H as (db' & _ & H).
  rewrite Hc in H. destruct H as (Hm & back & _ & H). exists b, db', x, back.
  split; [exact Hb|]. split; [exact Hm|exact H].
Defined.

Lemma unpayable_is_untouched_witness :
  exists d, Bookings.find ownerOf Datatypes.id "1" "other" false paid_world = (paid_world, Ok (Some d)) /\
    let '(w, r) := pay ownerOf Datatypes.id Datatypes.id undisturbed "1" "other" paid_world in
    w = paid_world /\ match r with Ok (Some _) => False | _ => True end.
Proof.
  assert (exists d, Bookings.find ownerOf Datatypes.id "1" "other" false paid_world = (paid_world, Ok (Some d)) /\
            detail_payability d <> payable) as (d & Hd & Hn).
  { eexists. split; [vm_compute; reflexivity|discriminate]. }
  exists d. split; [exact Hd|]. exact (unpayable_is_untouched ownerOf "1" "other" _ _ d Hd Hn).
Defined.

Lemma second_request_is_refused_witness :
  exists w b, Bookings.request ownerOf Datatypes.id Datatypes.id undisturbed "renter" "q1" (world [] []) =
      (w, Ok (Some b)) /\
    Bookings.request ownerOf Datatypes.id Datatypes.id undisturbed "renter" "q1" w =
      (w, Err (RequestRefusedError "You have already requested this hire. We have only kept the first request — asking again would have made two.")).
Proof.
  assert (exists w b, Bookings.request ownerOf Datatypes.id Datatypes.id undisturbed "renter" "q1" (world [] []) =
            (w, Ok (Some b))) as (w & b & H).
  { eexists _, _. vm_compute. reflexivity. }
  exists w, b. split; [exact H|]. exact (second_request_is_refused ownerOf "renter" "q1" _ w b H).
Defined.

Lemma sweep_expires_the_earliest_witness :
  exists db' res, expireRequests Datatypes.id undisturbed (25 * hour) 2 (bdb asked_world) = (db', Ok res) /\
    length (expired res) = 2%nat.
Proof.
  destruct (sweep_expires_the_earliest (25 * hour) 2 (bdb asked_world) (world_bwf _ _))
    as (db' & res & Hr & Hl & _).
  exists db', res. split; [exact Hr|]. rewrite Hl. vm_compute. reflexivity.
Defined.

Lemma list_says_when_truncated_witness :
  exists page, listForRenter "renter" (Js.of_Z 1) paid_world = (paid_world, Ok page) /\
    let rows := merge_sort newest (List.filter (fun r => bool_decide (row_renterId r = "renter"))
                  (bookings (bdb paid_world))) in
    (1 <= Z.to_nat (boundedBookingLimit (Js.of_Z 1)) <= 200)%nat /\
    (Paging.truncated page = true <-> (Z.to_nat (boundedBookingLimit (Js.of_Z 1)) < length rows)%nat) /\
    Paging.truncated page = false.
Proof.
  assert (exists page, listForRenter "renter" (Js.of_Z 1) paid_world = (paid_world, Ok page) /\
            Paging.truncated page = false) as (page & H & Hf).
  { eexists. split; [vm_compute; reflexivity|reflexivity]. }
  exists page. split; [exact H|].
  destruct (list_says_when_truncated "renter" (Js.of_Z 1) paid_world paid_world page H) as (_ & Hn & _ & Ht).
  split; [exact Hn|]. split; [exact Ht|exact Hf].
Defined.
End BookingWitnesses.
(** ** The ledger *)
Module LedgerWitnesses.
Import Money (Money, SUPPORTED_CURRENCIES).
Import Ledger LedgerDb.

Definition gbp (a : Z) : Money := mkMoney a "GBP".

Definition draft (key : string) : LedgerTransactionDraft :=
  mkDraft key hire_charge_captured "GBP" (Some "b1") 5
    [mkEntry "0" debit (gbp 2160); mkEntry "1" credit (gbp 1700); mkEntry "2" credit (gbp 460)] None.

Definition accounts_db : Db :=
  LedgerTheorems.run
    [CAccountFor (mkSpec provider_clearing "GBP" None); CAccountFor (mkSpec owner_payable "GBP" (Some "o1"));
     CAccountFor (mkSpec platform_revenue "GBP" None)] (empty_db 0).

Lemma accounts_wf : wf accounts_db.
Proof. apply (run_good _ _ (wf_empty 0)). Qed.

Definition posted_db : Db := fst (LedgerService.post id (draft "k1") accounts_db).
Definition reversed_db : Db := fst (LedgerService.reverse id "3" "r1" 9 posted_db).

Lemma posted_wf : wf posted_db.
Proof. apply (run_good [CPost (draft "k1")] _ accounts_wf). Qed.

Lemma GBP_supported : "GBP" ∈ SUPPORTED_CURRENCIES.
Proof. by apply (bool_decide_unpack _). Qed.

Lemma post_exactly_once_witness :
  exists p, LedgerService.post id (draft "k1") accounts_db = (posted_db, Ok p) /\
    LedgerService.post id (draft "k1") reversed_db = (reversed_db, Ok p) /\
    with_key "k1" reversed_db = [p].
Proof.
  assert (exists p, LedgerService.post id (draft "k1") accounts_db = (posted_db, Ok p)) as [p Hp].
  { eexists. vm_compute. reflexivity. }
  exists p. split; [exact Hp|].
  apply (post_exactly_once id id (draft "k1") accounts_db posted_db reversed_db p LedgerProofs.good_rival_id accounts_wf Hp).
  - apply (run_good [CReverse "3" "r1" 9] _ posted_wf).
  - apply (run_good [CReverse "3" "r1" 9] _ posted_wf).
Defined.

Lemma key_reuse_witness :
  exists p, by_key "k1" posted_db = Some p /\
    snd (LedgerService.post id (mkDraft "k1" hire_charge_captured "GBP" (Some "b2") 5
           (entries (draft "k1")) None) posted_db) =
      Err (LedgerError "idempotency key has already been used for a different transaction").
Proof.
  assert (exists p, by_key "k1" posted_db = Some p /\ draft_currency (posted p) = "GBP" /\
            bookingId (posted p) = Some "b1") as (p & Hp & Hc & Hb).
  { eexists. split; [vm_compute; reflexivity|done]. }
  exists p. split; [exact Hp|].
  edestruct (key_reuse id (mkDraft "k1" hire_charge_captured "GBP" (Some "b2") 5 (entries (draft "k1")) None)
              posted_db p posted_wf Hp) as (_ & _ & H).
  - rewrite Hc. apply GBP_supported.
  - repeat (constructor; [split; repeat constructor; discriminate|]). constructor.
  - apply H; [vm_compute; reflexivity|]. intros (_ & _ & Hbk & _). rewrite Hb in Hbk. discriminate Hbk.
Defined.

Lemma post_records_witness :
  LedgerService.post id (draft "k1") accounts_db =
    (mkDb (accounts accounts_db) [mkPosted "3" 0 (draft "k1")] 4 0, Ok (mkPosted "3" 0 (draft "k1"))).
Proof.
  etrans; [apply (post_records (draft "k1") accounts_db)|vm_compute; reflexivity].
  - vm_compute. reflexivity.
  - split; [vm_compute; reflexivity|]. split; [vm_compute; reflexivity|]. split; [discriminate|].
    repeat (constructor; [by vm_compute|]). constructor.
Defined.

Lemma reverse_undoes_witness :
  exists p o, LedgerService.reverse id "3" "r1" 9 posted_db = (reversed_db, Ok p) /\
    by_id "3" posted_db = Some o /\
    (forall a, net a (entries (posted o)) + net a (entries (posted p)) = 0).
Proof.
  assert (exists p, LedgerService.reverse id "3" "r1" 9 posted_db = (reversed_db, Ok p)) as [p Hp].
  { eexists. vm_compute. reflexivity. }
  edestruct (reverse_undoes id "3" "r1" 9 posted_db reversed_db p LedgerProofs.good_rival_id posted_wf Hp)
    as (o & Ho & _ & Hn & _).
  - apply (bool_decide_unpack _). vm_compute. exact I.
  - exists p, o. split; [exact Hp|]. split; [exact Ho|exact Hn].
Defined.

Lemma reverse_once_witness :
  exists p db', LedgerService.reverse id "3" "r1" 9 posted_db = (db', Ok p) /\
    LedgerService.reverse id "3" "r2" 9 db' = (db', Err (LedgerError "has already been reversed")).
Proof.
  assert (exists o, by_id "3" posted_db = Some o /\ fits (posted o) /\
            Forall (fun e => fits_int4 (Money.amount (entry_amount e)) = true) (entries (posted o)))
    as (o & Ho & Hf & Hi).
  { eexists. split; [vm_compute; reflexivity|].
    split; [split; apply Z.leb_le; vm_compute; reflexivity|].
    repeat (constructor; [vm_compute; reflexivity|]). constructor. }
  edestruct (reverse_once "3" "r1" 9 posted_db o posted_wf Ho) as (p & db' & Hr & Hp & Ht & Hagain).
  - vm_compute. reflexivity.
  - vm_compute. reflexivity.
  - discriminate.
  - exact Hf.
  - exact Hi.
  - exists p, db'. split; [exact Hr|]. apply Hagain; [|discriminate].
    assert (by_key "r2" posted_db = None) as Hnone by (vm_compute; reflexivity).
    unfold by_key in *. rewrite Ht, find_by_app, Hnone. unfold find_by. cbn [List.find].
    rewrite Hp. reflexivity.
Defined.

Lemma balance_refines_witness :
  LedgerDb.balanceOf "1" posted_db = (posted_db, Ok (gbp 1700)).
Proof.
  assert (exists row, by_account_id "1" posted_db = Some row /\
            Ledger.balanceOf (acc_kind row) (acc_currency row) (entries_of "1" posted_db) = Ok (gbp 1700))
    as (row & Hr & Hb).
  { eexists. split; [vm_compute; reflexivity|]. vm_compute. reflexivity. }
  exact (balance_refines "1" row posted_db (gbp 1700) Hr Hb).
Defined.

Lemma accountFor_names_one_account_witness :
  exists db' a, LedgerService.accountFor id (mkSpec owner_payable "GBP" (Some "o1")) accounts_db = (db', Ok a) /\
    acc_ownerId a = Some "o1".
Proof.
  edestruct (accountFor_names_one_account id id (mkSpec owner_payable "GBP" (Some "o1")) accounts_db)
    as (db' & a & Ha & _ & _ & _ & _ & Ho & _).
  - exact LedgerProofs.good_rival_id.
  - exact accounts_wf.
  - vm_compute. reflexivity.
  - apply GBP_supported.
  - apply (bool_decide_unpack _). vm_compute. exact I.
  - exists db', a. split; [exact Ha|exact Ho].
Defined.
End LedgerWitnesses.

(** ** Prices and settlements *)
Module PricingWitnesses.
Import Money (Money, amount, currency, SUPPORTED_CURRENCIES).
Import Pricing HireSettlement.

Definition gbp (a : Z) : Money := mkMoney a "GBP".
Definition card : ListingRateCard := mkRates (Some (gbp 2000)) (Some (gbp 5000)) (Some (gbp 9000)).
Definition plain_card : ListingRateCard := mkRates (Some (gbp 2000)) None (Some (gbp 9000)).
Definition security : DamageSecurityPolicy := mkSecurity (gbp 5000) 2000 (gbp 50000).

Lemma gbp_priced (limit a : Z) : 0 <= a <= limit -> priced "GBP" limit (gbp a).
Proof. by split. Qed.

Lemma card_valid : valid_card "GBP" card.
Proof. split; [by eexists|]. by intros m [[= <-]|[[= <-]|[= <-]]]. Qed.

Lemma plain_card_valid : valid_card "GBP" plain_card.
Proof. split; [by eexists|]. by intros m [[= <-]|[[=]|[= <-]]]. Qed.

Lemma policy_valid : valid_policy "GBP" example_policy.
Proof. by split_and!. Qed.

Lemma charge_valid : valid_charge "GBP" (Payments.ins_charge example_hire).
Proof. by split_and!. Qed.

(** From a Friday, nine days: a weekend, six days, and a week is cheaper. *)
Lemma quote_is_cheapest_witness :
  exists u, chooseCheapestUnits 9 5 card = Ok (Some u) /\
    (forall c, offer card 5 9 c -> amount (units_itemCharge u) <= offer_price card c).
Proof.
  destruct (quote_is_cheapest "GBP" card 5 9 card_valid) as (u & Hu & Hc & _); [unfold MAX_DAYS; lia|].
  exists u. split; [exact Hu|exact Hc].
Defined.

Lemma quote_total_witness :
  exists q, priceRental 9 5 card example_policy = Ok (Some q) /\
    amount (total q) = amount (itemCharge q) + amount (renterFee q).
Proof.
  destruct (quote_total "GBP" card example_policy 5 9 card_valid policy_valid)
    as (q & pct & Hq & _ & _ & _ & Ht & _); [unfold MAX_DAYS; lia|].
  exists q. split; [exact Hq|exact Ht].
Defined.

Lemma headline_is_one_day_quote_witness :
  exists q h, priceRental 1 5 plain_card example_policy = Ok (Some q) /\
    inclusiveDailyPrice plain_card example_policy = Ok (Some h) /\ total q = daily_total h.
Proof.
  destruct (headline_is_one_day_quote "GBP" plain_card example_policy 5 (gbp 2000) plain_card_valid
              policy_valid eq_refl) as (q & h & Hq & Hh & Ht & _); [by right|left; cbn; lia|].
  exists q, h. split; [exact Hq|]. split; [exact Hh|exact Ht].
Defined.

Lemma excess_within_band_witness :
  exists e, appliedExcessFor security (gbp 120000) = Ok e /\
    amount (excessFloor security) <= amount (excess_amount e) <= amount (recoveryCeiling security).
Proof.
  destruct (excess_within_band "GBP" security (gbp 120000)) as (e & pct & He & _ & _ & _ & _ & Hb & _);
    [by apply gbp_priced|by apply gbp_priced|done| |by apply gbp_priced|].
  - by split.
  - exists e. split; [exact He|exact Hb].
Defined.

Lemma settlement_conserves_witness :
  exists s, settleHire (Payments.ins_charge example_hire) example_policy = Ok s /\
    amount (ownerEarns s) + amount (platformEarns s) = 2160.
Proof.
  destruct (settlement_conserves "GBP" (Payments.ins_charge example_hire) example_policy charge_valid policy_valid)
    as (s & Hs & _ & Hc & _).
  exists s. split; [exact Hs|exact Hc].
Defined.

Lemma settled_hire_is_postable_witness :
  exists s es, settleHire (Payments.ins_charge example_hire) example_policy = Ok s /\
    hireCaptureEntries s "0" "1" "2" = Ok es /\
    Ledger.assertPostable (Ledger.mkDraft "hire-capture:b1" Ledger.hire_charge_captured "GBP" (Some "b1") 0 es None)
      = Ok tt.
Proof.
  destruct (settled_hire_is_postable "GBP" (Payments.ins_charge example_hire) example_policy "0" "1" "2"
              "hire-capture:b1" "b1" 0 charge_valid policy_valid) as (s & es & Hs & He & Hp & _); [by vm_compute|].
  exists s, es. split; [exact Hs|]. split; [exact He|exact Hp].
Defined.

Lemma settlement_refuses_inconsistent_witness :
  is_ok (settleHire (mkCharge (gbp 2000) (gbp 160) (gbp 2161)) example_policy) = false.
Proof. apply settlement_refuses_inconsistent. discriminate. Defined.
End PricingWitnesses.

(** ** Money *)
Module MoneyWitnesses.
Import Money.

Lemma allocate_fairly_witness :
  exists shares, allocate (mkMoney 1001 "GBP") (Js.of_Z <$> [1500; 8500]) = Some (Ok shares) /\
    total_of shares = 1001.
Proof.
  edestruct (allocate_fairly 1001 "GBP" [1500; 8500]) as (shares & H & Ht & _).
  - split; [discriminate|vm_compute; reflexivity].
  - repeat (constructor; [split; discriminate|]). constructor.
  - split; [vm_compute; reflexivity|discriminate].
  - exists shares. split; [exact H|exact Ht].
Defined.

Lemma fromMajor_toMajorString_witness : fromMajor "-12.05" "GBP" = Ok (mkMoney (-1205) "GBP").
Proof.
  edestruct (fromMajor_toMajorString (mkMoney (-1205) "GBP")) as (s & Hs & Hr).
  - vm_compute. reflexivity.
  - left.
  - vm_compute in Hs. injection Hs as <-. exact Hr.
Defined.
End MoneyWitnesses.

(** ** Payments *)
Module PaymentWitnesses.
Import Money (Money, amount, currency, SUPPORTED_CURRENCIES).
Import PaymentIntent HireSettlement Payments Reconciliation.
Import IntentDb (IntentRow, row_id, row_bookingId, row_status, row_currency, amountMinor, rows, purpose).

#[local] Notation any_row := (fun _ : IntentRow => true).

Definition paid_script : list PaymentAttemptStatus := [reported_pending_payer_action; reported_succeeded].
Definition paid_schedule : @PaymentsTheorems.schedule (list PaymentAttempt) :=
  [(PaymentsTheorems.RPay example_hire, []); (PaymentsTheorems.RRefresh "0", [])].
Definition started_schedule : @PaymentsTheorems.schedule (list PaymentAttempt) := [(PaymentsTheorems.RPay example_hire, [])].

Definition paid := example_run paid_schedule paid_script.
Definition started := example_run started_schedule paid_script.

Lemma hire_typed : typed (P := list PaymentAttempt) (PaymentsTheorems.RPay example_hire).
Proof. apply LedgerWitnesses.GBP_supported. Qed.

Lemma paid_typed : all_typed paid_schedule.
Proof.
  unfold all_typed, paid_schedule. constructor; [split; [apply hire_typed|constructor]|].
  constructor; [split; [exact I|constructor]|constructor].
Qed.

Lemma started_typed : all_typed started_schedule.
Proof. constructor; [split; [apply hire_typed|constructor]|constructor]. Qed.

Ltac in_table n := apply (list_elem_of_lookup_2 _ n); vm_compute; reflexivity.

Lemma paid_is_in_the_books_witness :
  exists r c, rows (intents paid) !! 0%nat = Some r /\
    with_key (hireCaptureKey (row_bookingId r)) (ledger paid) = [c] /\
    LedgerDb.side_total Ledger.debit (Ledger.entries (Ledger.posted c)) = amountMinor r.
Proof.
  edestruct (paid_is_in_the_books example_policies any_row paid_schedule 0 (answer <$> paid_script))
    as (c & Hk & _ & _ & Hd & _); [apply paid_typed|in_table 0%nat|reflexivity|reflexivity|].
  eexists _, c. split; [vm_compute; reflexivity|]. split; [exact Hk|exact Hd].
Defined.

Lemma one_success_per_booking_witness :
  exists r r', rows (intents paid) !! 0%nat = Some r /\ rows (intents paid) !! 0%nat = Some r' /\ r = r'.
Proof.
  eexists _, _. split; [vm_compute; reflexivity|]. split; [vm_compute; reflexivity|].
  apply (one_success_per_booking example_policies any_row paid_schedule 0 (answer <$> paid_script));
    [apply paid_typed|in_table 0%nat|in_table 0%nat|reflexivity..].
Defined.

Lemma unsettleable_hire_is_refused_first_witness :
  fst (payForHire (fun _ => None) any_row Datatypes.id example_hire started) = started.
Proof.
  apply (unsettleable_hire_is_refused_first (fun _ => None) any_row Datatypes.id example_hire started).
  left. reflexivity.
Defined.

Lemma refresh_is_idempotent_witness :
  exists x, refresh example_policies Datatypes.id "0" started = (paid, Ok (Some x)) /\
    refresh example_policies Datatypes.id "0" paid = (paid, Ok (Some x)).
Proof.
  assert (exists x, refresh example_policies Datatypes.id "0" started = (paid, Ok (Some x)) /\
            isTerminal (status x) = true) as (x & Hx & Ht).
  { eexists. split; [vm_compute; reflexivity|]. reflexivity. }
  exists x. split; [exact Hx|].
  refine (refresh_is_idempotent example_policies "0" started paid x _ Hx Ht).
  apply (run_schedule_inv example_policies any_row started_schedule _ started_typed (winv_empty _ _)).
Defined.

(** An attempt that nobody heard of for twenty minutes. *)
Example a_stale_attempt_settles :
  snd (Reconciliation.sweep example_policies Datatypes.id (example_run
      (started_schedule ++ [(PaymentsTheorems.RClock (20 * 60000), [])]) paid_script)) = Ok (mkResult 1 1 0 0 0 false).
Proof. vm_compute. reflexivity. Qed.

Lemma double_press_calls_nobody_witness :
  exists w o, payForHire example_policies any_row Datatypes.id example_hire (example_world paid_script) = (w, Ok o) /\
    payForHire example_policies any_row Datatypes.id example_hire w = (w, Ok (mkPaid (intent o) None)).
Proof.
  assert (exists w o, payForHire example_policies any_row Datatypes.id example_hire (example_world paid_script)
            = (w, Ok o) /\ status (intent o) = pending_payer_action) as (w & o & Ho & Hs).
  { eexists _, _. split; [vm_compute; reflexivity|]. reflexivity. }
  exists w, o. split; [exact Ho|].
  refine (double_press_calls_nobody example_policies any_row example_hire _ w o _ hire_typed Ho _).
  - apply winv_empty.
  - rewrite Hs. discriminate.
Defined.
End PaymentWitnesses.
