(* ===== verification/IdentityExamples.v ===== *)
(** * Concrete runs of identity

    Ids in hexadecimal, an eraser that leaves an audit entry, and a platform with
    two administrators: the theorems of identity applied at it, and the races its
    check-then-act rules lose. *)

From Stdlib Require Import Ascii.
From S2P Require Import Prelude JsNumber Text Columns Ledger Bookings AuditLog AuditTheorems.
From S2P Require Import IdentityStore Identity IdentityProofs IdentityRows SecondFactor.
From S2P Require Import IdentityTheorems IdentityOutcomes AdmissionTheorems.

#[local] Open Scope string_scope.
#[local] Open Scope list_scope.
#[local] Open Scope Z_scope.

(** ** Ids and columns *)
Module Columns_.
Definition prefix : string := "abcdef00-0000-4000-8000-".
Definition hex_uuid (k : nat) : string := str (chars prefix ++ pad_start 12 (digits_of (Z.of_nat k))).

Lemma hex_uuid_digits (k : nat) : all_digits (pad_start 12 (digits_of (Z.of_nat k))) /\
  number_of (pad_start 12 (digits_of (Z.of_nat k))) = Z.of_nat k.
Proof.
  destruct (digits_of_spec (Z.of_nat k)) as [Hd Hn]; [lia|].
  destruct (pad_start_spec 12 _ Hd) as (H1 & H2 & _). split; [done|]. by rewrite H2.
Qed.

#[program] Definition hex_ids : UuidSource := {| uuid := hex_uuid |}.
Next Obligation.
  intros i j H. unfold hex_uuid in H. apply (f_equal chars) in H. rewrite !chars_str in H.
  apply (inj (app _)) in H. apply (f_equal number_of) in H.
  rewrite !(proj2 (hex_uuid_digits _)) in H. lia.
Qed.
Next Obligation.
  intros n. unfold hex_uuid. rewrite chars_str. apply Forall_app. split.
  - unfold prefix. cbn. repeat (constructor; [by split; intros H; discriminate H|]). constructor.
  - eapply Forall_impl; [exact (proj1 (hex_uuid_digits n))|]. intros c Hc. split; intros ->; by vm_compute in Hc.
Qed.
#[global] Existing Instance hex_ids | 0.

(** Text of hexadecimal digits and dashes, in lower case. *)
Definition hexish (c : ascii) : bool := is_hex c || bool_decide (c = "-"%char).
Definition read_uuid (s : string) : option string :=
  if forallb hexish (chars s) then Some (lower s) else None.

Definition dotted (s : string) : bool :=
  negb (bool_decide (s = "")) && forallb (fun c => is_digit c || bool_decide (c = "."%char)) (chars s).

Lemma lower_char_idem (c : ascii) : lower_char (lower_char c) = lower_char c.
Proof. by destruct c as [[] [] [] [] [] [] [] []]. Qed.

Lemma lower_char_hexish (c : ascii) : hexish c = true -> hexish (lower_char c) = true.
Proof. by destruct c as [[] [] [] [] [] [] [] []]. Qed.

Lemma digit_hexish (c : ascii) : is_digit c = true -> hexish c = true /\ lower_char c = c.
Proof. by destruct c as [[] [] [] [] [] [] [] []]. Qed.

Lemma hex_groups_hexish (ns : list nat) (l : text) : hex_groups ns l = true -> forallb hexish l = true.
Proof.
  revert l. induction ns as [|n ns IH]; intros l; [done|].
  assert (forall k : text, forallb is_hex k = true -> forallb hexish k = true) as Hhex.
  { intros k. rewrite !forallb_forall. intros H x Hx. unfold hexish. by rewrite H. }
  destruct ns as [|n' ns]; cbn -[take drop].
  - intros [_ H]%andb_true_iff. by apply Hhex.
  - intros [[_ H1]%andb_true_iff H2]%andb_true_iff. rewrite <- (take_drop n l), forallb_app.
    rewrite (Hhex _ H1). cbn [andb]. destruct (drop n l) as [|c k]; [done|].
    apply andb_true_iff in H2 as [Hc Hk]. cbn. rewrite (IH k) by exact Hk.
    apply bool_decide_eq_true in Hc as ->. done.
Qed.

Lemma read_hex (k : nat) : read_uuid (hex_uuid k) = Some (hex_uuid k).
Proof.
  assert (forall c, c ∈ chars (hex_uuid k) -> hexish c = true /\ lower_char c = c) as H.
  { intros c. unfold hex_uuid. rewrite chars_str, elem_of_app. intros [Hc|Hc].
    - revert c Hc. apply Forall_forall. unfold prefix. cbn. repeat (constructor; [done|]). constructor.
    - destruct (hex_uuid_digits k) as [Hd _]. unfold all_digits in Hd. rewrite Forall_forall in Hd.
      by apply digit_hexish, Hd. }
  unfold read_uuid. assert (forallb hexish (chars (hex_uuid k)) = true) as ->.
  { apply forallb_forall. intros c Hc%list_elem_of_In. by apply H. }
  f_equal. unfold lower. etrans; [|apply str_chars]. f_equal.
  etrans; [|apply list_fmap_id]. apply list_fmap_ext. intros i c Hc%list_elem_of_lookup_2. by apply H.
Qed.

#[global, program] Instance columns : PgTypes := {|
  uuid_in := read_uuid;
  inet_in := dotted;
  isIP := dotted |}.
Next Obligation. exact read_hex. Qed.
Next Obligation.
  intros s u. unfold read_uuid. destruct (forallb hexish (chars s)) eqn:H; [|done]. intros [= <-].
  unfold lower. rewrite chars_str.
  assert (forallb hexish (lower_char <$> chars s) = true) as ->.
  { rewrite forallb_forall in *. intros c (x & -> & Hx%list_elem_of_In)%list_elem_of_In%list_elem_of_fmap.
    by apply lower_char_hexish, H. }
  do 2 f_equal. rewrite <- list_fmap_compose. apply list_fmap_ext. intros i c _. apply lower_char_idem.
Qed.
Next Obligation.
  intros s Hs. unfold read_uuid. by rewrite (hex_groups_hexish _ _ Hs).
Qed.
Next Obligation. done. Qed.
End Columns_.

(** ** A platform with two administrators *)
Module Accounts.
Import Columns_ IdentityDb Identity.
Import AuditDb (Actor, mkActor).

(** One other module, which holds a flag and says so when it erases. *)
#[global] Instance other_modules : IdentityPorts bool := {|
  erase := fun a w =>
    let db := idb w in
    let (t, r) := AuditDb.record (iclock db) (known db)
      (AuditDb.mkEntry (Some (AuditDb.actor_userId a)) AuditDb.profile_erased "user" (AuditDb.actor_userId a)
         None None None None None) (trail db) in
    (mkWorld (with_trail t db) false, r);
  ProfileSummary := bool;
  summaryFor := fun _ held => held;
  digest := fun x => aud_email x +:+ role_name (aud_role x) +:+ (if aud_suspended x then "!" else "") |}.

Lemma eraser_acts : eraser_ok (Ports := other_modules).
Proof.
  intros a w. cbn -[AuditDb.record].
  exists [SAudit (AuditDb.mkEntry (Some (AuditDb.actor_userId a)) AuditDb.profile_erased "user"
    (AuditDb.actor_userId a) None None None None None)].
  cbn -[AuditDb.record]. by destruct (AuditDb.record _ _ _ _).
Qed.

Definition account_row (k : nat) (clerk e : string) (x : UserRole) (gone : option instant) : UserRow :=
  mkUser (hex_uuid k) clerk e x gone gone None None None 1.

Definition ann : Actor := mkActor (hex_uuid 0) (Some "10.0.0.1") (Some "sess_a").
Definition bob : Actor := mkActor (hex_uuid 1) None (Some "sess_b").
Definition cat : Actor := mkActor (hex_uuid 2) None None.

(** Bob has proposed to make Cat an administrator. *)
Definition open_proposal : ApprovalRow :=
  mkApproval (hex_uuid 4) "role.changed" "user" (hex_uuid 2)
    (toPayload (roleChanged (hex_uuid 2) ADMIN)) (hex_uuid 1) "she runs support" 50 1000
    None None None None None None.

Definition platform : Db := mkDb
  [account_row 0 "user_a" "ann@x.co" ADMIN None; account_row 1 "user_b" "bob@x.co" ADMIN None;
   account_row 2 "user_c" "cat@x.co" USER None;
   account_row 3 "user_d" "deleted+3@deleted.invalid" USER (Some 7)]
  [open_proposal] []
  [mkSignIn (hex_uuid 5) (hex_uuid 2) "sess_c" started 40 (mkSession (Some "10.0.0.3") (Some "Edge") None None None)]
  AuditDb.empty_trail 6 100.

Definition world : World bool := mkWorld platform true.

Ltac issued k := exists k; split; [cbn; lia|done].
Ltac each := repeat (apply Forall_cons; split); try apply Forall_nil_2.

Lemma platform_wf : acct_wf platform.
Proof.
  split.
  - by apply (bool_decide_unpack _).
  - each; [issued 0%nat|issued 1%nat|issued 2%nat|issued 3%nat].
  - by apply (bool_decide_unpack _).
  - by apply (bool_decide_unpack _).
  - each; by constructor.
  - by apply (bool_decide_unpack _).
  - each. issued 4%nat.
  - each; by constructor.
  - by apply (bool_decide_unpack _).
  - by apply (bool_decide_unpack _).
  - by each.
  - split; cbn; [constructor|apply NoDup_nil_2].
Qed.

Lemma ann_admitted : admitted platform ann.
Proof. split; [done|done|]. by intros ip [= <-]. Qed.
Lemma bob_admitted : admitted platform bob.
Proof. by split. Qed.
Lemma cat_admitted : admitted platform cat.
Proof. by split. Qed.

Lemma calm_rival : rival_ok (W := bool) Datatypes.id.
Proof. by apply acts_same. Qed.
End Accounts.

(** ** The theorems of identity, at the platform *)
Module Witnesses.
Import Columns_ Accounts IdentityDb Identity SecondFactor Guard.

Definition alone : Db -> Db := Datatypes.id.

(** A verifier that reads one token, and the provers of a deployment that has
    turned the bypass on. *)
Definition verifier (token : string) : result VerifiedSession :=
  if bool_decide (token = "t.a.b") then Ok (mkVerified "user_a" "sess_a" "ann@x.co" (Some (Js.of_Z 3)))
  else if bool_decide (token = "t.d.d") then Ok (mkVerified "user_d" "sess_d" "dan@x.co" None)
  else Err (SessionVerificationError "session token is not valid").
Definition provers : list AdminSecondFactor := composeSecondFactor true None 100.

Definition carrying (token : string) (name : string) : Header :=
  if bool_decide (name = AUTHORIZATION_HEADER) then one ("Bearer " +:+ token) else absent.
Definition admin_route : Route := mkRoute (Some [ADMIN]) false.

(** Ann signs in and approves Bob's proposal, Bob suspends Cat, and a webhook says
    that a new account exists. *)
Definition day : list (turn (W := bool)) :=
  [mkTurn (CActivate admin_route (carrying "t.a.b")) calm alone;
   mkTurn (CApprove ann (hex_uuid 4) "agreed") calm alone;
   mkTurn (CSuspend bob (hex_uuid 2) "by mistake") calm alone;
   mkTurn (CEvent "evt_1" (user_upserted "user_e" "eve@x.co")) calm alone].

Lemma day_ok : Forall turn_ok day.
Proof. repeat (apply Forall_cons; split; [split; [apply calm_rival|apply does_id]|]). apply Forall_nil_2. Qed.

Lemma role_changes_take_two_witness : exists a approver t,
  a ∈ approvals (idb (run verifier provers day world)) /\
  backs a (hex_uuid 2) (role_in (idb (run verifier provers day world)) (hex_uuid 2)) /\
  ~ approved_in (idb world) (appr_id a) /\
  appr_approvedById a = Some approver /\ approver <> appr_proposedById a /\
  known (idb (run verifier provers day world)) approver = true /\
  known (idb (run verifier provers day world)) (appr_proposedById a) = true /\
  appr_approvedAt a = Some t /\ t < appr_expiresAt a.
Proof.
  apply (role_changes_take_two verifier provers eraser_acts day world (hex_uuid 2) day_ok platform_wf).
  vm_compute. discriminate.
Defined.

Lemma accounts_stay_distinct_witness : exists r',
  r' ∈ users (idb (run verifier provers day world)) /\ user_id r' = hex_uuid 2 /\
  user_clerkUserId r' = "user_c" /\ user_createdAt r' = 1.
Proof.
  destruct (accounts_stay_distinct verifier provers eraser_acts day world day_ok platform_wf) as (_ & H & _).
  apply (H (account_row 2 "user_c" "cat@x.co" USER None)). by do 2 right; left.
Defined.

Lemma deleted_stays_out_witness :
  canActivate calm alone verifier provers (mkRoute None true) (carrying "t.d.d") (run verifier provers day world) =
    (run verifier provers day world, Err UnauthorizedException).
Proof.
  eapply (proj2 (deleted_stays_out verifier provers eraser_acts day world
    (account_row 3 "user_d" "deleted+3@deleted.invalid" USER (Some 7)) calm alone
    (mkVerified "user_d" "sess_d" "dan@x.co" None) None day_ok platform_wf ltac:(by do 3 right; left) eq_refl eq_refl));
    by vm_compute.
Defined.

Lemma trail_only_grows_witness :
  AuditDb.entries (trail (idb world)) `prefix_of` AuditDb.entries (trail (idb (run verifier provers day world))) /\
  NoDup (AuditDb.audit_id <$> AuditDb.entries (trail (idb (run verifier provers day world)))).
Proof. apply (trail_only_grows verifier provers eraser_acts day world day_ok platform_wf). Defined.

Lemma delivery_applied_once_witness :
  let claimed_ := mkWorld (fst (claim (mkWebhook CLERK_PROVIDER "evt_9" "user.deleted") platform)) true in
  applyEvent calm alone "evt_9" (user_deleted "user_c") claimed_ = (claimed_, Ok false).
Proof.
  exact (proj1 (delivery_applied_once eraser_acts "evt_9" (user_deleted "user_c") (user_deleted "user_c") world
    (mkWorld (fst (claim (mkWebhook CLERK_PROVIDER "evt_9" "user.deleted") platform)) true) [] calm calm alone alone
    platform_wf calm_rival does_id eq_refl)).
Defined.

Lemma suspend_outcomes_witness :
  snd (suspend calm ann (hex_uuid 1) "spam" world) =
    Ok (toMirroredUser (suspended_row ann "spam" 100 (account_row 1 "user_b" "bob@x.co" ADMIN None))).
Proof.
  pose proof (suspend_outcomes ann (hex_uuid 1) "spam" world platform_wf ann_admitted) as H.
  replace (suspendable (idb world) ann (hex_uuid 1)) with (Some (account_row 1 "user_b" "bob@x.co" ADMIN None)) in H
    by (by vm_compute).
  by rewrite H.
Defined.

Lemma reinstate_undoes_suspend_witness : exists w1 w2 u u',
  suspend calm ann (hex_uuid 1) "spam" world = (w1, Ok u) /\
  reinstate calm cat (hex_uuid 1) "a mistake" w1 = (w2, Ok u') /\
  toMirroredUser <$> users (idb w2) = toMirroredUser <$> users (idb world).
Proof.
  destruct (suspend calm ann (hex_uuid 1) "spam" world) as [w1 [u|]] eqn:H; [|by vm_compute in H].
  destruct (reinstate_undoes_suspend ann cat (hex_uuid 1) "spam" "a mistake" world w1 u platform_wf ann_admitted
    cat_admitted H) as (w2 & u' & H1 & H2 & _).
  by exists w1, w2, u, u'.
Defined.

(** Ann may approve what Bob proposed; Bob may not. *)
Lemma approve_outcomes_witness :
  is_ok (snd (approve calm ann (hex_uuid 4) "agreed" world)) = true /\
  exists e, approve calm bob (hex_uuid 4) "agreed" world = (world, Err e).
Proof.
  pose proof (approve_outcomes ann (hex_uuid 4) (hex_uuid 4) "agreed" world platform_wf ann_admitted (read_hex 4)) as Ha.
  pose proof (approve_outcomes bob (hex_uuid 4) (hex_uuid 4) "agreed" world platform_wf bob_admitted (read_hex 4)) as Hb.
  split.
  - destruct Ha as [[(r & p & t & p' & _ & _ & H)|(e & H & _)] _]; [by rewrite H|].
    apply (f_equal (fun x => is_ok (snd x))) in H. vm_compute in H. discriminate H.
  - destruct Hb as [[(r & p & t & p' & _ & _ & H)|(e & H & _)] _]; [|by exists e].
    apply (f_equal (fun x => is_ok (snd x))) in H. vm_compute in H. discriminate H.
Defined.

Lemma deletion_outcomes_witness : exists w1,
  erase cat world = (w1, Ok tt) /\
  requestDeletion calm cat world =
    (mkWorld (after_deletion cat (account_row 2 "user_c" "cat@x.co" USER None) (idb w1)) (rest w1), Ok tt).
Proof.
  destruct (erase cat world) as [w1 [[]|]] eqn:H; [|by vm_compute in H]. exists w1. split; [done|].
  assert (acct_wf (idb w1)) as Hwf.
  { destruct (eraser_acts cat world) as [ss Hss]. rewrite H in Hss. cbn [fst] in Hss. rewrite Hss.
    apply exec_evolves, platform_wf. }
  assert (users (idb w1) = users (idb world)) as Hu by (by injection H as <-).
  assert (admitted (idb w1) cat) as Hadm by (by injection H as <-).
  pose proof (deletion_outcomes cat world w1 (Ok tt) H Hu Hwf Hadm) as Hd.
  replace (target_of (AuditDb.actor_userId cat) (idb world)) with (Some (account_row 2 "user_c" "cat@x.co" USER None))
    in Hd by (by vm_compute).
  cbn [user_deletedAt account_row is_set] in Hd.
  replace (email_taken _ _ (idb w1)) with false in Hd by (by injection H as <-; vm_compute).
  apply Hd.
Defined.

Lemma somebody_can_administer_witness :
  (1 <= countAdministrators (idb (fst (suspend calm ann (hex_uuid 1) "spam" world))))%nat /\
  (1 <= countAdministrators (idb (fst (approve calm ann (hex_uuid 4) "agreed" world))))%nat.
Proof.
  destruct (somebody_can_administer ann world platform_wf ann_admitted) as [H1 H2]; [by vm_compute; lia|].
  split; [apply H1|]. apply (H2 (hex_uuid 4) (hex_uuid 4)). by vm_compute.
Defined.

Lemma provisioning_converges_witness :
  let db' := fst (upsert alone "user_a" "new@x.co" platform) in
  exists r, r ∈ users db' /\ user_clerkUserId r = "user_a" /\
    (forall r', r' ∈ users db' -> user_clerkUserId r' = "user_a" -> r' = r).
Proof.
  pose proof (provisioning_converges alone "user_a" "new@x.co" platform platform_wf does_id) as H.
  cbv zeta. destruct (upsert alone "user_a" "new@x.co" platform) as [db' [u|e]] eqn:Hu; cbn [fst].
  - destruct H as (r & H1 & H2 & _ & H3 & _). by exists r.
  - exfalso. vm_compute in Hu. discriminate.
Defined.

Lemma bypass_is_last_witness :
  proof (prove (Js.of_Z 10) (composeSecondFactor true None 100)
    (mkEvidence (mkVerified "user_a" "sess_a" "ann@x.co" None) (carrying "t.a.b"))) <> None /\
  proof (prove (Js.of_Z 10) (composeSecondFactor false None 100)
    (mkEvidence (mkVerified "user_a" "sess_a" "ann@x.co" None) (carrying "t.a.b"))) = None.
Proof.
  destruct (proof (prove (Js.of_Z 10) (composeSecondFactor true None 100)
    (mkEvidence (mkVerified "user_a" "sess_a" "ann@x.co" None) (carrying "t.a.b")))) as [a|] eqn:H;
    [|by vm_compute in H].
  split; [done|].
  apply (proj2 (bypass_is_last true None 100 _ _ a) H). vm_compute in H. by injection H as <-.
Defined.

Lemma guard_admits_witness : exists w' ctx,
  canActivate calm alone verifier provers admin_route (carrying "t.a.b") world = (w', Ok ctx) /\
  role (req_user ctx) ∈ [ADMIN] /\
  admitted (idb w') (AuditDb.mkActor (id (req_user ctx)) (req_clientIp ctx) (Some (req_sessionId ctx))).
Proof.
  destruct (canActivate calm alone verifier provers admin_route (carrying "t.a.b") world) as [w' [ctx|]] eqn:H;
    [|by vm_compute in H].
  destruct (guard_admits verifier provers calm alone calm_rival does_id admin_route
    (carrying "t.a.b") world w' ctx platform_wf H) as ((token & s & _ & _ & _ & _ & Hroles) & _ & Hadm).
  exists w', ctx. split; [done|]. split; [|done]. by apply (proj1 (Hroles [ADMIN] eq_refl ltac:(done))).
Defined.

(** *** Audit *)
Definition two_entries : AuditDb.Trail :=
  fst (AuditDb.record 5 (fun _ => true) (AuditDb.mkEntry (Some (hex_uuid 0)) AuditDb.account_suspended "user"
    (hex_uuid 2) None None (Some "10.0.0.1") (Some "sess_a") (Some "spam"))
   (fst (AuditDb.record 3 (fun _ => true) (AuditDb.mkEntry (Some (hex_uuid 2)) AuditDb.profile_created "user"
    (hex_uuid 2) None None None None None) AuditDb.empty_trail))).

Lemma activity_page_is_newest_witness : exists t' page,
  Audit.listActivityFor (fun t => t) (hex_uuid 2) (Js.of_Z 1) two_entries = (t', Ok page) /\
  StronglySorted Audit.newestFirst page /\ top Audit.act_createdAt 1 page (history (hex_uuid 2) two_entries t').
Proof.
  destruct (activity_page_is_newest (fun t => t) (hex_uuid 2) (hex_uuid 2) (Js.of_Z 1) two_entries)
    as (t' & page & H & _ & Hs & Ht & _); [by apply read_hex|].
  exists t', page. split; [done|]. split; [done|].
  by replace (Z.to_nat (Audit.bound (Js.of_Z 1))) with 1%nat in Ht by (by vm_compute).
Defined.

Lemma export_says_when_cut_witness : exists t' page,
  Audit.exportActivityFor (fun t => t) (hex_uuid 2) two_entries = (t', Ok page) /\
  Paging.truncated page = (Audit.EXPORTED_ACTIVITY_LIMIT <? Z.of_nat (length (history (hex_uuid 2) two_entries t'))).
Proof.
  destruct (export_says_when_cut (fun t => t) (hex_uuid 2) (hex_uuid 2) two_entries) as (t' & page & H & _ & Ht);
    [by apply read_hex|].
  by exists t', page.
Defined.
End Witnesses.

(** ** What check-then-act loses

    Requests that read before another commits and write after it. *)
Module Races.
Import Columns_ Accounts IdentityDb Identity Guard.

(** The other request runs at the second wait of the first. *)
Definition at_second (f : World bool -> World bool) (w : World bool) : World bool :=
  if rest w then mkWorld (idb w) false else mkWorld (idb (f w)) true.
Definition at_first (f : World bool -> World bool) (w : World bool) : World bool :=
  if rest w then mkWorld (idb (f w)) false else w.

Lemma at_second_ok (f : World bool -> World bool) : rival_ok f -> rival_ok (at_second f).
Proof. intros Hf w. unfold at_second, modify. cbn. destruct (rest w); [by exists []|]. apply (Hf w). Qed.

(** Two administrators suspend each other at once, and nobody is left. *)
Definition bob_suspends_ann (w : World bool) : World bool := fst (suspend calm bob (hex_uuid 0) "rude" w).
Lemma mutual_suspension_leaves_nobody :
  countAdministrators platform = 2%nat /\
  is_ok (snd (suspend (at_second bob_suspends_ann) ann (hex_uuid 1) "spam" world)) = true /\
  countAdministrators (idb (fst (suspend (at_second bob_suspends_ann) ann (hex_uuid 1) "spam" world))) = 0%nat.
Proof. by vm_compute. Qed.

(** Suspending oneself is refused, except under another spelling of the id. *)
Lemma self_suspension_by_spelling :
  is_ok (snd (suspend calm ann (AuditDb.actor_userId ann) "spam" world)) = false /\
  (user_suspendedAt <$> by_user_id (AuditDb.actor_userId ann)
    (idb (fst (suspend calm ann "ABCDEF00-0000-4000-8000-000000000000" "spam" world)))) = Some (Some 100).
Proof. by vm_compute. Qed.

(** A sign-in that read the account before it was erased writes its address back. *)
Definition cat_leaves (w : World bool) : World bool := fst (requestDeletion calm cat w).
Definition cat_returns : VerifiedSession := mkVerified "user_c" "sess_c" "cat@new.co" None.
Lemma stale_sign_in_undoes_erasure :
  (fun r => (user_email r, is_set (user_deletedAt r))) <$>
    by_user_id (hex_uuid 2) (idb (fst (resolveSession (at_first cat_leaves) Datatypes.id cat_returns None world))) =
  Some ("cat@new.co", true).
Proof. by vm_compute. Qed.

(** The last administrator may delete themselves. *)
Lemma deletion_spares_nobody :
  countAdministrators (idb (fst (requestDeletion calm bob (fst (requestDeletion calm ann world))))) = 0%nat.
Proof. by vm_compute. Qed.
End Races.
