(* ===== verification/QuoteExamples.v ===== *)
(** * Concrete quotes

    A drill in London, quoted across the night the clocks go forward, blocked by its
    owner, and erased: the theorems of quotes and calendars applied where their
    hypotheses hold. *)

From S2P Require Import Prelude JsNumber Text Money Ledger LedgerStore Pricing PricingProofs.
From S2P Require Import BookingState BookingStore Bookings LocalTime Quotes QuoteTheorems Calendar.
From S2P Require Import PaymentsRace.

#[local] Open Scope string_scope.
#[local] Open Scope list_scope.
#[local] Open Scope Z_scope.

Import Money (mkMoney).
Import Money Pricing Bookings Time RentalPeriod QuoteDb Quotes.

Module Drill.
#[local] Instance ascii_intl : Intl :=
  {| format m := currency m +:+ " " +:+ match toMajorString m with Some s => s | None => "" end |}.

Definition gbp (a : Z) : Money := mkMoney a "GBP".
Definition security : DamageSecurityPolicy := mkSecurity (gbp 5000) 2000 (gbp 50000).

Definition drill : QuotableListing :=
  mkListing "l1" "owner" "Drill" "Tools" (mkRates (Some (gbp 2000)) (Some (gbp 5000)) (Some (gbp 9000)))
    example_policy (Some security) (gbp 30000) 28 24 "v1".

Lemma pounds_priced (limit a : Z) : 0 <= a <= limit -> priced "GBP" limit (gbp a).
Proof. by split. Qed.

Lemma drill_valid : valid_listing "GBP" drill.
Proof.
  split.
  - by apply (bool_decide_unpack _).
  - split; [by eexists|]. by intros m [[= <-]|[[= <-]|[= <-]]].
  - by split_and!.
  - intros p [= <-]. split; [by apply pounds_priced|by apply pounds_priced|done|done].
  - by apply pounds_priced.
Qed.

Definition shop (i : string) (_ : ()) : option QuotableListing := if decide (i = "l1") then Some drill else None.

Lemma shop_valid (i : string) (w : ()) (l : QuotableListing) :
  shop i w = Some l -> exists cur, valid_listing cur l.
Proof. unfold shop. destruct (decide _); [|done]. intros [= <-]. exists "GBP". apply drill_valid. Qed.

Definition any_row (_ : QuoteRow) : bool := true.

(** Noon on 20 March 2026. *)
Definition noon : instant := 20532 * DAY + 12 * HOUR.
Definition monday : World () := mkWorld empty_db (BookingDb.empty_db noon) tt.

(** Friday 27 March to Tuesday 31 March: the clocks go forward on the Sunday. *)
Definition request : QuoteRequest := mkRequest "2026-03-27" "2026-03-31" "SW1A 1AA".

Definition quoted : World () := fst (quote any_row shop Datatypes.id "l1" "renter" request monday).

Lemma quoted_lawful : lawful (qdb quoted).
Proof.
  apply (sound_quote any_row shop shop_valid Datatypes.id); [done|]. apply lawful_empty.
Qed.

Lemma today_is_date : is_date (day_of (now monday)).
Proof. vm_compute. split; discriminate. Qed.
Lemma in_time : Z.abs (now monday + QUOTE_VALIDITY_MINUTES * 60000) <= MAX_INSTANT.
Proof. vm_compute. discriminate. Qed.
Lemma from_friday : parse_date (startDate request) = Ok 20539.
Proof. vm_compute. reflexivity. Qed.
Lemma to_tuesday : parse_date (endDate request) = Ok 20543.
Proof. vm_compute. reflexivity. Qed.
Lemma five_days : 20539 <= 20543 < LAST_DATE.
Proof. vm_compute. split; [discriminate|reflexivity]. Qed.

Lemma not_refused : refusal_of drill "renter" 20539 20543 (day_of (now monday))
  (BookingDb.reasonUnavailable (l_id drill) (start_of 20539) (start_of (20543 + 1)) (bdb monday)) = None.
Proof. vm_compute. reflexivity. Qed.
Lemma large_enough (pr : PricedRental) :
  priceRental (20543 - 20539 + 1) (weekday 20539) (l_rates drill) (l_currentFeePolicy drill) = Ok (Some pr) ->
  (amount (total pr) <? amount (minimumBookingTotal (l_currentFeePolicy drill))) = false.
Proof. intros H. vm_compute in H. injection H as <-. vm_compute. reflexivity. Qed.

(** A weekend and two days. *)
Lemma quote_outcomes_witness : exists wire,
  snd (quote any_row shop Datatypes.id "l1" "renter" request monday) = Ok (Some wire) /\
  rq_startDate wire = "2026-03-27" /\ rq_endDate wire = "2026-03-31" /\ rq_days wire = 5.
Proof.
  assert (forall l, shop "l1" tt = Some l -> daily (l_rates l) = None \/ valid_listing "GBP" l) as Hl by (intros l [= <-]; right; apply drill_valid).
  assert (forall d', parse_date (endDate request) = Ok d' -> d' < LAST_DATE) as Hlast
    by (intros d' H; rewrite to_tuesday in H; injection H as <-; apply five_days).
  pose proof (quote_outcomes any_row shop (fun _ => eq_refl) "GBP" "l1" "renter" request monday
    Hlast today_is_date in_time lawful_empty Hl) as H.
  change (shop "l1" (rest monday)) with (Some drill) in H. rewrite from_friday, to_tuesday in H. rewrite not_refused in H.
  destruct H as (pr & pct & Hpr & _ & H). rewrite (large_enough pr Hpr) in H.
  destruct H as (wire & row & Hrun & _ & H1 & H2 & H3 & _). exists wire. rewrite Hrun. by split_and!.
Defined.

Definition another (w : World ()) : World () :=
  fst (quote any_row shop Datatypes.id "l1" "renter" request w).

(** Two people quote the drill at once. *)
Lemma quotes_stay_lawful_witness :
  length (quotes (qdb (fst (quote any_row shop another "l1" "other" request monday)))) = 4%nat /\
  lawful (qdb (fst (quote any_row shop another "l1" "other" request monday))).
Proof.
  split; [by vm_compute|].
  apply (quotes_stay_lawful any_row shop shop_valid (fun w => fst (quote any_row shop another "l1" "other" request w)) monday);
    [|apply lawful_empty].
  apply i_quote, (i_quote any_row shop Datatypes.id). by apply i_elsewhere.
Defined.

Lemma erasure_mirrors_export_witness : exists w',
  eraseFor "renter" quoted = (w', Ok 1%nat) /\ quotes (qdb w') = [].
Proof.
  destruct (erasure_mirrors_export (fun _ => "Drill") "renter" quoted quoted_lawful) as (w' & H1 & _ & _ & _).
  exists w'. replace (length _) with 1%nat in H1 by (by vm_compute). split; [done|].
  vm_compute in H1. by injection H1 as <-.
Defined.

Definition ownerOf (l : string) : option string := if decide (l = "l1") then Some "owner" else None.
Definition away : Availability.AvailabilityBlockRequest :=
  Availability.mkBlockRequest "2026-03-28" "2026-03-30" (Some "lent to my brother").

Lemma away_from : parse_date (Availability.ab_startDate away) = Ok 20540.
Proof. vm_compute. reflexivity. Qed.
Lemma away_to : parse_date (Availability.ab_endDate away) = Ok 20542.
Proof. vm_compute. reflexivity. Qed.
Lemma away_days : 20540 <= 20542 < LAST_DATE.
Proof. vm_compute. split; [discriminate|reflexivity]. Qed.
Lemma away_horizon : is_date (day_of (BookingDb.bclock (bdb monday)) + Availability.MAX_BLOCK_HORIZON_DAYS).
Proof. vm_compute. split; discriminate. Qed.
Lemma away_instant : Z.abs (start_of (20542 + 1) - 1) <= MAX_INSTANT.
Proof. vm_compute. discriminate. Qed.

(** The owner's block closes the Sunday of the three days. *)
Lemma block_outcomes_witness : exists db',
  BookingDb.reasonUnavailable "l1" (start_of 20541) (start_of 20542) db' = Some BookingDb.blocked /\
  fst (Availability.block ownerOf Datatypes.id "l1" "owner" away (bdb monday)) = db'.
Proof.
  destruct (block_outcomes ownerOf "l1" "owner" away 20540 20542 (bdb monday) away_from away_to away_days
    today_is_date away_horizon away_instant) as [H1 H2].
  eexists. split; [apply (H2 20541 20541); lia|]. rewrite H1. vm_compute. reflexivity.
Defined.
End Drill.
