(* ===== verification/ListingExamples.v ===== *)
(** * Concrete listings

    A category of tools, a drill drafted, published, hidden and erased: the theorems
    of the catalogue applied where their hypotheses hold, and the races lost. *)

From Stdlib Require Import Ascii.
From Stdlib Require String.
From S2P Require Import Prelude JsNumber Text Json Money Ledger LedgerStore Pricing PricingProofs.
From S2P Require Import Columns Bookings AuditLog LocalTime CoreText Answers AnswersProofs UnitEconomics.
From S2P Require Import CatalogueStore ListingStore ListingRows Listings ListingProofs ListingTheorems ListingOutcomes.
From S2P Require Import Calendar IdentityExamples.

#[local] Open Scope string_scope.
#[local] Open Scope list_scope.
#[local] Open Scope Z_scope.

Import Money (mkMoney).
Import Pricing Attributes Transport Publication CatalogueDb ListingDb AuditDb IdentityExamples.Columns_.

(** ** A cipher that hides nothing *)
Module Cipher.
Fixpoint bits (p : positive) : string :=
  match p with
  | xH => ""
  | xO q => String "0" (bits q)
  | xI q => String "1" (bits q)
  end.
Fixpoint unbits (s : string) : positive :=
  match s with
  | "" => xH
  | String c s' => if bool_decide (c = "0"%char) then xO (unbits s') else xI (unbits s')
  end.

Lemma unbits_bits (p : positive) : unbits (bits p) = p.
Proof. induction p as [p IH|p IH|]; cbn; [by rewrite IH..|done]. Qed.

Definition plain : Type := nat * (string * (string * option string)).

#[global, program] Instance see_through : FieldEncryptor := {|
  seal n detail context := bits (encode ((n, (context, detail)) : plain));
  open_ s context :=
    match decode (unbits s) : option plain with
    | Some (_, (c, detail)) => if bool_decide (c = context) then Ok detail else Err (DecryptionError "wrong context")
    | None => Err (DecryptionError "not a ciphertext")
    end |}.
Next Obligation. intros n detail context. cbn. rewrite unbits_bits, decode_encode. by rewrite bool_decide_eq_true_2. Qed.
End Cipher.

(** ** Everything else: the booked listings, and a gazetteer of one postcode *)
Module Tools.
Definition point : LocatedListingPoint := mkPoint (Js.of_Z 51) (Js.of_Z 0) 90 600 (Js.of_Z 51) (Js.of_Z 0).
Definition find_point (p : string) : option LocatedListingPoint := if bool_decide (p = "SW1A 1AA") then Some point else None.

#[global] Instance elsewhere : ListingPorts (list string) := {|
  account _ _ := true;
  isPublicationEnabled _ := true;
  findOwnerStatuses ids _ := list_to_map ((fun i => (i, private_owner)) <$> ids);
  locate p := mret (find_point p);
  relocate p _ := mret (find_point p);
  findWithin _ _ := mret (Some (mkProximityPage [] false));
  sign i := mret ((fun x => mkMediaImage (img_key x) (img_width x) (img_height x)) <$> i);
  signAll _ := mret [];
  findBookedListings ids booked := List.filter (fun i => bool_decide (i ∈ booked)) ids;
  has_booking booked i := bool_decide (i ∈ booked);
  eraseForListings _ := mret tt;
  digest_category c := ac_name c;
  digest_moderation m := match am_moderationReason m with Some why => why | None => "" end |}.

Lemma booked_asked (ids booked : list string) : findBookedListings ids booked ⊆ ids.
Proof. by intros i [? _]%elem_of_bfilter. Qed.

Definition gbp (a : Z) : Money.Money := mkMoney a "GBP".
Definition admin : Actor := mkActor (hex_uuid 900) None None.
Definition owner : string := hex_uuid 901.
Definition stranger : string := hex_uuid 902.

Definition questions : list CategoryAttribute :=
  [mkAttribute "make" "Make" true (a_text 40); mkAttribute "weight_kg" "Weight" false (a_number "kg" 1)].
Definition conf : CategoryConfiguration := {|
  cc_name := "Tools"; cc_riskLevel := low; cc_reportableActivity := a_none; cc_attributes := questions;
  cc_transportOptions := [mkTransportOption hand_carryable (Some 20); mkTransportOption van_required None];
  cc_feePolicy := mkPolicy 1500 1000 (gbp 2500) (gbp 100);
  cc_damageSecurity := Some (mkSecurity (gbp 5000) 2000 (gbp 50000));
  cc_maximumRentalDays := 28; cc_requestExpiryHours := 48 |}.
Definition renamed : CategoryConfiguration := {|
  cc_name := "Power tools"; cc_riskLevel := low; cc_reportableActivity := a_none; cc_attributes := questions;
  cc_transportOptions := []; cc_feePolicy := mkPolicy 1500 1000 (gbp 2500) (gbp 100); cc_damageSecurity := None;
  cc_maximumRentalDays := 28; cc_requestExpiryHours := 48 |}.

Lemma conf_lawful : lawful_configuration conf.
Proof.
  split; [split|by split|by intros p [= <-]].
  - by apply (bool_decide_unpack _).
  - done.
  - repeat (apply Forall_cons; split); [done|by split|by apply Forall_nil].
Qed.

Definition at_home : ListingCollectionLocation := mkLocation "1 The Mall" None "London" "SW1A 1AA".
Definition drill : Listings.SubmittedListingEdit := {|
  Listings.sl_title := "Drill"; Listings.sl_description := "A drill."; Listings.sl_replacementValue := gbp 12000;
  Listings.sl_attributes := j_object [("make", j_string "Acme"); ("weight_kg", j_string "2.5")];
  Listings.sl_transportRequirement := Some hand_carryable; Listings.sl_requiresTwoPersonLift := false;
  Listings.sl_rates := mkRates (Some (gbp 1500)) None (Some (gbp 6000));
  Listings.sl_collectionLocation := Some at_home; Listings.sl_categoryVersionNumber := 1 |}.

Lemma drill_lawful : lawful_submission drill.
Proof. split; [done|]. by intros m [[= <-]|[?|[= <-]]]. Qed.

(** Alone: nobody else commits anything. *)
Definition alone (q : request) : turn (list string) := mkTurn (W := list string) Datatypes.id Datatypes.id q.

Lemma alone_turn (who : party -> Prop) (q : request) : who (author q) -> lawful q -> turn_of who (alone q).
Proof. by split. Qed.

Definition start : World (list string) := mkWorld (empty_db 1000) [].
Definition drill_id : string := hex_uuid 2.
Definition opening : list (turn (list string)) :=
  [alone (RCreate admin "tools" conf "launch");
   alone (RDraft (Listings.mkSubmitted owner "tools" drill));
   alone (RPublish drill_id owner)].
Definition shop : World (list string) := schedule opening start.

Lemma opening_turns : Forall (turn_of (fun _ => True)) opening.
Proof.
  repeat (apply Forall_cons; split); [apply alone_turn..|by apply Forall_nil]; try done.
  - apply conf_lawful.
  - apply drill_lawful.
Qed.

Lemma shop_wf : catalogue_wf (cdb shop).
Proof.
  eapply wf_reach; [apply (schedule_reach booked_asked (fun _ => True)); [done|apply opening_turns|apply wf_empty_catalogue]|].
  apply wf_empty_catalogue.
Qed.

Example shop_has_a_drill :
  (fun r => (li_id r, li_status r, li_outwardCode r)) <$> listings (cdb shop) = [(drill_id, PUBLISHED, Some "SW1A")].
Proof. vm_compute. reflexivity. Qed.

(** *** The theorems, applied *)
Definition rejected : turn (list string) := alone (RModerate drill_id REJECTED (Some " fake ") admin).
Definition hidden : World (list string) := schedule [rejected] shop.
Definition insist : list (turn (list string)) :=
  [alone (REdit drill_id owner drill); alone (RPublish drill_id owner); alone (RReconfigure admin "tools" renamed "new name")].

Lemma renamed_lawful : lawful_configuration renamed.
Proof. split; [apply conf_lawful|by split|done]. Qed.

Lemma hidden_wf : catalogue_wf (cdb hidden).
Proof.
  eapply wf_reach; [apply (schedule_reach booked_asked (fun _ => True)); [done| |apply shop_wf]|apply shop_wf].
  by apply Forall_singleton, alone_turn.
Qed.

Lemma insist_turns : Forall (turn_of (fun p => p <> a_moderator)) insist.
Proof.
  repeat (apply Forall_cons; split); [apply alone_turn..|by apply Forall_nil]; try done.
  - apply drill_lawful.
  - apply renamed_lawful.
Qed.

(** The drill as a table has it. *)
Definition the_drill (w : World (list string)) : ListingRow :=
  default (draft_row "" "" "" "" 0) (find_by li_id drill_id (listings (cdb w))).

Lemma the_drill_in (w : World (list string)) :
  is_Some (find_by li_id drill_id (listings (cdb w))) -> the_drill w ∈ listings (cdb w).
Proof. unfold the_drill. intros [r Hr]. rewrite Hr. by apply find_by_Some in Hr as [? _]. Qed.

Lemma drill_hidden : the_drill hidden ∈ listings (cdb hidden).
Proof. apply the_drill_in. vm_compute. by eexists. Qed.
Lemma drill_rejected : li_moderationState (the_drill hidden) <> APPROVED.
Proof. vm_compute. discriminate. Qed.

Lemma listings_stay_lawful_witness :
  Forall (turn_of (fun _ => True)) opening /\ catalogue_wf (cdb (schedule opening start)).
Proof.
  split; [apply opening_turns|].
  apply (listings_stay_lawful booked_asked opening start); [apply wf_empty_catalogue|apply opening_turns].
Defined.

Lemma hidden_until_moderated_witness :
  li_moderationState (the_drill hidden) <> APPROVED /\
  snd (Listings.findQuotable Datatypes.id (li_id (the_drill hidden)) (schedule insist hidden)) = Ok None.
Proof.
  split; [apply drill_rejected|].
  destruct (hidden_until_moderated booked_asked insist hidden (the_drill hidden) Datatypes.id hidden_wf insist_turns
    drill_hidden drill_rejected) as (_ & _ & _ & H). exact H.
Defined.

Definition others : list (turn (list string)) :=
  [alone (RReconfigure admin "tools" renamed "new name"); rejected; alone (RDraft (Listings.mkSubmitted stranger "tools" drill));
   alone (REdit drill_id stranger drill); alone (RErase (mkActor stranger None None))].

Lemma drill_owner : li_ownerId (the_drill shop) = owner.
Proof. vm_compute. reflexivity. Qed.

Lemma others_turns : Forall (turn_of (fun p => p <> an_owner (li_ownerId (the_drill shop)))) others.
Proof.
  rewrite drill_owner.
  repeat (apply Forall_cons; split); [apply alone_turn..|by apply Forall_nil]; cbn [author]; try discriminate; try done.
  - apply renamed_lawful.
  - apply drill_lawful.
  - apply drill_lawful.
Qed.
Lemma drill_in_shop : the_drill shop ∈ listings (cdb shop).
Proof. apply the_drill_in. vm_compute. by eexists. Qed.

Lemma only_the_owner_changes_witness :
  the_drill shop ∈ listings (cdb shop) /\
  exists r', r' ∈ listings (cdb (schedule others shop)) /\ moderated_only (the_drill shop) r'.
Proof.
  split; [apply drill_in_shop|].
  destruct (only_the_owner_changes booked_asked others shop (the_drill shop) shop_wf others_turns drill_in_shop)
    as (H & _). exact H.
Defined.

Lemma versions_append_only_witness :
  versions (cdb shop) `prefix_of` versions (cdb (schedule [alone (RReconfigure admin "tools" renamed "new name")] shop)).
Proof.
  destruct (versions_append_only booked_asked [alone (RReconfigure admin "tools" renamed "new name")] shop shop_wf)
    as (_ & H & _); [|exact H].
  apply Forall_singleton, alone_turn; [done|apply renamed_lawful].
Defined.

Lemma bookable_iff_witness :
  catalogue_wf (cdb shop) /\ exists q, snd (Listings.findQuotable Datatypes.id drill_id shop) = Ok (Some q).
Proof.
  split; [apply shop_wf|]. apply (proj2 (bookable_iff Datatypes.id shop drill_id shop_wf)). exists (the_drill shop).
  split; [apply drill_in_shop|]. by vm_compute.
Defined.

(** *** Races *)
Definition drafted : World (list string) := schedule (take 2 opening) start.
Definition emptied : Listings.SubmittedListingEdit := {|
  Listings.sl_title := "Drill"; Listings.sl_description := ""; Listings.sl_replacementValue := gbp 12000;
  Listings.sl_attributes := j_object []; Listings.sl_transportRequirement := None;
  Listings.sl_requiresTwoPersonLift := false; Listings.sl_rates := mkRates None None None;
  Listings.sl_collectionLocation := None; Listings.sl_categoryVersionNumber := 1 |}.

(** The owner's other tab: first a booking elsewhere, then an edit that empties the draft. *)
Definition other_tab (w : World (list string)) : World (list string) :=
  if bool_decide (rest w = []) then mkWorld (cdb w) ["another listing"]
  else serve (alone (REdit drill_id owner emptied)) w.

(** [publish] checks the listing it read and then sets the status by id: an edit in
    between leaves a published listing with nothing in it. *)
Example overtaken_publish_leaves_incomplete :
  (fun r => (li_status r, li_description r, li_dailyRateAmount r, li_outwardCode r)) <$>
    listings (cdb (fst (Listings.publish other_tab Datatypes.id drill_id owner drafted)))
  = [(PUBLISHED, "", None, None)].
Proof. vm_compute. reflexivity. Qed.

(** Two administrators reconfigure at once: the second sees the database's own error. *)
Definition other_administrator (db : Db) : Db :=
  fst (insert_version (fun _ => true) (hex_uuid 0) 2 renamed (hex_uuid 903) db).
Example overtaken_reconfiguration_is_raw :
  snd (Catalogue.reconfigure Datatypes.id other_administrator admin "tools" renamed "new name" shop)
  = Err (DatabaseError "P2002").
Proof. vm_compute. reflexivity. Qed.

(** What the audit trail digests of a category leaves out how long hires may last. *)
Example longer_hires_leave_the_digest (r : CategoryRecord) (days hours : Z) :
  let c := cr_configuration r in
  Catalogue.auditable (mkCategory (cr_id r) (cr_slug r)
    (mkConfiguration (cc_name c) (cc_riskLevel c) (cc_reportableActivity c) (cc_attributes c) (cc_transportOptions c)
       (cc_feePolicy c) (cc_damageSecurity c) days hours) (cr_versionNumber r) (cr_versionCreatedAt r) (cr_createdAt r))
  = Catalogue.auditable r.
Proof. reflexivity. Qed.
End Tools.

(** ** One request at a time *)
Module Runs.
Import Tools.
Notation nobody := Datatypes.id.

Lemma all_known (w : World (list string)) : referenced w.
Proof. by intros r _; split. Qed.

Lemma drill_fits : fits_columns drill.
Proof. split; [apply drill_lawful|done|done|done|]. by intros l [= <-]. Qed.

Lemma point_lawful (p : string) : lawful_point (find_point p).
Proof. unfold find_point. case_bool_decide; [|done]. by intros x [= <-]. Qed.

Lemma gazetteer_sound : sound_locator (W := list string).
Proof. split; [intros p k|intros p o k _]; (exists k, (find_point p); split; [done|split; [apply point_lawful|done]]). Qed.

Lemma books_honest : honest_bookings (W := list string).
Proof.
  split; [|done]. intros ids k i. cbn. unfold has_booking. cbn. rewrite elem_of_bfilter. done.
Qed.

Lemma admin_auditable (k : list string) : auditable_actor k admin.
Proof. by split; [|vm_compute|]. Qed.

Lemma opening_wf (n : nat) : catalogue_wf (cdb (schedule (take n opening) start)).
Proof.
  eapply wf_reach; [apply (schedule_reach booked_asked (fun _ => True)); [done| |apply wf_empty_catalogue]|apply wf_empty_catalogue].
  by apply Forall_take, opening_turns.
Qed.

Definition found {A} (x : result (option A)) : bool := match x with Ok (Some _) => true | _ => false end.
Lemma found_some {A} (x : result (option A)) : found x = true -> exists a, x = Ok (Some a).
Proof. destruct x as [[a|]|]; [|done..]. by exists a. Qed.
Lemma is_ok_some {A} (x : result A) : is_ok x = true -> exists a, x = Ok a.
Proof. destruct x as [a|]; [|done]. by exists a. Qed.

Definition all_listings (p : ListingRow -> bool) (w : World (list string)) : bool := forallb p (listings (cdb w)).
Lemma all_listings_at (p : ListingRow -> bool) (w : World (list string)) (r : ListingRow) :
  all_listings p w = true -> r ∈ listings (cdb w) -> p r = true.
Proof. unfold all_listings. rewrite forallb_forall. intros H Hr. by apply H, list_elem_of_In. Qed.

Lemma publish_outcomes_witness :
  referenced drafted /\ exists w' l', Listings.publish nobody nobody drill_id owner drafted = (w', Ok (Some l')) /\
    is_Some (find_visible drill_id (cdb w')).
Proof.
  split; [apply all_known|].
  pose proof (publish_outcomes drill_id owner drafted (opening_wf 2) (all_known _)) as H.
  destruct (Listings.publish nobody nobody drill_id owner drafted) as [w' x] eqn:E.
  assert (exists l', x = Ok (Some l')) as [l' ->].
  { apply (f_equal snd) in E. cbn [snd] in E. rewrite <- E. apply found_some. vm_compute. reflexivity. }
  exists w', l'. split; [reflexivity|]. destruct H as (r & l & [Hr Hid _ _] & _ & _ & _ & _ & Hv). apply Hv.
  apply (all_listings_at (fun r => bool_decide (li_moderationState r = APPROVED)) drafted r) in Hr;
    [by apply bool_decide_eq_true in Hr|vm_compute; reflexivity].
Defined.

Lemma draft_outcomes_witness :
  fits_columns drill /\ exists w' l, Listings.createDraft nobody nobody (Listings.mkSubmitted owner "tools" drill) shop = (w', Ok l) /\
    lr_collectionLocation l = Some at_home /\ lr_status l = DRAFT.
Proof.
  split; [apply drill_fits|].
  pose proof (draft_outcomes (Listings.mkSubmitted owner "tools" drill) shop shop_wf eq_refl drill_fits gazetteer_sound) as H.
  destruct (Listings.createDraft nobody nobody (Listings.mkSubmitted owner "tools" drill) shop) as [w' x] eqn:E.
  assert (exists l, x = Ok l) as [l ->].
  { apply (f_equal snd) in E. cbn [snd] in E. rewrite <- E. apply is_ok_some. vm_compute. reflexivity. }
  exists w', l. split; [reflexivity|]. destruct H as (r & values & _ & _ & _ & _ & Hp & _ & _ & Hs & _). split; [exact Hp|exact Hs].
Defined.

Lemma edit_outcomes_witness :
  fits_columns drill /\ (exists w' l', Listings.edit nobody nobody drill_id owner drill shop = (w', Ok (Some l')) /\
    complete (Listings.candidate_of l' (owner_status owner w'))) /\
  exists blockers, snd (Listings.edit nobody nobody drill_id owner emptied shop) = Err (PublishedListingIncompleteError blockers).
Proof.
  split; [apply drill_fits|]. split; [|vm_compute; eexists; reflexivity].
  pose proof (edit_outcomes drill_id owner drill shop shop_wf (all_known _) drill_fits gazetteer_sound) as H.
  destruct (Listings.edit nobody nobody drill_id owner drill shop) as [w' x] eqn:E.
  assert (exists l', x = Ok (Some l')) as [l' ->].
  { apply (f_equal snd) in E. cbn [snd] in E. rewrite <- E. apply found_some. vm_compute. reflexivity. }
  exists w', l'. split; [reflexivity|]. destruct H as (r & l & r' & v & values & [Hr _ _ Hl] & _ & _ & _ & _ & _ & Hc).
  apply Hc. destruct (record_state _ _ _ Hl) as [-> _].
  apply (all_listings_at (fun r => bool_decide (li_status r = PUBLISHED)) shop r) in Hr;
    [by apply bool_decide_eq_true in Hr|vm_compute; reflexivity].
Defined.

Lemma moderate_outcomes_witness :
  auditable_actor (rest shop) admin /\
  snd (Listings.moderate nobody nobody drill_id REJECTED (Some "  ") admin shop) = Err ModerationReasonRequiredError /\
  exists w' l', Listings.moderate nobody nobody drill_id REJECTED (Some " fake ") admin shop = (w', Ok (Some l')) /\
    lr_moderationReason l' = Some "fake".
Proof.
  split; [apply admin_auditable|]. split; [vm_compute; reflexivity|].
  pose proof (moderate_outcomes drill_id REJECTED (Some " fake ") admin shop shop_wf (all_known _) (admin_auditable _)) as H.
  destruct (Listings.moderate nobody nobody drill_id REJECTED (Some " fake ") admin shop) as [w' x] eqn:E.
  assert (exists l', x = Ok (Some l')) as [l' ->].
  { apply (f_equal snd) in E. cbn [snd] in E. rewrite <- E. apply found_some. vm_compute. reflexivity. }
  exists w', l'. split; [reflexivity|]. destruct H as (r & l & _ & _ & _ & _ & Hl & _). rewrite Hl. reflexivity.
Defined.

Definition booked_shop : World (list string) := mkWorld (cdb shop) [drill_id].

Lemma erase_outcomes_witness :
  honest_bookings (W := list string) /\
  listings (cdb (fst (Listings.eraseFor nobody (mkActor owner None None) shop))) = [] /\
  let w' := fst (Listings.eraseFor nobody (mkActor owner None None) booked_shop) in
  the_drill shop ∈ listings (cdb w') /\ location_of (cdb w') (li_id (the_drill shop)) = None.
Proof.
  split; [apply books_honest|]. split; [vm_compute; reflexivity|].
  pose proof (erase_outcomes (mkActor owner None None) booked_shop shop_wf books_honest) as H.
  destruct (Listings.eraseFor nobody (mkActor owner None None) booked_shop) as [w' x].
  change (eraseForListings ?i ?k) with (k, @Ok () tt) in H. cbv beta iota zeta in H.
  destruct H as (-> & _ & Hrows & Hplaces & _). cbn [fst].
  split.
  - apply Hrows. split; [exact drill_in_shop|]. intros _. vm_compute. reflexivity.
  - rewrite (Hplaces _ drill_in_shop). rewrite bool_decide_eq_true_2; [reflexivity|exact drill_owner].
Defined.
End Runs.

(** ** Answers, postcodes and margins *)
Module Figures.
Import CostModel UnitEconomics MarginRule.

Definition answers : ListingAttributeValues := <["make" := v_text "Acme"]> (<["weight_kg" := v_number 25]> ∅).

Lemma answers_resubmit_witness :
  lawful_schema Tools.questions /\
  validateAttributeValues Tools.questions (resubmission Tools.questions answers) = inr answers.
Proof.
  split; [exact (lc_schema _ Tools.conf_lawful)|].
  apply (answers_resubmit Tools.questions (Listings.sl_attributes Tools.drill)); [exact (lc_schema _ Tools.conf_lawful)|].
  vm_compute. reflexivity.
Defined.

Lemma postcode_canonical_witness :
  Postcode.parse " sw1a1aa" = Ok "SW1A 1AA" /\ Postcode.parse "SW1A 1AA" = Ok "SW1A 1AA".
Proof.
  assert (Postcode.parse " sw1a1aa" = Ok "SW1A 1AA") as H by (vm_compute; reflexivity).
  split; [exact H|]. exact (proj1 (Postcode.postcode_canonical _ _ H)).
Defined.

Ltac a_fraction := split; [vm_compute; split; discriminate|vm_compute; reflexivity].
Ltac a_price := split; [reflexivity|split; [discriminate|vm_compute; discriminate]].
Ltac a_rate := split; [a_fraction|a_price].

Lemma uk_valid : valid_model "GBP" UK_STRIPE_COST_MODEL.
Proof.
  split; [a_rate|a_rate|a_rate|a_price|a_price|a_price|a_price| |a_price|a_fraction|a_fraction|a_price].
  exists 2. split; [reflexivity|split; discriminate].
Qed.

Definition quiet : BookingShape := mkShape (Tools.gbp 1000) (Tools.gbp 0) (Js.of_Z 1).
Definition cheap : CategoryFeePolicy := mkPolicy 1000 500 (Tools.gbp 500) (Tools.gbp 0).

Lemma break_even_is_first_witness :
  valid_model "GBP" UK_STRIPE_COST_MODEL /\
  exists found, breakEvenOwnerActivity quiet cheap UK_STRIPE_COST_MODEL 100 = Ok found /\
    first_profit quiet cheap UK_STRIPE_COST_MODEL 1 100 found.
Proof.
  split; [exact uk_valid|]. apply (break_even_is_first "GBP"); [by split|by split| |exact uk_valid|done].
  by split_and!.
Defined.
Example quiet_break_even : breakEvenOwnerActivity quiet cheap UK_STRIPE_COST_MODEL 100 = Ok (Some 3).
Proof. vm_compute. reflexivity. Qed.
End Figures.
