(* ===== verification/SearchExamples.v ===== *)
(** * Concrete searches

    A town on a flat earth, with a gazetteer of two postcodes: the theorems of search
    and location applied where their hypotheses hold, and two ways in which a listing
    is published at a second point. *)

From Stdlib Require String.
From S2P Require Import Prelude JsNumber Text Json Money Ledger LedgerStore Pricing Columns BookingState BookingStore Bookings.
From S2P Require Import AuditLog LocalTime CoreText Answers UnitEconomics CatalogueStore ListingStore ListingRows.
From S2P Require Import Listings ListingProofs ListingTheorems ListingOutcomes Search SearchTheorems LocationTheorems.
From S2P Require Import Calendar IdentityExamples ListingExamples.

#[local] Open Scope string_scope.
#[local] Open Scope list_scope.
#[local] Open Scope Z_scope.

Import Pricing Attributes Transport Publication CatalogueDb ListingDb AuditDb Distance Fuzz.
Import IdentityExamples.Columns_.
Import Tools (admin, owner, conf, drill, emptied, drill_id).

(** ** What the town lends *)
Record Town : Type := mkTown { draws_made : Z; hires : BookingDb.Db }.

#[local] Instance flat : Trigonometry := {| sin x := x; cos _ := Js.of_Z 1; asin x := x; atan2 y _ := y |}.

#[local, program] Instance counting : RandomSource Town := {|
  randomInt a b t := (mkTown (draws_made t + 1) (hires t), Ok (a + draws_made t mod (b - a))) |}.
Next Obligation. intros a b [n h] Hab. do 2 eexists. split; [done|]. pose proof (Z.mod_pos_bound n (b - a)). cbn. lia. Qed.

#[local] Instance gazetteer : PostcodeGeocoder Town := {|
  geocode p := if bool_decide (p = "SW1A 1AA") then mret (Some (mkGeoPoint (Js.of_Z 51) (Js.of_Z 0)))
               else throw (GeocoderUnavailableError p) |}.

#[local] Instance plane : PostGIS := {|
  geography := Js.number * Js.number;
  st_makepoint x y := (x, y);
  st_distance a b := Js.add (Js.abs (Js.sub a.1 b.1)) (Js.abs (Js.sub a.2 b.2));
  st_dwithin a b r := Js.leb (Js.add (Js.abs (Js.sub a.1 b.1)) (Js.abs (Js.sub a.2 b.2))) r |}.

#[local] Instance whole_titles : TextSearch := {| document_matches title _ keyword := bool_decide (title = keyword) |}.

(** The ports that nothing here is about. *)
Definition elsewhere : ListingPorts Town := {|
  account _ _ := true;
  isPublicationEnabled _ := true;
  findOwnerStatuses ids _ := list_to_map ((fun i => (i, private_owner)) <$> ids);
  locate _ := mret None;
  relocate _ _ := mret None;
  findWithin _ _ := mret None;
  sign i := mret ((fun x => mkMediaImage (img_key x) (img_width x) (img_height x)) <$> i);
  signAll _ := mret [];
  findBookedListings _ _ := [];
  has_booking _ _ := false;
  eraseForListings _ := mret tt;
  digest_category c := ac_name c;
  digest_moderation _ := "" |}.

#[local] Instance town_ports : ListingPorts Town := composed elsewhere hires.

Lemma town_asked (ids : list string) (t : Town) : findBookedListings ids t ⊆ ids.
Proof.
  intros i. cbn. unfold BookingDb.findBookedListings. case_decide; [set_solver|].
  rewrite elem_of_elements, elem_of_list_to_set, list_elem_of_fmap. intros (r & -> & [? _]%list_elem_of_filter). done.
Qed.

Lemma town_geocoder : sound_geocoder elsewhere hires.
Proof. split; [|done..]. intros p k. cbn. case_bool_decide; [done|by eexists]. Qed.

Lemma town_settled : settled elsewhere hires.
Proof.
  split.
  - intros ids i k s H. cbn in *. apply elem_of_list_to_map_2, list_elem_of_fmap in H as (j & [= -> ->] & _). by rewrite lookup_insert_eq.
  - intros p k. cbn. by case_bool_decide.
Qed.

(** ** A shop *)
Definition alone (q : request) : turn Town := mkTurn Datatypes.id Datatypes.id q.
Definition start : World Town := mkWorld (empty_db 1000) (mkTown 7 (BookingDb.empty_db 0)).
Definition opening_requests : list request :=
  [RCreate admin "tools" conf "launch"; RDraft (Listings.mkSubmitted owner "tools" drill); RPublish drill_id owner].
Definition opening : list (turn Town) := alone <$> opening_requests.
Definition shop : World Town := schedule opening start.

Lemma town_turns : Forall (turn_of (fun _ => True)) opening.
Proof.
  apply Forall_fmap. repeat (apply Forall_cons; split); [..|by apply Forall_nil]; split; try done; [apply Tools.conf_lawful|apply Tools.drill_lawful].
Qed.

Lemma town_shop_wf : catalogue_wf (cdb shop).
Proof.
  eapply wf_reach; [apply (schedule_reach town_asked (fun _ => True)); [done|apply town_turns|apply wf_empty_catalogue]|].
  apply wf_empty_catalogue.
Qed.

Definition offsets (w : World Town) : list (option (Z * Z)) :=
  (fun l => (fun p => (fuzzBearingDegrees p, fuzzDistanceMetres p)) <$> loc_point l) <$> locations (cdb w).

Example shop_is_placed : offsets shop = [Some (7, 508)].
Proof. vm_compute. reflexivity. Qed.

(** *** The theorems, applied *)
Lemma location_keeps_the_port_witness :
  sound_geocoder elsewhere hires /\
  exists t x, locate "SW1A 1AA" (mkTown 7 (BookingDb.empty_db 0)) = (t, Ok x) /\ lawful_point x.
Proof.
  split; [apply town_geocoder|].
  destruct (location_keeps_the_port elsewhere hires town_geocoder) as [H _].
  destruct (H "SW1A 1AA" (mkTown 7 (BookingDb.empty_db 0))) as (t & x & Hrun & Hx & _). by exists t, x.
Defined.

Lemma undertaken_alone (qs : list request) : undertaken elsewhere hires (schedule (alone <$> qs)).
Proof.
  induction qs as [|q qs IH]; [exact (un_idle elsewhere hires)|].
  change (undertaken elsewhere hires (fun w => schedule (alone <$> qs) (serve (alone q) w))).
  apply (un_turn elsewhere hires (alone q) Datatypes.id); [apply un_idle..| |exact IH].
  intros db. by exists (mkTown 0 (BookingDb.empty_db 0)).
Qed.

Lemma points_are_displaced_witness :
  undertaken elsewhere hires (schedule opening) /\
  forall l p, l ∈ locations (cdb shop) -> loc_point l = Some p -> displaced p.
Proof.
  assert (undertaken elsewhere hires (schedule opening)) as Hf by exact (undertaken_alone opening_requests).
  split; [exact Hf|]. unfold shop.
  apply (points_are_displaced elsewhere hires (schedule opening) start Hf).
  intros l p Hl. by apply elem_of_nil in Hl.
Defined.

(** The same shop somewhere else, published at the same point. *)
Definition moved_row (l : LocationRow) : LocationRow :=
  mkLocationRow (loc_listingId l) "M1 1AE" "" 
    ((fun p => mkPoint (Js.of_Z 53) (Js.of_Z (-2)) 200 900 (fuzzedLatitude p) (fuzzedLongitude p)) <$> loc_point l)
    (loc_createdAt l) (loc_updatedAt l).
Definition moved_shop (w : World Town) : World Town :=
  mkWorld (with_locations (moved_row <$> locations (cdb w)) (cdb w)) (rest w).

Lemma shops_alike (w : World Town) : alike_worlds w (moved_shop w).
Proof.
  split; [|done]. split; [done|]. destruct w as [db t]. cbn [moved_shop cdb locations with_locations].
  rewrite <- list_fmap_compose. apply list_fmap_ext. intros i l _. unfold published, moved_row. cbn. by destruct (loc_point l).
Qed.

Definition asked : Listings.ListingSearchQuery := Listings.mkQuery "SW1A 1AA" 5 None (Some "Drill") None 1.

Lemma address_stays_private_witness :
  snd (Listings.searchNearby Datatypes.id asked shop) = snd (Listings.searchNearby Datatypes.id asked (moved_shop shop)).
Proof.
  apply (address_stays_private elsewhere hires Datatypes.id); [by intros ? ?|exact "" |exact (shops_alike shop)].
Defined.

Lemma searched_is_bookable_witness :
  settled elsewhere hires /\
  exists w' found v listing, Listings.searchNearby Datatypes.id asked shop = (w', Ok (Some found)) /\
    v ∈ Listings.results found /\
    snd (Listings.findQuotable Datatypes.id (su_id (Listings.nb_listing v)) shop) = Ok (Some listing).
Proof.
  split; [apply town_settled|].
  destruct (Listings.searchNearby Datatypes.id asked shop) as [w' x] eqn:E.
  assert (exists found v, x = Ok (Some found) /\ v ∈ Listings.results found) as (found & v & -> & Hv).
  { apply (f_equal snd) in E. cbn [snd] in E. rewrite <- E. vm_compute. do 2 eexists. split; [reflexivity|]. by left. }
  destruct (searched_is_bookable elsewhere hires asked shop w' found town_shop_wf town_settled) as (_ & _ & _ & H);
    [by intros ? ? ? [=]|exact E|].
  destruct (H v Hv) as [(listing & Hl & _) _]. exists w', found, v, listing. exact (conj eq_refl (conj Hv Hl)).
Defined.

Definition within_five_miles : ProximitySearch := mkSearch "SW1A 1AA" 5 None (Some "Drill") None 1 0.
Definition five_miles : question :=
  mkQuestion (mkGeoPoint (Js.of_Z 51) (Js.of_Z 0)) (milesToMetres 5) None (Some "Drill") None.
Definition the_tables (t : Town) : ListingSearch.Tables := ListingSearch.mkTables (cdb shop) (hires t).

Lemma search_pages_partition_witness :
  asks within_five_miles (mkGeoPoint (Js.of_Z 51) (Js.of_Z 0)) five_miles /\
  exists page rows, ListingSearch.findWithin the_tables within_five_miles (rest shop) = (rest shop, Ok (Some page)) /\
    matches page = ListingSearch.toNearbyListing <$> take 1 rows /\
    forall d, d ∈ rows <-> exists r g, answers (the_tables (rest shop)) five_miles d r g.
Proof.
  assert (asks within_five_miles (mkGeoPoint (Js.of_Z 51) (Js.of_Z 0)) five_miles) as Hasks by by split.
  split; [exact Hasks|].
  destruct (search_pages_partition the_tables within_five_miles (mkGeoPoint (Js.of_Z 51) (Js.of_Z 0)) five_miles (rest shop))
    as (rows & Hrows & _ & _ & H); [exact town_shop_wf|vm_compute; reflexivity|exact Hasks|done|].
  destruct (H 1%nat) as (pages & Hlen & Hcat & Hpage). destruct pages as [|page [|]]; [done| |done].
  exists page, rows. destruct (Hpage 0%nat page eq_refl) as [Hrun _]. cbn [fmap list_fmap concat] in Hcat.
  rewrite app_nil_r in Hcat. exact (conj Hrun (conj Hcat Hrows)).
Defined.

(** *** Second points *)
Definition moved (place : ListingCollectionLocation) : Listings.SubmittedListingEdit := {|
  Listings.sl_title := Listings.sl_title drill; Listings.sl_description := Listings.sl_description drill;
  Listings.sl_replacementValue := Listings.sl_replacementValue drill; Listings.sl_attributes := Listings.sl_attributes drill;
  Listings.sl_transportRequirement := Listings.sl_transportRequirement drill;
  Listings.sl_requiresTwoPersonLift := Listings.sl_requiresTwoPersonLift drill; Listings.sl_rates := Listings.sl_rates drill;
  Listings.sl_collectionLocation := Some place;
  Listings.sl_categoryVersionNumber := Listings.sl_categoryVersionNumber drill |}.

(** Paused, its address cleared and given again. *)
Definition cleared_and_back : list (turn Town) :=
  [alone (RPause drill_id owner); alone (REdit drill_id owner emptied);
   alone (REdit drill_id owner drill); alone (RPublish drill_id owner)].
(** Paused, moved while the geocoder is silent, and back. *)
Definition moved_and_back : list (turn Town) :=
  [alone (RPause drill_id owner); alone (REdit drill_id owner (moved (mkLocation "1 Aldersgate" None "London" "EC1A 1BB")));
   alone (REdit drill_id owner drill); alone (RPublish drill_id owner)].

(** The published listing is now published around the same address at another point. *)
Lemma offset_is_redrawn :
  offsets shop = [Some (7, 508)] /\
  offsets (schedule cleared_and_back shop) = [Some (9, 510)] /\
  offsets (schedule moved_and_back shop) = [Some (9, 510)] /\
  (li_status <$> listings (cdb (schedule moved_and_back shop))) = [PUBLISHED].
Proof. vm_compute. by split_and!. Qed.
