(* ===== verification/ProfileExamples.v ===== *)
(** * Concrete profiles, under a concrete cipher

    Somebody saves a profile, moves, and leaves: the theorems of [Cipher] and of
    [ProfileTheorems] applied where their hypotheses hold, and the races that are lost. *)

From Stdlib Require Import Ascii.
From Stdlib Require String.
From S2P Require Import Prelude JsNumber Text Json Money Ledger Columns Bookings AuditLog LocalTime CoreText Answers.
From S2P Require Import ListingStore Cipher Profiles Digest ProfileTheorems Calendar IdentityExamples.

#[local] Open Scope string_scope.
#[local] Open Scope list_scope.
#[local] Open Scope Z_scope.

Import Publication AuditDb ProfileDb Profiles IdentityExamples.Columns_.

(** ** A cipher made of glass

    Bytes in hexadecimal; a ciphertext that carries its additional data in clear, so
    that only the same data opens it. *)
Module Glass.
Definition digit (n : nat) : ascii :=
  if (n <? 10)%nat then ascii_of_nat (48 + n) else ascii_of_nat (87 + n).
Definition undigit (c : ascii) : nat :=
  let n := nat_of_ascii c in if (n <? 58)%nat then n - 48 else n - 87.
Definition hex_byte (c : ascii) : text := let n := nat_of_ascii c in [digit (n / 16); digit (n mod 16)].
Fixpoint unhex (l : text) : text :=
  match l with
  | a :: b :: r => ascii_of_nat (undigit a * 16 + undigit b) :: unhex r
  | _ => []
  end.
Definition hex (l : text) : text := List.flat_map hex_byte l.

Lemma hex_byte_chars (c : ascii) : forallb base64_char (hex_byte c) = true.
Proof. destruct c as [[] [] [] [] [] [] [] []]; by vm_compute. Qed.

Lemma unhex_byte (c : ascii) (r : text) : unhex (hex_byte c ++ r) = c :: unhex r.
Proof. destruct c as [[] [] [] [] [] [] [] []]; reflexivity. Qed.

Lemma unhex_hex (l : text) : unhex (hex l) = l.
Proof.
  induction l as [|c l IH]; [done|]. change (hex (c :: l)) with (hex_byte c ++ hex l). by rewrite unhex_byte, IH.
Qed.

Lemma hex_chars (l : text) : forallb base64_char (hex l) = true.
Proof.
  induction l as [|c l IH]; [done|]. change (hex (c :: l)) with (hex_byte c ++ hex l).
  by rewrite forallb_app, hex_byte_chars, IH.
Qed.

Fixpoint marks (aad rest : text) : text := match aad with [] => "."%char :: rest | c :: aad' => "|"%char :: c :: marks aad' rest end.
Fixpoint unmark (aad l : text) : option text :=
  match aad, l with
  | [], m :: rest => if ascii_dec m "." then Some rest else None
  | c :: aad', m :: d :: l' => if ascii_dec m "|" then if ascii_dec c d then unmark aad' l' else None else None
  | _, _ => None
  end.

Lemma unmark_marks (aad rest : text) : unmark aad (marks aad rest) = Some rest.
Proof. induction aad as [|c aad IH]; cbn; [done|]. by destruct (ascii_dec c c). Qed.

Lemma unmark_other (aad aad' rest : text) : aad <> aad' -> unmark aad' (marks aad rest) = None.
Proof.
  revert aad'. induction aad as [|c aad IH]; intros [|d aad'] Hne; cbn; try done.
  - by destruct rest.
  - destruct (ascii_dec d c) as [->|]; [|done]. apply IH. congruence.
Qed.

#[global, program] Instance glass : NodeCrypto := {|
  base64 := hex; from_base64 := unhex; utf8 := chars; from_utf8 := str;
  randomBytes _ n := List.repeat "0"%char n;
  gcm_seal _ _ aad plain := (marks aad plain, List.repeat "t"%char 16);
  gcm_open _ _ aad _ ciphertext := unmark aad ciphertext |}.
Next Obligation. apply hex_chars. Qed.
Next Obligation. by intros [|c b]. Qed.
Next Obligation. apply unhex_hex. Qed.
Next Obligation. apply str_chars. Qed.
Next Obligation. intros draw n. apply repeat_length. Qed.
Next Obligation. done. Qed.
Next Obligation. intros key iv aad plain. apply unmark_marks. Qed.

Lemma glass_binds : Encryption.gcm_binds.
Proof. intros key iv aad aad' plain Hne. by apply unmark_other. Qed.
End Glass.
Import Glass.

(** ** People *)
Module People.
Definition key : text := List.repeat "k"%char 32.
#[global] Instance under_glass : FieldEncryptor := Encryption.field_encryptor key.
#[global] Instance town_hall : ProfilePorts (list string) := {|
  account_known k u := bool_decide (u ∈ k);
  findActive u k := Ok (if bool_decide (u ∈ k) then Some (mkAccount u 0) else None);
  digest_profile p := ap_displayName p |}.

Definition ann_id : string := hex_uuid 900.
Definition bob_id : string := hex_uuid 901.
Definition cat_id : string := hex_uuid 902.
Definition ann : Actor := mkActor ann_id None None.
Definition bob : Actor := mkActor bob_id None None.
Definition cat : Actor := mkActor cat_id None None.
Definition people : list string := [ann_id; bob_id; cat_id].

Definition at_home (raw : string) : AddressDetail := mkAddress "1 The Mall" (Some "Flat 2") "London" raw.
Definition moving_in (raw : string) : ProfileChanges := mkChanges "Ann" (Some "07700 900123") (Some (at_home raw)) (Some private_owner).
Definition nameless : ProfileChanges := mkChanges "Bob" None None None.

Notation Here := (World (list string)).
Definition alone (q : request) : turn (W := list string) := mkTurn calm still false q.
Definition nobody : Here := mkWorld (empty_db 5) people.
Definition housed : Here := serve (alone (RSave ann (moving_in "sw1a1aa"))) nobody.

Lemma people_canonical (n : nat) : canonical (hex_uuid n).
Proof. exact (uuid_in_out n). Qed.

Lemma alone_undertaken (who : string -> Prop) (q : request) :
  who (requester q) -> canonical (requester q) -> undertaken who (serve (alone q)).
Proof.
  intros Hw Hc. apply (un_turn who (alone q) Datatypes.id Datatypes.id); try done; try apply un_idle.
  intros db. by exists [].
Qed.

Lemma housed_wf : profiles_wf (pdb housed).
Proof.
  assert (profiles_wf (pdb nobody)) as Hwf by apply wf_no_profiles.
  eapply ok_wf, (undertaken_kept (fun _ => True) (pdb nobody)); [|by split].
  apply alone_undertaken; [done|apply people_canonical].
Qed.

Lemma ann_recorded : admitted (W := list string) people ann.
Proof. split; [done|apply people_canonical|done]. Qed.

(** Ann moves out while Bob fills in his profile. *)
Definition moving_out : turn (W := list string) :=
  mkTurn (serve (alone (RSave bob nameless))) (fun db => pdb (serve (alone (RSave bob nameless)) (mkWorld db people))) true (RErase ann).
Definition ann_or_bob (u : string) : Prop := u = ann_id \/ u = bob_id.

Lemma moving_out_undertaken : undertaken ann_or_bob (serve moving_out).
Proof.
  assert (undertaken ann_or_bob (serve (alone (RSave bob nameless)))) as Hb
    by (apply alone_undertaken; [by right|apply people_canonical]).
  apply (un_turn _ moving_out (serve (alone (RSave bob nameless))) Datatypes.id); try done.
  - by left.
  - intros db. by exists people.
  - apply un_idle.
Qed.

Definition with_cat : Here := serve (alone (RSave cat nameless)) housed.
Lemma with_cat_wf : profiles_wf (pdb with_cat).
Proof.
  eapply ok_wf, (undertaken_kept (fun _ => True) (pdb housed)); [|by split; [apply housed_wf|]].
  apply alone_undertaken; [done|apply people_canonical].
Qed.

(** ** Races *)

(** Somebody without an address erases the profile, and saves an address between the two
    deletions, of which the first found no row to lock: the name goes, and the address,
    with its readable street lines, stays. *)
Definition nameless_ann : Here := serve (alone (RSave ann nameless)) nobody.
Definition torn : Here :=
  serve (mkTurn calm (fun db => pdb (serve (alone (RSave ann (moving_in "SW1A 1AA"))) (mkWorld db people))) false (RErase ann))
    nameless_ann.
Example half_erased :
  profile_of ann_id (pdb torn) = None /\ (ad_town <$> address_of ann_id (pdb torn)) = Some "London" /\
  (a ← address_of ann_id (pdb torn); match open_ (ad_encryptedDetail a) ann_id with Ok d => Some d | Err _ => None end)
    = Some ("1 The Mall", Some "Flat 2").
Proof. by vm_compute. Qed.

(** ** The theorems *)
Lemma address_bound_to_its_row_witness :
  Encryption.open_detail key (Encryption.seal_detail key 3 ("1 The Mall", None) ann_id) ann_id = Ok ("1 The Mall", None) /\
  Encryption.open_detail key (Encryption.seal_detail key 3 ("1 The Mall", None) ann_id) bob_id
    = Err (DecryptionError "Stored value could not be decrypted").
Proof.
  assert (ann_id <> bob_id) as Hne by by vm_compute.
  destruct (Encryption.address_bound_to_its_row key 3 ("1 The Mall", None) ann_id bob_id glass_binds Hne) as (_ & H1 & H2).
  exact (conj H1 H2).
Defined.

Lemma profiles_belong_to_their_owner_witness :
  profile_of cat_id (pdb (serve moving_out with_cat)) = profile_of cat_id (pdb with_cat) /\
  profile_of ann_id (pdb (serve moving_out with_cat)) = None.
Proof.
  split; [|by vm_compute].
  assert (~ ann_or_bob cat_id) as Hc by (intros [H|H]; by vm_compute in H).
  destruct (profiles_belong_to_their_owner ann_or_bob (serve moving_out) with_cat moving_out_undertaken with_cat_wf) as [_ H].
  exact (proj1 (H cat_id Hc)).
Defined.

Lemma saved_is_read_back_witness :
  exists db', saveMine calm still false ann (moving_in "sw1a1aa") housed = (mkWorld db' people,
    Ok (mkMyProfile "Ann" (Some "07700 900123") (Some (at_home "SW1A 1AA")) (Some private_owner) "1970-01-01T00:00:00.005Z")).
Proof.
  pose proof (saved_is_read_back false ann (moving_in "sw1a1aa") (pdb housed) people housed_wf ann_recorded) as H.
  cbv zeta in H. replace (address_saved (moving_in "sw1a1aa")) with (Ok (Some (at_home "SW1A 1AA"))) in H by by vm_compute.
  destruct H as (db' & mine & before & H & -> & _). exists db'.
  replace (pclock (pdb housed)) with 5 in H by by vm_compute.
  replace (Time.toIsoUtc 5) with "1970-01-01T00:00:00.005Z" in H by by vm_compute. exact H.
Defined.

Lemma erased_is_gone_witness :
  exists db', eraseFor calm still true ann housed = (mkWorld db' people, Ok tt) /\ ann_id ∉ ad_userId <$> addresses db'.
Proof.
  destruct (erased_is_gone true ann (pdb housed) people housed_wf ann_recorded) as (db' & H1 & _ & H2 & _).
  exists db'. exact (conj H1 H2).
Defined.

Lemma strangers_see_the_area_witness :
  snd (Profiles.findPublic (W := list string) calm still false ann_id housed) =
    Ok (Some (mkPublicProfile ann_id "Ann" (Some "SW1A") (Some "London") "1970-01")).
Proof.
  destruct (strangers_see_the_area calm still (fun _ H => H) (fun _ H => H) false ann_id housed housed_wf
    (people_canonical 900)) as [H _].
  rewrite H. by vm_compute.
Defined.

Lemma statuses_agree_witness :
  exists statuses, Profiles.findOwnerStatuses [ann_id; bob_id] housed = (housed, Ok statuses) /\
    statuses !! ann_id = Some private_owner.
Proof.
  assert (Forall canonical [ann_id; bob_id]) as Hc by (repeat (apply Forall_cons; split); try apply people_canonical; by apply Forall_nil).
  destruct (statuses_agree false [ann_id; bob_id] housed housed_wf Hc) as (m & Hm & H). exists m. split; [exact Hm|].
  destruct (H ann_id (people_canonical 900)) as (s & Hs & ->). apply (f_equal snd) in Hs. vm_compute in Hs.
  injection Hs as <-. vm_compute. reflexivity.
Defined.

(** ** Digests *)
#[local] Instance no_hash : NodeHash := {| hkdfSync _ master _ _ _ := master; createHmac _ _ data := str data |}.

Lemma text_kept (v w : state) : StateDigest.no_collision key v w.
Proof. unfold StateDigest.no_collision, StateDigest.digest_of. cbn. intros H. by apply (f_equal chars) in H; rewrite !chars_str in H. Qed.

Definition written : list (string * state) := [("name", s_string "Ann"); ("town", s_null)].
Definition rewritten : list (string * state) := [("town", s_null); ("phone", s_undefined); ("name", s_string "Ann")].

Lemma written_lawful : StateDigest.lawful (s_object written) /\ StateDigest.lawful (s_object rewritten).
Proof.
  split; (constructor; [by apply (bool_decide_unpack _)|by apply (bool_decide_unpack _)|]);
    repeat (apply Forall_cons; split); by constructor.
Qed.

Lemma same_digest_same_content_witness :
  StateDigest.digest_of key (s_object written) = StateDigest.digest_of key (s_object rewritten).
Proof.
  destruct (StateDigest.same_digest_same_content key) as [H _].
  apply (H written rewritten (proj1 written_lawful) (proj2 written_lawful) (text_kept _ _)).
  intros k. destruct (decide (k = "name")) as [->|H1]; [by vm_compute|]. destruct (decide (k = "town")) as [->|H2]; [by vm_compute|].
  destruct (decide (k = "phone")) as [->|H3]; [by vm_compute|].
  unfold StateDigest.member, find_by, written, rewritten. cbn. by rewrite !bool_decide_eq_false_2 by congruence.
Defined.

Definition before_move : AuditableProfile := mkAuditableProfile "Ann" None (Some (at_home "SW1A 1AA")) None.
Definition after_move : AuditableProfile := mkAuditableProfile "Ann" None (Some (at_home "SW1A 2AA")) None.

Lemma digests_show_changes_witness :
  StateDigest.digest_of key (StateDigest.profile_state before_move) <> StateDigest.digest_of key (StateDigest.profile_state after_move).
Proof.
  destruct (StateDigest.digests_show_changes key) as [H _]. intros E.
  apply (H before_move after_move (text_kept _ _)) in E. vm_compute in E. discriminate E.
Defined.
End People.
