(* ===== verification/MediaExamples.v ===== *)
(** * Concrete pictures

    A drill with two pictures, a removal in the middle of an upload, an order, and an
    erasure while the store of objects refuses to delete. *)

From Stdlib Require Import Ascii.
From Stdlib Require String.
From S2P Require Import Prelude JsNumber Text Json Http Ledger LedgerStore Columns Answers CatalogueStore ListingStore Listings.
From S2P Require Import Search Geocoder Media MediaTheorems IdentityExamples ListingExamples.

#[local] Open Scope string_scope.
#[local] Open Scope list_scope.
#[local] Open Scope Z_scope.

Import Publication CatalogueDb ListingDb MediaDb ObjectStores ListingMedia IdentityExamples.Columns_.

Lemma hex_segment (n : nat) : "/"%char ∉ chars (hex_uuid n).
Proof.
  unfold hex_uuid. rewrite chars_str, elem_of_app. intros [H|H].
  - by apply (bool_decide_eq_true_2 ("/"%char ∈ chars prefix)) in H; vm_compute in H.
  - destruct (hex_uuid_digits n) as [Hd _]. unfold all_digits in Hd. rewrite Forall_forall in Hd.
    apply Hd in H. by vm_compute in H.
Qed.

(** ** Pictures of the drill *)
Module Pictures.

(** Anything is a picture of a hundred pixels by fifty, and is its own rendition. *)
#[global] Instance any_image : ImageLibrary := {|
  metadata _ := Ok (mkMetadata (Some "jpeg") (Some 100) (Some 50));
  render input edge _ := Ok (input, (Z.min edge 100, Z.min edge 50));
  sha256_hex bytes := str bytes |}.

Definition bytes : text := chars "picture".
Definition here : World ObjectStores.Heap := mkWorld (Listings.cdb Tools.shop) ∅.
Definition upload : picture_request := PAdd Tools.drill_id Tools.owner bytes.
Definition one : World ObjectStores.Heap := picture_serve Datatypes.id upload here.
Definition two : World ObjectStores.Heap := picture_serve Datatypes.id upload one.

Definition ids (w : World ObjectStores.Heap) : list string := me_id <$> MediaDb.listFor Tools.drill_id (cdb w).
Definition first_id : string := default "" (head (ids two)).

Example two_pictures :
  (length (ids two), (fun m => me_position m) <$> media (cdb two), size (objects two)) = (2%nat, [0; 1], 4%nat).
Proof. vm_compute. reflexivity. Qed.

(** The first picture is removed between any two steps of the upload of a third. *)
Definition removal : World ObjectStores.Heap -> World ObjectStores.Heap :=
  picture_serve Datatypes.id (PRemove Tools.drill_id Tools.owner first_id).
Definition disturbed : World ObjectStores.Heap -> World ObjectStores.Heap := picture_serve removal upload.

Lemma disturbed_pictured : pictured (fun _ => False) disturbed.
Proof.
  apply (pd_turn _ upload removal Datatypes.id); [done| |apply pd_idle].
  by apply (pd_turn _ (PRemove Tools.drill_id Tools.owner first_id) Datatypes.id Datatypes.id); [|apply pd_idle..].
Qed.

Example removed_meanwhile : (length (ids (disturbed two)), size (objects (disturbed two))) = (2%nat, 4%nat).
Proof. vm_compute. reflexivity. Qed.

Lemma none_whole (w : World ObjectStores.Heap) : media (cdb w) = [] -> pictures_wf (fun _ => False) w.
Proof.
  intros E. split; rewrite E; [by intros m H%elem_of_nil|by apply NoDup_nil|by intros a b n H%elem_of_nil|by intros m H%elem_of_nil].
Qed.

Lemma here_whole : pictures_wf (fun _ => False) here.
Proof. apply none_whole. vm_compute. reflexivity. Qed.

Lemma two_pictured : pictured (fun _ => False) (fun w => disturbed (picture_serve Datatypes.id upload (picture_serve Datatypes.id upload w))).
Proof.
  apply (pd_turn _ upload Datatypes.id (fun w => disturbed (picture_serve Datatypes.id upload w))); [done|apply pd_idle|].
  apply (pd_turn _ upload Datatypes.id disturbed); [done|apply pd_idle|apply disturbed_pictured].
Qed.

Lemma pictures_stay_whole_witness : pictures_wf (fun _ => False) (disturbed two) /\ length (media (cdb (disturbed two))) = 2%nat.
Proof.
  split; [|vm_compute; reflexivity].
  exact (pictures_stay_whole hex_segment (fun _ => False) _ here two_pictured here_whole).
Defined.

(** *** Order *)
Lemma reordered_as_asked_witness :
  exists db' out, ListingMedia.reorder calm Tools.drill_id Tools.owner (rev (ids two)) (mkWorld (cdb two) (objects two)) = (mkWorld db' (objects two), Ok (Some out)) /\
    om_id <$> out = rev (ids two).
Proof.
  assert (NoDup (me_id <$> media (cdb two))) as Hnd by (apply (bool_decide_unpack _); vm_compute; exact I).
  assert (existsOwnedBy Tools.drill_id Tools.owner (cdb two) = true) as Ho by (vm_compute; reflexivity).
  assert (forall k ttl s, exists u, signedUrl (ObjectStore := ObjectStores.memory) k ttl s = (s, Ok u)) as Hs by (intros k ttl s; by eexists).
  pose proof (reordered_as_asked Hs Tools.drill_id Tools.owner (rev (ids two)) (cdb two) (objects two) Hnd Ho) as H.
  assert (sameSet (me_id <$> MediaDb.listFor Tools.drill_id (cdb two)) (rev (ids two)) = true) as E by (vm_compute; reflexivity).
  rewrite E in H. destruct H as (db' & out & H1 & H2 & _). exists db', out. exact (conj H1 H2).
Defined.

(** *** Erasing, while the store deletes nothing *)
Definition stubborn : ObjectStore ObjectStores.Heap := {|
  put := put (ObjectStore := ObjectStores.memory);
  delete _ := throw (ObjectStoreUnavailableError "The object store could not be reached");
  signedUrl := signedUrl (ObjectStore := ObjectStores.memory) |}.

(** The rows go all the same, and with them the only handle on the bytes: erasing again
    finds nothing to do. *)
Example rows_go_bytes_stay :
  let '(w, r) := ListingMedia.eraseForListings (Store := stubborn) calm [Tools.drill_id] two in
  let '(w', r') := ListingMedia.eraseForListings calm [Tools.drill_id] w in
  (r, length (media (cdb w)), size (objects w), r', size (objects w')) = (Ok tt, 0%nat, 4%nat, Ok tt, 4%nat).
Proof. vm_compute. reflexivity. Qed.
End Pictures.

(** ** A provider that answers from a script *)
Module Provider.
Import PostcodesIo.

Definition script : Type := list (result FetchResponse).
#[global] Instance scripted : Fetch script := {|
  fetch _ := fun answers =>
    match answers with
    | [] => ([], Err (ForeignError "TimeoutError"))
    | a :: answers' => (answers', a)
    end |}.

Definition found (latitude : json) : string :=
  Json.stringify (j_object [("status", j_number (Js.of_Z 200));
    ("result", j_object [("postcode", j_string "SW1A 1AA"); ("latitude", latitude); ("longitude", j_number (Js.of_Z 0))])]).
Definition answers_200 (body : result string) : result FetchResponse := Ok (mkResponse 200 body).

Definition asked (answers : script) : result (option GeocodedPostcode) := snd (locate POSTCODES_IO_BASE_URL "SW1A 1AA" answers).

(** A terminated postcode has no coordinates; a body of [null], and one that is cut short,
    escape as something else. *)
Example outcomes :
  [asked [answers_200 (Ok (found (j_number (Js.of_Z 51))))];
   asked [Ok (mkResponse 404 (Ok ""))];
   asked [answers_200 (Ok (found j_null))];
   asked [];
   asked [answers_200 (Ok "null")];
   asked [answers_200 (Err (ForeignError "TimeoutError"))]] =
  [Ok (Some (mkGeocoded "SW1A 1AA" (Js.of_Z 51) (Js.of_Z 0))); Ok None;
   Err (GeocoderUnavailableError "The geocoder returned a result with no usable coordinates");
   Err (GeocoderUnavailableError "The geocoder did not respond in time");
   Err (TypeError "Cannot read properties of null");
   Err (ForeignError "TimeoutError")].
Proof. vm_compute. reflexivity. Qed.

Lemma geocoder_outcomes_witness : snd (locate POSTCODES_IO_BASE_URL "SW1A 1AA" [Ok (mkResponse 404 (Ok ""))]) = Ok None.
Proof.
  destruct (geocoder_outcomes (Net := scripted) POSTCODES_IO_BASE_URL "SW1A 1AA" [Ok (mkResponse 404 (Ok ""))]) as (_ & _ & H & _).
  apply H. exists (Ok ""). reflexivity.
Defined.
End Provider.
